(* ===== verification/_CoqProject ===== *)
-Q . S2P
Prelude.v
Codec.v
Errors.v
Runtime.v
Pod.v
State.v
ExtensionType.v
ExtensionData.v
Tlv.v
TlvFacts.v
TlvAlloc.v
StateExt.v
Fee.v
Authority.v
Transfer.v
AccountFacts.v
TransferFacts.v
Supply.v
AccountOps.v
AccountOpsFacts.v
SetAuthority.v
SetAuthorityFacts.v
Instruction.v
InstructionFacts.v
StateFacts.v
TlvSpec.v
TlvTotal.v
PackedExt.v
InitOps.v
InitFacts.v
SystemOps.v
TransferFeeOps.v
CiphertextOps.v
CiphertextFacts.v
ProofExtraction.v
ConfidentialOps.v
ConfidentialTransferOps.v
ConfidentialFeeOps.v
ConfidentialMintBurnOps.v
ConfidentialFacts.v
ProofMeaning.v
ExtensionOps.v
AccountAlloc.v
InterfaceOps.v
Unborn.v
AccountAllocFacts.v
SystemFacts.v
LedgerSpec.v
Ledger.v
UiAmount.v
UiAmountOps.v
TransferFeeFacts.v
LedgerFacts.v
FeeLedger.v
InitLedger.v
ExtensionFacts.v
ConfidentialLedger.v
InterfaceFacts.v
Vaults.v
EncryptedSupply.v
EncryptedFees.v
VaultEffects.v
Wallet.v
Registry.v
OftState.v
OftOps.v
Processor.v
Machine.v
Liveness.v
OftFacts.v
TransferErrors.v
Examples.v
ExamplesOps.v
ExamplesSystem.v
ExamplesZk.v
ExamplesInterface.v
ExamplesLedger.v
ExamplesVault.v
ExamplesRegistry.v
ExamplesOft.v
