(* ===== verification/Prelude.v ===== *)
(** * Token-2022 in Rocq

    A model of the Token-2022 program ([src/program], [src/interface]) with its companions
    ([src/confidential], [src/layerzero/programs/oft]) and the theorems that make it
    correct.  The program is an interpreter of instructions
    over accounts of a blockchain: an account has a key, lamports, an owner program
    and bytes; the accounts the program owns hold mints, token accounts and
    multisigs, each a packed base state followed by a list of typed extensions.
    Three more parts work with it: the ElGamal registry program keeps a proved key per
    wallet, which accounts may be configured from; the OFT program moves tokens between
    chains by calls of the token program; wallets make the proofs that confidential
    instructions verify.

    ** The model

    The state is a [world]: the accounts by key, with the data the instruction
    returns ([Runtime.v]).  A handler is a function from the program id, the
    accounts passed, its arguments and the world to [res world]: the new world, a
    [ProgramError], or a panic (an index out of range, or a second mutable borrow
    of one account's data: [borrow] takes the keys whose data is held, so aliased
    accounts behave as the reference cells of the source do).  An instruction that
    fails changes nothing, which is the runtime's rule for failed transactions.
    What the program gets from its surroundings is the class [Runtime]: the rent
    and the clock, the height of the call stack, sibling instructions, the transfer hook
    of another program, the sizes of cryptographic types and the error values of
    library code.  [runtime_ok] (in [Machine.v]) states what a theorem needs of
    them; [example_runtime] is an instance that the witnesses run on.  More
    classes are interfaces to code outside the repository: [SystemProgram]
    ([SystemOps.v]), the three calls of the system program with the effect they
    have when they succeed; [F64] ([UiAmountOps.v]), the floating-point operations
    of the UI amounts; [Curve] ([CiphertextOps.v]), the curve operations on encoded
    points and scalars, with the group they compute in, [CurveGroup]
    ([CiphertextFacts.v]); [ZkSdk] ([ProofExtraction.v]), the layouts of proof
    contexts; [Openings] ([ProofMeaning.v]), what a commitment is to, which
    says what a verified proof proves; [VariableLenPack], [MetadataInterface] and
    [GroupInterface] ([AccountAlloc.v], [InterfaceOps.v]), the records and instructions
    of the metadata and group crates; [ProgramAddresses] ([Registry.v]), derived addresses;
    [TokenInterface], [Anchor] and [Endpoint] ([OftOps.v]), the calls of the OFT
    program; and [WalletSdk] ([Wallet.v]), keys, ciphertexts and the making of proofs.  The
    laws a theorem needs of an interface are classes of their own ([CurveGroup], [GroupLaws],
    [TokenLaws], [CiphertextLaws], [ProofLaws] and others), and each has an instance in the
    [Examples*.v]; [TokenLaws] has one that is the token program of this development
    ([token_2022_keeps_laws]).  In [ExamplesZk.v] and [ExamplesVault.v] the points are residues
    and the encryption has no blinding.

    Machine integers are [Z] with their ranges ([in_uint 64]); every
    [checked_…]/[saturating_…] operation of the source is written with its width.
    Buffers are [list byte], read and written at offsets through [codec]s, whose
    laws ([Codec.v]) give the round trips of every struct.  Keys are 256-bit
    integers, the zero key being [Pubkey::default()].

    ** Files

    - [Prelude.v], [Codec.v], [Errors.v], [Runtime.v]: the result monad and
      machine arithmetic; plain-old-data layouts; [interface/src/error.rs]; the
      runtime.
    - [Pod.v], [State.v], [StateFacts.v]: base states in place
      ([interface/src/pod.rs]) and packed ([interface/src/state.rs]).
    - [ExtensionType.v], [ExtensionData.v], [Tlv.v], [TlvFacts.v], [TlvAlloc.v],
      [StateExt.v], [PackedExt.v], [TlvSpec.v], [TlvTotal.v]:
      [interface/src/extension]: the codes and sizes of extensions, the structs
      stored, the type-length-value area (search, scan, allocation, resizing), base
      states with extensions in both views, the area's specification as a list of
      entries, and its termination.
    - [Fee.v]: [interface/src/extension/transfer_fee/mod.rs].
    - [Authority.v]: [Processor::validate_owner] and the guards.
    - [Transfer.v], [Supply.v], [AccountOps.v], [SetAuthority.v], [InitOps.v]: the
      handlers of [program/src/processor.rs]; [AccountFacts.v],
      [TransferFacts.v], [AccountOpsFacts.v], [SetAuthorityFacts.v], [InitFacts.v]
      say what they do.
    - [TransferFeeOps.v], [ExtensionOps.v]: [program/src/extension/*/processor.rs]
      ([TransferFeeFacts.v], [ExtensionFacts.v]).
    - [SystemOps.v]: [Reallocate] and [CreateNativeMint], which call the system program
      ([SystemFacts.v]).
    - [Instruction.v], [InstructionFacts.v], [Processor.v]: the instruction codec
      ([interface/src/instruction.rs], [program/src/pod_instruction.rs]) and the
      dispatch [Processor::process].
    - [UiAmount.v], [UiAmountOps.v]: amounts as text ([program/src/lib.rs]), the two
      instructions that convert them, and the mints that scale them.
    - [CiphertextOps.v], [ProofExtraction.v], [ConfidentialOps.v],
      [ConfidentialTransferOps.v], [ConfidentialFeeOps.v], [ConfidentialMintBurnOps.v]:
      the arithmetic on ciphertexts and the extraction of proof contexts
      ([confidential/ciphertext-arithmetic], [confidential/proof-extraction]), and
      the handlers of the three confidential extensions.  [CiphertextFacts.v] says
      what the arithmetic does to decryptions, [ConfidentialFacts.v] what each
      handler checked when it succeeds.
    - [ProofMeaning.v], [Vaults.v], [EncryptedSupply.v], [EncryptedFees.v],
      [VaultEffects.v]: an account with a confidential balance as a vault of
      numbers, the ones its ciphertexts decrypt to, and each handler as a step on
      vaults, on the encrypted supply and on the encrypted fees.
    - [Wallet.v]: [confidential_transfer/account_info.rs] and
      [confidential/proof-generation].
    - [AccountAlloc.v], [InterfaceOps.v] ([AccountAllocFacts.v], [InterfaceFacts.v]):
      extensions of variable length and the handlers of [extension/token_metadata] and
      [extension/token_group].
    - [Registry.v]: [confidential/elgamal-registry] and its interface, with what it
      guarantees to accounts configured from it.
    - [OftState.v], [OftOps.v], [OftFacts.v]: [layerzero/programs/oft]: its state, codecs
      and arithmetic; its instructions; its invariant.
    - [LedgerSpec.v], [Ledger.v], [Unborn.v], [LedgerFacts.v], [FeeLedger.v],
      [InitLedger.v], [ConfidentialLedger.v], [Machine.v],
      [TransferErrors.v], [Liveness.v]: the abstract ledger of a mint, what each
      handler does to it, the program as a transition system that implements it,
      the errors of a transfer in their order, and what a holder can always do.
    - [Examples*.v]: concrete worlds on which the theorems are applied.

    A definition has the name of the Rust function it translates; the comment
    above it says which one where the name is not unique.  A long handler is cut
    where the source has a block: [process_transfer] is the composition of
    [transfer_mint], [transfer_authority], [transfer_credit] and the others.

    ** Theorems

    - The machine: [supply_is_exact], the invariant of the whole program.  A
      [trace] is a history of its instructions and of steps of other programs.  In
      every world a trace leads to, the supply of a mint is the sum of the balances
      of its accounts, of the fees withheld and of what confidential deposits put
      out of sight less what withdrawals brought back; so no tokens appear or
      vanish.  What the public amounts cannot show is that withdrawals never exceed
      deposits: [covered] supposes it, and the theorems on vaults are its reason.
      [program_refines_ledger] states the same as a refinement: every trace is a
      run of the abstract ledger of [LedgerSpec.v], and an instruction makes only
      moves of its own kind.  Each handler contributes a lemma ([…_conserves]).
    - Errors: [transfer_checked_errors], the exact list of reasons to refuse a
      checked transfer between two accounts of a mint without a hook, under a single
      authority, in their order.
    - Encrypted balances: under any proof system whose verified proofs hold
      ([proofs_hold]), a confidential deposit, withdrawal, transfer, mint and burn
      move numbers behind the ciphertexts as the public instructions move public
      ones ([process_…_effect] of [VaultEffects.v]): the totals are kept, balances
      stay within 64 bits, and only the owner or the mint authority can cause them.
      A verified proof is taken to say something of ciphertexts only for keys that have a
      secret ([real_key]); the zero key, which a mint without an auditor uses, decrypts
      nothing.  That the account credited (or the supply) has a real key is a hypothesis
      ([keyed], [supply_keyed]); the source of a transfer has one by its proof.
    - Wallets: the proofs a wallet makes of a transfer with a fee are of true statements,
      for the fee the program computes ([transfer_with_fee_proofs]); what it submits when it
      applies its pending balance is the balance of the vault ([wallet_follows_apply]).
    - Metadata and groups: who may change them, and that nothing else changes
      ([metadata_update_effect], [metadata_initialize_emit], [initialize_member_effect]).
    - The registry: [registry_belongs_to_wallet], an invariant of its histories, and
      [configured_from_registry], its composition with the token program.
    - OFT: [escrow_covers_tvl], the invariant that what was sent away is in escrow;
      [send_effect], the debit, the amounts and the message of a send; [rate_limiter_bounds].
      The invariant supposes that other transactions and the endpoint program take nothing out
      of accounts that the OFT program owns ([spares], [EndpointLaws]): it does not speak of
      hostile endpoints, nor of mints whose permanent delegate takes from the escrow.
    - Liveness: in a world that the program reaches the owner of tokens can send them
      ([payment_goes_through]): no overflow and no other check stops the payment.
    - Handlers: for each one, who may call it, what it changes and that it
      changes nothing else ([…_effect], [process_transfer_*]).
    - Signatures: [validate_owner_multisig], m-of-n.
    - Storage: reading, allocating and resizing extensions agree with an
      association list ([tlv_lookup], [tlv_alloc], [tlv_realloc]); states and their
      bytes correspond; account types are disjoint; on arbitrary bytes every operation
      ends without a panic ([storage_total]).
    - Arithmetic: fees are the exact capped ceiling and cannot overflow, the inverse
      is the least solution.
    - Encodings: instructions, packed states and amounts as text round-trip; the
      strict and the in-place decoders agree.

    ** Fuel

    The loops over the extension area consume at least four bytes a round, and run with the length
    of the area plus one as fuel; [digits] prints a 64-bit number with fuel
    twenty, the decimal digits of 2^64.

    ** Not modelled

    - The curve, the ciphers, the layout of proof contexts and the making and verification
      of proofs ([solana_curve25519], [solana_zk_sdk]) are parameters.
    - The records, codecs and instruction decoding of the metadata and group crates are
      parameters; the handlers are modelled.
    - Anchor, the endpoint and the option codec of the [oapp] crate; [oft_version], a
      constant.  The accounts of the OFT program are kept decoded.
    - The arithmetic of [f64] is a parameter.
    - The variants of proof generation for wasm32; log messages; the clients, the CLI and the
      bindings, which only build transactions. *)
From stdpp Require Export prelude gmap list strings.
From coqutil Require Export Byte Word.LittleEndianList.
From Stdlib Require Export Lia ZArith.

#[global] Open Scope Z_scope.

#[export] Instance byte_eq_decision : EqDecision Byte.byte := Byte.byte_eq_dec.

(** ** Results: a Rust [Result] whose evaluation may also panic *)

Inductive result (E A : Type) : Type :=
| Ok (a : A)
| Err (e : E)
| Panic.
Arguments Ok {E A} a.
Arguments Err {E A} e.
Arguments Panic {E A}.

#[export] Instance result_ret {E} : MRet (result E) := λ A a, Ok a.
#[export] Instance result_bind {E} : MBind (result E) := λ A B f r,
  match r with
  | Ok a => f a
  | Err e => Err e
  | Panic => Panic
  end.
#[export] Instance result_fmap {E} : FMap (result E) := λ A B f r,
  match r with
  | Ok a => Ok (f a)
  | Err e => Err e
  | Panic => Panic
  end.

(** [if b { return Err(e) }] *)
Definition throw_if {E} (b : bool) (e : E) : result E unit :=
  if b then Err e else Ok tt.

(** [Option::ok_or] *)
Definition ok_or {E A} (o : option A) (e : E) : result E A :=
  match o with Some a => Ok a | None => Err e end.

(** [Option::unwrap], and an index that must be in range. *)
Definition unwrap {E A} (o : option A) : result E A :=
  match o with Some a => Ok a | None => Panic end.

(** [Result::map_err] *)
Definition map_err {E F A} (f : E → F) (r : result E A) : result F A :=
  match r with
  | Ok a => Ok a
  | Err e => Err (f e)
  | Panic => Panic
  end.

(** [Result::ok], [Result::is_ok] *)
Definition ok_opt {E A} (r : result E A) : option A :=
  match r with Ok a => Some a | _ => None end.
Definition is_ok {E A} (r : result E A) : bool :=
  match r with Ok _ => true | _ => false end.

Section result_lemmas.
Context {E A B : Type}.
Implicit Types r : result E A.

Lemma bind_Ok (f : A → result E B) r b :
  (r ≫= f) = Ok b ↔ ∃ a, r = Ok a ∧ f a = Ok b.
Proof. destruct r; naive_solver. Qed.

Lemma Ok_inj (a b : A) : @Ok E A a = Ok b → a = b.
Proof. by intros [= ->]. Qed.

Lemma Ok_bind (f : A → result E B) a : (Ok a ≫= f) = f a.
Proof. done. Qed.

Lemma bind_Err (f : A → result E B) r e :
  (r ≫= f) = Err e ↔ r = Err e ∨ ∃ a, r = Ok a ∧ f a = Err e.
Proof. destruct r; naive_solver. Qed.

Lemma bind_Panic (f : A → result E B) r :
  (r ≫= f) = Panic ↔ r = Panic ∨ ∃ a, r = Ok a ∧ f a = Panic.
Proof. destruct r; naive_solver. Qed.

Lemma throw_if_Ok b (e : E) u : throw_if b e = Ok u ↔ b = false.
Proof. destruct b, u; naive_solver. Qed.

Lemma ok_or_Ok (o : option A) (e : E) a : ok_or o e = Ok a ↔ o = Some a.
Proof. destruct o; naive_solver. Qed.

Lemma unwrap_Ok (o : option A) a : unwrap (E:=E) o = Ok a ↔ o = Some a.
Proof. destruct o; naive_solver. Qed.

Lemma map_err_Ok {F} (f : E → F) r a : map_err f r = Ok a ↔ r = Ok a.
Proof. destruct r; naive_solver. Qed.

Lemma is_ok_spec r : is_ok r = true ↔ ∃ a, r = Ok a.
Proof. destruct r; naive_solver. Qed.

Lemma ok_opt_Some r a : ok_opt r = Some a ↔ r = Ok a.
Proof. destruct r; naive_solver. Qed.
End result_lemmas.

(** [inv_ok] opens every hypothesis that says a computation returned [Ok]. *)
Ltac inv_ok_step :=
  match goal with
  | H : (_ ≫= _) = Ok _ |- _ =>
      apply bind_Ok in H; destruct H as (? & ? & H)
  | H : throw_if _ _ = Ok _ |- _ => apply throw_if_Ok in H
  | H : ok_or _ _ = Ok _ |- _ => apply ok_or_Ok in H
  | H : unwrap _ = Ok _ |- _ => apply unwrap_Ok in H
  | H : map_err _ _ = Ok _ |- _ => apply map_err_Ok in H
  | H : mret _ = Ok _ |- _ => injection H as H
  | H : Ok _ = Ok _ |- _ => injection H as H
  | H : Err _ = Ok _ |- _ => discriminate H
  | H : Panic = Ok _ |- _ => discriminate H
  | H : (let '(_, _) := ?p in _) = Ok _ |- _ => destruct p eqn:?
  end.
Ltac inv_ok := repeat (inv_ok_step; simpl in * |-).

(** ** Machine integers: a w-bit integer is a [Z] in range *)

Definition in_uint (w : Z) (z : Z) : Prop := 0 ≤ z < 2 ^ w.
Definition in_sint (w : Z) (z : Z) : Prop := - 2 ^ (w - 1) ≤ z < 2 ^ (w - 1).

(** [u_w::try_from] of a mathematical result; [None] on overflow. *)
Definition to_uint (w z : Z) : option Z :=
  if (0 <=? z) && (z <? 2 ^ w) then Some z else None.
Definition to_sint (w z : Z) : option Z :=
  if (- 2 ^ (w - 1) <=? z) && (z <? 2 ^ (w - 1)) then Some z else None.

(** [checked_add] and friends, on [u_w] *)
Definition checked_add (w a b : Z) : option Z := to_uint w (a + b).
Definition checked_sub (w a b : Z) : option Z := to_uint w (a - b).
Definition checked_mul (w a b : Z) : option Z := to_uint w (a * b).
Definition checked_div (w a b : Z) : option Z :=
  if b =? 0 then None else to_uint w (a / b).

(** [checked_add] and friends, on [i_w]; the quotient is truncated *)
Definition checked_add_signed (w a b : Z) : option Z := to_sint w (a + b).
Definition checked_sub_signed (w a b : Z) : option Z := to_sint w (a - b).
Definition checked_mul_signed (w a b : Z) : option Z := to_sint w (a * b).
Definition checked_div_signed (w a b : Z) : option Z :=
  if b =? 0 then None else to_sint w (Z.quot a b).

(** [saturating_add], [saturating_sub] on [u_w] *)
Definition saturating_add (w a b : Z) : Z := Z.min (a + b) (2 ^ w - 1).
Definition saturating_sub (a b : Z) : Z := Z.max (a - b) 0.

Lemma to_uint_Some w z y : to_uint w z = Some y ↔ y = z ∧ in_uint w z.
Proof.
  unfold to_uint, in_uint.
  destruct (Z.leb_spec 0 z), (Z.ltb_spec z (2 ^ w)); simpl; naive_solver lia.
Qed.

Lemma to_sint_Some w z y : to_sint w z = Some y ↔ y = z ∧ in_sint w z.
Proof.
  unfold to_sint, in_sint.
  destruct (Z.leb_spec (- 2 ^ (w - 1)) z), (Z.ltb_spec z (2 ^ (w - 1)));
    simpl; naive_solver lia.
Qed.

Lemma to_uint_in w z : in_uint w z → to_uint w z = Some z.
Proof. intros. by apply to_uint_Some. Qed.

Lemma to_sint_in w z : in_sint w z → to_sint w z = Some z.
Proof. intros. by apply to_sint_Some. Qed.

Lemma to_uint_None w z : to_uint w z = None ↔ ¬ in_uint w z.
Proof.
  rewrite eq_None_not_Some. unfold is_Some. setoid_rewrite to_uint_Some.
  naive_solver.
Qed.

Lemma checked_add_Some w a b c :
  checked_add w a b = Some c ↔ c = a + b ∧ in_uint w (a + b).
Proof. apply to_uint_Some. Qed.

Lemma checked_sub_Some w a b c :
  checked_sub w a b = Some c ↔ c = a - b ∧ in_uint w (a - b).
Proof. apply to_uint_Some. Qed.

Lemma checked_mul_Some w a b c :
  checked_mul w a b = Some c ↔ c = a * b ∧ in_uint w (a * b).
Proof. apply to_uint_Some. Qed.

Lemma checked_div_Some w a b c :
  checked_div w a b = Some c ↔ b ≠ 0 ∧ c = a / b ∧ in_uint w (a / b).
Proof.
  unfold checked_div. destruct (Z.eqb_spec b 0); rewrite ?to_uint_Some;
    naive_solver.
Qed.

#[global] Opaque to_uint to_sint.

Create Rewrite HintDb ints.
#[export] Hint Rewrite to_uint_Some to_sint_Some to_uint_None checked_add_Some
  checked_sub_Some checked_mul_Some checked_div_Some : ints.

(** [simp_ints] turns checked arithmetic that succeeded into its equation. *)
Ltac simp_ints := autorewrite with ints in *.
