(* ===== verification/Codec.v ===== *)
(** * Codecs: values at fixed places of a byte buffer

    A [codec A] is the layout of a plain-old-data type: its size, how the
    value is read from its bytes and written to them, and the laws of the two.
    The combinators build the layout of a [repr(C)] struct from the layouts of
    its fields, in order. *)
From S2P Require Import Prelude.

Local Open Scope nat_scope.

(** [l[a..b]] of a buffer known to be long enough *)
Definition slice {A} (a b : nat) (l : list A) : list A := take (b - a) (drop a l).

(** [l[a..b].copy_from_slice(new)], with [new] of length [b - a] *)
Definition splice {A} (a : nat) (new l : list A) : list A :=
  take a l ++ new ++ drop (a + length new) l.

Section slices.
Context {A : Type}.
Implicit Types l k : list A.

Lemma length_slice a b l : a ≤ b → b ≤ length l → length (slice a b l) = b - a.
Proof. intros. unfold slice. rewrite length_take, length_drop. lia. Qed.

Lemma length_splice a k l :
  a + length k ≤ length l → length (splice a k l) = length l.
Proof.
  intros. unfold splice. rewrite !length_app, length_take, length_drop. lia.
Qed.

Lemma slice_app_r l k a b :
  length l ≤ a → slice a b (l ++ k) = slice (a - length l) (b - length l) k.
Proof.
  intros. unfold slice. rewrite drop_app_ge by done. f_equal. lia.
Qed.

Lemma slice_app_l l k a b :
  b ≤ length l → slice a b (l ++ k) = slice a b l.
Proof.
  intros. unfold slice. destruct (decide (a ≤ b)).
  - rewrite drop_app_le by lia. rewrite take_app_le; [done|].
    rewrite length_drop. lia.
  - replace (b - a) with 0 by lia. by rewrite !take_0.
Qed.

Lemma slice_full l : slice 0 (length l) l = l.
Proof. unfold slice. rewrite drop_0, Nat.sub_0_r. by apply take_ge. Qed.

Lemma splice_app a l1 l2 l3 k :
  length l1 = a → length l2 = length k →
  splice a k (l1 ++ l2 ++ l3) = l1 ++ k ++ l3.
Proof.
  intros <- Hk. unfold splice.
  rewrite take_app_length, <-Hk, drop_app_add', drop_app_length by done. done.
Qed.

Lemma slice_mid l1 l2 l3 a b :
  length l1 = a → b = a + length l2 →
  slice a b (l1 ++ l2 ++ l3) = l2.
Proof.
  intros <- ->. unfold slice. rewrite drop_app_length.
  replace (length l1 + length l2 - length l1) with (length l2) by lia.
  by rewrite take_app_length.
Qed.

Lemma split3 l a b :
  a ≤ b → b ≤ length l →
  l = take a l ++ slice a b l ++ drop b l.
Proof.
  intros. unfold slice. rewrite <-(take_drop a l) at 1. f_equal.
  rewrite <-(take_drop (b - a) (drop a l)) at 1. f_equal.
  rewrite drop_drop. f_equal. lia.
Qed.
End slices.

(** ** The interface *)
Record codec (A : Type) : Type := Codec {
  c_size : nat;
  c_read : list byte → A;
  c_write : A → list byte;
  (** the values the type has: the fields are in the range of their width *)
  c_ok : A → Prop;
  c_write_length a : length (c_write a) = c_size;
  c_write_read bs : length bs = c_size → c_write (c_read bs) = bs;
  c_read_write a : c_ok a → c_read (c_write a) = a;
  c_read_ok bs : length bs = c_size → c_ok (c_read bs);
}.
Arguments Codec {A}.
Arguments c_size {A} _ : simpl never.
Arguments c_read {A} _ _ : simpl never.
Arguments c_write {A} _ _ : simpl never.
Arguments c_ok {A} _ _ : simpl never.
Arguments c_write_length {A}.
Arguments c_write_read {A}.
Arguments c_read_write {A}.
Arguments c_read_ok {A}.

(** ** Integers, little endian *)
Section uint.
Context (n : nat).

Program Definition uint : codec Z :=
  {| c_size := n; c_read := le_combine; c_write := le_split n;
     c_ok z := in_uint (8 * Z.of_nat n) z |}.
Next Obligation. apply length_le_split. Qed.
Next Obligation. intros bs Hbs. by apply split_le_combine'. Qed.
Next Obligation.
  intros z Hz. rewrite le_combine_split. apply Z.mod_small.
  unfold in_uint in Hz. by rewrite Z.mul_comm.
Qed.
Next Obligation.
  intros bs Hbs. pose proof (le_combine_bound bs) as Hb. by rewrite Hbs in Hb.
Qed.

(** two's complement *)
Definition sign_of (z : Z) : Z :=
  (if 2 * z <? 2 ^ (8 * Z.of_nat n) then z else z - 2 ^ (8 * Z.of_nat n))%Z.

Program Definition sint : codec Z :=
  {| c_size := n; c_read bs := sign_of (le_combine bs);
     c_write z := le_split n (z mod 2 ^ (8 * Z.of_nat n));
     c_ok z := (- 2 ^ (8 * Z.of_nat n) ≤ 2 * z < 2 ^ (8 * Z.of_nat n))%Z |}.
Next Obligation. intros. apply length_le_split. Qed.
Next Obligation.
  intros bs Hbs. etransitivity; [|apply split_le_combine]. rewrite Hbs. f_equal.
  pose proof (le_combine_bound bs) as Hb. rewrite Hbs in Hb. unfold sign_of.
  case_match; [by apply Z.mod_small|].
  rewrite <-(Z.mod_add _ 1), Z.mod_small; lia.
Qed.
Next Obligation.
  intros z Hz. cbn beta in *. rewrite le_combine_split, (Z.mul_comm _ 8), Z.mod_mod by lia.
  set (m := (2 ^ _)%Z) in *. unfold sign_of. fold m.
  destruct (decide (0 ≤ z)%Z).
  - rewrite Z.mod_small by lia. case_match; lia.
  - rewrite <-(Z.mod_add _ 1), Z.mod_small by lia. case_match; lia.
Qed.
Next Obligation.
  intros bs Hbs. pose proof (le_combine_bound bs) as Hb. rewrite Hbs in Hb.
  unfold sign_of. case_match; lia.
Qed.
End uint.

(** ** Struct layouts *)
Section pair.
Context {A B : Type} (ca : codec A) (cb : codec B).

Program Definition pair_codec : codec (A * B) :=
  {| c_size := c_size ca + c_size cb;
     c_read bs := (c_read ca (take (c_size ca) bs),
                   c_read cb (drop (c_size ca) bs));
     c_write p := c_write ca p.1 ++ c_write cb p.2;
     c_ok p := c_ok ca p.1 ∧ c_ok cb p.2 |}.
Next Obligation. intros []. by rewrite length_app, !c_write_length. Qed.
Next Obligation.
  intros bs Hbs. simpl.
  rewrite !c_write_read, take_drop by (rewrite ?length_take, ?length_drop; lia).
  done.
Qed.
Next Obligation.
  intros [a b] [Ha Hb]; simpl in *.
  rewrite take_app_length', drop_app_length' by (symmetry; apply c_write_length).
  by rewrite !c_read_write.
Qed.
Next Obligation.
  intros bs Hbs. split; apply c_read_ok; rewrite ?length_take, ?length_drop; lia.
Qed.
End pair.

(** A struct is the product of its fields up to its constructor. *)
Section iso.
Context {A B : Type} (ca : codec A) (f : A → B) (g : B → A).
Context (fg : ∀ b, f (g b) = b) (gf : ∀ a, g (f a) = a).

Program Definition iso_codec : codec B :=
  {| c_size := c_size ca; c_read bs := f (c_read ca bs);
     c_write b := c_write ca (g b); c_ok b := c_ok ca (g b) |}.
Next Obligation. intros. apply c_write_length. Qed.
Next Obligation. intros bs Hbs. cbn beta. rewrite gf. by apply c_write_read. Qed.
Next Obligation. intros b Hb. cbn beta. by rewrite c_read_write. Qed.
Next Obligation. intros bs Hbs. cbn beta. rewrite gf. by apply c_read_ok. Qed.
End iso.

(** The type [()] and a run of raw bytes. *)
Program Definition unit_codec : codec unit :=
  {| c_size := 0; c_read _ := tt; c_write _ := []; c_ok _ := True |}.
Solve All Obligations with (intros; by destruct_and?; try destruct a; try destruct bs).

Program Definition bytes_codec (n : nat) : codec (list byte) :=
  {| c_size := n; c_read bs := bs;
     c_write bs := take n bs ++ replicate (n - length bs) Byte.x00;
     c_ok bs := length bs = n |}.
Next Obligation.
  intros n bs. cbn beta. rewrite length_app, length_take, length_replicate. lia.
Qed.
Next Obligation.
  intros n bs <-. cbn beta. rewrite firstn_all, Nat.sub_diag. apply app_nil_r.
Qed.
Next Obligation.
  intros n bs <-. cbn beta. rewrite firstn_all, Nat.sub_diag. apply app_nil_r.
Qed.
Next Obligation. done. Qed.

Declare Scope codec_scope.
Delimit Scope codec_scope with codec.
Notation "a ⊗ b" := (pair_codec a b) (at level 41, right associativity) : codec_scope.

Abbreviation u8 := (uint 1).
Abbreviation u16 := (uint 2).
Abbreviation u32 := (uint 4).
Abbreviation u64 := (uint 8).
Abbreviation i8 := (sint 1).
Abbreviation i16 := (sint 2).
Abbreviation i64 := (sint 8).

(** [solve_iso] proves that a constructor and its projections are inverse. *)
Ltac solve_iso :=
  intros; lazymatch goal with |- _ = ?x => destruct x end;
  repeat match goal with p : (_ * _)%type |- _ => destruct p end; reflexivity.

