(* ===== verification/Errors.v ===== *)
(** * Errors: [interface/src/error.rs]

    [TokenError] is the program's own error enumeration, [ProgramError] the
    variants of the SDK's enumeration that the program returns.  A [TokenError]
    travels as [ProgramError::Custom] of its discriminant. *)
From S2P Require Import Prelude.

Inductive TokenError : Type :=
| NotRentExempt
| InsufficientFunds
| InvalidMint
| MintMismatch
| OwnerMismatch
| FixedSupply
| AlreadyInUse
| InvalidNumberOfProvidedSigners
| InvalidNumberOfRequiredSigners
| UninitializedState
| NativeNotSupported
| NonNativeHasBalance
| InvalidInstruction
| InvalidState
| Overflow
| AuthorityTypeNotSupported
| MintCannotFreeze
| AccountFrozen
| MintDecimalsMismatch
| NonNativeNotSupported
| ExtensionTypeMismatch
| ExtensionBaseMismatch
| ExtensionAlreadyInitialized
| ConfidentialTransferAccountHasBalance
| ConfidentialTransferAccountNotApproved
| ConfidentialTransferDepositsAndTransfersDisabled
| ConfidentialTransferElGamalPubkeyMismatch
| ConfidentialTransferBalanceMismatch
| MintHasSupply
| NoAuthorityExists
| TransferFeeExceedsMaximum
| MintRequiredForTransfer
| FeeMismatch
| FeeParametersMismatch
| ImmutableOwner
| AccountHasWithheldTransferFees
| NoMemo
| NonTransferable
| NonTransferableNeedsImmutableOwnership
| MaximumPendingBalanceCreditCounterExceeded
| MaximumDepositAmountExceeded
| CpiGuardSettingsLocked
| CpiGuardTransferBlocked
| CpiGuardBurnBlocked
| CpiGuardCloseAccountBlocked
| CpiGuardApproveBlocked
| CpiGuardSetAuthorityBlocked
| CpiGuardOwnerChangeBlocked
| ExtensionNotFound
| NonConfidentialTransfersDisabled
| ConfidentialTransferFeeAccountHasWithheldFee
| InvalidExtensionCombination
| InvalidLengthForAlloc
| AccountDecryption
| ProofGeneration
| InvalidProofInstructionOffset
| HarvestToMintDisabled
| SplitProofContextStateAccountsNotSupported
| NotEnoughProofContextStateAccounts
| MalformedCiphertext
| CiphertextArithmeticFailed
| PedersenCommitmentMismatch
| RangeProofLengthMismatch
| IllegalBitLength
| FeeCalculation
| IllegalMintBurnConversion
| InvalidScale
| MintPaused
| PendingBalanceNonZero.

#[export] Instance TokenError_eq_dec : EqDecision TokenError.
Proof. solve_decision. Defined.

(** [e as u32] of a [repr(u32)] enumeration *)
Definition token_error_code (e : TokenError) : Z :=
  match e with
  | NotRentExempt => 0
  | InsufficientFunds => 1
  | InvalidMint => 2
  | MintMismatch => 3
  | OwnerMismatch => 4
  | FixedSupply => 5
  | AlreadyInUse => 6
  | InvalidNumberOfProvidedSigners => 7
  | InvalidNumberOfRequiredSigners => 8
  | UninitializedState => 9
  | NativeNotSupported => 10
  | NonNativeHasBalance => 11
  | InvalidInstruction => 12
  | InvalidState => 13
  | Overflow => 14
  | AuthorityTypeNotSupported => 15
  | MintCannotFreeze => 16
  | AccountFrozen => 17
  | MintDecimalsMismatch => 18
  | NonNativeNotSupported => 19
  | ExtensionTypeMismatch => 20
  | ExtensionBaseMismatch => 21
  | ExtensionAlreadyInitialized => 22
  | ConfidentialTransferAccountHasBalance => 23
  | ConfidentialTransferAccountNotApproved => 24
  | ConfidentialTransferDepositsAndTransfersDisabled => 25
  | ConfidentialTransferElGamalPubkeyMismatch => 26
  | ConfidentialTransferBalanceMismatch => 27
  | MintHasSupply => 28
  | NoAuthorityExists => 29
  | TransferFeeExceedsMaximum => 30
  | MintRequiredForTransfer => 31
  | FeeMismatch => 32
  | FeeParametersMismatch => 33
  | ImmutableOwner => 34
  | AccountHasWithheldTransferFees => 35
  | NoMemo => 36
  | NonTransferable => 37
  | NonTransferableNeedsImmutableOwnership => 38
  | MaximumPendingBalanceCreditCounterExceeded => 39
  | MaximumDepositAmountExceeded => 40
  | CpiGuardSettingsLocked => 41
  | CpiGuardTransferBlocked => 42
  | CpiGuardBurnBlocked => 43
  | CpiGuardCloseAccountBlocked => 44
  | CpiGuardApproveBlocked => 45
  | CpiGuardSetAuthorityBlocked => 46
  | CpiGuardOwnerChangeBlocked => 47
  | ExtensionNotFound => 48
  | NonConfidentialTransfersDisabled => 49
  | ConfidentialTransferFeeAccountHasWithheldFee => 50
  | InvalidExtensionCombination => 51
  | InvalidLengthForAlloc => 52
  | AccountDecryption => 53
  | ProofGeneration => 54
  | InvalidProofInstructionOffset => 55
  | HarvestToMintDisabled => 56
  | SplitProofContextStateAccountsNotSupported => 57
  | NotEnoughProofContextStateAccounts => 58
  | MalformedCiphertext => 59
  | CiphertextArithmeticFailed => 60
  | PedersenCommitmentMismatch => 61
  | RangeProofLengthMismatch => 62
  | IllegalBitLength => 63
  | FeeCalculation => 64
  | IllegalMintBurnConversion => 65
  | InvalidScale => 66
  | MintPaused => 67
  | PendingBalanceNonZero => 68
  end.

(** [TokenError::from_u32], derived by [num_derive] *)
Definition token_error_from_u32 (code : Z) : option TokenError :=
  match code with
  | 0 => Some NotRentExempt
  | 1 => Some InsufficientFunds
  | 2 => Some InvalidMint
  | 3 => Some MintMismatch
  | 4 => Some OwnerMismatch
  | 5 => Some FixedSupply
  | 6 => Some AlreadyInUse
  | 7 => Some InvalidNumberOfProvidedSigners
  | 8 => Some InvalidNumberOfRequiredSigners
  | 9 => Some UninitializedState
  | 10 => Some NativeNotSupported
  | 11 => Some NonNativeHasBalance
  | 12 => Some InvalidInstruction
  | 13 => Some InvalidState
  | 14 => Some Overflow
  | 15 => Some AuthorityTypeNotSupported
  | 16 => Some MintCannotFreeze
  | 17 => Some AccountFrozen
  | 18 => Some MintDecimalsMismatch
  | 19 => Some NonNativeNotSupported
  | 20 => Some ExtensionTypeMismatch
  | 21 => Some ExtensionBaseMismatch
  | 22 => Some ExtensionAlreadyInitialized
  | 23 => Some ConfidentialTransferAccountHasBalance
  | 24 => Some ConfidentialTransferAccountNotApproved
  | 25 => Some ConfidentialTransferDepositsAndTransfersDisabled
  | 26 => Some ConfidentialTransferElGamalPubkeyMismatch
  | 27 => Some ConfidentialTransferBalanceMismatch
  | 28 => Some MintHasSupply
  | 29 => Some NoAuthorityExists
  | 30 => Some TransferFeeExceedsMaximum
  | 31 => Some MintRequiredForTransfer
  | 32 => Some FeeMismatch
  | 33 => Some FeeParametersMismatch
  | 34 => Some ImmutableOwner
  | 35 => Some AccountHasWithheldTransferFees
  | 36 => Some NoMemo
  | 37 => Some NonTransferable
  | 38 => Some NonTransferableNeedsImmutableOwnership
  | 39 => Some MaximumPendingBalanceCreditCounterExceeded
  | 40 => Some MaximumDepositAmountExceeded
  | 41 => Some CpiGuardSettingsLocked
  | 42 => Some CpiGuardTransferBlocked
  | 43 => Some CpiGuardBurnBlocked
  | 44 => Some CpiGuardCloseAccountBlocked
  | 45 => Some CpiGuardApproveBlocked
  | 46 => Some CpiGuardSetAuthorityBlocked
  | 47 => Some CpiGuardOwnerChangeBlocked
  | 48 => Some ExtensionNotFound
  | 49 => Some NonConfidentialTransfersDisabled
  | 50 => Some ConfidentialTransferFeeAccountHasWithheldFee
  | 51 => Some InvalidExtensionCombination
  | 52 => Some InvalidLengthForAlloc
  | 53 => Some AccountDecryption
  | 54 => Some ProofGeneration
  | 55 => Some InvalidProofInstructionOffset
  | 56 => Some HarvestToMintDisabled
  | 57 => Some SplitProofContextStateAccountsNotSupported
  | 58 => Some NotEnoughProofContextStateAccounts
  | 59 => Some MalformedCiphertext
  | 60 => Some CiphertextArithmeticFailed
  | 61 => Some PedersenCommitmentMismatch
  | 62 => Some RangeProofLengthMismatch
  | 63 => Some IllegalBitLength
  | 64 => Some FeeCalculation
  | 65 => Some IllegalMintBurnConversion
  | 66 => Some InvalidScale
  | 67 => Some MintPaused
  | 68 => Some PendingBalanceNonZero
  | _ => None
  end.

(** The variants of [solana_program_error::ProgramError] the program uses. *)
Inductive ProgramError : Type :=
| Custom (code : Z)
| InvalidArgument
| InvalidInstructionData
| InvalidAccountData
| AccountDataTooSmall
| IncorrectProgramId
| MissingRequiredSignature
| UninitializedAccount
| IllegalOwner
| InvalidAccountOwner
| InvalidSeeds
| AccountNotRentExempt
| OtherProgramError (code : Z).

#[export] Instance ProgramError_eq_dec : EqDecision ProgramError.
Proof. solve_decision. Defined.

(** [impl From<TokenError> for ProgramError] *)
Definition tok (e : TokenError) : ProgramError := Custom (token_error_code e).

(** [impl TryFrom<u32> for TokenError] *)
Definition token_error_try_from (code : Z) : result ProgramError TokenError :=
  ok_or (token_error_from_u32 code) InvalidArgument.

Abbreviation res := (result ProgramError).

(** [tok] is injective: a client reads the [TokenError] back from the code. *)
Lemma token_error_from_code e : token_error_from_u32 (token_error_code e) = Some e.
Proof. by destruct e. Qed.

