(* ===== verification/Runtime.v ===== *)
(** * The runtime the program is called by

    Accounts, the account list of an instruction, and the parts of the Solana
    SDK that are not code of this repository.  The latter are the fields of the
    class [Runtime]: the development is proved for every instance. *)
From S2P Require Import Prelude Codec Errors.

(** A public key: the 32 bytes of the key as a little-endian 256-bit integer.
    [Pubkey::default()] is 0. *)
Abbreviation Pubkey := Z (only parsing).
Abbreviation pubkey := (uint 32).
Definition Pubkey_default : Pubkey := 0.

(** An account as the runtime stores it. *)
Record SolAccount := mkAccount {
  lamports : Z;
  data : list byte;
  owner : Pubkey;
}.

(** [solana_account_info::AccountInfo]: a reference to an account.  Two infos
    with the same key share the account. *)
Record AccountInfo := mkInfo {
  key : Pubkey;
  is_signer : bool;
  is_writable : bool;
}.

(** The accounts of a transaction, and the return data of the instruction. *)
Record world := mkWorld {
  accts : gmap Pubkey SolAccount;
  return_data : list byte;
}.

Record Clock := mkClock { epoch : Z; unix_timestamp : Z }.

(** The SDK: what [solana_*], [spl_pod] and the other crates provide. *)
Class Runtime := {
  (** [solana_pubkey::declare_id!] *)
  declare_id : string → Pubkey;
  (** [solana_sdk_ids], [spl_memo_interface] *)
  system_program_id : Pubkey;
  incinerator_id : Pubkey;
  memo_v1_id : Pubkey;
  memo_v3_id : Pubkey;
  (** the error of [next_account_info] on an empty list *)
  no_account_error : ProgramError;
  (** the error of [try_borrow_data] on borrowed data *)
  borrow_error : ProgramError;
  (** the error of [spl_pod::bytemuck::pod_from_bytes] on a wrong size *)
  pod_error : ProgramError;
  (** the error of [OptionalNonZeroPubkey::try_from], of a [COption] or of an
      [Option], on a default key that is present *)
  optional_key_error : ProgramError;
  (** sizes of the [solana_zk_sdk] and [spl_token_group_interface] types that
      are stored in extensions *)
  elgamal_pubkey_len : nat;
  elgamal_ciphertext_len : nat;
  ae_ciphertext_len : nat;
  token_group_len : nat;
  token_group_member_len : nat;
  (** [sol_get_stack_height], and the height of a top-level instruction *)
  stack_height : Z;
  transaction_level_stack_height : Z;
  (** program of the previous sibling instruction, if there is one *)
  previous_sibling : option Pubkey;
  (** sysvars *)
  clock_get : res Clock;
  rent : Type;
  rent_get : res rent;
  rent_from_account_info : AccountInfo → world → res rent;
  is_exempt : rent → Z → nat → bool;
  minimum_balance : rent → nat → Z;
  (** [AccountInfo::resize]: the error, if any, by old and new length *)
  resize_error : nat → nat → option ProgramError;
  (** [spl_transfer_hook_interface::onchain::invoke_execute]: program, source,
      mint, destination, authority, further accounts, amount *)
  invoke_execute : Pubkey → AccountInfo → AccountInfo → AccountInfo →
    AccountInfo → list AccountInfo → Z → world → res world;
}.

#[export] Instance SolAccount_eq_dec : EqDecision SolAccount.
Proof. solve_decision. Defined.

(** An absent account is an empty one owned by the system program. *)
Definition empty_account `{Runtime} : SolAccount := mkAccount 0 [] system_program_id.

Section accounts.
Context `{rt : Runtime}.
Implicit Types (w : world) (i : AccountInfo) (k : Pubkey).

Definition get_account w k : SolAccount := default empty_account (accts w !! k).
Definition set_account w k a : world := mkWorld (<[k := a]> (accts w)) (return_data w).

Definition info_lamports w i : Z := lamports (get_account w (key i)).
Definition info_owner w i : Pubkey := owner (get_account w (key i)).
Definition info_data w i : list byte := data (get_account w (key i)).
Definition data_len w i : nat := length (info_data w i).

Definition set_data w k d : world :=
  let a := get_account w k in set_account w k (mkAccount (lamports a) d (owner a)).
Definition set_lamports w k l : world :=
  let a := get_account w k in set_account w k (mkAccount l (data a) (owner a)).
(** [set_return_data]: what the instruction returns to its caller *)
Definition set_return_data w (d : list byte) : world := mkWorld (accts w) d.
Definition set_owner w k o : world :=
  let a := get_account w k in set_account w k (mkAccount (lamports a) (data a) o).

(** [next_account_info]: the next account and the rest of the iterator *)
Definition next_account_info (l : list AccountInfo) : res (AccountInfo * list AccountInfo) :=
  match l with
  | i :: l => Ok (i, l)
  | [] => Err no_account_error
  end.

(** [info.data.borrow()] and [info.data.borrow_mut()]: the [RefCell] panics
    when the data is already borrowed in a conflicting way; [held] are the
    keys of the accounts whose data is. *)
Definition borrow (held : list Pubkey) w i : res (list byte) :=
  if bool_decide (key i ∈ held) then Panic else Ok (info_data w i).

(** [info.try_borrow_data()] *)
Definition try_borrow_data (held : list Pubkey) w i : res (list byte) :=
  if bool_decide (key i ∈ held) then Err borrow_error else Ok (info_data w i).

(** [info.resize(n)]: new bytes are zero *)
Definition resize w k (n : nat) : res world :=
  let d := info_data w (mkInfo k false false) in
  match resize_error (length d) n with
  | Some e => Err e
  | None => Ok (set_data w k (take n d ++ replicate (n - length d) Byte.x00))
  end.

(** [pod_from_bytes] *)
Definition pod_from_bytes {A} (c : codec A) (bs : list byte) : res A :=
  if (length bs =? c_size c)%nat then Ok (c_read c bs) else Err pod_error.

Lemma get_set_account w k k' a :
  get_account (set_account w k a) k' = if decide (k = k') then a else get_account w k'.
Proof.
  unfold get_account, set_account; simpl. rewrite lookup_insert. by case_decide.
Qed.

Lemma get_set_data w k k' d :
  get_account (set_data w k d) k' =
    if decide (k = k') then mkAccount (lamports (get_account w k)) d (owner (get_account w k))
    else get_account w k'.
Proof. apply get_set_account. Qed.

Lemma get_set_lamports w k k' l :
  get_account (set_lamports w k l) k' =
    if decide (k = k') then mkAccount l (data (get_account w k)) (owner (get_account w k))
    else get_account w k'.
Proof. apply get_set_account. Qed.

Lemma get_set_owner w k k' o :
  get_account (set_owner w k o) k' =
    if decide (k = k') then mkAccount (lamports (get_account w k)) (data (get_account w k)) o
    else get_account w k'.
Proof. apply get_set_account. Qed.

Lemma pod_from_bytes_Ok {A} (c : codec A) bs a :
  pod_from_bytes c bs = Ok a ↔ length bs = c_size c ∧ a = c_read c bs.
Proof.
  unfold pod_from_bytes. destruct (Nat.eqb_spec (length bs) (c_size c));
    naive_solver.
Qed.

Lemma borrow_Ok held w i d :
  borrow held w i = Ok d ↔ (key i ∉ held) ∧ d = info_data w i.
Proof. unfold borrow. case_bool_decide; naive_solver. Qed.

Lemma try_borrow_data_Ok held w i d :
  try_borrow_data held w i = Ok d ↔ (key i ∉ held) ∧ d = info_data w i.
Proof. unfold try_borrow_data. case_bool_decide; naive_solver. Qed.
End accounts.

#[global] Opaque pod_from_bytes.

(** ** A runtime to evaluate with *)
Definition example_invoke (program : Pubkey) (source mint destination authority : AccountInfo)
    (accounts : list AccountInfo) (amount : Z) (w : world) : res world := Ok w.
Definition example_runtime : Runtime := {|
  declare_id s := le_combine (take 32 (String.list_byte_of_string s));
  system_program_id := 0;
  incinerator_id := 1;
  memo_v1_id := 2;
  memo_v3_id := 3;
  no_account_error := OtherProgramError 11;
  borrow_error := OtherProgramError 12;
  pod_error := InvalidArgument;
  optional_key_error := InvalidArgument;
  elgamal_pubkey_len := 32;
  elgamal_ciphertext_len := 64;
  ae_ciphertext_len := 36;
  token_group_len := 80;
  token_group_member_len := 72;
  stack_height := 1;
  transaction_level_stack_height := 1;
  previous_sibling := None;
  clock_get := Ok (mkClock 10 1000);
  rent := unit;
  rent_get := Ok tt;
  rent_from_account_info _ _ := Ok tt;
  is_exempt _ l n := Z.of_nat n <=? l;
  minimum_balance _ n := Z.min (Z.of_nat n) (2 ^ 64 - 1);
  resize_error _ n := if (n <=? 10485760)%nat then None else Some (OtherProgramError 19);
  invoke_execute := example_invoke;
|}.
