(* ===== verification/Pod.v ===== *)
(** * Base states: [interface/src/pod.rs] and [interface/src/state.rs]

    The three base states of the program (mint, token account, multisig), in
    their two forms: the plain-old-data structs the processor works on in place
    ([PodMint], [PodAccount], [PodMultisig]) and the unpacked structs of the
    [Pack] trait ([Mint], [Account], [Multisig]). *)
From S2P Require Import Prelude Codec Errors Runtime.

(** ** Plain old data *)

(** [PodBool]: one byte, true when it is not zero *)
Definition pod_bool (b : Z) : bool := negb (b =? 0).
Definition from_bool (b : bool) : Z := if b then 1 else 0.

(** [PodCOption<T>]: the four tag bytes, as their little-endian integer, and
    the value *)
Record PodCOption := mkCOption { co_option : Z; co_value : Z }.

Section PodCOption.
Implicit Types o : PodCOption.

Definition NONE : Z := 0.
Definition SOME : Z := 1.

(** [T::default()] is zero for every [T] used *)
Definition co_none : PodCOption := mkCOption NONE 0.
Definition co_some (v : Z) : PodCOption := mkCOption SOME v.
Definition co_unwrap_or o (d : Z) : Z := if co_option o =? NONE then d else co_value o.
Definition co_is_some o : bool := co_option o =? SOME.
Definition co_is_none o : bool := co_option o =? NONE.
Definition co_ok_or {E} o (e : E) : result E Z :=
  if co_option o =? SOME then Ok (co_value o) else Err e.

(** [impl From<COption<T>> for PodCOption<T>] *)
Definition co_from (o : option Z) : PodCOption :=
  match o with None => mkCOption NONE 0 | Some v => mkCOption SOME v end.
End PodCOption.

(** The match [PodCOption { option: SOME, value }] of the source. *)
Definition co_get (o : PodCOption) : option Z :=
  if co_option o =? SOME then Some (co_value o) else None.

(** [impl TryFrom<PodCOption<Pubkey>> for OptionalNonZeroPubkey]; the tag of a
    [PodCOption] the program builds is [SOME] or [NONE], any other one is
    [unreachable!()]. *)
Definition optional_try_from (p : PodCOption) : res Pubkey :=
  if co_option p =? SOME then
    if co_value p =? Pubkey_default then Err InvalidArgument else Ok (co_value p)
  else if co_option p =? NONE then Ok Pubkey_default
  else Panic.

(** [Option::<Pubkey>::from(OptionalNonZeroPubkey)]: zero is [None] *)
Definition optional_get (k : Pubkey) : option Pubkey :=
  if k =? Pubkey_default then None else Some k.

Program Definition coption_codec (n : nat) : codec PodCOption :=
  iso_codec (pair_codec u32 (uint n)) (λ '(o, v), mkCOption o v)
    (λ c, (co_option c, co_value c)) _ _.
Solve All Obligations with solve_iso.

(** [[T; n]] *)
Fixpoint array_read {A} (c : codec A) (n : nat) (bs : list byte) : list A :=
  match n with
  | O => []
  | S n => c_read c (take (c_size c) bs) :: array_read c n (drop (c_size c) bs)
  end.

Section array.
Context {A : Type} (c : codec A).

Lemma length_array_read n bs : length (array_read c n bs) = n.
Proof. revert bs; induction n; simpl; auto. Qed.

Lemma array_read_write l :
  Forall (c_ok c) l → array_read c (length l) (mjoin (c_write c <$> l)) = l.
Proof.
  induction 1 as [|x l Hx Hl IH]; simpl; [done|].
  rewrite take_app_length', drop_app_length' by (symmetry; apply c_write_length).
  f_equal; [by apply c_read_write|exact IH].
Qed.

Lemma array_read_ok n bs :
  length bs = (n * c_size c)%nat → Forall (c_ok c) (array_read c n bs).
Proof.
  revert bs; induction n as [|n IH]; simpl; intros bs Hbs; constructor.
  - apply c_read_ok. rewrite length_take; lia.
  - apply IH. rewrite length_drop; lia.
Qed.
End array.

(** ** The base states *)

Record PodMint := mkPodMint {
  mint_authority : PodCOption;
  supply : Z;
  decimals : Z;
  mint_is_initialized : Z;
  freeze_authority : PodCOption;
}.

Record PodAccount := mkPodAccount {
  acc_mint : Pubkey;
  acc_owner : Pubkey;
  amount : Z;
  delegate : PodCOption;
  acc_state : Z;
  is_native_opt : PodCOption;
  delegated_amount : Z;
  close_authority : PodCOption;
}.

(** Number of signers of a multisig: [interface/src/instruction.rs] *)
Definition MIN_SIGNERS : nat := 1.
Definition MAX_SIGNERS : nat := 11.

Record PodMultisig := mkPodMultisig {
  ms_m : Z;
  ms_n : Z;
  ms_is_initialized : Z;
  ms_signers : list Pubkey;
}.

Program Definition PodMint_codec : codec PodMint :=
  iso_codec (pair_codec (coption_codec 32) (pair_codec u64 (pair_codec u8
      (pair_codec u8 (coption_codec 32)))))
    (λ '(a, (s, (d, (i, f)))), mkPodMint a s d i f)
    (λ m, (mint_authority m, (supply m, (decimals m, (mint_is_initialized m,
           freeze_authority m))))) _ _.
Solve All Obligations with solve_iso.

Program Definition PodAccount_codec : codec PodAccount :=
  iso_codec (pair_codec pubkey (pair_codec pubkey (pair_codec u64
      (pair_codec (coption_codec 32) (pair_codec u8 (pair_codec (coption_codec 8)
      (pair_codec u64 (coption_codec 32))))))))
    (λ '(m, (o, (a, (d, (s, (n, (g, c))))))), mkPodAccount m o a d s n g c)
    (λ a, (acc_mint a, (acc_owner a, (amount a, (delegate a, (acc_state a,
           (is_native_opt a, (delegated_amount a, close_authority a)))))))) _ _.
Solve All Obligations with solve_iso.

(** [PodMultisig] is only read and written as a whole. *)
Definition PodMultisig_SIZE_OF : nat := 3 + MAX_SIGNERS * 32.
Definition PodMultisig_read (bs : list byte) : PodMultisig :=
  mkPodMultisig (le_combine (slice 0 1 bs)) (le_combine (slice 1 2 bs))
    (le_combine (slice 2 3 bs)) (array_read pubkey MAX_SIGNERS (drop 3 bs)).
Definition PodMultisig_write (m : PodMultisig) : list byte :=
  le_split 1 (ms_m m) ++ le_split 1 (ms_n m) ++ le_split 1 (ms_is_initialized m) ++
  mjoin (le_split 32 <$> ms_signers m).

(** [AccountState], a [repr(u8)] enumeration *)
Inductive AccountState := Uninitialized | Initialized | Frozen.
#[export] Instance AccountState_eq_dec : EqDecision AccountState.
Proof. solve_decision. Defined.

Definition account_state_u8 (s : AccountState) : Z :=
  match s with Uninitialized => 0 | Initialized => 1 | Frozen => 2 end.
Definition account_state_try_from (b : Z) : option AccountState :=
  match b with
  | 0 => Some Uninitialized
  | 1 => Some Initialized
  | 2 => Some Frozen
  | _ => None
  end.

Definition is_frozen (a : PodAccount) : bool := acc_state a =? account_state_u8 Frozen.
Definition is_native (a : PodAccount) : bool := co_is_some (is_native_opt a).
Definition is_owned_by_system_program_or_incinerator `{Runtime} (a : PodAccount) : bool :=
  (acc_owner a =? system_program_id) || (acc_owner a =? incinerator_id).

Definition PodMint_is_initialized (m : PodMint) : bool := pod_bool (mint_is_initialized m).
Definition PodAccount_is_initialized (a : PodAccount) : bool :=
  (acc_state a =? account_state_u8 Initialized) || (acc_state a =? account_state_u8 Frozen).
Definition PodMultisig_is_initialized (m : PodMultisig) : bool := pod_bool (ms_is_initialized m).

(** Field updates, as the processor assigns them in place. *)
Definition set_amount (v : Z) (a : PodAccount) : PodAccount :=
  mkPodAccount (acc_mint a) (acc_owner a) v (delegate a) (acc_state a)
    (is_native_opt a) (delegated_amount a) (close_authority a).
Definition set_owner_field (v : Pubkey) (a : PodAccount) : PodAccount :=
  mkPodAccount (acc_mint a) v (amount a) (delegate a) (acc_state a)
    (is_native_opt a) (delegated_amount a) (close_authority a).
Definition set_delegate (d : PodCOption) (a : PodAccount) : PodAccount :=
  mkPodAccount (acc_mint a) (acc_owner a) (amount a) d (acc_state a)
    (is_native_opt a) (delegated_amount a) (close_authority a).
Definition set_delegated_amount (v : Z) (a : PodAccount) : PodAccount :=
  mkPodAccount (acc_mint a) (acc_owner a) (amount a) (delegate a) (acc_state a)
    (is_native_opt a) v (close_authority a).
Definition set_close_authority (c : PodCOption) (a : PodAccount) : PodAccount :=
  mkPodAccount (acc_mint a) (acc_owner a) (amount a) (delegate a) (acc_state a)
    (is_native_opt a) (delegated_amount a) c.
Definition set_state (s : Z) (a : PodAccount) : PodAccount :=
  mkPodAccount (acc_mint a) (acc_owner a) (amount a) (delegate a) s
    (is_native_opt a) (delegated_amount a) (close_authority a).
Definition set_is_native (o : PodCOption) (a : PodAccount) : PodAccount :=
  mkPodAccount (acc_mint a) (acc_owner a) (amount a) (delegate a) (acc_state a)
    o (delegated_amount a) (close_authority a).
Definition set_supply (v : Z) (m : PodMint) : PodMint :=
  mkPodMint (mint_authority m) v (decimals m) (mint_is_initialized m) (freeze_authority m).
Definition set_mint_authority (o : PodCOption) (m : PodMint) : PodMint :=
  mkPodMint o (supply m) (decimals m) (mint_is_initialized m) (freeze_authority m).
Definition set_freeze_authority (o : PodCOption) (m : PodMint) : PodMint :=
  mkPodMint (mint_authority m) (supply m) (decimals m) (mint_is_initialized m) o.
