(* ===== verification/State.v ===== *)
(** * Packed states: [interface/src/state.rs]

    [Mint], [Account] and [Multisig] with their [Pack] implementations: the
    strict decoders that reject bytes the plain-old-data view accepts. *)
From S2P Require Import Prelude Codec Errors Runtime Pod.

(** [const LEN] of the three [Pack] implementations *)
Definition Mint_LEN : nat := 82.
Definition Account_LEN : nat := 165.
Definition Multisig_LEN : nat := 355.

Record Mint := mkMint {
  m_mint_authority : option Pubkey;
  m_supply : Z;
  m_decimals : Z;
  m_is_initialized : bool;
  m_freeze_authority : option Pubkey;
}.

Record Account := mkAcc {
  a_mint : Pubkey;
  a_owner : Pubkey;
  a_amount : Z;
  a_delegate : option Pubkey;
  a_state : AccountState;
  a_is_native : option Z;
  a_delegated_amount : Z;
  a_close_authority : option Pubkey;
}.

Record Multisig := mkMultisig {
  s_m : Z;
  s_n : Z;
  s_is_initialized : bool;
  s_signers : list Pubkey;
}.

(** ** Options *)

Definition pack_coption_key (src : option Pubkey) (dst : list byte) : list byte :=
  match src with
  | Some k => le_split 4 1 ++ le_split 32 k
  | None => le_split 4 0 ++ drop 4 dst
  end.
Definition unpack_coption_key (src : list byte) : res (option Pubkey) :=
  match le_combine (slice 0 4 src) with
  | 0 => Ok None
  | 1 => Ok (Some (le_combine (slice 4 36 src)))
  | _ => Err InvalidAccountData
  end.

Definition pack_coption_u64 (src : option Z) (dst : list byte) : list byte :=
  match src with
  | Some v => le_split 4 1 ++ le_split 8 v
  | None => le_split 4 0 ++ drop 4 dst
  end.
Definition unpack_coption_u64 (src : list byte) : res (option Z) :=
  match le_combine (slice 0 4 src) with
  | 0 => Ok None
  | 1 => Ok (Some (le_combine (slice 4 12 src)))
  | _ => Err InvalidAccountData
  end.

(** The match [[0] => false, [1] => true, _ => Err] on a flag byte. *)
Definition unpack_flag (src : list byte) : res bool :=
  match le_combine src with
  | 0 => Ok false
  | 1 => Ok true
  | _ => Err InvalidAccountData
  end.
Definition pack_flag (b : bool) : list byte := le_split 1 (if b then 1 else 0).

(** [array_ref!] panics on a slice that is too short. *)
Definition array_ref (src : list byte) (n : nat) : res (list byte) :=
  if (length src <? n)%nat then Panic else Ok (take n src).

(** ** [impl Pack for Mint] *)
Definition Mint_unpack_from_slice (src : list byte) : res Mint :=
  src ← array_ref src Mint_LEN;
  mint_authority ← unpack_coption_key (slice 0 36 src);
  let supply := le_combine (slice 36 44 src) in
  let decimals := le_combine (slice 44 45 src) in
  is_initialized ← unpack_flag (slice 45 46 src);
  freeze_authority ← unpack_coption_key (slice 46 82 src);
  Ok (mkMint mint_authority supply decimals is_initialized freeze_authority).

Definition Mint_pack_into_slice (m : Mint) (dst : list byte) : list byte :=
  pack_coption_key (m_mint_authority m) (slice 0 36 dst) ++
  le_split 8 (m_supply m) ++ le_split 1 (m_decimals m) ++
  pack_flag (m_is_initialized m) ++
  pack_coption_key (m_freeze_authority m) (slice 46 82 dst).

(** ** [impl Pack for Account] *)
Definition Account_unpack_from_slice (src : list byte) : res Account :=
  src ← array_ref src Account_LEN;
  delegate ← unpack_coption_key (slice 72 108 src);
  state ← ok_or (account_state_try_from (le_combine (slice 108 109 src))) InvalidAccountData;
  is_native ← unpack_coption_u64 (slice 109 121 src);
  close_authority ← unpack_coption_key (slice 129 165 src);
  Ok (mkAcc (le_combine (slice 0 32 src)) (le_combine (slice 32 64 src))
        (le_combine (slice 64 72 src)) delegate state is_native
        (le_combine (slice 121 129 src)) close_authority).

Definition Account_pack_into_slice (a : Account) (dst : list byte) : list byte :=
  le_split 32 (a_mint a) ++ le_split 32 (a_owner a) ++ le_split 8 (a_amount a) ++
  pack_coption_key (a_delegate a) (slice 72 108 dst) ++
  le_split 1 (account_state_u8 (a_state a)) ++
  pack_coption_u64 (a_is_native a) (slice 109 121 dst) ++
  le_split 8 (a_delegated_amount a) ++
  pack_coption_key (a_close_authority a) (slice 129 165 dst).

(** ** [impl Pack for Multisig] *)
Definition Multisig_unpack_from_slice (src : list byte) : res Multisig :=
  src ← array_ref src Multisig_LEN;
  is_initialized ← unpack_flag (slice 2 3 src);
  Ok (mkMultisig (le_combine (slice 0 1 src)) (le_combine (slice 1 2 src)) is_initialized
        (array_read pubkey MAX_SIGNERS (slice 3 355 src))).

Definition Multisig_pack_into_slice (m : Multisig) (dst : list byte) : list byte :=
  le_split 1 (s_m m) ++ le_split 1 (s_n m) ++ pack_flag (s_is_initialized m) ++
  mjoin (le_split 32 <$> s_signers m).

(** ** Methods *)
Definition Account_is_frozen (a : Account) : bool := bool_decide (a_state a = Frozen).
Definition Account_is_native (a : Account) : bool := bool_decide (is_Some (a_is_native a)).
Definition Account_is_owned_by_system_program_or_incinerator `{Runtime} (a : Account) : bool :=
  (a_owner a =? system_program_id) || (a_owner a =? incinerator_id).
Definition Account_is_initialized (a : Account) : bool :=
  bool_decide (a_state a ≠ Uninitialized).

(** ** [solana_program_pack::Pack], as far as the program uses it *)
Class Pack (S : Type) := {
  PACK_LEN : nat;
  unpack_from_slice : list byte → res S;
  pack_into_slice : S → list byte → list byte;
  pack_is_initialized : S → bool;
}.
Arguments PACK_LEN S {_}.
#[export] Instance Mint_Pack : Pack Mint := {|
  PACK_LEN := Mint_LEN;
  unpack_from_slice := Mint_unpack_from_slice;
  pack_into_slice := Mint_pack_into_slice;
  pack_is_initialized := m_is_initialized;
|}.
#[export] Instance Account_Pack : Pack Account := {|
  PACK_LEN := Account_LEN;
  unpack_from_slice := Account_unpack_from_slice;
  pack_into_slice := Account_pack_into_slice;
  pack_is_initialized := Account_is_initialized;
|}.
#[export] Instance Multisig_Pack : Pack Multisig := {|
  PACK_LEN := Multisig_LEN;
  unpack_from_slice := Multisig_unpack_from_slice;
  pack_into_slice := Multisig_pack_into_slice;
  pack_is_initialized := s_is_initialized;
|}.

(** [Pack::unpack]: the length must match and the value must be initialized. *)
Definition Pack_unpack S `{Pack S} (src : list byte) : res S :=
  if negb (length src =? PACK_LEN S)%nat then Err InvalidAccountData
  else
    a ← unpack_from_slice src;
    if pack_is_initialized a then Ok a else Err UninitializedAccount.

(** [Pack::pack]: the bytes that [dst] holds after it. *)
Definition Pack_pack {S} `{Pack S} (src : S) (dst : list byte) : res (list byte) :=
  if negb (length dst =? PACK_LEN S)%nat then Err InvalidAccountData
  else Ok (pack_into_slice src dst).

(** ** [generic_token_account.rs] *)
Definition ACCOUNT_INITIALIZED_INDEX : nat := 108.
Definition is_initialized_account_data (d : list byte) : bool :=
  negb (byte.unsigned (default Byte.x00 (d !! ACCOUNT_INITIALIZED_INDEX))
        =? account_state_u8 Uninitialized).
