(* ===== verification/ExtensionType.v ===== *)
(** * Account and extension types: [interface/src/extension/mod.rs]

    The two enumerations that label accounts and TLV entries, their codes, and
    the rules on sets of extensions. *)
From S2P Require Import Prelude Codec Errors Runtime.

(** ** [AccountType] *)
Module AccountType.
Inductive t := Uninitialized | Mint | Account.
#[global] Instance eq_dec : EqDecision t.
Proof. solve_decision. Defined.
End AccountType.
Abbreviation AccountType := AccountType.t.

(** [AccountType as u8], [AccountType::try_from(u8)] *)
Definition account_type_u8 (t : AccountType) : Z :=
  match t with
  | AccountType.Uninitialized => 0
  | AccountType.Mint => 1
  | AccountType.Account => 2
  end.
Definition account_type_try_from (b : Z) : option AccountType :=
  match b with
  | 0 => Some AccountType.Uninitialized
  | 1 => Some AccountType.Mint
  | 2 => Some AccountType.Account
  | _ => None
  end.

(** ** [ExtensionType] *)
Module ExtensionType.
Inductive t :=
| Uninitialized
| TransferFeeConfig
| TransferFeeAmount
| MintCloseAuthority
| ConfidentialTransferMint
| ConfidentialTransferAccount
| DefaultAccountState
| ImmutableOwner
| MemoTransfer
| NonTransferable
| InterestBearingConfig
| CpiGuard
| PermanentDelegate
| NonTransferableAccount
| TransferHook
| TransferHookAccount
| ConfidentialTransferFeeConfig
| ConfidentialTransferFeeAmount
| MetadataPointer
| TokenMetadata
| GroupPointer
| TokenGroup
| GroupMemberPointer
| TokenGroupMember
| ConfidentialMintBurn
| ScaledUiAmount
| Pausable
| PausableAccount.
#[global] Instance eq_dec : EqDecision t.
Proof. solve_decision. Defined.
End ExtensionType.
Abbreviation ExtensionType := ExtensionType.t.

(** [u16::from(ExtensionType)] and [ExtensionType::try_from(u16)] *)
Definition ext_u16 (t : ExtensionType) : Z :=
  match t with
  | ExtensionType.Uninitialized => 0
  | ExtensionType.TransferFeeConfig => 1
  | ExtensionType.TransferFeeAmount => 2
  | ExtensionType.MintCloseAuthority => 3
  | ExtensionType.ConfidentialTransferMint => 4
  | ExtensionType.ConfidentialTransferAccount => 5
  | ExtensionType.DefaultAccountState => 6
  | ExtensionType.ImmutableOwner => 7
  | ExtensionType.MemoTransfer => 8
  | ExtensionType.NonTransferable => 9
  | ExtensionType.InterestBearingConfig => 10
  | ExtensionType.CpiGuard => 11
  | ExtensionType.PermanentDelegate => 12
  | ExtensionType.NonTransferableAccount => 13
  | ExtensionType.TransferHook => 14
  | ExtensionType.TransferHookAccount => 15
  | ExtensionType.ConfidentialTransferFeeConfig => 16
  | ExtensionType.ConfidentialTransferFeeAmount => 17
  | ExtensionType.MetadataPointer => 18
  | ExtensionType.TokenMetadata => 19
  | ExtensionType.GroupPointer => 20
  | ExtensionType.TokenGroup => 21
  | ExtensionType.GroupMemberPointer => 22
  | ExtensionType.TokenGroupMember => 23
  | ExtensionType.ConfidentialMintBurn => 24
  | ExtensionType.ScaledUiAmount => 25
  | ExtensionType.Pausable => 26
  | ExtensionType.PausableAccount => 27
  end.
Definition ext_from_u16 (n : Z) : option ExtensionType :=
  match n with
  | 0 => Some ExtensionType.Uninitialized
  | 1 => Some ExtensionType.TransferFeeConfig
  | 2 => Some ExtensionType.TransferFeeAmount
  | 3 => Some ExtensionType.MintCloseAuthority
  | 4 => Some ExtensionType.ConfidentialTransferMint
  | 5 => Some ExtensionType.ConfidentialTransferAccount
  | 6 => Some ExtensionType.DefaultAccountState
  | 7 => Some ExtensionType.ImmutableOwner
  | 8 => Some ExtensionType.MemoTransfer
  | 9 => Some ExtensionType.NonTransferable
  | 10 => Some ExtensionType.InterestBearingConfig
  | 11 => Some ExtensionType.CpiGuard
  | 12 => Some ExtensionType.PermanentDelegate
  | 13 => Some ExtensionType.NonTransferableAccount
  | 14 => Some ExtensionType.TransferHook
  | 15 => Some ExtensionType.TransferHookAccount
  | 16 => Some ExtensionType.ConfidentialTransferFeeConfig
  | 17 => Some ExtensionType.ConfidentialTransferFeeAmount
  | 18 => Some ExtensionType.MetadataPointer
  | 19 => Some ExtensionType.TokenMetadata
  | 20 => Some ExtensionType.GroupPointer
  | 21 => Some ExtensionType.TokenGroup
  | 22 => Some ExtensionType.GroupMemberPointer
  | 23 => Some ExtensionType.TokenGroupMember
  | 24 => Some ExtensionType.ConfidentialMintBurn
  | 25 => Some ExtensionType.ScaledUiAmount
  | 26 => Some ExtensionType.Pausable
  | 27 => Some ExtensionType.PausableAccount
  | _ => None
  end.

(** [impl TryFrom<&[u8]> for ExtensionType] *)
Definition ext_try_from (bs : list byte) : res ExtensionType :=
  if (length bs =? 2)%nat then ok_or (ext_from_u16 (le_combine bs)) InvalidAccountData
  else Err InvalidAccountData.

(** [impl From<ExtensionType> for [u8; 2]] *)
Definition ext_bytes (t : ExtensionType) : list byte := le_split 2 (ext_u16 t).

(** Returns true if the given extension type is sized. *)
Definition sized (t : ExtensionType) : bool :=
  match t with
  | ExtensionType.TokenMetadata => false
  | _ => true
  end.

(** Get the associated account type. *)
Definition get_account_type (t : ExtensionType) : AccountType :=
  match t with
  | ExtensionType.Uninitialized => AccountType.Uninitialized
  | ExtensionType.TransferFeeConfig
  | ExtensionType.MintCloseAuthority
  | ExtensionType.ConfidentialTransferMint
  | ExtensionType.DefaultAccountState
  | ExtensionType.NonTransferable
  | ExtensionType.InterestBearingConfig
  | ExtensionType.PermanentDelegate
  | ExtensionType.TransferHook
  | ExtensionType.ConfidentialTransferFeeConfig
  | ExtensionType.MetadataPointer
  | ExtensionType.TokenMetadata
  | ExtensionType.GroupPointer
  | ExtensionType.TokenGroup
  | ExtensionType.GroupMemberPointer
  | ExtensionType.ConfidentialMintBurn
  | ExtensionType.TokenGroupMember
  | ExtensionType.ScaledUiAmount
  | ExtensionType.Pausable => AccountType.Mint
  | ExtensionType.ImmutableOwner
  | ExtensionType.TransferFeeAmount
  | ExtensionType.ConfidentialTransferAccount
  | ExtensionType.MemoTransfer
  | ExtensionType.NonTransferableAccount
  | ExtensionType.TransferHookAccount
  | ExtensionType.CpiGuard
  | ExtensionType.ConfidentialTransferFeeAmount
  | ExtensionType.PausableAccount => AccountType.Account
  end.

(** The account extensions a mint extension requires on [InitializeAccount]:
    the body of the loop of [get_required_init_account_extensions]. *)
Definition required_by (t : ExtensionType) : list ExtensionType :=
  match t with
  | ExtensionType.TransferFeeConfig => [ExtensionType.TransferFeeAmount]
  | ExtensionType.NonTransferable =>
      [ExtensionType.NonTransferableAccount; ExtensionType.ImmutableOwner]
  | ExtensionType.TransferHook => [ExtensionType.TransferHookAccount]
  | ExtensionType.Pausable => [ExtensionType.PausableAccount]
  | _ => []
  end.
Definition get_required_init_account_extensions (l : list ExtensionType) : list ExtensionType :=
  fold_left (λ acc t, acc ++ required_by t) l [].

(** The six flags of [check_for_invalid_mint_extension_combinations]. *)
Record ext_flags := mkFlags {
  transfer_fee_config : bool;
  confidential_transfer_mint : bool;
  confidential_transfer_fee_config : bool;
  confidential_mint_burn : bool;
  interest_bearing : bool;
  scaled_ui_amount : bool;
}.

Definition set_flag (f : ext_flags) (t : ExtensionType) : ext_flags :=
  let '(mkFlags a b c d e g) := f in
  match t with
  | ExtensionType.TransferFeeConfig => mkFlags true b c d e g
  | ExtensionType.ConfidentialTransferMint => mkFlags a true c d e g
  | ExtensionType.ConfidentialTransferFeeConfig => mkFlags a b true d e g
  | ExtensionType.ConfidentialMintBurn => mkFlags a b c true e g
  | ExtensionType.InterestBearingConfig => mkFlags a b c d true g
  | ExtensionType.ScaledUiAmount => mkFlags a b c d e true
  | _ => f
  end.

(** Check for invalid combination of mint extensions. *)
Definition check_for_invalid_mint_extension_combinations
    (l : list ExtensionType) : result TokenError unit :=
  let f := fold_left set_flag l (mkFlags false false false false false false) in
  throw_if (confidential_transfer_fee_config f &&
            negb (transfer_fee_config f && confidential_transfer_mint f))
    InvalidExtensionCombination;;
  throw_if (transfer_fee_config f && confidential_transfer_mint f &&
            negb (confidential_transfer_fee_config f)) InvalidExtensionCombination;;
  throw_if (confidential_mint_burn f && negb (confidential_transfer_mint f))
    InvalidExtensionCombination;;
  throw_if (scaled_ui_amount f && interest_bearing f) InvalidExtensionCombination.

(** ** Lemmas *)
Lemma ext_from_to_u16 t : ext_from_u16 (ext_u16 t) = Some t.
Proof. by destruct t. Qed.

Lemma ext_u16_inj t1 t2 : ext_u16 t1 = ext_u16 t2 → t1 = t2.
Proof.
  intros H. apply (f_equal ext_from_u16) in H. rewrite !ext_from_to_u16 in H.
  congruence.
Qed.

Lemma ext_from_u16_Some n t : ext_from_u16 n = Some t ↔ n = ext_u16 t.
Proof.
  split; [|intros ->; apply ext_from_to_u16].
  unfold ext_from_u16. repeat case_match; naive_solver.
Qed.

Lemma ext_u16_range t : in_uint 16 (ext_u16 t).
Proof. unfold in_uint. destruct t; simpl; lia. Qed.

Lemma length_ext_bytes t : length (ext_bytes t) = 2%nat.
Proof. apply length_le_split. Qed.

Lemma le_combine_ext_bytes t : le_combine (ext_bytes t) = ext_u16 t.
Proof.
  unfold ext_bytes. rewrite le_combine_split. apply Z.mod_small.
  apply (ext_u16_range t).
Qed.

Lemma ext_try_from_bytes t : ext_try_from (ext_bytes t) = Ok t.
Proof.
  unfold ext_try_from. rewrite length_ext_bytes, le_combine_ext_bytes, ext_from_to_u16.
  done.
Qed.

Lemma account_type_from_to t : account_type_try_from (account_type_u8 t) = Some t.
Proof. by destruct t. Qed.

Lemma account_type_try_from_Some b t :
  account_type_try_from b = Some t ↔ b = account_type_u8 t.
Proof.
  split; [|intros ->; apply account_type_from_to].
  unfold account_type_try_from. repeat case_match; naive_solver.
Qed.

Lemma fold_set_flag l f :
  fold_left set_flag l f = mkFlags
    (transfer_fee_config f || bool_decide (ExtensionType.TransferFeeConfig ∈ l))
    (confidential_transfer_mint f || bool_decide (ExtensionType.ConfidentialTransferMint ∈ l))
    (confidential_transfer_fee_config f ||
       bool_decide (ExtensionType.ConfidentialTransferFeeConfig ∈ l))
    (confidential_mint_burn f || bool_decide (ExtensionType.ConfidentialMintBurn ∈ l))
    (interest_bearing f || bool_decide (ExtensionType.InterestBearingConfig ∈ l))
    (scaled_ui_amount f || bool_decide (ExtensionType.ScaledUiAmount ∈ l)).
Proof.
  revert f. induction l as [|t l IH]; intros [a b c d e g]; simpl.
  { by rewrite !orb_false_r. }
  rewrite IH. f_equal; destruct t; simpl;
    rewrite ?orb_true_r; try (f_equal; apply bool_decide_ext; set_solver);
    symmetry; apply orb_true_intro; right; apply bool_decide_eq_true_2; set_solver.
Qed.
