(* ===== verification/ExtensionData.v ===== *)
(** * Extension states: [interface/src/extension/*.rs]

    The plain-old-data structs stored in TLV entries, their [repr(C)] layouts,
    and the class [Extension] that ties each to its [ExtensionType].  Encryption
    keys and ciphertexts are byte arrays whose lengths belong to
    [solana_zk_sdk]. *)
From S2P Require Import Prelude Codec Errors Runtime Pod ExtensionType.

Definition elgamal_pubkey_codec `{Runtime} := bytes_codec elgamal_pubkey_len.
Definition ciphertext_codec `{Runtime} := bytes_codec elgamal_ciphertext_len.
Definition ae_ciphertext_codec `{Runtime} := bytes_codec ae_ciphertext_len.

(** [trait Extension], with [Pod] and [Default]: the default value of every
    extension is the one whose bytes are zero. *)
Class Extension (V : Type) := {
  TYPE : ExtensionType;
  ext_codec : codec V;
}.
Definition ext_default {V} `{Extension V} : V :=
  c_read ext_codec (replicate (c_size ext_codec) Byte.x00).
Definition ext_size (V : Type) `{Extension V} : nat := c_size (ext_codec (V:=V)).
Arguments TYPE V {_}.

Record TransferFee := mkTransferFee {
  tf_epoch : Z;
  tf_maximum_fee : Z;
  tf_transfer_fee_basis_points : Z;
}.
Program Definition TransferFee_codec : codec TransferFee :=
  iso_codec (pair_codec u64 (pair_codec u64 u16)) (λ '(x0, (x1, x2)), mkTransferFee x0 x1
    x2) (λ s, (tf_epoch s, (tf_maximum_fee s, tf_transfer_fee_basis_points s))) _ _.
Solve All Obligations with solve_iso.

Record TransferFeeConfig := mkTransferFeeConfig {
  tfc_transfer_fee_config_authority : Pubkey;
  tfc_withdraw_withheld_authority : Pubkey;
  tfc_withheld_amount : Z;
  tfc_older_transfer_fee : TransferFee;
  tfc_newer_transfer_fee : TransferFee;
}.
Program Definition TransferFeeConfig_codec : codec TransferFeeConfig :=
  iso_codec (pair_codec pubkey (pair_codec pubkey (pair_codec u64 (pair_codec
    TransferFee_codec TransferFee_codec)))) (λ '(x0, (x1, (x2, (x3, x4)))),
    mkTransferFeeConfig x0 x1 x2 x3 x4) (λ s, (tfc_transfer_fee_config_authority s,
    (tfc_withdraw_withheld_authority s, (tfc_withheld_amount s, (tfc_older_transfer_fee s,
    tfc_newer_transfer_fee s))))) _ _.
Solve All Obligations with solve_iso.
#[export] Instance TransferFeeConfig_Extension : Extension TransferFeeConfig :=
  {| TYPE := ExtensionType.TransferFeeConfig; ext_codec := TransferFeeConfig_codec |}.

Record TransferFeeAmount := mkTransferFeeAmount {
  tfa_withheld_amount : Z;
}.
Program Definition TransferFeeAmount_codec : codec TransferFeeAmount :=
  iso_codec u64 (λ x0, mkTransferFeeAmount x0) (λ s, tfa_withheld_amount s) _ _.
Solve All Obligations with solve_iso.
#[export] Instance TransferFeeAmount_Extension : Extension TransferFeeAmount :=
  {| TYPE := ExtensionType.TransferFeeAmount; ext_codec := TransferFeeAmount_codec |}.

Record MintCloseAuthority := mkMintCloseAuthority {
  mca_close_authority : Pubkey;
}.
Program Definition MintCloseAuthority_codec : codec MintCloseAuthority :=
  iso_codec pubkey (λ x0, mkMintCloseAuthority x0) (λ s, mca_close_authority s) _ _.
Solve All Obligations with solve_iso.
#[export] Instance MintCloseAuthority_Extension : Extension MintCloseAuthority :=
  {| TYPE := ExtensionType.MintCloseAuthority; ext_codec := MintCloseAuthority_codec |}.

Record PermanentDelegate := mkPermanentDelegate {
  pd_delegate : Pubkey;
}.
Program Definition PermanentDelegate_codec : codec PermanentDelegate :=
  iso_codec pubkey (λ x0, mkPermanentDelegate x0) (λ s, pd_delegate s) _ _.
Solve All Obligations with solve_iso.
#[export] Instance PermanentDelegate_Extension : Extension PermanentDelegate :=
  {| TYPE := ExtensionType.PermanentDelegate; ext_codec := PermanentDelegate_codec |}.

Record DefaultAccountState := mkDefaultAccountState {
  das_state : Z;
}.
Program Definition DefaultAccountState_codec : codec DefaultAccountState :=
  iso_codec u8 (λ x0, mkDefaultAccountState x0) (λ s, das_state s) _ _.
Solve All Obligations with solve_iso.
#[export] Instance DefaultAccountState_Extension : Extension DefaultAccountState :=
  {| TYPE := ExtensionType.DefaultAccountState; ext_codec := DefaultAccountState_codec |}.

Inductive ImmutableOwner : Set := mkImmutableOwner.
Program Definition ImmutableOwner_codec : codec ImmutableOwner :=
  iso_codec unit_codec (λ _, mkImmutableOwner) (λ _, tt) _ _.
Solve All Obligations with (by intros []).
#[export] Instance ImmutableOwner_Extension : Extension ImmutableOwner :=
  {| TYPE := ExtensionType.ImmutableOwner; ext_codec := ImmutableOwner_codec |}.

Inductive NonTransferable : Set := mkNonTransferable.
Program Definition NonTransferable_codec : codec NonTransferable :=
  iso_codec unit_codec (λ _, mkNonTransferable) (λ _, tt) _ _.
Solve All Obligations with (by intros []).
#[export] Instance NonTransferable_Extension : Extension NonTransferable :=
  {| TYPE := ExtensionType.NonTransferable; ext_codec := NonTransferable_codec |}.

Inductive NonTransferableAccount : Set := mkNonTransferableAccount.
Program Definition NonTransferableAccount_codec : codec NonTransferableAccount :=
  iso_codec unit_codec (λ _, mkNonTransferableAccount) (λ _, tt) _ _.
Solve All Obligations with (by intros []).
#[export] Instance NonTransferableAccount_Extension : Extension NonTransferableAccount :=
  {| TYPE := ExtensionType.NonTransferableAccount; ext_codec := NonTransferableAccount_codec |}.

Record MemoTransfer := mkMemoTransfer {
  mt_require_incoming_transfer_memos : Z;
}.
Program Definition MemoTransfer_codec : codec MemoTransfer :=
  iso_codec u8 (λ x0, mkMemoTransfer x0) (λ s, mt_require_incoming_transfer_memos s) _ _.
Solve All Obligations with solve_iso.
#[export] Instance MemoTransfer_Extension : Extension MemoTransfer :=
  {| TYPE := ExtensionType.MemoTransfer; ext_codec := MemoTransfer_codec |}.

Record CpiGuard := mkCpiGuard {
  cg_lock_cpi : Z;
}.
Program Definition CpiGuard_codec : codec CpiGuard :=
  iso_codec u8 (λ x0, mkCpiGuard x0) (λ s, cg_lock_cpi s) _ _.
Solve All Obligations with solve_iso.
#[export] Instance CpiGuard_Extension : Extension CpiGuard :=
  {| TYPE := ExtensionType.CpiGuard; ext_codec := CpiGuard_codec |}.

Record InterestBearingConfig := mkInterestBearingConfig {
  ibc_rate_authority : Pubkey;
  ibc_initialization_timestamp : Z;
  ibc_pre_update_average_rate : Z;
  ibc_last_update_timestamp : Z;
  ibc_current_rate : Z;
}.
Program Definition InterestBearingConfig_codec : codec InterestBearingConfig :=
  iso_codec (pair_codec pubkey (pair_codec i64 (pair_codec i16 (pair_codec i64 i16)))) (λ
    '(x0, (x1, (x2, (x3, x4)))), mkInterestBearingConfig x0 x1 x2 x3 x4) (λ s,
    (ibc_rate_authority s, (ibc_initialization_timestamp s, (ibc_pre_update_average_rate
    s, (ibc_last_update_timestamp s, ibc_current_rate s))))) _ _.
Solve All Obligations with solve_iso.
#[export] Instance InterestBearingConfig_Extension : Extension InterestBearingConfig :=
  {| TYPE := ExtensionType.InterestBearingConfig; ext_codec := InterestBearingConfig_codec |}.

Record TransferHook := mkTransferHook {
  th_authority : Pubkey;
  th_program_id : Pubkey;
}.
Program Definition TransferHook_codec : codec TransferHook :=
  iso_codec (pair_codec pubkey pubkey) (λ '(x0, x1), mkTransferHook x0 x1) (λ s,
    (th_authority s, th_program_id s)) _ _.
Solve All Obligations with solve_iso.
#[export] Instance TransferHook_Extension : Extension TransferHook :=
  {| TYPE := ExtensionType.TransferHook; ext_codec := TransferHook_codec |}.

Record TransferHookAccount := mkTransferHookAccount {
  tha_transferring : Z;
}.
Program Definition TransferHookAccount_codec : codec TransferHookAccount :=
  iso_codec u8 (λ x0, mkTransferHookAccount x0) (λ s, tha_transferring s) _ _.
Solve All Obligations with solve_iso.
#[export] Instance TransferHookAccount_Extension : Extension TransferHookAccount :=
  {| TYPE := ExtensionType.TransferHookAccount; ext_codec := TransferHookAccount_codec |}.

Record MetadataPointer := mkMetadataPointer {
  mp_authority : Pubkey;
  mp_metadata_address : Pubkey;
}.
Program Definition MetadataPointer_codec : codec MetadataPointer :=
  iso_codec (pair_codec pubkey pubkey) (λ '(x0, x1), mkMetadataPointer x0 x1) (λ s,
    (mp_authority s, mp_metadata_address s)) _ _.
Solve All Obligations with solve_iso.
#[export] Instance MetadataPointer_Extension : Extension MetadataPointer :=
  {| TYPE := ExtensionType.MetadataPointer; ext_codec := MetadataPointer_codec |}.

Record GroupPointer := mkGroupPointer {
  gp_authority : Pubkey;
  gp_group_address : Pubkey;
}.
Program Definition GroupPointer_codec : codec GroupPointer :=
  iso_codec (pair_codec pubkey pubkey) (λ '(x0, x1), mkGroupPointer x0 x1) (λ s,
    (gp_authority s, gp_group_address s)) _ _.
Solve All Obligations with solve_iso.
#[export] Instance GroupPointer_Extension : Extension GroupPointer :=
  {| TYPE := ExtensionType.GroupPointer; ext_codec := GroupPointer_codec |}.

Record GroupMemberPointer := mkGroupMemberPointer {
  gmp_authority : Pubkey;
  gmp_member_address : Pubkey;
}.
Program Definition GroupMemberPointer_codec : codec GroupMemberPointer :=
  iso_codec (pair_codec pubkey pubkey) (λ '(x0, x1), mkGroupMemberPointer x0 x1) (λ s,
    (gmp_authority s, gmp_member_address s)) _ _.
Solve All Obligations with solve_iso.
#[export] Instance GroupMemberPointer_Extension : Extension GroupMemberPointer :=
  {| TYPE := ExtensionType.GroupMemberPointer; ext_codec := GroupMemberPointer_codec |}.

Record ScaledUiAmountConfig := mkScaledUiAmountConfig {
  sua_authority : Pubkey;
  sua_multiplier : list byte;
  sua_new_multiplier_effective_timestamp : Z;
  sua_new_multiplier : list byte;
}.
Program Definition ScaledUiAmountConfig_codec : codec ScaledUiAmountConfig :=
  iso_codec (pair_codec pubkey (pair_codec (bytes_codec 8) (pair_codec i64 (bytes_codec
    8)))) (λ '(x0, (x1, (x2, x3))), mkScaledUiAmountConfig x0 x1 x2 x3) (λ s,
    (sua_authority s, (sua_multiplier s, (sua_new_multiplier_effective_timestamp s,
    sua_new_multiplier s)))) _ _.
Solve All Obligations with solve_iso.
#[export] Instance ScaledUiAmountConfig_Extension : Extension ScaledUiAmountConfig :=
  {| TYPE := ExtensionType.ScaledUiAmount; ext_codec := ScaledUiAmountConfig_codec |}.

Record PausableConfig := mkPausableConfig {
  pc_authority : Pubkey;
  pc_paused : Z;
}.
Program Definition PausableConfig_codec : codec PausableConfig :=
  iso_codec (pair_codec pubkey u8) (λ '(x0, x1), mkPausableConfig x0 x1) (λ s,
    (pc_authority s, pc_paused s)) _ _.
Solve All Obligations with solve_iso.
#[export] Instance PausableConfig_Extension : Extension PausableConfig :=
  {| TYPE := ExtensionType.Pausable; ext_codec := PausableConfig_codec |}.

Inductive PausableAccount : Set := mkPausableAccount.
Program Definition PausableAccount_codec : codec PausableAccount :=
  iso_codec unit_codec (λ _, mkPausableAccount) (λ _, tt) _ _.
Solve All Obligations with (by intros []).
#[export] Instance PausableAccount_Extension : Extension PausableAccount :=
  {| TYPE := ExtensionType.PausableAccount; ext_codec := PausableAccount_codec |}.

Record ConfidentialTransferMint := mkConfidentialTransferMint {
  ctm_authority : Pubkey;
  ctm_auto_approve_new_accounts : Z;
  ctm_auditor_elgamal_pubkey : list byte;
}.
Program Definition ConfidentialTransferMint_codec `{Runtime} : codec ConfidentialTransferMint :=
  iso_codec (pair_codec pubkey (pair_codec u8 elgamal_pubkey_codec)) (λ '(x0, (x1, x2)),
    mkConfidentialTransferMint x0 x1 x2) (λ s, (ctm_authority s,
    (ctm_auto_approve_new_accounts s, ctm_auditor_elgamal_pubkey s))) _ _.
Solve All Obligations with solve_iso.
#[export] Instance ConfidentialTransferMint_Extension `{Runtime} : Extension ConfidentialTransferMint :=
  {| TYPE := ExtensionType.ConfidentialTransferMint; ext_codec := ConfidentialTransferMint_codec |}.

Record ConfidentialTransferAccount := mkConfidentialTransferAccount {
  cta_approved : Z;
  cta_elgamal_pubkey : list byte;
  cta_pending_balance_lo : list byte;
  cta_pending_balance_hi : list byte;
  cta_available_balance : list byte;
  cta_decryptable_available_balance : list byte;
  cta_allow_confidential_credits : Z;
  cta_allow_non_confidential_credits : Z;
  cta_pending_balance_credit_counter : Z;
  cta_maximum_pending_balance_credit_counter : Z;
  cta_expected_pending_balance_credit_counter : Z;
  cta_actual_pending_balance_credit_counter : Z;
}.
Program Definition ConfidentialTransferAccount_codec `{Runtime} : codec ConfidentialTransferAccount :=
  iso_codec (pair_codec u8 (pair_codec elgamal_pubkey_codec (pair_codec ciphertext_codec
    (pair_codec ciphertext_codec (pair_codec ciphertext_codec (pair_codec
    ae_ciphertext_codec (pair_codec u8 (pair_codec u8 (pair_codec u64 (pair_codec u64
    (pair_codec u64 u64))))))))))) (λ '(x0, (x1, (x2, (x3, (x4, (x5, (x6, (x7, (x8, (x9,
    (x10, x11))))))))))), mkConfidentialTransferAccount x0 x1 x2 x3 x4 x5 x6 x7 x8 x9 x10
    x11) (λ s, (cta_approved s, (cta_elgamal_pubkey s, (cta_pending_balance_lo s,
    (cta_pending_balance_hi s, (cta_available_balance s,
    (cta_decryptable_available_balance s, (cta_allow_confidential_credits s,
    (cta_allow_non_confidential_credits s, (cta_pending_balance_credit_counter s,
    (cta_maximum_pending_balance_credit_counter s,
    (cta_expected_pending_balance_credit_counter s,
    cta_actual_pending_balance_credit_counter s)))))))))))) _ _.
Solve All Obligations with solve_iso.
#[export] Instance ConfidentialTransferAccount_Extension `{Runtime} : Extension ConfidentialTransferAccount :=
  {| TYPE := ExtensionType.ConfidentialTransferAccount; ext_codec := ConfidentialTransferAccount_codec |}.

Record ConfidentialTransferFeeConfig := mkConfidentialTransferFeeConfig {
  ctfc_authority : Pubkey;
  ctfc_withdraw_withheld_authority_elgamal_pubkey : list byte;
  ctfc_harvest_to_mint_enabled : Z;
  ctfc_withheld_amount : list byte;
}.
Program Definition ConfidentialTransferFeeConfig_codec `{Runtime} : codec ConfidentialTransferFeeConfig :=
  iso_codec (pair_codec pubkey (pair_codec elgamal_pubkey_codec (pair_codec u8
    ciphertext_codec))) (λ '(x0, (x1, (x2, x3))), mkConfidentialTransferFeeConfig x0 x1 x2
    x3) (λ s, (ctfc_authority s, (ctfc_withdraw_withheld_authority_elgamal_pubkey s,
    (ctfc_harvest_to_mint_enabled s, ctfc_withheld_amount s)))) _ _.
Solve All Obligations with solve_iso.
#[export] Instance ConfidentialTransferFeeConfig_Extension `{Runtime} : Extension ConfidentialTransferFeeConfig :=
  {| TYPE := ExtensionType.ConfidentialTransferFeeConfig; ext_codec := ConfidentialTransferFeeConfig_codec |}.

Record ConfidentialTransferFeeAmount := mkConfidentialTransferFeeAmount {
  ctfa_withheld_amount : list byte;
}.
Program Definition ConfidentialTransferFeeAmount_codec `{Runtime} : codec ConfidentialTransferFeeAmount :=
  iso_codec ciphertext_codec (λ x0, mkConfidentialTransferFeeAmount x0) (λ s,
    ctfa_withheld_amount s) _ _.
Solve All Obligations with solve_iso.
#[export] Instance ConfidentialTransferFeeAmount_Extension `{Runtime} : Extension ConfidentialTransferFeeAmount :=
  {| TYPE := ExtensionType.ConfidentialTransferFeeAmount; ext_codec := ConfidentialTransferFeeAmount_codec |}.

Record ConfidentialMintBurn := mkConfidentialMintBurn {
  cmb_confidential_supply : list byte;
  cmb_decryptable_supply : list byte;
  cmb_supply_elgamal_pubkey : list byte;
  cmb_pending_burn : list byte;
}.
Program Definition ConfidentialMintBurn_codec `{Runtime} : codec ConfidentialMintBurn :=
  iso_codec (pair_codec ciphertext_codec (pair_codec ae_ciphertext_codec (pair_codec
    elgamal_pubkey_codec ciphertext_codec))) (λ '(x0, (x1, (x2, x3))),
    mkConfidentialMintBurn x0 x1 x2 x3) (λ s, (cmb_confidential_supply s,
    (cmb_decryptable_supply s, (cmb_supply_elgamal_pubkey s, cmb_pending_burn s)))) _ _.
Solve All Obligations with solve_iso.
#[export] Instance ConfidentialMintBurn_Extension `{Runtime} : Extension ConfidentialMintBurn :=
  {| TYPE := ExtensionType.ConfidentialMintBurn; ext_codec := ConfidentialMintBurn_codec |}.

