(* ===== verification/Tlv.v ===== *)
(** * TLV extension storage: [interface/src/extension/mod.rs]

    The area behind the base state of an account: how it is searched, grown and
    rewritten.  Indices are [nat]: the [usize] additions of the source saturate
    at 2^64, which the index into an account of at most 10 MiB never reaches. *)
From S2P Require Import Prelude Codec Errors Runtime Pod State ExtensionType ExtensionData.

Local Open Scope nat_scope.

(** ** Base states *)

(** [trait BaseState: PackedSizeOf + IsInitialized] *)
Class BaseState (S : Type) := {
  SIZE_OF : nat;
  ACCOUNT_TYPE : AccountType;
}.
Arguments SIZE_OF S {_}.
Arguments ACCOUNT_TYPE S {_}.
#[export] Instance Account_BaseState : BaseState Account :=
  {| SIZE_OF := Account_LEN; ACCOUNT_TYPE := AccountType.Account |}.
#[export] Instance Mint_BaseState : BaseState Mint :=
  {| SIZE_OF := Mint_LEN; ACCOUNT_TYPE := AccountType.Mint |}.
#[export] Instance PodAccount_BaseState : BaseState PodAccount :=
  {| SIZE_OF := c_size PodAccount_codec; ACCOUNT_TYPE := AccountType.Account |}.
#[export] Instance PodMint_BaseState : BaseState PodMint :=
  {| SIZE_OF := c_size PodMint_codec; ACCOUNT_TYPE := AccountType.Mint |}.

(** [BaseState + Pod]: the state is viewed in place. *)
Class PodState (S : Type) `{BaseState S} := {
  base_codec : codec S;
  base_is_initialized : S → bool;
  base_size : c_size base_codec = SIZE_OF S;
  base_size_le : SIZE_OF S ≤ Account_LEN;
}.
#[export] Program Instance PodAccount_PodState : PodState PodAccount :=
  {| base_codec := PodAccount_codec; base_is_initialized := PodAccount_is_initialized |}.
Solve All Obligations with (vm_compute; auto; lia).
#[export] Program Instance PodMint_PodState : PodState PodMint :=
  {| base_codec := PodMint_codec; base_is_initialized := PodMint_is_initialized |}.
Next Obligation. reflexivity. Qed.
Next Obligation. vm_compute. lia. Qed.

(** ** Lengths and indices *)

(** [impl TryFrom<usize> for Length] *)
Definition Length_try_from (n : nat) : res Z :=
  ok_or (to_uint 16 (Z.of_nat n)) AccountDataTooSmall.

Record TlvIndices := mkIndices { type_start : nat; length_start : nat; value_start : nat }.

(** [size_of::<ExtensionType>()] and [pod_get_packed_len::<Length>()] are 2. *)
Definition get_tlv_indices (type_start : nat) : TlvIndices :=
  mkIndices type_start (type_start + 2) (type_start + 2 + 2).

Definition adjust_len_for_multisig (account_len : nat) : nat :=
  if account_len =? Multisig_LEN then account_len + 2 else account_len.

Definition add_type_and_length_to_len (value_len : nat) : nat := value_len + 2 + 2.

Definition BASE_ACCOUNT_LENGTH : nat := Account_LEN.
Definition BASE_ACCOUNT_AND_TYPE_LENGTH : nat := BASE_ACCOUNT_LENGTH + 1.

Section tlv.
Context `{rt : Runtime}.
Implicit Types (tlv_data rest input : list byte) (V : ExtensionType).

(** ** Search *)

(** The [while] loop of [get_extension_indices]; every turn moves
    [start_index] at least four bytes on, so the length of the buffer bounds
    the turns ([get_extension_indices_fuel]). *)
Fixpoint get_extension_indices_loop (fuel : nat) V tlv_data (init : bool)
    (start_index : nat) : res TlvIndices :=
  match fuel with
  | O => Panic
  | S fuel =>
    if start_index <? length tlv_data then
      let i := get_tlv_indices start_index in
      if length tlv_data <? value_start i then Err InvalidAccountData else
      let extension_type := le_combine (slice (type_start i) (length_start i) tlv_data) in
      if (extension_type =? ext_u16 V)%Z then Ok i
      else if (extension_type =? ext_u16 ExtensionType.Uninitialized)%Z then
        if init then Ok i else Err (tok ExtensionNotFound)
      else
        length ← pod_from_bytes u16 (slice (length_start i) (value_start i) tlv_data);
        get_extension_indices_loop fuel V tlv_data init (value_start i + Z.to_nat length)
    else Err InvalidAccountData
  end.
Definition get_extension_indices V tlv_data (init : bool) : res TlvIndices :=
  get_extension_indices_loop (S (length tlv_data)) V tlv_data init 0.

Record TlvDataInfo := mkInfoTlv { extension_types : list ExtensionType; used_len : nat }.

Fixpoint get_tlv_data_info_loop (fuel : nat) tlv_data (extension_types : list ExtensionType)
    (start_index : nat) : res TlvDataInfo :=
  match fuel with
  | O => Panic
  | S fuel =>
    if start_index <? length tlv_data then
      let i := get_tlv_indices start_index in
      if length tlv_data <? length_start i then
        Ok (mkInfoTlv extension_types (type_start i))
      else
        extension_type ← ext_try_from (slice (type_start i) (length_start i) tlv_data);
        if decide (extension_type = ExtensionType.Uninitialized) then
          Ok (mkInfoTlv extension_types (type_start i))
        else if length tlv_data <? value_start i then Err InvalidAccountData
        else
          let extension_types := extension_types ++ [extension_type] in
          length ← pod_from_bytes u16 (slice (length_start i) (value_start i) tlv_data);
          let value_end_index := value_start i + Z.to_nat length in
          if (List.length tlv_data <? value_end_index) then Err InvalidAccountData
          else get_tlv_data_info_loop fuel tlv_data extension_types value_end_index
    else Ok (mkInfoTlv extension_types start_index)
  end.
Definition get_tlv_data_info tlv_data : res TlvDataInfo :=
  get_tlv_data_info_loop (S (length tlv_data)) tlv_data [] 0.

Definition get_first_extension_type tlv_data : res (option ExtensionType) :=
  if length tlv_data =? 0 then Ok None
  else
    let i := get_tlv_indices 0 in
    if length tlv_data <=? length_start i then Ok None
    else
      extension_type ← ext_try_from (slice (type_start i) (length_start i) tlv_data);
      if decide (extension_type = ExtensionType.Uninitialized) then Ok None
      else Ok (Some extension_type).

(** ** The parts of an account buffer *)

Definition check_min_len_and_not_multisig input (minimum_len : nat) : res unit :=
  throw_if ((length input =? Multisig_LEN) || (length input <? minimum_len))
    InvalidAccountData.

Definition check_account_type S `{BaseState S} (t : AccountType) : res unit :=
  if decide (t = ACCOUNT_TYPE S) then Ok tt else Err InvalidAccountData.

Definition type_and_tlv_indices S `{BaseState S} rest : res (option (nat * nat)) :=
  if length rest =? 0 then Ok None
  else
    let account_type_index := BASE_ACCOUNT_LENGTH - SIZE_OF S in
    let tlv_start_index := account_type_index + 1 in
    if length rest <? tlv_start_index then Err InvalidAccountData
    else if decide (take account_type_index rest = replicate account_type_index Byte.x00) then
      Ok (Some (account_type_index, tlv_start_index))
    else Err InvalidAccountData.

Definition is_initialized_account input : res bool :=
  if negb (length input =? BASE_ACCOUNT_LENGTH) then Err InvalidAccountData
  else Ok (negb (byte.unsigned (default Byte.x00 (input !! 108%nat)) =? 0)%Z).

(** [AccountType::try_from(rest[i])] of a byte in range *)
Definition account_type_at rest (i : nat) : res AccountType :=
  ok_or (account_type_try_from (le_combine (slice i (i + 1) rest))) InvalidAccountData.

Definition unpack_tlv_data S `{BaseState S} rest : res (list byte) :=
  o ← type_and_tlv_indices S rest;
  match o with
  | Some (account_type_index, tlv_start_index) =>
      account_type ← account_type_at rest account_type_index;
      check_account_type S account_type;;
      Ok (drop tlv_start_index rest)
  | None => Ok []
  end.

(** The account type slice (one byte, or none) and the TLV slice *)
Definition unpack_type_and_tlv_data_with_check_mut S `{BaseState S} rest
    (check_fn : AccountType → res unit) : res (list byte * list byte) :=
  o ← type_and_tlv_indices S rest;
  match o with
  | Some (account_type_index, tlv_start_index) =>
      account_type ← account_type_at rest account_type_index;
      check_fn account_type;;
      Ok (slice account_type_index tlv_start_index rest, drop tlv_start_index rest)
  | None => Ok ([], [])
  end.
Definition unpack_type_and_tlv_data_mut S `{BaseState S} rest :=
  unpack_type_and_tlv_data_with_check_mut S rest (check_account_type S).
Definition unpack_uninitialized_type_and_tlv_data_mut S `{BaseState S} rest :=
  unpack_type_and_tlv_data_with_check_mut S rest (λ account_type,
    if decide (account_type = AccountType.Uninitialized) then Ok tt
    else Err InvalidAccountData).

(** ** Entries *)

(** The value range of the entry of type [V]. *)
Definition get_extension_range S `{BaseState S} V tlv_data : res (nat * nat) :=
  if decide (get_account_type V = ACCOUNT_TYPE S) then
    i ← get_extension_indices V tlv_data false;
    length ← pod_from_bytes u16 (slice (length_start i) (value_start i) tlv_data);
    let value_end := value_start i + Z.to_nat length in
    if List.length tlv_data <? value_end then Err InvalidAccountData
    else Ok (value_start i, value_end)
  else Err InvalidAccountData.
Definition get_extension_bytes S `{BaseState S} V tlv_data : res (list byte) :=
  '(a, b) ← get_extension_range S V tlv_data;
  Ok (slice a b tlv_data).

Definition try_get_new_account_len_for_extension_len S `{BaseState S} V tlv_data
    (new_extension_len : nat) : res nat :=
  let new_extension_tlv_len := add_type_and_length_to_len new_extension_len in
  tlv_info ← get_tlv_data_info tlv_data;
  let current_len := used_len tlv_info + BASE_ACCOUNT_AND_TYPE_LENGTH in
  let current_extension_len :=
    match get_extension_bytes S V tlv_data with
    | Ok x => add_type_and_length_to_len (length x)
    | _ => 0
    end in
  let new_len := current_len - current_extension_len + new_extension_tlv_len in
  Ok (adjust_len_for_multisig new_len).

(** [alloc]: the buffer with the type and length of the entry written, and
    the range of its value. *)
Definition alloc S `{BaseState S} V (len : nat) (overwrite : bool) tlv_data :
    res (list byte * (nat * nat)) :=
  if decide (get_account_type V = ACCOUNT_TYPE S) then
    i ← get_extension_indices V tlv_data true;
    if length (drop (type_start i) tlv_data) <? add_type_and_length_to_len len
    then Err InvalidAccountData else
    extension_type ← ext_try_from (slice (type_start i) (length_start i) tlv_data);
    if bool_decide (extension_type = ExtensionType.Uninitialized) || overwrite then
      let tlv_data := splice (type_start i) (ext_bytes V) tlv_data in
      length_ref ← pod_from_bytes u16 (slice (length_start i) (value_start i) tlv_data);
      throw_if (overwrite && bool_decide (extension_type = V) &&
                negb (Z.to_nat length_ref =? len)) (tok InvalidLengthForAlloc);;
      l ← Length_try_from len;
      Ok (splice (length_start i) (le_split 2 l) tlv_data,
          (value_start i, value_start i + len))
    else Err (tok ExtensionAlreadyInitialized)
  else Err InvalidAccountData.

(** [tlv_data.copy_within(a..b, dest)] *)
Definition copy_within (a b dest : nat) tlv_data : res (list byte) :=
  if (b <? a) || (length tlv_data <? b) || (length tlv_data <? dest + (b - a)) then Panic
  else Ok (splice dest (slice a b tlv_data) tlv_data).
(** [tlv_data[a..b].fill(0)] *)
Definition fill0 (a b : nat) tlv_data : res (list byte) :=
  if (b <? a) || (length tlv_data <? b) then Panic
  else Ok (splice a (replicate (b - a) Byte.x00) tlv_data).

(** [realloc]: the buffer with the entry resized, and the range of its value. *)
Definition realloc V (len : nat) tlv_data : res (list byte * (nat * nat)) :=
  i ← get_extension_indices V tlv_data false;
  info ← get_tlv_data_info tlv_data;
  let tlv_len := used_len info in
  let data_len := length tlv_data in
  length_ref ← pod_from_bytes u16 (slice (length_start i) (value_start i) tlv_data);
  let old_length := Z.to_nat length_ref in
  (if old_length <? len then
     throw_if (data_len <? tlv_len + (len - old_length)) InvalidAccountData
   else Ok tt);;
  l ← Length_try_from len;
  let tlv_data := splice (length_start i) (le_split 2 l) tlv_data in
  let old_value_end := value_start i + old_length in
  let new_value_end := value_start i + len in
  tlv_data ← copy_within old_value_end tlv_len new_value_end tlv_data;
  tlv_data ←
    (match Nat.compare old_length len with
     | Gt => fill0 (tlv_len - (old_length - len)) tlv_len tlv_data
     | Lt => fill0 old_value_end new_value_end tlv_data
     | Eq => Ok tlv_data
     end);
  if List.length tlv_data <? new_value_end then Panic
  else Ok (tlv_data, (value_start i, new_value_end)).

(** ** Account lengths *)

(** [pod_get_packed_len] of the struct of each extension type *)
Definition try_get_type_len V : res nat :=
  if negb (sized V) then Err InvalidArgument
  else
    match V with
    | ExtensionType.Uninitialized => Ok 0
    | ExtensionType.TransferFeeConfig => Ok (ext_size TransferFeeConfig)
    | ExtensionType.TransferFeeAmount => Ok (ext_size TransferFeeAmount)
    | ExtensionType.MintCloseAuthority => Ok (ext_size MintCloseAuthority)
    | ExtensionType.ImmutableOwner => Ok (ext_size ImmutableOwner)
    | ExtensionType.ConfidentialTransferMint => Ok (ext_size ConfidentialTransferMint)
    | ExtensionType.ConfidentialTransferAccount => Ok (ext_size ConfidentialTransferAccount)
    | ExtensionType.DefaultAccountState => Ok (ext_size DefaultAccountState)
    | ExtensionType.MemoTransfer => Ok (ext_size MemoTransfer)
    | ExtensionType.NonTransferable => Ok (ext_size NonTransferable)
    | ExtensionType.InterestBearingConfig => Ok (ext_size InterestBearingConfig)
    | ExtensionType.CpiGuard => Ok (ext_size CpiGuard)
    | ExtensionType.PermanentDelegate => Ok (ext_size PermanentDelegate)
    | ExtensionType.NonTransferableAccount => Ok (ext_size NonTransferableAccount)
    | ExtensionType.TransferHook => Ok (ext_size TransferHook)
    | ExtensionType.TransferHookAccount => Ok (ext_size TransferHookAccount)
    | ExtensionType.ConfidentialTransferFeeConfig =>
        Ok (ext_size ConfidentialTransferFeeConfig)
    | ExtensionType.ConfidentialTransferFeeAmount =>
        Ok (ext_size ConfidentialTransferFeeAmount)
    | ExtensionType.MetadataPointer => Ok (ext_size MetadataPointer)
    | ExtensionType.TokenMetadata => Panic
    | ExtensionType.GroupPointer => Ok (ext_size GroupPointer)
    | ExtensionType.TokenGroup => Ok token_group_len
    | ExtensionType.GroupMemberPointer => Ok (ext_size GroupMemberPointer)
    | ExtensionType.TokenGroupMember => Ok token_group_member_len
    | ExtensionType.ConfidentialMintBurn => Ok (ext_size ConfidentialMintBurn)
    | ExtensionType.ScaledUiAmount => Ok (ext_size ScaledUiAmountConfig)
    | ExtensionType.Pausable => Ok (ext_size PausableConfig)
    | ExtensionType.PausableAccount => Ok (ext_size PausableAccount)
    end.

Definition try_get_tlv_len V : res nat :=
  n ← try_get_type_len V; Ok (add_type_and_length_to_len n).

(** The deduplicating loop of [try_get_total_tlv_len]. *)
Definition dedupe (l : list ExtensionType) : list ExtensionType :=
  fold_left (λ acc t, if decide (t ∈ acc) then acc else acc ++ [t]) l [].
Fixpoint sum_tlv_len (l : list ExtensionType) : res nat :=
  match l with
  | [] => Ok 0
  | t :: l => n ← try_get_tlv_len t; m ← sum_tlv_len l; Ok (n + m)
  end.
Definition try_get_total_tlv_len (l : list ExtensionType) : res nat :=
  sum_tlv_len (dedupe l).

Definition try_calculate_account_len S `{BaseState S} (l : list ExtensionType) : res nat :=
  match l with
  | [] => Ok (SIZE_OF S)
  | _ =>
      extension_size ← try_get_total_tlv_len l;
      Ok (adjust_len_for_multisig (extension_size + BASE_ACCOUNT_AND_TYPE_LENGTH))
  end.

(** [set_account_type]: the buffer with its account type written if it was
    not set. *)
Definition set_account_type S `{BaseState S} input : res (list byte) :=
  check_min_len_and_not_multisig input (SIZE_OF S);;
  let base_data := take (SIZE_OF S) input in
  let rest := drop (SIZE_OF S) input in
  (if decide (ACCOUNT_TYPE S = AccountType.Account) then
     b ← is_initialized_account base_data;
     throw_if (negb b) InvalidAccountData
   else Ok tt);;
  o ← type_and_tlv_indices S rest;
  match o with
  | Some (account_type_index, _) =>
      account_type ← account_type_at rest account_type_index;
      let unset := bool_decide (account_type = AccountType.Uninitialized) in
      let account_type := if unset then ACCOUNT_TYPE S else account_type in
      check_account_type S account_type;;
      Ok (if unset then
            base_data ++ splice account_type_index
                           (le_split 1 (account_type_u8 (ACCOUNT_TYPE S))) rest
          else input)
  | None => Err InvalidAccountData
  end.
End tlv.
