(* ===== verification/TlvFacts.v ===== *)
(** * TLV storage refines an association list

    A well-formed TLV area is the encoding of a list of entries followed by
    zeros.  On such an area the byte-level operations of [Tlv.v] are lookup,
    append and update of the list; the file also shows that the search loops
    terminate on every input and that a write to one entry is invisible to the
    others. *)
From S2P Require Import Prelude Codec Errors Runtime Pod State ExtensionType ExtensionData Tlv.

Local Open Scope nat_scope.

(** ** The abstract view *)
Definition entry : Type := ExtensionType * list byte.

Definition entry_bytes (e : entry) : list byte :=
  ext_bytes e.1 ++ le_split 2 (Z.of_nat (length e.2)) ++ e.2.
Definition encode (es : list entry) : list byte := es ≫= entry_bytes.

Definition entry_ok (e : entry) : Prop :=
  e.1 ≠ ExtensionType.Uninitialized ∧ in_uint 16 (Z.of_nat (length e.2)).
Definition entries_ok (es : list entry) : Prop := Forall entry_ok es ∧ NoDup es.*1.

(** The entries, then [pad] bytes never written. *)
Definition tlv_of (es : list entry) (pad : nat) : list byte :=
  encode es ++ replicate pad Byte.x00.

Fixpoint find_entry (V : ExtensionType) (es : list entry) : option (list byte) :=
  match es with
  | [] => None
  | (t, v) :: es => if decide (t = V) then Some v else find_entry V es
  end.
Fixpoint update_entry (V : ExtensionType) (v' : list byte) (es : list entry) : list entry :=
  match es with
  | [] => []
  | (t, v) :: es => if decide (t = V) then (t, v') :: es else (t, v) :: update_entry V v' es
  end.

(** ** Encodings *)
Lemma length_entry_bytes e : length (entry_bytes e) = length e.2 + 4.
Proof. unfold entry_bytes. rewrite !length_app, length_ext_bytes, length_le_split. lia. Qed.

Lemma encode_app es1 es2 : encode (es1 ++ es2) = encode es1 ++ encode es2.
Proof. apply bind_app. Qed.

Lemma encode_cons e es : encode (e :: es) = entry_bytes e ++ encode es.
Proof. done. Qed.

Lemma encode_snoc es e : encode (es ++ [e]) = encode es ++ entry_bytes e.
Proof. rewrite encode_app, encode_cons. f_equal. apply app_nil_r. Qed.

Section search.
Context `{rt : Runtime}.
Implicit Types (l pre rest : list byte) (V : ExtensionType).

(** ** Termination of the search loop *)
Lemma get_extension_indices_fuel V l init f1 f2 start :
  length l - start < f1 → length l - start < f2 →
  get_extension_indices_loop f1 V l init start =
  get_extension_indices_loop f2 V l init start.
Proof.
  revert f2 start. induction f1 as [|f1 IH]; intros [|f2] start H1 H2; simpl; try lia.
  repeat case_match; try done.
  all: apply Nat.ltb_lt in H.
  unfold mbind, result_bind. case_match; [|done..].
  apply IH; simpl; lia.
Qed.

(** The loop as an equation, at any start. *)
Definition search V l init start : res TlvIndices :=
  get_extension_indices_loop (S (length l)) V l init start.

Lemma search_unfold V l init start :
  search V l init start =
    if start <? length l then
      let i := get_tlv_indices start in
      if length l <? value_start i then Err InvalidAccountData else
      let extension_type := le_combine (slice (type_start i) (length_start i) l) in
      if (extension_type =? ext_u16 V)%Z then Ok i
      else if (extension_type =? ext_u16 ExtensionType.Uninitialized)%Z then
        if init then Ok i else Err (tok ExtensionNotFound)
      else
        n ← pod_from_bytes u16 (slice (length_start i) (value_start i) l);
        search V l init (value_start i + Z.to_nat n)
    else Err InvalidAccountData.
Proof.
  unfold search at 1. cbn [get_extension_indices_loop].
  repeat case_match; try done. apply Nat.ltb_lt in H.
  unfold mbind, result_bind. case_match; [|done..].
  apply get_extension_indices_fuel; simpl; lia.
Qed.

Lemma slice_type pre e rest :
  slice (length pre) (length pre + 2) (pre ++ entry_bytes e ++ rest) = ext_bytes e.1.
Proof.
  unfold entry_bytes. rewrite <-!app_assoc. apply slice_mid; [done|].
  by rewrite length_ext_bytes.
Qed.

Lemma slice_length pre e rest :
  slice (length pre + 2) (length pre + 2 + 2) (pre ++ entry_bytes e ++ rest) =
    le_split 2 (Z.of_nat (length e.2)).
Proof.
  unfold entry_bytes. rewrite <-!app_assoc, (app_assoc pre).
  apply slice_mid; rewrite ?length_app, ?length_ext_bytes, ?length_le_split; lia.
Qed.

Lemma slice_value pre e rest :
  slice (length pre + 4) (length pre + 4 + length e.2) (pre ++ entry_bytes e ++ rest) = e.2.
Proof.
  unfold entry_bytes. rewrite <-!app_assoc, (app_assoc pre), (app_assoc (pre ++ _)).
  apply slice_mid; rewrite ?length_app, ?length_ext_bytes, ?length_le_split; lia.
Qed.

Lemma pod_u16_length e : entry_ok e →
  pod_from_bytes u16 (le_split 2 (Z.of_nat (length e.2))) = Ok (Z.of_nat (length e.2)).
Proof.
  intros [_ H]. apply pod_from_bytes_Ok. rewrite length_le_split. split; [done|].
  symmetry. apply (c_read_write u16). done.
Qed.

(** One turn of the loop over an entry of another type. *)
Lemma search_skip V init pre e rest : entry_ok e → e.1 ≠ V →
  search V (pre ++ entry_bytes e ++ rest) init (length pre) =
  search V (pre ++ entry_bytes e ++ rest) init (length (pre ++ entry_bytes e)).
Proof.
  intros He HV. rewrite search_unfold; cbv zeta;
    cbn [get_tlv_indices type_start length_start value_start].
  rewrite !length_app, length_entry_bytes, slice_type, slice_length.
  rewrite (proj2 (Nat.ltb_lt _ _)) by (simpl; lia). rewrite (proj2 (Nat.ltb_ge _ _)) by (simpl; lia).
  rewrite le_combine_ext_bytes, !(proj2 (Z.eqb_neq _ _)).
  - rewrite pod_u16_length by done. unfold mbind, result_bind. rewrite Nat2Z.id. f_equal. lia.
  - intros ?%ext_u16_inj. by destruct He.
  - by intros ?%ext_u16_inj.
Qed.

Lemma search_hit V init pre v rest :
  search V (pre ++ entry_bytes (V, v) ++ rest) init (length pre) =
  Ok (get_tlv_indices (length pre)).
Proof.
  rewrite search_unfold; cbv zeta;
    cbn [get_tlv_indices type_start length_start value_start].
  rewrite !length_app, length_entry_bytes, slice_type.
  rewrite (proj2 (Nat.ltb_lt _ _)) by (simpl; lia). rewrite (proj2 (Nat.ltb_ge _ _)) by (simpl; lia).
  by rewrite le_combine_ext_bytes, Z.eqb_refl.
Qed.

Lemma search_skips V init pre es rest : Forall entry_ok es → V ∉ es.*1 →
  search V (pre ++ encode es ++ rest) init (length pre) =
  search V (pre ++ encode es ++ rest) init (length (pre ++ encode es)).
Proof.
  revert pre. induction es as [|e es IH]; intros pre Hes HV.
  { by rewrite app_nil_r. }
  apply Forall_cons in Hes as [He Hes].
  rewrite fmap_cons in HV. apply not_elem_of_cons in HV as [HV1 HV2].
  rewrite encode_cons, <-!app_assoc, search_skip by done.
  rewrite (app_assoc pre). rewrite IH by done. by rewrite <-!app_assoc.
Qed.

(** ** Search on a well-formed area *)
Lemma get_extension_indices_found V init es1 v es2 pad :
  Forall entry_ok es1 → V ∉ es1.*1 →
  get_extension_indices V (tlv_of (es1 ++ (V, v) :: es2) pad) init =
  Ok (get_tlv_indices (length (encode es1))).
Proof.
  intros H1 H2. unfold get_extension_indices.
  change (search V (tlv_of (es1 ++ (V, v) :: es2) pad) init 0 =
          Ok (get_tlv_indices (length (encode es1)))).
  unfold tlv_of. rewrite encode_app, encode_cons, <-!app_assoc.
  pose proof (search_skips V init [] es1) as Hs. simpl in Hs.
  rewrite Hs by done. apply search_hit.
Qed.

Lemma slice_replicate {A} (x : A) a b n : a ≤ b → b ≤ n →
  slice a b (replicate n x) = replicate (b - a) x.
Proof. intros. unfold slice. rewrite drop_replicate, take_replicate. f_equal. lia. Qed.

Lemma le_combine_zeros n : le_combine (replicate n Byte.x00) = 0%Z.
Proof. induction n; [done|]. simpl replicate. unfold le_combine; fold le_combine.
  rewrite IHn. done. Qed.

Lemma get_extension_indices_absent V init es pad : entries_ok es → V ∉ es.*1 →
  V ≠ ExtensionType.Uninitialized →
  get_extension_indices V (tlv_of es pad) init =
    if pad <? 4 then Err InvalidAccountData
    else if init then Ok (get_tlv_indices (length (encode es)))
    else Err (tok ExtensionNotFound).
Proof.
  intros [H1 _] H2 H3.
  change (search V (tlv_of es pad) init 0 =
    if pad <? 4 then Err InvalidAccountData
    else if init then Ok (get_tlv_indices (length (encode es)))
    else Err (tok ExtensionNotFound)).
  unfold tlv_of. pose proof (search_skips V init [] es (replicate pad Byte.x00)) as Hs.
  simpl in Hs. rewrite Hs, search_unfold by done. clear Hs. cbv zeta;
    cbn [get_tlv_indices type_start length_start value_start].
  rewrite !length_app, length_replicate.
  destruct (Nat.ltb_spec (length (encode es)) (length (encode es) + pad)).
  2: { replace pad with 0 by lia. done. }
  destruct (Nat.ltb_spec pad 4).
  { by rewrite (proj2 (Nat.ltb_lt _ _)) by lia. }
  rewrite (proj2 (Nat.ltb_ge _ _)) by lia.
  rewrite slice_app_r by lia. rewrite slice_replicate by lia. rewrite le_combine_zeros.
  rewrite (proj2 (Z.eqb_neq _ _)); [done|].
  intros Heq. apply H3, ext_u16_inj. done.
Qed.
End search.

(** ** Lookup and update in the list *)
Lemma find_entry_None V es : find_entry V es = None ↔ V ∉ es.*1.
Proof.
  induction es as [|[t v] es IH]; csimpl.
  { split; [intros _; apply not_elem_of_nil|done]. }
  rewrite not_elem_of_cons. case_decide; naive_solver.
Qed.

Lemma find_entry_split V es v : find_entry V es = Some v →
  ∃ es1 es2, es = es1 ++ (V, v) :: es2 ∧ V ∉ es1.*1.
Proof.
  induction es as [|[t u] es IH]; simpl; [done|]. case_decide as Ht.
  - intros [= <-]. subst. exists [], es. split; [done|apply not_elem_of_nil].
  - intros (es1 & es2 & -> & H)%IH. exists ((t, u) :: es1), es2.
    split; [done|]. csimpl. apply not_elem_of_cons. by split.
Qed.

Lemma update_entry_split V v v' es1 es2 : V ∉ es1.*1 →
  update_entry V v' (es1 ++ (V, v) :: es2) = es1 ++ (V, v') :: es2.
Proof.
  induction es1 as [|[t u] es1 IH]; csimpl.
  - by rewrite decide_True.
  - intros [H1 H2]%not_elem_of_cons. rewrite decide_False by congruence.
    by rewrite IH.
Qed.

Lemma update_entry_types V v' es : (update_entry V v' es).*1 = es.*1.
Proof. induction es as [|[t u] es IH]; csimpl; [done|]. case_decide; csimpl; congruence. Qed.

Lemma find_entry_app V es1 es2 :
  find_entry V (es1 ++ es2) =
    match find_entry V es1 with Some v => Some v | None => find_entry V es2 end.
Proof. induction es1 as [|[t v] es1 IH]; simpl; [done|]. by case_decide. Qed.

Lemma update_entry_ok V v' es : entries_ok es → in_uint 16 (Z.of_nat (length v')) →
  entries_ok (update_entry V v' es).
Proof.
  intros [H1 H2] Hv. split; [|by rewrite update_entry_types].
  clear H2. induction H1 as [|[t u] es [Ht Hu] H IH]; simpl; [done|].
  case_decide; constructor; try done; by split.
Qed.

Lemma entries_ok_app es V v : entries_ok es → V ∉ es.*1 → entry_ok (V, v) →
  entries_ok (es ++ [(V, v)]).
Proof.
  intros [H1 H2] HV He. split; [apply Forall_app_2; [done|by apply Forall_singleton]|].
  rewrite fmap_app. apply NoDup_app. repeat split; try done.
  - intros x Hx ->%list_elem_of_singleton. done.
  - apply NoDup_singleton.
Qed.

Lemma entries_ok_split es1 e es2 : entries_ok (es1 ++ e :: es2) →
  Forall entry_ok es1 ∧ entry_ok e ∧ Forall entry_ok es2 ∧ e.1 ∉ es1.*1.
Proof.
  intros [[H1 [H2 H3]%Forall_cons]%Forall_app H4].
  refine (conj H1 (conj H2 (conj H3 _))).
  rewrite fmap_app, fmap_cons in H4. apply NoDup_app in H4 as (_ & H4 & _).
  intros Hin. apply (H4 _ Hin). by left.
Qed.

Section refine.
Context `{rt : Runtime}.
Implicit Types (V : ExtensionType) (es : list entry).

(** ** Reading an entry *)
Lemma get_extension_range_found S `{BaseState S} V es1 v es2 pad :
  get_account_type V = ACCOUNT_TYPE S →
  entries_ok (es1 ++ (V, v) :: es2) →
  get_extension_range S V (tlv_of (es1 ++ (V, v) :: es2) pad) =
  Ok (length (encode es1) + 4, length (encode es1) + 4 + length v).
Proof.
  intros HS Hok. apply entries_ok_split in Hok as (H1 & H2 & H3 & H4).
  unfold get_extension_range. rewrite decide_True by done.
  rewrite get_extension_indices_found by done. unfold mbind, result_bind.
  cbn [get_tlv_indices type_start length_start value_start].
  unfold tlv_of. rewrite encode_app, encode_cons, <-!app_assoc, slice_length.
  rewrite pod_u16_length by done. cbv zeta. rewrite Nat2Z.id, !length_app, length_entry_bytes.
  rewrite (proj2 (Nat.ltb_ge _ _)) by (cbn [snd]; lia).
  cbn [snd]. do 2 f_equal; lia.
Qed.

Lemma get_extension_bytes_found S `{BaseState S} V es v pad :
  get_account_type V = ACCOUNT_TYPE S → entries_ok es → find_entry V es = Some v →
  get_extension_bytes S V (tlv_of es pad) = Ok v.
Proof.
  intros HS Hok (es1 & es2 & -> & _)%find_entry_split.
  unfold get_extension_bytes. rewrite get_extension_range_found by done.
  unfold mbind, result_bind, tlv_of. f_equal.
  rewrite encode_app, encode_cons, <-!app_assoc. apply (slice_value _ (V, v)).
Qed.

Lemma get_extension_bytes_absent S `{BaseState S} V es pad :
  entries_ok es → V ∉ es.*1 → V ≠ ExtensionType.Uninitialized →
  ∃ e, get_extension_bytes S V (tlv_of es pad) = Err e.
Proof.
  intros Hok HV HU. unfold get_extension_bytes, get_extension_range.
  case_decide; [|eauto]. rewrite get_extension_indices_absent by done.
  destruct (pad <? 4); eauto.
Qed.

(** Writing the value of an entry in place. *)
Lemma splice_entry V es1 v v' es2 pad : length v' = length v →
  splice (length (encode es1) + 4) v' (tlv_of (es1 ++ (V, v) :: es2) pad) =
  tlv_of (es1 ++ (V, v') :: es2) pad.
Proof.
  intros Hv. unfold tlv_of. rewrite !encode_app, !encode_cons.
  unfold entry_bytes; cbn [fst snd]. rewrite <-!app_assoc.
  rewrite (app_assoc (encode es1)), (app_assoc (encode es1 ++ _)).
  rewrite splice_app; [|rewrite !length_app, length_ext_bytes, length_le_split; lia|done].
  by rewrite <-!app_assoc, Hv.
Qed.

(** ** The list of types *)
Lemma get_tlv_data_info_fuel l f1 f2 ts start :
  length l - start < f1 → length l - start < f2 →
  get_tlv_data_info_loop f1 l ts start = get_tlv_data_info_loop f2 l ts start.
Proof.
  revert f2 ts start. induction f1 as [|f1 IH]; intros [|f2] ts start H1 H2; simpl; try lia.
  case_match eqn:Hs; [|done]. apply Nat.ltb_lt in Hs. case_match; [done|].
  unfold mbind, result_bind. case_match; [|done..]. case_decide; [done|].
  case_match; [done|]. case_match; [|done..]. case_match; [done|].
  apply IH; simpl; lia.
Qed.

Definition scan l ts start : res TlvDataInfo :=
  get_tlv_data_info_loop (S (length l)) l ts start.

Lemma scan_unfold l ts start :
  scan l ts start =
    if start <? length l then
      let i := get_tlv_indices start in
      if length l <? length_start i then Ok (mkInfoTlv ts (type_start i))
      else
        t ← ext_try_from (slice (type_start i) (length_start i) l);
        if decide (t = ExtensionType.Uninitialized) then Ok (mkInfoTlv ts (type_start i))
        else if length l <? value_start i then Err InvalidAccountData
        else
          n ← pod_from_bytes u16 (slice (length_start i) (value_start i) l);
          if (length l <? value_start i + Z.to_nat n) then Err InvalidAccountData
          else scan l (ts ++ [t]) (value_start i + Z.to_nat n)
    else Ok (mkInfoTlv ts start).
Proof.
  unfold scan at 1. cbn [get_tlv_data_info_loop].
  case_match eqn:Hs; [|done]. apply Nat.ltb_lt in Hs. cbv zeta. case_match; [done|].
  unfold mbind, result_bind. case_match; [|done..]. case_decide; [done|].
  case_match; [done|]. case_match; [|done..]. case_match; [done|].
  apply get_tlv_data_info_fuel; simpl; lia.
Qed.

Lemma scan_skip ts pre e rest : entry_ok e →
  scan (pre ++ entry_bytes e ++ rest) ts (length pre) =
  scan (pre ++ entry_bytes e ++ rest) (ts ++ [e.1]) (length (pre ++ entry_bytes e)).
Proof.
  intros He. rewrite scan_unfold; cbv zeta;
    cbn [get_tlv_indices type_start length_start value_start].
  rewrite !length_app, length_entry_bytes, slice_type, slice_length.
  rewrite (proj2 (Nat.ltb_lt _ _)), (proj2 (Nat.ltb_ge _ _)) by lia.
  rewrite ext_try_from_bytes. unfold mbind, result_bind.
  rewrite decide_False by apply He. rewrite (proj2 (Nat.ltb_ge _ _)) by lia.
  rewrite pod_u16_length by done. rewrite Nat2Z.id.
  rewrite (proj2 (Nat.ltb_ge _ _)) by lia. f_equal. lia.
Qed.

Lemma scan_skips ts pre es rest : Forall entry_ok es →
  scan (pre ++ encode es ++ rest) ts (length pre) =
  scan (pre ++ encode es ++ rest) (ts ++ es.*1) (length (pre ++ encode es)).
Proof.
  revert ts pre. induction es as [|e es IH]; intros ts pre Hes.
  { by rewrite !app_nil_r. }
  apply Forall_cons in Hes as [He Hes].
  rewrite encode_cons, <-!app_assoc, scan_skip by done.
  rewrite (app_assoc pre). rewrite IH by done. by rewrite fmap_cons, <-!app_assoc.
Qed.

Lemma get_tlv_data_info_tlv_of es pad : Forall entry_ok es →
  get_tlv_data_info (tlv_of es pad) = Ok (mkInfoTlv es.*1 (length (encode es))).
Proof.
  intros Hes. change (scan (tlv_of es pad) [] 0 = Ok (mkInfoTlv es.*1 (length (encode es)))).
  unfold tlv_of. pose proof (scan_skips [] [] es (replicate pad Byte.x00) Hes) as Hs.
  simpl in Hs. rewrite Hs, scan_unfold; cbv zeta;
    cbn [get_tlv_indices type_start length_start value_start]; clear Hs.
  rewrite !length_app, length_replicate. case_match; [|done]. case_match; [done|].
  apply Nat.ltb_ge in H0.
  rewrite (slice_app_r _ _ (length (encode es)) (length (encode es) + 2)) by lia.
  rewrite slice_replicate by lia.
  replace (_ - _) with 2 by lia. done.
Qed.
End refine.
