(* ===== verification/TlvAlloc.v ===== *)
(** * Allocation in the TLV area

    [alloc] appends an entry or opens an existing one; [realloc] resizes an
    entry and moves the ones behind it.  Both are stated on the list of
    entries of [TlvFacts.v]; the last section is the frame property of a write
    on an arbitrary buffer. *)
From S2P Require Import Prelude Codec Errors Runtime Pod State ExtensionType ExtensionData Tlv.
From S2P Require Import TlvFacts.

Local Open Scope nat_scope.

Definition zeros (n : nat) : list byte := replicate n Byte.x00.

Lemma zeros_app n m : zeros (n + m) = zeros n ++ zeros m.
Proof. apply replicate_add. Qed.

Lemma length_zeros n : length (zeros n) = n.
Proof. apply length_replicate. Qed.

Lemma drop_zeros n m : drop n (zeros m) = zeros (m - n).
Proof. apply drop_replicate. Qed.

(** Overwriting the start of a part of a buffer. *)
Lemma splice_at {A} a (k l1 l2 : list A) : length l1 = a → length k ≤ length l2 →
  splice a k (l1 ++ l2) = l1 ++ k ++ drop (length k) l2.
Proof.
  intros <- Hk. unfold splice.
  by rewrite take_app_length, drop_app_add.
Qed.

Section alloc.
Context `{rt : Runtime}.
Context (S : Type) `{HS : BaseState S}.
Implicit Types (V : ExtensionType) (es : list entry).

Lemma u16_field_read z : in_uint 16 z → pod_from_bytes u16 (le_split 2 z) = Ok z.
Proof.
  intros H. apply pod_from_bytes_Ok. rewrite length_le_split. split; [done|].
  symmetry. by apply (c_read_write u16).
Qed.

Lemma Length_try_from_ok n : in_uint 16 (Z.of_nat n) → Length_try_from n = Ok (Z.of_nat n).
Proof. intros H. unfold Length_try_from. by rewrite to_uint_in. Qed.

(** The new entry of an [alloc] that found no entry of its type. *)
Lemma alloc_new V len overwrite es pad :
  get_account_type V = ACCOUNT_TYPE S → entries_ok es → V ∉ es.*1 →
  V ≠ ExtensionType.Uninitialized → in_uint 16 (Z.of_nat len) → len + 4 ≤ pad →
  alloc S V len overwrite (tlv_of es pad) =
  Ok (tlv_of (es ++ [(V, zeros len)]) (pad - (len + 4)),
      (length (encode es) + 4, length (encode es) + 4 + len)).
Proof.
  intros HV Hes Hin HU Hlen Hpad. unfold alloc. rewrite decide_True by done.
  rewrite get_extension_indices_absent by done.
  rewrite (proj2 (Nat.ltb_ge _ _)) by lia. rewrite Ok_bind.
  cbn [get_tlv_indices type_start length_start value_start].
  unfold tlv_of, add_type_and_length_to_len.
  rewrite drop_app_length, length_replicate, (proj2 (Nat.ltb_ge _ _)) by lia.
  rewrite (slice_app_r _ _ (length (encode es)) (length (encode es) + 2)) by lia.
  replace (slice _ _ (replicate pad Byte.x00)) with (zeros 2).
  2: { rewrite slice_replicate by lia. unfold zeros. f_equal. lia. }
  change (ext_try_from (zeros 2)) with (@Ok ProgramError _ ExtensionType.Uninitialized).
  rewrite Ok_bind, bool_decide_true by done. cbn [orb]. cbv zeta.
  change (replicate pad Byte.x00) with (zeros pad).
  assert (zeros pad = zeros 2 ++ zeros 2 ++ zeros len ++ zeros (pad - (len + 4))) as ->.
  { rewrite <-!zeros_app. f_equal. lia. }
  rewrite splice_app by (by rewrite ?length_ext_bytes).
  rewrite (app_assoc (encode es)), slice_mid
    by (rewrite ?length_app, ?length_ext_bytes, ?length_zeros; lia).
  change (pod_from_bytes u16 (zeros 2)) with (pod_from_bytes u16 (le_split 2 0)).
  rewrite u16_field_read, Ok_bind by done.
  rewrite (bool_decide_false (ExtensionType.Uninitialized = V)), andb_false_r by congruence.
  cbn [andb throw_if]. rewrite Ok_bind, Length_try_from_ok, Ok_bind by done.
  rewrite splice_app by (rewrite ?length_app, ?length_ext_bytes, ?length_zeros,
    ?length_le_split; lia).
  rewrite encode_snoc. unfold entry_bytes; cbn [fst snd].
  replace (length (encode es) + 2 + 2) with (length (encode es) + 4) by lia.
  by rewrite length_zeros, <-!app_assoc.
Qed.

Lemma length_tlv_of es pad : length (tlv_of es pad) = length (encode es) + pad.
Proof. unfold tlv_of. by rewrite length_app, length_replicate. Qed.

(** An entry in the middle of the area. *)
Lemma tlv_of_mid es1 e es2 pad :
  tlv_of (es1 ++ e :: es2) pad = encode es1 ++ entry_bytes e ++ tlv_of es2 pad.
Proof. unfold tlv_of. by rewrite encode_app, encode_cons, <-!app_assoc. Qed.

(** [alloc] on an entry that exists. *)
Lemma alloc_existing V es1 v es2 len overwrite pad :
  get_account_type V = ACCOUNT_TYPE S → entries_ok (es1 ++ (V, v) :: es2) →
  len ≤ length v + length (encode es2) + pad →
  alloc S V len overwrite (tlv_of (es1 ++ (V, v) :: es2) pad) =
  if negb overwrite then Err (tok ExtensionAlreadyInitialized)
  else if length v =? len then
    Ok (tlv_of (es1 ++ (V, v) :: es2) pad,
        (length (encode es1) + 4, length (encode es1) + 4 + len))
  else Err (tok InvalidLengthForAlloc).
Proof.
  intros HV Hes Hlen. apply entries_ok_split in Hes as (H1 & H2 & H3 & H4).
  unfold alloc. rewrite decide_True by done.
  rewrite get_extension_indices_found by done. rewrite Ok_bind.
  cbn [get_tlv_indices type_start length_start value_start].
  unfold add_type_and_length_to_len.
  rewrite tlv_of_mid, drop_app_length, length_app, length_entry_bytes, length_tlv_of.
  cbn [snd]. rewrite (proj2 (Nat.ltb_ge _ _)) by lia.
  rewrite slice_type. cbn [fst]. rewrite ext_try_from_bytes, Ok_bind.
  rewrite bool_decide_false by apply H2. cbn [orb].
  destruct overwrite; cbn [negb andb]; [|done]. cbv zeta.
  assert (splice (length (encode es1)) (ext_bytes V)
            (encode es1 ++ entry_bytes (V, v) ++ tlv_of es2 pad) =
          encode es1 ++ entry_bytes (V, v) ++ tlv_of es2 pad) as ->.
  { unfold entry_bytes; cbn [fst snd]. by rewrite <-!app_assoc, splice_app. }
  rewrite slice_length, pod_u16_length, Ok_bind by done.
  rewrite Nat2Z.id, bool_decide_true by done. cbn [andb snd].
  destruct (Nat.eqb_spec (length v) len) as [<-|]; cbn [negb throw_if]; [|done].
  rewrite Ok_bind, Length_try_from_ok, Ok_bind by apply H2.
  replace (length (encode es1) + 2 + 2) with (length (encode es1) + 4) by lia.
  do 2 f_equal. unfold entry_bytes; cbn [fst snd].
  rewrite <-!app_assoc, (app_assoc (encode es1)).
  by rewrite splice_app by (rewrite ?length_app, ?length_ext_bytes, ?length_le_split; lia).
Qed.
End alloc.

(** ** Resizing an entry *)

(** The value after a resize: cut, or extended with zeros. *)
Definition resized (v : list byte) (len : nat) : list byte :=
  take len v ++ zeros (len - length v).

Lemma length_resized v len : length (resized v len) = len.
Proof. unfold resized. rewrite length_app, length_take, length_zeros. lia. Qed.

(** The two moves of [copy_within] followed by [fill(0)]. *)
Lemma splice_shrink {A} (P v R Z z : list A) k : k ≤ length v → length z = length v - k →
  splice (length P + k + length R) z (splice (length P + k) R (P ++ v ++ R ++ Z)) =
  P ++ take k v ++ R ++ z ++ Z.
Proof.
  intros Hk Hz.
  assert (splice (length P + k) R (P ++ v ++ R ++ Z) =
          P ++ take k v ++ R ++ drop (k + length R) (v ++ R ++ Z)) as ->.
  { unfold splice. rewrite take_app_add, (take_app_le v) by lia.
    by rewrite <-(Nat.add_assoc (length P)), drop_app_add, <-app_assoc. }
  rewrite (app_assoc (take k v)), (app_assoc P).
  rewrite splice_at; rewrite ?length_app, ?length_take, ?length_drop, ?length_app; try lia.
  rewrite drop_drop, <-!app_assoc, Hz. do 4 f_equal.
  replace (_ + _) with (length v + (length R + 0)) by lia.
  by rewrite drop_app_add, drop_app_add, drop_0.
Qed.

Lemma splice_grow {A} (P v R Z z : list A) k : length v ≤ k → length z = k - length v →
  k - length v ≤ length Z →
  splice (length P + length v) z (splice (length P + k) R (P ++ v ++ R ++ Z)) =
  P ++ v ++ z ++ R ++ drop (k - length v) Z.
Proof.
  intros Hk Hz HZ.
  assert (splice (length P + k) R (P ++ v ++ R ++ Z) =
          (P ++ v) ++ take (k - length v) (R ++ Z) ++ R ++ drop (k - length v) Z) as ->.
  { unfold splice. replace k with (length v + (k - length v)) at 1 2 by lia.
    rewrite !take_app_add, <-!app_assoc. do 4 f_equal.
    replace (_ + _) with (length P + (length v + (length R + (k - length v)))) by lia.
    by rewrite !drop_app_add. }
  rewrite splice_app.
  - by rewrite <-app_assoc.
  - by rewrite length_app.
  - rewrite length_take, length_app. lia.
Qed.

Section realloc.
Context `{rt : Runtime}.
Implicit Types (V : ExtensionType) (es : list entry).

Lemma copy_within_ok a b dest l : a ≤ b → b ≤ length l → dest + (b - a) ≤ length l →
  copy_within a b dest l = Ok (splice dest (slice a b l) l).
Proof.
  intros. unfold copy_within.
  by rewrite !(proj2 (Nat.ltb_ge _ _)) by lia.
Qed.

Lemma fill0_ok a b l : a ≤ b → b ≤ length l →
  fill0 a b l = Ok (splice a (zeros (b - a)) l).
Proof. intros. unfold fill0. by rewrite !(proj2 (Nat.ltb_ge _ _)) by lia. Qed.

(** The bytes around the value of an entry. *)
Definition head_of es1 V n : list byte :=
  encode es1 ++ ext_bytes V ++ le_split 2 (Z.of_nat n).

Lemma length_head_of es1 V n : length (head_of es1 V n) = length (encode es1) + 4.
Proof. unfold head_of. rewrite !length_app, length_ext_bytes, length_le_split. lia. Qed.

Lemma tlv_of_head es1 V v es2 pad :
  tlv_of (es1 ++ (V, v) :: es2) pad =
  head_of es1 V (length v) ++ v ++ encode es2 ++ zeros pad.
Proof.
  rewrite tlv_of_mid. unfold head_of, entry_bytes, tlv_of; cbn [fst snd].
  by rewrite <-!app_assoc.
Qed.

(** The moves of [realloc] behind the length field. *)
Lemma move_tail es1 V v es2 pad len :
  len - length v ≤ pad →
  let old_end := length (encode es1) + 4 + length v in
  let new_end := length (encode es1) + 4 + len in
  let tlv_len := old_end + length (encode es2) in
  (tlv_data ← copy_within old_end tlv_len new_end
     (head_of es1 V len ++ v ++ encode es2 ++ zeros pad);
   match Nat.compare (length v) len with
   | Gt => fill0 (tlv_len - (length v - len)) tlv_len tlv_data
   | Lt => fill0 old_end new_end tlv_data
   | Eq => Ok tlv_data
   end) =
  Ok (tlv_of (es1 ++ (V, resized v len) :: es2) (pad + length v - len)).
Proof.
  intros Hpad old_end new_end tlv_len. subst old_end new_end tlv_len.
  rewrite tlv_of_head, length_resized. set (P := head_of es1 V len).
  rewrite <-(length_head_of es1 V len). fold P. set (R := encode es2).
  rewrite copy_within_ok by (rewrite ?length_app, ?length_zeros; lia).
  replace (slice _ _ _) with R.
  2: { symmetry. rewrite (app_assoc P). apply slice_mid; rewrite ?length_app; lia. }
  assert (length (splice (length P + len) R (P ++ v ++ R ++ zeros pad)) =
          length P + length v + length R + pad) as Hlen.
  { rewrite length_splice; rewrite !length_app, length_zeros; lia. }
  rewrite Ok_bind. unfold resized.
  destruct (Nat.compare_spec (length v) len) as [<-|Hl|Hl].
  - rewrite (app_assoc P), splice_app by (by rewrite ?length_app).
    rewrite Nat.sub_diag, firstn_all, <-!app_assoc. simpl.
    by replace (pad + length v - length v) with pad by lia.
  - rewrite fill0_ok by lia.
    replace (_ - (length P + length v)) with (len - length v) by lia.
    rewrite splice_grow by (rewrite ?length_zeros; lia).
    rewrite take_ge, drop_zeros, <-!app_assoc by lia.
    by replace (pad + length v - len) with (pad - (len - length v)) by lia.
  - set (T := length P + length v + length R) in *. rewrite fill0_ok by lia.
    replace (T - (T - (length v - len))) with (length v - len) by lia.
    replace (T - (length v - len)) with (length P + len + length R) by lia.
    rewrite splice_shrink by (rewrite ?length_zeros; lia).
    rewrite <-zeros_app, (proj2 (Nat.sub_0_le len _)) by lia. simpl.
    rewrite app_nil_r. by replace (pad + length v - len) with (length v - len + pad) by lia.
Qed.

Lemma tlv_of_set_length es1 V v es2 pad n :
  splice (length (encode es1) + 2) (le_split 2 (Z.of_nat n))
    (tlv_of (es1 ++ (V, v) :: es2) pad) =
  head_of es1 V n ++ v ++ encode es2 ++ zeros pad.
Proof.
  rewrite tlv_of_mid. unfold head_of, entry_bytes, tlv_of; cbn [fst snd].
  rewrite <-!app_assoc, (app_assoc (encode es1)), splice_app.
  - by rewrite <-app_assoc.
  - by rewrite length_app, length_ext_bytes.
  - by rewrite !length_le_split.
Qed.

(** [realloc] of an entry, on every branch. *)
Lemma realloc_entry es1 V v es2 pad len :
  entries_ok (es1 ++ (V, v) :: es2) →
  realloc V len (tlv_of (es1 ++ (V, v) :: es2) pad) =
  if pad <? len - length v then Err InvalidAccountData
  else if (Z.of_nat len <? 2 ^ 16)%Z then
    Ok (tlv_of (es1 ++ (V, resized v len) :: es2) (pad + length v - len),
        (length (encode es1) + 4, length (encode es1) + 4 + len))
  else Err AccountDataTooSmall.
Proof.
  intros Hes. pose proof (entries_ok_split _ _ _ Hes) as (H1 & H2 & H3 & H4).
  unfold realloc. rewrite get_extension_indices_found by done. rewrite Ok_bind.
  rewrite get_tlv_data_info_tlv_of by apply Hes. rewrite Ok_bind.
  cbn [get_tlv_indices type_start length_start value_start used_len].
  assert (slice (length (encode es1) + 2) (length (encode es1) + 2 + 2)
            (tlv_of (es1 ++ (V, v) :: es2) pad) = le_split 2 (Z.of_nat (length v))) as ->.
  { rewrite tlv_of_mid. apply (slice_length _ (V, v)). }
  rewrite (pod_u16_length (V, v)), Ok_bind by done.
  rewrite Nat2Z.id, (length_tlv_of (es1 ++ _)); cbn [snd].
  rewrite encode_app, encode_cons, !length_app, length_entry_bytes; cbn [snd].
  set (guard := if length v <? len then _ else _).
  assert (guard = throw_if (pad <? len - length v) InvalidAccountData) as ->.
  { subst guard. destruct (Nat.ltb_spec (length v) len).
    - f_equal. apply eq_bool_prop_intro. rewrite !Is_true_true, !Nat.ltb_lt. lia.
    - by rewrite (proj2 (Nat.ltb_ge _ _)) by lia. }
  destruct (Nat.ltb_spec pad (len - length v)) as [|Hpad]; [done|].
  cbn [throw_if]. rewrite Ok_bind. unfold Length_try_from.
  destruct (Z.ltb_spec (Z.of_nat len) (2 ^ 16)) as [Hl|Hl].
  2: { rewrite (proj2 (to_uint_None _ _)); [done|]. unfold in_uint. lia. }
  rewrite to_uint_in by (unfold in_uint; lia). cbn [ok_or]. rewrite Ok_bind.
  rewrite tlv_of_set_length.
  replace (length (encode es1) + 2 + 2) with (length (encode es1) + 4) by lia.
  replace (length (encode es1) + (length v + 4 + length (encode es2)))
    with (length (encode es1) + 4 + length v + length (encode es2)) by lia.
  pose proof (move_tail es1 V v es2 pad len Hpad) as Hmove; cbv zeta in Hmove.
  apply bind_Ok in Hmove as (l & Hc & Hm). rewrite Hc, Ok_bind, Hm, Ok_bind.
  rewrite tlv_of_head, length_resized, !length_app, length_head_of, length_resized.
  by rewrite (proj2 (Nat.ltb_ge _ _)) by lia.
Qed.
End realloc.

(** ** Writing a value leaves the other entries alone

    On any buffer, well formed or not. *)
Section frame.
Context `{rt : Runtime}.
Implicit Types (V W : ExtensionType) (l : list byte).

Lemma slice_splice_before {A} (l k : list A) a b p : b ≤ p → p ≤ length l →
  slice a b (splice p k l) = slice a b l.
Proof.
  intros H1 H2. unfold splice. rewrite slice_app_l by (rewrite length_take; lia).
  rewrite <-(slice_app_l (take p l) (drop p l)) by (rewrite length_take; lia).
  by rewrite take_drop.
Qed.

Lemma slice_splice_after {A} (l k : list A) a b p :
  p + length k ≤ a → p + length k ≤ length l →
  slice a b (splice p k l) = slice a b l.
Proof.
  intros H1 H2. unfold splice.
  rewrite (app_assoc _ k), slice_app_r; rewrite ?length_app, ?length_take; [|lia].
  transitivity (slice a b (take (p + length k) l ++ drop (p + length k) l));
    [|by rewrite take_drop].
  rewrite slice_app_r by (rewrite length_take; lia).
  rewrite length_take. f_equal; lia.
Qed.

Lemma slice_splice_same {A} (l k : list A) p : p + length k ≤ length l →
  slice p (p + length k) (splice p k l) = k.
Proof. intros. unfold splice. apply slice_mid; [rewrite length_take; lia|done]. Qed.

Lemma search_Ok V l init start i : search V l init start = Ok i →
  start ≤ type_start i ∧ i = get_tlv_indices (type_start i) ∧ value_start i ≤ length l.
Proof.
  unfold search. generalize (Datatypes.S (length l)) as f. intros f. revert start.
  induction f as [|f IH]; simpl; [done|]. intros start.
  destruct (start <? length l); [|done].
  destruct (Nat.ltb_spec (length l) (start + 2 + 2)); [done|].
  case_match; [intros [= <-]; simpl; auto|].
  case_match; [destruct init; [intros [= <-]; simpl; auto|done]|].
  intros (n & _ & (? & ? & ?)%IH)%bind_Ok. split; [lia|done].
Qed.

(** A search that starts behind the write. *)
Lemma search_behind W l k p init start :
  p + length k ≤ start → p + length k ≤ length l →
  search W (splice p k l) init start = search W l init start.
Proof.
  intros Hs Hp. pose proof (length_splice _ _ _ Hp) as Hlen.
  remember (length l - start) as m eqn:Hm. revert start Hs Hm.
  induction (lt_wf m) as [m _ IH]. intros start Hs ->.
  rewrite !search_unfold, Hlen; cbv zeta.
  cbn [get_tlv_indices type_start length_start value_start].
  rewrite !(slice_splice_after l k) by lia.
  destruct (Nat.ltb_spec start (length l)); [|done].
  case_match; [done|]. case_match; [done|]. case_match; [done|].
  unfold mbind, result_bind. case_match; [|done..].
  eapply IH; [|lia|done]. lia.
Qed.

(** [search] found [V] at [i], whose value is as long as [k]: the search for
    any type is the same in the buffer with [k] written as the new value. *)
Lemma search_frame V W l start i n k init :
  search V l false start = Ok i →
  pod_from_bytes u16 (slice (length_start i) (value_start i) l) = Ok n →
  length k = Z.to_nat n → value_start i + length k ≤ length l →
  search W (splice (value_start i) k l) init start = search W l init start.
Proof.
  intros Hs Hn Hk Hle. pose proof (length_splice _ _ _ Hle) as Hlen.
  remember (length l - start) as m eqn:Hm.
  revert start Hs Hm. induction (lt_wf m) as [m _ IH]. intros start Hs ->.
  destruct (search_Ok _ _ _ _ _ Hs) as (Hge & Hi & Hv).
  rewrite Hi in Hv, Hle, Hlen, Hn |- *. revert Hs.
  cbn [get_tlv_indices type_start length_start value_start] in *.
  rewrite !search_unfold, Hlen; cbv zeta.
  cbn [get_tlv_indices type_start length_start value_start].
  rewrite !slice_splice_before by lia.
  destruct (Nat.ltb_spec start (length l)); [|done].
  destruct (Nat.ltb_spec (length l) (start + 2 + 2)); [done|].
  set (t := le_combine _). destruct (t =? ext_u16 V)%Z.
  - intros [= Hi']. assert (type_start i = start) as Hts by (by rewrite <-Hi').
    rewrite Hts in *. destruct (t =? ext_u16 W)%Z; [done|].
    destruct (t =? _)%Z; [done|]. rewrite Hn, !Ok_bind.
    apply search_behind; lia.
  - destruct (t =? ext_u16 ExtensionType.Uninitialized)%Z; [done|].
    intros (n' & Hn' & Hs)%bind_Ok.
    destruct (t =? ext_u16 W)%Z; [done|]. rewrite Hn', !Ok_bind.
    destruct (search_Ok _ _ _ _ _ Hs) as (Hge' & _ & _).
    rewrite Hi in IH, Hs. eapply IH; [|exact Hs|done]. lia.
Qed.
End frame.
