(* ===== verification/StateExt.v ===== *)
(** * Base state with extensions: [interface/src/extension/mod.rs]

    [PodStateWithExtensions] and [PodStateWithExtensionsMut]: an account buffer
    seen as its base state, its account type byte and its TLV area.  The mutable
    view of the source points into the buffer; here it is a value that is
    written back with [state_bytes], which is the same thing while the buffer is
    mutably borrowed. *)
From S2P Require Import Prelude Codec Errors Runtime Pod State ExtensionType ExtensionData Tlv.
From S2P Require Import TlvFacts TlvAlloc.

Local Open Scope nat_scope.

Record PodStateMut (S : Type) := mkState {
  base : S;
  account_type : list byte;
  tlv_data : list byte;
}.
Arguments mkState {S}.
Arguments base {S}.
Arguments account_type {S}.
Arguments tlv_data {S}.

Record PodStateRef (S : Type) := mkRef { ref_base : S; ref_tlv : list byte }.
Arguments mkRef {S}.
Arguments ref_base {S}.
Arguments ref_tlv {S}.

Definition with_base {S} (b : S) (st : PodStateMut S) : PodStateMut S :=
  mkState b (account_type st) (tlv_data st).
Definition with_tlv {S} (l : list byte) (st : PodStateMut S) : PodStateMut S :=
  mkState (base st) (account_type st) l.

Section state.
Context `{rt : Runtime}.
Context (S : Type) `{HB : BaseState S} `{HP : !PodState S}.
Implicit Types (input tlv : list byte).

(** [PodStateWithExtensions::unpack] *)
Definition unpack_ref input : res (PodStateRef S) :=
  check_min_len_and_not_multisig input (SIZE_OF S);;
  base ← pod_from_bytes base_codec (take (SIZE_OF S) input);
  if negb (base_is_initialized base) then Err UninitializedAccount
  else
    tlv_data ← unpack_tlv_data S (drop (SIZE_OF S) input);
    Ok (mkRef base tlv_data).

(** [PodStateWithExtensionsMut::unpack] *)
Definition unpack input : res (PodStateMut S) :=
  check_min_len_and_not_multisig input (SIZE_OF S);;
  base ← pod_from_bytes base_codec (take (SIZE_OF S) input);
  if negb (base_is_initialized base) then Err UninitializedAccount
  else
    '(account_type, tlv_data) ← unpack_type_and_tlv_data_mut S (drop (SIZE_OF S) input);
    Ok (mkState base account_type tlv_data).

(** Check that the account type matches the first extension in the area. *)
Definition check_account_type_matches_extension_type tlv : res unit :=
  o ← get_first_extension_type tlv;
  match o with
  | Some t =>
      throw_if (negb (bool_decide (get_account_type t = ACCOUNT_TYPE S)))
        (tok ExtensionBaseMismatch)
  | None => Ok tt
  end.

(** [PodStateWithExtensionsMut::unpack_uninitialized] *)
Definition unpack_uninitialized input : res (PodStateMut S) :=
  check_min_len_and_not_multisig input (SIZE_OF S);;
  base ← pod_from_bytes base_codec (take (SIZE_OF S) input);
  if base_is_initialized base then Err (tok AlreadyInUse)
  else
    '(account_type, tlv_data) ←
      unpack_uninitialized_type_and_tlv_data_mut S (drop (SIZE_OF S) input);
    check_account_type_matches_extension_type tlv_data;;
    Ok (mkState base account_type tlv_data).

(** The buffer behind a mutable view. *)
Definition state_bytes (st : PodStateMut S) : list byte :=
  c_write base_codec (base st) ++
  match account_type st with
  | [] => []
  | t => zeros (BASE_ACCOUNT_LENGTH - SIZE_OF S) ++ t ++ tlv_data st
  end.

(** [init_account_type]: writes the account type byte, if there is one. *)
Definition init_account_type (st : PodStateMut S) : res (PodStateMut S) :=
  first_extension_type ← get_first_extension_type (tlv_data st);
  match account_type st with
  | [] => Ok st
  | _ :: t =>
      (match first_extension_type with
       | Some et =>
           throw_if (negb (bool_decide (get_account_type et = ACCOUNT_TYPE S)))
             (tok ExtensionBaseMismatch)
       | None => Ok tt
       end);;
      Ok (mkState (base st) (le_split 1 (account_type_u8 (ACCOUNT_TYPE S)) ++ t) (tlv_data st))
  end.

(** [get_extension::<V>] *)
Definition get_extension V `{Extension V} tlv : res V :=
  bs ← get_extension_bytes S (TYPE V) tlv;
  pod_from_bytes ext_codec bs.

(** [*get_extension_mut::<V>()? = v], of an extension that is there *)
Definition put_extension {V} `{Extension V} (v : V) tlv : list byte :=
  match get_extension_range S (TYPE V) tlv with
  | Ok (a, _) => splice a (c_write ext_codec v) tlv
  | _ => tlv
  end.

(** [init_extension::<V>]: the area with [V::default()] in its entry *)
Definition init_extension V `{Extension V} (overwrite : bool) tlv : res (list byte) :=
  '(tlv, (a, b)) ← alloc S (TYPE V) (ext_size V) overwrite tlv;
  _ ← pod_from_bytes ext_codec (slice a b tlv);
  Ok (splice a (c_write ext_codec (ext_default (V:=V))) tlv).

(** [init_account_extension_from_type] *)
Definition init_account_extension_from_type (t : ExtensionType) tlv : res (list byte) :=
  if negb (bool_decide (get_account_type t = AccountType.Account)) then Ok tlv
  else
    match t with
    | ExtensionType.TransferFeeAmount => init_extension TransferFeeAmount true tlv
    | ExtensionType.ImmutableOwner => init_extension ImmutableOwner true tlv
    | ExtensionType.NonTransferableAccount => init_extension NonTransferableAccount true tlv
    | ExtensionType.TransferHookAccount => init_extension TransferHookAccount true tlv
    | ExtensionType.ConfidentialTransferAccount => Ok tlv
    | ExtensionType.PausableAccount => init_extension PausableAccount true tlv
    | _ => Panic
    end.

(** [try_get_account_len] *)
Definition try_get_account_len tlv : res nat :=
  tlv_info ← get_tlv_data_info tlv;
  match extension_types tlv_info with
  | [] => Ok (SIZE_OF S)
  | _ => Ok (adjust_len_for_multisig (used_len tlv_info + BASE_ACCOUNT_AND_TYPE_LENGTH))
  end.
End state.

Abbreviation unpack_account := (unpack PodAccount).
Abbreviation unpack_mint := (unpack PodMint).
Abbreviation get_account_ext V tlv := (get_extension PodAccount V tlv).
Abbreviation get_mint_ext V tlv := (get_extension PodMint V tlv).

(** ** Views and buffers *)
Section views.
Context `{rt : Runtime}.
Context (S : Type) `{HB : BaseState S} `{HP : !PodState S}.
Implicit Types (input tlv : list byte) (st : PodStateMut S).

Definition type_byte : list byte := le_split 1 (account_type_u8 (ACCOUNT_TYPE S)).

(** The views [unpack] returns. *)
Record state_ok st : Prop := {
  state_base_ok : c_ok base_codec (base st);
  state_initialized : base_is_initialized (base st) = true;
  state_type : (account_type st = [] ∧ tlv_data st = []) ∨ account_type st = type_byte;
  state_not_multisig : length (state_bytes S st) ≠ Multisig_LEN;
}.

Lemma pad_le : SIZE_OF S ≤ BASE_ACCOUNT_LENGTH.
Proof. apply base_size_le. Qed.

Lemma type_and_tlv_indices_Some rest a b :
  type_and_tlv_indices S rest = Ok (Some (a, b)) →
  a = BASE_ACCOUNT_LENGTH - SIZE_OF S ∧ b = a + 1 ∧ b ≤ length rest ∧
  take a rest = zeros a.
Proof.
  unfold type_and_tlv_indices. case_match; [done|].
  destruct (Nat.ltb_spec (length rest) (BASE_ACCOUNT_LENGTH - SIZE_OF S + 1)); [done|].
  case_decide; [|done]. intros [= <- <-]. done.
Qed.

Lemma type_and_tlv_indices_None rest :
  type_and_tlv_indices S rest = Ok None ↔ rest = [].
Proof.
  unfold type_and_tlv_indices. destruct rest; simpl; [done|].
  repeat case_match; naive_solver.
Qed.

Lemma type_and_tlv_indices_zeros t tlv : length t = 1 →
  type_and_tlv_indices S (zeros (BASE_ACCOUNT_LENGTH - SIZE_OF S) ++ t ++ tlv) =
  Ok (Some (BASE_ACCOUNT_LENGTH - SIZE_OF S, BASE_ACCOUNT_LENGTH - SIZE_OF S + 1)).
Proof.
  intros Ht. unfold type_and_tlv_indices. rewrite !length_app, length_zeros, Ht.
  rewrite (proj2 (Nat.eqb_neq _ _)), (proj2 (Nat.ltb_ge _ _)) by lia.
  rewrite decide_True; [done|].
  rewrite take_app_le, firstn_all2 by (rewrite length_zeros; lia). done.
Qed.

(** Cutting the rest of a buffer. *)
Lemma rest_split rest a : a + 1 ≤ length rest → take a rest = zeros a →
  rest = zeros a ++ slice a (a + 1) rest ++ drop (a + 1) rest.
Proof. intros H <-. by apply split3; [lia|]. Qed.

Lemma unpack_Ok input st : unpack S input = Ok st →
  input = state_bytes S st ∧ state_ok st.
Proof.
  unfold unpack. intros (u & Hc & H)%bind_Ok.
  apply throw_if_Ok, orb_false_iff in Hc as [Hm Hl].
  apply Nat.eqb_neq in Hm. apply Nat.ltb_ge in Hl.
  apply bind_Ok in H as (b & Hb & H). apply pod_from_bytes_Ok in Hb as [Hlb Hb].
  destruct (base_is_initialized b) eqn:Hi; [|done]. cbn [negb] in H.
  apply bind_Ok in H as ([t l] & Hr & [= <-]).
  assert (Hin : c_write base_codec b = take (SIZE_OF S) input).
  { rewrite Hb. by apply c_write_read. }
  assert (Hbok : c_ok base_codec b) by (rewrite Hb; by apply c_read_ok).
  unfold unpack_type_and_tlv_data_mut, unpack_type_and_tlv_data_with_check_mut in Hr.
  apply bind_Ok in Hr as ([[i j]|] & Ho & Hr).
  - apply type_and_tlv_indices_Some in Ho as (-> & -> & Hle & Hz).
    apply bind_Ok in Hr as (at' & Hat & Hr). apply ok_or_Ok, account_type_try_from_Some in Hat.
    apply bind_Ok in Hr as (? & Hck & Hr). unfold check_account_type in Hck.
    case_decide as Hd; [|done]. injection Hr as <- <-.
    set (a := BASE_ACCOUNT_LENGTH - SIZE_OF S) in *.
    set (rest := drop (SIZE_OF S) input) in *.
    assert (Hs : slice a (a + 1) rest = type_byte).
    { unfold type_byte. rewrite <-Hd, <-Hat. symmetry. apply split_le_combine'.
      rewrite length_slice; lia. }
    assert (input = state_bytes S (mkState b (slice a (a + 1) rest) (drop (a + 1) rest)))
      as Hinput.
    { unfold state_bytes; cbn [base account_type tlv_data]. rewrite Hin.
      rewrite <-(take_drop (SIZE_OF S) input) at 1. f_equal. fold rest.
      rewrite Hs. unfold type_byte. fold a.
      rewrite (rest_split rest a Hle Hz) at 1. by rewrite Hs. }
    split; [done|]. constructor; cbn [base account_type tlv_data]; auto.
    by rewrite <-Hinput.
  - injection Hr as <- <-. apply type_and_tlv_indices_None in Ho.
    assert (input = state_bytes S (mkState b [] [])) as Hinput.
    { unfold state_bytes; simpl. rewrite app_nil_r, Hin.
      rewrite <-(take_drop (SIZE_OF S) input) at 1. by rewrite Ho, app_nil_r. }
    split; [done|]. constructor; cbn [base account_type tlv_data]; auto.
    by rewrite <-Hinput.
Qed.

Lemma length_state_bytes st :
  length (state_bytes S st) = SIZE_OF S +
    match account_type st with
    | [] => 0
    | t => BASE_ACCOUNT_LENGTH - SIZE_OF S + length t + length (tlv_data st)
    end.
Proof.
  unfold state_bytes. rewrite length_app, c_write_length, base_size. f_equal.
  case_match; [done|]. rewrite !length_app, length_zeros. lia.
Qed.

Lemma unpack_state_bytes st : state_ok st → unpack S (state_bytes S st) = Ok st.
Proof.
  intros [Hok Hi Ht Hm]. pose proof (length_state_bytes st) as Hl.
  unfold unpack, check_min_len_and_not_multisig.
  rewrite (proj2 (Nat.eqb_neq _ _)), (proj2 (Nat.ltb_ge _ _)) by lia.
  cbn [orb throw_if]. rewrite Ok_bind.
  assert (Hlen : SIZE_OF S = length (c_write base_codec (base st)))
    by (rewrite c_write_length; symmetry; apply base_size).
  unfold state_bytes. rewrite take_app_length', drop_app_length' by done.
  assert (pod_from_bytes base_codec (c_write base_codec (base st)) = Ok (base st)) as ->.
  { apply pod_from_bytes_Ok. rewrite c_write_length. split; [done|].
    by rewrite c_read_write. }
  rewrite Ok_bind, Hi. cbn [negb].
  unfold unpack_type_and_tlv_data_mut, unpack_type_and_tlv_data_with_check_mut.
  destruct st as [b t l]; cbn [base account_type tlv_data] in *.
  destruct Ht as [[-> ->]| ->]; [done|].
  set (rest := match type_byte with [] => _ | _ => _ end).
  assert (rest = zeros (BASE_ACCOUNT_LENGTH - SIZE_OF S) ++ type_byte ++ l) as -> by done.
  rewrite type_and_tlv_indices_zeros by done. rewrite Ok_bind.
  unfold account_type_at. rewrite slice_mid by (rewrite ?length_zeros; done).
  assert (le_combine type_byte = account_type_u8 (ACCOUNT_TYPE S)) as ->.
  { unfold type_byte. by destruct (ACCOUNT_TYPE S). }
  rewrite account_type_from_to. cbn [ok_or]. rewrite Ok_bind.
  unfold check_account_type. rewrite decide_True, Ok_bind by done.
  rewrite (app_assoc (zeros _)), drop_app_length'
    by (rewrite length_app, length_zeros; done).
  done.
Qed.

(** The read-only view is the mutable view without its account type. *)
Lemma unpack_ref_unpack input :
  unpack_ref S input = (λ st, mkRef (base st) (tlv_data st)) <$> unpack S input.
Proof.
  unfold unpack_ref, unpack.
  destruct (check_min_len_and_not_multisig _ _); [rewrite !Ok_bind|done..].
  destruct (pod_from_bytes _ _); [rewrite !Ok_bind|done..].
  case_match; [done|]. unfold unpack_tlv_data, unpack_type_and_tlv_data_mut,
    unpack_type_and_tlv_data_with_check_mut.
  destruct (type_and_tlv_indices _ _) as [[[]|]| |]; [|done..].
  rewrite !Ok_bind. destruct (account_type_at _ _); [|done..].
  rewrite !Ok_bind. by destruct (check_account_type _ _).
Qed.

Lemma unpack_ref_Ok input r : unpack_ref S input = Ok r ↔
  ∃ st, unpack S input = Ok st ∧ r = mkRef (base st) (tlv_data st).
Proof.
  rewrite unpack_ref_unpack. destruct (unpack S input); naive_solver.
Qed.

(** A view stays well formed when its base is rewritten... *)
Lemma state_ok_with_base st b : state_ok st → c_ok base_codec b →
  base_is_initialized b = true → state_ok (with_base b st).
Proof.
  intros [Hok Hi Ht Hm] H1 H2. constructor; try done.
  rewrite length_state_bytes in *. done.
Qed.

(** ... or its TLV area, at the same size. *)
Lemma state_ok_with_tlv st l : state_ok st → length l = length (tlv_data st) →
  state_ok (with_tlv l st).
Proof.
  intros [Hok Hi Ht Hm] Hl. constructor; try done.
  - destruct Ht as [[H1 H2]|]; [left|by right]. split; [done|].
    cbn. apply nil_length_inv. by rewrite Hl, H2.
  - rewrite length_state_bytes in *. cbn in *. by rewrite Hl.
Qed.
End views.

(** ** Reading an extension after writing one *)
Section get_put.
Context `{rt : Runtime}.
Context (S : Type) `{HB : BaseState S}.
Implicit Types (V W : ExtensionType) (tlv k : list byte).

Lemma get_extension_range_Ok V tlv a b :
  get_extension_range S V tlv = Ok (a, b) ↔
  get_account_type V = ACCOUNT_TYPE S ∧
  ∃ t n, search V tlv false 0 = Ok (get_tlv_indices t) ∧
    pod_from_bytes u16 (slice (t + 2) (t + 2 + 2) tlv) = Ok n ∧
    a = t + 2 + 2 ∧ b = a + Z.to_nat n ∧ b ≤ length tlv.
Proof.
  unfold get_extension_range, get_extension_indices. fold (search V tlv false 0).
  case_decide as HV; [|naive_solver].
  split.
  - intros (i & Hi & H)%bind_Ok. split; [done|].
    destruct (search_Ok _ _ _ _ _ Hi) as (_ & Hti & _). rewrite Hti in Hi, H.
    apply bind_Ok in H as (n & Hn & H).
    cbn [get_tlv_indices type_start length_start value_start] in *. case_match eqn:Hl; [done|].
    apply Nat.ltb_ge in Hl. injection H as <- <-.
    exists (type_start i), n. by rewrite Hi.
  - intros (_ & t & n & -> & Hn & -> & -> & Hl). rewrite Ok_bind.
    cbn [get_tlv_indices type_start length_start value_start] in *.
    rewrite Hn, Ok_bind, (proj2 (Nat.ltb_ge _ _)) by done. done.
Qed.

(** Two entries found in the same area do not overlap. *)
Lemma search_disjoint V W tlv start i j n m :
  V ≠ W → search V tlv false start = Ok (get_tlv_indices i) →
  search W tlv false start = Ok (get_tlv_indices j) →
  pod_from_bytes u16 (slice (i + 2) (i + 2 + 2) tlv) = Ok n →
  pod_from_bytes u16 (slice (j + 2) (j + 2 + 2) tlv) = Ok m →
  i + 4 + Z.to_nat n ≤ j ∨ j + 4 + Z.to_nat m ≤ i.
Proof.
  intros HVW Hi Hj Hn Hm. remember (length tlv - start) as l eqn:Hl.
  revert start Hi Hj Hl. induction (lt_wf l) as [l _ IH]. intros start Hi Hj ->.
  rewrite search_unfold in Hi, Hj; cbv zeta in *.
  cbn [get_tlv_indices type_start length_start value_start] in *.
  destruct (Nat.ltb_spec start (length tlv)); [|done].
  destruct (Nat.ltb_spec (length tlv) (start + 2 + 2)); [done|].
  set (t := le_combine _) in *.
  destruct (Z.eqb_spec t (ext_u16 V)) as [HtV|HtV];
    destruct (Z.eqb_spec t (ext_u16 W)) as [HtW|HtW].
  - exfalso. apply HVW, ext_u16_inj. congruence.
  - injection Hi as <-. destruct (t =? _)%Z; [done|].
    rewrite Hn, Ok_bind in Hj. apply search_Ok in Hj as (Hj & _). simpl in Hj. lia.
  - injection Hj as <-. destruct (t =? ext_u16 ExtensionType.Uninitialized)%Z; [done|].
    rewrite Hm, Ok_bind in Hi. apply search_Ok in Hi as (Hi & _). simpl in Hi. lia.
  - destruct (t =? ext_u16 ExtensionType.Uninitialized)%Z; [done|].
    apply bind_Ok in Hi as (n' & Hn' & Hi). rewrite Hn', Ok_bind in Hj.
    eapply IH; [|exact Hi|exact Hj|done]. lia.
Qed.

Lemma pod_u16_header tlv j r : j + 2 + 2 ≤ length tlv →
  pod_from_bytes u16 (slice (j + 2) (j + 2 + 2) tlv) = r →
  r ≠ Panic ∧ ∀ e, r ≠ Err e.
Proof.
  intros Hj <-.
  assert (pod_from_bytes u16 (slice (j + 2) (j + 2 + 2) tlv) =
          Ok (c_read u16 (slice (j + 2) (j + 2 + 2) tlv))) as ->; [|done].
  apply pod_from_bytes_Ok. split; [|done]. rewrite length_slice; [|lia..].
  change (c_size u16) with 2. lia.
Qed.

Lemma get_extension_range_frame V W tlv a b k :
  get_extension_range S V tlv = Ok (a, b) → length k = b - a →
  get_extension_range S W (splice a k tlv) = get_extension_range S W tlv.
Proof.
  intros (HV & i & n & Hi & Hn & -> & -> & Hb)%get_extension_range_Ok Hk.
  assert (Hk' : length k = Z.to_nat n) by lia.
  assert (Hl : length (splice (i + 2 + 2) k tlv) = length tlv) by (apply length_splice; lia).
  unfold get_extension_range. case_decide as HW; [|done].
  unfold get_extension_indices. fold (search W (splice (i + 2 + 2) k tlv) false 0).
  fold (search W tlv false 0).
  rewrite (search_frame V W tlv 0 (get_tlv_indices i) n k) by (done || simpl; lia).
  destruct (search W tlv false 0) as [x| |] eqn:Hx; [|done..].
  rewrite !Ok_bind, Hl.
  destruct (search_Ok _ _ _ _ _ Hx) as (_ & Hxi & Hxl).
  rewrite Hxi in Hx, Hxl |- *. set (j := type_start x) in *.
  cbn [get_tlv_indices type_start length_start value_start] in *.
  assert (slice (j + 2) (j + 2 + 2) (splice (i + 2 + 2) k tlv) =
          slice (j + 2) (j + 2 + 2) tlv) as ->; [|done].
  destruct (decide (V = W)) as [<-|HVW].
  { rewrite Hx in Hi. injection Hi as Hi. rewrite <-Hi. apply slice_splice_before; lia. }
  destruct (pod_from_bytes u16 (slice (j + 2) (j + 2 + 2) tlv)) as [m| |] eqn:Hm.
  - destruct (search_disjoint V W tlv 0 i j n m) as [?|?]; try done.
    + apply slice_splice_after; lia.
    + apply slice_splice_before; lia.
  - destruct (pod_u16_header tlv j _ Hxl Hm) as [_ H]. by destruct (H e).
  - by destruct (pod_u16_header tlv j _ Hxl Hm) as [H _].
Qed.

(** The value written is the value read... *)
Lemma get_extension_bytes_same V tlv a b k :
  get_extension_range S V tlv = Ok (a, b) → length k = b - a →
  get_extension_bytes S V (splice a k tlv) = Ok k.
Proof.
  intros Hr Hk. unfold get_extension_bytes.
  rewrite (get_extension_range_frame V V tlv a b k), Hr, Ok_bind by done.
  apply get_extension_range_Ok in Hr as (_ & i & n & _ & _ & -> & -> & Hb).
  replace (i + 2 + 2 + Z.to_nat n) with (i + 2 + 2 + length k) by lia.
  rewrite slice_splice_same; [done|lia].
Qed.

(** ... and no other entry changes. *)
Lemma get_extension_bytes_ne V W tlv a b k :
  get_extension_range S V tlv = Ok (a, b) → length k = b - a → V ≠ W →
  get_extension_bytes S W (splice a k tlv) = get_extension_bytes S W tlv.
Proof.
  intros Hr Hk HVW. unfold get_extension_bytes.
  rewrite (get_extension_range_frame V W tlv a b k) by done.
  destruct (get_extension_range S W tlv) as [[c d]| |] eqn:HW; [|done..].
  rewrite !Ok_bind. f_equal.
  apply get_extension_range_Ok in Hr as (_ & i & n & Hi & Hn & -> & -> & Hb).
  apply get_extension_range_Ok in HW as (_ & j & m & Hj & Hm & -> & -> & Hd).
  destruct (search_disjoint V W tlv 0 i j n m) as [?|?]; try done.
  - apply slice_splice_after; lia.
  - apply slice_splice_before; lia.
Qed.

Context {X Y : Type} `{!Extension X} `{!Extension Y}.

Lemma get_extension_range_size (x : X) tlv :
  get_extension S X tlv = Ok x →
  ∃ a b, get_extension_range S (TYPE X) tlv = Ok (a, b) ∧ b - a = ext_size X ∧
    a ≤ b ∧ b ≤ length tlv ∧ x = c_read ext_codec (slice a b tlv).
Proof.
  unfold get_extension, get_extension_bytes.
  intros (bs & ([a b] & Hr & [= <-])%bind_Ok & [Hl ->]%pod_from_bytes_Ok)%bind_Ok.
  exists a, b. split; [done|].
  apply get_extension_range_Ok in Hr as (_ & i & n & _ & _ & -> & -> & Hb).
  rewrite length_slice in Hl by lia. unfold ext_size. repeat split; lia || done.
Qed.

Lemma get_extension_ok (x : X) tlv : get_extension S X tlv = Ok x → c_ok ext_codec x.
Proof.
  intros (a & b & _ & Hs & Ha & Hb & ->)%get_extension_range_size.
  apply c_read_ok. rewrite length_slice by done. done.
Qed.

Lemma length_put_extension (x x' : X) tlv : get_extension S X tlv = Ok x →
  length (put_extension S x' tlv) = length tlv.
Proof.
  intros (a & b & Hr & Hs & Ha & Hb & _)%get_extension_range_size.
  unfold put_extension. rewrite Hr. apply length_splice. rewrite c_write_length.
  unfold ext_size in Hs. lia.
Qed.

Lemma get_put_extension (x x' : X) tlv : get_extension S X tlv = Ok x →
  c_ok ext_codec x' → get_extension S X (put_extension S x' tlv) = Ok x'.
Proof.
  intros (a & b & Hr & Hs & Ha & Hb & _)%get_extension_range_size Hok.
  unfold put_extension, get_extension. rewrite Hr.
  rewrite (get_extension_bytes_same _ _ a b) by (rewrite ?c_write_length; done).
  rewrite Ok_bind. apply pod_from_bytes_Ok. rewrite c_write_length. split; [done|].
  by rewrite c_read_write.
Qed.

Lemma get_put_extension_ne (x x' : X) tlv : get_extension S X tlv = Ok x →
  TYPE X ≠ TYPE Y → get_extension S Y (put_extension S x' tlv) = get_extension S Y tlv.
Proof.
  intros (a & b & Hr & Hs & Ha & Hb & _)%get_extension_range_size HXY.
  unfold put_extension, get_extension. rewrite Hr.
  by rewrite (get_extension_bytes_ne _ _ _ a b) by (rewrite ?c_write_length; done).
Qed.

(** The bytes of every other extension stay, whatever its type. *)
Lemma get_bytes_put_extension_ne (x x' : X) tlv t : get_extension S X tlv = Ok x → TYPE X ≠ t →
  get_extension_bytes S t (put_extension S x' tlv) = get_extension_bytes S t tlv.
Proof.
  intros (a & b & Hr & Hs & Ha & Hb & _)%get_extension_range_size HXt.
  unfold put_extension. rewrite Hr.
  by rewrite (get_extension_bytes_ne _ _ _ a b) by (rewrite ?c_write_length; done).
Qed.
End get_put.
