(* ===== verification/Fee.v ===== *)
(** * Fee arithmetic: [interface/src/extension/transfer_fee/mod.rs]

    [TransferFee] and [TransferFeeConfig]: the fee of a transfer, its inverse,
    and the fee schedule of a mint.  Amounts are [u64], intermediate results
    [u128], both with the checked operations of the source. *)
From S2P Require Import Prelude Codec Errors Runtime Pod ExtensionType ExtensionData.

Definition MAX_FEE_BASIS_POINTS : Z := 10000.
Definition ONE_IN_BASIS_POINTS : Z := MAX_FEE_BASIS_POINTS.

Definition ceil_div (numerator denominator : Z) : option Z :=
  a ← checked_add 128 numerator denominator;
  b ← checked_sub 128 a 1;
  checked_div 128 b denominator.

Definition calculate_fee (f : TransferFee) (pre_fee_amount : Z) : option Z :=
  let transfer_fee_basis_points := tf_transfer_fee_basis_points f in
  if (transfer_fee_basis_points =? 0) || (pre_fee_amount =? 0) then Some 0
  else
    numerator ← checked_mul 128 pre_fee_amount transfer_fee_basis_points;
    raw_fee ← ceil_div numerator ONE_IN_BASIS_POINTS;
    raw_fee ← to_uint 64 raw_fee;
    Some (Z.min raw_fee (tf_maximum_fee f)).

Definition calculate_post_fee_amount (f : TransferFee) (pre_fee_amount : Z) : option Z :=
  fee ← calculate_fee f pre_fee_amount;
  checked_sub 64 pre_fee_amount fee.

Definition calculate_pre_fee_amount (f : TransferFee) (post_fee_amount : Z) : option Z :=
  let maximum_fee := tf_maximum_fee f in
  let transfer_fee_basis_points := tf_transfer_fee_basis_points f in
  if transfer_fee_basis_points =? 0 then Some post_fee_amount
  else if post_fee_amount =? 0 then Some 0
  else if transfer_fee_basis_points =? ONE_IN_BASIS_POINTS then
    checked_add 64 maximum_fee post_fee_amount
  else
    numerator ← checked_mul 128 post_fee_amount ONE_IN_BASIS_POINTS;
    denominator ← checked_sub 128 ONE_IN_BASIS_POINTS transfer_fee_basis_points;
    raw_pre_fee_amount ← ceil_div numerator denominator;
    raw_fee ← checked_sub 128 raw_pre_fee_amount post_fee_amount;
    if maximum_fee <=? raw_fee then checked_add 64 post_fee_amount maximum_fee
    else to_uint 64 raw_pre_fee_amount.

Definition calculate_inverse_fee (f : TransferFee) (post_fee_amount : Z) : option Z :=
  pre_fee_amount ← calculate_pre_fee_amount f post_fee_amount;
  calculate_fee f pre_fee_amount.

Definition get_epoch_fee (c : TransferFeeConfig) (epoch : Z) : TransferFee :=
  if tf_epoch (tfc_newer_transfer_fee c) <=? epoch then tfc_newer_transfer_fee c
  else tfc_older_transfer_fee c.
Definition calculate_epoch_fee (c : TransferFeeConfig) (epoch pre_fee_amount : Z) : option Z :=
  calculate_fee (get_epoch_fee c epoch) pre_fee_amount.
Definition calculate_inverse_epoch_fee (c : TransferFeeConfig) (epoch post_fee_amount : Z)
    : option Z :=
  calculate_inverse_fee (get_epoch_fee c epoch) post_fee_amount.

(** [TransferFeeAmount::closable] *)
Definition TransferFeeAmount_closable (a : TransferFeeAmount) : res unit :=
  if tfa_withheld_amount a =? 0 then Ok tt else Err (tok AccountHasWithheldTransferFees).

(** ** The mathematical fee *)

(** A fee the program stores: at most 100%. *)
Definition fee_ok (f : TransferFee) : Prop :=
  in_uint 64 (tf_epoch f) ∧ in_uint 64 (tf_maximum_fee f) ∧
  0 ≤ tf_transfer_fee_basis_points f ≤ MAX_FEE_BASIS_POINTS.

(** Ceiling division over the integers *)
Definition ceil (a b : Z) : Z := (a + b - 1) / b.

(** The fee of a transfer of [x], without machine integers *)
Definition fee_of (f : TransferFee) (x : Z) : Z :=
  Z.min (ceil (x * tf_transfer_fee_basis_points f) MAX_FEE_BASIS_POINTS) (tf_maximum_fee f).

Lemma ceil_spec a b c : 0 < b → ceil a b ≤ c ↔ a ≤ c * b.
Proof.
  intros Hb. unfold ceil. split; intros H.
  - pose proof (Z.mul_succ_div_gt (a + b - 1) b Hb). nia.
  - apply Z.lt_succ_r, Z.div_lt_upper_bound; lia.
Qed.

Lemma ceil_lt a b c : 0 < b → c < ceil a b ↔ c * b < a.
Proof. intros Hb. pose proof (ceil_spec a b c Hb). lia. Qed.

Lemma ceil_nonneg a b : 0 < b → 0 ≤ a → 0 ≤ ceil a b.
Proof. intros Hb Ha. apply Z.div_pos; lia. Qed.

Lemma ceil_div_Some a b : 0 < b → 0 ≤ a → a + b < 2 ^ 128 → ceil_div a b = Some (ceil a b).
Proof.
  intros Hb Ha Hab. unfold ceil_div, checked_add, checked_sub, checked_div.
  rewrite to_uint_in by (unfold in_uint; lia). cbn.
  rewrite to_uint_in by (unfold in_uint; lia). cbn.
  destruct (Z.eqb_spec b 0); [lia|].
  apply to_uint_in. split; [apply Z.div_pos; lia|].
  apply Z.div_lt_upper_bound; [done|]. nia.
Qed.

Section fee.
Context (f : TransferFee) (Hf : fee_ok f).
Let bp := tf_transfer_fee_basis_points f.
Let M := tf_maximum_fee f.

Lemma fee_of_le x : 0 ≤ x → fee_of f x ≤ x.
Proof using Hf.
  destruct Hf as (_ & _ & Hbp). intros Hx. unfold fee_of.
  assert (ceil (x * tf_transfer_fee_basis_points f) MAX_FEE_BASIS_POINTS ≤ x); [|lia].
  apply ceil_spec; unfold MAX_FEE_BASIS_POINTS in *; nia.
Qed.

Lemma fee_of_nonneg x : 0 ≤ x → 0 ≤ fee_of f x.
Proof using Hf.
  destruct Hf as (_ & [HM _] & Hbp). intros Hx. unfold fee_of.
  apply Z.min_glb; [|done]. apply ceil_nonneg; unfold MAX_FEE_BASIS_POINTS in *; nia.
Qed.

Lemma calculate_fee_eq x : in_uint 64 x → calculate_fee f x = Some (fee_of f x).
Proof using Hf.
  intros Hx. destruct Hf as (_ & HM & Hbp). unfold calculate_fee, in_uint in *.
  unfold ONE_IN_BASIS_POINTS, MAX_FEE_BASIS_POINTS in *.
  destruct (Z.eqb_spec (tf_transfer_fee_basis_points f) 0) as [H0|H0]; simpl.
  { unfold fee_of. rewrite H0, Z.mul_0_r. f_equal.
    change (ceil 0 MAX_FEE_BASIS_POINTS) with 0. lia. }
  destruct (Z.eqb_spec x 0) as [->|Hx0].
  { unfold fee_of. rewrite Z.mul_0_l. f_equal.
    change (ceil 0 MAX_FEE_BASIS_POINTS) with 0. lia. }
  unfold checked_mul. rewrite to_uint_in by (unfold in_uint; nia). cbn.
  rewrite ceil_div_Some by nia. cbn. rewrite to_uint_in; [done|].
  split; [apply ceil_nonneg; nia|].
  apply Z.le_lt_trans with x; [apply ceil_spec; nia|lia].
Qed.

Lemma calculate_post_fee_amount_eq x : in_uint 64 x →
  calculate_post_fee_amount f x = Some (x - fee_of f x).
Proof using Hf.
  intros Hx. unfold calculate_post_fee_amount. rewrite calculate_fee_eq by done. cbn.
  destruct Hx. pose proof (fee_of_le x). pose proof (fee_of_nonneg x).
  apply to_uint_in. unfold in_uint. lia.
Qed.

Lemma fee_of_mono x y : x ≤ y → fee_of f x ≤ fee_of f y.
Proof using Hf.
  destruct Hf as (_ & _ & Hbp). intros Hxy. unfold fee_of.
  apply Z.min_le_compat_r, Z.div_le_mono; unfold MAX_FEE_BASIS_POINTS in *; nia.
Qed.

(** Net amounts: [x] nets less than [p] exactly when it is less than both
    the capped and the proportional gross amount of [p]. *)
Lemma net_lt x p : 0 < p → x - fee_of f x < p ↔
  x < p + M ∧ x * (MAX_FEE_BASIS_POINTS - bp) < p * MAX_FEE_BASIS_POINTS.
Proof using Hf.
  intros Hp. unfold fee_of. fold bp M.
  pose proof (ceil_lt (x * bp) MAX_FEE_BASIS_POINTS (x - p) eq_refl) as H.
  unfold MAX_FEE_BASIS_POINTS in *. lia.
Qed.

(** The gross amount of [p], without machine integers *)
Definition gross_of (p : Z) : Z :=
  if (bp =? MAX_FEE_BASIS_POINTS) then p + M
  else Z.min (p + M) (ceil (p * MAX_FEE_BASIS_POINTS) (MAX_FEE_BASIS_POINTS - bp)).

Lemma gross_of_le x p : 0 < p → gross_of p ≤ x ↔ p ≤ x - fee_of f x.
Proof using Hf.
  intros Hp. pose proof (net_lt x p Hp) as Hn. unfold gross_of.
  destruct Hf as (_ & _ & Hbp). fold bp in Hbp.
  destruct (Z.eqb_spec bp MAX_FEE_BASIS_POINTS) as [Hb|Hb].
  - rewrite Hb in Hn. unfold MAX_FEE_BASIS_POINTS in *. lia.
  - pose proof (ceil_spec (p * MAX_FEE_BASIS_POINTS) (MAX_FEE_BASIS_POINTS - bp) x).
    unfold MAX_FEE_BASIS_POINTS in *. lia.
Qed.

Lemma gross_of_net p : 0 < p → gross_of p - fee_of f (gross_of p) = p.
Proof using Hf.
  intros Hp. pose proof (proj1 (gross_of_le (gross_of p) p Hp)) as H1.
  pose proof (gross_of_le (gross_of p - 1) p Hp) as H2.
  pose proof (fee_of_mono (gross_of p - 1) (gross_of p)). lia.
Qed.

Lemma gross_of_ge p : 0 < p → p ≤ gross_of p.
Proof using Hf.
  intros Hp. pose proof (gross_of_net p Hp) as H.
  assert (0 ≤ gross_of p).
  { unfold gross_of. destruct Hf as (_ & [HM _] & Hbp). fold M in HM. fold bp in Hbp.
    destruct (Z.eqb_spec bp MAX_FEE_BASIS_POINTS); [lia|].
    apply Z.min_glb; [lia|]. apply ceil_nonneg; unfold MAX_FEE_BASIS_POINTS in *; lia. }
  pose proof (fee_of_nonneg (gross_of p)). lia.
Qed.

Lemma calculate_pre_fee_amount_eq p : in_uint 64 p →
  calculate_pre_fee_amount f p =
    if (bp =? 0) || (p =? 0) then Some p else to_uint 64 (gross_of p).
Proof using Hf.
  intros [Hp0 Hp]. destruct Hf as (_ & [HM HM'] & Hbp). fold bp in Hbp; fold M in HM, HM'.
  unfold calculate_pre_fee_amount, gross_of. fold bp M.
  unfold ONE_IN_BASIS_POINTS, MAX_FEE_BASIS_POINTS in *.
  destruct (Z.eqb_spec bp 0) as [H0|H0]; [done|].
  destruct (Z.eqb_spec p 0) as [->|Hpn]; [done|]. cbn [orb].
  destruct (Z.eqb_spec bp 10000) as [H1|H1].
  { unfold checked_add. f_equal. lia. }
  unfold checked_mul. rewrite to_uint_in by (unfold in_uint; lia). cbn [mbind option_bind].
  unfold checked_sub. rewrite to_uint_in by (unfold in_uint; lia). cbn [mbind option_bind].
  rewrite ceil_div_Some by lia. cbn [mbind option_bind].
  set (r := ceil (p * 10000) (10000 - bp)).
  clearbody bp M. assert (Hbm : 0 < 10000 - bp) by lia. pose proof (Z.mul_nonneg_nonneg p bp Hp0 (proj1 Hbp)).
  assert (p ≤ r) as Hr.
  { assert (p - 1 < r); [apply ceil_lt; lia|lia]. }
  assert (r ≤ p * 10000).
  { apply ceil_spec; [done|]. apply Z.le_mul_diag_r; lia. }
  rewrite (to_uint_in 128 (r - p)) by (unfold in_uint; lia). cbn [mbind option_bind].
  unfold checked_add. destruct (Z.leb_spec M (r - p)); f_equal; lia.
Qed.

(** What [calculate_pre_fee_amount] computes: the least amount that nets [p]. *)
Lemma calculate_pre_fee_amount_net p x : in_uint 64 p →
  calculate_pre_fee_amount f p = Some x →
  in_uint 64 x ∧ p = x - fee_of f x ∧ ∀ y, 0 ≤ y → p ≤ y - fee_of f y → x ≤ y.
Proof using Hf.
  intros Hp. rewrite calculate_pre_fee_amount_eq by done.
  assert (Hz : ∀ y, 0 ≤ y → 0 ≤ fee_of f y) by apply fee_of_nonneg.
  destruct (Z.eqb_spec bp 0) as [H0|H0].
  - intros [= <-]. split; [done|]. assert (fee_of f p ≤ 0).
    { unfold fee_of. fold bp. rewrite H0, Z.mul_0_r.
      change (ceil 0 MAX_FEE_BASIS_POINTS) with 0. lia. }
    split; [|intros y Hy Hle]; [|specialize (Hz y Hy); lia].
    destruct Hp. specialize (Hz p). lia.
  - destruct (Z.eqb_spec p 0) as [->|Hpn]; cbn [orb].
    + intros [= <-]. pose proof (fee_of_le 0 (Z.le_refl 0)). specialize (Hz 0 (Z.le_refl 0)).
      split; [done|]. split; [lia|]. intros y Hy _. lia.
    + destruct Hp as [Hp _]. intros [-> Hin]%to_uint_Some. split; [done|].
      rewrite gross_of_net by lia. split; [done|]. intros y Hy Hle.
      apply gross_of_le; lia.
Qed.

Lemma calculate_pre_fee_amount_defined p y : in_uint 64 p → in_uint 64 y →
  p ≤ y - fee_of f y → is_Some (calculate_pre_fee_amount f p).
Proof using Hf.
  intros Hp [Hy Hy'] Hle. rewrite calculate_pre_fee_amount_eq by done.
  destruct (Z.eqb_spec bp 0); [by eexists|].
  destruct (Z.eqb_spec p 0) as [|Hpn]; [by eexists|]. cbn [orb].
  destruct Hp as [Hp _]. exists (gross_of p). apply to_uint_in.
  pose proof (gross_of_ge p). pose proof (proj2 (gross_of_le y p ltac:(lia)) Hle).
  split; lia.
Qed.
End fee.

(** ** Properties *)


(** C31: the pre-fee amount is exact and least.  When [calculate_pre_fee_amount]
    returns [x] for a net amount [p], a transfer of [x] nets [p] and no smaller
    transfer does; it returns [None] only when no [u64] transfer nets [p]. *)
Theorem calculate_pre_fee_amount_correct f p : fee_ok f → in_uint 64 p →
  match calculate_pre_fee_amount f p with
  | Some x => in_uint 64 x ∧ calculate_post_fee_amount f x = Some p ∧
      ∀ y, in_uint 64 y → calculate_post_fee_amount f y = Some p → x ≤ y
  | None => ∀ y, in_uint 64 y → calculate_post_fee_amount f y ≠ Some p
  end.
Proof.
  intros Hf Hp. destruct (calculate_pre_fee_amount f p) as [x|] eqn:Hx.
  - destruct (calculate_pre_fee_amount_net f Hf p x Hp Hx) as (Hin & Hpx & Hleast).
    split; [done|]. rewrite calculate_post_fee_amount_eq, <-Hpx by done. split; [done|].
    intros y Hy. rewrite calculate_post_fee_amount_eq by done. intros [= Hyp].
    apply Hleast; [apply Hy|lia].
  - intros y Hy. rewrite calculate_post_fee_amount_eq by done. intros [= Hyp].
    destruct (calculate_pre_fee_amount_defined f Hf p y) as [z Hz]; [done|done|lia|].
    by rewrite Hx in Hz.
Qed.

(** The relationship the source states for [calculate_inverse_fee]: it is defined
    on every net amount, and is at most the fee that was taken. *)
Theorem calculate_inverse_fee_le f x : fee_ok f → in_uint 64 x →
  ∃ fee net inv, calculate_fee f x = Some fee ∧ calculate_post_fee_amount f x = Some net ∧
    calculate_inverse_fee f net = Some inv ∧ inv ≤ fee.
Proof.
  intros Hf Hx. exists (fee_of f x), (x - fee_of f x).
  rewrite calculate_fee_eq, calculate_post_fee_amount_eq by done.
  pose proof (fee_of_le f Hf x (proj1 Hx)). pose proof (fee_of_nonneg f Hf x (proj1 Hx)).
  assert (Hnet : in_uint 64 (x - fee_of f x)) by (destruct Hx; split; lia).
  destruct (calculate_pre_fee_amount_defined f Hf (x - fee_of f x) x) as [y Hy]; [done..|].
  destruct (calculate_pre_fee_amount_net f Hf _ y Hnet Hy) as (Hin & Hpy & Hleast).
  unfold calculate_inverse_fee. rewrite Hy. cbn. rewrite calculate_fee_eq by done.
  exists (fee_of f y). split_and!; [done..|]. apply fee_of_mono; [done|].
  apply Hleast; [apply Hx|lia].
Qed.

(** ** Witnesses *)
Definition example_fee : TransferFee := mkTransferFee 0 5000 100.

Lemma example_fee_ok : fee_ok example_fee.
Proof. unfold fee_ok, in_uint; simpl. unfold MAX_FEE_BASIS_POINTS. lia. Defined.


Lemma calculate_pre_fee_amount_correct_witness :
  calculate_pre_fee_amount example_fee 12221 = Some 12345 ∧
  ∀ y, in_uint 64 y → calculate_post_fee_amount example_fee y = Some 12221 → 12345 ≤ y.
Proof.
  pose proof (calculate_pre_fee_amount_correct example_fee 12221 example_fee_ok) as H.
  assert (calculate_pre_fee_amount example_fee 12221 = Some 12345) as E by (vm_compute; reflexivity).
  rewrite E in H. split; [done|]. apply H. unfold in_uint; lia.
Defined.

Lemma calculate_inverse_fee_le_witness :
  ∃ fee net inv, calculate_fee example_fee 12346 = Some fee ∧
    calculate_post_fee_amount example_fee 12346 = Some net ∧
    calculate_inverse_fee example_fee net = Some inv ∧ inv ≤ fee.
Proof. apply (calculate_inverse_fee_le example_fee 12346 example_fee_ok). unfold in_uint; lia. Defined.
