(* ===== verification/Authority.v ===== *)
(** * Authorities: [Processor::validate_owner] and the guards of a transfer

    Who may act for an account: a single signer or an m-of-n multisig, plus the
    program-owner check, the CPI and memo guards and the extension getters that
    decide which guard applies. *)
From S2P Require Import Prelude Codec Errors Runtime Pod State ExtensionType ExtensionData Tlv.
From S2P Require Import StateExt.

(** [crate::id()] *)
Definition id `{Runtime} : Pubkey :=
  declare_id "TokenzQdBNbLqP5VEhdkAS6EPFLC1PHnBqCXEpPxuEb".

(** [check_program_account] *)
Definition check_program_account `{Runtime} (spl_token_program_id : Pubkey) : res unit :=
  throw_if (negb (spl_token_program_id =? id)) IncorrectProgramId.

(** ** Multisigs *)

(** One pass of the inner loop of [validate_owner]: the positions of the keys
    that [signer] matches. *)
Fixpoint match_positions (signer : AccountInfo) (keys : list Pubkey) (position : nat)
    (matched : list bool) (num_signers : Z) : res (list bool * Z) :=
  match keys with
  | [] => Ok (matched, num_signers)
  | k :: keys =>
      if (k =? key signer) && negb (default false (matched !! position)) then
        if negb (is_signer signer) then Err MissingRequiredSignature
        else match_positions signer keys (S position) (<[position := true]> matched)
               (num_signers + 1)
      else match_positions signer keys (S position) matched num_signers
  end.

(** The outer loop; the slice [signers[0..n]] panics when [n] is too large. *)
Fixpoint match_signers (ms : PodMultisig) (signers : list AccountInfo)
    (matched : list bool) (num_signers : Z) : res (list bool * Z) :=
  match signers with
  | [] => Ok (matched, num_signers)
  | signer :: signers =>
      if (MAX_SIGNERS <? Z.to_nat (ms_n ms))%nat then Panic
      else
        '(matched, num_signers) ←
          match_positions signer (take (Z.to_nat (ms_n ms)) (ms_signers ms)) 0 matched num_signers;
        match_signers ms signers matched num_signers
  end.

(** [pod_from_bytes::<PodMultisig>] *)
Definition pod_multisig_from_bytes `{Runtime} (bs : list byte) : res PodMultisig :=
  if (length bs =? PodMultisig_SIZE_OF)%nat then Ok (PodMultisig_read bs) else Err pod_error.

(** [Processor::validate_owner]; [held] are the accounts whose data the caller
    has mutably borrowed. *)
Definition validate_owner `{Runtime} (held : list Pubkey) (w : world)
    (program_id expected_owner : Pubkey) (owner_account_info : AccountInfo) (owner_account_data_len : nat)
    (signers : list AccountInfo) : res unit :=
  if negb (expected_owner =? key owner_account_info) then Err (tok OwnerMismatch)
  else if (program_id =? info_owner w owner_account_info) &&
          (owner_account_data_len =? PodMultisig_SIZE_OF)%nat then
    multisig_data ← borrow held w owner_account_info;
    multisig ← pod_multisig_from_bytes multisig_data;
    '(_, num_signers) ← match_signers multisig signers (replicate MAX_SIGNERS false) 0;
    throw_if (num_signers <? ms_m multisig) MissingRequiredSignature
  else throw_if (negb (is_signer owner_account_info)) MissingRequiredSignature.

(** ** Guards *)

(** [in_cpi] *)
Definition in_cpi `{Runtime} : bool := transaction_level_stack_height <? stack_height.

(** [check_previous_sibling_instruction_is_memo] *)
Definition check_previous_sibling_instruction_is_memo `{Runtime} : res unit :=
  match previous_sibling with
  | Some id => throw_if (negb ((id =? memo_v3_id) || (id =? memo_v1_id))) (tok NoMemo)
  | None => Err (tok NoMemo)
  end.

Section getters.
Context `{rt : Runtime} (S : Type) `{!BaseState S}.
Implicit Types tlv : list byte.

(** [memo_required] *)
Definition memo_required tlv : bool :=
  match get_extension S MemoTransfer tlv with
  | Ok extension => pod_bool (mt_require_incoming_transfer_memos extension)
  | _ => false
  end.

(** [cpi_guard_enabled] *)
Definition cpi_guard_enabled tlv : bool :=
  match get_extension S CpiGuard tlv with
  | Ok extension => pod_bool (cg_lock_cpi extension)
  | _ => false
  end.

(** [get_permanent_delegate] *)
Definition get_permanent_delegate tlv : option Pubkey :=
  e ← ok_opt (get_extension S PermanentDelegate tlv);
  optional_get (pd_delegate e).

(** [transfer_hook::get_program_id] *)
Definition get_program_id tlv : option Pubkey :=
  e ← ok_opt (get_extension S TransferHook tlv);
  optional_get (th_program_id e).

(** [transfer_hook::set_transferring] *)
Definition set_transferring tlv : res (list byte) :=
  _ ← get_extension S TransferHookAccount tlv;
  Ok (put_extension S (mkTransferHookAccount (from_bool true)) tlv).
End getters.

(** [transfer_hook::unset_transferring] *)
Definition unset_transferring `{Runtime} (held : list Pubkey) (w : world) (i : AccountInfo)
    : res world :=
  account_data ← borrow held w i;
  account ← unpack_account account_data;
  _ ← get_account_ext TransferHookAccount (tlv_data account);
  let tlv := put_extension PodAccount (mkTransferHookAccount (from_bool false))
               (tlv_data account) in
  Ok (set_data w (key i) (state_bytes PodAccount (with_tlv tlv account))).

(** ** What [validate_owner] checks *)

(** [k] signed among the remaining accounts. *)
Definition signed (signers : list AccountInfo) (k : Pubkey) : Prop :=
  Exists (λ s, key s = k ∧ is_signer s = true) signers.
#[export] Instance signed_dec signers k : Decision (signed signers k).
Proof. apply _. Defined.

Lemma list_filter_iff_elem {A} (P Q : A → Prop) `{!∀ x, Decision (P x), !∀ x, Decision (Q x)}
    (l : list A) :
  (∀ x, x ∈ l → P x ↔ Q x) → filter P l = filter Q l.
Proof.
  induction l as [|x l IH]; intros HPQ; [done|]. rewrite !filter_cons, IH by set_solver.
  specialize (HPQ x ltac:(by left)). repeat case_decide; tauto.
Qed.

(** Number of positions of the multisig whose key signed. *)
Definition num_signed (ms : PodMultisig) (signers : list AccountInfo) : nat :=
  length (filter (signed signers) (take (Z.to_nat (ms_n ms)) (ms_signers ms))).

Section multisig.
Implicit Types (keys : list Pubkey) (matched : list bool) (s : AccountInfo).

Lemma app_snoc {A} (pre : list A) x l : pre ++ x :: l = (pre ++ [x]) ++ l.
Proof. by rewrite <-app_assoc. Qed.

Lemma insert_middle {A} (pre : list A) x y l :
  <[length pre := x]> (pre ++ y :: l) = (pre ++ [x]) ++ l.
Proof.
  rewrite <-app_snoc. induction pre as [|z pre IH]; [done|].
  change (z :: <[length pre := x]> (pre ++ y :: l) = z :: pre ++ x :: l). by rewrite IH.
Qed.

(** The positions marked after a signer, or several. *)
Fixpoint mark k keys matched : list bool :=
  match keys, matched with
  | k' :: keys, b :: matched => (b || (k' =? k)) :: mark k keys matched
  | _, _ => matched
  end.
Definition count_true matched : Z := Z.of_nat (length (filter (λ b, b = true) matched)).

Lemma count_true_cons b matched :
  count_true (b :: matched) = (if b then 1 else 0) + count_true matched.
Proof. unfold count_true. rewrite filter_cons. by destruct b; simpl; [lia|]. Qed.

Lemma match_positions_Ok s keys pre matched n r :
  (length keys ≤ length matched)%nat →
  match_positions s keys (length pre) (pre ++ matched) n = Ok r →
  r = (pre ++ mark (key s) keys matched, n + count_true (mark (key s) keys matched) - count_true matched) ∧
  (is_signer s = true ∨ mark (key s) keys matched = matched).
Proof.
  revert pre matched n. induction keys as [|k keys IH]; intros pre [|b matched] n Hle;
    cbn [length] in Hle; cbn [match_positions mark]; [|..|lia|].
  1-2: intros [= <-]; split; [f_equal; lia|by right].
  rewrite list_lookup_middle by done. cbn [default].
  rewrite !count_true_cons.
  assert (Hpre : ∀ b', pre ++ b' :: matched = (pre ++ [b']) ++ matched)
    by (intros; by rewrite <-app_assoc).
  assert (Hlen : ∀ b', S (length pre) = length (pre ++ [b']))
    by (intros; rewrite length_app; simpl; lia).
  assert (Hmark : ∀ b', pre ++ b' :: mark (key s) keys matched =
    (pre ++ [b']) ++ mark (key s) keys matched) by (intros; by rewrite <-app_assoc).
  destruct b; cbn [negb orb].
  - rewrite andb_false_r. rewrite (Hlen true), Hpre. intros H.
    apply IH in H as [-> H]; [|lia]. split; [|destruct H as [|H]; [by left|right; by rewrite H]].
    rewrite Hmark. f_equal; lia.
  - destruct (k =? key s); cbn [andb].
    + destruct (is_signer s) eqn:Hs; cbn [negb]; [|done].
      rewrite insert_middle, (Hlen true). intros H. apply IH in H as [-> _]; [|lia].
      split; [|by left]. rewrite Hmark. f_equal; lia.
    + rewrite (Hlen false), Hpre. intros H.
      apply IH in H as [-> H]; [|lia]. split; [|destruct H as [|H]; [by left|right; by rewrite H]].
      rewrite Hmark. f_equal; lia.
Qed.

Lemma match_positions_total s keys pre matched n : is_signer s = true →
  (length keys ≤ length matched)%nat →
  is_ok (match_positions s keys (length pre) (pre ++ matched) n) = true.
Proof.
  intros Hs. revert pre matched n.
  induction keys as [|k keys IH]; intros pre [|b matched] n Hle;
    cbn [length] in Hle; cbn [match_positions]; [done..|lia|].
  rewrite list_lookup_middle by done. rewrite Hs. cbn [default negb].
  assert (Hlen : ∀ b', S (length pre) = length (pre ++ [b']))
    by (intros; rewrite length_app; simpl; lia).
  case_match.
  - rewrite insert_middle, (Hlen true). apply IH. lia.
  - rewrite (Hlen b), (app_snoc pre b matched). apply IH. lia.
Qed.

(** The marks as a function of the keys. *)
Lemma mark_fmap k keys rest (f : Pubkey → bool) :
  mark k keys ((f <$> keys) ++ rest) = ((λ k', f k' || (k' =? k)) <$> keys) ++ rest.
Proof.
  induction keys as [|k' keys IH]; cbn; [by destruct rest|]. by rewrite IH.
Qed.

Lemma count_true_fmap keys n (f : Pubkey → bool) :
  count_true ((f <$> keys) ++ replicate n false) =
  Z.of_nat (length (filter (λ k, f k = true) keys)).
Proof.
  induction keys as [|k keys IH]; cbn [fmap list_fmap app].
  - induction n; simpl; rewrite ?count_true_cons; [done|]. rewrite IHn. done.
  - rewrite count_true_cons, IH, filter_cons. destruct (f k); simpl; lia.
Qed.

Context (ms : PodMultisig) (Hn : (Z.to_nat (ms_n ms) ≤ MAX_SIGNERS)%nat)
  (Hlen : length (ms_signers ms) = MAX_SIGNERS).
Let keys := take (Z.to_nat (ms_n ms)) (ms_signers ms).
Let rest := replicate (MAX_SIGNERS - Z.to_nat (ms_n ms)) false.

Lemma match_signers_Ok signers (f : Pubkey → bool) r :
  match_signers ms signers ((f <$> keys) ++ rest)
    (count_true ((f <$> keys) ++ rest)) = Ok r →
  ∃ g, r = ((g <$> keys) ++ rest, count_true ((g <$> keys) ++ rest)) ∧
    (∀ k, k ∈ keys → g k = true → f k = true ∨ signed signers k) ∧
    (∀ k, g k = f k || bool_decide (k ∈ key <$> signers)).
Proof using Hn Hlen.
  revert f. induction signers as [|s signers IH]; intros f; cbn [match_signers].
  { intros [= <-]. exists f. split; [done|]. split; [by left|].
    intros k. by rewrite orb_false_r. }
  rewrite (proj2 (Nat.ltb_ge _ _)) by done. fold keys.
  intros ([m n] & H1 & H2)%bind_Ok.
  apply (match_positions_Ok s keys []) in H1 as [[= -> ->] Hs].
  2: { rewrite length_app, length_fmap. lia. }
  cbn [app] in H2. rewrite mark_fmap in H2, Hs.
  replace (_ + _ - _) with (count_true (((λ k', f k' || (k' =? key s)) <$> keys) ++ rest))
    in H2 by lia.
  apply IH in H2 as (g & -> & Hg1 & Hg2). exists g. split; [done|]. split.
  - intros k Hk Hgk. destruct (Hg1 k Hk Hgk) as [Hf|Hf].
    2: { right. by apply Exists_cons_tl. }
    destruct Hs as [Hs|Hs].
    + apply orb_true_iff in Hf as [|Hf]; [by left|]. apply Z.eqb_eq in Hf as ->.
      right. by apply Exists_cons_hd.
    + left. apply app_inj_1 in Hs as [Hs _]; [|by rewrite !length_fmap].
      apply list_elem_of_lookup in Hk as [i Hi].
      apply (f_equal (.!! i)) in Hs. rewrite !list_lookup_fmap, Hi in Hs.
      injection Hs as Hs. by rewrite <-Hs.
  - intros k. rewrite Hg2, fmap_cons, <-orb_assoc. f_equal.
    destruct (Z.eqb_spec k (key s)) as [->|]; cbn.
    + symmetry. apply bool_decide_eq_true. by left.
    + apply bool_decide_ext. rewrite elem_of_cons. naive_solver.
Qed.

Lemma match_signers_total signers matched n :
  length matched = MAX_SIGNERS → (∀ s, s ∈ signers → is_signer s = true) →
  is_ok (match_signers ms signers matched n) = true.
Proof using Hn Hlen.
  revert matched n. induction signers as [|s signers IH]; intros matched n Hm Hs;
    cbn [match_signers]; [done|].
  rewrite (proj2 (Nat.ltb_ge _ _)) by done. fold keys.
  assert (Hk : (length keys ≤ length matched)%nat).
  { subst keys. rewrite length_take. lia. }
  assert (Hsig : is_signer s = true) by (apply Hs; by left).
  pose proof (match_positions_total s keys [] matched n Hsig Hk) as Ht.
  cbn [app length] in Ht. apply is_ok_spec in Ht as [[m n'] Ht].
  rewrite Ht, Ok_bind. apply (match_positions_Ok s keys [] matched) in Ht as [[= -> ->] _]; [|done].
  apply IH; [|intros; apply Hs; by right]. rewrite <-Hm. clear.
  revert matched. induction keys; intros []; simpl; auto.
Qed.

Lemma replicate_marks : replicate MAX_SIGNERS false = ((λ _, false) <$> keys) ++ rest.
Proof using Hn Hlen.
  subst keys rest. rewrite (const_fmap _ _ false) by done. rewrite length_take, <-replicate_add. f_equal. lia.
Qed.

Lemma count_start : count_true (((λ _, false) <$> keys) ++ rest) = 0.
Proof using.
  subst rest. rewrite count_true_fmap. clear. by induction keys.
Qed.

Lemma match_signers_count signers m n :
  match_signers ms signers (replicate MAX_SIGNERS false) 0 = Ok (m, n) →
  n = Z.of_nat (num_signed ms signers).
Proof using Hn Hlen.
  rewrite replicate_marks. rewrite <-count_start. intros H.
  apply match_signers_Ok in H as (g & [= _ ->] & H1 & H2).
  subst rest. rewrite count_true_fmap. unfold num_signed. fold keys. do 2 f_equal.
  apply list_filter_iff_elem. intros k Hk. split.
  - intros Hg. by destruct (H1 k Hk Hg).
  - intros Hs. rewrite H2. cbn. apply bool_decide_eq_true.
    apply Exists_exists in Hs as (s & Hs & <- & _). apply list_elem_of_fmap. by exists s.
Qed.
End multisig.

Section validate_owner.
Context `{rt : Runtime}.

Lemma validate_owner_key held w pid owner info len signers :
  validate_owner held w pid owner info len signers = Ok tt → key info = owner.
Proof.
  unfold validate_owner. destruct (Z.eqb_spec owner (key info)); [done|discriminate].
Qed.

(** Owners that are not multisigs sign themselves. *)
Lemma validate_owner_single held w pid owner info len signers :
  len ≠ PodMultisig_SIZE_OF →
  validate_owner held w pid owner info len signers = Ok tt ↔
    key info = owner ∧ is_signer info = true.
Proof.
  intros Hl. unfold validate_owner. rewrite (proj2 (Nat.eqb_neq _ _) Hl), andb_false_r.
  destruct (Z.eqb_spec owner (key info)), (is_signer info); simpl; naive_solver.
Qed.

Lemma pod_multisig_from_bytes_Ok d ms : pod_multisig_from_bytes d = Ok ms →
  length (ms_signers ms) = MAX_SIGNERS.
Proof.
  unfold pod_multisig_from_bytes. case_match; [|done]. intros [= <-].
  apply length_array_read.
Qed.

(** Owners that are: m of the n keys signed. *)
Lemma validate_owner_multi held w pid owner info signers ms :
  info_owner w info = pid → key info ∉ held → key info = owner →
  pod_multisig_from_bytes (info_data w info) = Ok ms →
  (Z.to_nat (ms_n ms) ≤ MAX_SIGNERS)%nat →
  (validate_owner held w pid owner info PodMultisig_SIZE_OF signers = Ok tt →
     ms_m ms ≤ Z.of_nat (num_signed ms signers)) ∧
  (ms_m ms ≤ Z.of_nat (num_signed ms signers) →
     (∀ s, s ∈ signers → is_signer s = true) →
     validate_owner held w pid owner info PodMultisig_SIZE_OF signers = Ok tt).
Proof.
  intros Ho Hh Hk Hms Hn. unfold validate_owner.
  rewrite Hk, Ho, !Z.eqb_refl, Nat.eqb_refl. cbn [negb andb].
  unfold borrow. rewrite bool_decide_eq_false_2, Ok_bind, Hms, Ok_bind by done.
  pose proof (pod_multisig_from_bytes_Ok _ _ Hms) as Hlen. split.
  - intros ([m n] & H & Hm)%bind_Ok. apply match_signers_count in H as ->; [|done..].
    apply throw_if_Ok, Z.ltb_ge in Hm. done.
  - intros Hm Hs.
    pose proof (match_signers_total ms Hn Hlen signers (replicate MAX_SIGNERS false) 0
      (length_replicate _ _) Hs) as [[m n] Ht]%is_ok_spec.
    rewrite Ht, Ok_bind. apply match_signers_count in Ht as ->; [|done..].
    by rewrite (proj2 (Z.ltb_ge _ _)).
Qed.
End validate_owner.

(** C27: a multisig authority is m-of-n.  When the owner is an initialized-size account
    of the program, its signature is valid only if at least [m] of its [n] key
    positions signed among the accounts given, and it is valid whenever they did
    and every account given signed; an owner of any other size signs itself. *)
Theorem validate_owner_multisig (rt : Runtime) held w pid owner info len signers :
  (len ≠ PodMultisig_SIZE_OF →
     validate_owner held w pid owner info len signers = Ok tt ↔
     key info = owner ∧ is_signer info = true) ∧
  (len = PodMultisig_SIZE_OF → info_owner w info = pid → key info ∉ held → key info = owner →
     ∀ ms, pod_multisig_from_bytes (info_data w info) = Ok ms →
       (Z.to_nat (ms_n ms) ≤ MAX_SIGNERS)%nat →
       (validate_owner held w pid owner info len signers = Ok tt →
          ms_m ms ≤ Z.of_nat (num_signed ms signers)) ∧
       (ms_m ms ≤ Z.of_nat (num_signed ms signers) →
          (∀ s, s ∈ signers → is_signer s = true) →
          validate_owner held w pid owner info len signers = Ok tt)).
Proof.
  split; [apply validate_owner_single|].
  intros -> Ho Hh Hk ms Hms Hn. by apply validate_owner_multi.
Qed.
