(* ===== verification/Transfer.v ===== *)
(** * Transfers: [Processor::process_transfer]

    Tokens move from one account to another, with the fee of the mint withheld
    in the destination.  The handler is cut where the source computes one value
    at a time: what the mint says ([transfer_mint]), who authorises
    ([transfer_authority]), what the destination allows and receives
    ([transfer_credit]) and the transfer hook ([transfer_hook_call]). *)
From S2P Require Import Prelude Codec Errors Runtime Pod State ExtensionType ExtensionData Tlv.
From S2P Require Import StateExt Fee Authority.

Inductive TransferInstruction :=
| TransferUnchecked
| TransferChecked (decimals : Z)
| TransferCheckedWithFee (decimals fee : Z).

(** [ConfidentialTransferAccount::non_confidential_transfer_allowed] *)
Definition non_confidential_transfer_allowed (c : ConfidentialTransferAccount) : res unit :=
  throw_if (negb (pod_bool (cta_allow_non_confidential_credits c)))
    (tok NonConfidentialTransfersDisabled).

Section transfer.
Context `{rt : Runtime}.
Implicit Types (w : world) (source destination account : PodStateMut PodAccount).

(** The mint account of a checked transfer. *)
Definition transfer_expected_mint (ti : TransferInstruction) (accounts : list AccountInfo) :
    res (option (AccountInfo * Z) * list AccountInfo) :=
  match ti with
  | TransferUnchecked => Ok (None, accounts)
  | TransferChecked decimals | TransferCheckedWithFee decimals _ =>
      '(mint_info, accounts) ← next_account_info accounts;
      Ok (Some (mint_info, decimals), accounts)
  end.

(** The fee, the permanent delegate and the hook program of the mint. *)
Definition transfer_mint (held : list Pubkey) w source
    (expected_mint_info : option (AccountInfo * Z)) (amount : Z) :
    res (Z * option Pubkey * option Pubkey) :=
  match expected_mint_info with
  | Some (mint_info, expected_decimals) =>
      throw_if (negb (acc_mint (base source) =? key mint_info)) (tok MintMismatch);;
      mint_data ← try_borrow_data held w mint_info;
      mint ← unpack_ref PodMint mint_data;
      throw_if (negb (expected_decimals =? decimals (ref_base mint))) (tok MintDecimalsMismatch);;
      fee ← match get_mint_ext TransferFeeConfig (ref_tlv mint) with
            | Ok transfer_fee_config =>
                clock ← clock_get;
                ok_or (calculate_epoch_fee transfer_fee_config (epoch clock) amount)
                  (tok Overflow)
            | _ => Ok 0
            end;
      match get_mint_ext PausableConfig (ref_tlv mint) with
      | Ok extension => throw_if (pod_bool (pc_paused extension)) (tok MintPaused)
      | _ => Ok tt
      end;;
      Ok (fee, get_permanent_delegate PodMint (ref_tlv mint),
          get_program_id PodMint (ref_tlv mint))
  | None =>
      throw_if (is_ok (get_account_ext TransferHookAccount (tlv_data source)))
        (tok MintRequiredForTransfer);;
      throw_if (is_ok (get_account_ext TransferFeeAmount (tlv_data source)))
        (tok MintRequiredForTransfer);;
      throw_if (is_ok (get_account_ext PausableAccount (tlv_data source)))
        (tok MintRequiredForTransfer);;
      Ok (0, None, None)
  end.

(** The CPI guard of a transfer or a burn: blocks the owner's authority. *)
Definition cpi_guard_blocks source (authority_info : AccountInfo) : bool :=
  match get_account_ext CpiGuard (tlv_data source) with
  | Ok cpi_guard => (key authority_info =? acc_owner (base source)) &&
      pod_bool (cg_lock_cpi cpi_guard) && in_cpi
  | _ => false
  end.

(** A delegate spends [amount] of its allowance. *)
Definition spend_allowance (amount : Z) (a : PodAccount) : res PodAccount :=
  delegated_amount' ← ok_or (checked_sub 64 (delegated_amount a) amount) (tok Overflow);
  let a := set_delegated_amount delegated_amount' a in
  Ok (if delegated_amount' =? 0 then set_delegate co_none a else a).

(** The match on the delegate and the permanent delegate: the base state of
    the source after it. *)
Definition transfer_authority (held : list Pubkey) w (program_id : Pubkey) (base : PodAccount)
    (maybe_permanent_delegate : option Pubkey) (self_transfer : bool) (amount : Z)
    (authority_info : AccountInfo) (authority_info_data_len : nat)
    (signers : list AccountInfo) : res PodAccount :=
  let validate owner :=
    validate_owner held w program_id owner authority_info authority_info_data_len signers in
  if bool_decide (maybe_permanent_delegate = Some (key authority_info)) then
    validate (key authority_info);;
    Ok base
  else if bool_decide (co_get (delegate base) = Some (key authority_info)) then
    validate (key authority_info);;
    throw_if (delegated_amount base <? amount) (tok InsufficientFunds);;
    (if self_transfer then Ok base else spend_allowance amount base)
  else
    validate (acc_owner base);;
    Ok base.

(** The destination after it received [amount], of which [fee] is withheld. *)
Definition transfer_credit destination (amount fee : Z) : res (PodStateMut PodAccount) :=
  credited_amount ← ok_or (checked_sub 64 amount fee) (tok Overflow);
  new_amount ←
    ok_or (checked_add 64 (Pod.amount (base destination)) credited_amount) (tok Overflow);
  let destination := with_base (set_amount new_amount (base destination)) destination in
  if 0 <? fee then
    match get_account_ext TransferFeeAmount (tlv_data destination) with
    | Ok extension =>
        new_withheld_amount ←
          ok_or (checked_add 64 (tfa_withheld_amount extension) fee) (tok Overflow);
        Ok (with_tlv (put_extension PodAccount (mkTransferFeeAmount new_withheld_amount)
              (tlv_data destination)) destination)
    | _ => Err (tok InvalidState)
    end
  else Ok destination.

(** The lamports of a native transfer follow the tokens. *)
Definition transfer_lamports w (source_info destination_info : AccountInfo) (amount : Z) :
    res world :=
  source_lamports ← ok_or (checked_sub 64 (info_lamports w source_info) amount) (tok Overflow);
  let w := set_lamports w (key source_info) source_lamports in
  destination_lamports ←
    ok_or (checked_add 64 (info_lamports w destination_info) amount) (tok Overflow);
  Ok (set_lamports w (key destination_info) destination_lamports).

(** The checks on the destination. *)
Definition transfer_destination_checks source destination : res unit :=
  throw_if (is_frozen (base destination)) (tok AccountFrozen);;
  throw_if (negb (acc_mint (base source) =? acc_mint (base destination))) (tok MintMismatch);;
  (if memo_required PodAccount (tlv_data destination)
   then check_previous_sibling_instruction_is_memo else Ok tt);;
  match get_account_ext ConfidentialTransferAccount (tlv_data destination) with
  | Ok confidential_transfer_state =>
      non_confidential_transfer_allowed confidential_transfer_state
  | _ => Ok tt
  end.

(** Write both accounts back, with the transfer hook called in between when
    the mint has one. *)
Definition write_account w (i : AccountInfo) account : world :=
  set_data w (key i) (state_bytes PodAccount account).

Definition transfer_hook_call w (source_info destination_info authority_info : AccountInfo)
    (accounts : list AccountInfo) source destination
    (expected_mint_info : option (AccountInfo * Z)) (hook : option Pubkey) (amount : Z) :
    res world :=
  match hook with
  | None => Ok (write_account (write_account w source_info source)
                  destination_info destination)
  | Some program_id =>
      match expected_mint_info with
      | Some (mint_info, _) =>
          source_tlv ← set_transferring PodAccount (tlv_data source);
          destination_tlv ← set_transferring PodAccount (tlv_data destination);
          let w := write_account (write_account w source_info (with_tlv source_tlv source))
                     destination_info (with_tlv destination_tlv destination) in
          w ← invoke_execute program_id source_info mint_info destination_info
                authority_info accounts amount w;
          w ← unset_transferring [] w source_info;
          unset_transferring [] w destination_info
      | None => Err (tok MintRequiredForTransfer)
      end
  end.

(** The checks on the source before the mint is looked at. *)
Definition transfer_source_checks source (amount : Z) : res unit :=
  throw_if (is_frozen (base source)) (tok AccountFrozen);;
  throw_if (Pod.amount (base source) <? amount) (tok InsufficientFunds);;
  throw_if (is_ok (get_account_ext NonTransferableAccount (tlv_data source)))
    (tok Errors.NonTransferable).

Definition transfer_fee_check (ti : TransferInstruction) (calculated_fee : Z) : res unit :=
  match ti with
  | TransferCheckedWithFee _ fee => throw_if (negb (calculated_fee =? fee)) (tok FeeMismatch)
  | _ => Ok tt
  end.

(** [Processor::process_transfer] *)
Definition process_transfer (program_id : Pubkey) (accounts : list AccountInfo) (amount : Z)
    (transfer_instruction : TransferInstruction) w : res world :=
  '(source_info, accounts) ← next_account_info accounts;
  '(expected_mint_info, accounts) ← transfer_expected_mint transfer_instruction accounts;
  '(destination_info, accounts) ← next_account_info accounts;
  '(authority_info, accounts) ← next_account_info accounts;
  let authority_info_data_len := data_len w authority_info in
  source_data ← borrow [] w source_info;
  let held := [key source_info] in
  source ← unpack_account source_data;
  transfer_source_checks source amount;;
  '(calculated_fee, maybe_permanent_delegate, maybe_transfer_hook_program_id) ←
    transfer_mint held w source expected_mint_info amount;
  transfer_fee_check transfer_instruction calculated_fee;;
  let self_transfer := key source_info =? key destination_info in
  throw_if (cpi_guard_blocks source authority_info) (tok CpiGuardTransferBlocked);;
  source_base ← transfer_authority held w program_id (base source) maybe_permanent_delegate
    self_transfer amount authority_info authority_info_data_len accounts;
  let source_amount := Pod.amount (base source) in
  let source := with_base source_base source in
  check_program_account (info_owner w source_info);;
  check_program_account (info_owner w destination_info);;
  if self_transfer then
    (if memo_required PodAccount (tlv_data source)
     then check_previous_sibling_instruction_is_memo else Ok tt);;
    Ok w
  else
    destination_data ← borrow held w destination_info;
    destination ← unpack_account destination_data;
    transfer_destination_checks source destination;;
    new_amount ← ok_or (checked_sub 64 source_amount amount) (tok Overflow);
    let source := with_base (set_amount new_amount (base source)) source in
    destination ← transfer_credit destination amount calculated_fee;
    w ← (if is_native (base source)
         then transfer_lamports w source_info destination_info amount else Ok w);
    transfer_hook_call w source_info destination_info authority_info accounts source destination
      expected_mint_info maybe_transfer_hook_program_id amount.
End transfer.
