(* ===== verification/AccountFacts.v ===== *)
(** * Accounts in the world

    Reading an account as a token account or a mint, writing it back, and the
    fields an update keeps in range: the lemmas every handler's proof uses. *)
From S2P Require Import Prelude Codec Errors Runtime Pod State ExtensionType ExtensionData Tlv.
From S2P Require Import TlvFacts TlvAlloc StateExt Fee Authority Transfer.

(** The token account, or the mint, stored under a key. *)
Definition account_at `{Runtime} (w : world) (k : Pubkey) : option (PodStateMut PodAccount) :=
  ok_opt (unpack_account (data (get_account w k))).
Definition mint_at `{Runtime} (w : world) (k : Pubkey) : option (PodStateMut PodMint) :=
  ok_opt (unpack_mint (data (get_account w k))).

(** Tokens withheld in a token account, and all the tokens it holds. *)
Definition withheld `{Runtime} (st : PodStateMut PodAccount) : Z :=
  match get_account_ext TransferFeeAmount (tlv_data st) with
  | Ok e => tfa_withheld_amount e
  | _ => 0
  end.
Definition holding `{Runtime} (st : PodStateMut PodAccount) : Z :=
  amount (base st) + withheld st.

(** ** Fields in range *)
Lemma PodAccount_ok a : c_ok PodAccount_codec a ↔
  (in_uint 256 (acc_mint a) ∧ in_uint 256 (acc_owner a) ∧ in_uint 64 (amount a) ∧
   c_ok (coption_codec 32) (delegate a) ∧ in_uint 8 (acc_state a) ∧
   c_ok (coption_codec 8) (is_native_opt a) ∧ in_uint 64 (delegated_amount a) ∧
   c_ok (coption_codec 32) (close_authority a)).
Proof. reflexivity. Qed.

Lemma PodMint_ok m : c_ok PodMint_codec m ↔
  (c_ok (coption_codec 32) (mint_authority m) ∧ in_uint 64 (supply m) ∧
   in_uint 8 (decimals m) ∧ in_uint 8 (mint_is_initialized m) ∧
   c_ok (coption_codec 32) (freeze_authority m)).
Proof. reflexivity. Qed.

Lemma co_none_ok n : c_ok (coption_codec n) co_none.
Proof.
  split; cbn [c_ok uint coption_codec iso_codec pair_codec fst snd co_none co_option co_value];
    unfold in_uint, NONE; (split; [done|]; apply Z.pow_pos_nonneg; lia).
Qed.
#[export] Hint Resolve co_none_ok : accounts.

Lemma co_some_ok n k : 0 ≤ k < 2 ^ (8 * Z.of_nat n) → c_ok (coption_codec n) (co_some k).
Proof. intros Hk. split; [|exact Hk].
  cbn [c_ok uint coption_codec iso_codec pair_codec fst snd co_some co_option].
  unfold in_uint, SOME. split; [done|]. by apply Z.pow_gt_1. Qed.
#[export] Hint Resolve co_some_ok : accounts.

Ltac solve_ok :=
  rewrite PodAccount_ok in *; destruct_and?;
  cbn [acc_mint acc_owner amount delegate acc_state is_native_opt delegated_amount
       close_authority set_amount set_delegate set_delegated_amount set_owner_field
       set_close_authority set_state];
  split_and?; eauto with accounts.

Section updates.
Context `{rt : Runtime}.
Implicit Types (a : PodAccount).

Lemma set_amount_ok a v : c_ok base_codec a → in_uint 64 v → c_ok base_codec (set_amount v a).
Proof. cbn [base_codec PodAccount_PodState]. intros. solve_ok. Qed.

Lemma set_delegated_amount_ok a v : c_ok base_codec a → in_uint 64 v →
  c_ok base_codec (set_delegated_amount v a).
Proof. cbn [base_codec PodAccount_PodState]. intros. solve_ok. Qed.

Lemma set_delegate_ok a o : c_ok base_codec a → c_ok (coption_codec 32) o →
  c_ok base_codec (set_delegate o a).
Proof. cbn [base_codec PodAccount_PodState]. intros. solve_ok. Qed.
End updates.

(** ** Reading and writing accounts *)
Section world.
Context `{rt : Runtime}.
Implicit Types (w : world) (st : PodStateMut PodAccount) (i : AccountInfo).

Lemma account_at_Some w k st : account_at w k = Some st ↔
  unpack_account (data (get_account w k)) = Ok st.
Proof. apply ok_opt_Some. Qed.

Lemma mint_at_Some w k m : mint_at w k = Some m ↔
  unpack_mint (data (get_account w k)) = Ok m.
Proof. apply ok_opt_Some. Qed.

Lemma account_at_ok w k st : account_at w k = Some st → state_ok PodAccount st.
Proof. rewrite account_at_Some. intros []%unpack_Ok. done. Qed.

Lemma account_at_data w w' k : data (get_account w' k) = data (get_account w k) →
  account_at w' k = account_at w k.
Proof. unfold account_at. by intros ->. Qed.

Lemma mint_at_data w w' k : data (get_account w' k) = data (get_account w k) →
  mint_at w' k = mint_at w k.
Proof. unfold mint_at. by intros ->. Qed.

Lemma data_set_data w k k' d :
  data (get_account (set_data w k d) k') = if decide (k = k') then d else data (get_account w k').
Proof. rewrite get_set_data. by case_decide. Qed.

Lemma data_set_lamports w k k' l :
  data (get_account (set_lamports w k l) k') = data (get_account w k').
Proof. rewrite get_set_lamports. case_decide; naive_solver. Qed.

Lemma owner_set_data w k k' d :
  owner (get_account (set_data w k d) k') = owner (get_account w k').
Proof. rewrite get_set_data. case_decide; naive_solver. Qed.

Lemma owner_set_lamports w k k' l :
  owner (get_account (set_lamports w k l) k') = owner (get_account w k').
Proof. rewrite get_set_lamports. case_decide; naive_solver. Qed.

Lemma lamports_set_data w k k' d :
  lamports (get_account (set_data w k d) k') = lamports (get_account w k').
Proof. rewrite get_set_data. case_decide; naive_solver. Qed.

Lemma lamports_set_lamports w k k' l :
  lamports (get_account (set_lamports w k l) k') =
    if decide (k = k') then l else lamports (get_account w k').
Proof. rewrite get_set_lamports. by case_decide. Qed.

(** An account that was written back is read back. *)
Lemma account_at_write w i st : state_ok PodAccount st →
  account_at (write_account w i st) (key i) = Some st.
Proof.
  intros Hst. apply account_at_Some. unfold write_account.
  rewrite data_set_data, decide_True by done. by apply unpack_state_bytes.
Qed.

Lemma account_at_write_ne w i st k : key i ≠ k →
  account_at (write_account w i st) k = account_at w k.
Proof.
  intros Hk. apply account_at_data. unfold write_account.
  by rewrite data_set_data, decide_False.
Qed.

(** Updates of the base state keep the account well formed. *)
Lemma state_ok_base st a : state_ok PodAccount st → c_ok base_codec a →
  acc_state a = acc_state (base st) → state_ok PodAccount (with_base a st).
Proof.
  intros Hst Ha Hs. apply state_ok_with_base; [done..|].
  destruct Hst as [_ Hi _ _]. cbn in *. unfold PodAccount_is_initialized in *. by rewrite Hs.
Qed.

Lemma state_ok_put {X} `{!Extension X} st (x x' : X) : state_ok PodAccount st →
  get_account_ext X (tlv_data st) = Ok x →
  state_ok PodAccount (with_tlv (put_extension PodAccount x' (tlv_data st)) st).
Proof.
  intros Hst Hx. apply state_ok_with_tlv; [done|]. by eapply length_put_extension.
Qed.

(** The withheld amount after an extension was written. *)
Lemma withheld_put st n x : get_account_ext TransferFeeAmount (tlv_data st) = Ok x →
  in_uint 64 n →
  withheld (with_tlv (put_extension PodAccount (mkTransferFeeAmount n) (tlv_data st)) st) = n.
Proof.
  intros Hx Hn. unfold withheld. cbn [tlv_data with_tlv].
  by rewrite (get_put_extension _ x).
Qed.

Lemma withheld_put_ne {X} `{!Extension X} st (x x' : X) :
  get_account_ext X (tlv_data st) = Ok x → TYPE X ≠ ExtensionType.TransferFeeAmount →
  withheld (with_tlv (put_extension PodAccount x' (tlv_data st)) st) = withheld st.
Proof.
  intros Hx HX. unfold withheld. cbn [tlv_data with_tlv].
  by rewrite (get_put_extension_ne _ x).
Qed.

Lemma withheld_in_uint st : in_uint 64 (withheld st).
Proof.
  unfold withheld. destruct (get_extension _ _ _) eqn:E; [|by split..].
  apply get_extension_ok in E. exact E.
Qed.

Lemma withheld_ok st : 0 ≤ withheld st.
Proof. apply withheld_in_uint. Qed.
End world.

(** ** Mints *)
Definition write_mint `{Runtime} (w : world) (i : AccountInfo) (m : PodStateMut PodMint) : world :=
  set_data w (key i) (state_bytes PodMint m).

Section mints.
Context `{rt : Runtime}.
Implicit Types (w : world) (m : PodStateMut PodMint) (i : AccountInfo).

Lemma mint_at_ok w k m : mint_at w k = Some m → state_ok PodMint m.
Proof. rewrite mint_at_Some. intros []%unpack_Ok. done. Qed.

Lemma mint_at_write w i m : state_ok PodMint m →
  mint_at (write_mint w i m) (key i) = Some m.
Proof.
  intros Hm. apply mint_at_Some. unfold write_mint.
  rewrite data_set_data, decide_True by done. by apply unpack_state_bytes.
Qed.

Lemma set_supply_ok a v : c_ok (base_codec (S:=PodMint)) a → in_uint 64 v →
  c_ok base_codec (set_supply v a).
Proof. intros (H1 & _ & H2) Hv. exact (conj H1 (conj Hv H2)). Qed.

Lemma mint_ok_supply m v : state_ok PodMint m → in_uint 64 v →
  state_ok PodMint (with_base (set_supply v (base m)) m).
Proof.
  intros Hm Hv. apply state_ok_with_base; [done| |apply Hm].
  apply set_supply_ok; [apply Hm|done].
Qed.

(** A buffer is never both a token account and a mint. *)
Lemma unpack_account_not_mint d st : unpack_account d = Ok st → ∀ m, unpack_mint d ≠ Ok m.
Proof.
  intros [-> Hst]%unpack_Ok m [Heq Hm]%unpack_Ok.
  pose proof (length_state_bytes PodAccount st) as Hl.
  rewrite Heq, length_state_bytes in Hl.
  change (SIZE_OF PodMint) with 82%nat in Hl. change (SIZE_OF PodAccount) with 165%nat in Hl.
  unfold BASE_ACCOUNT_LENGTH, Account_LEN in Hl.
  assert (Hb : ∀ {S} `{PodState S} (x : PodStateMut S), account_type x = type_byte S →
    slice 165 166 (state_bytes S x) = type_byte S).
  { intros S HB HP x Hx. unfold state_bytes. rewrite Hx.
    set (rest := match type_byte S with [] => _ | _ => _ end).
    assert (rest = zeros (BASE_ACCOUNT_LENGTH - SIZE_OF S) ++ type_byte S ++ tlv_data x)
      as -> by done.
    rewrite app_assoc. apply slice_mid; [|by destruct (ACCOUNT_TYPE S)].
    rewrite length_app, length_zeros, c_write_length, base_size.
    pose proof (pad_le S). unfold BASE_ACCOUNT_LENGTH, Account_LEN in *. lia. }
  destruct (state_type _ _ Hst) as [[Hs _]|Hs], (state_type _ _ Hm) as [[Ht _]|Ht];
    rewrite Hs, Ht in Hl; try (unfold type_byte in Hl; simpl in Hl; lia).
  pose proof (Hb _ _ _ st Hs) as H1. pose proof (Hb _ _ _ m Ht) as H2.
  rewrite Heq, H2 in H1. discriminate H1.
Qed.
End mints.
