(* ===== verification/TransferFacts.v ===== *)
(** * What a transfer does

    The effect of [process_transfer] on the accounts of the world, and the
    theorems on transfers. *)
From S2P Require Import Prelude Codec Errors Runtime Pod State ExtensionType ExtensionData Tlv.
From S2P Require Import TlvFacts TlvAlloc StateExt Fee Authority Transfer AccountFacts.

(** The accounts of a transfer instruction. *)
Definition transfer_accounts (ti : TransferInstruction)
    (source mint destination authority : AccountInfo) (signers : list AccountInfo) :
    list AccountInfo :=
  match ti with
  | TransferUnchecked => source :: destination :: authority :: signers
  | _ => source :: mint :: destination :: authority :: signers
  end.

(** The runtime's rule on cross-program calls: a program that is not called
    again (and a program cannot be, by its own callees) finds the data of the
    accounts it owns as it left it. *)
Definition hook_keeps_data (rt : Runtime) : Prop :=
  ∀ p s m d a l n w w', invoke_execute p s m d a l n w = Ok w' →
    ∀ k, owner (get_account w k) = id → data (get_account w' k) = data (get_account w k).

Section facts.
Context `{rt : Runtime}.
Implicit Types (w : world) (s d st : PodStateMut PodAccount).

(** ** The fee *)
Lemma calculate_fee_nonneg f x fee : c_ok TransferFee_codec f → 0 ≤ x →
  calculate_fee f x = Some fee → 0 ≤ fee.
Proof.
  intros (_ & [HM _] & [Hb _]) Hx. cbn in HM, Hb. unfold calculate_fee.
  case_match; [intros [= <-]; done|].
  intros (n & Hn & (r & Hr & (r' & Hr' & [= <-])%bind_Some)%bind_Some)%bind_Some.
  apply to_uint_Some in Hr' as [-> [Hr' _]]. lia.
Qed.

Lemma transfer_mint_nonneg held w s expected amt fee pd hook : 0 ≤ amt →
  transfer_mint held w s expected amt = Ok (fee, pd, hook) →
  0 ≤ fee ∧ (expected = None → fee = 0 ∧ hook = None).
Proof.
  intros Hamt. unfold transfer_mint. destruct expected as [[i dec]|].
  - intros (_ & _ & (md & _ & (m & _ & (_ & _ & (f & Hf & (_ & _ & [= <- <- <-])
      %bind_Ok)%bind_Ok)%bind_Ok)%bind_Ok)%bind_Ok)%bind_Ok.
    split; [|done]. destruct (get_extension _ _ _) as [c| |] eqn:Hc; [|injection Hf as <-; done..].
    apply bind_Ok in Hf as (clk & _ & Hf). apply ok_or_Ok in Hf.
    unfold calculate_epoch_fee, get_epoch_fee in Hf.
    apply get_extension_ok in Hc as (_ & _ & _ & Ho & Hn).
    destruct (_ <=? _);
      [exact (calculate_fee_nonneg _ _ _ Hn Hamt Hf)|exact (calculate_fee_nonneg _ _ _ Ho Hamt Hf)].
  - intros (_ & _ & (_ & _ & (_ & _ & [= <- <- <-])%bind_Ok)%bind_Ok)%bind_Ok.
    split; [lia|done].
Qed.

(** ** The source's allowance *)
Lemma spend_allowance_Ok amt a a' : spend_allowance amt a = Ok a' →
  c_ok base_codec a → c_ok base_codec a' ∧ delegated_amount a' = delegated_amount a - amt ∧
  delegate a' = (if delegated_amount a =? amt then co_none else delegate a) ∧
  ∃ g o, a' = set_delegate o (set_delegated_amount g a).
Proof.
  intros (g & Hg & [= <-])%bind_Ok Hok. apply ok_or_Ok, checked_sub_Some in Hg as [-> Hg].
  assert (c_ok base_codec (set_delegated_amount (delegated_amount a - amt) a)) as Hok'
    by by apply set_delegated_amount_ok.
  destruct (Z.eqb_spec (delegated_amount a - amt) 0).
  - rewrite (proj2 (Z.eqb_eq _ _)) by lia. split; [apply set_delegate_ok; auto with accounts|].
    split; [done|]. split; [done|]. by eexists _, _.
  - rewrite (proj2 (Z.eqb_neq _ _)) by lia. split; [done|]. split; [done|]. split; [done|].
    exists (delegated_amount a - amt), (delegate a). by destruct a.
Qed.

Definition same_allowance (a a' : PodAccount) : Prop :=
  delegate a' = delegate a ∧ delegated_amount a' = delegated_amount a.

(** Who may move the tokens of [a], and what is left of its allowance. *)
Definition authorised (a a' : PodAccount) (pd : option Pubkey) (self : bool) (amt : Z)
    (k : Pubkey) : Prop :=
  (pd = Some k ∧ same_allowance a a') ∨
  (co_get (delegate a) = Some k ∧ amt ≤ delegated_amount a ∧
   (if self then same_allowance a a'
    else delegated_amount a' = delegated_amount a - amt ∧
         delegate a' = if delegated_amount a =? amt then co_none else delegate a)) ∨
  (k = acc_owner a ∧ same_allowance a a').

Lemma transfer_authority_Ok held w pid a pd self amt auth len signers a' :
  transfer_authority held w pid a pd self amt auth len signers = Ok a' →
  c_ok base_codec a →
  validate_owner held w pid (key auth) auth len signers = Ok tt ∧
  authorised a a' pd self amt (key auth) ∧ c_ok base_codec a' ∧
  ∃ g o, a' = set_delegate o (set_delegated_amount g a).
Proof.
  intros H Hok. unfold transfer_authority in H.
  assert (Hsame : ∃ g o, a = set_delegate o (set_delegated_amount g a))
    by (exists (delegated_amount a), (delegate a); by destruct a).
  case_bool_decide as Hpd; [|case_bool_decide as Hdel].
  - apply bind_Ok in H as ([] & Hv & [= <-]). split; [done|]. split; [by left|]. done.
  - apply bind_Ok in H as ([] & Hv & H). split; [done|].
    apply bind_Ok in H as ([] & Hlt & H). apply throw_if_Ok, Z.ltb_ge in Hlt.
    destruct self; [injection H as <-; split; [right; by left|done]|].
    apply spend_allowance_Ok in H as (H1 & H2 & H3 & H4); [|done].
    split; [right; by left|done].
  - apply bind_Ok in H as ([] & Hv & [= <-]).
    pose proof (validate_owner_key _ _ _ _ _ _ _ Hv) as Hk. rewrite <-Hk in Hv.
    split; [done|]. split; [right; by right|done].
Qed.

(** ** The destination's credit *)
Lemma transfer_credit_Ok d amt fee d' : state_ok PodAccount d → 0 ≤ fee →
  transfer_credit d amt fee = Ok d' →
  state_ok PodAccount d' ∧ fee ≤ amt ∧
  base d' = set_amount (amount (base d) + (amt - fee)) (base d) ∧
  withheld d' = withheld d + fee ∧ account_type d' = account_type d.
Proof.
  intros Hd Hfee (c & Hc & (n & Hn & H)%bind_Ok)%bind_Ok.
  apply ok_or_Ok, checked_sub_Some in Hc as [-> [Hc _]].
  apply ok_or_Ok, checked_add_Some in Hn as [-> Hn].
  set (d1 := with_base _ d) in H. cbv zeta in H.
  change (tlv_data d1) with (tlv_data d) in H.
  assert (Hd1 : state_ok PodAccount d1).
  { apply state_ok_base; [done| |done]. apply set_amount_ok; [apply Hd|done]. }
  destruct (Z.ltb_spec 0 fee).
  - destruct (get_account_ext TransferFeeAmount (tlv_data d)) as [e| |] eqn:He; [|done..].
    apply bind_Ok in H as (m & Hm & [= <-]).
    apply ok_or_Ok, checked_add_Some in Hm as [-> Hm].
    assert (withheld d = tfa_withheld_amount e) as ->.
    { unfold withheld. by rewrite He. }
    split; [exact (state_ok_put d1 e _ Hd1 He)|]. split; [lia|]. split; [done|].
    split; [exact (withheld_put d1 _ e He Hm)|done].
  - injection H as <-. split; [done|]. split; [lia|]. split; [done|]. split; [|done].
    change (withheld d = withheld d + fee). lia.
Qed.

(** ** The lamports *)
Lemma transfer_lamports_data w i j amt w' k : transfer_lamports w i j amt = Ok w' →
  data (get_account w' k) = data (get_account w k) ∧
  owner (get_account w' k) = owner (get_account w k).
Proof.
  intros (a & _ & (b & _ & [= <-])%bind_Ok)%bind_Ok.
  by rewrite !data_set_lamports, !owner_set_lamports.
Qed.

(** ** The hook *)
Definition token_fields (st : PodStateMut PodAccount) : PodAccount * Z := (base st, withheld st).

Lemma set_transferring_Ok st l : state_ok PodAccount st →
  set_transferring PodAccount (tlv_data st) = Ok l →
  state_ok PodAccount (with_tlv l st) ∧
  token_fields (with_tlv l st) = token_fields st.
Proof.
  intros Hst (x & Hx & [= <-])%bind_Ok. split; [by eapply state_ok_put|].
  unfold token_fields. by rewrite (withheld_put_ne _ x).
Qed.

Lemma unset_transferring_Ok held w i w' : unset_transferring held w i = Ok w' →
  ∃ st st', account_at w (key i) = Some st ∧ account_at w' (key i) = Some st' ∧
    token_fields st' = token_fields st ∧
    (∀ k, k ≠ key i → data (get_account w' k) = data (get_account w k)) ∧
    (∀ k, owner (get_account w' k) = owner (get_account w k)).
Proof.
  intros (dt & Hdt & (st & Hst & (x & Hx & [= <-])%bind_Ok)%bind_Ok)%bind_Ok.
  apply borrow_Ok in Hdt as [_ ->].
  assert (Hat : account_at w (key i) = Some st) by by apply account_at_Some.
  pose proof (account_at_ok _ _ _ Hat) as Hok.
  exists st, (with_tlv (put_extension PodAccount (mkTransferHookAccount (from_bool false))
    (tlv_data st)) st).
  split; [done|]. split; [|split; [|split]].
  - apply (account_at_write w i). by eapply state_ok_put.
  - unfold token_fields. by rewrite (withheld_put_ne _ x).
  - intros k Hk. by rewrite data_set_data, decide_False.
  - intros k. apply owner_set_data.
Qed.

Lemma transfer_hook_call_Ok w i j auth accounts s d expected hook amt w' :
  hook_keeps_data rt → state_ok PodAccount s → state_ok PodAccount d → key i ≠ key j →
  info_owner w i = id → info_owner w j = id →
  transfer_hook_call w i j auth accounts s d expected hook amt = Ok w' →
  ∃ s' d', account_at w' (key i) = Some s' ∧ account_at w' (key j) = Some d' ∧
    token_fields s' = token_fields s ∧ token_fields d' = token_fields d ∧
    (∀ k, k ≠ key i → k ≠ key j → owner (get_account w k) = id →
       data (get_account w' k) = data (get_account w k)).
Proof.
  intros Hhook Hs Hd Hij Hoi Hoj H. unfold transfer_hook_call in H. destruct hook as [p|].
  - destruct expected as [[mi de]|]; [|done].
    apply bind_Ok in H as (ls & Hls & (ld & Hld & H)%bind_Ok).
    apply set_transferring_Ok in Hls as [Hs1 Hs2]; [|done].
    apply set_transferring_Ok in Hld as [Hd1 Hd2]; [|done].
    set (w1 := write_account (write_account w i _) j _) in H.
    apply bind_Ok in H as (w2 & H2 & (w3 & H3 & H4)%bind_Ok).
    pose proof (Hhook _ _ _ _ _ _ _ _ _ H2) as Hk.
    assert (Ho : ∀ k, owner (get_account w1 k) = owner (get_account w k)).
    { intros k. subst w1. unfold write_account. by rewrite !owner_set_data. }
    apply unset_transferring_Ok in H3 as (s3 & s3' & Hs3 & Hs3' & Hts & Hds & _).
    apply unset_transferring_Ok in H4 as (d4 & d4' & Hd4 & Hd4' & Htd & Hdd & _).
    assert (s3 = with_tlv ls s) as ->.
    { rewrite (account_at_data w1) in Hs3 by (apply Hk; by rewrite Ho).
      subst w1. rewrite account_at_write_ne, account_at_write in Hs3 by done. congruence. }
    assert (d4 = with_tlv ld d) as ->.
    { rewrite (account_at_data w2), (account_at_data w1) in Hd4
        by ((apply Hds; done) || (apply Hk; by rewrite Ho)).
      subst w1. rewrite account_at_write in Hd4 by done. congruence. }
    exists s3', d4'. split; [|split; [done|split; [congruence|split; [congruence|]]]].
    + rewrite <-Hs3'. apply account_at_data, Hdd. done.
    + intros k Hki Hkj Hok. rewrite Hdd, Hds, Hk by (done || by rewrite Ho).
      subst w1. unfold write_account. by rewrite !data_set_data, !decide_False.
  - injection H as <-. exists s, d.
    rewrite account_at_write_ne, !account_at_write by done.
    split; [done|]. split; [done|]. split; [done|]. split; [done|].
    intros k Hki Hkj _. unfold write_account. by rewrite !data_set_data, !decide_False.
Qed.

(** ** The whole handler *)
Definition expected_mint (ti : TransferInstruction) (mint : AccountInfo) :
    option (AccountInfo * Z) :=
  match ti with
  | TransferUnchecked => None
  | TransferChecked dec | TransferCheckedWithFee dec _ => Some (mint, dec)
  end.

Lemma process_transfer_Ok pid ti si mi di ai signers amt w w' :
  process_transfer pid (transfer_accounts ti si mi di ai signers) amt ti w = Ok w' →
  ∃ s fee pd hook a, account_at w (key si) = Some s ∧
    transfer_source_checks s amt = Ok tt ∧
    transfer_mint [key si] w s (expected_mint ti mi) amt = Ok (fee, pd, hook) ∧
    transfer_fee_check ti fee = Ok tt ∧ cpi_guard_blocks s ai = false ∧
    transfer_authority [key si] w pid (base s) pd (key si =? key di) amt ai (data_len w ai)
      signers = Ok a ∧
    info_owner w si = id ∧ info_owner w di = id ∧
    (key si = key di → w' = w) ∧
    (key si ≠ key di → ∃ d d' w1, account_at w (key di) = Some d ∧
       transfer_destination_checks (with_base a s) d = Ok tt ∧
       amt ≤ amount (base s) ∧ transfer_credit d amt fee = Ok d' ∧
       (if is_native (base (with_base a s)) then transfer_lamports w si di amt else Ok w) = Ok w1 ∧
       transfer_hook_call w1 si di ai signers
         (with_base (set_amount (amount (base s) - amt) a) s) d' (expected_mint ti mi) hook amt
       = Ok w').
Proof.
  intros H. unfold process_transfer in H.
  assert (transfer_accounts ti si mi di ai signers =
    si :: match ti with TransferUnchecked => di :: ai :: signers
          | _ => mi :: di :: ai :: signers end) as Ha by by destruct ti.
  rewrite Ha in H. cbn [next_account_info] in H. rewrite Ok_bind in H.
  assert (transfer_expected_mint ti
    match ti with TransferUnchecked => di :: ai :: signers | _ => mi :: di :: ai :: signers end =
    Ok (expected_mint ti mi, di :: ai :: signers)) as He by by destruct ti.
  rewrite He, Ok_bind in H. do 2 (cbn [next_account_info] in H; rewrite Ok_bind in H).
  apply bind_Ok in H as (dt & Hdt & H). apply borrow_Ok in Hdt as [_ ->].
  apply bind_Ok in H as (s & Hs & H). apply bind_Ok in H as ([] & Hsc & H).
  apply bind_Ok in H as ([[fee pd] hook] & Hm & H).
  apply bind_Ok in H as ([] & Hfc & H). apply bind_Ok in H as ([] & Hcpi & H).
  apply bind_Ok in H as (a & Hau & H). apply bind_Ok in H as ([] & Hoi & H).
  apply bind_Ok in H as ([] & Hoj & H).
  apply throw_if_Ok in Hcpi. apply throw_if_Ok, negb_false_iff, Z.eqb_eq in Hoi, Hoj.
  exists s, fee, pd, hook, a. apply account_at_Some in Hs.
  repeat (split; [done|]).
  destruct (Z.eqb_spec (key si) (key di)) as [Hk|Hk].
  - split; [intros _|done]. apply bind_Ok in H as ([] & _ & [= <-]). done.
  - split; [done|intros _].
    apply bind_Ok in H as (dt & Hdt & H). apply borrow_Ok in Hdt as [_ ->].
    apply bind_Ok in H as (d & Hd & H). apply account_at_Some in Hd.
    apply bind_Ok in H as ([] & Hdc & H). apply bind_Ok in H as (n & Hn & H).
    apply bind_Ok in H as (d' & Hd' & H). apply bind_Ok in H as (w1 & Hw1 & H).
    apply ok_or_Ok, checked_sub_Some in Hn as [-> [Hn _]].
    exists d, d', w1. repeat (split; [done || lia|]). done.
Qed.

(** What the mint account of a checked transfer says. *)
Lemma transfer_mint_Ok held w s mi dec amt fee pd hook :
  transfer_mint held w s (Some (mi, dec)) amt = Ok (fee, pd, hook) →
  ∃ m, mint_at w (key mi) = Some m ∧ key mi = acc_mint (base s) ∧
    dec = decimals (base m) ∧
    (match get_mint_ext TransferFeeConfig (tlv_data m) with
     | Ok c => ∃ clk, clock_get = Ok clk ∧ calculate_epoch_fee c (epoch clk) amt = Some fee
     | _ => fee = 0
     end) ∧
    (∀ c, get_mint_ext PausableConfig (tlv_data m) = Ok c → pod_bool (pc_paused c) = false) ∧
    pd = get_permanent_delegate PodMint (tlv_data m) ∧
    hook = get_program_id PodMint (tlv_data m).
Proof.
  intros ([] & Hk & (md & Hmd & (r & Hr & ([] & Hdec & (f & Hf & ([] & Hp & [= <- <- <-])
    %bind_Ok)%bind_Ok)%bind_Ok)%bind_Ok)%bind_Ok)%bind_Ok.
  apply throw_if_Ok, negb_false_iff, Z.eqb_eq in Hk, Hdec.
  apply try_borrow_data_Ok in Hmd as [_ ->].
  apply unpack_ref_Ok in Hr as (m & Hm & ->). cbn [ref_base ref_tlv] in *.
  exists m. rewrite mint_at_Some. split_and!; try done.
  - destruct (get_mint_ext TransferFeeConfig _); [|by injection Hf as <-..].
    apply bind_Ok in Hf as (clk & Hclk & Hf%ok_or_Ok). by exists clk.
  - intros c Hc. rewrite Hc in Hp. by apply throw_if_Ok in Hp.
Qed.

Lemma transfer_mint_None held w s amt fee pd hook :
  transfer_mint held w s None amt = Ok (fee, pd, hook) →
  pd = None ∧ is_ok (get_account_ext TransferHookAccount (tlv_data s)) = false ∧
  is_ok (get_account_ext TransferFeeAmount (tlv_data s)) = false ∧
  is_ok (get_account_ext PausableAccount (tlv_data s)) = false.
Proof.
  by intros ([] & ?%throw_if_Ok & ([] & ?%throw_if_Ok & ([] & ?%throw_if_Ok & [= _ <- _])
    %bind_Ok)%bind_Ok)%bind_Ok.
Qed.

(** A transfer between two accounts, as one relation. *)
Record transfer_run pid ti si mi di ai signers amt w w' s d s' d' fee pd : Prop := {
  run_source : account_at w (key si) = Some s;
  run_destination : account_at w (key di) = Some d;
  run_source' : account_at w' (key si) = Some s';
  run_destination' : account_at w' (key di) = Some d';
  run_source_checks : transfer_source_checks s amt = Ok tt;
  run_destination_checks : transfer_destination_checks s d = Ok tt;
  run_mint : ∃ hook, transfer_mint [key si] w s (expected_mint ti mi) amt = Ok (fee, pd, hook);
  run_fee_check : transfer_fee_check ti fee = Ok tt;
  run_cpi : cpi_guard_blocks s ai = false;
  run_signed : validate_owner [key si] w pid (key ai) ai (data_len w ai) signers = Ok tt;
  run_authorised : authorised (base s) (base s') pd false amt (key ai);
  run_fee : 0 ≤ fee ≤ amt;
  run_amount : amt ≤ amount (base s);
  run_base : base s' = set_amount (amount (base s) - amt) (set_delegate (delegate (base s'))
                (set_delegated_amount (delegated_amount (base s')) (base s)));
  run_base_d : base d' = set_amount (amount (base d) + (amt - fee)) (base d);
  run_withheld : withheld s' = withheld s;
  run_withheld_d : withheld d' = withheld d + fee;
  run_frame : ∀ k, k ≠ key si → k ≠ key di → owner (get_account w k) = id →
       data (get_account w' k) = data (get_account w k);
}.

Lemma process_transfer_run pid ti si mi di ai signers amt w w' :
  hook_keeps_data rt → 0 ≤ amt → key si ≠ key di →
  process_transfer pid (transfer_accounts ti si mi di ai signers) amt ti w = Ok w' →
  ∃ s d s' d' fee pd, transfer_run pid ti si mi di ai signers amt w w' s d s' d' fee pd.
Proof.
  intros Hhook Hamt Hk H. apply process_transfer_Ok in H
    as (s & fee & pd & hook & a & Hs & Hsc & Hm & Hfc & Hcpi & Hau & Hoi & Hoj & _ & H).
  destruct (H Hk) as (d & d1 & w1 & Hd & Hdc & Hle & Hcr & Hw1 & Hcall). clear H.
  pose proof (account_at_ok _ _ _ Hs) as Hsok. pose proof (account_at_ok _ _ _ Hd) as Hdok.
  pose proof (transfer_mint_nonneg _ _ _ _ _ _ _ _ Hamt Hm) as [Hfee _].
  rewrite (proj2 (Z.eqb_neq _ _) Hk) in Hau.
  apply transfer_authority_Ok in Hau as (Hv & Ha & Haok & (g & o & ->)); [|apply Hsok].
  apply transfer_credit_Ok in Hcr as (Hd1 & Hfa & Hbd & Hwd & _); [|done..].
  destruct (proj1 (PodAccount_ok _) (state_base_ok _ _ Hsok)) as (_ & _ & [_ Hmax] & _).
  set (a := set_delegate o _) in *.
  assert (Hs1 : state_ok PodAccount (with_base (set_amount (amount (base s) - amt) a) s)).
  { apply state_ok_base; [done| |done]. apply set_amount_ok; [done|]. split; lia. }
  assert (Hw1d : ∀ k, data (get_account w1 k) = data (get_account w k) ∧
                      owner (get_account w1 k) = owner (get_account w k)).
  { intros k. destruct (is_native _); [by eapply transfer_lamports_data|].
    by injection Hw1 as ->. }
  eapply transfer_hook_call_Ok in Hcall
    as (s' & d' & Hs' & Hd' & [= Hs1' Hs2] & [= Hd1' Hd2] & Hframe);
    [|done..|unfold info_owner; by rewrite (proj2 (Hw1d _))
     |unfold info_owner; by rewrite (proj2 (Hw1d _))].
  exists s, d, s', d', fee, pd. constructor; try done.
  - by exists hook.
  - by rewrite Hs1'.
  - rewrite Hs1'. by destruct s as [[] ? ?].
  - by rewrite Hd1'.
  - by rewrite Hd2.
  - intros k Hki Hkj Ho. rewrite Hframe; [apply Hw1d|done..|].
    by rewrite (proj2 (Hw1d _)).
Qed.
End facts.

(** ** Properties *)
Section properties.
Context (rt : Runtime).
Implicit Types (w : world) (s d : PodStateMut PodAccount).

(** C4: a transfer between two accounts moves exactly [amt] tokens.  The source
    loses [amt], the destination receives [amt] less the fee and withholds the
    fee, so the tokens the two accounts hold together are unchanged; mints,
    owners and the state of both accounts are kept, and no other account of
    the program changes, whatever the transfer hook does. *)
Theorem process_transfer_moves pid ti si mi di ai signers amt w w' :
  hook_keeps_data rt → 0 ≤ amt → key si ≠ key di →
  process_transfer pid (transfer_accounts ti si mi di ai signers) amt ti w = Ok w' →
  ∃ s d s' d' fee,
    account_at w (key si) = Some s ∧ account_at w (key di) = Some d ∧
    account_at w' (key si) = Some s' ∧ account_at w' (key di) = Some d' ∧
    0 ≤ fee ≤ amt ∧ amt ≤ amount (base s) ∧
    amount (base s') = amount (base s) - amt ∧ withheld s' = withheld s ∧
    amount (base d') = amount (base d) + (amt - fee) ∧ withheld d' = withheld d + fee ∧
    holding s' + holding d' = holding s + holding d ∧
    acc_mint (base s) = acc_mint (base d) ∧
    base s' = set_amount (amount (base s')) (set_delegate (delegate (base s'))
                (set_delegated_amount (delegated_amount (base s')) (base s))) ∧
    base d' = set_amount (amount (base d')) (base d) ∧
    (∀ k, k ≠ key si → k ≠ key di → owner (get_account w k) = id →
       data (get_account w' k) = data (get_account w k)).
Proof.
  intros Hhook Hamt Hk H.
  destruct (process_transfer_run _ _ _ _ _ _ _ _ _ _ Hhook Hamt Hk H)
    as (s & d & s' & d' & fee & pd & []).
  apply bind_Ok in run_destination_checks0 as ([] & _ & ([] & Hmint & _)%bind_Ok).
  apply throw_if_Ok, negb_false_iff, Z.eqb_eq in Hmint.
  exists s, d, s', d', fee.
  assert (amount (base s') = amount (base s) - amt) as Es by by rewrite run_base0.
  assert (amount (base d') = amount (base d) + (amt - fee)) as Ed by by rewrite run_base_d0.
  unfold holding. split_and!; try done; try lia; by rewrite ?Es, ?Ed.
Qed.

(** The fee of a checked transfer is the one the mint's configuration gives
    for the current epoch (none without a configuration), it is the fee the
    instruction names when it names one, and the mint is not paused. *)
Theorem process_transfer_fee pid ti si mi di ai signers amt w w' :
  hook_keeps_data rt → 0 ≤ amt → key si ≠ key di → ti ≠ TransferUnchecked →
  process_transfer pid (transfer_accounts ti si mi di ai signers) amt ti w = Ok w' →
  ∃ m d d', mint_at w (key mi) = Some m ∧
    account_at w (key di) = Some d ∧ account_at w' (key di) = Some d' ∧
    (match get_mint_ext TransferFeeConfig (tlv_data m) with
     | Ok c => ∃ clk, clock_get = Ok clk ∧
         calculate_epoch_fee c (epoch clk) amt = Some (withheld d' - withheld d)
     | _ => withheld d' = withheld d
     end) ∧
    (∀ dec fee, ti = TransferCheckedWithFee dec fee → withheld d' = withheld d + fee) ∧
    (∀ c, get_mint_ext PausableConfig (tlv_data m) = Ok c → pod_bool (pc_paused c) = false).
Proof.
  intros Hhook Hamt Hk Hti H.
  destruct (process_transfer_run _ _ _ _ _ _ _ _ _ _ Hhook Hamt Hk H)
    as (s & d & s' & d' & fee & pd & []). destruct run_mint0 as [hook Hm].
  assert (∃ dec, expected_mint ti mi = Some (mi, dec)) as [dec He]
    by (destruct ti; [done|by eexists..]).
  rewrite He in Hm. apply transfer_mint_Ok in Hm as (m & Hm & _ & _ & Hf & Hp & _).
  assert (fee = withheld d' - withheld d) as -> by lia.
  exists m, d, d'. split_and!; try done.
  - by destruct (get_mint_ext _ _); [|lia..].
  - intros dec' fee ->. apply throw_if_Ok, negb_false_iff, Z.eqb_eq in run_fee_check0. lia.
Qed.

(** A transfer from an account to itself changes nothing at all. *)
Theorem process_transfer_self pid ti si mi di ai signers amt w w' : key si = key di →
  process_transfer pid (transfer_accounts ti si mi di ai signers) amt ti w = Ok w' →
  w' = w ∧ ∃ s, account_at w (key si) = Some s ∧ amt ≤ amount (base s).
Proof.
  intros Hk H. apply process_transfer_Ok in H
    as (s & fee & pd & hook & a & Hs & Hsc & Hm & _ & _ & Hau & _ & _ & H & _).
  split; [by apply H|]. exists s. split; [done|].
  apply bind_Ok in Hsc as ([] & _ & ([] & Hlt & _)%bind_Ok).
  apply throw_if_Ok, Z.ltb_ge in Hlt. done.
Qed.

(** C5: who can move tokens.  A transfer needs a valid signature of the mint's
    permanent delegate, of a delegate with a large enough allowance, or of the
    owner; neither account is frozen; the mint is not paused, which an unchecked transfer,
    that does not name the mint, ensures by taking no account of a pausable mint; and a
    delegate's allowance shrinks by what it moves, the delegate being removed when nothing
    is left. *)
Theorem process_transfer_authorised pid ti si mi di ai signers amt w w' :
  hook_keeps_data rt → 0 ≤ amt → key si ≠ key di →
  process_transfer pid (transfer_accounts ti si mi di ai signers) amt ti w = Ok w' →
  ∃ s d s' pd,
    account_at w (key si) = Some s ∧ account_at w (key di) = Some d ∧
    account_at w' (key si) = Some s' ∧
    is_frozen (base s) = false ∧ is_frozen (base d) = false ∧
    validate_owner [key si] w pid (key ai) ai (data_len w ai) signers = Ok tt ∧
    authorised (base s) (base s') pd false amt (key ai) ∧
    match ti with
    | TransferUnchecked =>
        pd = None ∧ is_ok (get_account_ext PausableAccount (tlv_data s)) = false ∧
        is_ok (get_account_ext TransferHookAccount (tlv_data s)) = false ∧
        is_ok (get_account_ext TransferFeeAmount (tlv_data s)) = false
    | _ => ∃ m, mint_at w (key mi) = Some m ∧ key mi = acc_mint (base s) ∧
             pd = get_permanent_delegate PodMint (tlv_data m) ∧
             ∀ c, get_mint_ext PausableConfig (tlv_data m) = Ok c → pod_bool (pc_paused c) = false
    end.
Proof.
  intros Hhook Hamt Hk H.
  destruct (process_transfer_run _ _ _ _ _ _ _ _ _ _ Hhook Hamt Hk H)
    as (s & d & s' & d' & fee & pd & []). destruct run_mint0 as [hook Hm].
  apply bind_Ok in run_source_checks0 as ([] & Hfs%throw_if_Ok & _).
  apply bind_Ok in run_destination_checks0 as ([] & Hfd%throw_if_Ok & _).
  exists s, d, s', pd. do 7 (split; [done|]).
  destruct ti; cbn [expected_mint] in Hm.
  - apply transfer_mint_None in Hm as (Hpd & Hth & Hfee & Hpa). done.
  - apply transfer_mint_Ok in Hm as (m & Hm & Hmk & _ & _ & Hp & Hpd & _). by exists m.
  - apply transfer_mint_Ok in Hm as (m & Hm & Hmk & _ & _ & Hp & Hpd & _). by exists m.
Qed.
End properties.
