(* ===== verification/Supply.v ===== *)
(** * Supply: [Processor::process_mint_to] and [Processor::process_burn]

    The two handlers that change how many tokens exist, and the theorems that
    they change the supply of the mint and the holdings of one account by the
    same amount. *)
From S2P Require Import Prelude Codec Errors Runtime Pod State ExtensionType ExtensionData Tlv.
From S2P Require Import StateExt Fee Authority Transfer AccountFacts TransferFacts.

Inductive InstructionVariant :=
| Unchecked
| Checked (decimals : Z).

Section supply.
Context `{rt : Runtime}.
Implicit Types (w : world) (m : PodStateMut PodMint).

Definition check_decimals (v : InstructionVariant) m : res unit :=
  match v with
  | Checked decimals' =>
      throw_if (negb (decimals' =? decimals (base m))) (tok MintDecimalsMismatch)
  | Unchecked => Ok tt
  end.

Definition check_not_paused m : res unit :=
  match get_mint_ext PausableConfig (tlv_data m) with
  | Ok extension => throw_if (pod_bool (pc_paused extension)) (tok MintPaused)
  | _ => Ok tt
  end.

(** [Processor::process_mint_to] *)
Definition process_mint_to (program_id : Pubkey) (accounts : list AccountInfo) (amount : Z)
    (instruction_variant : InstructionVariant) w : res world :=
  '(mint_info, accounts) ← next_account_info accounts;
  '(destination_info, accounts) ← next_account_info accounts;
  '(owner_info, accounts) ← next_account_info accounts;
  let owner_info_data_len := data_len w owner_info in
  destination_data ← borrow [] w destination_info;
  destination ← unpack_account destination_data;
  throw_if (is_frozen (base destination)) (tok AccountFrozen);;
  throw_if (is_native (base destination)) (tok NativeNotSupported);;
  throw_if (negb (key mint_info =? acc_mint (base destination))) (tok MintMismatch);;
  mint_data ← borrow [key destination_info] w mint_info;
  mint ← unpack_mint mint_data;
  throw_if (is_ok (get_mint_ext NonTransferable (tlv_data mint)) &&
            negb (is_ok (get_account_ext ImmutableOwner (tlv_data destination))))
    (tok NonTransferableNeedsImmutableOwnership);;
  check_not_paused mint;;
  throw_if (is_ok (get_mint_ext ConfidentialMintBurn (tlv_data mint)))
    (tok IllegalMintBurnConversion);;
  check_decimals instruction_variant mint;;
  match co_get (mint_authority (base mint)) with
  | Some mint_authority =>
      validate_owner [key destination_info; key mint_info] w program_id mint_authority
        owner_info owner_info_data_len accounts
  | None => Err (tok FixedSupply)
  end;;
  check_program_account (info_owner w mint_info);;
  check_program_account (info_owner w destination_info);;
  new_amount ← ok_or (checked_add 64 (Pod.amount (base destination)) amount) (tok Overflow);
  let destination := with_base (set_amount new_amount (base destination)) destination in
  new_supply ← ok_or (checked_add 64 (supply (base mint)) amount) (tok Overflow);
  let mint := with_base (set_supply new_supply (base mint)) mint in
  Ok (write_mint (write_account w destination_info destination) mint_info mint).

(** [Processor::process_burn]; the authority is found as for a transfer,
    except that burning from an account of the system program or of the
    incinerator needs none. *)
Definition process_burn (program_id : Pubkey) (accounts : list AccountInfo) (amount : Z)
    (instruction_variant : InstructionVariant) w : res world :=
  '(source_info, accounts) ← next_account_info accounts;
  '(mint_info, accounts) ← next_account_info accounts;
  '(authority_info, accounts) ← next_account_info accounts;
  let authority_info_data_len := data_len w authority_info in
  source_data ← borrow [] w source_info;
  source ← unpack_account source_data;
  mint_data ← borrow [key source_info] w mint_info;
  mint ← unpack_mint mint_data;
  let held := [key source_info; key mint_info] in
  throw_if (is_frozen (base source)) (tok AccountFrozen);;
  throw_if (is_native (base source)) (tok NativeNotSupported);;
  throw_if (Pod.amount (base source) <? amount) (tok InsufficientFunds);;
  throw_if (negb (key mint_info =? acc_mint (base source))) (tok MintMismatch);;
  check_decimals instruction_variant mint;;
  check_not_paused mint;;
  let maybe_permanent_delegate := get_permanent_delegate PodMint (tlv_data mint) in
  throw_if (cpi_guard_blocks source authority_info) (tok CpiGuardBurnBlocked);;
  source_base ←
    (if is_owned_by_system_program_or_incinerator (base source) then Ok (base source)
     else transfer_authority held w program_id (base source) maybe_permanent_delegate
            false amount authority_info authority_info_data_len accounts);
  check_program_account (info_owner w source_info);;
  check_program_account (info_owner w mint_info);;
  new_amount ← ok_or (checked_sub 64 (Pod.amount source_base) amount) (tok Overflow);
  let source := with_base (set_amount new_amount source_base) source in
  new_supply ← ok_or (checked_sub 64 (supply (base mint)) amount) (tok Overflow);
  let mint := with_base (set_supply new_supply (base mint)) mint in
  Ok (write_mint (write_account w source_info source) mint_info mint).
End supply.

(** ** Both accounts of a handler written back *)
Section write.
Context `{rt : Runtime}.
Implicit Types (w : world).

Lemma write_both w i j st m : key i ≠ key j → state_ok PodAccount st → state_ok PodMint m →
  let w' := write_mint (write_account w i st) j m in
  account_at w' (key i) = Some st ∧ mint_at w' (key j) = Some m ∧
  (∀ k, k ≠ key i → k ≠ key j → get_account w' k = get_account w k).
Proof.
  intros Hij Hst Hm w'. split; [|split].
  - rewrite <-(account_at_write w i st Hst). apply account_at_data.
    unfold w', write_mint. by rewrite data_set_data, decide_False.
  - by apply mint_at_write.
  - intros k Hi Hj. unfold w', write_mint, write_account.
    by rewrite !get_set_data, !decide_False.
Qed.

Lemma distinct_keys w i j st m : account_at w (key i) = Some st → mint_at w (key j) = Some m →
  key i ≠ key j.
Proof.
  intros Hi Hj Hk. apply account_at_Some in Hi. apply mint_at_Some in Hj.
  rewrite Hk in Hi. by eapply unpack_account_not_mint.
Qed.
End write.

(** ** What a run did *)
Section runs.
Context `{rt : Runtime}.
Implicit Types (w : world).

Lemma process_mint_to_Ok pid mi di oi signers amt v w w' :
  process_mint_to pid (mi :: di :: oi :: signers) amt v w = Ok w' →
  ∃ d m, account_at w (key di) = Some d ∧ mint_at w (key mi) = Some m ∧
    acc_mint (base d) = key mi ∧ is_frozen (base d) = false ∧ is_native (base d) = false ∧
    info_owner w mi = id ∧ info_owner w di = id ∧
    (∃ auth, co_get (mint_authority (base m)) = Some auth ∧ key oi = auth ∧
       validate_owner [key di; key mi] w pid auth oi (data_len w oi) signers = Ok tt) ∧
    in_uint 64 (amount (base d) + amt) ∧ in_uint 64 (supply (base m) + amt) ∧
    key di ≠ key mi ∧
    let d' := with_base (set_amount (amount (base d) + amt) (base d)) d in
    let m' := with_base (set_supply (supply (base m) + amt) (base m)) m in
    state_ok PodAccount d' ∧ state_ok PodMint m' ∧
    w' = write_mint (write_account w di d') mi m'.
Proof.
  intros H. unfold process_mint_to in H. do 3 (cbn [next_account_info] in H; rewrite Ok_bind in H).
  apply bind_Ok in H as (dd & Hdd & (d & Hd & ([] & Hf & ([] & Hn & ([] & Hk & H)
    %bind_Ok)%bind_Ok)%bind_Ok)%bind_Ok).
  apply bind_Ok in H as (md & Hmd & (m & Hm & ([] & Hnt & ([] & Hp & ([] & Hc & ([] & Hdec & H)
    %bind_Ok)%bind_Ok)%bind_Ok)%bind_Ok)%bind_Ok).
  apply bind_Ok in H as ([] & Hv & ([] & Ho1 & ([] & Ho2 & (na & Hna & (ns & Hns & [= <-])
    %bind_Ok)%bind_Ok)%bind_Ok)%bind_Ok).
  apply borrow_Ok in Hdd as [_ ->], Hmd as [_ ->].
  apply throw_if_Ok in Hf, Hn. apply throw_if_Ok, negb_false_iff, Z.eqb_eq in Hk, Ho1, Ho2.
  apply ok_or_Ok, checked_add_Some in Hna as [-> Hna], Hns as [-> Hns].
  apply account_at_Some in Hd. apply mint_at_Some in Hm.
  pose proof (distinct_keys _ _ _ _ _ Hd Hm) as Hne.
  assert (Hd' : state_ok PodAccount (with_base (set_amount (amount (base d) + amt) (base d)) d)).
  { pose proof (account_at_ok _ _ _ Hd) as Hdok.
    apply state_ok_base; [done| |done]. apply set_amount_ok; [apply Hdok|done]. }
  pose proof (mint_ok_supply m _ (mint_at_ok _ _ _ Hm) Hns) as Hm'.
  exists d, m. split_and!; try done.
  destruct (co_get _) as [auth|] eqn:Ha; [|done]. exists auth.
  split; [done|]. split; [by eapply validate_owner_key|done].
Qed.

Lemma process_burn_Ok pid si mi ai signers amt v w w' :
  process_burn pid (si :: mi :: ai :: signers) amt v w = Ok w' →
  ∃ s m a, account_at w (key si) = Some s ∧ mint_at w (key mi) = Some m ∧
    acc_mint (base s) = key mi ∧ is_frozen (base s) = false ∧ is_native (base s) = false ∧
    info_owner w si = id ∧ info_owner w mi = id ∧
    (is_owned_by_system_program_or_incinerator (base s) = true ∨
     validate_owner [key si; key mi] w pid (key ai) ai (data_len w ai) signers = Ok tt ∧
     authorised (base s) a (get_permanent_delegate PodMint (tlv_data m)) false amt (key ai)) ∧
    amt ≤ amount (base s) ∧ amt ≤ supply (base m) ∧ key si ≠ key mi ∧
    (∃ g o, a = set_delegate o (set_delegated_amount g (base s))) ∧
    let s' := with_base (set_amount (amount (base s) - amt) a) s in
    let m' := with_base (set_supply (supply (base m) - amt) (base m)) m in
    state_ok PodAccount s' ∧ state_ok PodMint m' ∧
    w' = write_mint (write_account w si s') mi m'.
Proof.
  intros H. unfold process_burn in H. do 3 (cbn [next_account_info] in H; rewrite Ok_bind in H).
  apply bind_Ok in H as (sd & Hsd & (s & Hs & (md & Hmd & (m & Hm & H)
    %bind_Ok)%bind_Ok)%bind_Ok).
  apply bind_Ok in H as ([] & Hf & ([] & Hn & ([] & Hlt & ([] & Hk & ([] & _ & ([] & _ & H)
    %bind_Ok)%bind_Ok)%bind_Ok)%bind_Ok)%bind_Ok).
  apply bind_Ok in H as ([] & Hcpi & (a & Ha & ([] & Ho1 & ([] & Ho2 & (na & Hna & (ns & Hns &
    [= <-])%bind_Ok)%bind_Ok)%bind_Ok)%bind_Ok)%bind_Ok).
  apply borrow_Ok in Hsd as [_ ->], Hmd as [_ ->].
  apply throw_if_Ok in Hf, Hn. apply throw_if_Ok, negb_false_iff, Z.eqb_eq in Hk, Ho1, Ho2.
  apply ok_or_Ok, checked_sub_Some in Hna as [-> Hna], Hns as [-> Hns].
  apply throw_if_Ok, Z.ltb_ge in Hlt.
  apply account_at_Some in Hs. apply mint_at_Some in Hm.
  pose proof (distinct_keys _ _ _ _ _ Hs Hm) as Hne.
  pose proof (account_at_ok _ _ _ Hs) as Hsok.
  assert (Hau : (is_owned_by_system_program_or_incinerator (base s) = true ∨
     validate_owner [key si; key mi] w pid (key ai) ai (data_len w ai) signers = Ok tt ∧
     authorised (base s) a (get_permanent_delegate PodMint (tlv_data m)) false amt (key ai)) ∧
     c_ok base_codec a ∧ ∃ g o, a = set_delegate o (set_delegated_amount g (base s))).
  { destruct (is_owned_by_system_program_or_incinerator (base s)).
    - injection Ha as <-. split; [by left|]. split; [apply Hsok|].
      exists (delegated_amount (base s)), (delegate (base s)). by destruct (base s).
    - apply transfer_authority_Ok in Ha as (Hv & Hau & Haok & Heq); [|apply Hsok].
      split; [by right|]. done. }
  destruct Hau as (Hau & Haok & (g & o & ->)).
  set (a := set_delegate o _) in *.
  assert (Hs' : state_ok PodAccount (with_base (set_amount (amount (base s) - amt) a) s)).
  { apply state_ok_base; [done| |done]. by apply set_amount_ok. }
  pose proof (mint_ok_supply m _ (mint_at_ok _ _ _ Hm) Hns) as Hm'.
  exists s, m, a. split_and!; try done; [destruct Hns; lia|by eexists _, _].
Qed.
End runs.

(** ** Properties *)
Section properties.
Context (rt : Runtime).
Implicit Types (w : world).

(** C6: minting is authorised by the mint authority and adds [amt] tokens to the
    supply and to one account of the mint, neither of which overflows; nothing
    else changes. *)
Theorem process_mint_to_effect pid mi di oi signers amt v w w' :
  process_mint_to pid (mi :: di :: oi :: signers) amt v w = Ok w' →
  ∃ d m, account_at w (key di) = Some d ∧ mint_at w (key mi) = Some m ∧
    acc_mint (base d) = key mi ∧ is_frozen (base d) = false ∧ is_native (base d) = false ∧
    info_owner w mi = id ∧ info_owner w di = id ∧
    (∃ auth, co_get (mint_authority (base m)) = Some auth ∧ key oi = auth ∧
       validate_owner [key di; key mi] w pid auth oi (data_len w oi) signers = Ok tt) ∧
    in_uint 64 (amount (base d) + amt) ∧ in_uint 64 (supply (base m) + amt) ∧
    account_at w' (key di) = Some (with_base (set_amount (amount (base d) + amt) (base d)) d) ∧
    mint_at w' (key mi) = Some (with_base (set_supply (supply (base m) + amt) (base m)) m) ∧
    (∀ k, k ≠ key di → k ≠ key mi → get_account w' k = get_account w k).
Proof.
  intros (d & m & Hd & Hm & Hk & Hf & Hn & Ho1 & Ho2 & Hv & Hna & Hns & Hne & Hd' & Hm' & ->)
    %process_mint_to_Ok.
  destruct (write_both w di mi _ _ Hne Hd' Hm') as (H1 & H2 & H3).
  exists d, m. by split_and!.
Qed.

(** C7: burning removes [amt] tokens from the supply and from one account of the
    mint; it is authorised like a transfer, unless the account belongs to the
    system program or the incinerator, and never touches another account. *)
Theorem process_burn_effect pid si mi ai signers amt v w w' :
  process_burn pid (si :: mi :: ai :: signers) amt v w = Ok w' →
  ∃ s m s', account_at w (key si) = Some s ∧ mint_at w (key mi) = Some m ∧
    acc_mint (base s) = key mi ∧ is_frozen (base s) = false ∧ is_native (base s) = false ∧
    (is_owned_by_system_program_or_incinerator (base s) = true ∨
     validate_owner [key si; key mi] w pid (key ai) ai (data_len w ai) signers = Ok tt ∧
     authorised (base s) (base s') (get_permanent_delegate PodMint (tlv_data m)) false amt
       (key ai)) ∧
    amt ≤ amount (base s) ∧ amt ≤ supply (base m) ∧
    account_at w' (key si) = Some s' ∧
    amount (base s') = amount (base s) - amt ∧ withheld s' = withheld s ∧
    acc_owner (base s') = acc_owner (base s) ∧ acc_mint (base s') = acc_mint (base s) ∧
    mint_at w' (key mi) = Some (with_base (set_supply (supply (base m) - amt) (base m)) m) ∧
    (∀ k, k ≠ key si → k ≠ key mi → get_account w' k = get_account w k).
Proof.
  intros (s & m & a & Hs & Hm & Hk & Hf & Hn & _ & _ & Hau & Hle & Hsup & Hne & (g & o & ->) &
    Hs' & Hm' & ->)%process_burn_Ok.
  destruct (write_both w si mi _ _ Hne Hs' Hm') as (H1 & H2 & H3).
  exists s, m, (with_base (set_amount (amount (base s) - amt)
    (set_delegate o (set_delegated_amount g (base s)))) s).
  by split_and!.
Qed.
End properties.
