(* ===== verification/AccountOps.v ===== *)
(** * Token account handlers

    [process_approve], [process_revoke], [process_toggle_freeze_account],
    [process_sync_native], [process_close_account] and
    [process_withdraw_excess_lamports] of [program/src/processor.rs], with what
    each does to the account it names and to no other. *)
From S2P Require Import Prelude Codec Errors Runtime Pod State ExtensionType ExtensionData Tlv.
From S2P Require Import TlvAlloc StateExt Fee Authority Transfer AccountFacts TransferFacts Supply.

(** [ConfidentialTransferAccount::closable], [ConfidentialTransferFeeAmount::closable] *)
Definition ConfidentialTransferAccount_closable `{Runtime} (c : ConfidentialTransferAccount) :
    res unit :=
  let zeroed := zeros elgamal_ciphertext_len in
  throw_if (negb (bool_decide (cta_pending_balance_lo c = zeroed ∧
      cta_pending_balance_hi c = zeroed ∧ cta_available_balance c = zeroed)))
    (tok ConfidentialTransferAccountHasBalance).
Definition ConfidentialTransferFeeAmount_closable `{Runtime} (c : ConfidentialTransferFeeAmount) :
    res unit :=
  throw_if (negb (bool_decide (ctfa_withheld_amount c = zeros elgamal_ciphertext_len)))
    (tok ConfidentialTransferFeeAccountHasWithheldFee).

Section handlers.
Context `{rt : Runtime}.
Implicit Types (w : world) (accounts : list AccountInfo).

Definition expected_mint_info (v : InstructionVariant) accounts :
    res (option (AccountInfo * Z) * list AccountInfo) :=
  match v with
  | Checked decimals =>
      '(mint_info, accounts) ← next_account_info accounts;
      Ok (Some (mint_info, decimals), accounts)
  | Unchecked => Ok (None, accounts)
  end.

(** The CPI guard of an instruction that only the owner can give. *)
Definition guarded_in_cpi (account : PodStateMut PodAccount) : bool :=
  match get_account_ext CpiGuard (tlv_data account) with
  | Ok cpi_guard => pod_bool (cg_lock_cpi cpi_guard) && in_cpi
  | _ => false
  end.

(** [Processor::process_approve] *)
Definition process_approve (program_id : Pubkey) accounts (amount : Z)
    (instruction_variant : InstructionVariant) w : res world :=
  '(source_info, accounts) ← next_account_info accounts;
  '(expected_mint_info, accounts) ← expected_mint_info instruction_variant accounts;
  '(delegate_info, accounts) ← next_account_info accounts;
  '(owner_info, accounts) ← next_account_info accounts;
  let owner_info_data_len := data_len w owner_info in
  source_data ← borrow [] w source_info;
  let held := [key source_info] in
  source ← unpack_account source_data;
  throw_if (is_frozen (base source)) (tok AccountFrozen);;
  match expected_mint_info with
  | Some (mint_info, expected_decimals) =>
      throw_if (negb (acc_mint (base source) =? key mint_info)) (tok MintMismatch);;
      mint_data ← borrow held w mint_info;
      mint ← unpack_ref PodMint mint_data;
      throw_if (negb (expected_decimals =? decimals (ref_base mint))) (tok MintDecimalsMismatch)
  | None => Ok tt
  end;;
  validate_owner held w program_id (acc_owner (base source)) owner_info owner_info_data_len
    accounts;;
  throw_if (guarded_in_cpi source) (tok CpiGuardApproveBlocked);;
  let base := set_delegated_amount amount
                (set_delegate (co_some (key delegate_info)) (base source)) in
  Ok (write_account w source_info (with_base base source)).

(** [Processor::process_revoke] *)
Definition process_revoke (program_id : Pubkey) accounts w : res world :=
  '(source_info, accounts) ← next_account_info accounts;
  '(authority_info, accounts) ← next_account_info accounts;
  let authority_info_data_len := data_len w authority_info in
  source_data ← borrow [] w source_info;
  source ← unpack_account source_data;
  throw_if (is_frozen (base source)) (tok AccountFrozen);;
  let expected :=
    if bool_decide (co_get (delegate (base source)) = Some (key authority_info))
    then key authority_info else acc_owner (base source) in
  validate_owner [key source_info] w program_id expected authority_info authority_info_data_len
    accounts;;
  let base := set_delegated_amount 0 (set_delegate co_none (base source)) in
  Ok (write_account w source_info (with_base base source)).

(** [Processor::process_toggle_freeze_account] *)
Definition process_toggle_freeze_account (program_id : Pubkey) accounts (freeze : bool) w :
    res world :=
  '(source_info, accounts) ← next_account_info accounts;
  '(mint_info, accounts) ← next_account_info accounts;
  '(authority_info, accounts) ← next_account_info accounts;
  let authority_info_data_len := data_len w authority_info in
  source_data ← borrow [] w source_info;
  let held := [key source_info] in
  source ← unpack_account source_data;
  throw_if ((freeze && is_frozen (base source)) || (negb freeze && negb (is_frozen (base source))))
    (tok InvalidState);;
  throw_if (is_native (base source)) (tok NativeNotSupported);;
  throw_if (negb (key mint_info =? acc_mint (base source))) (tok MintMismatch);;
  mint_data ← borrow held w mint_info;
  mint ← unpack_ref PodMint mint_data;
  match co_get (freeze_authority (ref_base mint)) with
  | Some authority =>
      validate_owner held w program_id authority authority_info authority_info_data_len accounts
  | None => Err (tok MintCannotFreeze)
  end;;
  let state := account_state_u8 (if freeze then Frozen else Initialized) in
  Ok (write_account w source_info (with_base (set_state state (base source)) source)).

(** [Processor::process_sync_native] *)
Definition process_sync_native accounts w : res world :=
  '(native_info, accounts) ← next_account_info accounts;
  check_program_account (info_owner w native_info);;
  native_data ← borrow [] w native_info;
  native_account ← unpack_account native_data;
  match co_get (is_native_opt (base native_account)) with
  | Some amount =>
      new_amount ← ok_or (checked_sub 64 (info_lamports w native_info) amount) (tok Overflow);
      throw_if (new_amount <? Pod.amount (base native_account)) (tok InvalidState);;
      let base := set_amount new_amount (base native_account) in
      Ok (write_account w native_info (with_base base native_account))
  | None => Err (tok NonNativeNotSupported)
  end.

(** The guards of [process_close_account] on a token account, ... *)
Definition close_token_account w (program_id : Pubkey)
    (destination_info authority_info : AccountInfo) (authority_info_data_len : nat) accounts
    (source : PodStateRef PodAccount) : res unit :=
  throw_if (negb (is_native (ref_base source)) && negb (amount (ref_base source) =? 0))
    (tok NonNativeHasBalance);;
  let authority := co_unwrap_or (close_authority (ref_base source))
                     (acc_owner (ref_base source)) in
  (if negb (is_owned_by_system_program_or_incinerator (ref_base source)) then
     match get_account_ext CpiGuard (ref_tlv source) with
     | Ok cpi_guard =>
         throw_if (pod_bool (cg_lock_cpi cpi_guard) && in_cpi &&
                   negb (key destination_info =? acc_owner (ref_base source)))
           (tok CpiGuardCloseAccountBlocked)
     | _ => Ok tt
     end;;
     validate_owner [] w program_id authority authority_info authority_info_data_len accounts
   else throw_if (negb (key destination_info =? incinerator_id)) InvalidAccountData);;
  match get_account_ext ConfidentialTransferAccount (ref_tlv source) with
  | Ok confidential_transfer_state =>
      ConfidentialTransferAccount_closable confidential_transfer_state
  | _ => Ok tt
  end;;
  match get_account_ext ConfidentialTransferFeeAmount (ref_tlv source) with
  | Ok confidential_transfer_fee_state =>
      ConfidentialTransferFeeAmount_closable confidential_transfer_fee_state
  | _ => Ok tt
  end;;
  match get_account_ext TransferFeeAmount (ref_tlv source) with
  | Ok transfer_fee_state => TransferFeeAmount_closable transfer_fee_state
  | _ => Ok tt
  end.

(** ... and on a mint. *)
Definition close_mint w (program_id : Pubkey) (authority_info : AccountInfo)
    (authority_info_data_len : nat) accounts (mint : PodStateRef PodMint) : res unit :=
  extension ← get_mint_ext MintCloseAuthority (ref_tlv mint);
  authority ← ok_or (optional_get (mca_close_authority extension))
                (tok AuthorityTypeNotSupported);
  validate_owner [] w program_id authority authority_info authority_info_data_len accounts;;
  throw_if (negb (supply (ref_base mint) =? 0)) (tok MintHasSupply).

(** [delete_account] on chain *)
Definition delete_account w (i : AccountInfo) : res world :=
  resize (set_owner w (key i) system_program_id) (key i) 0.

(** [Processor::process_close_account] *)
Definition process_close_account (program_id : Pubkey) accounts w : res world :=
  '(source_info, accounts) ← next_account_info accounts;
  '(destination_info, accounts) ← next_account_info accounts;
  '(authority_info, accounts) ← next_account_info accounts;
  let authority_info_data_len := data_len w authority_info in
  throw_if (key source_info =? key destination_info) InvalidAccountData;;
  source_data ← borrow [] w source_info;
  match unpack_ref PodAccount source_data with
  | Ok source => close_token_account w program_id destination_info authority_info
                   authority_info_data_len accounts source
  | _ =>
      match unpack_ref PodMint source_data with
      | Ok mint => close_mint w program_id authority_info authority_info_data_len accounts mint
      | _ => Err UninitializedAccount
      end
  end;;
  destination_lamports ←
    ok_or (checked_add 64 (info_lamports w destination_info) (info_lamports w source_info))
      (tok Overflow);
  let w := set_lamports w (key destination_info) destination_lamports in
  let w := set_lamports w (key source_info) 0 in
  delete_account w source_info.

(** Who may withdraw the lamports in excess of an account's rent. *)
Definition withdraw_excess_authority w (program_id : Pubkey)
    (source_info authority_info : AccountInfo) accounts (source_data : list byte) : res unit :=
  let validate owner :=
    validate_owner [] w program_id owner authority_info (data_len w authority_info) accounts in
  match unpack_ref PodAccount source_data with
  | Ok account =>
      throw_if (is_native (ref_base account)) (tok NativeNotSupported);;
      validate (acc_owner (ref_base account))
  | _ =>
      match unpack_ref PodMint source_data with
      | Ok mint =>
          let authority := mint_authority (ref_base mint) in
          match co_get authority with
          | Some mint_authority => validate mint_authority
          | None =>
              if (co_option authority =? NONE) && (key source_info =? key authority_info) then
                throw_if (negb (is_signer authority_info)) MissingRequiredSignature
              else Err (tok AuthorityTypeNotSupported)
          end
      | _ =>
          if (length source_data =? PodMultisig_SIZE_OF)%nat then validate (key source_info)
          else Err (tok InvalidState)
      end
  end.

(** [Processor::process_withdraw_excess_lamports] *)
Definition process_withdraw_excess_lamports (program_id : Pubkey) accounts w : res world :=
  '(source_info, accounts) ← next_account_info accounts;
  '(destination_info, accounts) ← next_account_info accounts;
  '(authority_info, accounts) ← next_account_info accounts;
  source_data ← borrow [] w source_info;
  withdraw_excess_authority w program_id source_info authority_info accounts source_data;;
  rent ← rent_get;
  let source_rent_exempt_reserve := minimum_balance rent (data_len w source_info) in
  transfer_amount ←
    ok_or (checked_sub 64 (info_lamports w source_info) source_rent_exempt_reserve)
      (tok NotRentExempt);
  transfer_lamports w source_info destination_info transfer_amount.
End handlers.
