(* ===== verification/AccountOpsFacts.v ===== *)
(** * What the token account handlers do

    The theorems on approving, revoking, freezing, synchronising, closing and
    withdrawing. *)
From S2P Require Import Prelude Codec Errors Runtime Pod State ExtensionType ExtensionData Tlv.
From S2P Require Import TlvAlloc StateExt Fee Authority Transfer AccountFacts TransferFacts Supply.
From S2P Require Import AccountOps.

Section facts.
Context `{rt : Runtime}.
Implicit Types (w : world) (st : PodStateMut PodAccount).

(** A handler that rewrites one account. *)
Lemma write_one w i st : state_ok PodAccount st →
  account_at (write_account w i st) (key i) = Some st ∧
  ∀ k, k ≠ key i → get_account (write_account w i st) k = get_account w k.
Proof.
  intros Hst. split; [by apply account_at_write|].
  intros k Hk. unfold write_account. by rewrite get_set_data, decide_False.
Qed.

Lemma set_state_ok a v : c_ok base_codec a → in_uint 8 v → c_ok base_codec (set_state v a).
Proof. cbn [base_codec PodAccount_PodState]. intros. solve_ok. Qed.

Lemma state_ok_set_state st s : state_ok PodAccount st → s ≠ Uninitialized →
  state_ok PodAccount (with_base (set_state (account_state_u8 s) (base st)) st).
Proof.
  intros Hst Hs. apply state_ok_with_base; [done| |by destruct s].
  apply set_state_ok; [apply Hst|]. destruct s; done.
Qed.

Lemma unpack_ref_account w k r : unpack_ref PodAccount (data (get_account w k)) = Ok r ↔
  ∃ st, account_at w k = Some st ∧ r = mkRef (base st) (tlv_data st).
Proof. rewrite unpack_ref_Ok. by setoid_rewrite account_at_Some. Qed.

Lemma unpack_ref_mint w k r : unpack_ref PodMint (data (get_account w k)) = Ok r ↔
  ∃ m, mint_at w k = Some m ∧ r = mkRef (base m) (tlv_data m).
Proof. rewrite unpack_ref_Ok. by setoid_rewrite mint_at_Some. Qed.

(** Lamports that move between two accounts. *)
Lemma transfer_lamports_Ok w i j amt w' : transfer_lamports w i j amt = Ok w' →
  (key i ≠ key j →
     info_lamports w' i = info_lamports w i - amt ∧
     info_lamports w' j = info_lamports w j + amt) ∧
  (key i = key j → info_lamports w' i = info_lamports w i) ∧
  (∀ k, k ≠ key i → k ≠ key j → get_account w' k = get_account w k) ∧
  ∀ k, data (get_account w' k) = data (get_account w k).
Proof.
  intros (a & Ha & (b & Hb & [= <-])%bind_Ok)%bind_Ok.
  apply ok_or_Ok, checked_sub_Some in Ha as [-> _].
  apply ok_or_Ok, checked_add_Some in Hb as [-> _]. unfold info_lamports.
  rewrite !lamports_set_lamports. split; [|split; [|split]].
  - intros Hij. repeat case_decide; split; congruence || lia.
  - intros ->. repeat case_decide; lia || done.
  - intros k Hi Hj. by rewrite !get_set_lamports, !decide_False.
  - intros k. by rewrite !data_set_lamports.
Qed.

Lemma get_delete_account w i w' : delete_account w i = Ok w' →
  ∀ k, get_account w' k = if decide (key i = k)
    then mkAccount (lamports (get_account w k)) [] system_program_id else get_account w k.
Proof.
  unfold delete_account, resize. case_match; [done|]. intros [= <-] k. unfold info_data. cbn [key].
  rewrite get_set_data, !get_set_owner. case_decide as Hk; [|done]. subst. rewrite !decide_True by done.
  cbn [lamports owner]. f_equal.
Qed.

(** The account holds no encrypted tokens and withholds no encrypted fees: the ciphertexts are
    those of zero without randomness. *)
Definition nothing_encrypted st : Prop :=
  let zeroed := zeros elgamal_ciphertext_len in
  (∀ c, get_account_ext ConfidentialTransferAccount (tlv_data st) = Ok c →
     cta_available_balance c = zeroed ∧ cta_pending_balance_lo c = zeroed ∧
     cta_pending_balance_hi c = zeroed) ∧
  (∀ e, get_account_ext ConfidentialTransferFeeAmount (tlv_data st) = Ok e →
     ctfa_withheld_amount e = zeroed).

(** The guards of closing. *)
Lemma close_token_account_Ok w pid di ai len accounts st :
  close_token_account w pid di ai len accounts (mkRef (base st) (tlv_data st)) = Ok tt →
  (is_native (base st) = true ∨ amount (base st) = 0) ∧ withheld st = 0 ∧
  nothing_encrypted st ∧
  (is_owned_by_system_program_or_incinerator (base st) = true ∧ key di = incinerator_id ∨
   key ai = co_unwrap_or (close_authority (base st)) (acc_owner (base st)) ∧
   validate_owner [] w pid (key ai) ai len accounts = Ok tt).
Proof.
  intros ([] & Hn & ([] & Hau & ([] & Hc & ([] & Hf & Hw)%bind_Ok)%bind_Ok)%bind_Ok)%bind_Ok.
  cbn [ref_base ref_tlv] in *. apply throw_if_Ok in Hn. split; [|split; [|split]].
  - destruct (is_native _); [by left|right]. by apply negb_false_iff, Z.eqb_eq in Hn.
  - unfold withheld. destruct (get_account_ext TransferFeeAmount _) as [a| |]; [|done..].
    unfold TransferFeeAmount_closable in Hw. by destruct (Z.eqb_spec (tfa_withheld_amount a) 0).
  - split.
    + intros c Hext. rewrite Hext in Hc. unfold ConfidentialTransferAccount_closable in Hc.
      apply throw_if_Ok, negb_false_iff, bool_decide_eq_true in Hc. naive_solver.
    + intros e Hext. rewrite Hext in Hf. unfold ConfidentialTransferFeeAmount_closable in Hf.
      by apply throw_if_Ok, negb_false_iff, bool_decide_eq_true in Hf.
  - destruct (is_owned_by_system_program_or_incinerator _); [left|right]; cbn [negb] in Hau.
    + by apply throw_if_Ok, negb_false_iff, Z.eqb_eq in Hau.
    + apply bind_Ok in Hau as ([] & _ & Hv).
      pose proof (validate_owner_key _ _ _ _ _ _ _ Hv) as Hka. by rewrite <-Hka in *.
Qed.

Lemma close_mint_at_Ok w k pid ai len accounts :
  match unpack_ref PodMint (data (get_account w k)) with
  | Ok mint => close_mint w pid ai len accounts mint
  | _ => Err UninitializedAccount
  end = Ok tt →
  ∃ m, mint_at w k = Some m ∧ supply (base m) = 0 ∧
    ∃ e, get_mint_ext MintCloseAuthority (tlv_data m) = Ok e ∧
      optional_get (mca_close_authority e) = Some (key ai) ∧
      validate_owner [] w pid (key ai) ai len accounts = Ok tt.
Proof.
  destruct (unpack_ref PodMint _) as [r| |] eqn:Hr; [|done..].
  apply unpack_ref_mint in Hr as (m & Hm & ->).
  intros (e & He & (auth & Ha & ([] & Hv & Hs)%bind_Ok)%bind_Ok)%bind_Ok.
  apply ok_or_Ok in Ha. apply throw_if_Ok, negb_false_iff, Z.eqb_eq in Hs.
  pose proof (validate_owner_key _ _ _ _ _ _ _ Hv) as Hka. rewrite <-Hka in *.
  exists m. split; [done|]. split; [done|]. by exists e.
Qed.
(** ** What a run did *)

(** The accounts of an approval. *)
Definition approve_accounts (v : InstructionVariant) (source mint delegate owner : AccountInfo)
    (signers : list AccountInfo) : list AccountInfo :=
  match v with
  | Unchecked => source :: delegate :: owner :: signers
  | Checked _ => source :: mint :: delegate :: owner :: signers
  end.

(** What a checked instruction knows of the mint. *)
Definition checked_mint w (v : InstructionVariant) st (mint : AccountInfo) : Prop :=
  match v with
  | Unchecked => True
  | Checked dec => ∃ m, mint_at w (key mint) = Some m ∧ acc_mint (base st) = key mint ∧
      decimals (base m) = dec
  end.

Lemma process_approve_Ok pid si mi di oi signers amt v w w' :
  in_uint 256 (key di) → in_uint 64 amt →
  process_approve pid (approve_accounts v si mi di oi signers) amt v w = Ok w' →
  ∃ s, account_at w (key si) = Some s ∧ is_frozen (base s) = false ∧
    guarded_in_cpi s = false ∧ checked_mint w v s mi ∧ key oi = acc_owner (base s) ∧
    validate_owner [key si] w pid (key oi) oi (data_len w oi) signers = Ok tt ∧
    let s' := with_base
      (set_delegated_amount amt (set_delegate (co_some (key di)) (base s))) s in
    state_ok PodAccount s' ∧ w' = write_account w si s'.
Proof.
  intros Hdi Hamt H. unfold process_approve in H.
  assert (∃ rest, approve_accounts v si mi di oi signers = si :: rest ∧
    expected_mint_info v rest = Ok (match v with Checked dec => Some (mi, dec) | _ => None end,
                                    di :: oi :: signers)) as (rest & Hacc & He)
    by (destruct v; by eexists).
  rewrite Hacc in H. cbn [next_account_info] in H. rewrite Ok_bind, He, Ok_bind in H.
  do 2 (cbn [next_account_info] in H; rewrite Ok_bind in H).
  apply bind_Ok in H as (sd & [_ ->]%borrow_Ok & (s & Hs & ([] & Hf & ([] & Hc & H)
    %bind_Ok)%bind_Ok)%bind_Ok).
  apply bind_Ok in H as ([] & Hv & ([] & Hg & [= <-])%bind_Ok).
  apply throw_if_Ok in Hf, Hg. apply account_at_Some in Hs.
  pose proof (validate_owner_key _ _ _ _ _ _ _ Hv) as Hk. rewrite Hk.
  exists s. split_and!; try done.
  - destruct v as [|dec]; [done|].
    apply bind_Ok in Hc as ([] & Hm & (md & [_ ->]%borrow_Ok & (r & Hr & Hd)%bind_Ok)%bind_Ok).
    apply throw_if_Ok, negb_false_iff, Z.eqb_eq in Hm, Hd.
    apply unpack_ref_mint in Hr as (m & Hm' & ->). by exists m.
  - split; [|done].
    pose proof (account_at_ok _ _ _ Hs) as Hok. apply state_ok_base; [done| |done].
    apply set_delegated_amount_ok; [apply set_delegate_ok|done]; [apply Hok|by apply co_some_ok].
Qed.

Lemma process_revoke_Ok pid si ai signers w w' :
  process_revoke pid (si :: ai :: signers) w = Ok w' →
  ∃ s, account_at w (key si) = Some s ∧ is_frozen (base s) = false ∧
    (co_get (delegate (base s)) = Some (key ai) ∨ key ai = acc_owner (base s)) ∧
    validate_owner [key si] w pid (key ai) ai (data_len w ai) signers = Ok tt ∧
    let s' := with_base (set_delegated_amount 0 (set_delegate co_none (base s))) s in
    state_ok PodAccount s' ∧ w' = write_account w si s'.
Proof.
  intros H. unfold process_revoke in H.
  repeat (cbn [next_account_info] in H; rewrite Ok_bind in H).
  apply bind_Ok in H as (sd & [_ ->]%borrow_Ok & (s & Hs & ([] & Hf & H)%bind_Ok)%bind_Ok).
  apply bind_Ok in H as ([] & Hv & [= <-]). apply throw_if_Ok in Hf. apply account_at_Some in Hs.
  pose proof (validate_owner_key _ _ _ _ _ _ _ Hv) as Hk.
  exists s. do 2 (split; [done|]). split; [case_bool_decide; [by left|by right]|].
  split; [by case_bool_decide; [|rewrite <-Hk in Hv]|]. split; [|done].
  pose proof (account_at_ok _ _ _ Hs) as Hok. apply state_ok_base; [done| |done].
  apply set_delegated_amount_ok; [apply set_delegate_ok|done]; [apply Hok|apply co_none_ok].
Qed.

Lemma process_toggle_freeze_Ok pid si mi ai signers freeze w w' :
  process_toggle_freeze_account pid (si :: mi :: ai :: signers) freeze w = Ok w' →
  ∃ s m, account_at w (key si) = Some s ∧ mint_at w (key mi) = Some m ∧
    acc_mint (base s) = key mi ∧ is_frozen (base s) = negb freeze ∧ is_native (base s) = false ∧
    co_get (freeze_authority (base m)) = Some (key ai) ∧
    validate_owner [key si] w pid (key ai) ai (data_len w ai) signers = Ok tt ∧
    let s' := with_base
      (set_state (account_state_u8 (if freeze then Frozen else Initialized)) (base s)) s in
    state_ok PodAccount s' ∧ w' = write_account w si s'.
Proof.
  intros H. unfold process_toggle_freeze_account in H.
  do 3 (cbn [next_account_info] in H; rewrite Ok_bind in H).
  apply bind_Ok in H as (sd & [_ ->]%borrow_Ok & (s & Hs & ([] & Hf & H)%bind_Ok)%bind_Ok).
  apply bind_Ok in H as ([] & Hn & ([] & Hk & (md & [_ ->]%borrow_Ok & (r & Hr & ([] & Hv &
    [= <-])%bind_Ok)%bind_Ok)%bind_Ok)%bind_Ok).
  apply throw_if_Ok in Hf, Hn. apply throw_if_Ok, negb_false_iff, Z.eqb_eq in Hk.
  apply account_at_Some in Hs. apply unpack_ref_mint in Hr as (m & Hm & ->).
  cbn [ref_base] in Hv. destruct (co_get _) as [auth|] eqn:Ha; [|done].
  pose proof (validate_owner_key _ _ _ _ _ _ _ Hv) as Hka. rewrite <-Hka in Ha, Hv.
  exists s, m. split_and!; try done.
  - by destruct freeze, (is_frozen _).
  - split; [|done]. apply state_ok_set_state; [by eapply account_at_ok|by destruct freeze].
Qed.

Lemma process_sync_native_Ok ni rest w w' :
  process_sync_native (ni :: rest) w = Ok w' →
  ∃ s reserve, account_at w (key ni) = Some s ∧ co_get (is_native_opt (base s)) = Some reserve ∧
    info_owner w ni = id ∧ amount (base s) ≤ info_lamports w ni - reserve ∧
    let s' := with_base (set_amount (info_lamports w ni - reserve) (base s)) s in
    state_ok PodAccount s' ∧ w' = write_account w ni s'.
Proof.
  intros H. unfold process_sync_native in H. cbn [next_account_info] in H. rewrite Ok_bind in H.
  apply bind_Ok in H as ([] & Ho & (sd & [_ ->]%borrow_Ok & (s & Hs & H)%bind_Ok)%bind_Ok).
  apply throw_if_Ok, negb_false_iff, Z.eqb_eq in Ho. apply account_at_Some in Hs.
  destruct (co_get _) as [reserve|] eqn:Hn; [|done].
  apply bind_Ok in H as (na & Hna & ([] & Hlt & [= <-])%bind_Ok).
  apply ok_or_Ok, checked_sub_Some in Hna as [-> Hna]. apply throw_if_Ok, Z.ltb_ge in Hlt.
  exists s, reserve. do 4 (split; [done|]). split; [|done].
  pose proof (account_at_ok _ _ _ Hs) as Hok. apply state_ok_base; [done| |done].
  apply set_amount_ok; [apply Hok|done].
Qed.
(** An account that was closed. *)
Definition closed_account : SolAccount := mkAccount 0 [] system_program_id.

Lemma process_close_account_Ok pid si di ai signers w w' :
  process_close_account pid (si :: di :: ai :: signers) w = Ok w' →
  key si ≠ key di ∧
  ((∃ s, account_at w (key si) = Some s ∧
      (is_native (base s) = true ∨ amount (base s) = 0) ∧ withheld s = 0 ∧
      nothing_encrypted s ∧
      (is_owned_by_system_program_or_incinerator (base s) = true ∧ key di = incinerator_id ∨
       key ai = co_unwrap_or (close_authority (base s)) (acc_owner (base s)) ∧
       validate_owner [] w pid (key ai) ai (data_len w ai) signers = Ok tt)) ∨
   (∃ m, mint_at w (key si) = Some m ∧ supply (base m) = 0 ∧
      ∃ e, get_mint_ext MintCloseAuthority (tlv_data m) = Ok e ∧
        optional_get (mca_close_authority e) = Some (key ai) ∧
        validate_owner [] w pid (key ai) ai (data_len w ai) signers = Ok tt)) ∧
  ∀ k, get_account w' k = get_account (set_account
    (set_lamports w (key di) (info_lamports w di + info_lamports w si)) (key si) closed_account) k.
Proof.
  intros H. unfold process_close_account in H.
  do 3 (cbn [next_account_info] in H; rewrite Ok_bind in H).
  apply bind_Ok in H as ([] & Hk%throw_if_Ok%Z.eqb_neq & (sd & [_ ->]%borrow_Ok & H)%bind_Ok).
  apply bind_Ok in H as ([] & Hg & (l & Hl & H)%bind_Ok).
  apply ok_or_Ok, checked_add_Some in Hl as [-> _].
  split; [done|]. split.
  - unfold info_data in Hg. destruct (unpack_ref PodAccount _) as [r| |] eqn:Hr; [left|right..].
    + apply unpack_ref_account in Hr as (s & Hs & ->). exists s. split; [done|].
      by apply close_token_account_Ok in Hg.
    + by apply close_mint_at_Ok in Hg.
    + by apply close_mint_at_Ok in Hg.
  - intros k. rewrite (get_delete_account _ _ _ H), get_set_account, !get_set_lamports.
    repeat case_decide; done || congruence.
Qed.

Lemma process_withdraw_excess_lamports_Ok pid si di ai signers w w' :
  process_withdraw_excess_lamports pid (si :: di :: ai :: signers) w = Ok w' →
  ∃ r, rent_get = Ok r ∧
    let reserve := minimum_balance r (data_len w si) in
    reserve ≤ info_lamports w si ∧
    transfer_lamports w si di (info_lamports w si - reserve) = Ok w' ∧
    ∀ s, account_at w (key si) = Some s → is_native (base s) = false ∧
      key ai = acc_owner (base s) ∧
      validate_owner [] w pid (key ai) ai (data_len w ai) signers = Ok tt.
Proof.
  intros H. unfold process_withdraw_excess_lamports in H.
  do 3 (cbn [next_account_info] in H; rewrite Ok_bind in H).
  apply bind_Ok in H as (sd & [_ ->]%borrow_Ok & ([] & Ha & (r & Hr & (t & Ht & H)
    %bind_Ok)%bind_Ok)%bind_Ok).
  apply ok_or_Ok, checked_sub_Some in Ht as [-> [Ht _]].
  exists r. split; [done|]. split; [lia|]. split; [done|].
  intros s Hs. unfold withdraw_excess_authority in Ha.
  assert (unpack_ref PodAccount (info_data w si) = Ok (mkRef (base s) (tlv_data s))) as E.
  { apply unpack_ref_account. by exists s. }
  rewrite E in Ha. cbn [ref_base] in Ha. apply bind_Ok in Ha as ([] & Hn%throw_if_Ok & Hv).
  pose proof (validate_owner_key _ _ _ _ _ _ _ Hv) as Hka. by rewrite <-Hka in *.
Qed.
End facts.

(** ** Properties *)
Section properties.
Context (rt : Runtime).
Implicit Types (w : world).

(** Only the owner of an account that is not frozen can approve a delegate, and
    approving changes the delegate and its allowance, nothing else. *)
Theorem process_approve_effect pid si mi di oi signers amt v w w' :
  in_uint 256 (key di) → in_uint 64 amt →
  process_approve pid (approve_accounts v si mi di oi signers) amt v w = Ok w' →
  ∃ s, account_at w (key si) = Some s ∧ is_frozen (base s) = false ∧
    guarded_in_cpi s = false ∧ checked_mint w v s mi ∧ key oi = acc_owner (base s) ∧
    validate_owner [key si] w pid (key oi) oi (data_len w oi) signers = Ok tt ∧
    account_at w' (key si) = Some (with_base
      (set_delegated_amount amt (set_delegate (co_some (key di)) (base s))) s) ∧
    ∀ k, k ≠ key si → get_account w' k = get_account w k.
Proof.
  intros Hdi Hamt H.
  destruct (process_approve_Ok _ _ _ _ _ _ _ _ _ _ Hdi Hamt H)
    as (s & ? & ? & ? & ? & ? & ? & Hs & ->).
  exists s. do 6 (split; [done|]). by apply write_one.
Qed.

(** The owner, or the delegate itself, can revoke a delegation: afterwards there
    is no delegate and no allowance. *)
Theorem process_revoke_effect pid si ai signers w w' :
  process_revoke pid (si :: ai :: signers) w = Ok w' →
  ∃ s, account_at w (key si) = Some s ∧ is_frozen (base s) = false ∧
    (co_get (delegate (base s)) = Some (key ai) ∨ key ai = acc_owner (base s)) ∧
    validate_owner [key si] w pid (key ai) ai (data_len w ai) signers = Ok tt ∧
    account_at w' (key si) = Some (with_base
      (set_delegated_amount 0 (set_delegate co_none (base s))) s) ∧
    ∀ k, k ≠ key si → get_account w' k = get_account w k.
Proof.
  intros (s & ? & ? & ? & ? & Hs & ->)%process_revoke_Ok.
  exists s. do 4 (split; [done|]). by apply write_one.
Qed.

(** freezing and thawing need the freeze authority of the account's own mint,
    flip the state and keep everything else: balances, delegate, extensions. *)
Theorem process_toggle_freeze_effect pid si mi ai signers freeze w w' :
  process_toggle_freeze_account pid (si :: mi :: ai :: signers) freeze w = Ok w' →
  ∃ s m, account_at w (key si) = Some s ∧ mint_at w (key mi) = Some m ∧
    acc_mint (base s) = key mi ∧ is_frozen (base s) = negb freeze ∧ is_native (base s) = false ∧
    co_get (freeze_authority (base m)) = Some (key ai) ∧
    validate_owner [key si] w pid (key ai) ai (data_len w ai) signers = Ok tt ∧
    account_at w' (key si) = Some (with_base
      (set_state (account_state_u8 (if freeze then Frozen else Initialized)) (base s)) s) ∧
    ∀ k, k ≠ key si → get_account w' k = get_account w k.
Proof.
  intros (s & m & ? & ? & ? & ? & ? & ? & ? & Hs & ->)%process_toggle_freeze_Ok.
  exists s, m. do 7 (split; [done|]). by apply write_one.
Qed.

(** Synchronising sets the amount of a native account to the lamports above its
    rent reserve, never below what it was. *)
Theorem process_sync_native_effect ni rest w w' :
  process_sync_native (ni :: rest) w = Ok w' →
  ∃ s reserve, account_at w (key ni) = Some s ∧ co_get (is_native_opt (base s)) = Some reserve ∧
    info_owner w ni = id ∧ amount (base s) ≤ info_lamports w ni - reserve ∧
    account_at w' (key ni) =
      Some (with_base (set_amount (info_lamports w ni - reserve) (base s)) s) ∧
    ∀ k, k ≠ key ni → get_account w' k = get_account w k.
Proof.
  intros (s & r & ? & ? & ? & ? & Hs & ->)%process_sync_native_Ok.
  exists s, r. do 4 (split; [done|]). by apply write_one.
Qed.

(** C26: what may be closed, by whom, and what closing leaves.  The closed account
    is a token account that holds nothing, neither in the open (a native one is backed by the
    lamports it gives back) nor encrypted, and withholds no fees of either kind, or a mint
    without public supply; its close authority or owner signed; its lamports go to the
    destination, and it is left empty and owned by the system program.  Of a mint that mints
    confidentially the encrypted supply is not looked at. *)
Theorem process_close_account_effect pid si di ai signers w w' :
  process_close_account pid (si :: di :: ai :: signers) w = Ok w' →
  key si ≠ key di ∧
  ((∃ s, account_at w (key si) = Some s ∧
      (is_native (base s) = true ∨ amount (base s) = 0) ∧ withheld s = 0 ∧
      nothing_encrypted s ∧
      (is_owned_by_system_program_or_incinerator (base s) = true ∧ key di = incinerator_id ∨
       key ai = co_unwrap_or (close_authority (base s)) (acc_owner (base s)) ∧
       validate_owner [] w pid (key ai) ai (data_len w ai) signers = Ok tt)) ∨
   (∃ m, mint_at w (key si) = Some m ∧ supply (base m) = 0 ∧
      ∃ e, get_mint_ext MintCloseAuthority (tlv_data m) = Ok e ∧
        optional_get (mca_close_authority e) = Some (key ai) ∧
        validate_owner [] w pid (key ai) ai (data_len w ai) signers = Ok tt)) ∧
  get_account w' (key si) = mkAccount 0 [] system_program_id ∧
  info_lamports w' di = info_lamports w di + info_lamports w si ∧
  data (get_account w' (key di)) = data (get_account w (key di)) ∧
  ∀ k, k ≠ key si → k ≠ key di → get_account w' k = get_account w k.
Proof.
  intros (Hk & Hg & Hget)%process_close_account_Ok. split; [done|]. split; [done|].
  unfold info_lamports. rewrite !Hget, !get_set_account, !get_set_lamports.
  rewrite decide_True, !(decide_False (P:=key si = key di)), decide_True by done.
  do 3 (split; [done|]). intros k Hks Hkd.
  by rewrite Hget, get_set_account, get_set_lamports, !decide_False.
Qed.

(** withdrawing the lamports in excess of the rent leaves the source exactly at
    its rent-exempt minimum and gives the rest to the destination; no account's
    data changes, so no tokens do. *)
Theorem process_withdraw_excess_lamports_effect pid si di ai signers w w' :
  process_withdraw_excess_lamports pid (si :: di :: ai :: signers) w = Ok w' →
  ∃ r, rent_get = Ok r ∧
    let reserve := minimum_balance r (data_len w si) in
    reserve ≤ info_lamports w si ∧
    (key si ≠ key di → info_lamports w' si = reserve ∧
       info_lamports w' di = info_lamports w di + (info_lamports w si - reserve)) ∧
    (key si = key di → info_lamports w' si = info_lamports w si) ∧
    (∀ k, data (get_account w' k) = data (get_account w k)) ∧
    (∀ k, k ≠ key si → k ≠ key di → get_account w' k = get_account w k) ∧
    (∀ s, account_at w (key si) = Some s → is_native (base s) = false ∧
       key ai = acc_owner (base s) ∧
       validate_owner [] w pid (key ai) ai (data_len w ai) signers = Ok tt).
Proof.
  intros (r & Hr & Hle & (H1 & H2 & H3 & H4)%transfer_lamports_Ok & Ha)
    %process_withdraw_excess_lamports_Ok.
  exists r. split; [done|]. cbv zeta. split_and!; try done.
  intros Hk. destruct (H1 Hk). lia.
Qed.
End properties.
