(* ===== verification/SetAuthority.v ===== *)
(** * [Processor::process_set_authority]

    The seventeen authorities of accounts and mints, and who may change each. *)
From S2P Require Import Prelude Codec Errors Runtime Pod State ExtensionType ExtensionData Tlv.
From S2P Require Import TlvAlloc StateExt Fee Authority Transfer AccountFacts TransferFacts Supply.
From S2P Require Import AccountOps AccountOpsFacts.

(** [AuthorityType] of [interface/src/instruction.rs] *)
Module AuthorityType.
Inductive t :=
| MintTokens
| FreezeAccount
| AccountOwner
| CloseAccount
| TransferFeeConfig
| WithheldWithdraw
| CloseMint
| InterestRate
| PermanentDelegate
| ConfidentialTransferMint
| TransferHookProgramId
| ConfidentialTransferFeeConfig
| MetadataPointer
| GroupPointer
| GroupMemberPointer
| ScaledUiAmount
| Pause.
#[global] Instance eq_dec : EqDecision t.
Proof. solve_decision. Defined.
End AuthorityType.
Abbreviation AuthorityType := AuthorityType.t.

(** [AuthorityType::into] and [AuthorityType::from] *)
Definition authority_type_into (t : AuthorityType) : Z :=
  match t with
  | AuthorityType.MintTokens => 0
  | AuthorityType.FreezeAccount => 1
  | AuthorityType.AccountOwner => 2
  | AuthorityType.CloseAccount => 3
  | AuthorityType.TransferFeeConfig => 4
  | AuthorityType.WithheldWithdraw => 5
  | AuthorityType.CloseMint => 6
  | AuthorityType.InterestRate => 7
  | AuthorityType.PermanentDelegate => 8
  | AuthorityType.ConfidentialTransferMint => 9
  | AuthorityType.TransferHookProgramId => 10
  | AuthorityType.ConfidentialTransferFeeConfig => 11
  | AuthorityType.MetadataPointer => 12
  | AuthorityType.GroupPointer => 13
  | AuthorityType.GroupMemberPointer => 14
  | AuthorityType.ScaledUiAmount => 15
  | AuthorityType.Pause => 16
  end.
Definition authority_type_from (index : Z) : res AuthorityType :=
  match index with
  | 0 => Ok AuthorityType.MintTokens
  | 1 => Ok AuthorityType.FreezeAccount
  | 2 => Ok AuthorityType.AccountOwner
  | 3 => Ok AuthorityType.CloseAccount
  | 4 => Ok AuthorityType.TransferFeeConfig
  | 5 => Ok AuthorityType.WithheldWithdraw
  | 6 => Ok AuthorityType.CloseMint
  | 7 => Ok AuthorityType.InterestRate
  | 8 => Ok AuthorityType.PermanentDelegate
  | 9 => Ok AuthorityType.ConfidentialTransferMint
  | 10 => Ok AuthorityType.TransferHookProgramId
  | 11 => Ok AuthorityType.ConfidentialTransferFeeConfig
  | 12 => Ok AuthorityType.MetadataPointer
  | 13 => Ok AuthorityType.GroupPointer
  | 14 => Ok AuthorityType.GroupMemberPointer
  | 15 => Ok AuthorityType.ScaledUiAmount
  | 16 => Ok AuthorityType.Pause
  | _ => Err (tok InvalidInstruction)
  end.

(** An authority field of an extension. *)
Record authority_field (V : Type) := mkField {
  field_get : V → Pubkey;
  field_set : Pubkey → V → V;
}.
Arguments mkField {V}.
Arguments field_get {V}.
Arguments field_set {V}.

Definition CloseMint_field : authority_field MintCloseAuthority :=
  mkField mca_close_authority (λ k _, mkMintCloseAuthority k).
Definition TransferFeeConfig_field : authority_field TransferFeeConfig :=
  mkField tfc_transfer_fee_config_authority (λ k e, mkTransferFeeConfig k
    (tfc_withdraw_withheld_authority e) (tfc_withheld_amount e) (tfc_older_transfer_fee e)
    (tfc_newer_transfer_fee e)).
Definition WithheldWithdraw_field : authority_field TransferFeeConfig :=
  mkField tfc_withdraw_withheld_authority (λ k e, mkTransferFeeConfig
    (tfc_transfer_fee_config_authority e) k (tfc_withheld_amount e) (tfc_older_transfer_fee e)
    (tfc_newer_transfer_fee e)).
Definition InterestRate_field : authority_field InterestBearingConfig :=
  mkField ibc_rate_authority (λ k e, mkInterestBearingConfig k (ibc_initialization_timestamp e)
    (ibc_pre_update_average_rate e) (ibc_last_update_timestamp e) (ibc_current_rate e)).
Definition PermanentDelegate_field : authority_field PermanentDelegate :=
  mkField pd_delegate (λ k _, mkPermanentDelegate k).
Definition ConfidentialTransferMint_field : authority_field ConfidentialTransferMint :=
  mkField ctm_authority (λ k e, mkConfidentialTransferMint k (ctm_auto_approve_new_accounts e)
    (ctm_auditor_elgamal_pubkey e)).
Definition TransferHook_field : authority_field TransferHook :=
  mkField th_authority (λ k e, mkTransferHook k (th_program_id e)).
Definition ConfidentialTransferFeeConfig_field : authority_field ConfidentialTransferFeeConfig :=
  mkField ctfc_authority (λ k e, mkConfidentialTransferFeeConfig k
    (ctfc_withdraw_withheld_authority_elgamal_pubkey e) (ctfc_harvest_to_mint_enabled e)
    (ctfc_withheld_amount e)).
Definition MetadataPointer_field : authority_field MetadataPointer :=
  mkField mp_authority (λ k e, mkMetadataPointer k (mp_metadata_address e)).
Definition GroupPointer_field : authority_field GroupPointer :=
  mkField gp_authority (λ k e, mkGroupPointer k (gp_group_address e)).
Definition GroupMemberPointer_field : authority_field GroupMemberPointer :=
  mkField gmp_authority (λ k e, mkGroupMemberPointer k (gmp_member_address e)).
Definition ScaledUiAmount_field : authority_field ScaledUiAmountConfig :=
  mkField sua_authority (λ k e, mkScaledUiAmountConfig k (sua_multiplier e)
    (sua_new_multiplier_effective_timestamp e) (sua_new_multiplier e)).
Definition Pause_field : authority_field PausableConfig :=
  mkField pc_authority (λ k e, mkPausableConfig k (pc_paused e)).

Section set_authority.
Context `{rt : Runtime}.
(** [validate_owner] with the authority account of the instruction. *)
Variable validate : Pubkey → res unit.
Variable new_authority : PodCOption.
Implicit Types (account : PodStateMut PodAccount) (mint : PodStateMut PodMint).

(** [AuthorityType::AccountOwner] *)
Definition set_account_owner account : res (PodStateMut PodAccount) :=
  validate (acc_owner (base account));;
  throw_if (is_ok (get_account_ext ImmutableOwner (tlv_data account))) (tok Errors.ImmutableOwner);;
  match get_account_ext CpiGuard (tlv_data account) with
  | Ok cpi_guard =>
      if pod_bool (cg_lock_cpi cpi_guard) && in_cpi then Err (tok CpiGuardSetAuthorityBlocked)
      else if pod_bool (cg_lock_cpi cpi_guard) then Err (tok CpiGuardOwnerChangeBlocked)
      else Ok tt
  | _ => Ok tt
  end;;
  authority ← ok_or (co_get new_authority) (tok InvalidInstruction);
  let base := set_delegated_amount 0 (set_delegate co_none
                (set_owner_field authority (base account))) in
  let base := if is_native base then set_close_authority co_none base else base in
  Ok (with_base base account).

(** [AuthorityType::CloseAccount] *)
Definition set_account_close_authority account : res (PodStateMut PodAccount) :=
  validate (co_unwrap_or (close_authority (base account)) (acc_owner (base account)));;
  match get_account_ext CpiGuard (tlv_data account) with
  | Ok cpi_guard =>
      throw_if (pod_bool (cg_lock_cpi cpi_guard) && in_cpi && co_is_some new_authority)
        (tok CpiGuardSetAuthorityBlocked)
  | _ => Ok tt
  end;;
  Ok (with_base (set_close_authority new_authority (base account)) account).

Definition set_authority_account (t : AuthorityType) account : res (PodStateMut PodAccount) :=
  throw_if (is_frozen (base account)) (tok AccountFrozen);;
  match t with
  | AuthorityType.AccountOwner => set_account_owner account
  | AuthorityType.CloseAccount => set_account_close_authority account
  | _ => Err (tok AuthorityTypeNotSupported)
  end.

(** The branch of every authority that an extension of the mint holds. *)
Definition set_extension_authority {V} `{Extension V} (f : authority_field V) mint :
    res (PodStateMut PodMint) :=
  extension ← get_mint_ext V (tlv_data mint);
  authority ← ok_or (optional_get (field_get f extension)) (tok AuthorityTypeNotSupported);
  validate authority;;
  new_authority ← optional_try_from new_authority;
  Ok (with_tlv (put_extension PodMint (field_set f new_authority extension) (tlv_data mint))
        mint).

Definition set_authority_mint (t : AuthorityType) mint : res (PodStateMut PodMint) :=
  match t with
  | AuthorityType.MintTokens =>
      mint_authority ← co_ok_or (mint_authority (base mint)) (tok FixedSupply);
      validate mint_authority;;
      Ok (with_base (set_mint_authority new_authority (base mint)) mint)
  | AuthorityType.FreezeAccount =>
      freeze_authority ← co_ok_or (freeze_authority (base mint)) (tok MintCannotFreeze);
      validate freeze_authority;;
      Ok (with_base (set_freeze_authority new_authority (base mint)) mint)
  | AuthorityType.CloseMint => set_extension_authority CloseMint_field mint
  | AuthorityType.TransferFeeConfig => set_extension_authority TransferFeeConfig_field mint
  | AuthorityType.WithheldWithdraw => set_extension_authority WithheldWithdraw_field mint
  | AuthorityType.InterestRate => set_extension_authority InterestRate_field mint
  | AuthorityType.PermanentDelegate => set_extension_authority PermanentDelegate_field mint
  | AuthorityType.ConfidentialTransferMint =>
      set_extension_authority ConfidentialTransferMint_field mint
  | AuthorityType.TransferHookProgramId => set_extension_authority TransferHook_field mint
  | AuthorityType.ConfidentialTransferFeeConfig =>
      set_extension_authority ConfidentialTransferFeeConfig_field mint
  | AuthorityType.MetadataPointer => set_extension_authority MetadataPointer_field mint
  | AuthorityType.GroupPointer => set_extension_authority GroupPointer_field mint
  | AuthorityType.GroupMemberPointer => set_extension_authority GroupMemberPointer_field mint
  | AuthorityType.ScaledUiAmount => set_extension_authority ScaledUiAmount_field mint
  | AuthorityType.Pause => set_extension_authority Pause_field mint
  | AuthorityType.AccountOwner | AuthorityType.CloseAccount =>
      Err (tok AuthorityTypeNotSupported)
  end.
End set_authority.

(** [Processor::process_set_authority] *)
Definition process_set_authority `{Runtime} (program_id : Pubkey) (accounts : list AccountInfo)
    (authority_type : AuthorityType) (new_authority : PodCOption) (w : world) : res world :=
  '(account_info, accounts) ← next_account_info accounts;
  '(authority_info, accounts) ← next_account_info accounts;
  let authority_info_data_len := data_len w authority_info in
  account_data ← borrow [] w account_info;
  let validate expected_owner :=
    validate_owner [key account_info] w program_id expected_owner authority_info
      authority_info_data_len accounts in
  match unpack_account account_data with
  | Ok account =>
      account ← set_authority_account validate new_authority authority_type account;
      Ok (write_account w account_info account)
  | _ =>
      match unpack_mint account_data with
      | Ok mint =>
          mint ← set_authority_mint validate new_authority authority_type mint;
          Ok (write_mint w account_info mint)
      | _ => Err InvalidAccountData
      end
  end.
