(* ===== verification/SetAuthorityFacts.v ===== *)
(** * What [process_set_authority] does

    Every authority of a mint is changed only by its current holder, is gone for
    good once it is unset, and changes independently of the others; an account
    changes hands only when its owner says so. *)
From S2P Require Import Prelude Codec Errors Runtime Pod State ExtensionType ExtensionData Tlv.
From S2P Require Import TlvAlloc StateExt Fee Authority Transfer AccountFacts TransferFacts Supply.
From S2P Require Import AccountOps AccountOpsFacts SetAuthority.

(** An authority field with its extension, and the laws of the field. *)
Record ext_field := mkExtField {
  ef_type : Type;
  ef_ext : Extension ef_type;
  ef_field : authority_field ef_type;
  ef_set_ok : ∀ k e, in_uint 256 k → c_ok (ext_codec (V:=ef_type)) e →
    c_ok (ext_codec (V:=ef_type)) (field_set ef_field k e);
  ef_get_set : ∀ k e, field_get ef_field (field_set ef_field k e) = k;
}.
#[export] Existing Instance ef_ext.

(** Fields of an updated struct are those of the old one, but for one key. *)
Ltac field_ok Hk He :=
  first [exact Hk | exact He |
    let H1 := fresh in let H2 := fresh in
    destruct He as [H1 H2]; split; [field_ok Hk H1|field_ok Hk H2]].
Ltac solve_field :=
  intros k e; first [reflexivity|intros Hk He; field_ok Hk He].

Section fields.
Context `{rt : Runtime}.

Program Definition CloseMint_ef := mkExtField _ _ CloseMint_field _ _.
Solve All Obligations with solve_field.
Program Definition TransferFeeConfig_ef := mkExtField _ _ TransferFeeConfig_field _ _.
Solve All Obligations with solve_field.
Program Definition WithheldWithdraw_ef := mkExtField _ _ WithheldWithdraw_field _ _.
Solve All Obligations with solve_field.
Program Definition InterestRate_ef := mkExtField _ _ InterestRate_field _ _.
Solve All Obligations with solve_field.
Program Definition PermanentDelegate_ef := mkExtField _ _ PermanentDelegate_field _ _.
Solve All Obligations with solve_field.
Program Definition ConfidentialTransferMint_ef := mkExtField _ _ ConfidentialTransferMint_field _ _.
Solve All Obligations with solve_field.
Program Definition TransferHook_ef := mkExtField _ _ TransferHook_field _ _.
Solve All Obligations with solve_field.
Program Definition ConfidentialTransferFeeConfig_ef :=
  mkExtField _ _ ConfidentialTransferFeeConfig_field _ _.
Solve All Obligations with solve_field.
Program Definition MetadataPointer_ef := mkExtField _ _ MetadataPointer_field _ _.
Solve All Obligations with solve_field.
Program Definition GroupPointer_ef := mkExtField _ _ GroupPointer_field _ _.
Solve All Obligations with solve_field.
Program Definition GroupMemberPointer_ef := mkExtField _ _ GroupMemberPointer_field _ _.
Solve All Obligations with solve_field.
Program Definition ScaledUiAmount_ef := mkExtField _ _ ScaledUiAmount_field _ _.
Solve All Obligations with solve_field.
Program Definition Pause_ef := mkExtField _ _ Pause_field _ _.
Solve All Obligations with solve_field.

(** The field an authority of a mint is stored in, if it is in an extension. *)
Definition mint_field (t : AuthorityType) : option ext_field :=
  match t with
  | AuthorityType.CloseMint => Some CloseMint_ef
  | AuthorityType.TransferFeeConfig => Some TransferFeeConfig_ef
  | AuthorityType.WithheldWithdraw => Some WithheldWithdraw_ef
  | AuthorityType.InterestRate => Some InterestRate_ef
  | AuthorityType.PermanentDelegate => Some PermanentDelegate_ef
  | AuthorityType.ConfidentialTransferMint => Some ConfidentialTransferMint_ef
  | AuthorityType.TransferHookProgramId => Some TransferHook_ef
  | AuthorityType.ConfidentialTransferFeeConfig => Some ConfidentialTransferFeeConfig_ef
  | AuthorityType.MetadataPointer => Some MetadataPointer_ef
  | AuthorityType.GroupPointer => Some GroupPointer_ef
  | AuthorityType.GroupMemberPointer => Some GroupMemberPointer_ef
  | AuthorityType.ScaledUiAmount => Some ScaledUiAmount_ef
  | AuthorityType.Pause => Some Pause_ef
  | _ => None
  end.

(** The holder of an authority of a mint. *)
Definition field_authority (f : ext_field) (m : PodStateMut PodMint) : option Pubkey :=
  e ← ok_opt (get_mint_ext (ef_type f) (tlv_data m));
  optional_get (field_get (ef_field f) e).

Definition mint_authority_of (t : AuthorityType) (m : PodStateMut PodMint) : option Pubkey :=
  match t with
  | AuthorityType.MintTokens => co_get (mint_authority (base m))
  | AuthorityType.FreezeAccount => co_get (freeze_authority (base m))
  | t => f ← mint_field t; field_authority f m
  end.
End fields.

Section facts.
Context `{rt : Runtime}.
Implicit Types (m : PodStateMut PodMint) (f : ext_field) (o : PodCOption).

Lemma set_authority_mint_field validate o t m f : mint_field t = Some f →
  set_authority_mint validate o t m = set_extension_authority validate o (ef_field f) m.
Proof. by destruct t; intros [= <-]. Qed.

Lemma optional_try_from_Ok o k : optional_try_from o = Ok k → optional_get k = co_get o.
Proof.
  unfold optional_try_from, optional_get, co_get.
  destruct (co_option o =? SOME).
  - destruct (Z.eqb_spec (co_value o) Pubkey_default); [done|]. intros [= <-].
    by rewrite (proj2 (Z.eqb_neq _ _)).
  - destruct (co_option o =? NONE); [|done]. by intros [= <-].
Qed.

Lemma optional_try_from_range o k : c_ok (coption_codec 32) o → optional_try_from o = Ok k →
  in_uint 256 k.
Proof.
  intros [_ Hv]. unfold optional_try_from. repeat case_match; try done; by intros [= <-].
Qed.

(** The two fields of the fee configuration are independent. *)
Lemma mint_field_independent t t' f f' m (e : ef_type f) k :
  t ≠ t' → mint_field t = Some f → mint_field t' = Some f' →
  c_ok ext_codec (field_set (ef_field f) k e) →
  get_mint_ext (ef_type f) (tlv_data m) = Ok e →
  field_authority f' (with_tlv (put_extension PodMint (field_set (ef_field f) k e) (tlv_data m)) m) =
  field_authority f' m.
Proof.
  intros Htt Hf Hf' Hok He. unfold field_authority. cbn [tlv_data with_tlv].
  destruct (decide (TYPE (ef_type f) = TYPE (ef_type f'))) as [HT|HT].
  2: { by rewrite (get_put_extension_ne _ e). }
  destruct t; try discriminate Hf; injection Hf as <-;
    destruct t'; try discriminate Hf'; injection Hf' as <-; try discriminate HT; try done;
    cbn [ef_type ef_field ef_ext TransferFeeConfig_ef WithheldWithdraw_ef] in *;
    rewrite (get_put_extension _ e), He by done; done.
Qed.

Lemma set_extension_authority_Ok validate o t f m m' : mint_field t = Some f →
  c_ok (coption_codec 32) o → state_ok PodMint m →
  set_extension_authority validate o (ef_field f) m = Ok m' →
  (∃ auth, mint_authority_of t m = Some auth ∧ validate auth = Ok tt) ∧
  state_ok PodMint m' ∧ base m' = base m ∧
  mint_authority_of t m' = co_get o ∧
  ∀ t', t' ≠ t → mint_authority_of t' m' = mint_authority_of t' m.
Proof.
  intros Hf Ho Hm (e & He & (auth & Ha & ([] & Hv & (k & Hk & [= <-])%bind_Ok)%bind_Ok)
    %bind_Ok)%bind_Ok.
  apply ok_or_Ok in Ha.
  assert (Hof : ∀ m, mint_authority_of t m = field_authority f m).
  { intros m'. destruct t; try discriminate Hf; by injection Hf as <-. }
  assert (Hok : c_ok ext_codec (field_set (ef_field f) k e)).
  { apply ef_set_ok; [by eapply optional_try_from_range|by eapply get_extension_ok]. }
  rewrite !Hof. split; [|split; [|split; [done|split]]].
  - exists auth. unfold field_authority. by rewrite He.
  - apply state_ok_with_tlv; [done|]. by eapply length_put_extension.
  - unfold field_authority. cbn [tlv_data with_tlv].
    rewrite (get_put_extension _ e) by done. cbn. rewrite ef_get_set.
    by apply optional_try_from_Ok.
  - intros t' Ht. unfold mint_authority_of. destruct (mint_field t') as [f'|] eqn:Hf'.
    2: { by destruct t'. }
    pose proof (mint_field_independent t t' f f' m e k (not_eq_sym Ht) Hf Hf' Hok He).
    by destruct t'.
Qed.

Lemma co_ok_or_Ok {E} o (e : E) k : co_ok_or o e = Ok k ↔ co_get o = Some k.
Proof. unfold co_ok_or, co_get. case_match; naive_solver. Qed.

Lemma set_authority_mint_Ok validate o t m m' :
  c_ok (coption_codec 32) o → state_ok PodMint m →
  set_authority_mint validate o t m = Ok m' →
  (∃ auth, mint_authority_of t m = Some auth ∧ validate auth = Ok tt) ∧
  state_ok PodMint m' ∧ supply (base m') = supply (base m) ∧ decimals (base m') = decimals (base m) ∧
  mint_authority_of t m' = co_get o ∧
  ∀ t', t' ≠ t → mint_authority_of t' m' = mint_authority_of t' m.
Proof.
  intros Ho Hm. destruct (mint_field t) as [f|] eqn:Hf.
  - rewrite (set_authority_mint_field _ _ _ _ _ Hf). intros H.
    eapply set_extension_authority_Ok in H as (H1 & H2 & H3 & H4 & H5); [|done..].
    by rewrite H3.
  - destruct (proj1 (PodMint_ok _) (state_base_ok _ _ Hm)) as (Hma & Hs & Hd & Hi & Hfa).
    destruct t; try discriminate Hf; try done; intros (k & Hk%co_ok_or_Ok & ([] & Hv & [= <-])
      %bind_Ok)%bind_Ok; (split; [by exists k|split]);
      try (apply state_ok_with_base; [done| |apply Hm]; by apply PodMint_ok);
      (do 3 (split; [done|])); by intros [].
Qed.

(** Accounts *)
Lemma set_authority_account_Ok validate o t st st' :
  c_ok (coption_codec 32) o → state_ok PodAccount st →
  set_authority_account validate o t st = Ok st' →
  state_ok PodAccount st' ∧ is_frozen (base st) = false ∧ tlv_data st' = tlv_data st ∧
  match t with
  | AuthorityType.AccountOwner =>
      validate (acc_owner (base st)) = Ok tt ∧ co_get o = Some (acc_owner (base st')) ∧
      is_ok (get_account_ext ImmutableOwner (tlv_data st)) = false ∧
      cpi_guard_enabled PodAccount (tlv_data st) = false ∧
      co_get (delegate (base st')) = None ∧ delegated_amount (base st') = 0 ∧
      close_authority (base st') =
        (if is_native (base st) then co_none else close_authority (base st))
  | AuthorityType.CloseAccount =>
      validate (co_unwrap_or (close_authority (base st)) (acc_owner (base st))) = Ok tt ∧
      base st' = set_close_authority o (base st)
  | _ => False
  end ∧
  amount (base st') = amount (base st) ∧ acc_mint (base st') = acc_mint (base st) ∧
  is_native_opt (base st') = is_native_opt (base st).
Proof.
  intros Ho Hst ([] & Hf%throw_if_Ok & H)%bind_Ok.
  pose proof (state_base_ok _ _ Hst) as Hb.
  destruct t; try done.
  - apply bind_Ok in H as ([] & Hv & ([] & Hi%throw_if_Ok & ([] & Hg & (k & Hk%ok_or_Ok & [= <-])
      %bind_Ok)%bind_Ok)%bind_Ok).
    assert (in_uint 256 k) as Hkr.
    { unfold co_get in Hk. case_match; [|done]. injection Hk as <-. apply Ho. }
    change (is_native (set_delegated_amount _ _)) with (is_native (base st)).
    set (a := if is_native (base st) then _ else _).
    assert (c_ok base_codec a) as Ha.
    { subst a. destruct (proj1 (PodAccount_ok _) Hb) as (? & ? & ? & ? & ? & ? & ? & ?).
      destruct (is_native _); refine (proj2 (PodAccount_ok _) _);
        split_and!; first [assumption|exact (co_none_ok 32)|done]. }
    split; [apply state_ok_base; [done..|]; by subst a; destruct (is_native _)|].
    split; [done|]. split; [done|].
    split; [|by subst a; destruct (is_native _)].
    split_and!; try done; try by (subst a; destruct (is_native _)).
    unfold cpi_guard_enabled. destruct (get_extension _ CpiGuard _); [|done..].
    by destruct (pod_bool _); [destruct in_cpi|].
  - apply bind_Ok in H as ([] & Hv & ([] & _ & [= <-])%bind_Ok).
    split; [|by split_and!]. apply state_ok_base; [done| |done].
    destruct (proj1 (PodAccount_ok _) Hb) as (? & ? & ? & ? & ? & ? & ? & ?).
    refine (proj2 (PodAccount_ok _) _). by split_and!.
Qed.
End facts.

(** ** Properties *)
Section properties.
Context (rt : Runtime).
Implicit Types (w : world).

(** C24: each authority of a mint is changed only with the signature of its current
    holder, becomes exactly the one that is asked for, and leaves the supply and
    all the other authorities alone.  As unset authorities have no holder, an
    authority that was given up can never be set again. *)
Theorem process_set_authority_mint_effect pid mi ai signers t o w w' m :
  c_ok (coption_codec 32) o → mint_at w (key mi) = Some m →
  process_set_authority pid (mi :: ai :: signers) t o w = Ok w' →
  mint_authority_of t m = Some (key ai) ∧
  validate_owner [key mi] w pid (key ai) ai (data_len w ai) signers = Ok tt ∧
  ∃ m', mint_at w' (key mi) = Some m' ∧
    supply (base m') = supply (base m) ∧ decimals (base m') = decimals (base m) ∧
    mint_authority_of t m' = co_get o ∧
    (∀ t', t' ≠ t → mint_authority_of t' m' = mint_authority_of t' m) ∧
    ∀ k, k ≠ key mi → get_account w' k = get_account w k.
Proof.
  intros Ho Hm H. unfold process_set_authority in H.
  do 2 (cbn [next_account_info] in H; rewrite Ok_bind in H).
  apply bind_Ok in H as (d & [_ ->]%borrow_Ok & H). unfold info_data in H.
  assert (unpack_mint (data (get_account w (key mi))) = Ok m) as Hm' by by apply mint_at_Some.
  destruct (unpack_account _) as [st| |] eqn:Hst.
  { by destruct (unpack_account_not_mint _ _ Hst m). }
  all: rewrite Hm' in H; apply bind_Ok in H as (m' & Hset & [= <-]);
    apply set_authority_mint_Ok in Hset as ((auth & Ha & Hv) & Hok & H1 & H2 & H3 & H4);
      [|done|by eapply mint_at_ok];
    pose proof (validate_owner_key _ _ _ _ _ _ _ Hv) as <-;
    (do 2 (split; [done|])); exists m'; split_and!; try done; [by apply mint_at_write|];
    intros k Hk; unfold write_mint; by rewrite get_set_data, decide_False.
Qed.

(** C25: an account changes owner only when its owner signs, and never when it has
    an immutable owner or its CPI guard is on; the new owner starts without a
    delegate (and, for a native account, without a close authority).  The close
    authority is changed by its holder, or by the owner when there is none. *)
Theorem process_set_authority_account_effect pid si ai signers t o w w' s :
  c_ok (coption_codec 32) o → account_at w (key si) = Some s →
  process_set_authority pid (si :: ai :: signers) t o w = Ok w' →
  is_frozen (base s) = false ∧
  validate_owner [key si] w pid (key ai) ai (data_len w ai) signers = Ok tt ∧
  ∃ s', account_at w' (key si) = Some s' ∧
    amount (base s') = amount (base s) ∧ tlv_data s' = tlv_data s ∧
    (t = AuthorityType.AccountOwner ∧ key ai = acc_owner (base s) ∧
       co_get o = Some (acc_owner (base s')) ∧
       is_ok (get_account_ext ImmutableOwner (tlv_data s)) = false ∧
       cpi_guard_enabled PodAccount (tlv_data s) = false ∧
       co_get (delegate (base s')) = None ∧ delegated_amount (base s') = 0 ∧
       (is_native (base s) = true → close_authority (base s') = co_none)
     ∨ t = AuthorityType.CloseAccount ∧
       key ai = co_unwrap_or (close_authority (base s)) (acc_owner (base s)) ∧
       base s' = set_close_authority o (base s)) ∧
    ∀ k, k ≠ key si → get_account w' k = get_account w k.
Proof.
  intros Ho Hs H. unfold process_set_authority in H.
  do 2 (cbn [next_account_info] in H; rewrite Ok_bind in H).
  apply bind_Ok in H as (d & [_ ->]%borrow_Ok & H). unfold info_data in H.
  rewrite (proj1 (account_at_Some _ _ _) Hs) in H.
  apply bind_Ok in H as (s' & Hset & [= <-]).
  apply set_authority_account_Ok in Hset as (Hok & Hf & Htlv & Ht & Ham & Hmi & _);
    [|done|by eapply account_at_ok].
  assert (∀ k, k ≠ key si → get_account (write_account w si s') k = get_account w k) as Hfr.
  { intros k Hk. unfold write_account. by rewrite get_set_data, decide_False. }
  destruct t; try done.
  - destruct Ht as (Hv & Hk & Hi & Hg & Hd & Hda & Hc).
    pose proof (validate_owner_key _ _ _ _ _ _ _ Hv) as Hka. rewrite <-Hka in Hv.
    split; [done|]. split; [done|]. exists s'.
    split; [by apply account_at_write|]. do 2 (split; [done|]). split; [|done].
    left. split_and!; try done. intros Hn. by rewrite Hn in Hc.
  - destruct Ht as (Hv & Hb).
    pose proof (validate_owner_key _ _ _ _ _ _ _ Hv) as Hka. rewrite <-Hka in Hv.
    split; [done|]. split; [done|]. exists s'.
    split; [by apply account_at_write|]. do 2 (split; [done|]). split; [|done].
    right. by split_and!.
Qed.
End properties.
