(* ===== verification/Instruction.v ===== *)
(** * Instructions: [interface/src/instruction.rs]

    [TokenInstruction] with its packed form, and the two decoders of the program:
    [TokenInstruction::unpack], which clients use, and the typed decoders
    [decode_instruction_data] and [decode_instruction_data_with_coption_pubkey]
    of [pod_instruction.rs], which the processor uses. *)
From S2P Require Import Prelude Codec Errors Runtime Pod State ExtensionType ExtensionData Tlv.
From S2P Require Import StateExt Fee Authority Transfer AccountFacts TransferFacts Supply.
From S2P Require Import AccountOps AccountOpsFacts SetAuthority.

(** ** Bytes and strings *)

(** [slice::split_first], with the byte as a [u8] *)
Definition split_first (input : list byte) : option (Z * list byte) :=
  match input with
  | b :: rest => Some (byte.unsigned b, rest)
  | [] => None
  end.

(** [slice::get(..n)] *)
Definition get_to (n : nat) (input : list byte) : option (list byte) :=
  if (n <=? length input)%nat then Some (take n input) else None.

(** [std::str::from_utf8]: well-formed sequences of 1 to 4 bytes, without
    overlong forms, surrogates or code points beyond U+10FFFF. *)
Definition in_range (lo hi : Z) (b : byte) : bool :=
  (lo <=? byte.unsigned b) && (byte.unsigned b <=? hi).
Definition continuation : byte → bool := in_range 128 191.
Fixpoint utf8_valid (fuel : nat) (l : list byte) : bool :=
  match fuel, l with
  | _, [] => true
  | O, _ => false
  | S fuel, a :: l =>
      if in_range 0 127 a then utf8_valid fuel l
      else if in_range 194 223 a then
        match l with
        | b :: l => continuation b && utf8_valid fuel l
        | _ => false
        end
      else if in_range 224 239 a then
        match l with
        | b :: c :: l =>
            in_range (if byte.unsigned a =? 224 then 160 else 128)
                     (if byte.unsigned a =? 237 then 159 else 191) b &&
            continuation c && utf8_valid fuel l
        | _ => false
        end
      else if in_range 240 244 a then
        match l with
        | b :: c :: d :: l =>
            in_range (if byte.unsigned a =? 240 then 144 else 128)
                     (if byte.unsigned a =? 244 then 143 else 191) b &&
            continuation c && continuation d && utf8_valid fuel l
        | _ => false
        end
      else false
  end.
Definition from_utf8 (l : list byte) : option (list byte) :=
  if utf8_valid (length l) l then Some l else None.

(** [slice::chunks(2)] *)
Fixpoint chunks2 (l : list byte) : list (list byte) :=
  match l with
  | [] => []
  | [a] => [[a]]
  | a :: b :: l => [a; b] :: chunks2 l
  end.

(** ** [TokenInstruction] *)
Module TokenInstruction.
Inductive t :=
| InitializeMint (decimals : Z) (mint_authority : Pubkey) (freeze_authority : option Pubkey)
| InitializeAccount
| InitializeMultisig (m : Z)
| Transfer (amount : Z)
| Approve (amount : Z)
| Revoke
| SetAuthority (authority_type : AuthorityType) (new_authority : option Pubkey)
| MintTo (amount : Z)
| Burn (amount : Z)
| CloseAccount
| FreezeAccount
| ThawAccount
| TransferChecked (amount decimals : Z)
| ApproveChecked (amount decimals : Z)
| MintToChecked (amount decimals : Z)
| BurnChecked (amount decimals : Z)
| InitializeAccount2 (owner : Pubkey)
| SyncNative
| InitializeAccount3 (owner : Pubkey)
| InitializeMultisig2 (m : Z)
| InitializeMint2 (decimals : Z) (mint_authority : Pubkey) (freeze_authority : option Pubkey)
| GetAccountDataSize (extension_types : list ExtensionType)
| InitializeImmutableOwner
| AmountToUiAmount (amount : Z)
| UiAmountToAmount (ui_amount : list byte)
| InitializeMintCloseAuthority (close_authority : option Pubkey)
| TransferFeeExtension
| ConfidentialTransferExtension
| DefaultAccountStateExtension
| Reallocate (extension_types : list ExtensionType)
| MemoTransferExtension
| CreateNativeMint
| InitializeNonTransferableMint
| InterestBearingMintExtension
| CpiGuardExtension
| InitializePermanentDelegate (delegate : Pubkey)
| TransferHookExtension
| ConfidentialTransferFeeExtension
| WithdrawExcessLamports
| MetadataPointerExtension
| GroupPointerExtension
| GroupMemberPointerExtension
| ConfidentialMintBurnExtension
| ScaledUiAmountExtension
| PausableExtension.
End TokenInstruction.
Abbreviation TokenInstruction := TokenInstruction.t.

Definition unpack_pubkey (input : list byte) : res (Pubkey * list byte) :=
  pk ← ok_or (get_to 32 input) (tok InvalidInstruction);
  Ok (le_combine pk, drop 32 input).

Definition unpack_pubkey_option (input : list byte) : res (option Pubkey * list byte) :=
  match split_first input with
  | Some (0, rest) => Ok (None, rest)
  | Some (1, rest) =>
      '(pk, rest) ← unpack_pubkey rest;
      Ok (Some pk, rest)
  | _ => Err (tok InvalidInstruction)
  end.

Definition pack_pubkey_option (value : option Pubkey) : list byte :=
  match value with
  | Some key => le_split 1 1 ++ le_split 32 key
  | None => le_split 1 0
  end.

Definition unpack_u16 (input : list byte) : res (Z * list byte) :=
  value ← ok_or (get_to 2 input) (tok InvalidInstruction);
  Ok (le_combine value, drop 2 input).

Definition unpack_u64 (input : list byte) : res (Z * list byte) :=
  value ← ok_or (get_to 8 input) (tok InvalidInstruction);
  Ok (le_combine value, drop 8 input).

Definition unpack_amount_decimals (input : list byte) : res (Z * Z * list byte) :=
  '(amount, rest) ← unpack_u64 input;
  '(decimals, rest) ← ok_or (split_first rest) (tok InvalidInstruction);
  Ok (amount, decimals, rest).

(** The loop [for chunk in rest.chunks(2)] *)
Fixpoint extension_types_try_from (chunks : list (list byte)) : res (list ExtensionType) :=
  match chunks with
  | [] => Ok []
  | c :: chunks =>
      t ← ext_try_from c;
      ts ← extension_types_try_from chunks;
      Ok (t :: ts)
  end.

(** The data of [InitializeMint] and [InitializeMint2]. *)
Definition unpack_mint_data (rest : list byte) : res (Z * Pubkey * option Pubkey) :=
  '(decimals, rest) ← ok_or (split_first rest) (tok InvalidInstruction);
  '(mint_authority, rest) ← unpack_pubkey rest;
  '(freeze_authority, _) ← unpack_pubkey_option rest;
  Ok (decimals, mint_authority, freeze_authority).

(** [TokenInstruction::unpack] *)
Definition unpack_instruction (input : list byte) : res TokenInstruction :=
  '(tag, rest) ← ok_or (split_first input) (tok InvalidInstruction);
  match tag with
  | 0 =>
      '(decimals, mint_authority, freeze_authority) ← unpack_mint_data rest;
      Ok (TokenInstruction.InitializeMint decimals mint_authority freeze_authority)
  | 1 => Ok TokenInstruction.InitializeAccount
  | 2 =>
      '(m, _) ← ok_or (split_first rest) (tok InvalidInstruction);
      Ok (TokenInstruction.InitializeMultisig m)
  | 3 => '(amount, _) ← unpack_u64 rest; Ok (TokenInstruction.Transfer amount)
  | 4 => '(amount, _) ← unpack_u64 rest; Ok (TokenInstruction.Approve amount)
  | 5 => Ok TokenInstruction.Revoke
  | 6 =>
      '(t, rest) ← ok_or (split_first rest) (tok InvalidInstruction);
      authority_type ← authority_type_from t;
      '(new_authority, _) ← unpack_pubkey_option rest;
      Ok (TokenInstruction.SetAuthority authority_type new_authority)
  | 7 => '(amount, _) ← unpack_u64 rest; Ok (TokenInstruction.MintTo amount)
  | 8 => '(amount, _) ← unpack_u64 rest; Ok (TokenInstruction.Burn amount)
  | 9 => Ok TokenInstruction.CloseAccount
  | 10 => Ok TokenInstruction.FreezeAccount
  | 11 => Ok TokenInstruction.ThawAccount
  | 12 =>
      '(amount, decimals, _) ← unpack_amount_decimals rest;
      Ok (TokenInstruction.TransferChecked amount decimals)
  | 13 =>
      '(amount, decimals, _) ← unpack_amount_decimals rest;
      Ok (TokenInstruction.ApproveChecked amount decimals)
  | 14 =>
      '(amount, decimals, _) ← unpack_amount_decimals rest;
      Ok (TokenInstruction.MintToChecked amount decimals)
  | 15 =>
      '(amount, decimals, _) ← unpack_amount_decimals rest;
      Ok (TokenInstruction.BurnChecked amount decimals)
  | 16 => '(owner, _) ← unpack_pubkey rest; Ok (TokenInstruction.InitializeAccount2 owner)
  | 17 => Ok TokenInstruction.SyncNative
  | 18 => '(owner, _) ← unpack_pubkey rest; Ok (TokenInstruction.InitializeAccount3 owner)
  | 19 =>
      '(m, _) ← ok_or (split_first rest) (tok InvalidInstruction);
      Ok (TokenInstruction.InitializeMultisig2 m)
  | 20 =>
      '(decimals, mint_authority, freeze_authority) ← unpack_mint_data rest;
      Ok (TokenInstruction.InitializeMint2 decimals mint_authority freeze_authority)
  | 21 =>
      extension_types ← extension_types_try_from (chunks2 rest);
      Ok (TokenInstruction.GetAccountDataSize extension_types)
  | 22 => Ok TokenInstruction.InitializeImmutableOwner
  | 23 => '(amount, _) ← unpack_u64 rest; Ok (TokenInstruction.AmountToUiAmount amount)
  | 24 =>
      ui_amount ← ok_or (from_utf8 rest) (tok InvalidInstruction);
      Ok (TokenInstruction.UiAmountToAmount ui_amount)
  | 25 =>
      '(close_authority, _) ← unpack_pubkey_option rest;
      Ok (TokenInstruction.InitializeMintCloseAuthority close_authority)
  | 26 => Ok TokenInstruction.TransferFeeExtension
  | 27 => Ok TokenInstruction.ConfidentialTransferExtension
  | 28 => Ok TokenInstruction.DefaultAccountStateExtension
  | 29 =>
      extension_types ← extension_types_try_from (chunks2 rest);
      Ok (TokenInstruction.Reallocate extension_types)
  | 30 => Ok TokenInstruction.MemoTransferExtension
  | 31 => Ok TokenInstruction.CreateNativeMint
  | 32 => Ok TokenInstruction.InitializeNonTransferableMint
  | 33 => Ok TokenInstruction.InterestBearingMintExtension
  | 34 => Ok TokenInstruction.CpiGuardExtension
  | 35 =>
      '(delegate, _) ← unpack_pubkey rest;
      Ok (TokenInstruction.InitializePermanentDelegate delegate)
  | 36 => Ok TokenInstruction.TransferHookExtension
  | 37 => Ok TokenInstruction.ConfidentialTransferFeeExtension
  | 38 => Ok TokenInstruction.WithdrawExcessLamports
  | 39 => Ok TokenInstruction.MetadataPointerExtension
  | 40 => Ok TokenInstruction.GroupPointerExtension
  | 41 => Ok TokenInstruction.GroupMemberPointerExtension
  | 42 => Ok TokenInstruction.ConfidentialMintBurnExtension
  | 43 => Ok TokenInstruction.ScaledUiAmountExtension
  | 44 => Ok TokenInstruction.PausableExtension
  | _ => Err (tok InvalidInstruction)
  end.

(** [TokenInstruction::pack] *)
Definition pack_instruction (i : TokenInstruction) : list byte :=
  let push := le_split 1 in
  let u64 := le_split 8 in
  let key := le_split 32 in
  match i with
  | TokenInstruction.InitializeMint decimals mint_authority freeze_authority =>
      push 0 ++ push decimals ++ key mint_authority ++ pack_pubkey_option freeze_authority
  | TokenInstruction.InitializeAccount => push 1
  | TokenInstruction.InitializeMultisig m => push 2 ++ push m
  | TokenInstruction.Transfer amount => push 3 ++ u64 amount
  | TokenInstruction.Approve amount => push 4 ++ u64 amount
  | TokenInstruction.MintTo amount => push 7 ++ u64 amount
  | TokenInstruction.Burn amount => push 8 ++ u64 amount
  | TokenInstruction.Revoke => push 5
  | TokenInstruction.SetAuthority authority_type new_authority =>
      push 6 ++ push (authority_type_into authority_type) ++ pack_pubkey_option new_authority
  | TokenInstruction.CloseAccount => push 9
  | TokenInstruction.FreezeAccount => push 10
  | TokenInstruction.ThawAccount => push 11
  | TokenInstruction.TransferChecked amount decimals => push 12 ++ u64 amount ++ push decimals
  | TokenInstruction.ApproveChecked amount decimals => push 13 ++ u64 amount ++ push decimals
  | TokenInstruction.MintToChecked amount decimals => push 14 ++ u64 amount ++ push decimals
  | TokenInstruction.BurnChecked amount decimals => push 15 ++ u64 amount ++ push decimals
  | TokenInstruction.InitializeAccount2 owner => push 16 ++ key owner
  | TokenInstruction.SyncNative => push 17
  | TokenInstruction.InitializeAccount3 owner => push 18 ++ key owner
  | TokenInstruction.InitializeMultisig2 m => push 19 ++ push m
  | TokenInstruction.InitializeMint2 decimals mint_authority freeze_authority =>
      push 20 ++ push decimals ++ key mint_authority ++ pack_pubkey_option freeze_authority
  | TokenInstruction.GetAccountDataSize extension_types =>
      push 21 ++ (extension_types ≫= ext_bytes)
  | TokenInstruction.InitializeImmutableOwner => push 22
  | TokenInstruction.AmountToUiAmount amount => push 23 ++ u64 amount
  | TokenInstruction.UiAmountToAmount ui_amount => push 24 ++ ui_amount
  | TokenInstruction.InitializeMintCloseAuthority close_authority =>
      push 25 ++ pack_pubkey_option close_authority
  | TokenInstruction.TransferFeeExtension => push 26
  | TokenInstruction.ConfidentialTransferExtension => push 27
  | TokenInstruction.DefaultAccountStateExtension => push 28
  | TokenInstruction.Reallocate extension_types => push 29 ++ (extension_types ≫= ext_bytes)
  | TokenInstruction.MemoTransferExtension => push 30
  | TokenInstruction.CreateNativeMint => push 31
  | TokenInstruction.InitializeNonTransferableMint => push 32
  | TokenInstruction.InterestBearingMintExtension => push 33
  | TokenInstruction.CpiGuardExtension => push 34
  | TokenInstruction.InitializePermanentDelegate delegate => push 35 ++ key delegate
  | TokenInstruction.TransferHookExtension => push 36
  | TokenInstruction.ConfidentialTransferFeeExtension => push 37
  | TokenInstruction.WithdrawExcessLamports => push 38
  | TokenInstruction.MetadataPointerExtension => push 39
  | TokenInstruction.GroupPointerExtension => push 40
  | TokenInstruction.GroupMemberPointerExtension => push 41
  | TokenInstruction.ConfidentialMintBurnExtension => push 42
  | TokenInstruction.ScaledUiAmountExtension => push 43
  | TokenInstruction.PausableExtension => push 44
  end.

(** ** The processor's decoders *)
(** [decode_instruction_type] *)
Definition decode_instruction_type {T} (try_from : Z → option T) (input : list byte) : res T :=
  match split_first input with
  | None => Err InvalidInstructionData
  | Some (tag, _) => ok_or (try_from tag) (tok InvalidInstruction)
  end.

Section decode.
Context `{rt : Runtime}.

(** [pod_instruction::unpack_pubkey_option] *)
Definition pod_unpack_pubkey_option (input : list byte) : res PodCOption :=
  match split_first input with
  | Some (0, _) => Ok co_none
  | Some (1, rest) =>
      pk ← ok_or (get_to 32 rest) InvalidInstructionData;
      Ok (co_some (le_combine pk))
  | _ => Err InvalidInstructionData
  end.

(** [decode_instruction_data] *)
Definition decode_instruction_data {T} (c : codec T) (input_with_type : list byte) : res T :=
  if negb (length input_with_type =? c_size c + 1)%nat then Err InvalidInstructionData
  else pod_from_bytes c (drop 1 input_with_type).

(** [decode_instruction_data_with_coption_pubkey] *)
Definition decode_instruction_data_with_coption_pubkey {T} (c : codec T)
    (input_with_type : list byte) : res (T * PodCOption) :=
  let end_of_t := (c_size c + 1)%nat in
  if (length input_with_type <? end_of_t)%nat then Err InvalidInstructionData
  else
    value ← pod_from_bytes c (slice 1 end_of_t input_with_type);
    pubkey ← pod_unpack_pubkey_option (drop end_of_t input_with_type);
    Ok (value, pubkey).

(** The data structs of [pod_instruction.rs] *)
Definition InitializeMintData : codec (Z * Pubkey) := pair_codec u8 pubkey.
Definition InitializeMultisigData : codec Z := u8.
Definition AmountData : codec Z := u64.
Definition AmountCheckedData : codec (Z * Z) := pair_codec u64 u8.
Definition SetAuthorityData : codec Z := u8.
End decode.

(** Instructions whose fields are in range. *)
Definition key_ok (k : Pubkey) : Prop := in_uint 256 k.
Definition okey_ok (o : option Pubkey) : Prop := ∀ k, o = Some k → key_ok k.
Definition instruction_ok (i : TokenInstruction) : Prop :=
  match i with
  | TokenInstruction.InitializeMint d a f | TokenInstruction.InitializeMint2 d a f =>
      in_uint 8 d ∧ key_ok a ∧ okey_ok f
  | TokenInstruction.InitializeMultisig m | TokenInstruction.InitializeMultisig2 m => in_uint 8 m
  | TokenInstruction.Transfer a | TokenInstruction.Approve a | TokenInstruction.MintTo a
  | TokenInstruction.Burn a | TokenInstruction.AmountToUiAmount a => in_uint 64 a
  | TokenInstruction.SetAuthority _ o | TokenInstruction.InitializeMintCloseAuthority o => okey_ok o
  | TokenInstruction.TransferChecked a d | TokenInstruction.ApproveChecked a d
  | TokenInstruction.MintToChecked a d | TokenInstruction.BurnChecked a d =>
      in_uint 64 a ∧ in_uint 8 d
  | TokenInstruction.InitializeAccount2 o | TokenInstruction.InitializeAccount3 o
  | TokenInstruction.InitializePermanentDelegate o => key_ok o
  | TokenInstruction.UiAmountToAmount s => utf8_valid (length s) s = true
  | _ => True
  end.
