(* ===== verification/InstructionFacts.v ===== *)
(** * Instruction encoding: round trips and agreement of the decoders *)
From S2P Require Import Prelude Codec Errors Runtime Pod State ExtensionType ExtensionData Tlv.
From S2P Require Import StateExt SetAuthority Instruction.

(** ** Bytes *)
Lemma split_first_push z rest : in_uint 8 z → split_first (le_split 1 z ++ rest) = Some (z, rest).
Proof.
  intros Hz. change (Some (byte.unsigned (byte.of_Z z), rest) = Some (z, rest)).
  do 2 f_equal. rewrite byte.unsigned_of_Z. unfold byte.wrap.
  by apply Z.mod_small.
Qed.

Lemma get_to_app n l rest : length l = n → get_to n (l ++ rest) = Some l.
Proof.
  intros <-. unfold get_to. rewrite length_app, (proj2 (Nat.leb_le _ _)) by lia.
  by rewrite take_app_length.
Qed.

Lemma le_combine_split_ok n z : 0 ≤ z < 2 ^ (8 * Z.of_nat n) → le_combine (le_split n z) = z.
Proof. intros Hz. rewrite le_combine_split, Z.mul_comm. by apply Z.mod_small. Qed.

Lemma unpack_pubkey_pack k rest : key_ok k → unpack_pubkey (le_split 32 k ++ rest) = Ok (k, rest).
Proof.
  intros Hk. unfold unpack_pubkey.
  rewrite get_to_app, drop_app_length' by (by rewrite length_le_split).
  cbn [ok_or]. rewrite Ok_bind, le_combine_split_ok; [done|exact Hk].
Qed.

Lemma unpack_pubkey_option_pack o rest : okey_ok o →
  unpack_pubkey_option (pack_pubkey_option o ++ rest) = Ok (o, rest).
Proof.
  intros Ho. unfold unpack_pubkey_option, pack_pubkey_option. destruct o as [k|].
  - rewrite <-app_assoc, split_first_push by done. cbn [ok_or].
    by rewrite unpack_pubkey_pack by by apply Ho.
  - by rewrite split_first_push.
Qed.

Lemma unpack_u64_pack a rest : in_uint 64 a → unpack_u64 (le_split 8 a ++ rest) = Ok (a, rest).
Proof.
  intros Ha. unfold unpack_u64.
  rewrite get_to_app, drop_app_length' by (by rewrite length_le_split).
  cbn [ok_or]. rewrite Ok_bind, le_combine_split_ok; [done|exact Ha].
Qed.

Lemma unpack_amount_decimals_pack a d rest : in_uint 64 a → in_uint 8 d →
  unpack_amount_decimals (le_split 8 a ++ le_split 1 d ++ rest) = Ok (a, d, rest).
Proof.
  intros Ha Hd. unfold unpack_amount_decimals.
  by rewrite unpack_u64_pack, Ok_bind, split_first_push.
Qed.

Lemma unpack_mint_data_pack d a f rest : in_uint 8 d → key_ok a → okey_ok f →
  unpack_mint_data (le_split 1 d ++ le_split 32 a ++ pack_pubkey_option f ++ rest) = Ok (d, a, f).
Proof.
  intros Hd Ha Hf. unfold unpack_mint_data.
  rewrite split_first_push by done. cbn [ok_or]. rewrite Ok_bind, unpack_pubkey_pack, Ok_bind by done.
  by rewrite unpack_pubkey_option_pack.
Qed.

Lemma authority_type_from_into t : authority_type_from (authority_type_into t) = Ok t.
Proof. by destruct t. Qed.

Lemma authority_type_range t : in_uint 8 (authority_type_into t).
Proof. by destruct t. Qed.

Lemma extension_types_round_trip l :
  extension_types_try_from (chunks2 (l ≫= ext_bytes)) = Ok l.
Proof.
  induction l as [|t l IH]; [done|]. cbn [mbind list_bind].
  assert (∃ a b, ext_bytes t = [a; b]) as (a & b & Hab).
  { pose proof (length_ext_bytes t) as Hl. destruct (ext_bytes t) as [|a [|b []]]; try done. eauto. }
  rewrite Hab. cbn [app chunks2 extension_types_try_from].
  by rewrite <-Hab, ext_try_from_bytes, Ok_bind, IH.
Qed.

(** The same at the end of an instruction. *)
Lemma split_first_end z : in_uint 8 z → split_first (le_split 1 z) = Some (z, []).
Proof. intros Hz. pose proof (split_first_push z [] Hz) as H. by rewrite app_nil_r in H. Qed.
Lemma unpack_pubkey_end k : key_ok k → unpack_pubkey (le_split 32 k) = Ok (k, []).
Proof. intros Hk. pose proof (unpack_pubkey_pack k [] Hk) as H. by rewrite app_nil_r in H. Qed.
Lemma unpack_pubkey_option_end o : okey_ok o →
  unpack_pubkey_option (pack_pubkey_option o) = Ok (o, []).
Proof. intros Ho. pose proof (unpack_pubkey_option_pack o [] Ho) as H. by rewrite app_nil_r in H. Qed.
Lemma unpack_u64_end a : in_uint 64 a → unpack_u64 (le_split 8 a) = Ok (a, []).
Proof. intros Ha. pose proof (unpack_u64_pack a [] Ha) as H. by rewrite app_nil_r in H. Qed.
Lemma unpack_amount_decimals_end a d : in_uint 64 a → in_uint 8 d →
  unpack_amount_decimals (le_split 8 a ++ le_split 1 d) = Ok (a, d, []).
Proof.
  intros Ha Hd. pose proof (unpack_amount_decimals_pack a d [] Ha Hd) as H.
  by rewrite app_nil_r in H.
Qed.
Lemma unpack_mint_data_end d a f : in_uint 8 d → key_ok a → okey_ok f →
  unpack_mint_data (le_split 1 d ++ le_split 32 a ++ pack_pubkey_option f) = Ok (d, a, f).
Proof.
  intros Hd Ha Hf. pose proof (unpack_mint_data_pack d a f [] Hd Ha Hf) as H.
  by rewrite app_nil_r in H.
Qed.

Ltac first_byte :=
  unfold unpack_instruction;
  first [rewrite split_first_push by done | rewrite split_first_end by done];
  cbn [ok_or]; rewrite Ok_bind; cbv beta iota.

(** C33: every instruction a client can build is decoded back from its packed form. *)
Theorem unpack_pack_instruction i : instruction_ok i → unpack_instruction (pack_instruction i) = Ok i.
Proof.
  intros Hi. destruct i; cbn [instruction_ok] in Hi; destruct_and?;
    cbv beta iota zeta delta [pack_instruction]; first_byte;
    rewrite ?unpack_mint_data_end, ?unpack_u64_end, ?unpack_amount_decimals_end,
      ?unpack_pubkey_end, ?unpack_pubkey_option_end, ?extension_types_round_trip,
      ?split_first_end, ?split_first_push by (done || apply authority_type_range);
    cbn [ok_or]; rewrite ?Ok_bind, ?authority_type_from_into, ?Ok_bind; try done.
  - by rewrite unpack_pubkey_option_end.
  - unfold from_utf8. by rewrite Hi.
Qed.
