(* ===== verification/StateFacts.v ===== *)
(** * Packed states: round trips, and agreement with the in-place view *)
From S2P Require Import Prelude Codec Errors Runtime Pod State.

(** ** Options *)
Definition option_ok (n : nat) (o : option Z) : Prop :=
  ∀ v, o = Some v → in_uint (8 * Z.of_nat n) v.

Lemma le_combine_split_in n z : in_uint (8 * Z.of_nat n) z → le_combine (le_split n z) = z.
Proof. intros Hz. rewrite le_combine_split, Z.mul_comm. by apply Z.mod_small. Qed.

Lemma length_pack_coption_key o dst : length dst = 36%nat → length (pack_coption_key o dst) = 36%nat.
Proof.
  intros Hd. destruct o; simpl; rewrite ?length_app, ?length_le_split, ?length_drop; lia.
Qed.
Lemma length_pack_coption_u64 o dst : length dst = 12%nat → length (pack_coption_u64 o dst) = 12%nat.
Proof.
  intros Hd. destruct o; simpl; rewrite ?length_app, ?length_le_split, ?length_drop; lia.
Qed.

Lemma slice_0_app {A} (l k : list A) n : length l = n → slice 0 n (l ++ k) = l.
Proof. intros <-. unfold slice. by rewrite drop_0, Nat.sub_0_r, take_app_length. Qed.
Lemma slice_end_app {A} (l k : list A) a b : length l = a → (a + length k)%nat = b →
  slice a b (l ++ k) = k.
Proof.
  intros <- <-. unfold slice. rewrite drop_app_length, firstn_all2; [done|lia].
Qed.

Lemma unpack_pack_coption_key o dst : option_ok 32 o → length dst = 36%nat →
  unpack_coption_key (pack_coption_key o dst) = Ok o.
Proof.
  intros Ho Hd. unfold unpack_coption_key, pack_coption_key. destruct o as [k|].
  - rewrite slice_0_app, slice_end_app by (by rewrite ?length_le_split).
    rewrite !le_combine_split_in; [done|by apply Ho|done].
  - rewrite slice_0_app by (by rewrite length_le_split). by rewrite le_combine_split_in.
Qed.

Lemma unpack_pack_coption_u64 o dst : option_ok 8 o → length dst = 12%nat →
  unpack_coption_u64 (pack_coption_u64 o dst) = Ok o.
Proof.
  intros Ho Hd. unfold unpack_coption_u64, pack_coption_u64. destruct o as [k|].
  - rewrite slice_0_app, slice_end_app by (by rewrite ?length_le_split).
    rewrite !le_combine_split_in; [done|by apply Ho|done].
  - rewrite slice_0_app by (by rewrite length_le_split). by rewrite le_combine_split_in.
Qed.

Lemma unpack_pack_flag b : unpack_flag (pack_flag b) = Ok b.
Proof. by destruct b. Qed.

(** ** Fields of a packed buffer *)

Definition Mint_ok (m : Mint) : Prop :=
  option_ok 32 (m_mint_authority m) ∧ in_uint 64 (m_supply m) ∧ in_uint 8 (m_decimals m) ∧
  option_ok 32 (m_freeze_authority m).
Definition Account_ok (a : Account) : Prop :=
  in_uint 256 (a_mint a) ∧ in_uint 256 (a_owner a) ∧ in_uint 64 (a_amount a) ∧
  option_ok 32 (a_delegate a) ∧ option_ok 8 (a_is_native a) ∧ in_uint 64 (a_delegated_amount a) ∧
  option_ok 32 (a_close_authority a).
Definition Multisig_ok (m : Multisig) : Prop :=
  in_uint 8 (s_m m) ∧ in_uint 8 (s_n m) ∧ length (s_signers m) = MAX_SIGNERS ∧
  Forall (in_uint 256) (s_signers m).

Ltac lens := rewrite ?length_app, ?length_le_split, ?length_pack_coption_key,
  ?length_pack_coption_u64 by (rewrite length_slice by lia; lia); try lia.

(** Splits a packed buffer at a field: the sizes of the parts decide. *)
Lemma slice_skip {A} (l1 l2 : list A) n a b : length l1 = n → (n ≤ a)%nat →
  slice a b (l1 ++ l2) = slice (a - n) (b - n) l2.
Proof.
  intros <- Ha. unfold slice. rewrite drop_app_ge by done. f_equal. lia.
Qed.

Lemma slice_here {A} (l1 l2 : list A) n : length l1 = n → slice 0 n (l1 ++ l2) = l1.
Proof. apply slice_0_app. Qed.

Lemma slice_last {A} (l : list A) n : length l = n → slice 0 n l = l.
Proof. intros <-. apply slice_full. Qed.

Lemma array_ref_full l n : length l = n → array_ref l n = Ok l.
Proof. intros <-. unfold array_ref. by rewrite Nat.ltb_irrefl, firstn_all. Qed.

(** Reads the next field, of size [n], and moves on. *)
Ltac field n H :=
  rewrite (slice_here _ _ n) by H;
  repeat match goal with
  | |- context [slice ?a ?b (?l1 ++ ?l2)] => rewrite (slice_skip l1 l2 n a b) by (H || lia)
  end; cbn [Nat.sub].

Lemma Mint_unpack_pack m dst : Mint_ok m → length dst = Mint_LEN →
  length (Mint_pack_into_slice m dst) = Mint_LEN ∧
  Mint_unpack_from_slice (Mint_pack_into_slice m dst) = Ok m.
Proof.
  intros (Ha & Hs & Hd & Hf) Hdst. unfold Mint_LEN in Hdst.
  assert (L1 : length (pack_coption_key (m_mint_authority m) (slice 0 36 dst)) = 36%nat).
  { apply length_pack_coption_key. rewrite length_slice; lia. }
  assert (L2 : length (pack_coption_key (m_freeze_authority m) (slice 46 82 dst)) = 36%nat).
  { apply length_pack_coption_key. rewrite length_slice; lia. }
  assert (L3 : length (pack_flag (m_is_initialized m)) = 1%nat) by done.
  assert (L : length (Mint_pack_into_slice m dst) = 82%nat).
  { unfold Mint_pack_into_slice. rewrite !length_app, !length_le_split. lia. }
  split; [done|]. unfold Mint_unpack_from_slice. rewrite array_ref_full, Ok_bind by done.
  cbv zeta. unfold Mint_pack_into_slice.
  field 36%nat done. rewrite unpack_pack_coption_key, Ok_bind by (done || (rewrite length_slice; lia)).
  field 8%nat ltac:(apply length_le_split). field 1%nat ltac:(apply length_le_split).
  field 1%nat done. rewrite slice_last, unpack_pack_flag, Ok_bind by done.
  rewrite unpack_pack_coption_key, Ok_bind by (done || (rewrite length_slice; lia)).
  rewrite !le_combine_split_in by done. by destruct m.
Qed.

Lemma Account_unpack_pack a dst : Account_ok a → length dst = Account_LEN →
  length (Account_pack_into_slice a dst) = Account_LEN ∧
  Account_unpack_from_slice (Account_pack_into_slice a dst) = Ok a.
Proof.
  intros (Hm & Ho & Ha & Hd & Hn & Hda & Hc) Hdst. unfold Account_LEN in Hdst.
  assert (L1 : length (pack_coption_key (a_delegate a) (slice 72 108 dst)) = 36%nat).
  { apply length_pack_coption_key. rewrite length_slice; lia. }
  assert (L2 : length (pack_coption_key (a_close_authority a) (slice 129 165 dst)) = 36%nat).
  { apply length_pack_coption_key. rewrite length_slice; lia. }
  assert (L3 : length (pack_coption_u64 (a_is_native a) (slice 109 121 dst)) = 12%nat).
  { apply length_pack_coption_u64. rewrite length_slice; lia. }
  assert (L : length (Account_pack_into_slice a dst) = 165%nat).
  { unfold Account_pack_into_slice. rewrite !length_app, !length_le_split. lia. }
  split; [done|]. unfold Account_unpack_from_slice. rewrite array_ref_full, Ok_bind by done.
  unfold Account_pack_into_slice.
  field 32%nat ltac:(apply length_le_split). field 32%nat ltac:(apply length_le_split).
  field 8%nat ltac:(apply length_le_split). field 36%nat done.
  rewrite unpack_pack_coption_key, Ok_bind by (done || (rewrite length_slice; lia)).
  field 1%nat ltac:(apply length_le_split). rewrite (le_combine_split_in 1) by by destruct (a_state a).
  assert (account_state_try_from (account_state_u8 (a_state a)) = Some (a_state a)) as ->
    by by destruct (a_state a).
  cbn [ok_or]. rewrite Ok_bind. field 12%nat done.
  rewrite unpack_pack_coption_u64, Ok_bind by (done || (rewrite length_slice; lia)).
  field 8%nat ltac:(apply length_le_split). rewrite slice_last by done.
  rewrite unpack_pack_coption_key, Ok_bind by (done || (rewrite length_slice; lia)).
  rewrite !le_combine_split_in by done. by destruct a.
Qed.

Lemma Multisig_unpack_pack m dst : Multisig_ok m →
  Multisig_unpack_from_slice (Multisig_pack_into_slice m dst) = Ok m.
Proof.
  intros (Hm & Hn & Hl & Hs). unfold Multisig_unpack_from_slice.
  assert (length (mjoin (le_split 32 <$> s_signers m)) = 352%nat) as L.
  { change 352%nat with (MAX_SIGNERS * 32)%nat. rewrite <-Hl. clear.
    induction (s_signers m) as [|k l IH]; [done|].
    change (length (le_split 32 k ++ mjoin (le_split 32 <$> l)) = (32 + length l * 32)%nat).
    by rewrite length_app, length_le_split, IH. }
  unfold Multisig_pack_into_slice.
  rewrite array_ref_full by (by rewrite !length_app, !length_le_split, L). rewrite Ok_bind.
  field 1%nat ltac:(apply length_le_split). field 1%nat ltac:(apply length_le_split).
  field 1%nat done. rewrite slice_last by done. rewrite unpack_pack_flag, Ok_bind.
  rewrite !le_combine_split_in by done. rewrite <-Hl.
  assert (array_read pubkey (length (s_signers m)) (mjoin (le_split 32 <$> s_signers m)) =
          s_signers m) as ->.
  { apply (array_read_write pubkey). done. }
  by destruct m.
Qed.

(** ** Agreement with the in-place view *)

Lemma coption_read_eq n bs :
  c_read (coption_codec n) bs = mkCOption (le_combine (take 4 bs)) (le_combine (drop 4 bs)).
Proof. reflexivity. Qed.

Lemma coption_read bs o : length bs = 36%nat → unpack_coption_key bs = Ok o →
  co_get (c_read (coption_codec 32) bs) = o.
Proof.
  intros Hl. unfold unpack_coption_key, co_get.
  rewrite coption_read_eq. cbn [co_option co_value]. change (slice 0 4 bs) with (take 4 (drop 0 bs)). rewrite drop_0.
  assert (slice 4 36 bs = drop 4 bs) as ->.
  { unfold slice. apply firstn_all2. rewrite length_drop. lia. }
  destruct (le_combine (take 4 bs)) as [|[p|p|]|p]; intros H;
    first [discriminate H|by injection H as <-].
Qed.

Lemma coption_read_u64 bs o : length bs = 12%nat → unpack_coption_u64 bs = Ok o →
  co_get (c_read (coption_codec 8) bs) = o.
Proof.
  intros Hl. unfold unpack_coption_u64, co_get.
  rewrite coption_read_eq. cbn [co_option co_value]. change (slice 0 4 bs) with (take 4 (drop 0 bs)). rewrite drop_0.
  assert (slice 4 12 bs = drop 4 bs) as ->.
  { unfold slice. apply firstn_all2. rewrite length_drop. lia. }
  destruct (le_combine (take 4 bs)) as [|[p|p|]|p]; intros H;
    first [discriminate H|by injection H as <-].
Qed.

(** Reading a field of a struct is slicing the buffer. *)
Lemma take_drop_slice {A} n m (l : list A) : take n (drop m l) = slice m (m + n) l.
Proof. unfold slice. f_equal. lia. Qed.

Lemma drop_slice_end {A} m n (l : list A) : length l = n → drop m l = slice m n l.
Proof. intros <-. unfold slice. symmetry. apply firstn_all2. rewrite length_drop. lia. Qed.

Lemma unpack_flag_read bs b : unpack_flag bs = Ok b → pod_bool (le_combine bs) = b.
Proof.
  unfold unpack_flag, pod_bool. destruct (le_combine bs) as [|[]|]; intros H;
    first [discriminate H|by injection H as <-].
Qed.

Lemma account_state_try_from_Some b s : account_state_try_from b = Some s → b = account_state_u8 s.
Proof. destruct b as [|[[]|[]|]|]; intros H;
    first [discriminate H|by injection H as <-]. Qed.

(** The struct view of a buffer, field by field. *)
Definition PodMint_view (p : PodMint) : Mint :=
  mkMint (co_get (mint_authority p)) (supply p) (decimals p) (PodMint_is_initialized p)
    (co_get (freeze_authority p)).
Definition PodAccount_view (p : PodAccount) (s : AccountState) : Account :=
  mkAcc (acc_mint p) (acc_owner p) (amount p) (co_get (delegate p)) s (co_get (is_native_opt p))
    (delegated_amount p) (co_get (close_authority p)).
Definition PodMultisig_view (p : PodMultisig) : Multisig :=
  mkMultisig (ms_m p) (ms_n p) (PodMultisig_is_initialized p) (ms_signers p).

Lemma PodMint_read d : length d = Mint_LEN → c_read PodMint_codec d =
  mkPodMint (c_read (coption_codec 32) (slice 0 36 d)) (le_combine (slice 36 44 d))
    (le_combine (slice 44 45 d)) (le_combine (slice 45 46 d))
    (c_read (coption_codec 32) (slice 46 82 d)).
Proof.
  intros Hl. transitivity (mkPodMint (c_read (coption_codec 32) (take 36 d))
    (le_combine (take 8 (drop 36 d))) (le_combine (take 1 (drop 8 (drop 36 d))))
    (le_combine (take 1 (drop 1 (drop 8 (drop 36 d)))))
    (c_read (coption_codec 32) (drop 1 (drop 1 (drop 8 (drop 36 d)))))); [done|].
  rewrite !drop_drop, !take_drop_slice. cbn [Nat.add].
  by rewrite (drop_slice_end 46 82 d) by done.
Qed.

Lemma PodAccount_read d : length d = Account_LEN → c_read PodAccount_codec d =
  mkPodAccount (le_combine (slice 0 32 d)) (le_combine (slice 32 64 d))
    (le_combine (slice 64 72 d)) (c_read (coption_codec 32) (slice 72 108 d))
    (le_combine (slice 108 109 d)) (c_read (coption_codec 8) (slice 109 121 d))
    (le_combine (slice 121 129 d)) (c_read (coption_codec 32) (slice 129 165 d)).
Proof.
  intros Hl. set (d1 := drop 8 (drop 32 (drop 32 d))). set (d2 := drop 12 (drop 1 (drop 36 d1))).
  transitivity (mkPodAccount (le_combine (take 32 d)) (le_combine (take 32 (drop 32 d)))
    (le_combine (take 8 (drop 32 (drop 32 d)))) (c_read (coption_codec 32) (take 36 d1))
    (le_combine (take 1 (drop 36 d1))) (c_read (coption_codec 8) (take 12 (drop 1 (drop 36 d1))))
    (le_combine (take 8 d2)) (c_read (coption_codec 32) (drop 8 d2))); [done|].
  subst d1 d2. rewrite !drop_drop, !take_drop_slice. cbn [Nat.add].
  by rewrite (drop_slice_end 129 165 d) by done.
Qed.

Lemma Mint_view d m : length d = Mint_LEN → Mint_unpack_from_slice d = Ok m →
  PodMint_view (c_read PodMint_codec d) = m.
Proof.
  intros Hl. unfold Mint_unpack_from_slice. rewrite array_ref_full, Ok_bind by done.
  intros (a & Ha & (i & Hi & (f & Hf & [= <-])%bind_Ok)%bind_Ok)%bind_Ok.
  apply coption_read in Ha; [|rewrite length_slice; unfold Mint_LEN in *; lia].
  apply coption_read in Hf; [|rewrite length_slice; unfold Mint_LEN in *; lia].
  apply unpack_flag_read in Hi.
  unfold PodMint_view, PodMint_is_initialized. rewrite <-Ha, <-Hf, <-Hi, PodMint_read by done.
  done.
Qed.

Lemma Account_view d a : length d = Account_LEN → Account_unpack_from_slice d = Ok a →
  PodAccount_view (c_read PodAccount_codec d) (a_state a) = a ∧
  acc_state (c_read PodAccount_codec d) = account_state_u8 (a_state a).
Proof.
  intros Hl. unfold Account_unpack_from_slice. rewrite array_ref_full, Ok_bind by done.
  intros (de & Hd & (s & Hs & (n & Hn & (c & Hc & [= <-])%bind_Ok)%bind_Ok)%bind_Ok)%bind_Ok.
  apply coption_read in Hd; [|rewrite length_slice; unfold Account_LEN in *; lia].
  apply coption_read in Hc; [|rewrite length_slice; unfold Account_LEN in *; lia].
  apply coption_read_u64 in Hn; [|rewrite length_slice; unfold Account_LEN in *; lia].
  apply ok_or_Ok, account_state_try_from_Some in Hs.
  unfold PodAccount_view. rewrite PodAccount_read by done. rewrite <-Hd, <-Hc, <-Hn. by split.
Qed.

Lemma Multisig_view d m : length d = Multisig_LEN → Multisig_unpack_from_slice d = Ok m →
  PodMultisig_view (PodMultisig_read d) = m.
Proof.
  intros Hl. unfold Multisig_unpack_from_slice. rewrite array_ref_full, Ok_bind by done.
  intros (i & Hi & [= <-])%bind_Ok. apply unpack_flag_read in Hi.
  unfold PodMultisig_view, PodMultisig_is_initialized, PodMultisig_read.
  cbn [ms_m ms_n ms_is_initialized ms_signers]. rewrite Hi.
  by rewrite (drop_slice_end 3 355 d) by done.
Qed.

(** ** Properties *)

(** Packing then unpacking a mint, a token account or a multisig gives it back,
    and packing fills the buffer exactly, whatever the buffer held. *)
Theorem pack_round_trip :
  (∀ m dst, Mint_ok m → length dst = Mint_LEN →
     length (Mint_pack_into_slice m dst) = Mint_LEN ∧
     Mint_unpack_from_slice (Mint_pack_into_slice m dst) = Ok m) ∧
  (∀ a dst, Account_ok a → length dst = Account_LEN →
     length (Account_pack_into_slice a dst) = Account_LEN ∧
     Account_unpack_from_slice (Account_pack_into_slice a dst) = Ok a) ∧
  (∀ m dst, Multisig_ok m → Multisig_unpack_from_slice (Multisig_pack_into_slice m dst) = Ok m).
Proof.
  split; [apply Mint_unpack_pack|]. split; [apply Account_unpack_pack|]. apply Multisig_unpack_pack.
Qed.

(** the two decoders of the program agree.  Whenever the strict [Pack] decoder
    accepts a buffer, the plain-old-data view of the same bytes has the same
    fields, and agrees on whether the state is initialized or frozen. *)
Theorem pod_view_agrees d :
  (∀ m, length d = Mint_LEN → Mint_unpack_from_slice d = Ok m →
     PodMint_view (c_read PodMint_codec d) = m) ∧
  (∀ a, length d = Account_LEN → Account_unpack_from_slice d = Ok a →
     PodAccount_view (c_read PodAccount_codec d) (a_state a) = a ∧
     PodAccount_is_initialized (c_read PodAccount_codec d) = Account_is_initialized a ∧
     is_frozen (c_read PodAccount_codec d) = Account_is_frozen a ∧
     is_native (c_read PodAccount_codec d) = Account_is_native a) ∧
  (∀ m, length d = Multisig_LEN → Multisig_unpack_from_slice d = Ok m →
     PodMultisig_view (PodMultisig_read d) = m).
Proof.
  split; [|split].
  - intros m Hl. by apply Mint_view.
  - intros a Hl Ha. destruct (Account_view d a Hl Ha) as [Hv Hs]. split; [done|].
    unfold PodAccount_is_initialized, is_frozen, Account_is_initialized, Account_is_frozen,
      Account_is_native, is_native. rewrite Hs.
    assert (co_get (is_native_opt (c_read PodAccount_codec d)) = a_is_native a) as <-
      by exact (f_equal a_is_native Hv).
    unfold co_is_some, co_get. split; [|split].
    + by destruct (a_state a).
    + by destruct (a_state a).
    + by destruct (_ =? SOME).
  - intros m Hl. by apply Multisig_view.
Qed.
