(* ===== verification/TlvSpec.v ===== *)
(** * The contract of the TLV storage

    The area of an account as a list of entries ([tlv_of]): reading, allocating and
    resizing are lookup, append and update of that list, on every branch, and a
    buffer is exactly what its view shows. *)
From S2P Require Import Prelude Codec Errors Runtime Pod State ExtensionType ExtensionData Tlv.
From S2P Require Import TlvFacts TlvAlloc StateExt Fee Authority Transfer AccountFacts.

Local Open Scope nat_scope.

(** Deduplication keeps the first occurrence of each type. *)
Section dedupe.
Implicit Types (l acc : list ExtensionType).

Definition dedupe_from acc l : list ExtensionType :=
  fold_left (λ acc t, if decide (t ∈ acc) then acc else acc ++ [t]) l acc.

Lemma dedupe_from_NoDup acc l : NoDup acc → NoDup (dedupe_from acc l).
Proof.
  revert acc. induction l as [|t l IH]; intros acc Hacc; simpl; [done|].
  apply IH. case_decide; [done|]. apply NoDup_app. split; [done|].
  split; [set_solver|apply NoDup_singleton].
Qed.

Lemma dedupe_from_fresh acc l : NoDup (acc ++ l) → dedupe_from acc l = acc ++ l.
Proof.
  revert acc. induction l as [|t l IH]; intros acc H; simpl; [by rewrite app_nil_r|].
  apply NoDup_app in H as (H1 & H2 & H3). rewrite decide_False by set_solver.
  rewrite IH, <-app_assoc; [done|]. rewrite <-app_assoc. apply NoDup_app. done.
Qed.

Lemma dedupe_idemp l : dedupe (dedupe l) = dedupe l.
Proof.
  apply (dedupe_from_fresh []). apply (dedupe_from_NoDup []). constructor.
Qed.

Lemma dedupe_from_prefix acc l : ∃ k, dedupe_from acc l = acc ++ k.
Proof.
  revert acc. induction l as [|t l IH]; intros acc; simpl; [exists []; by rewrite app_nil_r|].
  case_decide; [apply IH|]. destruct (IH (acc ++ [t])) as [k ->].
  exists (t :: k). by rewrite <-app_assoc.
Qed.

Lemma dedupe_cons t l : ∃ k, dedupe (t :: l) = t :: k.
Proof. apply (dedupe_from_prefix [t]). Qed.
End dedupe.

Section spec.
Context (rt : Runtime) (S : Type) `{HB : BaseState S}.
Implicit Types (V W : ExtensionType) (es : list entry).

(** Reading an extension of the area is looking its type up in the list of
    entries, and the scan of the area sees exactly the entries, in order, and
    where the last one ends.  Both terminate on every buffer, by construction
    from the area's length. *)
Theorem tlv_lookup V es pad : get_account_type V = ACCOUNT_TYPE S →
  V ≠ ExtensionType.Uninitialized → entries_ok es →
  ok_opt (get_extension_bytes S V (tlv_of es pad)) = find_entry V es ∧
  get_tlv_data_info (tlv_of es pad) = Ok (mkInfoTlv es.*1 (length (encode es))).
Proof.
  intros HV HU Hes. split; [|apply get_tlv_data_info_tlv_of, Hes].
  destruct (find_entry V es) as [v|] eqn:Hv.
  - by rewrite (get_extension_bytes_found S V es v).
  - apply find_entry_None in Hv.
    by destruct (get_extension_bytes_absent S V es pad Hes Hv HU) as [e ->].
Qed.

(** No room for a new entry. *)
Lemma alloc_no_room V len overwrite es pad : get_account_type V = ACCOUNT_TYPE S →
  V ≠ ExtensionType.Uninitialized → entries_ok es → V ∉ es.*1 → pad < len + 4 →
  alloc S V len overwrite (tlv_of es pad) = Err InvalidAccountData.
Proof.
  intros HV HU Hes Hnin Hpad. unfold alloc. rewrite decide_True by done.
  rewrite get_extension_indices_absent by done.
  destruct (Nat.ltb_spec pad 4); [done|]. rewrite Ok_bind.
  cbn [get_tlv_indices type_start]. unfold tlv_of, add_type_and_length_to_len.
  by rewrite drop_app_length, length_replicate, (proj2 (Nat.ltb_lt _ _)) by lia.
Qed.

(** Allocating an extension appends a zeroed entry of the requested length when
    the type is new and there is room for it; when the type exists, it is refused
    unless overwriting with the same length, which keeps the entry. *)
Theorem tlv_alloc V len overwrite es pad : get_account_type V = ACCOUNT_TYPE S →
  V ≠ ExtensionType.Uninitialized → entries_ok es → in_uint 16 (Z.of_nat len) →
  match find_entry V es with
  | None =>
      (fst <$> alloc S V len overwrite (tlv_of es pad)) =
      if pad <? len + 4 then Err InvalidAccountData
      else Ok (tlv_of (es ++ [(V, zeros len)]) (pad - (len + 4)))
  | Some v => len ≤ length v + pad →
      (fst <$> alloc S V len overwrite (tlv_of es pad)) =
      if negb overwrite then Err (tok ExtensionAlreadyInitialized)
      else if length v =? len then Ok (tlv_of es pad) else Err (tok InvalidLengthForAlloc)
  end.
Proof.
  intros HV HU Hes Hlen. destruct (find_entry V es) as [v|] eqn:Hv.
  - intros Hle. apply find_entry_split in Hv as (es1 & es2 & -> & _).
    rewrite alloc_existing by (done || lia).
    destruct overwrite; [|done]. by destruct (length v =? len).
  - apply find_entry_None in Hv. destruct (Nat.ltb_spec pad (len + 4)).
    + by rewrite alloc_no_room.
    + by rewrite alloc_new.
Qed.

(** resizing an extension cuts its value or extends it with zeros, and moves
    the entries behind it without changing them; it fails exactly when the area
    has no room for the growth or the length does not fit the 16-bit field, and
    it never panics. *)
Theorem tlv_realloc V len es v pad : entries_ok es → find_entry V es = Some v →
  (fst <$> realloc V len (tlv_of es pad)) =
  if pad <? len - length v then Err InvalidAccountData
  else if (Z.of_nat len <? 2 ^ 16)%Z then
    Ok (tlv_of (update_entry V (resized v len) es) (pad + length v - len))
  else Err AccountDataTooSmall.
Proof.
  intros Hes Hv. apply find_entry_split in Hv as (es1 & es2 & -> & Hnin).
  rewrite realloc_entry by done. rewrite update_entry_split by done.
  repeat case_match; done.
Qed.

(** writing the value of one extension is seen by its readers and by no others,
    in any area, well formed or not. *)
Theorem extension_write_frame V W tlv a b k :
  get_extension_range S V tlv = Ok (a, b) → length k = b - a →
  length (splice a k tlv) = length tlv ∧
  get_extension_bytes S V (splice a k tlv) = Ok k ∧
  (V ≠ W → get_extension_bytes S W (splice a k tlv) = get_extension_bytes S W tlv).
Proof.
  intros Hr Hk. split; [|split].
  - apply get_extension_range_Ok in Hr as (_ & i & n & _ & _ & -> & -> & Hb).
    apply length_splice. lia.
  - by eapply get_extension_bytes_same.
  - intros HVW. by eapply get_extension_bytes_ne.
Qed.
End spec.

Section views.
Context (rt : Runtime) (S : Type) `{HB : BaseState S} `{HP : !PodState S}.

(** C28: a buffer and its mutable view determine each other: unpacking accepts
    exactly the buffers of well-formed views, returns that view, and writing the
    view back gives the buffer; the read-only view shows the same state. *)
Theorem unpack_iff_state_bytes input st :
  (unpack S input = Ok st ↔ state_ok S st ∧ input = state_bytes S st) ∧
  (unpack_ref S input = (λ st, mkRef (base st) (tlv_data st)) <$> unpack S input).
Proof.
  split; [|apply unpack_ref_unpack]. split.
  - intros [H1 H2]%unpack_Ok. done.
  - intros [Hst ->]. by apply unpack_state_bytes.
Qed.
End views.

Section types.
Context (rt : Runtime).

(** C29: no buffer is two things at once: one that unpacks as a token account does not
    unpack as a mint, and neither has the length of a multisig. *)
Theorem account_types_disjoint d :
  (∀ st, unpack_account d = Ok st → (∀ m, unpack_mint d ≠ Ok m) ∧ length d ≠ Multisig_LEN) ∧
  (∀ m, unpack_mint d = Ok m → length d ≠ Multisig_LEN).
Proof.
  split.
  - intros st Hst. split; [by eapply unpack_account_not_mint|].
    apply unpack_Ok in Hst as [-> Hst]. apply Hst.
  - intros m [-> Hm]%unpack_Ok. apply Hm.
Qed.

(** The length of an account with extensions is never the length of a multisig,
    leaves room for the account type, and does not depend on repetitions of a
    type in the list. *)
Theorem account_len_not_multisig {S} `{BaseState S} (l : list ExtensionType) n :
  l ≠ [] → try_calculate_account_len S l = Ok n →
  n ≠ Multisig_LEN ∧ BASE_ACCOUNT_AND_TYPE_LENGTH ≤ n ∧
  try_calculate_account_len S (dedupe l) = Ok n.
Proof.
  intros Hl Hn. unfold try_calculate_account_len in Hn. destruct l as [|t l]; [done|].
  apply bind_Ok in Hn as (k & Hk & [= <-]).
  assert (∀ m, adjust_len_for_multisig m ≠ Multisig_LEN ∧ m ≤ adjust_len_for_multisig m) as Hadj.
  { intros m. unfold adjust_len_for_multisig. destruct (Nat.eqb_spec m Multisig_LEN); lia. }
  destruct (Hadj (k + BASE_ACCOUNT_AND_TYPE_LENGTH)). split; [done|]. split; [lia|].
  unfold try_get_total_tlv_len in Hk. unfold try_calculate_account_len.
  pose proof (dedupe_idemp (t :: l)) as Hd. destruct (dedupe_cons t l) as [l' E].
  rewrite E in Hk, Hd |- *. unfold try_get_total_tlv_len. by rewrite Hd, Hk.
Qed.
End types.
