(* ===== verification/TlvTotal.v ===== *)
(** * The storage code returns, on any bytes

    The loops over an extension area end, and nothing in the storage code
    panics or leaves the buffer, whatever the buffer holds. *)
From S2P Require Import Prelude Codec Errors Runtime Pod State ExtensionType ExtensionData Tlv.
From S2P Require Import TlvFacts TlvAlloc StateExt.

Local Open Scope nat_scope.

(** [r] is a result of the program, an error or a value of which [P] holds. *)
Definition returns {E A} (P : A → Prop) (r : result E A) : Prop :=
  match r with
  | Ok a => P a
  | Err _ => True
  | Panic => False
  end.

Section returns.
Context {E : Type}.

Lemma returns_bind {A B} (P : A → Prop) (Q : B → Prop) (r : result E A) (f : A → result E B) :
  returns P r → (∀ a, r = Ok a → P a → returns Q (f a)) → returns Q (r ≫= f).
Proof. destruct r; naive_solver. Qed.

Lemma returns_throw_if b (e : E) : returns (λ _, b = false) (throw_if b e).
Proof. by destruct b. Qed.

Lemma returns_ok_or {A} (o : option A) (e : E) : returns (λ a, o = Some a) (ok_or o e).
Proof. by destruct o. Qed.
End returns.

Section total.
Context `{rt : Runtime}.
Implicit Types (l tlv : list byte) (V : ExtensionType).

Lemma returns_pod {A} (c : codec A) bs : returns (λ _, length bs = c_size c) (pod_from_bytes c bs).
Proof.
  destruct (pod_from_bytes c bs) eqn:E; simpl; [apply pod_from_bytes_Ok, proj1 in E; exact E|done|].
  exfalso. Transparent pod_from_bytes. unfold pod_from_bytes in E. Opaque pod_from_bytes.
  by case_match.
Qed.

Lemma returns_ext_type bs : returns (λ _, length bs = 2) (ext_try_from bs).
Proof.
  unfold ext_try_from. destruct (Nat.eqb_spec (length bs) 2); [|done].
  by destruct (ext_from_u16 (le_combine bs)).
Qed.

(** ** The loops *)
Lemma search_total f V l init start : length l - start < f →
  get_extension_indices_loop f V l init start ≠ Panic.
Proof.
  revert start. induction f as [|f IH]; intros start Hf; [lia|]. cbn [get_extension_indices_loop].
  destruct (Nat.ltb_spec start (length l)); [|done]. cbv zeta.
  repeat (case_match; try done).
  intros [H'|(n & _ & H')]%bind_Panic; [|by apply IH in H'; [|simpl; lia]].
  pose proof (returns_pod u16 (slice (start + 2) (start + 2 + 2) l)) as Hr.
  cbn [get_tlv_indices length_start value_start] in H'. by rewrite H' in Hr.
Qed.

Lemma scan_total f l ts start : length l - start < f →
  get_tlv_data_info_loop f l ts start ≠ Panic.
Proof.
  revert ts start. induction f as [|f IH]; intros ts start Hf; [lia|].
  cbn [get_tlv_data_info_loop].
  destruct (Nat.ltb_spec start (length l)); [|done]. cbv zeta. case_match; [done|].
  intros [H'|(t & _ & H')]%bind_Panic.
  { pose proof (returns_ext_type (slice start (start + 2) l)) as Hr.
    cbn [get_tlv_indices length_start type_start] in H'. by rewrite H' in Hr. }
  case_decide; [done|]. case_match; [done|].
  apply bind_Panic in H' as [H'|(n & _ & H')].
  { pose proof (returns_pod u16 (slice (start + 2) (start + 2 + 2) l)) as Hr.
    cbn [get_tlv_indices length_start value_start] in H'. by rewrite H' in Hr. }
  case_match; [done|]. by apply IH in H'; [|simpl; lia].
Qed.

(** What the list of types ends at. *)
Lemma scan_Ok l ts start info : scan l ts start = Ok info → start ≤ length l →
  start ≤ used_len info ≤ length l.
Proof.
  unfold scan. generalize (S (length l)) as f. intros f. revert ts start.
  induction f as [|f IH]; intros ts start H Hs; [done|]. cbn [get_tlv_data_info_loop] in H.
  destruct (Nat.ltb_spec start (length l)); [|injection H as <-; simpl; lia].
  cbv zeta in H. case_match; [injection H as <-; simpl; lia|].
  apply bind_Ok in H as (t & _ & H). case_decide; [injection H as <-; simpl; lia|].
  case_match; [done|]. apply bind_Ok in H as (n & _ & H).
  destruct (Nat.ltb_spec (length l) (value_start (get_tlv_indices start) + Z.to_nat n)); [done|].
  cbn [get_tlv_indices value_start] in *. apply IH in H; lia.
Qed.

(** An entry that the search finds lies before the end that the scan finds. *)
Lemma search_scan V l ts start i info : V ≠ ExtensionType.Uninitialized →
  search V l false start = Ok i → scan l ts start = Ok info → start ≤ length l →
  ∃ n, pod_from_bytes u16 (slice (length_start i) (value_start i) l) = Ok n ∧
    value_start i + Z.to_nat n ≤ used_len info.
Proof.
  intros HV. remember (length l - start) as m eqn:Em. revert ts start Em.
  induction m as [m IH] using lt_wf_ind. intros ts start -> Hi Hinfo Hs.
  rewrite search_unfold in Hi. rewrite scan_unfold in Hinfo.
  destruct (Nat.ltb_spec start (length l)); [|done]. cbv zeta in Hi, Hinfo.
  cbn [get_tlv_indices type_start length_start value_start] in Hi, Hinfo.
  destruct (Nat.ltb_spec (length l) (start + 2 + 2)); [done|].
  rewrite (proj2 (Nat.ltb_ge _ _)) in Hinfo by lia.
  apply bind_Ok in Hinfo as (t & Ht & Hinfo). unfold ext_try_from in Ht.
  rewrite length_slice, (proj2 (Nat.eqb_eq _ _)) in Ht by lia. apply ok_or_Ok in Ht.
  destruct (Z.eqb_spec (le_combine (slice start (start + 2) l)) (ext_u16 V)) as [E|E].
  - injection Hi as <-. rewrite E, ext_from_to_u16 in Ht. injection Ht as <-.
    rewrite decide_False in Hinfo by done.
    apply bind_Ok in Hinfo as (n & Hn & Hinfo). exists n. split; [done|].
    cbn [value_start get_tlv_indices].
    destruct (Nat.ltb_spec (length l) (start + 2 + 2 + Z.to_nat n)); [done|].
    apply scan_Ok in Hinfo; lia.
  - destruct (Z.eqb_spec (le_combine (slice start (start + 2) l))
      (ext_u16 ExtensionType.Uninitialized)) as [|HU]; [done|].
    rewrite decide_False in Hinfo by (intros ->; by apply HU, ext_from_u16_Some).
    apply bind_Ok in Hi as (n & Hn & Hi). rewrite Hn, Ok_bind in Hinfo.
    destruct (Nat.ltb_spec (length l) (start + 2 + 2 + Z.to_nat n)); [done|].
    refine (IH _ _ _ _ eq_refl Hi Hinfo _); lia.
Qed.

Lemma returns_search V l init :
  returns (λ i, i = get_tlv_indices (type_start i) ∧ value_start i ≤ length l)
    (get_extension_indices V l init).
Proof.
  unfold get_extension_indices. pose proof (search_total (S (length l)) V l init 0) as Ht.
  destruct (get_extension_indices_loop _ _ _ _ _) as [i| |] eqn:E; [|done|by apply Ht; [lia|]].
  by apply (search_Ok V l init 0 i) in E as (_ & ? & ?).
Qed.

Lemma returns_scan l :
  returns (λ info, used_len info ≤ length l) (get_tlv_data_info l).
Proof.
  unfold get_tlv_data_info. pose proof (scan_total (S (length l)) l [] 0) as Ht.
  destruct (get_tlv_data_info_loop _ _ _ _) as [i| |] eqn:E; [|done|by apply Ht; [lia|]].
  apply (scan_Ok l [] 0 i) in E; [|lia]. apply E.
Qed.

(** ** Entries *)
Section entries.
Context (S : Type) `{HB : BaseState S}.

Lemma returns_range V l :
  returns (λ '(a, b), a ≤ b ∧ b ≤ length l) (get_extension_range S V l).
Proof.
  unfold get_extension_range. case_decide; [|done].
  eapply returns_bind; [apply returns_search|]. intros i _ [Hi Hv].
  eapply returns_bind; [apply returns_pod|]. intros n _ _.
  destruct (Nat.ltb_spec (length l) (value_start i + Z.to_nat n)); [done|]. simpl. lia.
Qed.

Lemma returns_alloc V len ov l :
  returns (λ '(l', (a, b)), length l' = length l ∧ a ≤ b ∧ b ≤ length l) (alloc S V len ov l).
Proof.
  unfold alloc. case_decide; [|done].
  eapply returns_bind; [apply returns_search|]. intros i _ [-> Hv].
  cbn [get_tlv_indices type_start length_start value_start] in *.
  destruct (Nat.ltb_spec (length (drop (type_start i) l)) (add_type_and_length_to_len len))
    as [|Hroom]; [done|].
  unfold add_type_and_length_to_len in Hroom. rewrite length_drop in Hroom.
  eapply returns_bind; [apply returns_ext_type|]. intros t _ _. case_match; [|done].
  eapply returns_bind; [apply returns_pod|]. intros n _ _.
  eapply returns_bind; [apply returns_throw_if|]. intros [] _ _.
  eapply returns_bind; [apply returns_ok_or|]. intros z _ _. cbn [returns].
  assert (length (splice (type_start i) (ext_bytes V) l) = length l) as Hl
    by (apply length_splice; rewrite length_ext_bytes; lia).
  rewrite length_splice, Hl by (rewrite Hl, length_le_split; lia). lia.
Qed.
End entries.

Lemma returns_copy a b dest l : a ≤ b → b ≤ length l → dest + (b - a) ≤ length l →
  returns (λ l', length l' = length l) (copy_within a b dest l).
Proof.
  intros. unfold copy_within.
  rewrite (proj2 (Nat.ltb_ge b a)), (proj2 (Nat.ltb_ge _ b)), (proj2 (Nat.ltb_ge _ (dest + _)))
    by lia.
  simpl. apply length_splice. rewrite length_slice; lia.
Qed.

Lemma returns_fill a b l : a ≤ b → b ≤ length l →
  returns (λ l', length l' = length l) (fill0 a b l).
Proof.
  intros. unfold fill0. rewrite (proj2 (Nat.ltb_ge b a)), (proj2 (Nat.ltb_ge _ b)) by lia.
  simpl. apply length_splice. rewrite length_replicate. lia.
Qed.

Lemma returns_realloc V len l : V ≠ ExtensionType.Uninitialized →
  returns (λ '(l', (a, b)), length l' = length l ∧ a ≤ b ∧ b ≤ length l) (realloc V len l).
Proof.
  intros HV. unfold realloc.
  eapply returns_bind; [apply returns_search|]. intros i Hi [Hii Hv].
  eapply returns_bind; [apply returns_scan|]. intros info Hinfo Hu.
  destruct (search_scan V l [] 0 i info HV Hi Hinfo ltac:(lia)) as (n & Hn & Hle).
  rewrite Hn, Ok_bind. set (old := Z.to_nat n) in *.
  assert (length_start i + 2 ≤ length l) as Hls by (rewrite Hii in Hv |- *; simpl in *; lia).
  eapply returns_bind with (P := λ _, len ≤ old ∨ used_len info + (len - old) ≤ length l).
  { destruct (Nat.ltb_spec old len); [|simpl; by left].
    destruct (Nat.ltb_spec (length l) (used_len info + (len - old))); simpl; [done|by right]. }
  intros [] _ Hroom. cbn beta in Hroom, Hu. eapply returns_bind; [apply returns_ok_or|]. intros z _ _.
  assert (length (splice (length_start i) (le_split 2 z) l) = length l) as Hl1
    by (apply length_splice; by rewrite length_le_split).
  eapply returns_bind with (P := λ l', length l' = length l).
  { rewrite <-Hl1. apply returns_copy; rewrite ?Hl1; lia. }
  intros l2 _ Hl2. eapply returns_bind with (P := λ l', length l' = length l).
  { destruct (Nat.compare_spec old len); [by simpl|..]; rewrite <-Hl2; apply returns_fill; lia. }
  intros l3 _ Hl3. destruct (Nat.ltb_spec (length l3) (value_start i + len)); simpl; lia.
Qed.

(** ** Views *)
Section views.
Context (S : Type) `{HB : BaseState S} `{HP : !PodState S}.

Lemma returns_indices l : returns (λ _, True) (type_and_tlv_indices S l).
Proof. unfold type_and_tlv_indices. repeat case_match; done. Qed.

Lemma returns_first l : returns (λ _, True) (get_first_extension_type l).
Proof.
  unfold get_first_extension_type. repeat (case_match; try done).
  eapply returns_bind; [apply returns_ext_type|]. intros t _ _. by case_decide.
Qed.

Lemma returns_area l f : (∀ t, returns (λ _, True) (f t)) →
  returns (λ _, True) (unpack_type_and_tlv_data_with_check_mut S l f).
Proof.
  intros Hf. unfold unpack_type_and_tlv_data_with_check_mut.
  eapply returns_bind; [apply returns_indices|]. intros [[a b]|] _ _; [|done].
  eapply returns_bind; [apply returns_ok_or|]. intros t _ _.
  eapply returns_bind; [apply Hf|]. done.
Qed.

Lemma returns_unpack input : returns (λ _, True) (unpack S input).
Proof.
  eapply returns_bind; [apply returns_throw_if|]. intros [] _ _.
  eapply returns_bind; [apply returns_pod|]. intros b _ _. case_match; [done|].
  eapply returns_bind; [apply returns_area; intros t; unfold check_account_type; by case_decide|].
  by intros [].
Qed.

Lemma returns_unpack_uninitialized input : returns (λ _, True) (unpack_uninitialized S input).
Proof.
  eapply returns_bind; [apply returns_throw_if|]. intros [] _ _.
  eapply returns_bind; [apply returns_pod|]. intros b _ _. case_match; [done|].
  eapply returns_bind; [apply returns_area; intros t; by case_decide|]. intros [t l] _ _.
  eapply returns_bind with (P := λ _, True); [|done].
  eapply returns_bind; [apply returns_first|]. intros [e|] _ _; [|done]. unfold throw_if. by case_match.
Qed.
End views.
End total.

Section property.
Context `{rt : Runtime}.

(** C39: the storage code is total.  On any bytes, in any account, the loops over the
    extension area end (any fuel above its length gives the same result), and
    searching, listing, allocating, resizing and unpacking return a value or an error,
    never a panic; the ranges they return lie within the buffer. *)
Theorem storage_total S `{PodState S} (tlv : list byte) :
  (∀ V init fuel, length tlv < fuel →
     get_extension_indices_loop fuel V tlv init 0 = get_extension_indices V tlv init) ∧
  (∀ fuel, length tlv < fuel → get_tlv_data_info_loop fuel tlv [] 0 = get_tlv_data_info tlv) ∧
  returns (λ info, used_len info ≤ length tlv) (get_tlv_data_info tlv) ∧
  (∀ V, returns (λ '(a, b), a ≤ b ∧ b ≤ length tlv) (get_extension_range S V tlv)) ∧
  (∀ V len overwrite,
     returns (λ '(tlv', (a, b)), length tlv' = length tlv ∧ a ≤ b ∧ b ≤ length tlv)
       (alloc S V len overwrite tlv)) ∧
  (∀ V len, V ≠ ExtensionType.Uninitialized →
     returns (λ '(tlv', (a, b)), length tlv' = length tlv ∧ a ≤ b ∧ b ≤ length tlv)
       (realloc V len tlv)) ∧
  returns (λ _, True) (unpack S tlv) ∧ returns (λ _, True) (unpack_ref S tlv) ∧
  returns (λ _, True) (unpack_uninitialized S tlv).
Proof.
  split; [intros; apply get_extension_indices_fuel; lia|].
  split; [intros; apply get_tlv_data_info_fuel; lia|].
  split; [apply returns_scan|]. split; [intros; apply returns_range|].
  split; [intros; apply returns_alloc|]. split; [intros; by apply returns_realloc|].
  split; [apply returns_unpack|]. split; [|apply returns_unpack_uninitialized].
  rewrite unpack_ref_unpack. pose proof (returns_unpack S tlv) as Hu. by destruct (unpack S tlv).
Qed.

(** A header that runs over the end of its area. *)
End property.

#[local] Existing Instance example_runtime.

Lemma storage_total_witness : realloc ExtensionType.ImmutableOwner 300
    [Byte.x07; Byte.x00; Byte.xff; Byte.xff; Byte.x00] ≠ Panic.
Proof.
  pose proof (storage_total PodAccount [Byte.x07; Byte.x00; Byte.xff; Byte.xff; Byte.x00])
    as (_ & _ & _ & _ & _ & H & _).
  specialize (H ExtensionType.ImmutableOwner 300 ltac:(discriminate)).
  intros E. rewrite E in H. exact H.
Defined.
