(* ===== verification/PackedExt.v ===== *)
(** * Packed states with extensions: [interface/src/extension/mod.rs]

    [StateWithExtensions] and [StateWithExtensionsMut]: the views whose base
    state is decoded by [Pack] and packed back explicitly. *)
From S2P Require Import Prelude Codec Errors Runtime Pod State ExtensionType ExtensionData Tlv.
From S2P Require Import StateFacts TlvFacts TlvAlloc StateExt.

Local Open Scope nat_scope.

Record StateWithExtensions (S : Type) := mkStateWithExtensions {
  packed_base : S;
  packed_tlv : list byte;
}.
Arguments mkStateWithExtensions {S}.
Arguments packed_base {S}.
Arguments packed_tlv {S}.

(** The mutable view keeps the four slices of the buffer. *)
Record StateWithExtensionsMut (S : Type) := mkStateWithExtensionsMut {
  mut_base : S;
  mut_base_data : list byte;
  mut_account_type : list byte;
  mut_tlv_data : list byte;
}.
Arguments mkStateWithExtensionsMut {S}.
Arguments mut_base {S}.
Arguments mut_base_data {S}.
Arguments mut_account_type {S}.
Arguments mut_tlv_data {S}.

Section views.
Context `{rt : Runtime}.
Context (S : Type) `{HB : BaseState S} `{HP : !Pack S}.
Implicit Types (input : list byte).

(** [StateWithExtensions::unpack] *)
Definition unpack_packed input : res (StateWithExtensions S) :=
  check_min_len_and_not_multisig input (SIZE_OF S);;
  base ← Pack_unpack S (take (SIZE_OF S) input);
  tlv_data ← unpack_tlv_data S (drop (SIZE_OF S) input);
  Ok (mkStateWithExtensions base tlv_data).

(** [StateWithExtensionsMut::unpack] *)
Definition unpack_packed_mut input : res (StateWithExtensionsMut S) :=
  check_min_len_and_not_multisig input (SIZE_OF S);;
  let base_data := take (SIZE_OF S) input in
  let rest := drop (SIZE_OF S) input in
  base ← Pack_unpack S base_data;
  '(account_type, tlv_data) ← unpack_type_and_tlv_data_mut S rest;
  Ok (mkStateWithExtensionsMut base base_data account_type tlv_data).

(** [pack_base] *)
Definition pack_base (st : StateWithExtensionsMut S) : StateWithExtensionsMut S :=
  mkStateWithExtensionsMut (mut_base st) (pack_into_slice (mut_base st) (mut_base_data st))
    (mut_account_type st) (mut_tlv_data st).

(** The buffer behind a view of [input] whose base bytes were written. *)
Definition packed_bytes (st : StateWithExtensionsMut S) input : list byte :=
  mut_base_data st ++ drop (SIZE_OF S) input.
End views.

Definition with_mut_base {S} (base : S) (st : StateWithExtensionsMut S) :
    StateWithExtensionsMut S :=
  mkStateWithExtensionsMut base (mut_base_data st) (mut_account_type st) (mut_tlv_data st).

(** ** The packed and the in-place view of a token account *)
Section account.
Context `{rt : Runtime}.
Implicit Types (d input : list byte).

Lemma Pack_unpack_account d a : Pack_unpack Account d = Ok a →
  length d = Account_LEN ∧ Account_unpack_from_slice d = Ok a ∧ Account_is_initialized a = true.
Proof.
  unfold Pack_unpack. destruct (Nat.eqb_spec (length d) (PACK_LEN Account)); [|done]. cbn [negb].
  intros (x & Hx & H)%bind_Ok. destruct (pack_is_initialized x) eqn:E; [|done].
  by injection H as <-.
Qed.

(** What the strict decoder accepts, the in-place view shows. *)
Lemma unpack_packed_account input acc : unpack_packed Account input = Ok acc →
  ∃ st, unpack_account input = Ok st ∧ tlv_data st = packed_tlv acc ∧
    PodAccount_view (base st) (a_state (packed_base acc)) = packed_base acc ∧
    acc_state (base st) = account_state_u8 (a_state (packed_base acc)) ∧
    Account_unpack_from_slice (take Account_LEN input) = Ok (packed_base acc).
Proof.
  unfold unpack_packed, unpack. intros (u & Hc & (a & Ha & (tlv & Ht & [= <-])%bind_Ok)%bind_Ok)%bind_Ok.
  change (SIZE_OF PodAccount) with (SIZE_OF Account). rewrite Hc, Ok_bind.
  apply Pack_unpack_account in Ha as (Hl & Ha & Hi).
  destruct (Account_view _ _ Hl Ha) as [Hv Hs].
  assert (pod_from_bytes base_codec (take (SIZE_OF Account) input) =
    Ok (c_read PodAccount_codec (take (SIZE_OF Account) input))) as ->
    by by apply pod_from_bytes_Ok.
  rewrite Ok_bind. cbn [base_is_initialized PodAccount_PodState].
  assert (PodAccount_is_initialized (c_read PodAccount_codec (take (SIZE_OF Account) input)) = true)
    as ->.
  { unfold PodAccount_is_initialized. rewrite Hs. revert Hi. unfold Account_is_initialized.
    by destruct (a_state a). }
  cbn [negb]. change (unpack_tlv_data Account) with (unpack_tlv_data PodAccount) in Ht.
  unfold unpack_tlv_data in Ht. unfold unpack_type_and_tlv_data_mut,
    unpack_type_and_tlv_data_with_check_mut.
  revert Ht. destruct (type_and_tlv_indices _ _) as [[[i j]|]| |]; rewrite ?Ok_bind; intros Ht;
    [| |done..].
  - apply bind_Ok in Ht as (ty & -> & (? & Hck & [= <-])%bind_Ok). rewrite Ok_bind, Hck.
    eexists. split; [reflexivity|]. by split_and!.
  - injection Ht as <-. eexists. split; [reflexivity|]. by split_and!.
Qed.

(** Packing a field that was decoded strictly writes its bytes again. *)
Definition strict (o : PodCOption) : Prop := co_option o = NONE ∨ co_option o = SOME.

Lemma unpack_coption_key_strict bs o : unpack_coption_key bs = Ok o →
  strict (c_read (coption_codec 32) bs).
Proof.
  unfold unpack_coption_key, strict. rewrite coption_read_eq. cbn [co_option].
  change (slice 0 4 bs) with (take 4 (drop 0 bs)). rewrite drop_0.
  destruct (le_combine (take 4 bs)) as [|[]|]; intros H; first [discriminate H|by left|by right].
Qed.

Lemma pack_coption_key_write o : strict o →
  pack_coption_key (co_get o) (c_write (coption_codec 32) o) = c_write (coption_codec 32) o.
Proof.
  change (c_write (coption_codec 32) o) with (le_split 4 (co_option o) ++ le_split 32 (co_value o)).
  unfold co_get, strict. intros [->| ->]; done.
Qed.

Lemma PodAccount_write b : c_write PodAccount_codec b =
  le_split 32 (acc_mint b) ++ le_split 32 (acc_owner b) ++ le_split 8 (amount b) ++
  c_write (coption_codec 32) (delegate b) ++ le_split 1 (acc_state b) ++
  c_write (coption_codec 8) (is_native_opt b) ++ le_split 8 (delegated_amount b) ++
  c_write (coption_codec 32) (close_authority b).
Proof. reflexivity. Qed.

(** Repacking a token account changes the reserve only. *)
Lemma Account_repack d a b r : length d = Account_LEN → Account_unpack_from_slice d = Ok a →
  b = c_read PodAccount_codec d →
  Account_pack_into_slice
    (mkAcc (a_mint a) (a_owner a) (a_amount a) (a_delegate a) (a_state a) (Some r)
       (a_delegated_amount a) (a_close_authority a)) d =
  c_write PodAccount_codec (set_is_native (co_some r) b).
Proof.
  intros Hl Ha ->. pose proof (Account_view d a Hl Ha) as [Hv Hs].
  unfold Account_unpack_from_slice in Ha. rewrite array_ref_full, Ok_bind in Ha by done.
  apply bind_Ok in Ha as (de & Hd & (s & _ & (n & _ & (c & Hc & _)%bind_Ok)%bind_Ok)%bind_Ok).
  apply unpack_coption_key_strict in Hd, Hc. rewrite <-Hv.
  rewrite PodAccount_read in Hs |- * by done. unfold Account_pack_into_slice, PodAccount_view.
  cbn [a_mint a_owner a_amount a_delegate a_state a_is_native a_delegated_amount
    a_close_authority acc_mint acc_owner amount delegate is_native_opt delegated_amount
    close_authority acc_state] in *. rewrite <-Hs.
  assert (∀ i j, i + 36 = j → j ≤ 165 →
    c_write (coption_codec 32) (c_read (coption_codec 32) (slice i j d)) = slice i j d) as Hw.
  { intros i j Hij Hj. apply c_write_read. unfold Account_LEN in Hl.
    rewrite length_slice by lia. change (c_size _) with 36. lia. }
  pose proof (pack_coption_key_write _ Hd) as H1. pose proof (pack_coption_key_write _ Hc) as H2.
  rewrite Hw in H1, H2 by lia. rewrite H1, H2, PodAccount_write. unfold set_is_native.
  cbn [acc_mint acc_owner amount delegate is_native_opt delegated_amount close_authority acc_state].
  rewrite (Hw 72 108), (Hw 129 165) by lia. reflexivity.
Qed.
End account.

(** ** The packed and the in-place view of a mint *)
Lemma unpack_packed_mint `{rt : Runtime} input m : unpack_packed Mint input = Ok m →
  ∃ st, unpack_mint input = Ok st ∧ tlv_data st = packed_tlv m ∧
    PodMint_view (base st) = packed_base m.
Proof.
  unfold unpack_packed, unpack. intros (u & Hc & (a & Ha & (tlv & Ht & [= <-])%bind_Ok)%bind_Ok)%bind_Ok.
  change (SIZE_OF PodMint) with (SIZE_OF Mint). rewrite Hc, Ok_bind.
  unfold Pack_unpack in Ha.
  destruct (Nat.eqb_spec (length (take (SIZE_OF Mint) input)) (PACK_LEN Mint)) as [Hl|]; [|done].
  cbn [negb] in Ha. apply bind_Ok in Ha as (x & Ha & Hi).
  destruct (pack_is_initialized x) eqn:E; [|done]. injection Hi as ->.
  pose proof (Mint_view _ _ Hl Ha) as Hv.
  assert (pod_from_bytes base_codec (take (SIZE_OF Mint) input) =
    Ok (c_read PodMint_codec (take (SIZE_OF Mint) input))) as -> by by apply pod_from_bytes_Ok.
  rewrite Ok_bind. cbn [base_is_initialized PodMint_PodState].
  assert (PodMint_is_initialized (c_read PodMint_codec (take (SIZE_OF Mint) input)) = true) as ->
    by (rewrite <-E, <-Hv; done).
  cbn [negb]. change (unpack_tlv_data Mint) with (unpack_tlv_data PodMint) in Ht.
  unfold unpack_tlv_data in Ht. unfold unpack_type_and_tlv_data_mut,
    unpack_type_and_tlv_data_with_check_mut.
  revert Ht. destruct (type_and_tlv_indices _ _) as [[[i j]|]| |]; rewrite ?Ok_bind; intros Ht;
    [| |done..].
  - apply bind_Ok in Ht as (ty & -> & (? & Hck & [= <-])%bind_Ok). rewrite Ok_bind, Hck.
    eexists. split; [reflexivity|]. by split_and!.
  - injection Ht as <-. eexists. split; [reflexivity|]. by split_and!.
Qed.

(** ** [generic_token_account.rs], [impl GenericTokenAccount for Account] *)
Definition ACCOUNTTYPE_ACCOUNT : Z := account_type_u8 AccountType.Account.
Definition SPL_TOKEN_ACCOUNT_MINT_OFFSET : nat := 0.
Definition SPL_TOKEN_ACCOUNT_OWNER_OFFSET : nat := 32.

Definition valid_account_data (account_data : list byte) : bool :=
  ((length account_data =? Account_LEN) && is_initialized_account_data account_data) ||
  ((Account_LEN <? length account_data) && negb (length account_data =? Multisig_LEN) &&
   (ACCOUNTTYPE_ACCOUNT =? byte.unsigned (default Byte.x00 (account_data !! Account_LEN)))%Z &&
   is_initialized_account_data account_data).
Definition unpack_pubkey_unchecked (account_data : list byte) (offset : nat) : Pubkey :=
  le_combine (slice offset (offset + 32) account_data).
Definition unpack_account_owner (account_data : list byte) : option Pubkey :=
  if valid_account_data account_data
  then Some (unpack_pubkey_unchecked account_data SPL_TOKEN_ACCOUNT_OWNER_OFFSET) else None.
Definition unpack_account_mint (account_data : list byte) : option Pubkey :=
  if valid_account_data account_data
  then Some (unpack_pubkey_unchecked account_data SPL_TOKEN_ACCOUNT_MINT_OFFSET) else None.

Lemma slice_take {A} a b n (l : list A) : b ≤ n → slice a b (take n l) = slice a b l.
Proof. intros Hb. unfold slice. rewrite skipn_firstn_comm, take_take. by rewrite Nat.min_l by lia. Qed.

Lemma le_combine_byte i (l : list byte) : i < length l →
  le_combine (slice i (i + 1) l) = byte.unsigned (default Byte.x00 (l !! i)).
Proof.
  intros [b Hb]%lookup_lt_is_Some. rewrite Hb. unfold slice.
  rewrite (drop_S _ b) by done. replace (i + 1 - i) with 1 by lia.
  cbn [take default]. unfold le_combine. cbn. by rewrite Z.lor_0_r.
Qed.

(** What the accessors read without decoding is what decoding reads. *)
Lemma unpack_account_fields `{rt : Runtime} d acc : unpack_packed Account d = Ok acc →
  unpack_account_owner d = Some (a_owner (packed_base acc)) ∧
  unpack_account_mint d = Some (a_mint (packed_base acc)).
Proof.
  intros H. destruct (unpack_packed_account d acc H) as (st & Hst & _ & Hv & Hs & Ha).
  unfold unpack_packed in H. apply bind_Ok in H as ([] & Hc%throw_if_Ok & (a & Hp & (tlv & Ht & [= <-])
    %bind_Ok)%bind_Ok). cbn [packed_base] in *.
  apply orb_false_iff in Hc as [Hm%Nat.eqb_neq Hlen%Nat.ltb_ge].
  change (SIZE_OF Account) with Account_LEN in *.
  apply Pack_unpack_account in Hp as (Hl & _ & Hi).
  destruct (Account_view _ _ Hl Ha) as [Hview Hstate]. rewrite PodAccount_read in Hview, Hstate by done.
  cbn [acc_state] in Hstate.
  assert (is_initialized_account_data d = true) as Hinit.
  { unfold is_initialized_account_data, ACCOUNT_INITIALIZED_INDEX. unfold Account_LEN in *.
    rewrite slice_take, (le_combine_byte 108) in Hstate by lia. rewrite Hstate.
    unfold Account_is_initialized in Hi. by destruct (a_state a). }
  assert (valid_account_data d = true) as Hvalid.
  { unfold valid_account_data. rewrite Hinit, !andb_true_r.
    destruct (Nat.eqb_spec (length d) Account_LEN) as [|Hne]; [done|]. cbn [orb].
    rewrite (proj2 (Nat.ltb_lt _ _)) by lia. rewrite (proj2 (Nat.eqb_neq _ _) Hm). cbn [andb negb].
    unfold unpack_tlv_data, type_and_tlv_indices in Ht. change (SIZE_OF Account) with Account_LEN in Ht.
    rewrite length_drop in Ht. destruct (Nat.eqb_spec (length d - Account_LEN) 0); [lia|].
    change (BASE_ACCOUNT_LENGTH - Account_LEN) with 0 in Ht.
    destruct (Nat.ltb_spec (length d - Account_LEN) (0 + 1)); [lia|].
    cbn [take replicate] in Ht. rewrite decide_True in Ht by done. rewrite Ok_bind in Ht.
    apply bind_Ok in Ht as (ty & Hty%ok_or_Ok & ([] & Hck & _)%bind_Ok).
    unfold check_account_type in Hck. destruct (decide _) as [->|]; [|done].
    apply account_type_try_from_Some in Hty. change (ACCOUNT_TYPE Account) with AccountType.Account in Hty.
    apply Z.eqb_eq.
    rewrite <-le_combine_byte by lia. unfold ACCOUNTTYPE_ACCOUNT. rewrite <-Hty.
    unfold slice. by rewrite drop_drop, Nat.add_0_r. }
  unfold unpack_account_owner, unpack_account_mint, unpack_pubkey_unchecked,
    SPL_TOKEN_ACCOUNT_OWNER_OFFSET, SPL_TOKEN_ACCOUNT_MINT_OFFSET. rewrite Hvalid, <-Hview.
  unfold PodAccount_view, Account_LEN in *. cbn [a_owner a_mint acc_owner acc_mint].
  by rewrite !slice_take by lia.
Qed.
