(* ===== verification/InitOps.v ===== *)
(** * Initialization handlers of [program/src/processor.rs]

    Mints, token accounts, multisigs and the extensions that are initialized
    before them. *)
From S2P Require Import Prelude Codec Errors Runtime Pod State ExtensionType ExtensionData Tlv.
From S2P Require Import TlvFacts TlvAlloc StateExt Fee Authority Transfer AccountFacts Supply.
From S2P Require Import AccountOps.

(** [native_mint] *)
Module native_mint.
Definition DECIMALS : Z := 9.
Definition id `{Runtime} : Pubkey := declare_id "9pan9bMn5HatX4EJdBwg9VgCa7Uz5HL8N1m5D3NdXejP".
End native_mint.

(** [is_valid_signer_index] *)
Definition is_valid_signer_index (index : nat) : bool :=
  (MIN_SIGNERS <=? index)%nat && (index <=? MAX_SIGNERS)%nat.

Section init.
Context `{rt : Runtime}.
Implicit Types (w : world) (accounts : list AccountInfo).

Definition get_extension_types (tlv : list byte) : res (list ExtensionType) :=
  info ← get_tlv_data_info tlv; Ok (extension_types info).

(** The rent, from the account of the sysvar or by the system call. *)
Definition get_rent (rent_sysvar_account : bool) accounts w : res (rent * list AccountInfo) :=
  if rent_sysvar_account then
    '(rent_info, accounts) ← next_account_info accounts;
    r ← rent_from_account_info rent_info w;
    Ok (r, accounts)
  else r ← rent_get; Ok (r, accounts).

(** A mint whose accounts start frozen needs a freeze authority. *)
Definition check_default_account_state (tlv : list byte) (freeze_authority : PodCOption) :
    res unit :=
  match get_mint_ext DefaultAccountState tlv with
  | Ok default_account_state =>
      state ← ok_or (account_state_try_from (das_state default_account_state)) InvalidAccountData;
      throw_if (bool_decide (state = Frozen) && co_is_none freeze_authority) (tok MintCannotFreeze)
  | _ => Ok tt
  end.

(** [Processor::_process_initialize_mint] *)
Definition _process_initialize_mint accounts (decimals : Z) (mint_authority : Pubkey)
    (freeze_authority : PodCOption) (rent_sysvar_account : bool) w : res world :=
  '(mint_info, accounts) ← next_account_info accounts;
  let mint_data_len := data_len w mint_info in
  mint_data ← borrow [] w mint_info;
  '(rent, accounts) ← get_rent rent_sysvar_account accounts w;
  throw_if (negb (is_exempt rent (info_lamports w mint_info) mint_data_len)) (tok NotRentExempt);;
  mint ← unpack_uninitialized PodMint mint_data;
  extension_types ← get_extension_types (tlv_data mint);
  account_len ← try_calculate_account_len Mint extension_types;
  throw_if (negb (account_len =? mint_data_len)%nat) InvalidAccountData;;
  map_err tok (check_for_invalid_mint_extension_combinations extension_types);;
  check_default_account_state (tlv_data mint) freeze_authority;;
  let base := mkPodMint (co_some mint_authority) (supply (base mint)) decimals (from_bool true)
                freeze_authority in
  mint ← init_account_type PodMint (with_base base mint);
  Ok (set_data w (key mint_info) (state_bytes PodMint mint)).

Definition process_initialize_mint accounts decimals mint_authority freeze_authority w :=
  _process_initialize_mint accounts decimals mint_authority freeze_authority true w.
Definition process_initialize_mint2 accounts decimals mint_authority freeze_authority w :=
  _process_initialize_mint accounts decimals mint_authority freeze_authority false w.

(** [get_required_account_extensions_from_unpacked_mint] *)
Definition get_required_account_extensions_from_unpacked_mint (token_program_id : Pubkey)
    (state : PodStateRef PodMint) : res (list ExtensionType) :=
  check_program_account token_program_id;;
  mint_extensions ← get_extension_types (ref_tlv state);
  Ok (get_required_init_account_extensions mint_extensions).

(** [get_required_account_extensions] *)
Definition get_required_account_extensions (held : list Pubkey) w (mint_info : AccountInfo) :
    res (list ExtensionType) :=
  mint_data ← borrow held w mint_info;
  state ← map_err (λ _, tok InvalidMint) (unpack_ref PodMint mint_data);
  get_required_account_extensions_from_unpacked_mint (info_owner w mint_info) state.

(** The loop over the required extensions. *)
Fixpoint init_required_extensions (l : list ExtensionType) (tlv : list byte) : res (list byte) :=
  match l with
  | [] => Ok tlv
  | t :: l =>
      tlv ← init_account_extension_from_type PodAccount t tlv;
      init_required_extensions l tlv
  end.

(** The base state of a new account. *)
Definition new_account_base (mint owner : Pubkey) (starting_state : AccountState)
    (is_native : PodCOption) (amount : Z) : PodAccount :=
  mkPodAccount mint owner amount co_none (account_state_u8 starting_state) is_native 0 co_none.

(** [Processor::_process_initialize_account] *)
Definition _process_initialize_account accounts (owner : option Pubkey)
    (rent_sysvar_account : bool) w : res world :=
  '(new_account_info, accounts) ← next_account_info accounts;
  '(mint_info, accounts) ← next_account_info accounts;
  '(owner, accounts) ←
    match owner with
    | Some owner => Ok (owner, accounts)
    | None =>
        '(owner_info, accounts) ← next_account_info accounts;
        Ok (key owner_info, accounts)
    end;
  let new_account_info_data_len := data_len w new_account_info in
  '(rent, accounts) ← get_rent rent_sysvar_account accounts w;
  account_data ← borrow [] w new_account_info;
  account ← unpack_uninitialized PodAccount account_data;
  throw_if (negb (is_exempt rent (info_lamports w new_account_info) new_account_info_data_len))
    (tok NotRentExempt);;
  mint_data ← borrow [key new_account_info] w mint_info;
  mint ← map_err (λ _, tok InvalidMint) (unpack_ref PodMint mint_data);
  required_extensions ←
    get_required_account_extensions_from_unpacked_mint (info_owner w mint_info) mint;
  account_len ← try_calculate_account_len Account required_extensions;
  throw_if (new_account_info_data_len <? account_len)%nat InvalidAccountData;;
  tlv ← init_required_extensions required_extensions (tlv_data account);
  starting_state ←
    match get_mint_ext DefaultAccountState (ref_tlv mint) with
    | Ok default_account_state =>
        ok_or (account_state_try_from (das_state default_account_state)) InvalidAccountData
    | _ => Ok Initialized
    end;
  '(is_native, amount) ←
    (if key mint_info =? native_mint.id then
       let rent_exempt_reserve := minimum_balance rent new_account_info_data_len in
       amount ← ok_or (checked_sub 64 (info_lamports w new_account_info) rent_exempt_reserve)
                  (tok Overflow);
       Ok (co_some rent_exempt_reserve, amount)
     else Ok (co_none, 0));
  let base := new_account_base (key mint_info) owner starting_state is_native amount in
  account ← init_account_type PodAccount (with_tlv tlv (with_base base account));
  Ok (set_data w (key new_account_info) (state_bytes PodAccount account)).

Definition process_initialize_account accounts w :=
  _process_initialize_account accounts None true w.
Definition process_initialize_account2 accounts (owner : Pubkey) w :=
  _process_initialize_account accounts (Some owner) true w.
Definition process_initialize_account3 accounts (owner : Pubkey) w :=
  _process_initialize_account accounts (Some owner) false w.

(** The loop that stores the signers: an index out of range panics. *)
Fixpoint store_signers (signer_infos : list AccountInfo) (i : nat) (signers : list Pubkey) :
    res (list Pubkey) :=
  match signer_infos with
  | [] => Ok signers
  | s :: signer_infos =>
      if (length signers <=? i)%nat then Panic
      else store_signers signer_infos (S i) (<[i := key s]> signers)
  end.

(** [Processor::_process_initialize_multisig] *)
Definition _process_initialize_multisig accounts (m : Z) (rent_sysvar_account : bool) w :
    res world :=
  '(multisig_info, accounts) ← next_account_info accounts;
  let multisig_info_data_len := data_len w multisig_info in
  '(rent, accounts) ← get_rent rent_sysvar_account accounts w;
  multisig_data ← borrow [] w multisig_info;
  multisig ← pod_multisig_from_bytes multisig_data;
  throw_if (PodMultisig_is_initialized multisig) (tok AlreadyInUse);;
  throw_if (negb (is_exempt rent (info_lamports w multisig_info) multisig_info_data_len))
    (tok NotRentExempt);;
  let signer_infos := accounts in
  let n := Z.of_nat (length signer_infos) mod 2 ^ 8 in
  throw_if (negb (is_valid_signer_index (Z.to_nat n))) (tok InvalidNumberOfProvidedSigners);;
  throw_if (negb (is_valid_signer_index (Z.to_nat m))) (tok InvalidNumberOfRequiredSigners);;
  signers ← store_signers signer_infos 0 (ms_signers multisig);
  Ok (set_data w (key multisig_info)
        (PodMultisig_write (mkPodMultisig m n (from_bool true) signers))).

Definition process_initialize_multisig accounts (m : Z) w :=
  _process_initialize_multisig accounts m true w.
Definition process_initialize_multisig2 accounts (m : Z) w :=
  _process_initialize_multisig accounts m false w.

(** [Processor::process_initialize_mint_close_authority] *)
Definition process_initialize_mint_close_authority accounts (close_authority : PodCOption) w :
    res world :=
  '(mint_info, accounts) ← next_account_info accounts;
  mint_data ← borrow [] w mint_info;
  mint ← unpack_uninitialized PodMint mint_data;
  tlv ← init_extension PodMint MintCloseAuthority true (tlv_data mint);
  close_authority ← optional_try_from close_authority;
  let tlv := put_extension PodMint (mkMintCloseAuthority close_authority) tlv in
  Ok (set_data w (key mint_info) (state_bytes PodMint (with_tlv tlv mint))).

(** [Processor::process_get_account_data_size] *)
Definition process_get_account_data_size accounts (new_extension_types : list ExtensionType) w :
    res world :=
  throw_if (existsb (λ t, negb (bool_decide (get_account_type t = AccountType.Account)))
              new_extension_types) (tok ExtensionTypeMismatch);;
  '(mint_info, accounts) ← next_account_info accounts;
  account_extensions ← get_required_account_extensions [] w mint_info;
  account_len ← try_calculate_account_len Account (account_extensions ++ new_extension_types);
  Ok (mkWorld (accts w) (le_split 8 (Z.of_nat account_len))).

(** [Processor::process_initialize_immutable_owner] *)
Definition process_initialize_immutable_owner accounts w : res world :=
  '(token_account_info, accounts) ← next_account_info accounts;
  token_account_data ← borrow [] w token_account_info;
  token_account ← unpack_uninitialized PodAccount token_account_data;
  tlv ← init_extension PodAccount ImmutableOwner true (tlv_data token_account);
  Ok (set_data w (key token_account_info)
        (state_bytes PodAccount (with_tlv tlv token_account))).

(** [Processor::process_initialize_non_transferable_mint] *)
Definition process_initialize_non_transferable_mint accounts w : res world :=
  '(mint_info, accounts) ← next_account_info accounts;
  mint_data ← borrow [] w mint_info;
  mint ← unpack_uninitialized PodMint mint_data;
  tlv ← init_extension PodMint NonTransferable true (tlv_data mint);
  Ok (set_data w (key mint_info) (state_bytes PodMint (with_tlv tlv mint))).

(** [Processor::process_initialize_permanent_delegate]; a zero delegate is
    refused by the conversion to an optional key. *)
Definition process_initialize_permanent_delegate accounts (delegate : Pubkey) w : res world :=
  '(mint_info, accounts) ← next_account_info accounts;
  mint_data ← borrow [] w mint_info;
  mint ← unpack_uninitialized PodMint mint_data;
  tlv ← init_extension PodMint PermanentDelegate true (tlv_data mint);
  throw_if (delegate =? Pubkey_default) optional_key_error;;
  let tlv := put_extension PodMint (mkPermanentDelegate delegate) tlv in
  Ok (set_data w (key mint_info) (state_bytes PodMint (with_tlv tlv mint))).
End init.
