(* ===== verification/InitFacts.v ===== *)
(** * What the initialization handlers do *)
From S2P Require Import Prelude Codec Errors Runtime Pod State ExtensionType ExtensionData Tlv.
From S2P Require Import TlvFacts TlvAlloc StateExt Fee Authority Transfer AccountFacts.
From S2P Require Import TransferFacts Supply AccountOps AccountOpsFacts StateFacts InitOps.

(** ** Views of uninitialized buffers *)
Section uninitialized.
Context `{rt : Runtime}.
Context (S : Type) `{HB : BaseState S} `{HP : !PodState S}.
Implicit Types (input : list byte) (st : PodStateMut S).

(** The views [unpack_uninitialized] returns, and those made from them. *)
Record fresh_ok st : Prop := {
  fresh_base_ok : c_ok base_codec (base st);
  fresh_type : (account_type st = [] ∧ tlv_data st = []) ∨ length (account_type st) = 1%nat;
  fresh_not_multisig : length (state_bytes S st) ≠ Multisig_LEN;
}.

Lemma unpack_uninitialized_Ok input st : unpack_uninitialized S input = Ok st →
  input = state_bytes S st ∧ fresh_ok st ∧ base_is_initialized (base st) = false.
Proof.
  unfold unpack_uninitialized. intros (u & Hc & H)%bind_Ok.
  apply throw_if_Ok, orb_false_iff in Hc as [Hm Hl].
  apply Nat.eqb_neq in Hm. apply Nat.ltb_ge in Hl.
  apply bind_Ok in H as (b & Hb & H). apply pod_from_bytes_Ok in Hb as [Hlb Hb].
  destruct (base_is_initialized b) eqn:Hi; [done|].
  apply bind_Ok in H as ([t l] & Hr & (_ & _ & [= <-])%bind_Ok).
  assert (Hin : c_write base_codec b = take (SIZE_OF S) input).
  { rewrite Hb. by apply c_write_read. }
  assert (Hbok : c_ok base_codec b) by (rewrite Hb; by apply c_read_ok).
  cbn [base]. unfold unpack_uninitialized_type_and_tlv_data_mut,
    unpack_type_and_tlv_data_with_check_mut in Hr.
  apply bind_Ok in Hr as ([[i j]|] & Ho & Hr).
  - apply type_and_tlv_indices_Some in Ho as (-> & -> & Hle & Hz).
    apply bind_Ok in Hr as (at' & _ & (? & _ & [= <- <-])%bind_Ok).
    set (a := (BASE_ACCOUNT_LENGTH - SIZE_OF S)%nat) in *.
    set (rest := drop (SIZE_OF S) input) in *.
    assert (Hs : length (slice a (a + 1) rest) = 1%nat) by (rewrite length_slice; lia).
    assert (input = state_bytes S (mkState b (slice a (a + 1) rest) (drop (a + 1) rest)))
      as Hinput.
    { unfold state_bytes; cbn [base account_type tlv_data]. rewrite Hin.
      rewrite <-(take_drop (SIZE_OF S) input) at 1. f_equal. fold rest. fold a.
      destruct (slice a (a + 1) rest) as [|b0 bs0] eqn:E; [done|]. rewrite <-E.
      by apply rest_split. }
    split; [done|]. split; [|done]. constructor; cbn [base account_type tlv_data]; auto.
    by rewrite <-Hinput.
  - injection Hr as <- <-. apply type_and_tlv_indices_None in Ho.
    assert (input = state_bytes S (mkState b [] [])) as Hinput.
    { unfold state_bytes; simpl. rewrite app_nil_r, Hin.
      rewrite <-(take_drop (SIZE_OF S) input) at 1. by rewrite Ho, app_nil_r. }
    split; [done|]. split; [|done]. constructor; cbn [base account_type tlv_data]; auto.
    by rewrite <-Hinput.
Qed.

(** A buffer that unpacks is initialized, so it cannot be initialized again. *)
Lemma unpack_uninitialized_unpack input st : unpack S input = Ok st →
  unpack_uninitialized S input = Err (tok AlreadyInUse).
Proof.
  unfold unpack, unpack_uninitialized. intros (u & Hc & H)%bind_Ok.
  rewrite Hc, Ok_bind. apply bind_Ok in H as (b & Hb & H). rewrite Hb, Ok_bind.
  by destruct (base_is_initialized b).
Qed.

Lemma fresh_not_initialized input st st' : unpack S input = Ok st' →
  input = state_bytes S st → c_ok base_codec (base st) → base_is_initialized (base st) = false →
  False.
Proof.
  intros [-> Hx]%unpack_Ok E Hb Hun. unfold state_bytes in E.
  apply app_inj_1 in E as [E _]; [|by rewrite !c_write_length].
  assert (base st = base st') as Hbm.
  { rewrite <-(c_read_write base_codec (base st)), <-E by done. apply c_read_write, Hx. }
  rewrite Hbm in Hun. by rewrite (state_initialized _ _ Hx) in Hun.
Qed.

(** Writing the account type of a fresh view with an initialized base. *)
Lemma init_account_type_Ok st st' : fresh_ok st → base_is_initialized (base st) = true →
  init_account_type S st = Ok st' →
  state_ok S st' ∧ base st' = base st ∧ tlv_data st' = tlv_data st ∧
  length (state_bytes S st') = length (state_bytes S st).
Proof.
  intros [Hb Ht Hm] Hi (o & _ & H)%bind_Ok.
  assert (Hlen : ∀ t, length (account_type st) = 1%nat → length t = 1%nat →
    length (state_bytes S (mkState (base st) t (tlv_data st))) = length (state_bytes S st)).
  { intros t H1 H2. rewrite !length_state_bytes. cbn [account_type tlv_data].
    destruct (account_type st) as [|x y], t as [|x' y']; try discriminate. cbn in *. lia. }
  destruct (account_type st) as [|x y] eqn:E.
  - injection H as <-. split; [|done]. constructor; try done. left.
    destruct Ht as [[_ Ht]|Ht]; [done|discriminate Ht].
  - apply bind_Ok in H as (_ & _ & [= <-]). cbn [base tlv_data].
    destruct Ht as [[Ht _]|Ht]; [discriminate Ht|].
    assert (y = []) as -> by (destruct y; [done|discriminate Ht]). 
    change [byte.of_Z (account_type_u8 (ACCOUNT_TYPE S))] with (type_byte S). rewrite Hlen by done. split; [|done].
    constructor; cbn [base account_type tlv_data]; try done; [by right|by rewrite Hlen].
Qed.

Lemma fresh_ok_with st b l : fresh_ok st → c_ok base_codec b →
  length l = length (tlv_data st) → fresh_ok (with_tlv l (with_base b st)).
Proof.
  intros [Hb Ht Hm] Hb' Hl. constructor; cbn [base account_type tlv_data with_tlv with_base]; [done| |].
  - destruct Ht as [[H1 H2]|]; [left|by right]. split; [done|].
    apply nil_length_inv. by rewrite Hl, H2.
  - rewrite length_state_bytes in *. cbn in *. by rewrite Hl.
Qed.

(** Initializing an extension keeps the size of the area. *)
Lemma alloc_length V len overwrite tlv r : alloc S V len overwrite tlv = Ok r →
  length r.1 = length tlv ∧ r.2.2 = (r.2.1 + len)%nat ∧ (r.2.2 ≤ length tlv)%nat.
Proof.
  unfold alloc. case_decide as HV; [|done]. intros (i & Hi & H)%bind_Ok.
  destruct (search_Ok _ _ _ _ _ Hi) as (_ & Hti & Hl). rewrite Hti in H.
  cbn [get_tlv_indices type_start length_start value_start] in *.
  destruct (Nat.ltb_spec (length (drop (type_start i) tlv)) (add_type_and_length_to_len len))
    as [|Hroom]; [done|].
  unfold add_type_and_length_to_len in Hroom. rewrite length_drop in Hroom.
  apply bind_Ok in H as (t & _ & H). case_match; [|done].
  apply bind_Ok in H as (n & _ & (_ & _ & (l & _ & [= <-])%bind_Ok)%bind_Ok). cbn [fst snd].
  rewrite !length_splice by (rewrite ?length_splice; rewrite ?length_ext_bytes, ?length_le_split; lia).
  split; [done|]. split; [done|]. lia.
Qed.

Lemma init_extension_length V `{!Extension V} overwrite tlv tlv' :
  init_extension S V overwrite tlv = Ok tlv' → length tlv' = length tlv.
Proof.
  intros ([l [a b]] & Ha & (v & _ & [= <-])%bind_Ok)%bind_Ok.
  apply alloc_length in Ha as (H1 & H2 & H3). cbn [fst snd] in *.
  rewrite length_splice; [done|]. rewrite c_write_length. unfold ext_size in H2. lia.
Qed.
End uninitialized.

(** ** The handlers *)
Section facts.
Context `{rt : Runtime}.

Lemma init_account_extension_length t tlv tlv' :
  init_account_extension_from_type PodAccount t tlv = Ok tlv' → length tlv' = length tlv.
Proof.
  unfold init_account_extension_from_type. case_match; [by intros [= <-]|].
  destruct t; try done; try (by intros [= <-]); apply init_extension_length.
Qed.

Lemma init_required_extensions_length l tlv tlv' :
  init_required_extensions l tlv = Ok tlv' → length tlv' = length tlv.
Proof.
  revert tlv. induction l as [|t l IH]; intros tlv; cbn; [by intros [= ->]|].
  intros (tlv1 & H1%init_account_extension_length & H2%IH)%bind_Ok. congruence.
Qed.

Lemma store_signers_Ok infos i signers r : store_signers infos i signers = Ok r →
  (i + length infos ≤ length signers ∨ infos = [])%nat ∧
  r = take i signers ++ (key <$> infos) ++ drop (i + length infos) signers.
Proof.
  revert i signers. induction infos as [|s infos IH]; intros i signers; cbn [store_signers].
  - intros [= <-]. split; [by right|]. cbn. by rewrite Nat.add_0_r, take_drop.
  - destruct (Nat.leb_spec (length signers) i); [done|]. intros [Hl ->]%IH.
    rewrite length_insert in Hl. cbn [length]. split; [left; destruct Hl as [? | ->]; cbn; lia|].
    rewrite (take_S_r _ _ (key s)) by (apply list_lookup_insert_eq; lia).
    rewrite take_insert_ge, drop_insert_lt by lia.
    rewrite fmap_cons, <-app_assoc. cbn. do 4 f_equal. lia.
Qed.

Lemma multisig_write_read ms :
  in_uint 8 (ms_m ms) → in_uint 8 (ms_n ms) → in_uint 8 (ms_is_initialized ms) →
  length (ms_signers ms) = MAX_SIGNERS → Forall (in_uint 256) (ms_signers ms) →
  length (PodMultisig_write ms) = PodMultisig_SIZE_OF ∧ PodMultisig_read (PodMultisig_write ms) = ms.
Proof.
  intros Hm Hn Hi Hl Hs. split.
  - unfold PodMultisig_write, PodMultisig_SIZE_OF.
    rewrite !length_app, !length_le_split.
    assert (length (mjoin (le_split 32 <$> ms_signers ms)) = MAX_SIGNERS * 32)%nat as ->; [|lia].
    rewrite <-Hl. clear. induction (ms_signers ms) as [|k l IH]; [done|].
    change (length (le_split 32 k ++ mjoin (le_split 32 <$> l)) = (32 + length l * 32)%nat).
    by rewrite length_app, length_le_split, IH.
  - assert (∀ z, in_uint 8 z → le_combine (le_split 1 z) = z) as H1.
    { intros z Hz. rewrite le_combine_split. by apply Z.mod_small. }
    destruct ms as [m n i signers]. unfold PodMultisig_read, PodMultisig_write.
    cbn [ms_m ms_n ms_is_initialized ms_signers] in *.
    rewrite <-Hl. f_equal; [by apply H1..|]. by apply (array_read_write pubkey).
Qed.
End facts.

(** ** What a run did *)
Section runs.
Context `{rt : Runtime}.
Implicit Types (w : world).

Lemma initialize_mint_Ok mi rest d auth o b w w' :
  in_uint 8 d → in_uint 256 auth → c_ok (coption_codec 32) o →
  _process_initialize_mint (mi :: rest) d auth o b w = Ok w' →
  ∃ m m' r rest' l, get_rent b rest w = Ok (r, rest') ∧
    unpack_uninitialized PodMint (info_data w mi) = Ok m ∧
    is_exempt r (info_lamports w mi) (data_len w mi) = true ∧
    get_extension_types (tlv_data m) = Ok l ∧
    try_calculate_account_len Mint l = Ok (data_len w mi) ∧
    check_for_invalid_mint_extension_combinations l = Ok tt ∧
    check_default_account_state (tlv_data m) o = Ok tt ∧
    state_ok PodMint m' ∧ tlv_data m' = tlv_data m ∧
    base m' = mkPodMint (co_some auth) (supply (base m)) d (from_bool true) o ∧
    length (state_bytes PodMint m') = data_len w mi ∧
    w' = set_data w (key mi) (state_bytes PodMint m').
Proof.
  intros Hd Hauth Ho H. unfold _process_initialize_mint in H.
  cbn [next_account_info] in H. rewrite Ok_bind in H.
  apply bind_Ok in H as (md & [_ ->]%borrow_Ok & ([r rest'] & Hr & H)%bind_Ok).
  apply bind_Ok in H as ([] & Hex%throw_if_Ok%negb_false_iff & (m & Hm & (l & Hl & (n & Hn &
    ([] & Hlen & ([] & Hc%map_err_Ok & ([] & Hdas & (m' & Hi & [= <-])
    %bind_Ok)%bind_Ok)%bind_Ok)%bind_Ok)%bind_Ok)%bind_Ok)%bind_Ok).
  apply throw_if_Ok, negb_false_iff, Nat.eqb_eq in Hlen as ->.
  pose proof Hm as (Hdata & Hfresh & Hun)%unpack_uninitialized_Ok.
  set (x := mkPodMint _ _ _ _ _) in Hi.
  assert (Hb : c_ok base_codec x).
  { pose proof (fresh_base_ok _ _ Hfresh) as (_ & Hs & _).
    refine (conj _ (conj Hs (conj Hd (conj _ Ho)))); [by apply co_some_ok|done]. }
  assert (fresh_ok PodMint (with_base x m)) as Hf'.
  { by apply (fresh_ok_with PodMint m x (tlv_data m)). }
  apply (init_account_type_Ok PodMint) in Hi as (Hok & Hbase & Htlv & Hsl); [|done|done].
  exists m, m', r, rest', l. split_and!; try done.
  rewrite Hsl. unfold data_len. rewrite Hdata. by rewrite !length_state_bytes.
Qed.
(** The owner of the new account is the argument or the next account. *)
Definition owner_argument (o : option Pubkey) (rest rest' : list AccountInfo) (ow : Pubkey) : Prop :=
  match o with
  | Some k => ow = k ∧ rest' = rest
  | None => ∃ oi, rest = oi :: rest' ∧ ow = key oi
  end.

Lemma initialize_account_Ok ai mi rest o b w w' : (∀ r n, in_uint 64 (minimum_balance r n)) →
  _process_initialize_account (ai :: mi :: rest) o b w = Ok w' →
  ∃ ow rest' r rest'' a m l tlv st nat amt a',
    owner_argument o rest rest' ow ∧ get_rent b rest' w = Ok (r, rest'') ∧
    unpack_uninitialized PodAccount (info_data w ai) = Ok a ∧
    is_exempt r (info_lamports w ai) (data_len w ai) = true ∧
    mint_at w (key mi) = Some m ∧ info_owner w mi = id ∧
    init_required_extensions l (tlv_data a) = Ok tlv ∧
    account_state_u8 st =
      (match get_mint_ext DefaultAccountState (tlv_data m) with
       | Ok e => das_state e
       | _ => account_state_u8 Initialized
       end) ∧
    (c_ok (coption_codec 8) nat ∧ in_uint 64 amt ∧
     if key mi =? native_mint.id then nat = co_some (minimum_balance r (data_len w ai)) ∧
       amt = info_lamports w ai - minimum_balance r (data_len w ai)
     else nat = co_none ∧ amt = 0) ∧
    init_account_type PodAccount
      (with_tlv tlv (with_base (new_account_base (key mi) ow st nat amt) a)) = Ok a' ∧
    w' = set_data w (key ai) (state_bytes PodAccount a').
Proof.
  intros Hrent H. unfold _process_initialize_account in H.
  do 2 (cbn [next_account_info] in H; rewrite Ok_bind in H).
  apply bind_Ok in H as ([ow rest'] & Hrest & ([r rest''] & Hr & H)%bind_Ok).
  apply bind_Ok in H as (ad & [_ ->]%borrow_Ok & (a & Ha & ([] & Hex%throw_if_Ok%negb_false_iff &
    (md & [Hne ->]%borrow_Ok & (m & Hm%map_err_Ok & (l & Hl & (n & _ & ([] & _ & (tlv & Htlv & H)
    %bind_Ok)%bind_Ok)%bind_Ok)%bind_Ok)%bind_Ok)%bind_Ok)%bind_Ok)%bind_Ok).
  apply bind_Ok in H as (st & Hst & ([nat amt] & Hnat & (a' & Hi & [= <-])%bind_Ok)%bind_Ok).
  apply unpack_ref_mint in Hm as (m0 & Hm & ->). cbn [ref_tlv] in *.
  apply bind_Ok in Hl as ([] & Hown%throw_if_Ok%negb_false_iff%Z.eqb_eq & _).
  exists ow, rest', r, rest'', a, m0, l, tlv, st, nat, amt, a'. split_and!; try done.
  - destruct o as [k|]; [by injection Hrest as -> ->|]. destruct rest as [|oi rest]; [done|].
    cbn [next_account_info] in Hrest. rewrite Ok_bind in Hrest. injection Hrest as <- <-.
    by exists oi.
  - destruct (get_mint_ext DefaultAccountState (tlv_data m0)) as [e| |] eqn:He;
      [|by injection Hst as <-..].
    by apply ok_or_Ok, account_state_try_from_Some in Hst.
  - destruct (key mi =? native_mint.id).
    + apply bind_Ok in Hnat as (x & Hx%ok_or_Ok & [= <- <-]). apply co_some_ok, Hrent.
    + injection Hnat as <- <-. apply co_none_ok.
  - destruct (key mi =? native_mint.id).
    + apply bind_Ok in Hnat as (x & Hx%ok_or_Ok & [= <- <-]).
      by apply checked_sub_Some in Hx as [-> Hx].
    + by injection Hnat as <- <-.
  - destruct (key mi =? native_mint.id).
    + apply bind_Ok in Hnat as (x & Hx%ok_or_Ok & [= <- <-]).
      by apply checked_sub_Some in Hx as [-> Hx].
    + by injection Hnat as <- <-.
Qed.
End runs.

(** ** Properties *)
Section properties.
Context (rt : Runtime).
Implicit Types (w : world).

(** Which extensions a mint can combine: the confidential fee goes with exactly
    the transfer fee and confidential transfers together, confidential minting and
    burning needs confidential transfers, and the two UI amount extensions
    exclude each other.  The order and repetition of the list do not matter. *)
Theorem invalid_combinations_spec (l : list ExtensionType) :
  check_for_invalid_mint_extension_combinations l = Ok tt ↔
  (ExtensionType.ConfidentialTransferFeeConfig ∈ l ↔
     ExtensionType.TransferFeeConfig ∈ l ∧ ExtensionType.ConfidentialTransferMint ∈ l) ∧
  (ExtensionType.ConfidentialMintBurn ∈ l → ExtensionType.ConfidentialTransferMint ∈ l) ∧
  ¬ (ExtensionType.ScaledUiAmount ∈ l ∧ ExtensionType.InterestBearingConfig ∈ l).
Proof.
  unfold check_for_invalid_mint_extension_combinations. rewrite fold_set_flag.
  cbn [orb transfer_fee_config confidential_transfer_mint confidential_transfer_fee_config
       confidential_mint_burn interest_bearing scaled_ui_amount].
  repeat case_bool_decide; cbn; naive_solver.
Qed.

(** C32: a mint is initialized once, with the authorities and decimals asked for, in an
    account that is rent exempt, has exactly the length of its extensions and a
    valid combination of them; a mint whose accounts start frozen has a freeze
    authority. *)
Theorem process_initialize_mint_effect mi rest d auth o b w w' :
  in_uint 8 d → in_uint 256 auth → c_ok (coption_codec 32) o →
  _process_initialize_mint (mi :: rest) d auth o b w = Ok w' →
  ∃ m r rest' l, mint_at w (key mi) = None ∧ mint_at w' (key mi) = Some m ∧
    mint_authority (base m) = co_some auth ∧ decimals (base m) = d ∧
    freeze_authority (base m) = o ∧
    get_rent b rest w = Ok (r, rest') ∧
    is_exempt r (info_lamports w mi) (data_len w mi) = true ∧
    get_extension_types (tlv_data m) = Ok l ∧
    try_calculate_account_len Mint l = Ok (data_len w mi) ∧
    check_for_invalid_mint_extension_combinations l = Ok tt ∧
    (∀ e, get_mint_ext DefaultAccountState (tlv_data m) = Ok e →
       das_state e = account_state_u8 Frozen → co_is_none o = false) ∧
    data_len w' mi = data_len w mi ∧
    ∀ k, k ≠ key mi → get_account w' k = get_account w k.
Proof.
  intros Hd Hauth Ho H.
  destruct (initialize_mint_Ok _ _ _ _ _ _ _ _ Hd Hauth Ho H)
    as (m & m' & r & rest' & l & Hr & Hm & Hex & Hl & Hn & Hc & Hdas & Hok & Htlv & Hbase & Hsl & ->).
  exists m', r, rest', l. rewrite Hbase, Htlv. split_and!; try done.
  - unfold mint_at. destruct (unpack_mint _) as [x| |] eqn:E; [|done..].
    apply unpack_uninitialized_unpack in E. unfold info_data in Hm. by rewrite E in Hm.
  - by apply (mint_at_write w mi).
  - intros e He Hfr. unfold check_default_account_state in Hdas.
    rewrite He, Hfr in Hdas. cbn in Hdas. by apply throw_if_Ok in Hdas.
  - unfold data_len at 1. unfold info_data. by rewrite data_set_data, decide_True.
  - intros k Hk. by rewrite get_set_data, decide_False.
Qed.

(** A new token account belongs to an initialized mint of the program, holds
    nothing (or, for the native mint, the lamports above its rent reserve), has no
    delegate and no close authority, starts in the state the mint asks for, and is
    the only account that changes. *)
Theorem process_initialize_account_effect ai mi rest o w w' :
  in_uint 256 o → in_uint 256 (key mi) → (∀ r n, in_uint 64 (minimum_balance r n)) →
  (∀ m e, mint_at w (key mi) = Some m → get_mint_ext DefaultAccountState (tlv_data m) = Ok e →
     das_state e ≠ account_state_u8 Uninitialized) →
  process_initialize_account3 (ai :: mi :: rest) o w = Ok w' →
  ∃ a m r, account_at w (key ai) = None ∧ mint_at w (key mi) = Some m ∧
    info_owner w mi = id ∧ rent_get = Ok r ∧
    is_exempt r (info_lamports w ai) (data_len w ai) = true ∧
    account_at w' (key ai) = Some a ∧
    acc_mint (base a) = key mi ∧ acc_owner (base a) = o ∧
    delegate (base a) = co_none ∧ delegated_amount (base a) = 0 ∧
    close_authority (base a) = co_none ∧
    (if key mi =? native_mint.id then
       is_native_opt (base a) = co_some (minimum_balance r (data_len w ai)) ∧
       amount (base a) = info_lamports w ai - minimum_balance r (data_len w ai)
     else is_native_opt (base a) = co_none ∧ amount (base a) = 0) ∧
    acc_state (base a) =
      (match get_mint_ext DefaultAccountState (tlv_data m) with
       | Ok e => das_state e
       | _ => account_state_u8 Initialized
       end) ∧
    ∀ k, k ≠ key ai → get_account w' k = get_account w k.
Proof.
  intros Ho Hmi Hrent Hdas H.
  apply initialize_account_Ok in H as (ow & rest' & r & rest'' & a & m & l & tlv & st & nat & amt &
    a' & [-> ->] & Hr & Ha & Hex & Hm & Hown & Htlv & Hst & (Hn1 & Hn2 & Hn3) & Hi & ->); [|done].
  apply bind_Ok in Hr as (r' & Hr & [= -> ->]).
  apply (unpack_uninitialized_Ok PodAccount) in Ha as (Hdata & Hfresh & Hun).
  apply init_required_extensions_length in Htlv.
  set (b := new_account_base _ _ _ _ _) in Hi.
  assert (st ≠ Uninitialized) as Hst1.
  { intros ->. destruct (get_mint_ext DefaultAccountState (tlv_data m)) as [e| |] eqn:He; [|done..].
    by apply (Hdas m e). }
  assert (Hb : c_ok base_codec b).
  { refine (proj2 (PodAccount_ok _) _). split_and!; try done; try apply co_none_ok.
    by destruct st. }
  assert (fresh_ok PodAccount (with_tlv tlv (with_base b a))) as Hf'
    by by apply fresh_ok_with.
  apply (init_account_type_Ok PodAccount) in Hi as (Hok & Hbase & _ & _); [|done|by destruct st].
  exists a', m, r. rewrite Hbase. split_and!; try done.
  - unfold account_at. unfold info_data in Hdata.
    destruct (unpack_account _) as [x| |] eqn:E; [|done..].
    destruct (fresh_not_initialized _ _ _ _ E Hdata); [apply Hfresh|done].
  - by apply (account_at_write w ai).
  - intros k Hk. by rewrite get_set_data, decide_False.
Qed.

(** a multisig is initialized once, with between 1 and 11 signers and a threshold
    between 1 and 11, and is read back as exactly those signers. *)
Theorem process_initialize_multisig_effect mi signers m w w' :
  Forall (λ s, in_uint 256 (key s)) signers →
  process_initialize_multisig2 (mi :: signers) m w = Ok w' →
  (length signers < 256)%nat →
  ∃ old ms, pod_multisig_from_bytes (info_data w mi) = Ok old ∧
    PodMultisig_is_initialized old = false ∧
    pod_multisig_from_bytes (info_data w' mi) = Ok ms ∧
    PodMultisig_is_initialized ms = true ∧
    ms_m ms = m ∧ 1 ≤ m ≤ 11 ∧
    ms_n ms = Z.of_nat (length signers) ∧ 1 ≤ ms_n ms ≤ 11 ∧
    take (Z.to_nat (ms_n ms)) (ms_signers ms) = key <$> signers ∧
    ∀ k, k ≠ key mi → get_account w' k = get_account w k.
Proof.
  intros Hkeys H Hlen. unfold process_initialize_multisig2, _process_initialize_multisig in H.
  cbn [next_account_info get_rent] in H. rewrite Ok_bind in H.
  apply bind_Ok in H as ([r rest'] & Hr & H). apply bind_Ok in Hr as (r' & _ & [= <- <-]).
  apply bind_Ok in H as (md & [_ ->]%borrow_Ok & (old & Hold & ([] & Hun%throw_if_Ok & ([] & _ &
    ([] & Hn%throw_if_Ok%negb_false_iff & ([] & Hm%throw_if_Ok%negb_false_iff & (l & Hl & [= <-])
    %bind_Ok)%bind_Ok)%bind_Ok)%bind_Ok)%bind_Ok)%bind_Ok).
  rewrite Z.mod_small in * by lia. rewrite Nat2Z.id in Hn.
  apply andb_true_iff in Hn as [Hn1%Nat.leb_le Hn2%Nat.leb_le].
  apply andb_true_iff in Hm as [Hm1%Nat.leb_le Hm2%Nat.leb_le].
  unfold MIN_SIGNERS, MAX_SIGNERS in *.
  pose proof (pod_multisig_from_bytes_Ok _ _ Hold) as Hlo.
  apply store_signers_Ok in Hl as [_ ->]. cbn [take Nat.add] in *.
  set (ms := mkPodMultisig _ _ _ _).
  assert (Forall (in_uint 256) (ms_signers old)) as Hso.
  { unfold pod_multisig_from_bytes in Hold. case_match eqn:E; [|done]. injection Hold as <-.
    apply (array_read_ok pubkey). apply Nat.eqb_eq in E. rewrite length_drop, E. done. }
  assert (length (PodMultisig_write ms) = PodMultisig_SIZE_OF ∧
          PodMultisig_read (PodMultisig_write ms) = ms) as [Hw1 Hw2].
  { apply multisig_write_read; cbn [ms ms_m ms_n ms_is_initialized ms_signers].
    - unfold in_uint. lia.
    - unfold in_uint. lia.
    - done.
    - change (length ((key <$> signers) ++ drop (length signers) (ms_signers old)) = 11%nat).
      rewrite length_app, length_fmap, length_drop, Hlo. unfold MAX_SIGNERS. lia.
    - change (Forall (in_uint 256) ((key <$> signers) ++ drop (length signers) (ms_signers old))).
      apply Forall_app. split; [by apply Forall_fmap|by apply Forall_drop]. }
  exists old, ms. unfold info_data, pod_multisig_from_bytes.
  rewrite data_set_data, decide_True, Hw1, Nat.eqb_refl, Hw2 by done.
  split_and!; try done; try (subst ms; cbn [ms_n]; lia).
  - change (take (Z.to_nat (Z.of_nat (length signers)))
      ((key <$> signers) ++ drop (length signers) (ms_signers old)) = key <$> signers).
    by rewrite Nat2Z.id, take_app_length' by (by rewrite length_fmap).
  - intros k Hk. by rewrite get_set_data, decide_False.
Qed.
End properties.
