(* ===== verification/SystemOps.v ===== *)
(** * Handlers that call the system program

    [process_create_native_mint] of [program/src/processor.rs] and
    [process_reallocate] of [program/src/extension/reallocate.rs]. *)
From S2P Require Import Prelude Codec Errors Runtime Pod State ExtensionType ExtensionData Tlv.
From S2P Require Import TlvFacts TlvAlloc StateExt Fee Authority Transfer AccountFacts InitOps.
From S2P Require Import PackedExt.

(** Lamports moved from one account to another, maybe the same one. *)
Definition move_lamports `{Runtime} (from to : Pubkey) (n : Z) (w : world) : world :=
  let w := set_lamports w from (lamports (get_account w from) - n) in
  set_lamports w to (lamports (get_account w to) + n).

(** The system program, called through [invoke] and [invoke_signed]: the last
    account is the one that stands for the program.  A call that succeeds has
    the documented effect; when one fails is the runtime's business. *)
Class SystemProgram `{Runtime} := {
  system_transfer : AccountInfo → AccountInfo → AccountInfo → Z → world → res world;
  system_allocate : AccountInfo → AccountInfo → nat → world → res world;
  system_assign : AccountInfo → AccountInfo → Pubkey → world → res world;
  system_transfer_Ok from to system n w w' :
    system_transfer from to system n w = Ok w' →
    n ≤ info_lamports w from ∧ w' = move_lamports (key from) (key to) n w;
  system_allocate_Ok i system n w w' :
    system_allocate i system n w = Ok w' →
    info_owner w i = system_program_id ∧ info_data w i = [] ∧
    w' = set_data w (key i) (zeros n);
  system_assign_Ok i system o w w' :
    system_assign i system o w = Ok w' →
    (info_owner w i = system_program_id ∨ info_owner w i = o) ∧ w' = set_owner w (key i) o;
}.

Section handlers.
Context `{rt : Runtime} `{sp : !SystemProgram}.
Implicit Types (w : world) (accounts : list AccountInfo).

(** [Processor::process_create_native_mint] *)
Definition process_create_native_mint accounts w : res world :=
  '(payer_info, accounts) ← next_account_info accounts;
  '(native_mint_info, accounts) ← next_account_info accounts;
  '(system_program_info, accounts) ← next_account_info accounts;
  throw_if (negb (key native_mint_info =? native_mint.id)) (tok InvalidMint);;
  rent ← rent_get;
  let new_minimum_balance := minimum_balance rent Mint_LEN in
  let lamports_diff := saturating_sub new_minimum_balance (info_lamports w native_mint_info) in
  w ← system_transfer payer_info native_mint_info system_program_info lamports_diff w;
  w ← system_allocate native_mint_info system_program_info Mint_LEN w;
  w ← system_assign native_mint_info system_program_info id w;
  mint_data ← borrow [] w native_mint_info;
  mint_data ← Pack_pack (mkMint None 0 native_mint.DECIMALS true None) mint_data;
  Ok (set_data w (key native_mint_info) mint_data).

(** The end of [process_reallocate] on a native account: its reserve follows the
    new length. *)
Definition sync_native_reserve (new_rent_exempt_reserve native_token_amount lamports : Z)
    (token_account_data : list byte) : res (list byte) :=
  token_account ← unpack_packed_mut Account token_account_data;
  minimum_lamports ←
    ok_or (checked_add 64 new_rent_exempt_reserve native_token_amount) (tok Overflow);
  throw_if (lamports <? minimum_lamports) (tok InvalidState);;
  let b := mut_base token_account in
  let b := mkAcc (a_mint b) (a_owner b) (a_amount b) (a_delegate b) (a_state b)
             (Some new_rent_exempt_reserve) (a_delegated_amount b) (a_close_authority b) in
  let token_account := pack_base Account (with_mut_base b token_account) in
  Ok (packed_bytes Account token_account token_account_data).

(** [process_reallocate] *)
Definition process_reallocate (program_id : Pubkey) accounts
    (new_extension_types : list ExtensionType) w : res world :=
  '(token_account_info, accounts) ← next_account_info accounts;
  '(payer_info, accounts) ← next_account_info accounts;
  '(system_program_info, accounts) ← next_account_info accounts;
  '(authority_info, accounts) ← next_account_info accounts;
  let authority_info_data_len := data_len w authority_info in
  token_account ← borrow [] w token_account_info;
  account ← unpack_packed Account token_account;
  validate_owner [] w program_id (a_owner (packed_base account)) authority_info
    authority_info_data_len accounts;;
  let native_token_amount :=
    if Account_is_native (packed_base account)
    then Some (a_amount (packed_base account)) else None in
  current_extension_types ← get_extension_types (packed_tlv account);
  throw_if
    (existsb (λ t, negb (bool_decide (get_account_type t = AccountType.Account)))
       new_extension_types) (tok InvalidState);;
  needed_account_len ←
    try_calculate_account_len Account (current_extension_types ++ new_extension_types);
  if (needed_account_len <=? data_len w token_account_info)%nat then Ok w
  else
    w ← resize w (key token_account_info) needed_account_len;
    rent ← rent_get;
    let new_rent_exempt_reserve := minimum_balance rent needed_account_len in
    current_lamport_reserve ←
      ok_or (checked_sub 64 (info_lamports w token_account_info) (default 0 native_token_amount))
        (tok Overflow);
    let lamports_diff := saturating_sub new_rent_exempt_reserve current_lamport_reserve in
    w ← (if 0 <? lamports_diff
         then system_transfer payer_info token_account_info system_program_info lamports_diff w
         else Ok w);
    token_account_data ← borrow [] w token_account_info;
    token_account_data ← set_account_type Account token_account_data;
    token_account_data ←
      (match native_token_amount with
       | Some native_token_amount =>
           sync_native_reserve new_rent_exempt_reserve native_token_amount
             (info_lamports w token_account_info) token_account_data
       | None => Ok token_account_data
       end);
    Ok (set_data w (key token_account_info) token_account_data).
End handlers.
