(* ===== verification/TransferFeeOps.v ===== *)
(** * The transfer fee extension's instructions

    [program/src/extension/transfer_fee/processor.rs]: configuring the fee,
    changing it, harvesting withheld fees to the mint and withdrawing them, and
    the codec of [interface/src/extension/transfer_fee/instruction.rs]. *)
From S2P Require Import Prelude Codec Errors Runtime Pod State ExtensionType ExtensionData.
From S2P Require Import Tlv TlvAlloc StateExt Fee Authority Transfer AccountFacts Instruction.

(** [extension.withheld_amount = n] *)
Definition set_withheld (n : Z) (c : TransferFeeConfig) : TransferFeeConfig :=
  mkTransferFeeConfig (tfc_transfer_fee_config_authority c) (tfc_withdraw_withheld_authority c) n
    (tfc_older_transfer_fee c) (tfc_newer_transfer_fee c).

Section handlers.
Context `{rt : Runtime}.
Implicit Types (w : world) (accounts : list AccountInfo).
Implicit Types (mint : PodStateMut PodMint) (account : PodStateMut PodAccount).

(** [mint.get_extension_mut::<V>()? = v] *)
Definition put_mint_ext {V} `{Extension V} (v : V) mint : PodStateMut PodMint :=
  with_tlv (put_extension PodMint v (tlv_data mint)) mint.
Definition put_account_ext {V} `{Extension V} (v : V) account : PodStateMut PodAccount :=
  with_tlv (put_extension PodAccount v (tlv_data account)) account.

(** [OptionalNonZeroPubkey::try_from(COption<Pubkey>)] *)
Definition optional_from_coption (o : option Pubkey) : res Pubkey :=
  match o with
  | Some k => if k =? Pubkey_default then Err optional_key_error else Ok k
  | None => Ok Pubkey_default
  end.

(** [process_initialize_transfer_fee_config] *)
Definition process_initialize_transfer_fee_config accounts
    (transfer_fee_config_authority withdraw_withheld_authority : option Pubkey)
    (transfer_fee_basis_points maximum_fee : Z) w : res world :=
  '(mint_info, accounts) ← next_account_info accounts;
  mint_data ← borrow [] w mint_info;
  mint ← unpack_uninitialized PodMint mint_data;
  tlv ← init_extension PodMint TransferFeeConfig true (tlv_data mint);
  config_authority ← optional_from_coption transfer_fee_config_authority;
  withdraw_authority ← optional_from_coption withdraw_withheld_authority;
  throw_if (MAX_FEE_BASIS_POINTS <? transfer_fee_basis_points) (tok TransferFeeExceedsMaximum);;
  clock ← clock_get;
  let transfer_fee := mkTransferFee (epoch clock) maximum_fee transfer_fee_basis_points in
  let extension :=
    mkTransferFeeConfig config_authority withdraw_authority 0 transfer_fee transfer_fee in
  Ok (write_mint w mint_info (put_mint_ext extension (with_tlv tlv mint))).

(** The schedule of [process_set_transfer_fee]: the fee in force is kept as the
    older one, and the new fee starts two epochs ahead. *)
Definition schedule_fee (epoch transfer_fee_basis_points maximum_fee : Z) (c : TransferFeeConfig) :
    TransferFeeConfig :=
  let older_transfer_fee :=
    if tf_epoch (tfc_newer_transfer_fee c) <=? epoch
    then tfc_newer_transfer_fee c else tfc_older_transfer_fee c in
  let newer_fee_start_epoch := saturating_add 64 epoch 2 in
  mkTransferFeeConfig (tfc_transfer_fee_config_authority c) (tfc_withdraw_withheld_authority c)
    (tfc_withheld_amount c) older_transfer_fee
    (mkTransferFee newer_fee_start_epoch maximum_fee transfer_fee_basis_points).

(** [process_set_transfer_fee] *)
Definition process_set_transfer_fee (program_id : Pubkey) accounts
    (transfer_fee_basis_points maximum_fee : Z) w : res world :=
  '(mint_info, accounts) ← next_account_info accounts;
  '(authority_info, accounts) ← next_account_info accounts;
  let authority_info_data_len := data_len w authority_info in
  mint_data ← borrow [] w mint_info;
  mint ← unpack_mint mint_data;
  extension ← get_mint_ext TransferFeeConfig (tlv_data mint);
  transfer_fee_config_authority ←
    ok_or (optional_get (tfc_transfer_fee_config_authority extension)) (tok NoAuthorityExists);
  validate_owner [key mint_info] w program_id transfer_fee_config_authority authority_info
    authority_info_data_len accounts;;
  throw_if (MAX_FEE_BASIS_POINTS <? transfer_fee_basis_points) (tok TransferFeeExceedsMaximum);;
  clock ← clock_get;
  let extension := schedule_fee (epoch clock) transfer_fee_basis_points maximum_fee extension in
  Ok (write_mint w mint_info (put_mint_ext extension mint)).

(** The checks on the account the withheld tokens are withdrawn to. *)
Definition withdraw_destination_checks (mint_info : AccountInfo) account : res unit :=
  throw_if (negb (acc_mint (base account) =? key mint_info)) (tok MintMismatch);;
  throw_if (is_frozen (base account)) (tok AccountFrozen).

(** [base.amount = base.amount.checked_add(n)?] *)
Definition credit_amount (n : Z) account : res (PodStateMut PodAccount) :=
  amount ← ok_or (checked_add 64 (Pod.amount (base account)) n) (tok Overflow);
  Ok (with_base (set_amount amount (base account)) account).

(** [process_withdraw_withheld_tokens_from_mint] *)
Definition process_withdraw_withheld_tokens_from_mint (program_id : Pubkey) accounts w :
    res world :=
  '(mint_info, accounts) ← next_account_info accounts;
  '(destination_info, accounts) ← next_account_info accounts;
  '(authority_info, accounts) ← next_account_info accounts;
  let authority_info_data_len := data_len w authority_info in
  check_program_account (info_owner w mint_info);;
  mint_data ← borrow [] w mint_info;
  mint ← unpack_mint mint_data;
  extension ← get_mint_ext TransferFeeConfig (tlv_data mint);
  withdraw_withheld_authority ←
    ok_or (optional_get (tfc_withdraw_withheld_authority extension)) (tok NoAuthorityExists);
  validate_owner [key mint_info] w program_id withdraw_withheld_authority authority_info
    authority_info_data_len accounts;;
  destination_data ← borrow [key mint_info] w destination_info;
  destination ← unpack_account destination_data;
  withdraw_destination_checks mint_info destination;;
  let withheld_amount := tfc_withheld_amount extension in
  let mint := put_mint_ext (set_withheld 0 extension) mint in
  destination ← credit_amount withheld_amount destination;
  Ok (write_mint (write_account w destination_info destination) mint_info mint).

(** [harvest_from_account]: the world after it, and the amount harvested *)
Definition harvest_from_account (held : list Pubkey) (mint_key : Pubkey)
    (token_account_info : AccountInfo) w : result TokenError (Z * world) :=
  match borrow held w token_account_info with
  | Ok token_account_data =>
      token_account ← map_err (λ _, InvalidState) (unpack_account token_account_data);
      throw_if (negb (acc_mint (base token_account) =? mint_key)) MintMismatch;;
      map_err (λ _, InvalidState) (check_program_account (info_owner w token_account_info));;
      token_account_extension ←
        map_err (λ _, InvalidState) (get_account_ext TransferFeeAmount (tlv_data token_account));
      let account_withheld_amount := tfa_withheld_amount token_account_extension in
      Ok (account_withheld_amount,
          write_account w token_account_info
            (put_account_ext (mkTransferFeeAmount 0) token_account))
  | _ => Panic
  end.

(** The loop of [process_harvest_withheld_tokens_to_mint]: an account that
    cannot be harvested is skipped. *)
Fixpoint harvest_to_mint_loop (mint_key : Pubkey) (token_account_infos : list AccountInfo)
    (mint_extension : TransferFeeConfig) w : res (TransferFeeConfig * world) :=
  match token_account_infos with
  | [] => Ok (mint_extension, w)
  | token_account_info :: infos =>
      match harvest_from_account [mint_key] mint_key token_account_info w with
      | Ok (amount, w) =>
          withheld_amount ←
            ok_or (checked_add 64 (tfc_withheld_amount mint_extension) amount) (tok Overflow);
          harvest_to_mint_loop mint_key infos (set_withheld withheld_amount mint_extension) w
      | Err _ => harvest_to_mint_loop mint_key infos mint_extension w
      | Panic => Panic
      end
  end.

(** [process_harvest_withheld_tokens_to_mint] *)
Definition process_harvest_withheld_tokens_to_mint accounts w : res world :=
  '(mint_info, token_account_infos) ← next_account_info accounts;
  mint_data ← borrow [] w mint_info;
  mint ← unpack_mint mint_data;
  mint_extension ← get_mint_ext TransferFeeConfig (tlv_data mint);
  '(mint_extension, w) ←
    harvest_to_mint_loop (key mint_info) token_account_infos mint_extension w;
  Ok (write_mint w mint_info (put_mint_ext mint_extension mint)).

(** The loop of [process_withdraw_withheld_tokens_from_accounts]: the
    destination itself is harvested through the view that is already open. *)
Fixpoint withdraw_from_accounts_loop (mint_key : Pubkey) (destination_info : AccountInfo)
    (account_infos : list AccountInfo) (destination : PodStateMut PodAccount) w :
    res (PodStateMut PodAccount * world) :=
  match account_infos with
  | [] => Ok (destination, w)
  | account_info :: infos =>
      if key account_info =? key destination_info then
        token_account_extension ←
          map_err (λ _, tok InvalidState)
            (get_account_ext TransferFeeAmount (tlv_data destination));
        let account_withheld_amount := tfa_withheld_amount token_account_extension in
        destination ← credit_amount account_withheld_amount
                        (put_account_ext (mkTransferFeeAmount 0) destination);
        withdraw_from_accounts_loop mint_key destination_info infos destination w
      else
        match harvest_from_account [mint_key; key destination_info] mint_key account_info w with
        | Ok (amount, w) =>
            destination ← credit_amount amount destination;
            withdraw_from_accounts_loop mint_key destination_info infos destination w
        | Err _ => withdraw_from_accounts_loop mint_key destination_info infos destination w
        | Panic => Panic
        end
  end.

(** [process_withdraw_withheld_tokens_from_accounts] *)
Definition process_withdraw_withheld_tokens_from_accounts (program_id : Pubkey) accounts
    (num_token_accounts : Z) w : res world :=
  '(mint_info, accounts) ← next_account_info accounts;
  '(destination_info, accounts) ← next_account_info accounts;
  '(authority_info, account_infos) ← next_account_info accounts;
  let authority_info_data_len := data_len w authority_info in
  let num_signers := (length account_infos - Z.to_nat num_token_accounts)%nat in
  check_program_account (info_owner w mint_info);;
  mint_data ← borrow [] w mint_info;
  mint ← unpack_ref PodMint mint_data;
  extension ← get_mint_ext TransferFeeConfig (ref_tlv mint);
  withdraw_withheld_authority ←
    ok_or (optional_get (tfc_withdraw_withheld_authority extension)) (tok NoAuthorityExists);
  (* the mint's data is only borrowed immutably here *)
  validate_owner [] w program_id withdraw_withheld_authority authority_info
    authority_info_data_len (take num_signers account_infos);;
  destination_data ← borrow [key mint_info] w destination_info;
  destination ← unpack_account destination_data;
  withdraw_destination_checks mint_info destination;;
  '(destination, w) ←
    withdraw_from_accounts_loop (key mint_info) destination_info
      (drop num_signers account_infos) destination w;
  Ok (write_account w destination_info destination).
End handlers.

(** ** The instruction codec *)
Inductive TransferFeeInstruction :=
| InitializeTransferFeeConfig (transfer_fee_config_authority withdraw_withheld_authority : option Pubkey)
    (transfer_fee_basis_points maximum_fee : Z)
| TransferFeeTransferCheckedWithFee (amount decimals fee : Z)
| WithdrawWithheldTokensFromMint
| WithdrawWithheldTokensFromAccounts (num_token_accounts : Z)
| HarvestWithheldTokensToMint
| SetTransferFee (transfer_fee_basis_points maximum_fee : Z).

(** [TransferFeeInstruction::unpack] *)
Definition unpack_transfer_fee_instruction (input : list byte) : res TransferFeeInstruction :=
  '(tag, rest) ← ok_or (split_first input) (tok InvalidInstruction);
  match tag with
  | 0 =>
      '(transfer_fee_config_authority, rest) ← unpack_pubkey_option rest;
      '(withdraw_withheld_authority, rest) ← unpack_pubkey_option rest;
      '(transfer_fee_basis_points, rest) ← unpack_u16 rest;
      '(maximum_fee, _) ← unpack_u64 rest;
      Ok (InitializeTransferFeeConfig transfer_fee_config_authority withdraw_withheld_authority
            transfer_fee_basis_points maximum_fee)
  | 1 =>
      '(amount, decimals, rest) ← unpack_amount_decimals rest;
      '(fee, _) ← unpack_u64 rest;
      Ok (TransferFeeTransferCheckedWithFee amount decimals fee)
  | 2 => Ok WithdrawWithheldTokensFromMint
  | 3 =>
      '(num_token_accounts, _) ← ok_or (split_first rest) (tok InvalidInstruction);
      Ok (WithdrawWithheldTokensFromAccounts num_token_accounts)
  | 4 => Ok HarvestWithheldTokensToMint
  | 5 =>
      '(transfer_fee_basis_points, rest) ← unpack_u16 rest;
      '(maximum_fee, _) ← unpack_u64 rest;
      Ok (SetTransferFee transfer_fee_basis_points maximum_fee)
  | _ => Err (tok InvalidInstruction)
  end.

(** [TransferFeeInstruction::pack], what it appends to the buffer *)
Definition pack_transfer_fee_instruction (i : TransferFeeInstruction) : list byte :=
  match i with
  | InitializeTransferFeeConfig config_authority withdraw_authority bps maximum_fee =>
      le_split 1 0 ++ pack_pubkey_option config_authority ++ pack_pubkey_option withdraw_authority ++
      le_split 2 bps ++ le_split 8 maximum_fee
  | TransferFeeTransferCheckedWithFee amount decimals fee =>
      le_split 1 1 ++ le_split 8 amount ++ le_split 1 decimals ++ le_split 8 fee
  | WithdrawWithheldTokensFromMint => le_split 1 2
  | WithdrawWithheldTokensFromAccounts num_token_accounts =>
      le_split 1 3 ++ le_split 1 num_token_accounts
  | HarvestWithheldTokensToMint => le_split 1 4
  | SetTransferFee bps maximum_fee => le_split 1 5 ++ le_split 2 bps ++ le_split 8 maximum_fee
  end.

(** [transfer_fee::processor::process_instruction] *)
Definition process_transfer_fee_instruction `{Runtime} (program_id : Pubkey)
    (accounts : list AccountInfo) (input : list byte) (w : world) : res world :=
  instruction ← unpack_transfer_fee_instruction input;
  check_program_account program_id;;
  match instruction with
  | InitializeTransferFeeConfig config_authority withdraw_authority bps maximum_fee =>
      process_initialize_transfer_fee_config accounts config_authority
        withdraw_authority bps maximum_fee w
  | TransferFeeTransferCheckedWithFee amount decimals fee =>
      process_transfer program_id accounts amount (TransferCheckedWithFee decimals fee) w
  | WithdrawWithheldTokensFromMint =>
      process_withdraw_withheld_tokens_from_mint program_id accounts w
  | WithdrawWithheldTokensFromAccounts num_token_accounts =>
      process_withdraw_withheld_tokens_from_accounts program_id accounts num_token_accounts w
  | HarvestWithheldTokensToMint => process_harvest_withheld_tokens_to_mint accounts w
  | SetTransferFee bps maximum_fee => process_set_transfer_fee program_id accounts bps maximum_fee w
  end.
