(* ===== verification/CiphertextOps.v ===== *)
(** * Arithmetic on ElGamal ciphertexts

    [confidential/ciphertext-arithmetic/src/lib.rs], the operations on encrypted
    balances.  A ciphertext is the 64 bytes of two points of the curve, a Pedersen
    commitment and a decrypt handle.  The operations on points and scalars belong
    to [solana_curve25519]: they are the class [Curve], and [CurveGroup] states
    what the crate documents about them. *)
From S2P Require Import Prelude Codec TlvAlloc.

(** A [PodRistrettoPoint] and a [PodScalar] are 32 bytes, a
    [PodElGamalCiphertext] is 64. *)
Abbreviation PodRistrettoPoint := (list byte) (only parsing).
Abbreviation PodScalar := (list byte) (only parsing).
Abbreviation PodElGamalCiphertext := (list byte) (only parsing).

(** [solana_curve25519::ristretto]: [None] for bytes that are not points. *)
Class Curve := {
  add_ristretto : PodRistrettoPoint → PodRistrettoPoint → option PodRistrettoPoint;
  subtract_ristretto : PodRistrettoPoint → PodRistrettoPoint → option PodRistrettoPoint;
  multiply_ristretto : PodScalar → PodRistrettoPoint → option PodRistrettoPoint;
}.

Module ciphertext_arithmetic.
Definition SHIFT_BITS : Z := 16.

(** The generator of the group. *)
Definition G : PodRistrettoPoint :=
  byte.of_Z <$>
  [226; 242; 174; 10; 106; 188; 78; 113; 168; 132; 169; 97; 197; 0; 81; 95; 88; 227; 11; 106; 165;
   130; 221; 141; 182; 166; 89; 69; 224; 141; 45; 118].

(** [u64_to_scalar] *)
Definition u64_to_scalar (amount : Z) : PodScalar := le_split 8 amount ++ zeros 24.

(** [elgamal_ciphertext_to_ristretto] *)
Definition elgamal_ciphertext_to_ristretto (ciphertext : PodElGamalCiphertext) :
    PodRistrettoPoint * PodRistrettoPoint :=
  (slice 0 32 ciphertext, slice 32 64 ciphertext).

(** [ristretto_to_elgamal_ciphertext]; the text in base 64 that the bytes pass
    through on the way is decoded to the same bytes. *)
Definition ristretto_to_elgamal_ciphertext (commitment handle : PodRistrettoPoint) :
    PodElGamalCiphertext := commitment ++ handle.

Section arithmetic.
Context `{Curve}.
Implicit Types ciphertext left_ciphertext right_ciphertext : PodElGamalCiphertext.

(** [add] *)
Definition add left_ciphertext right_ciphertext : option PodElGamalCiphertext :=
  let '(left_commitment, left_handle) := elgamal_ciphertext_to_ristretto left_ciphertext in
  let '(right_commitment, right_handle) := elgamal_ciphertext_to_ristretto right_ciphertext in
  result_commitment ← add_ristretto left_commitment right_commitment;
  result_handle ← add_ristretto left_handle right_handle;
  Some (ristretto_to_elgamal_ciphertext result_commitment result_handle).

(** [multiply] *)
Definition multiply (scalar : PodScalar) ciphertext : option PodElGamalCiphertext :=
  let '(commitment, handle) := elgamal_ciphertext_to_ristretto ciphertext in
  result_commitment ← multiply_ristretto scalar commitment;
  result_handle ← multiply_ristretto scalar handle;
  Some (ristretto_to_elgamal_ciphertext result_commitment result_handle).

(** [add_with_lo_hi] *)
Definition add_with_lo_hi left_ciphertext
    (right_ciphertext_lo right_ciphertext_hi : PodElGamalCiphertext) :
    option PodElGamalCiphertext :=
  let shift_scalar := u64_to_scalar (Z.shiftl 1 SHIFT_BITS) in
  shifted_right_ciphertext_hi ← multiply shift_scalar right_ciphertext_hi;
  combined_right_ciphertext ← add right_ciphertext_lo shifted_right_ciphertext_hi;
  add left_ciphertext combined_right_ciphertext.

(** [subtract] *)
Definition subtract left_ciphertext right_ciphertext : option PodElGamalCiphertext :=
  let '(left_commitment, left_handle) := elgamal_ciphertext_to_ristretto left_ciphertext in
  let '(right_commitment, right_handle) := elgamal_ciphertext_to_ristretto right_ciphertext in
  result_commitment ← subtract_ristretto left_commitment right_commitment;
  result_handle ← subtract_ristretto left_handle right_handle;
  Some (ristretto_to_elgamal_ciphertext result_commitment result_handle).

(** [subtract_with_lo_hi] *)
Definition subtract_with_lo_hi left_ciphertext
    (right_ciphertext_lo right_ciphertext_hi : PodElGamalCiphertext) :
    option PodElGamalCiphertext :=
  let shift_scalar := u64_to_scalar (Z.shiftl 1 SHIFT_BITS) in
  shifted_right_ciphertext_hi ← multiply shift_scalar right_ciphertext_hi;
  combined_right_ciphertext ← add right_ciphertext_lo shifted_right_ciphertext_hi;
  subtract left_ciphertext combined_right_ciphertext.

(** [add_to] *)
Definition add_to ciphertext (amount : Z) : option PodElGamalCiphertext :=
  let amount_scalar := u64_to_scalar amount in
  amount_point ← multiply_ristretto amount_scalar G;
  let '(commitment, handle) := elgamal_ciphertext_to_ristretto ciphertext in
  result_commitment ← add_ristretto commitment amount_point;
  Some (ristretto_to_elgamal_ciphertext result_commitment handle).

(** [subtract_from] *)
Definition subtract_from ciphertext (amount : Z) : option PodElGamalCiphertext :=
  let amount_scalar := u64_to_scalar amount in
  amount_point ← multiply_ristretto amount_scalar G;
  let '(commitment, handle) := elgamal_ciphertext_to_ristretto ciphertext in
  result_commitment ← subtract_ristretto commitment amount_point;
  Some (ristretto_to_elgamal_ciphertext result_commitment handle).
End arithmetic.
End ciphertext_arithmetic.
