(* ===== verification/CiphertextFacts.v ===== *)
(** * What the arithmetic on ciphertexts computes

    The group the curve operations work in ([CurveGroup]), what it means that a
    ciphertext decrypts to an amount under a secret key, and that the operations of
    [CiphertextOps.v] act on the amounts as their names say. *)
From stdpp Require Import proof_irrel.
From Stdlib Require Import Znumtheory.
From S2P Require Import Prelude Codec TlvAlloc CiphertextOps.
Import ciphertext_arithmetic.

(** The group of the Ristretto points, and that the operations on encoded points
    are those of the group; scalars are canonical when they are below [2^64], as
    all those of the program are. *)
Class CurveGroup `{Curve} := {
  point : Type;
  pzero : point;
  padd : point → point → point;
  popp : point → point;
  pmul : Z → point → point;
  padd_assoc : Assoc (=) padd;
  padd_comm : Comm (=) padd;
  padd_zero : LeftId (=) pzero padd;
  padd_opp x : padd x (popp x) = pzero;
  pmul_1 x : pmul 1 x = x;
  pmul_add m n x : pmul (m + n) x = padd (pmul m x) (pmul n x);
  pmul_padd n x y : pmul n (padd x y) = padd (pmul n x) (pmul n y);
  pmul_pmul m n x : pmul m (pmul n x) = pmul (m * n) x;
  (** the encoding of points as bytes *)
  encode : point → PodRistrettoPoint;
  encode_inj : Inj (=) (=) encode;
  length_encode x : length (encode x) = 32%nat;
  encode_zero : encode pzero = zeros 32;
  generator : point;
  encode_generator : encode generator = G;
  (** the order of the generator *)
  order : Z;
  order_bound : 2 ^ 252 ≤ order;
  pmul_generator n : pmul n generator = pzero ↔ (order | n);
  (** the operations *)
  add_ristretto_encode x y : add_ristretto (encode x) (encode y) = Some (encode (padd x y));
  subtract_ristretto_encode x y :
    subtract_ristretto (encode x) (encode y) = Some (encode (padd x (popp y)));
  multiply_ristretto_encode n x : in_uint 64 n →
    multiply_ristretto (u64_to_scalar n) (encode x) = Some (encode (pmul n x));
}.
#[export] Existing Instances padd_assoc padd_comm padd_zero encode_inj.

Section group.
Context `{CurveGroup}.
Implicit Types x y z : point.

#[local] Infix "⊕" := padd (at level 50, left associativity).
#[local] Infix "•" := pmul (at level 40, left associativity).

Lemma padd_zero_r x : x ⊕ pzero = x.
Proof. by rewrite (comm padd), (left_id pzero padd). Qed.

Lemma padd_cancel_l x y z : x ⊕ y = x ⊕ z → y = z.
Proof.
  intros Hxy. rewrite <-(left_id pzero padd y), <-(left_id pzero padd z), <-(padd_opp x).
  rewrite (comm padd x), <-!(assoc padd), Hxy. done.
Qed.

Lemma popp_unique x y : x ⊕ y = pzero → y = popp x.
Proof. intros Hxy. apply (padd_cancel_l x). by rewrite Hxy, padd_opp. Qed.

Lemma pmul_0 x : 0 • x = pzero.
Proof.
  apply (padd_cancel_l (0 • x)). by rewrite <-pmul_add, padd_zero_r.
Qed.

Lemma pmul_opp n x : (- n) • x = popp (n • x).
Proof. apply popp_unique. by rewrite <-pmul_add, Z.add_opp_diag_r, pmul_0. Qed.

Lemma popp_padd x y : popp (x ⊕ y) = popp x ⊕ popp y.
Proof.
  symmetry. apply popp_unique.
  rewrite (assoc padd), <-(assoc padd x y), (comm padd y), (assoc padd), padd_opp, (left_id pzero padd).
  apply padd_opp.
Qed.

Lemma popp_popp x : popp (popp x) = x.
Proof. symmetry. apply popp_unique. by rewrite (comm padd), padd_opp. Qed.

Lemma padd_swap x y z t : (x ⊕ y) ⊕ (z ⊕ t) = (x ⊕ z) ⊕ (y ⊕ t).
Proof. by rewrite (assoc padd _ z), <-(assoc padd x), (comm padd y), !(assoc padd). Qed.

(** Multiples of the generator are told apart up to the order. *)
Lemma pmul_generator_eq m n : m • generator = n • generator ↔ (order | m - n).
Proof.
  rewrite <-pmul_generator, <-Z.add_opp_r, pmul_add, pmul_opp. split; [intros ->; apply padd_opp|].
  intros Hmn. rewrite <-(popp_popp (n • generator)). apply popp_unique. by rewrite (comm padd).
Qed.

(** Amounts that are close to each other and congruent are equal. *)
Lemma order_close m n : (order | m - n) → - 2 ^ 252 < m - n < 2 ^ 252 → m = n.
Proof.
  pose proof order_bound as Ho. intros [q Hq]. generalize dependent (2 ^ 252). intros b Ho Hmn.
  assert (q = 0) by (destruct (Z.lt_trichotomy q 0) as [|[|]]; nia). nia.
Qed.

(** ** Decryption *)

(** The ciphertext with commitment [x] and handle [y]. *)
Definition pair_ciphertext x y : PodElGamalCiphertext := encode x ++ encode y.

(** Under the secret key [secret], the ciphertext decrypts to [amount]: its
    commitment is [amount • G + secret • handle]. *)
Definition decrypts (secret : Z) (ciphertext : PodElGamalCiphertext) (amount : Z) : Prop :=
  ∃ handle, ciphertext = pair_ciphertext (amount • generator ⊕ secret • handle) handle.

Lemma split_pair_ciphertext x y :
  elgamal_ciphertext_to_ristretto (pair_ciphertext x y) = (encode x, encode y).
Proof.
  unfold elgamal_ciphertext_to_ristretto, pair_ciphertext. f_equal.
  - rewrite slice_app_l by (rewrite length_encode; lia).
    pose proof (slice_full (encode x)) as Hx. by rewrite length_encode in Hx.
  - rewrite slice_app_r, length_encode by (rewrite length_encode; lia).
    pose proof (slice_full (encode y)) as Hy. by rewrite length_encode in Hy.
Qed.

(** Decryption has one result, up to the order. *)
Lemma decrypts_order secret c m n : decrypts secret c m →
  decrypts secret c n ↔ (order | m - n).
Proof.
  intros [x ->]. split.
  - intros [y Hxy]. apply (f_equal elgamal_ciphertext_to_ristretto) in Hxy.
    rewrite !split_pair_ciphertext in Hxy. injection Hxy as Hxy ->%(inj encode).
    apply (inj encode) in Hxy. rewrite !(comm padd _ (secret • y)) in Hxy.
    by apply pmul_generator_eq, (padd_cancel_l (secret • y)).
  - intros Hmn%pmul_generator_eq. exists x. by rewrite Hmn.
Qed.

Lemma decrypts_inj secret c m n : - 2 ^ 252 < m - n < 2 ^ 252 →
  decrypts secret c m → decrypts secret c n → m = n.
Proof. intros Hmn Hm Hn. by apply order_close; [apply (decrypts_order secret c m n Hm)|]. Qed.

Lemma decrypts_zero secret : decrypts secret (zeros 64) 0.
Proof.
  exists pzero. unfold pair_ciphertext.
  assert (secret • pzero = pzero) as ->.
  { apply (padd_cancel_l (secret • pzero)). by rewrite <-pmul_padd, !padd_zero_r. }
  by rewrite pmul_0, (left_id pzero padd), encode_zero.
Qed.

(** The operations on decryptions: [ok] also says that they succeed. *)
Lemma add_decrypts secret c d m n : decrypts secret c m → decrypts secret d n →
  ∃ e, add c d = Some e ∧ decrypts secret e (m + n).
Proof.
  intros [x ->] [y ->]. unfold add. rewrite !split_pair_ciphertext, !add_ristretto_encode.
  eexists; split; [done|]. exists (x ⊕ y). unfold ristretto_to_elgamal_ciphertext, pair_ciphertext.
  by rewrite pmul_add, pmul_padd, padd_swap.
Qed.

Lemma subtract_decrypts secret c d m n : decrypts secret c m → decrypts secret d n →
  ∃ e, subtract c d = Some e ∧ decrypts secret e (m - n).
Proof.
  intros [x ->] [y ->]. unfold subtract.
  rewrite !split_pair_ciphertext, !subtract_ristretto_encode.
  eexists; split; [done|]. exists (x ⊕ popp y).
  unfold ristretto_to_elgamal_ciphertext, pair_ciphertext.
  assert (popp (secret • y) = secret • popp y) as Hopp.
  { symmetry. apply popp_unique. rewrite <-pmul_padd, padd_opp.
    apply (padd_cancel_l (secret • pzero)). by rewrite <-pmul_padd, !padd_zero_r. }
  by rewrite <-Z.add_opp_r, pmul_add, pmul_padd, pmul_opp, <-padd_swap, popp_padd, Hopp.
Qed.

Lemma multiply_decrypts secret k c m : in_uint 64 k → decrypts secret c m →
  ∃ e, multiply (u64_to_scalar k) c = Some e ∧ decrypts secret e (k * m).
Proof.
  intros Hk [x ->]. unfold multiply. rewrite split_pair_ciphertext.
  rewrite !multiply_ristretto_encode by done.
  eexists; split; [done|]. exists (k • x).
  unfold ristretto_to_elgamal_ciphertext, pair_ciphertext.
  by rewrite pmul_padd, !pmul_pmul, (Z.mul_comm secret).
Qed.

(** The amount a low and a high ciphertext hold together *)
Definition combined (lo hi : Z) : Z := lo + 2 ^ 16 * hi.

Lemma combine_decrypts secret c d lo hi : decrypts secret c lo → decrypts secret d hi →
  ∃ e, (multiply (u64_to_scalar (Z.shiftl 1 SHIFT_BITS)) d ≫= add c) = Some e ∧
    decrypts secret e (combined lo hi).
Proof.
  intros Hc (e & -> & He)%(multiply_decrypts _ (Z.shiftl 1 SHIFT_BITS)); [|done].
  by apply add_decrypts.
Qed.

Lemma add_with_lo_hi_decrypts secret b c d m lo hi :
  decrypts secret b m → decrypts secret c lo → decrypts secret d hi →
  ∃ e, add_with_lo_hi b c d = Some e ∧ decrypts secret e (m + combined lo hi).
Proof.
  intros Hb Hc Hd. destruct (combine_decrypts _ _ _ _ _ Hc Hd) as (e & He & Hdec).
  unfold add_with_lo_hi. destruct (multiply _ d) as [f|]; [|done]. cbn in He |- *. rewrite He.
  by apply add_decrypts.
Qed.

Lemma subtract_with_lo_hi_decrypts secret b c d m lo hi :
  decrypts secret b m → decrypts secret c lo → decrypts secret d hi →
  ∃ e, subtract_with_lo_hi b c d = Some e ∧ decrypts secret e (m - combined lo hi).
Proof.
  intros Hb Hc Hd. destruct (combine_decrypts _ _ _ _ _ Hc Hd) as (e & He & Hdec).
  unfold subtract_with_lo_hi. destruct (multiply _ d) as [f|]; [|done]. cbn in He |- *. rewrite He.
  by apply subtract_decrypts.
Qed.

Lemma add_to_decrypts secret c m n : in_uint 64 n → decrypts secret c m →
  ∃ e, add_to c n = Some e ∧ decrypts secret e (m + n).
Proof.
  intros Hn [x ->]. unfold add_to.
  rewrite <-encode_generator, multiply_ristretto_encode by done.
  cbn [option_bind mbind]. rewrite split_pair_ciphertext, add_ristretto_encode.
  eexists; split; [done|]. exists x. unfold ristretto_to_elgamal_ciphertext, pair_ciphertext.
  by rewrite pmul_add, <-!(assoc padd), (comm padd (n • _)).
Qed.

Lemma subtract_from_decrypts secret c m n : in_uint 64 n → decrypts secret c m →
  ∃ e, subtract_from c n = Some e ∧ decrypts secret e (m - n).
Proof.
  intros Hn [x ->]. unfold subtract_from.
  rewrite <-encode_generator, multiply_ristretto_encode by done.
  cbn [option_bind mbind]. rewrite split_pair_ciphertext, subtract_ristretto_encode.
  eexists; split; [done|]. exists x. unfold ristretto_to_elgamal_ciphertext, pair_ciphertext.
  by rewrite <-Z.add_opp_r, pmul_add, pmul_opp, <-!(assoc padd), (comm padd (popp _)).
Qed.
End group.

(** ** A curve to evaluate with

    The residues modulo [2^256], encoded in 32 bytes, in place of the points. *)
Module residues.
Definition N : Z := 2 ^ 256.
Definition residue : Type := { z : Z | z mod N = z }.
Definition residue_of (z : Z) : residue := exist _ (z mod N) (Zmod_mod z N).

Lemma residue_eq (x y : residue) : `x = `y → x = y.
Proof. apply sig_eq_pi. apply _. Qed.

(** The canonical element of a residue does not depend on where it is reduced. *)
Ltac solve_residue :=
  repeat intro; repeat match goal with x : residue |- _ => destruct x end; apply residue_eq; simpl in *;
  repeat (rewrite ?Zplus_mod_idemp_l, ?Zplus_mod_idemp_r, ?Zmult_mod_idemp_l,
            ?Zmult_mod_idemp_r, ?Z.mod_mod by done);
  try (f_equal; lia);
  try (match goal with H : ?x mod N = ?x |- _ = ?x =>
         etransitivity; [|exact H]; f_equal; lia end).

Definition pointwise (f : Z → Z → Z) (a b : list byte) : option (list byte) :=
  if decide (length a = 32%nat ∧ length b = 32%nat)
  then Some (le_split 32 (f (le_combine a) (le_combine b))) else None.

#[export] Instance residue_curve : Curve := {|
  add_ristretto := pointwise Z.add;
  subtract_ristretto := pointwise Z.sub;
  multiply_ristretto := pointwise Z.mul;
|}.

Definition encode_residue (x : residue) : list byte := le_split 32 (`x).

Lemma le_split_mod z : le_split 32 (z mod N) = le_split 32 z.
Proof.
  transitivity (le_split 32 (le_combine (le_split 32 z))).
  - by rewrite le_combine_split.
  - apply split_le_combine'. apply length_le_split.
Qed.

Lemma combine_encode x : le_combine (encode_residue x) = `x.
Proof. unfold encode_residue. rewrite le_combine_split. apply (proj2_sig x). Qed.

Lemma pointwise_encode f x y :
  pointwise f (encode_residue x) (encode_residue y) = Some (encode_residue (residue_of (f (`x) (`y)))).
Proof.
  unfold pointwise. rewrite decide_True by (split; apply length_le_split).
  rewrite !combine_encode. unfold encode_residue. simpl. by rewrite le_split_mod.
Qed.

Lemma scalar_residue n : in_uint 64 n → u64_to_scalar n = encode_residue (residue_of n).
Proof.
  intros [H0 Hn]. unfold encode_residue. simpl. rewrite le_split_mod.
  change 32%nat with (8 + 24)%nat. unfold u64_to_scalar.
  transitivity (le_split (8 + 24) (le_combine (le_split 8 n ++ zeros 24))).
  - symmetry. apply split_le_combine'. by rewrite length_app, length_le_split.
  - rewrite le_combine_app, length_le_split, le_combine_split.
    change (le_combine (zeros 24)) with 0. rewrite Z.shiftl_0_l, Z.lor_0_r, Z.mod_small by done. done.
Qed.

#[export] Program Instance residue_group : CurveGroup := {|
  point := residue;
  pzero := residue_of 0;
  padd x y := residue_of (`x + `y);
  popp x := residue_of (- `x);
  pmul n x := residue_of (n * `x);
  encode := encode_residue;
  generator := residue_of (le_combine G);
  order := 2 ^ 255;
|}.
Next Obligation. solve_residue. Qed.
Next Obligation. solve_residue. Qed.
Next Obligation. solve_residue. Qed.
Next Obligation. solve_residue. Qed.
Next Obligation. solve_residue. Qed.
Next Obligation. solve_residue. Qed.
Next Obligation. solve_residue. Qed.
Next Obligation. solve_residue. Qed.
Next Obligation.
  intros x y Hxy. apply residue_eq. by rewrite <-!combine_encode, Hxy.
Qed.
Next Obligation. intros. apply length_le_split. Qed.
Next Obligation. done. Qed.
Next Obligation. by vm_compute. Qed.
Next Obligation. done. Qed.
Next Obligation.
  intros n. assert (le_combine G = 2 * (le_combine G / 2)) as Heven by done. split.
  - intros Hn. apply (f_equal proj1_sig) in Hn.
    assert (N | n * le_combine G) as [q Hq].
    { apply Z.mod_divide; [done|]. simpl in Hn. by rewrite Zmult_mod_idemp_r in Hn. }
    apply (Gauss _ (le_combine G / 2)).
    + exists q. rewrite Heven in Hq. unfold N in Hq. lia.
    + apply Zgcd_1_rel_prime. by vm_compute.
  - intros [q ->]. apply residue_eq. simpl. rewrite Zmult_mod_idemp_r, Zmod_0_l.
    apply Z.mod_divide; [done|]. exists (q * (le_combine G / 2)). rewrite Heven at 1.
    change N with (2 * 2 ^ 255). lia.
Qed.
Next Obligation. intros. cbn. by rewrite pointwise_encode. Qed.
Next Obligation.
  intros. cbn. rewrite pointwise_encode. do 2 f_equal. solve_residue.
Qed.
Next Obligation.
  intros n x Hn. cbn. rewrite scalar_residue, pointwise_encode by done. do 2 f_equal. solve_residue.
Qed.
End residues.
