(* ===== verification/ProofExtraction.v ===== *)
(** * Zero-knowledge proofs and their contexts

    [confidential/proof-extraction/src/*.rs]: where an instruction finds the
    contexts of the proofs it relies on, and the checks that several contexts speak
    of the same keys, ciphertexts and commitments.  The proofs are verified by the
    ZK ElGamal proof program; its instructions and accounts are read through the
    class [ZkSdk]. *)
From S2P Require Import Prelude Codec Errors Runtime TlvAlloc CiphertextOps.
Import ciphertext_arithmetic.

Abbreviation PodElGamalPubkey := (list byte) (only parsing).
Abbreviation PodPedersenCommitment := (list byte) (only parsing).
(** [PodGroupedElGamalCiphertext2Handles], [PodGroupedElGamalCiphertext3Handles] *)
Abbreviation PodGroupedElGamalCiphertext := (list byte) (only parsing).

(** ** [solana_zk_sdk] *)
Module ProofType.
Inductive t :=
| Uninitialized | ZeroCiphertext | CiphertextCiphertextEquality | CiphertextCommitmentEquality
| PubkeyValidity | PercentageWithCap | BatchedRangeProofU64 | BatchedRangeProofU128
| BatchedRangeProofU256 | GroupedCiphertext2HandlesValidity
| BatchedGroupedCiphertext2HandlesValidity | GroupedCiphertext3HandlesValidity
| BatchedGroupedCiphertext3HandlesValidity.
End ProofType.
Abbreviation ProofType := ProofType.t.

Module ProofInstruction.
Inductive t :=
| CloseContextState | VerifyZeroCiphertext | VerifyCiphertextCiphertextEquality
| VerifyCiphertextCommitmentEquality | VerifyPubkeyValidity | VerifyPercentageWithCap
| VerifyBatchedRangeProofU64 | VerifyBatchedRangeProofU128 | VerifyBatchedRangeProofU256
| VerifyGroupedCiphertext2HandlesValidity | VerifyBatchedGroupedCiphertext2HandlesValidity
| VerifyGroupedCiphertext3HandlesValidity | VerifyBatchedGroupedCiphertext3HandlesValidity.
#[global] Instance eq_dec : EqDecision t.
Proof. solve_decision. Defined.
End ProofInstruction.
Abbreviation ProofInstruction := ProofInstruction.t.

(** The statements the proofs are about. *)
Record PubkeyValidityProofContext := mkPubkeyValidity { pv_pubkey : PodElGamalPubkey }.
Record ZeroCiphertextProofContext := mkZeroCiphertext {
  zc_pubkey : PodElGamalPubkey;
  zc_ciphertext : PodElGamalCiphertext;
}.
Record CiphertextCiphertextEqualityProofContext := mkCiphertextEquality {
  cc_first_pubkey : PodElGamalPubkey;
  cc_second_pubkey : PodElGamalPubkey;
  cc_first_ciphertext : PodElGamalCiphertext;
  cc_second_ciphertext : PodElGamalCiphertext;
}.
Record CiphertextCommitmentEqualityProofContext := mkCommitmentEquality {
  eq_pubkey : PodElGamalPubkey;
  eq_ciphertext : PodElGamalCiphertext;
  eq_commitment : PodPedersenCommitment;
}.
Record BatchedGroupedCiphertext2HandlesValidityProofContext := mkGrouped2 {
  g2_first_pubkey : PodElGamalPubkey;
  g2_second_pubkey : PodElGamalPubkey;
  g2_grouped_ciphertext_lo : PodGroupedElGamalCiphertext;
  g2_grouped_ciphertext_hi : PodGroupedElGamalCiphertext;
}.
Record BatchedGroupedCiphertext3HandlesValidityProofContext := mkGrouped3 {
  g3_first_pubkey : PodElGamalPubkey;
  g3_second_pubkey : PodElGamalPubkey;
  g3_third_pubkey : PodElGamalPubkey;
  g3_grouped_ciphertext_lo : PodGroupedElGamalCiphertext;
  g3_grouped_ciphertext_hi : PodGroupedElGamalCiphertext;
}.
(** eight commitments, and eight bit lengths *)
Record BatchedRangeProofContext := mkRangeProof {
  rp_commitments : list PodPedersenCommitment;
  rp_bit_lengths : list Z;
}.
Record PercentageWithCapProofContext := mkPercentage {
  pc_percentage_commitment : PodPedersenCommitment;
  pc_delta_commitment : PodPedersenCommitment;
  pc_claimed_commitment : PodPedersenCommitment;
  pc_max_value : Z;
}.

(** [ZkProofData<U>]: the context [U] of each kind of proof; those that no code of
    the repository looks into are bytes. *)
Definition proof_context (t : ProofType) : Type :=
  match t with
  | ProofType.ZeroCiphertext => ZeroCiphertextProofContext
  | ProofType.CiphertextCiphertextEquality => CiphertextCiphertextEqualityProofContext
  | ProofType.CiphertextCommitmentEquality => CiphertextCommitmentEqualityProofContext
  | ProofType.PubkeyValidity => PubkeyValidityProofContext
  | ProofType.PercentageWithCap => PercentageWithCapProofContext
  | ProofType.BatchedRangeProofU64 | ProofType.BatchedRangeProofU128
  | ProofType.BatchedRangeProofU256 => BatchedRangeProofContext
  | ProofType.BatchedGroupedCiphertext2HandlesValidity =>
      BatchedGroupedCiphertext2HandlesValidityProofContext
  | ProofType.BatchedGroupedCiphertext3HandlesValidity =>
      BatchedGroupedCiphertext3HandlesValidityProofContext
  | _ => list byte
  end.

(** An instruction of the transaction: its program and its data. *)
Record Instruction := mkInstruction { ix_program_id : Pubkey; ix_data : list byte }.

Class ZkSdk `{Runtime} := {
  (** [zk_elgamal_proof_program::id()] *)
  zk_elgamal_proof_program_id : Pubkey;
  (** [PodProofType::from(ProofType)] *)
  pod_proof_type : ProofType → Z;
  (** [pod_from_bytes::<ProofContextState<U>>]: its proof type and its context *)
  proof_context_state : ∀ t, list byte → res (Z * proof_context t);
  (** [ProofInstruction::instruction_type] *)
  instruction_type : list byte → option ProofInstruction;
  (** [ProofInstruction::proof_data::<T, U>], and the context of what it returns *)
  proof_data_context : ∀ t, list byte → option (proof_context t);
  (** [get_instruction_relative], given the accounts whose data is borrowed *)
  get_instruction_relative : list Pubkey → Z → AccountInfo → world → res Instruction;
  (** [extract_commitment] and [try_extract_ciphertext] of grouped ciphertexts,
      the latter given the number of handles *)
  extract_commitment : PodGroupedElGamalCiphertext → PodPedersenCommitment;
  extract_ciphertext : nat → PodGroupedElGamalCiphertext → nat → option PodElGamalCiphertext;
}.

(** ** [errors.rs] *)
Inductive TokenProofExtractionError :=
| ElGamalPubkeyMismatch
| PedersenCommitmentMismatch
| RangeProofLengthMismatch
| FeeParametersMismatch
| CurveArithmetic
| CiphertextExtraction.

(** [impl From<TokenProofExtractionError> for TokenError] of
    [interface/src/error.rs] *)
Definition proof_error (e : TokenProofExtractionError) : TokenError :=
  match e with
  | ElGamalPubkeyMismatch => ConfidentialTransferElGamalPubkeyMismatch
  | PedersenCommitmentMismatch => Errors.PedersenCommitmentMismatch
  | RangeProofLengthMismatch => Errors.RangeProofLengthMismatch
  | FeeParametersMismatch => Errors.FeeParametersMismatch
  | CurveArithmetic => CiphertextArithmeticFailed
  | CiphertextExtraction => MalformedCiphertext
  end.

(** ** [instruction.rs] *)
Section instruction.
Context `{zk : ZkSdk}.
Implicit Types (w : world) (accounts : list AccountInfo).

(** [check_zk_elgamal_proof_program_account] *)
Definition check_zk_elgamal_proof_program_account (program : Pubkey) : res unit :=
  throw_if (negb (program =? zk_elgamal_proof_program_id)) IncorrectProgramId.

(** [decode_proof_instruction_context] *)
Definition decode_proof_instruction_context (t : ProofType) (expected : ProofInstruction)
    (instruction : Instruction) : res (proof_context t) :=
  throw_if (negb (ix_program_id instruction =? zk_elgamal_proof_program_id) ||
            negb (bool_decide (instruction_type (ix_data instruction) = Some expected)))
    InvalidInstructionData;;
  ok_or (proof_data_context t (ix_data instruction)) InvalidInstructionData.

(** [zk_proof_type_to_instruction] *)
Definition zk_proof_type_to_instruction (proof_type : ProofType) : res ProofInstruction :=
  match proof_type with
  | ProofType.ZeroCiphertext => Ok ProofInstruction.VerifyZeroCiphertext
  | ProofType.CiphertextCiphertextEquality =>
      Ok ProofInstruction.VerifyCiphertextCiphertextEquality
  | ProofType.PubkeyValidity => Ok ProofInstruction.VerifyPubkeyValidity
  | ProofType.BatchedRangeProofU64 => Ok ProofInstruction.VerifyBatchedRangeProofU64
  | ProofType.BatchedRangeProofU128 => Ok ProofInstruction.VerifyBatchedRangeProofU128
  | ProofType.BatchedRangeProofU256 => Ok ProofInstruction.VerifyBatchedRangeProofU256
  | ProofType.CiphertextCommitmentEquality =>
      Ok ProofInstruction.VerifyCiphertextCommitmentEquality
  | ProofType.GroupedCiphertext2HandlesValidity =>
      Ok ProofInstruction.VerifyGroupedCiphertext2HandlesValidity
  | ProofType.BatchedGroupedCiphertext2HandlesValidity =>
      Ok ProofInstruction.VerifyBatchedGroupedCiphertext2HandlesValidity
  | ProofType.PercentageWithCap => Ok ProofInstruction.VerifyPercentageWithCap
  | ProofType.GroupedCiphertext3HandlesValidity =>
      Ok ProofInstruction.VerifyGroupedCiphertext3HandlesValidity
  | ProofType.BatchedGroupedCiphertext3HandlesValidity =>
      Ok ProofInstruction.VerifyBatchedGroupedCiphertext3HandlesValidity
  | ProofType.Uninitialized => Err InvalidInstructionData
  end.

(** [verify_and_extract_context]: the context and the accounts that are left *)
Definition verify_and_extract_context (t : ProofType) (held : list Pubkey) w accounts
    (proof_instruction_offset : Z) (sysvar_account_info : option AccountInfo) :
    res (proof_context t * list AccountInfo) :=
  if proof_instruction_offset =? 0 then
    '(context_state_account_info, accounts) ← next_account_info accounts;
    check_zk_elgamal_proof_program_account (info_owner w context_state_account_info);;
    context_state_account_data ← borrow held w context_state_account_info;
    '(proof_type, context) ← proof_context_state t context_state_account_data;
    throw_if (negb (proof_type =? pod_proof_type t)) InvalidInstructionData;;
    Ok (context, accounts)
  else
    '(sysvar_account_info, accounts) ←
      (match sysvar_account_info with
       | Some sysvar_account_info => Ok (sysvar_account_info, accounts)
       | None => next_account_info accounts
       end);
    zkp_instruction ← get_instruction_relative held proof_instruction_offset sysvar_account_info w;
    expected_proof_type ← zk_proof_type_to_instruction t;
    context ← decode_proof_instruction_context t expected_proof_type zkp_instruction;
    Ok (context, accounts).
End instruction.

(** ** [encryption.rs] *)

(** [try_extract_ciphertext] of [PodTransferAmountCiphertext],
    [PodBurnAmountCiphertext] and [PodMintAmountCiphertext] (three handles), and of
    [PodFeeCiphertext] (two). *)
Definition try_extract_ciphertext `{ZkSdk} (handles : nat) (c : PodGroupedElGamalCiphertext)
    (index : nat) : result TokenProofExtractionError PodElGamalCiphertext :=
  ok_or (extract_ciphertext handles c index) CiphertextExtraction.

(** [.iter().zip(expected).all(|(a, b)| a == b)] *)
Definition zip_all_eq {A} `{EqDecision A} (l expected : list A) : bool :=
  forallb (λ '(a, b), bool_decide (a = b)) (zip l expected).

(** ** [withdraw.rs] *)
Record WithdrawProofContext := mkWithdrawProof {
  wp_source_pubkey : PodElGamalPubkey;
  wp_remaining_balance_ciphertext : PodElGamalCiphertext;
}.

Definition REMAINING_BALANCE_BIT_LENGTH : Z := 64.

(** [WithdrawProofContext::verify_and_extract] *)
Definition verify_and_extract_withdraw
    (equality_proof_context : CiphertextCommitmentEqualityProofContext)
    (range_proof_context : BatchedRangeProofContext) :
    result TokenProofExtractionError WithdrawProofContext :=
  commitment ← unwrap (head (rp_commitments range_proof_context));
  throw_if (negb (bool_decide (commitment = eq_commitment equality_proof_context)))
    PedersenCommitmentMismatch;;
  bit_length ← unwrap (head (rp_bit_lengths range_proof_context));
  throw_if (negb (bit_length =? REMAINING_BALANCE_BIT_LENGTH)) RangeProofLengthMismatch;;
  Ok (mkWithdrawProof (eq_pubkey equality_proof_context) (eq_ciphertext equality_proof_context)).

(** ** [transfer.rs], [mint.rs], [burn.rs] *)
Definition AMOUNT_LO_BIT_LENGTH : Z := 16.
Definition AMOUNT_HI_BIT_LENGTH : Z := 32.
Definition PADDING_BIT_LENGTH : Z := 16.

(** What the three constructors check of an equality proof, a validity proof and a
    range proof, given the key of the validity proof that must be the one of the
    equality proof. *)
Definition verify_amount_contexts `{ZkSdk}
    (equality_proof_context : CiphertextCommitmentEqualityProofContext)
    (pubkey_from_validity_proof : PodElGamalPubkey)
    (ciphertext_validity_proof_context : BatchedGroupedCiphertext3HandlesValidityProofContext)
    (range_proof_context : BatchedRangeProofContext) : result TokenProofExtractionError unit :=
  throw_if (negb (bool_decide (eq_pubkey equality_proof_context = pubkey_from_validity_proof)))
    ElGamalPubkeyMismatch;;
  let amount_commitment_lo :=
    extract_commitment (g3_grouped_ciphertext_lo ciphertext_validity_proof_context) in
  let amount_commitment_hi :=
    extract_commitment (g3_grouped_ciphertext_hi ciphertext_validity_proof_context) in
  let expected_commitments :=
    [eq_commitment equality_proof_context; amount_commitment_lo; amount_commitment_hi] in
  throw_if (negb (zip_all_eq (rp_commitments range_proof_context) expected_commitments))
    PedersenCommitmentMismatch;;
  let expected_bit_lengths :=
    [REMAINING_BALANCE_BIT_LENGTH; AMOUNT_LO_BIT_LENGTH; AMOUNT_HI_BIT_LENGTH;
     PADDING_BIT_LENGTH] in
  throw_if (negb (zip_all_eq (rp_bit_lengths range_proof_context) expected_bit_lengths))
    RangeProofLengthMismatch.

Record TransferPubkeys := mkTransferPubkeys {
  tp_source : PodElGamalPubkey;
  tp_destination : PodElGamalPubkey;
  tp_auditor : PodElGamalPubkey;
}.
Record TransferProofContext := mkTransferProof {
  tp_ciphertext_lo : PodGroupedElGamalCiphertext;
  tp_ciphertext_hi : PodGroupedElGamalCiphertext;
  tp_transfer_pubkeys : TransferPubkeys;
  tp_new_source_ciphertext : PodElGamalCiphertext;
}.

(** [TransferProofContext::verify_and_extract] *)
Definition verify_and_extract_transfer `{ZkSdk}
    (equality_proof_context : CiphertextCommitmentEqualityProofContext)
    (ciphertext_validity_proof_context : BatchedGroupedCiphertext3HandlesValidityProofContext)
    (range_proof_context : BatchedRangeProofContext) :
    result TokenProofExtractionError TransferProofContext :=
  let g := ciphertext_validity_proof_context in
  verify_amount_contexts equality_proof_context (g3_first_pubkey g) g range_proof_context;;
  let transfer_pubkeys :=
    mkTransferPubkeys (eq_pubkey equality_proof_context) (g3_second_pubkey g)
      (g3_third_pubkey g) in
  Ok (mkTransferProof (g3_grouped_ciphertext_lo g) (g3_grouped_ciphertext_hi g) transfer_pubkeys
        (eq_ciphertext equality_proof_context)).

Record MintPubkeys := mkMintPubkeys {
  mp_destination : PodElGamalPubkey;
  mp_supply : PodElGamalPubkey;
  mp_auditor : PodElGamalPubkey;
}.
Record MintProofContext := mkMintProof {
  mp_mint_amount_ciphertext_lo : PodGroupedElGamalCiphertext;
  mp_mint_amount_ciphertext_hi : PodGroupedElGamalCiphertext;
  mp_mint_pubkeys : MintPubkeys;
  mp_new_supply_ciphertext : PodElGamalCiphertext;
}.

(** [MintProofContext::verify_and_extract] *)
Definition verify_and_extract_mint `{ZkSdk}
    (equality_proof_context : CiphertextCommitmentEqualityProofContext)
    (ciphertext_validity_proof_context : BatchedGroupedCiphertext3HandlesValidityProofContext)
    (range_proof_context : BatchedRangeProofContext) :
    result TokenProofExtractionError MintProofContext :=
  let g := ciphertext_validity_proof_context in
  verify_amount_contexts equality_proof_context (g3_second_pubkey g) g range_proof_context;;
  let mint_pubkeys :=
    mkMintPubkeys (g3_first_pubkey g) (eq_pubkey equality_proof_context) (g3_third_pubkey g) in
  Ok (mkMintProof (g3_grouped_ciphertext_lo g) (g3_grouped_ciphertext_hi g) mint_pubkeys
        (eq_ciphertext equality_proof_context)).

Record BurnPubkeys := mkBurnPubkeys {
  bp_source : PodElGamalPubkey;
  bp_supply : PodElGamalPubkey;
  bp_auditor : PodElGamalPubkey;
}.
Record BurnProofContext := mkBurnProof {
  bp_burn_amount_ciphertext_lo : PodGroupedElGamalCiphertext;
  bp_burn_amount_ciphertext_hi : PodGroupedElGamalCiphertext;
  bp_burn_pubkeys : BurnPubkeys;
  bp_remaining_balance_ciphertext : PodElGamalCiphertext;
}.

(** [BurnProofContext::verify_and_extract] *)
Definition verify_and_extract_burn `{ZkSdk}
    (equality_proof_context : CiphertextCommitmentEqualityProofContext)
    (ciphertext_validity_proof_context : BatchedGroupedCiphertext3HandlesValidityProofContext)
    (range_proof_context : BatchedRangeProofContext) :
    result TokenProofExtractionError BurnProofContext :=
  let g := ciphertext_validity_proof_context in
  verify_amount_contexts equality_proof_context (g3_first_pubkey g) g range_proof_context;;
  let burn_pubkeys :=
    mkBurnPubkeys (eq_pubkey equality_proof_context) (g3_second_pubkey g) (g3_third_pubkey g) in
  Ok (mkBurnProof (g3_grouped_ciphertext_lo g) (g3_grouped_ciphertext_hi g) burn_pubkeys
        (eq_ciphertext equality_proof_context)).

(** ** [transfer_with_fee.rs] *)
Module transfer_with_fee.
Definition MAX_FEE_BASIS_POINTS_SUB_ONE : Z := 9999.
Definition MAX_FEE_BASIS_POINTS : Z := 10000.
Definition DELTA_BIT_LENGTH : Z := 16.
Definition FEE_AMOUNT_LO_BIT_LENGTH : Z := 16.
Definition FEE_AMOUNT_HI_BIT_LENGTH : Z := 32.
Definition NET_TRANSFER_AMOUNT_BIT_LENGTH : Z := 64.
End transfer_with_fee.

Record TransferWithFeePubkeys := mkTransferWithFeePubkeys {
  tfp_source : PodElGamalPubkey;
  tfp_destination : PodElGamalPubkey;
  tfp_auditor : PodElGamalPubkey;
  tfp_withdraw_withheld_authority : PodElGamalPubkey;
}.
Record TransferWithFeeProofContext := mkTransferWithFeeProof {
  tfp_ciphertext_lo : PodGroupedElGamalCiphertext;
  tfp_ciphertext_hi : PodGroupedElGamalCiphertext;
  tfp_transfer_with_fee_pubkeys : TransferWithFeePubkeys;
  tfp_new_source_ciphertext : PodElGamalCiphertext;
  tfp_fee_ciphertext_lo : PodGroupedElGamalCiphertext;
  tfp_fee_ciphertext_hi : PodGroupedElGamalCiphertext;
}.

(** [u16_to_scalar] *)
Definition u16_to_scalar (amount : Z) : PodScalar := le_split 2 amount ++ zeros 30.

(** [commitment_to_ristretto]: the same 32 bytes *)
Definition commitment_to_ristretto (commitment : PodPedersenCommitment) : PodRistrettoPoint :=
  commitment.

Section with_fee.
Context `{curve : Curve} `{zk : ZkSdk}.

(** [combine_lo_hi_pedersen_points] *)
Definition combine_lo_hi_pedersen_points (point_lo point_hi : PodRistrettoPoint) :
    option PodRistrettoPoint :=
  let scaling_constant_scalar := u64_to_scalar 65536 in
  scaled_point_hi ← multiply_ristretto scaling_constant_scalar point_hi;
  add_ristretto point_lo scaled_point_hi.

(** [verify_delta_commitment] *)
Definition verify_delta_commitment (transfer_amount_commitment_lo transfer_amount_commitment_hi
    fee_commitment proof_delta_commitment : PodPedersenCommitment)
    (transfer_fee_basis_points : Z) : result TokenProofExtractionError unit :=
  transfer_amount_point ←
    ok_or (combine_lo_hi_pedersen_points (commitment_to_ristretto transfer_amount_commitment_lo)
             (commitment_to_ristretto transfer_amount_commitment_hi)) CurveArithmetic;
  let transfer_fee_basis_points_scalar := u16_to_scalar transfer_fee_basis_points in
  scaled_transfer_amount_point ←
    ok_or (multiply_ristretto transfer_fee_basis_points_scalar transfer_amount_point)
      CurveArithmetic;
  let max_fee_basis_points_scalar := u64_to_scalar transfer_with_fee.MAX_FEE_BASIS_POINTS in
  let fee_point := commitment_to_ristretto fee_commitment in
  scaled_fee_point ←
    ok_or (multiply_ristretto max_fee_basis_points_scalar fee_point) CurveArithmetic;
  expected_delta_commitment_point ←
    ok_or (subtract_ristretto scaled_fee_point scaled_transfer_amount_point) CurveArithmetic;
  let proof_delta_commitment_point := commitment_to_ristretto proof_delta_commitment in
  throw_if (negb (bool_decide (expected_delta_commitment_point = proof_delta_commitment_point)))
    CurveArithmetic.

(** [TransferWithFeeProofContext::verify_and_extract] *)
Definition verify_and_extract_transfer_with_fee
    (equality_proof_context : CiphertextCommitmentEqualityProofContext)
    (transfer_amount_ciphertext_validity_proof_context :
       BatchedGroupedCiphertext3HandlesValidityProofContext)
    (fee_sigma_proof_context : PercentageWithCapProofContext)
    (fee_ciphertext_validity_proof_context : BatchedGroupedCiphertext2HandlesValidityProofContext)
    (range_proof_context : BatchedRangeProofContext)
    (expected_fee_rate_basis_points expected_maximum_fee : Z) :
    result TokenProofExtractionError TransferWithFeeProofContext :=
  let g := transfer_amount_ciphertext_validity_proof_context in
  let f := fee_ciphertext_validity_proof_context in
  let fee_commitment := pc_percentage_commitment fee_sigma_proof_context in
  let claimed_commitment := pc_claimed_commitment fee_sigma_proof_context in
  throw_if (negb (expected_maximum_fee =? pc_max_value fee_sigma_proof_context))
    FeeParametersMismatch;;
  throw_if (negb (bool_decide (g3_second_pubkey g = g2_first_pubkey f))) ElGamalPubkeyMismatch;;
  let transfer_amount_commitment_lo := extract_commitment (g3_grouped_ciphertext_lo g) in
  let transfer_amount_commitment_hi := extract_commitment (g3_grouped_ciphertext_hi g) in
  let fee_commitment_lo := extract_commitment (g2_grouped_ciphertext_lo f) in
  let fee_commitment_hi := extract_commitment (g2_grouped_ciphertext_hi f) in
  let max_fee_basis_points_sub_one_scalar :=
    u64_to_scalar transfer_with_fee.MAX_FEE_BASIS_POINTS_SUB_ONE in
  max_fee_basis_points_sub_one_commitment ←
    ok_or (multiply_ristretto max_fee_basis_points_sub_one_scalar G) CurveArithmetic;
  claimed_complement_commitment ←
    ok_or (subtract_ristretto max_fee_basis_points_sub_one_commitment
             (commitment_to_ristretto claimed_commitment)) CurveArithmetic;
  transfer_amount_point ←
    ok_or (combine_lo_hi_pedersen_points (commitment_to_ristretto transfer_amount_commitment_lo)
             (commitment_to_ristretto transfer_amount_commitment_hi)) CurveArithmetic;
  let fee_commitment_point := commitment_to_ristretto fee_commitment in
  net_transfer_commitment_point ←
    ok_or (subtract_ristretto transfer_amount_point fee_commitment_point) CurveArithmetic;
  let expected_commitments :=
    [eq_commitment equality_proof_context; transfer_amount_commitment_lo;
     transfer_amount_commitment_hi; claimed_commitment; claimed_complement_commitment;
     fee_commitment_lo; fee_commitment_hi; net_transfer_commitment_point] in
  throw_if (negb (zip_all_eq (rp_commitments range_proof_context) expected_commitments))
    PedersenCommitmentMismatch;;
  let expected_bit_lengths :=
    [REMAINING_BALANCE_BIT_LENGTH; AMOUNT_LO_BIT_LENGTH; AMOUNT_HI_BIT_LENGTH;
     transfer_with_fee.DELTA_BIT_LENGTH; transfer_with_fee.DELTA_BIT_LENGTH;
     transfer_with_fee.FEE_AMOUNT_LO_BIT_LENGTH; transfer_with_fee.FEE_AMOUNT_HI_BIT_LENGTH;
     transfer_with_fee.NET_TRANSFER_AMOUNT_BIT_LENGTH] in
  throw_if (negb (zip_all_eq (rp_bit_lengths range_proof_context) expected_bit_lengths))
    RangeProofLengthMismatch;;
  let sigma_proof_fee_commitment_point := commitment_to_ristretto fee_commitment in
  validity_proof_fee_point ←
    ok_or (combine_lo_hi_pedersen_points (commitment_to_ristretto fee_commitment_lo)
             (commitment_to_ristretto fee_commitment_hi)) CurveArithmetic;
  throw_if (negb (bool_decide (eq_pubkey equality_proof_context = g3_first_pubkey g)))
    ElGamalPubkeyMismatch;;
  throw_if (negb (bool_decide (validity_proof_fee_point = sigma_proof_fee_commitment_point)))
    FeeParametersMismatch;;
  verify_delta_commitment transfer_amount_commitment_lo transfer_amount_commitment_hi
    fee_commitment (pc_delta_commitment fee_sigma_proof_context) expected_fee_rate_basis_points;;
  let transfer_with_fee_pubkeys :=
    mkTransferWithFeePubkeys (eq_pubkey equality_proof_context) (g3_second_pubkey g)
      (g3_third_pubkey g) (g2_second_pubkey f) in
  Ok (mkTransferWithFeeProof (g3_grouped_ciphertext_lo g) (g3_grouped_ciphertext_hi g)
        transfer_with_fee_pubkeys (eq_ciphertext equality_proof_context)
        (g2_grouped_ciphertext_lo f) (g2_grouped_ciphertext_hi f)).
End with_fee.
