(* ===== verification/ConfidentialOps.v ===== *)
(** * The confidential transfer extension's instructions

    [interface/src/extension/confidential_transfer/{mod,instruction}.rs] and
    [program/src/extension/confidential_transfer/{processor,verify_proof}.rs]:
    configuring accounts, moving tokens in and out of encrypted balances, and
    transfers whose amounts are encrypted. *)
From S2P Require Import Prelude Codec Errors Runtime Pod State ExtensionType ExtensionData Tlv.
From S2P Require Import TlvAlloc StateExt PackedExt Fee Authority Transfer AccountOps InitOps.
From S2P Require Import Instruction TransferFeeOps SystemOps CiphertextOps ProofExtraction.

(** ** [interface/src/extension/confidential_transfer/mod.rs] *)
Definition MAXIMUM_DEPOSIT_TRANSFER_AMOUNT : Z := (2 ^ 16 - 1) + Z.shiftl 1 16 * (2 ^ 32 - 1).
Definition DEFAULT_MAXIMUM_PENDING_BALANCE_CREDIT_COUNTER : Z := 65536.

(** [EncryptedBalance::zeroed()], [PodElGamalCiphertext::default()] *)
Definition zeroed_ciphertext `{Runtime} : PodElGamalCiphertext := zeros elgamal_ciphertext_len.

(** Assignments to the fields of a [ConfidentialTransferAccount] *)
Section fields.
Implicit Types c : ConfidentialTransferAccount.

Definition set_approved (v : Z) c : ConfidentialTransferAccount :=
  mkConfidentialTransferAccount v (cta_elgamal_pubkey c) (cta_pending_balance_lo c)
    (cta_pending_balance_hi c) (cta_available_balance c) (cta_decryptable_available_balance c)
    (cta_allow_confidential_credits c) (cta_allow_non_confidential_credits c)
    (cta_pending_balance_credit_counter c) (cta_maximum_pending_balance_credit_counter c)
    (cta_expected_pending_balance_credit_counter c) (cta_actual_pending_balance_credit_counter c).

Definition set_pending_balance (lo hi : PodElGamalCiphertext) c : ConfidentialTransferAccount :=
  mkConfidentialTransferAccount (cta_approved c) (cta_elgamal_pubkey c) lo hi
    (cta_available_balance c) (cta_decryptable_available_balance c)
    (cta_allow_confidential_credits c) (cta_allow_non_confidential_credits c)
    (cta_pending_balance_credit_counter c) (cta_maximum_pending_balance_credit_counter c)
    (cta_expected_pending_balance_credit_counter c) (cta_actual_pending_balance_credit_counter c).

Definition set_available_balance (available : PodElGamalCiphertext) (decryptable : list byte) c :
    ConfidentialTransferAccount :=
  mkConfidentialTransferAccount (cta_approved c) (cta_elgamal_pubkey c) (cta_pending_balance_lo c)
    (cta_pending_balance_hi c) available decryptable
    (cta_allow_confidential_credits c) (cta_allow_non_confidential_credits c)
    (cta_pending_balance_credit_counter c) (cta_maximum_pending_balance_credit_counter c)
    (cta_expected_pending_balance_credit_counter c) (cta_actual_pending_balance_credit_counter c).

Definition set_allow_credits (confidential non_confidential : Z) c : ConfidentialTransferAccount :=
  mkConfidentialTransferAccount (cta_approved c) (cta_elgamal_pubkey c) (cta_pending_balance_lo c)
    (cta_pending_balance_hi c) (cta_available_balance c) (cta_decryptable_available_balance c)
    confidential non_confidential
    (cta_pending_balance_credit_counter c) (cta_maximum_pending_balance_credit_counter c)
    (cta_expected_pending_balance_credit_counter c) (cta_actual_pending_balance_credit_counter c).

Definition set_credit_counters (pending expected actual : Z) c : ConfidentialTransferAccount :=
  mkConfidentialTransferAccount (cta_approved c) (cta_elgamal_pubkey c) (cta_pending_balance_lo c)
    (cta_pending_balance_hi c) (cta_available_balance c) (cta_decryptable_available_balance c)
    (cta_allow_confidential_credits c) (cta_allow_non_confidential_credits c)
    pending (cta_maximum_pending_balance_credit_counter c) expected actual.

(** [ConfidentialTransferAccount::approved] *)
Definition approved c : res unit :=
  throw_if (negb (pod_bool (cta_approved c))) (tok ConfidentialTransferAccountNotApproved).

(** [ConfidentialTransferAccount::valid_as_source] *)
Definition valid_as_source c : res unit := approved c.

(** [ConfidentialTransferAccount::valid_as_destination] *)
Definition valid_as_destination c : res unit :=
  approved c;;
  throw_if (negb (pod_bool (cta_allow_confidential_credits c)))
    (tok ConfidentialTransferDepositsAndTransfersDisabled);;
  new_destination_pending_balance_credit_counter ←
    ok_or (checked_add 64 (cta_pending_balance_credit_counter c) 1) (tok Overflow);
  throw_if (cta_maximum_pending_balance_credit_counter c <?
            new_destination_pending_balance_credit_counter)
    (tok MaximumPendingBalanceCreditCounterExceeded).

(** [ConfidentialTransferAccount::increment_pending_balance_credit_counter] *)
Definition increment_pending_balance_credit_counter c : res ConfidentialTransferAccount :=
  counter ← ok_or (checked_add 64 (cta_pending_balance_credit_counter c) 1) (tok Overflow);
  Ok (set_credit_counters counter (cta_expected_pending_balance_credit_counter c)
        (cta_actual_pending_balance_credit_counter c) c).
End fields.

(** [ElGamalRegistry] of [confidential/elgamal-registry-interface/src/state.rs] *)
Record ElGamalRegistry := mkElGamalRegistry {
  er_owner : Pubkey;
  er_elgamal_pubkey : list byte;
}.
Program Definition ElGamalRegistry_codec `{Runtime} : codec ElGamalRegistry :=
  iso_codec (pair_codec pubkey elgamal_pubkey_codec) (λ '(x0, x1), mkElGamalRegistry x0 x1)
    (λ s, (er_owner s, er_elgamal_pubkey s)) _ _.
Solve All Obligations with solve_iso.

Definition elgamal_registry_id `{Runtime} : Pubkey :=
  declare_id "regVYJW7tcT8zipN5YiBvHsvR5jXW1uLFxaHSbugABg".

(** [check_elgamal_registry_program_account] *)
Definition check_elgamal_registry_program_account `{Runtime} (program : Pubkey) : res unit :=
  throw_if (negb (program =? elgamal_registry_id)) IncorrectProgramId.

(** [check_auditor_ciphertext] of [program/src/lib.rs] *)
Definition check_auditor_ciphertext (instruction_data_auditor_ciphertext_lo
    instruction_data_auditor_ciphertext_hi proof_context_auditor_ciphertext_lo
    proof_context_auditor_ciphertext_hi : PodElGamalCiphertext) : res unit :=
  throw_if (negb (bool_decide (instruction_data_auditor_ciphertext_lo =
                               proof_context_auditor_ciphertext_lo)))
    (tok ConfidentialTransferBalanceMismatch);;
  throw_if (negb (bool_decide (instruction_data_auditor_ciphertext_hi =
                               proof_context_auditor_ciphertext_hi)))
    (tok ConfidentialTransferBalanceMismatch).

(** [verify_and_split_deposit_amount] *)
Definition verify_and_split_deposit_amount (amount : Z) : res (Z * Z) :=
  throw_if (MAXIMUM_DEPOSIT_TRANSFER_AMOUNT <? amount) (tok MaximumDepositAmountExceeded);;
  let deposit_amount_lo := Z.land amount (2 ^ 16 - 1) in
  let deposit_amount_hi := Z.shiftr amount 16 in
  Ok (deposit_amount_lo, deposit_amount_hi).

(** [if extension.paused.into() { return Err(TokenError::MintPaused.into()) }] *)
Definition check_running `{Runtime} (tlv : list byte) : res unit :=
  match get_mint_ext PausableConfig tlv with
  | Ok extension => throw_if (pod_bool (pc_paused extension)) (tok MintPaused)
  | _ => Ok tt
  end.

(** [map_err(TokenError::from)] of an error of proof extraction *)
Definition from_proof {A} (r : result TokenProofExtractionError A) : res A :=
  map_err (λ e, tok (proof_error e)) r.

(** [.ok_or(TokenError::CiphertextArithmeticFailed)] *)
Definition computed {A} (o : option A) : res A := ok_or o (tok CiphertextArithmeticFailed).

(** ** [verify_proof.rs] *)
Section verify.
Context `{curve : Curve} `{zk : ZkSdk}.
Implicit Types (w : world) (accounts : list AccountInfo) (held : list Pubkey).

(** The instructions sysvar is passed once when some proof is in an instruction. *)
Definition proof_sysvar (offsets : list Z) accounts :
    res (option AccountInfo * list AccountInfo) :=
  if existsb (λ offset, negb (offset =? 0)) offsets then
    '(sysvar_account_info, accounts) ← next_account_info accounts;
    Ok (Some sysvar_account_info, accounts)
  else Ok (None, accounts).

(** [verify_withdraw_proof] *)
Definition verify_withdraw_proof held w accounts
    (equality_proof_instruction_offset range_proof_instruction_offset : Z) :
    res (WithdrawProofContext * list AccountInfo) :=
  '(sysvar, accounts) ←
    proof_sysvar [equality_proof_instruction_offset; range_proof_instruction_offset] accounts;
  '(equality_proof_context, accounts) ←
    verify_and_extract_context ProofType.CiphertextCommitmentEquality held w accounts
      equality_proof_instruction_offset sysvar;
  '(range_proof_context, accounts) ←
    verify_and_extract_context ProofType.BatchedRangeProofU64 held w accounts
      range_proof_instruction_offset sysvar;
  context ← from_proof (verify_and_extract_withdraw equality_proof_context range_proof_context);
  Ok (context, accounts).

(** [verify_transfer_proof] *)
Definition verify_transfer_proof held w accounts (equality_proof_instruction_offset
    ciphertext_validity_proof_instruction_offset range_proof_instruction_offset : Z) :
    res (TransferProofContext * list AccountInfo) :=
  '(sysvar, accounts) ←
    proof_sysvar [equality_proof_instruction_offset;
      ciphertext_validity_proof_instruction_offset; range_proof_instruction_offset] accounts;
  '(equality_proof_context, accounts) ←
    verify_and_extract_context ProofType.CiphertextCommitmentEquality held w accounts
      equality_proof_instruction_offset sysvar;
  '(ciphertext_validity_proof_context, accounts) ←
    verify_and_extract_context ProofType.BatchedGroupedCiphertext3HandlesValidity held w accounts
      ciphertext_validity_proof_instruction_offset sysvar;
  '(range_proof_context, accounts) ←
    verify_and_extract_context ProofType.BatchedRangeProofU128 held w accounts
      range_proof_instruction_offset sysvar;
  context ← from_proof (verify_and_extract_transfer equality_proof_context
                          ciphertext_validity_proof_context range_proof_context);
  Ok (context, accounts).

(** [verify_transfer_with_fee_proof] *)
Definition verify_transfer_with_fee_proof held w accounts (equality_proof_instruction_offset
    transfer_amount_ciphertext_validity_proof_instruction_offset
    fee_sigma_proof_instruction_offset fee_ciphertext_validity_proof_instruction_offset
    range_proof_instruction_offset : Z) (fee_parameters : TransferFee) :
    res (TransferWithFeeProofContext * list AccountInfo) :=
  '(sysvar, accounts) ←
    proof_sysvar [equality_proof_instruction_offset;
      transfer_amount_ciphertext_validity_proof_instruction_offset;
      fee_sigma_proof_instruction_offset; fee_ciphertext_validity_proof_instruction_offset;
      range_proof_instruction_offset] accounts;
  '(equality_proof_context, accounts) ←
    verify_and_extract_context ProofType.CiphertextCommitmentEquality held w accounts
      equality_proof_instruction_offset sysvar;
  '(transfer_amount_ciphertext_validity_proof_context, accounts) ←
    verify_and_extract_context ProofType.BatchedGroupedCiphertext3HandlesValidity held w accounts
      transfer_amount_ciphertext_validity_proof_instruction_offset sysvar;
  '(fee_sigma_proof_context, accounts) ←
    verify_and_extract_context ProofType.PercentageWithCap held w accounts
      fee_sigma_proof_instruction_offset sysvar;
  '(fee_ciphertext_validity_proof_context, accounts) ←
    verify_and_extract_context ProofType.BatchedGroupedCiphertext2HandlesValidity held w accounts
      fee_ciphertext_validity_proof_instruction_offset sysvar;
  '(range_proof_context, accounts) ←
    verify_and_extract_context ProofType.BatchedRangeProofU256 held w accounts
      range_proof_instruction_offset sysvar;
  context ← from_proof
    (verify_and_extract_transfer_with_fee equality_proof_context
       transfer_amount_ciphertext_validity_proof_context fee_sigma_proof_context
       fee_ciphertext_validity_proof_context range_proof_context
       (tf_transfer_fee_basis_points fee_parameters) (tf_maximum_fee fee_parameters));
  Ok (context, accounts).
End verify.
