(* ===== verification/ConfidentialTransferOps.v ===== *)
(** * Handlers of the confidential transfer extension

    [program/src/extension/confidential_transfer/processor.rs].  Where the source
    has the same run of checks in several handlers, it is one definition here. *)
From S2P Require Import Prelude Codec Errors Runtime Pod State ExtensionType ExtensionData Tlv.
From S2P Require Import TlvAlloc StateExt PackedExt Fee Authority Transfer AccountFacts AccountOps.
From S2P Require Import InitOps Instruction TransferFeeOps SystemOps CiphertextOps ProofExtraction.
From S2P Require Import ConfidentialOps.

(** [check_program_account], [borrow_mut] and [unpack] of a token account. *)
Definition open_account `{Runtime} (held : list Pubkey) (w : world) (i : AccountInfo) :
    res (PodStateMut PodAccount) :=
  check_program_account (info_owner w i);;
  token_account_data ← borrow held w i;
  unpack_account token_account_data.

(** The same of a mint, *)
Definition open_mint `{Runtime} (held : list Pubkey) (w : world) (i : AccountInfo) :
    res (PodStateMut PodMint) :=
  check_program_account (info_owner w i);;
  mint_data ← borrow held w i;
  unpack_mint mint_data.

(** and of a mint that is only read. *)
Definition open_mint_ref `{Runtime} (held : list Pubkey) (w : world) (i : AccountInfo) :
    res (PodStateRef PodMint) :=
  check_program_account (info_owner w i);;
  mint_data ← borrow held w i;
  unpack_ref PodMint mint_data.

Module confidential_transfer.
Section handlers.
Context `{rt : Runtime} `{sp : !SystemProgram} `{curve : Curve} `{zk : !ZkSdk}.
Implicit Types (w : world) (accounts : list AccountInfo).
Implicit Types (token_account : PodStateMut PodAccount).

(** [process_initialize_mint] *)
Definition process_initialize_mint accounts (authority : Pubkey) (auto_approve_new_account : Z)
    (auditor_encryption_pubkey : PodElGamalPubkey) w : res world :=
  '(mint_info, accounts) ← next_account_info accounts;
  check_program_account (info_owner w mint_info);;
  mint_data ← borrow [] w mint_info;
  mint ← unpack_uninitialized PodMint mint_data;
  tlv ← init_extension PodMint ConfidentialTransferMint true (tlv_data mint);
  let extension :=
    mkConfidentialTransferMint authority auto_approve_new_account auditor_encryption_pubkey in
  Ok (write_mint w mint_info (put_mint_ext extension (with_tlv tlv mint))).

(** [process_update_mint] *)
Definition process_update_mint accounts (auto_approve_new_account : Z)
    (auditor_encryption_pubkey : PodElGamalPubkey) w : res world :=
  '(mint_info, accounts) ← next_account_info accounts;
  '(authority_info, accounts) ← next_account_info accounts;
  mint ← open_mint [] w mint_info;
  confidential_transfer_mint ← get_mint_ext ConfidentialTransferMint (tlv_data mint);
  authority ←
    ok_or (optional_get (ctm_authority confidential_transfer_mint)) (tok NoAuthorityExists);
  throw_if (negb (is_signer authority_info)) MissingRequiredSignature;;
  throw_if (negb (authority =? key authority_info)) (tok OwnerMismatch);;
  let extension := mkConfidentialTransferMint (ctm_authority confidential_transfer_mint)
                     auto_approve_new_account auditor_encryption_pubkey in
  Ok (write_mint w mint_info (put_mint_ext extension mint)).

Inductive ElGamalPubkeySource :=
| ProofInstructionOffset (offset : Z)
| RegistrySource (registry_info : AccountInfo) (registry : ElGamalRegistry).

(** The fields [process_configure_account] gives the new extension. *)
Definition configured (confidential_transfer_mint : ConfidentialTransferMint)
    (elgamal_pubkey : PodElGamalPubkey) (maximum_pending_balance_credit_counter : Z)
    (decryptable_zero_balance : list byte) : ConfidentialTransferAccount :=
  mkConfidentialTransferAccount (ctm_auto_approve_new_accounts confidential_transfer_mint)
    elgamal_pubkey zeroed_ciphertext zeroed_ciphertext zeroed_ciphertext decryptable_zero_balance
    (from_bool true) (from_bool true) 0 maximum_pending_balance_credit_counter 0 0.

(** [process_configure_account]; the data of a registry stays borrowed. *)
Definition process_configure_account (program_id : Pubkey) accounts
    (decryptable_zero_balance : list byte) (maximum_pending_balance_credit_counter : Z)
    (elgamal_pubkey_source : ElGamalPubkeySource) w : res world :=
  '(token_account_info, accounts) ← next_account_info accounts;
  '(mint_info, accounts) ← next_account_info accounts;
  '(elgamal_pubkey, accounts) ←
    (match elgamal_pubkey_source with
     | ProofInstructionOffset offset =>
         '(proof_context, accounts) ←
           verify_and_extract_context ProofType.PubkeyValidity [] w accounts offset None;
         Ok (pv_pubkey proof_context, accounts)
     | RegistrySource _ registry =>
         '(_, accounts) ← next_account_info accounts;
         Ok (er_elgamal_pubkey registry, accounts)
     end);
  let held := match elgamal_pubkey_source with
              | ProofInstructionOffset _ => []
              | RegistrySource registry_info _ => [key registry_info]
              end in
  token_account ← open_account held w token_account_info;
  throw_if (negb (acc_mint (base token_account) =? key mint_info)) (tok MintMismatch);;
  (match elgamal_pubkey_source with
   | ProofInstructionOffset _ =>
       '(authority_info, accounts) ← next_account_info accounts;
       let authority_info_data_len := data_len w authority_info in
       validate_owner [key token_account_info] w program_id (acc_owner (base token_account))
         authority_info authority_info_data_len accounts
   | RegistrySource _ registry =>
       throw_if (negb (er_owner registry =? acc_owner (base token_account))) (tok OwnerMismatch)
   end);;
  mint ← open_mint_ref [key token_account_info] w mint_info;
  confidential_transfer_mint ← get_mint_ext ConfidentialTransferMint (ref_tlv mint);
  tlv ← init_extension PodAccount ConfidentialTransferAccount false (tlv_data token_account);
  let token_account :=
    put_account_ext (configured confidential_transfer_mint elgamal_pubkey
                       maximum_pending_balance_credit_counter decryptable_zero_balance)
      (with_tlv tlv token_account) in
  token_account ←
    (if is_ok (get_mint_ext TransferFeeConfig (ref_tlv mint)) then
       tlv ← init_extension PodAccount ConfidentialTransferFeeAmount false (tlv_data token_account);
       Ok (put_account_ext (mkConfidentialTransferFeeAmount zeroed_ciphertext)
             (with_tlv tlv token_account))
     else Ok token_account);
  Ok (write_account w token_account_info token_account).

(** [reallocate_for_configure_account_with_registry] *)
Definition reallocate_for_configure_account_with_registry
    (token_account_info payer_info system_program_info : AccountInfo) w : res world :=
  token_account ← borrow [] w token_account_info;
  account ← unpack_ref PodAccount token_account;
  current_extension_types ← get_extension_types (ref_tlv account);
  let current_extension_types :=
    current_extension_types ++ [ExtensionType.ConfidentialTransferAccount] in
  let current_extension_types :=
    if bool_decide (ExtensionType.TransferFeeAmount ∈ current_extension_types)
    then current_extension_types ++ [ExtensionType.ConfidentialTransferFeeAmount]
    else current_extension_types in
  needed_account_len ← try_calculate_account_len Account current_extension_types;
  if (needed_account_len <=? data_len w token_account_info)%nat then Ok w
  else
    w ← resize w (key token_account_info) needed_account_len;
    rent ← rent_get;
    let new_rent_exempt_reserve := minimum_balance rent needed_account_len in
    let current_lamport_reserve := info_lamports w token_account_info in
    let lamports_diff := saturating_sub new_rent_exempt_reserve current_lamport_reserve in
    w ← (if 0 <? lamports_diff
         then system_transfer payer_info token_account_info system_program_info lamports_diff w
         else Ok w);
    token_account_data ← borrow [] w token_account_info;
    token_account_data ← set_account_type Account token_account_data;
    Ok (set_data w (key token_account_info) token_account_data).

(** [process_configure_account_with_registry] *)
Definition process_configure_account_with_registry (program_id : Pubkey) accounts w : res world :=
  let all_accounts := accounts in
  '(token_account_info, accounts) ← next_account_info accounts;
  '(_, accounts) ← next_account_info accounts;
  '(elgamal_registry_account, accounts) ← next_account_info accounts;
  check_elgamal_registry_program_account (info_owner w elgamal_registry_account);;
  w ← (match accounts with
       | payer_info :: accounts =>
           '(system_program_info, _) ← next_account_info accounts;
           reallocate_for_configure_account_with_registry token_account_info payer_info
             system_program_info w
       | [] => Ok w
       end);
  elgamal_registry_account_data ← borrow [] w elgamal_registry_account;
  registry ← pod_from_bytes ElGamalRegistry_codec elgamal_registry_account_data;
  let decryptable_zero_balance := zeros ae_ciphertext_len in
  process_configure_account program_id all_accounts decryptable_zero_balance
    DEFAULT_MAXIMUM_PENDING_BALANCE_CREDIT_COUNTER
    (RegistrySource elgamal_registry_account registry) w.

(** [process_approve_account] *)
Definition process_approve_account accounts w : res world :=
  '(token_account_info, accounts) ← next_account_info accounts;
  '(mint_info, accounts) ← next_account_info accounts;
  '(authority_info, accounts) ← next_account_info accounts;
  token_account ← open_account [] w token_account_info;
  throw_if (negb (key mint_info =? acc_mint (base token_account))) (tok MintMismatch);;
  mint ← open_mint_ref [key token_account_info] w mint_info;
  confidential_transfer_mint ← get_mint_ext ConfidentialTransferMint (ref_tlv mint);
  authority ←
    ok_or (optional_get (ctm_authority confidential_transfer_mint)) (tok NoAuthorityExists);
  if is_signer authority_info && (key authority_info =? authority) then
    confidential_transfer_state ←
      get_account_ext ConfidentialTransferAccount (tlv_data token_account);
    Ok (write_account w token_account_info
          (put_account_ext (set_approved (from_bool true) confidential_transfer_state)
             token_account))
  else Err MissingRequiredSignature.

(** A token account and the owner's authority over it: [open_account] and
    [validate_owner] with the accounts that follow as signers. *)
Definition open_owned (program_id : Pubkey) (held : list Pubkey) w
    (token_account_info authority_info : AccountInfo) (signers : list AccountInfo) :
    res (PodStateMut PodAccount) :=
  token_account ← open_account held w token_account_info;
  validate_owner (key token_account_info :: held) w program_id (acc_owner (base token_account))
    authority_info (data_len w authority_info) signers;;
  Ok token_account.

(** [process_empty_account] *)
Definition process_empty_account (program_id : Pubkey) accounts (proof_instruction_offset : Z) w :
    res world :=
  '(token_account_info, accounts) ← next_account_info accounts;
  '(proof_context, accounts) ←
    verify_and_extract_context ProofType.ZeroCiphertext [] w accounts proof_instruction_offset None;
  '(authority_info, accounts) ← next_account_info accounts;
  token_account ← open_owned program_id [] w token_account_info authority_info accounts;
  c ← get_account_ext ConfidentialTransferAccount (tlv_data token_account);
  throw_if (negb (bool_decide (cta_elgamal_pubkey c = zc_pubkey proof_context)))
    (tok ConfidentialTransferElGamalPubkeyMismatch);;
  throw_if (negb (bool_decide (cta_available_balance c = zc_ciphertext proof_context)))
    (tok ConfidentialTransferBalanceMismatch);;
  let c := set_available_balance zeroed_ciphertext (cta_decryptable_available_balance c) c in
  ConfidentialTransferAccount_closable c;;
  Ok (write_account w token_account_info (put_account_ext c token_account)).

(** The checks [process_deposit] and [process_withdraw] share on the account whose
    tokens change form. *)
Definition open_convertible (program_id : Pubkey) w (token_account_info mint_info authority_info :
    AccountInfo) (authority_info_data_len : nat) (signers : list AccountInfo) :
    res (PodStateMut PodAccount) :=
  token_account ← open_account [key mint_info] w token_account_info;
  throw_if (is_ok (get_account_ext NonTransferableAccount (tlv_data token_account)))
    (tok Errors.NonTransferable);;
  validate_owner [key token_account_info; key mint_info] w program_id
    (acc_owner (base token_account)) authority_info authority_info_data_len signers;;
  throw_if (is_frozen (base token_account)) (tok AccountFrozen);;
  throw_if (negb (acc_mint (base token_account) =? key mint_info)) (tok MintMismatch);;
  throw_if (is_native (base token_account)) (tok NativeNotSupported);;
  Ok token_account.

(** The pending balances after a deposit: parts that are zero are not added. *)
Definition deposit_pending (amount_lo amount_hi : Z) (c : ConfidentialTransferAccount) :
    res ConfidentialTransferAccount :=
  lo ← (if 0 <? amount_lo
        then computed (ciphertext_arithmetic.add_to (cta_pending_balance_lo c) amount_lo)
        else Ok (cta_pending_balance_lo c));
  hi ← (if 0 <? amount_hi
        then computed (ciphertext_arithmetic.add_to (cta_pending_balance_hi c) amount_hi)
        else Ok (cta_pending_balance_hi c));
  increment_pending_balance_credit_counter (set_pending_balance lo hi c).

(** [process_deposit] *)
Definition process_deposit (program_id : Pubkey) accounts (amount expected_decimals : Z) w :
    res world :=
  '(token_account_info, accounts) ← next_account_info accounts;
  '(mint_info, accounts) ← next_account_info accounts;
  '(authority_info, accounts) ← next_account_info accounts;
  let authority_info_data_len := data_len w authority_info in
  mint ← open_mint_ref [] w mint_info;
  check_running (ref_tlv mint);;
  throw_if (negb (expected_decimals =? decimals (ref_base mint))) (tok MintDecimalsMismatch);;
  throw_if (is_ok (get_mint_ext ConfidentialMintBurn (ref_tlv mint)))
    (tok IllegalMintBurnConversion);;
  token_account ← open_convertible program_id w token_account_info mint_info authority_info
                    authority_info_data_len accounts;
  new_amount ←
    ok_or (checked_sub 64 (Pod.amount (base token_account)) amount) (tok Overflow);
  let token_account := with_base (set_amount new_amount (base token_account)) token_account in
  c ← get_account_ext ConfidentialTransferAccount (tlv_data token_account);
  valid_as_destination c;;
  '(amount_lo, amount_hi) ← verify_and_split_deposit_amount amount;
  c ← deposit_pending amount_lo amount_hi c;
  Ok (write_account w token_account_info (put_account_ext c token_account)).

(** [process_withdraw] *)
Definition process_withdraw (program_id : Pubkey) accounts (amount expected_decimals : Z)
    (new_decryptable_available_balance : list byte)
    (equality_proof_instruction_offset range_proof_instruction_offset : Z) w : res world :=
  '(token_account_info, accounts) ← next_account_info accounts;
  '(mint_info, accounts) ← next_account_info accounts;
  '(proof_context, accounts) ←
    verify_withdraw_proof [] w accounts equality_proof_instruction_offset
      range_proof_instruction_offset;
  '(authority_info, accounts) ← next_account_info accounts;
  let authority_info_data_len := data_len w authority_info in
  mint ← open_mint_ref [] w mint_info;
  throw_if (negb (expected_decimals =? decimals (ref_base mint))) (tok MintDecimalsMismatch);;
  throw_if (is_ok (get_mint_ext ConfidentialMintBurn (ref_tlv mint)))
    (tok IllegalMintBurnConversion);;
  check_running (ref_tlv mint);;
  token_account ← open_convertible program_id w token_account_info mint_info authority_info
                    authority_info_data_len accounts;
  c ← get_account_ext ConfidentialTransferAccount (tlv_data token_account);
  valid_as_source c;;
  throw_if (negb (bool_decide (cta_elgamal_pubkey c = wp_source_pubkey proof_context)))
    (tok ConfidentialTransferElGamalPubkeyMismatch);;
  available ← (if 0 <? amount
               then computed (ciphertext_arithmetic.subtract_from (cta_available_balance c) amount)
               else Ok (cta_available_balance c));
  throw_if (negb (bool_decide (available = wp_remaining_balance_ciphertext proof_context)))
    (tok ConfidentialTransferBalanceMismatch);;
  let token_account :=
    put_account_ext (set_available_balance available new_decryptable_available_balance c)
      token_account in
  new_amount ←
    ok_or (checked_add 64 (Pod.amount (base token_account)) amount) (tok Overflow);
  Ok (write_account w token_account_info
        (with_base (set_amount new_amount (base token_account)) token_account)).

(** The sending side of a transfer, [process_source_for_transfer] and
    [process_source_for_transfer_with_fee]: they differ in the context the key and
    the ciphertexts are taken from.  The mint stays borrowed. *)
Definition source_for_transfer (program_id : Pubkey) (source_account_info mint_info
    authority_info : AccountInfo) (signers : list AccountInfo) (source : PodElGamalPubkey)
    (ciphertext_lo ciphertext_hi : PodGroupedElGamalCiphertext)
    (new_source_ciphertext : PodElGamalCiphertext)
    (new_source_decryptable_available_balance : list byte) w : res world :=
  check_program_account (info_owner w source_account_info);;
  authority_data ← borrow [key mint_info] w authority_info;
  let authority_info_data_len := length authority_data in
  token_account_data ← borrow [key mint_info] w source_account_info;
  token_account ← unpack_account token_account_data;
  throw_if (is_ok (get_account_ext NonTransferableAccount (tlv_data token_account)))
    (tok Errors.NonTransferable);;
  validate_owner [key source_account_info; key mint_info] w program_id
    (acc_owner (base token_account)) authority_info authority_info_data_len signers;;
  throw_if (cpi_guard_blocks token_account authority_info) (tok CpiGuardTransferBlocked);;
  throw_if (is_frozen (base token_account)) (tok AccountFrozen);;
  throw_if (negb (acc_mint (base token_account) =? key mint_info)) (tok MintMismatch);;
  c ← get_account_ext ConfidentialTransferAccount (tlv_data token_account);
  valid_as_source c;;
  throw_if (negb (bool_decide (source = cta_elgamal_pubkey c)))
    (tok ConfidentialTransferElGamalPubkeyMismatch);;
  source_transfer_amount_lo ← from_proof (try_extract_ciphertext 3 ciphertext_lo 0);
  source_transfer_amount_hi ← from_proof (try_extract_ciphertext 3 ciphertext_hi 0);
  new_source_available_balance ←
    computed (ciphertext_arithmetic.subtract_with_lo_hi (cta_available_balance c)
                source_transfer_amount_lo source_transfer_amount_hi);
  throw_if (negb (bool_decide (new_source_available_balance = new_source_ciphertext)))
    (tok ConfidentialTransferBalanceMismatch);;
  Ok (write_account w source_account_info
        (put_account_ext (set_available_balance new_source_available_balance
                            new_source_decryptable_available_balance c) token_account)).

Definition process_source_for_transfer (program_id : Pubkey) (source_account_info mint_info
    authority_info : AccountInfo) (signers : list AccountInfo)
    (proof_context : TransferProofContext) (new_source_decryptable_available_balance : list byte)
    w : res world :=
  source_for_transfer program_id source_account_info mint_info authority_info signers
    (tp_source (tp_transfer_pubkeys proof_context)) (tp_ciphertext_lo proof_context)
    (tp_ciphertext_hi proof_context) (tp_new_source_ciphertext proof_context)
    new_source_decryptable_available_balance w.

Definition process_source_for_transfer_with_fee (program_id : Pubkey) (source_account_info
    mint_info authority_info : AccountInfo) (signers : list AccountInfo)
    (proof_context : TransferWithFeeProofContext)
    (new_source_decryptable_available_balance : list byte) w : res world :=
  source_for_transfer program_id source_account_info mint_info authority_info signers
    (tfp_source (tfp_transfer_with_fee_pubkeys proof_context)) (tfp_ciphertext_lo proof_context)
    (tfp_ciphertext_hi proof_context) (tfp_new_source_ciphertext proof_context)
    new_source_decryptable_available_balance w.

(** What both receiving sides do: the checks, and the amount added to the pending
    balance. *)
Definition credit_pending (destination : PodElGamalPubkey)
    (ciphertext_lo ciphertext_hi : PodGroupedElGamalCiphertext) (index : nat)
    (c : ConfidentialTransferAccount) : res ConfidentialTransferAccount :=
  throw_if (negb (bool_decide (destination = cta_elgamal_pubkey c)))
    (tok ConfidentialTransferElGamalPubkeyMismatch);;
  destination_ciphertext_lo ← from_proof (try_extract_ciphertext 3 ciphertext_lo index);
  destination_ciphertext_hi ← from_proof (try_extract_ciphertext 3 ciphertext_hi index);
  lo ← computed (ciphertext_arithmetic.add (cta_pending_balance_lo c) destination_ciphertext_lo);
  hi ← computed (ciphertext_arithmetic.add (cta_pending_balance_hi c) destination_ciphertext_hi);
  increment_pending_balance_credit_counter (set_pending_balance lo hi c).

Definition destination_for_transfer (destination_account_info mint_info : AccountInfo)
    (destination : PodElGamalPubkey) (ciphertext_lo ciphertext_hi : PodGroupedElGamalCiphertext)
    w : res (ConfidentialTransferAccount * PodStateMut PodAccount) :=
  token_account ← open_account [key mint_info] w destination_account_info;
  throw_if (is_frozen (base token_account)) (tok AccountFrozen);;
  throw_if (negb (acc_mint (base token_account) =? key mint_info)) (tok MintMismatch);;
  (if memo_required PodAccount (tlv_data token_account)
   then check_previous_sibling_instruction_is_memo else Ok tt);;
  c ← get_account_ext ConfidentialTransferAccount (tlv_data token_account);
  valid_as_destination c;;
  c ← credit_pending destination ciphertext_lo ciphertext_hi 1 c;
  Ok (c, token_account).

(** [process_destination_for_transfer] *)
Definition process_destination_for_transfer (destination_account_info mint_info : AccountInfo)
    (proof_context : TransferProofContext) w : res world :=
  '(c, token_account) ←
    destination_for_transfer destination_account_info mint_info
      (tp_destination (tp_transfer_pubkeys proof_context)) (tp_ciphertext_lo proof_context)
      (tp_ciphertext_hi proof_context) w;
  Ok (write_account w destination_account_info (put_account_ext c token_account)).

(** [process_destination_for_transfer_with_fee] *)
Definition process_destination_for_transfer_with_fee (destination_account_info mint_info :
    AccountInfo) (proof_context : TransferWithFeeProofContext) (is_self_transfer : bool) w :
    res world :=
  '(c, token_account) ←
    destination_for_transfer destination_account_info mint_info
      (tfp_destination (tfp_transfer_with_fee_pubkeys proof_context))
      (tfp_ciphertext_lo proof_context) (tfp_ciphertext_hi proof_context) w;
  if is_self_transfer then
    Ok (write_account w destination_account_info (put_account_ext c token_account))
  else
    let fee_lo := tfp_fee_ciphertext_lo proof_context in
    let fee_hi := tfp_fee_ciphertext_hi proof_context in
    destination_fee_lo ← from_proof (try_extract_ciphertext 2 fee_lo 0);
    destination_fee_hi ← from_proof (try_extract_ciphertext 2 fee_hi 0);
    lo ← computed (ciphertext_arithmetic.subtract (cta_pending_balance_lo c) destination_fee_lo);
    hi ← computed (ciphertext_arithmetic.subtract (cta_pending_balance_hi c) destination_fee_hi);
    let token_account := put_account_ext (set_pending_balance lo hi c) token_account in
    withdraw_withheld_authority_fee_lo ← from_proof (try_extract_ciphertext 2 fee_lo 1);
    withdraw_withheld_authority_fee_hi ← from_proof (try_extract_ciphertext 2 fee_hi 1);
    fee_amount ← get_account_ext ConfidentialTransferFeeAmount (tlv_data token_account);
    withheld_amount ←
      computed (ciphertext_arithmetic.add_with_lo_hi (ctfa_withheld_amount fee_amount)
                  withdraw_withheld_authority_fee_lo withdraw_withheld_authority_fee_hi);
    Ok (write_account w destination_account_info
          (put_account_ext (mkConfidentialTransferFeeAmount withheld_amount) token_account)).

(** The two ways of [process_transfer] to move the amount, with and without a fee:
    the authority, its signers and the world after it. *)
Definition transfer_without_fee (program_id : Pubkey) (source_account_info mint_info
    destination_account_info : AccountInfo) accounts
    (confidential_transfer_mint : ConfidentialTransferMint)
    (new_source_decryptable_available_balance : list byte)
    (transfer_amount_auditor_ciphertext_lo transfer_amount_auditor_ciphertext_hi :
       PodElGamalCiphertext)
    (equality_proof_instruction_offset
       transfer_amount_ciphertext_validity_proof_instruction_offset
       range_proof_instruction_offset : Z) w : res (AccountInfo * list AccountInfo * world) :=
  '(proof_context, accounts) ←
    verify_transfer_proof [key mint_info] w accounts equality_proof_instruction_offset
      transfer_amount_ciphertext_validity_proof_instruction_offset range_proof_instruction_offset;
  '(authority_info, accounts) ← next_account_info accounts;
  throw_if (negb (bool_decide (ctm_auditor_elgamal_pubkey confidential_transfer_mint =
                               tp_auditor (tp_transfer_pubkeys proof_context))))
    (tok ConfidentialTransferElGamalPubkeyMismatch);;
  auditor_ciphertext_lo ← from_proof (try_extract_ciphertext 3 (tp_ciphertext_lo proof_context) 2);
  auditor_ciphertext_hi ← from_proof (try_extract_ciphertext 3 (tp_ciphertext_hi proof_context) 2);
  check_auditor_ciphertext transfer_amount_auditor_ciphertext_lo
    transfer_amount_auditor_ciphertext_hi auditor_ciphertext_lo auditor_ciphertext_hi;;
  w ← process_source_for_transfer program_id source_account_info mint_info authority_info
        accounts proof_context new_source_decryptable_available_balance w;
  w ← process_destination_for_transfer destination_account_info mint_info proof_context w;
  Ok (authority_info, accounts, w).

Definition transfer_with_fee (program_id : Pubkey) (source_account_info mint_info
    destination_account_info : AccountInfo) accounts (mint : PodStateRef PodMint)
    (confidential_transfer_mint : ConfidentialTransferMint)
    (new_source_decryptable_available_balance : list byte)
    (transfer_amount_auditor_ciphertext_lo transfer_amount_auditor_ciphertext_hi :
       PodElGamalCiphertext)
    (equality_proof_instruction_offset
       transfer_amount_ciphertext_validity_proof_instruction_offset : Z)
    (fee_sigma_proof_instruction_offset fee_ciphertext_validity_proof_instruction_offset : option Z)
    (range_proof_instruction_offset : Z) w : res (AccountInfo * list AccountInfo * world) :=
  transfer_fee_config ← get_mint_ext TransferFeeConfig (ref_tlv mint);
  clock ← clock_get;
  let fee_parameters := get_epoch_fee transfer_fee_config (epoch clock) in
  fee_sigma_offset ← ok_or fee_sigma_proof_instruction_offset InvalidInstructionData;
  fee_ciphertext_validity_offset ←
    ok_or fee_ciphertext_validity_proof_instruction_offset InvalidInstructionData;
  '(proof_context, accounts) ←
    verify_transfer_with_fee_proof [key mint_info] w accounts equality_proof_instruction_offset
      transfer_amount_ciphertext_validity_proof_instruction_offset fee_sigma_offset
      fee_ciphertext_validity_offset range_proof_instruction_offset fee_parameters;
  '(authority_info, accounts) ← next_account_info accounts;
  let pubkeys := tfp_transfer_with_fee_pubkeys proof_context in
  throw_if (negb (bool_decide (ctm_auditor_elgamal_pubkey confidential_transfer_mint =
                               tfp_auditor pubkeys)))
    (tok ConfidentialTransferElGamalPubkeyMismatch);;
  confidential_transfer_fee_config ← get_mint_ext ConfidentialTransferFeeConfig (ref_tlv mint);
  throw_if
    (negb (bool_decide (tfp_withdraw_withheld_authority pubkeys =
       ctfc_withdraw_withheld_authority_elgamal_pubkey confidential_transfer_fee_config)))
    (tok ConfidentialTransferElGamalPubkeyMismatch);;
  auditor_ciphertext_lo ← from_proof (try_extract_ciphertext 3 (tfp_ciphertext_lo proof_context) 2);
  auditor_ciphertext_hi ← from_proof (try_extract_ciphertext 3 (tfp_ciphertext_hi proof_context) 2);
  check_auditor_ciphertext transfer_amount_auditor_ciphertext_lo
    transfer_amount_auditor_ciphertext_hi auditor_ciphertext_lo auditor_ciphertext_hi;;
  w ← process_source_for_transfer_with_fee program_id source_account_info mint_info
        authority_info accounts proof_context new_source_decryptable_available_balance w;
  let is_self_transfer := key source_account_info =? key destination_account_info in
  w ← process_destination_for_transfer_with_fee destination_account_info mint_info proof_context
        is_self_transfer w;
  Ok (authority_info, accounts, w).

(** Borrow an account and set its transferring flag, as the hook's caller does. *)
Definition mark_transferring (mint_info i : AccountInfo) w : res world :=
  account_data ← borrow [key mint_info] w i;
  account ← unpack_account account_data;
  tlv ← set_transferring PodAccount (tlv_data account);
  Ok (write_account w i (with_tlv tlv account)).

(** The call of the transfer hook, with an amount that is not known. *)
Definition confidential_hook_call (program_id : Pubkey) (source_account_info mint_info
    destination_account_info authority_info : AccountInfo) accounts w : res world :=
  w ← mark_transferring mint_info source_account_info w;
  w ← mark_transferring mint_info destination_account_info w;
  w ← invoke_execute program_id source_account_info mint_info destination_account_info
        authority_info accounts (2 ^ 64 - 1) w;
  w ← unset_transferring [] w source_account_info;
  unset_transferring [] w destination_account_info.

(** [process_transfer] *)
Definition process_transfer (program_id : Pubkey) accounts
    (new_source_decryptable_available_balance : list byte)
    (transfer_amount_auditor_ciphertext_lo transfer_amount_auditor_ciphertext_hi :
       PodElGamalCiphertext)
    (equality_proof_instruction_offset
       transfer_amount_ciphertext_validity_proof_instruction_offset : Z)
    (fee_sigma_proof_instruction_offset fee_ciphertext_validity_proof_instruction_offset : option Z)
    (range_proof_instruction_offset : Z) w : res world :=
  '(source_account_info, accounts) ← next_account_info accounts;
  '(mint_info, accounts) ← next_account_info accounts;
  '(destination_account_info, accounts) ← next_account_info accounts;
  mint ← open_mint_ref [] w mint_info;
  check_running (ref_tlv mint);;
  confidential_transfer_mint ← get_mint_ext ConfidentialTransferMint (ref_tlv mint);
  '(authority_info, accounts, w) ←
    (if negb (is_ok (get_mint_ext TransferFeeConfig (ref_tlv mint))) then
       transfer_without_fee program_id source_account_info mint_info destination_account_info
         accounts confidential_transfer_mint new_source_decryptable_available_balance
         transfer_amount_auditor_ciphertext_lo transfer_amount_auditor_ciphertext_hi
         equality_proof_instruction_offset
         transfer_amount_ciphertext_validity_proof_instruction_offset
         range_proof_instruction_offset w
     else
       transfer_with_fee program_id source_account_info mint_info destination_account_info
         accounts mint confidential_transfer_mint new_source_decryptable_available_balance
         transfer_amount_auditor_ciphertext_lo transfer_amount_auditor_ciphertext_hi
         equality_proof_instruction_offset
         transfer_amount_ciphertext_validity_proof_instruction_offset
         fee_sigma_proof_instruction_offset fee_ciphertext_validity_proof_instruction_offset
         range_proof_instruction_offset w);
  match get_program_id PodMint (ref_tlv mint) with
  | Some program_id =>
      confidential_hook_call program_id source_account_info mint_info destination_account_info
        authority_info accounts w
  | None => Ok w
  end.

(** [process_apply_pending_balance] *)
Definition process_apply_pending_balance (program_id : Pubkey) accounts
    (expected_pending_balance_credit_counter : Z) (new_decryptable_available_balance : list byte)
    w : res world :=
  '(token_account_info, accounts) ← next_account_info accounts;
  '(authority_info, accounts) ← next_account_info accounts;
  token_account ← open_owned program_id [] w token_account_info authority_info accounts;
  c ← get_account_ext ConfidentialTransferAccount (tlv_data token_account);
  available ← computed (ciphertext_arithmetic.add_with_lo_hi (cta_available_balance c)
                          (cta_pending_balance_lo c) (cta_pending_balance_hi c));
  let c := set_credit_counters 0 expected_pending_balance_credit_counter
             (cta_pending_balance_credit_counter c)
             (set_available_balance available new_decryptable_available_balance c) in
  let c := set_pending_balance zeroed_ciphertext zeroed_ciphertext c in
  Ok (write_account w token_account_info (put_account_ext c token_account)).

(** [process_allow_confidential_credits] *)
Definition process_allow_confidential_credits (program_id : Pubkey) accounts
    (allow_confidential_credits : bool) w : res world :=
  '(token_account_info, accounts) ← next_account_info accounts;
  '(authority_info, accounts) ← next_account_info accounts;
  token_account ← open_owned program_id [] w token_account_info authority_info accounts;
  c ← get_account_ext ConfidentialTransferAccount (tlv_data token_account);
  let c := set_allow_credits (from_bool allow_confidential_credits)
             (cta_allow_non_confidential_credits c) c in
  Ok (write_account w token_account_info (put_account_ext c token_account)).

(** [process_allow_non_confidential_credits] *)
Definition process_allow_non_confidential_credits (program_id : Pubkey) accounts
    (allow_non_confidential_credits : bool) w : res world :=
  '(token_account_info, accounts) ← next_account_info accounts;
  '(authority_info, accounts) ← next_account_info accounts;
  token_account ← open_owned program_id [] w token_account_info authority_info accounts;
  c ← get_account_ext ConfidentialTransferAccount (tlv_data token_account);
  let c := set_allow_credits (cta_allow_confidential_credits c)
             (from_bool allow_non_confidential_credits) c in
  Ok (write_account w token_account_info (put_account_ext c token_account)).
End handlers.

(** ** The instructions *)
Inductive ConfidentialTransferInstruction :=
| InitializeMint | UpdateMint | ConfigureAccount | ApproveAccount | EmptyAccount
| Deposit | Withdraw | Transfer | ApplyPendingBalance | EnableConfidentialCredits
| DisableConfidentialCredits | EnableNonConfidentialCredits | DisableNonConfidentialCredits
| TransferWithFee | ConfigureAccountWithRegistry.
Definition instruction_try_from (b : Z) : option ConfidentialTransferInstruction :=
  [InitializeMint; UpdateMint; ConfigureAccount; ApproveAccount; EmptyAccount;
   Deposit; Withdraw; Transfer; ApplyPendingBalance; EnableConfidentialCredits;
   DisableConfidentialCredits; EnableNonConfidentialCredits; DisableNonConfidentialCredits;
   TransferWithFee; ConfigureAccountWithRegistry] !! Z.to_nat b.

Section data.
Context `{rt : Runtime}.
Local Open Scope codec_scope.

Definition InitializeMintData : codec (Pubkey * (Z * list byte)) :=
  pubkey ⊗ u8 ⊗ elgamal_pubkey_codec.
Definition UpdateMintData : codec (Z * list byte) := u8 ⊗ elgamal_pubkey_codec.
Definition ConfigureAccountInstructionData : codec (list byte * (Z * Z)) :=
  ae_ciphertext_codec ⊗ u64 ⊗ i8.
Definition EmptyAccountInstructionData : codec Z := i8.
Definition DepositInstructionData : codec (Z * Z) := u64 ⊗ u8.
Definition WithdrawInstructionData : codec (Z * (Z * (list byte * (Z * Z)))) :=
  u64 ⊗ u8 ⊗ ae_ciphertext_codec ⊗ i8 ⊗ i8.
Definition TransferInstructionData :
    codec (list byte * (list byte * (list byte * (Z * (Z * Z))))) :=
  ae_ciphertext_codec ⊗ ciphertext_codec ⊗ ciphertext_codec ⊗ i8 ⊗ i8 ⊗ i8.
Definition ApplyPendingBalanceData : codec (Z * list byte) := u64 ⊗ ae_ciphertext_codec.
Definition TransferWithFeeInstructionData :
    codec (list byte * (list byte * (list byte * (Z * (Z * (Z * (Z * Z))))))) :=
  ae_ciphertext_codec ⊗ ciphertext_codec ⊗ ciphertext_codec ⊗ i8 ⊗ i8 ⊗ i8 ⊗ i8 ⊗ i8.
End data.

(** [confidential_transfer::processor::process_instruction] *)
Definition process_instruction `{rt : Runtime} `{sp : !SystemProgram} `{curve : Curve}
    `{zk : !ZkSdk} (program_id : Pubkey) (accounts : list AccountInfo) (input : list byte)
    (w : world) : res world :=
  check_program_account program_id;;
  instruction ← decode_instruction_type instruction_try_from input;
  match instruction with
  | InitializeMint =>
      '(authority, (auto_approve_new_accounts, auditor_elgamal_pubkey)) ←
        decode_instruction_data InitializeMintData input;
      process_initialize_mint accounts authority auto_approve_new_accounts auditor_elgamal_pubkey w
  | UpdateMint =>
      '(auto_approve_new_accounts, auditor_elgamal_pubkey) ←
        decode_instruction_data UpdateMintData input;
      process_update_mint accounts auto_approve_new_accounts auditor_elgamal_pubkey w
  | ConfigureAccount =>
      '(decryptable_zero_balance, (maximum_counter, proof_offset)) ←
        decode_instruction_data ConfigureAccountInstructionData input;
      process_configure_account program_id accounts decryptable_zero_balance maximum_counter
        (ProofInstructionOffset proof_offset) w
  | ApproveAccount => process_approve_account accounts w
  | EmptyAccount =>
      proof_offset ← decode_instruction_data EmptyAccountInstructionData input;
      process_empty_account program_id accounts proof_offset w
  | Deposit =>
      '(amount, decimals) ← decode_instruction_data DepositInstructionData input;
      process_deposit program_id accounts amount decimals w
  | Withdraw =>
      '(amount, (decimals, (new_balance, (equality_offset, range_offset)))) ←
        decode_instruction_data WithdrawInstructionData input;
      process_withdraw program_id accounts amount decimals new_balance equality_offset
        range_offset w
  | Transfer =>
      '(new_balance, (auditor_lo, (auditor_hi,
          (equality_offset, (validity_offset, range_offset))))) ←
        decode_instruction_data TransferInstructionData input;
      process_transfer program_id accounts new_balance auditor_lo auditor_hi equality_offset
        validity_offset None None range_offset w
  | ApplyPendingBalance =>
      '(expected_counter, new_balance) ← decode_instruction_data ApplyPendingBalanceData input;
      process_apply_pending_balance program_id accounts expected_counter new_balance w
  | DisableConfidentialCredits => process_allow_confidential_credits program_id accounts false w
  | EnableConfidentialCredits => process_allow_confidential_credits program_id accounts true w
  | DisableNonConfidentialCredits =>
      process_allow_non_confidential_credits program_id accounts false w
  | EnableNonConfidentialCredits =>
      process_allow_non_confidential_credits program_id accounts true w
  | TransferWithFee =>
      '(new_balance, (auditor_lo, (auditor_hi, (equality_offset, (validity_offset,
          (fee_sigma_offset, (fee_validity_offset, range_offset))))))) ←
        decode_instruction_data TransferWithFeeInstructionData input;
      process_transfer program_id accounts new_balance auditor_lo auditor_hi equality_offset
        validity_offset (Some fee_sigma_offset) (Some fee_validity_offset) range_offset w
  | ConfigureAccountWithRegistry =>
      process_configure_account_with_registry program_id accounts w
  end.
End confidential_transfer.
