(* ===== verification/ConfidentialFeeOps.v ===== *)
(** * The confidential transfer fee extension's instructions

    [program/src/extension/confidential_transfer_fee/processor.rs]. *)
From S2P Require Import Prelude Codec Errors Runtime Pod State ExtensionType ExtensionData Tlv.
From S2P Require Import TlvAlloc StateExt PackedExt Fee Authority Transfer AccountFacts AccountOps.
From S2P Require Import InitOps Instruction TransferFeeOps SystemOps CiphertextOps ProofExtraction.
From S2P Require Import ConfidentialOps ConfidentialTransferOps.

Module confidential_transfer_fee.
(** Assignments to the fields of a [ConfidentialTransferFeeConfig] *)
Definition set_withheld_amount (v : PodElGamalCiphertext) (c : ConfidentialTransferFeeConfig) :
    ConfidentialTransferFeeConfig :=
  mkConfidentialTransferFeeConfig (ctfc_authority c)
    (ctfc_withdraw_withheld_authority_elgamal_pubkey c) (ctfc_harvest_to_mint_enabled c) v.
Definition set_harvest_enabled (v : Z) (c : ConfidentialTransferFeeConfig) :
    ConfidentialTransferFeeConfig :=
  mkConfidentialTransferFeeConfig (ctfc_authority c)
    (ctfc_withdraw_withheld_authority_elgamal_pubkey c) v (ctfc_withheld_amount c).

Section handlers.
Context `{rt : Runtime} `{curve : Curve} `{zk : !ZkSdk}.
Implicit Types (w : world) (accounts : list AccountInfo).
Implicit Types (destination_account : PodStateMut PodAccount).

(** [process_initialize_confidential_transfer_fee_config] *)
Definition process_initialize_confidential_transfer_fee_config accounts (authority : Pubkey)
    (withdraw_withheld_authority_elgamal_pubkey : PodElGamalPubkey) w : res world :=
  '(mint_account_info, accounts) ← next_account_info accounts;
  mint_data ← borrow [] w mint_account_info;
  mint ← unpack_uninitialized PodMint mint_data;
  tlv ← init_extension PodMint ConfidentialTransferFeeConfig true (tlv_data mint);
  let extension := mkConfidentialTransferFeeConfig authority
                     withdraw_withheld_authority_elgamal_pubkey (from_bool true)
                     zeroed_ciphertext in
  Ok (write_mint w mint_account_info (put_mint_ext extension (with_tlv tlv mint))).

(** The authority that may withdraw the withheld fees of a mint. *)
Definition withdraw_authority (mint : PodStateMut PodMint) : res Pubkey :=
  transfer_fee_config ← get_mint_ext TransferFeeConfig (tlv_data mint);
  ok_or (optional_get (tfc_withdraw_withheld_authority transfer_fee_config))
    (tok NoAuthorityExists).

(** The account that receives the fees, with the checks on it. *)
Definition open_fee_destination (mint_account_info destination_account_info : AccountInfo) w :
    res (PodStateMut PodAccount) :=
  destination_account ← open_account [key mint_account_info] w destination_account_info;
  throw_if (negb (acc_mint (base destination_account) =? key mint_account_info))
    (tok MintMismatch);;
  throw_if (is_frozen (base destination_account)) (tok AccountFrozen);;
  Ok destination_account.

(** The proof was made for the key of the mint and the key of the destination. *)
Definition check_fee_pubkeys (proof_context : CiphertextCiphertextEqualityProofContext)
    (config : ConfidentialTransferFeeConfig) (c : ConfidentialTransferAccount) : res unit :=
  throw_if (negb (bool_decide (cc_first_pubkey proof_context =
                               ctfc_withdraw_withheld_authority_elgamal_pubkey config)))
    (tok ConfidentialTransferElGamalPubkeyMismatch);;
  throw_if (negb (bool_decide (cc_second_pubkey proof_context = cta_elgamal_pubkey c)))
    (tok ConfidentialTransferElGamalPubkeyMismatch).

(** [process_withdraw_withheld_tokens_from_mint] *)
Definition process_withdraw_withheld_tokens_from_mint (program_id : Pubkey) accounts
    (new_decryptable_available_balance : list byte) (proof_instruction_offset : Z) w : res world :=
  '(mint_account_info, accounts) ← next_account_info accounts;
  '(destination_account_info, accounts) ← next_account_info accounts;
  '(proof_context, accounts) ←
    verify_and_extract_context ProofType.CiphertextCiphertextEquality [] w accounts
      proof_instruction_offset None;
  '(authority_info, accounts) ← next_account_info accounts;
  let authority_info_data_len := data_len w authority_info in
  mint ← open_mint [] w mint_account_info;
  withdraw_withheld_authority ← withdraw_authority mint;
  validate_owner [key mint_account_info] w program_id withdraw_withheld_authority authority_info
    authority_info_data_len accounts;;
  config ← get_mint_ext ConfidentialTransferFeeConfig (tlv_data mint);
  destination_account ← open_fee_destination mint_account_info destination_account_info w;
  c ← get_account_ext ConfidentialTransferAccount (tlv_data destination_account);
  valid_as_destination c;;
  check_fee_pubkeys proof_context config c;;
  throw_if (negb (bool_decide (cc_first_ciphertext proof_context = ctfc_withheld_amount config)))
    (tok ConfidentialTransferBalanceMismatch);;
  available ← computed (ciphertext_arithmetic.add (cta_available_balance c)
                          (cc_second_ciphertext proof_context));
  let c := set_available_balance available new_decryptable_available_balance c in
  let config := set_withheld_amount zeroed_ciphertext config in
  Ok (write_mint (write_account w destination_account_info (put_account_ext c destination_account))
        mint_account_info (put_mint_ext config mint)).

(** [harvest_from_account]: the amount harvested, and the world after it *)
Definition harvest_from_account (held : list Pubkey) (mint_key : Pubkey)
    (token_account_info : AccountInfo) w : result TokenError (PodElGamalCiphertext * world) :=
  match borrow held w token_account_info with
  | Ok token_account_data =>
      token_account ← map_err (λ _, InvalidState) (unpack_account token_account_data);
      throw_if (negb (acc_mint (base token_account) =? mint_key)) MintMismatch;;
      map_err (λ _, InvalidState) (check_program_account (info_owner w token_account_info));;
      fee_amount ← map_err (λ _, InvalidState)
        (get_account_ext ConfidentialTransferFeeAmount (tlv_data token_account));
      Ok (ctfa_withheld_amount fee_amount,
          write_account w token_account_info
            (put_account_ext (mkConfidentialTransferFeeAmount zeroed_ciphertext) token_account))
  | _ => Panic
  end.

(** The loop of [process_withdraw_withheld_tokens_from_accounts]: the sum of the
    withheld amounts, of the destination itself through the open view. *)
Fixpoint aggregate_withheld (mint_key : Pubkey) (destination_account_info : AccountInfo)
    (account_infos : list AccountInfo) (aggregate_withheld_amount : PodElGamalCiphertext)
    destination_account w : res (PodElGamalCiphertext * PodStateMut PodAccount * world) :=
  match account_infos with
  | [] => Ok (aggregate_withheld_amount, destination_account, w)
  | account_info :: infos =>
      if key account_info =? key destination_account_info then
        fee_amount ← map_err (λ _, tok InvalidState)
          (get_account_ext ConfidentialTransferFeeAmount (tlv_data destination_account));
        aggregate ← computed (ciphertext_arithmetic.add aggregate_withheld_amount
                                (ctfa_withheld_amount fee_amount));
        aggregate_withheld mint_key destination_account_info infos aggregate
          (put_account_ext (mkConfidentialTransferFeeAmount zeroed_ciphertext)
             destination_account) w
      else
        match harvest_from_account [mint_key; key destination_account_info] mint_key
                account_info w with
        | Ok (encrypted_withheld_amount, w) =>
            aggregate ← computed (ciphertext_arithmetic.add aggregate_withheld_amount
                                    encrypted_withheld_amount);
            aggregate_withheld mint_key destination_account_info infos aggregate
              destination_account w
        | Err _ =>
            aggregate_withheld mint_key destination_account_info infos
              aggregate_withheld_amount destination_account w
        | Panic => Panic
        end
  end.

(** [process_withdraw_withheld_tokens_from_accounts] *)
Definition process_withdraw_withheld_tokens_from_accounts (program_id : Pubkey) accounts
    (num_token_accounts : Z) (new_decryptable_available_balance : list byte)
    (proof_instruction_offset : Z) w : res world :=
  '(mint_account_info, accounts) ← next_account_info accounts;
  '(destination_account_info, accounts) ← next_account_info accounts;
  '(proof_context, accounts) ←
    verify_and_extract_context ProofType.CiphertextCiphertextEquality [] w accounts
      proof_instruction_offset None;
  '(authority_info, account_infos) ← next_account_info accounts;
  let authority_info_data_len := data_len w authority_info in
  let num_signers := (length account_infos - Z.to_nat num_token_accounts)%nat in
  mint ← open_mint [] w mint_account_info;
  withdraw_withheld_authority ← withdraw_authority mint;
  validate_owner [key mint_account_info] w program_id withdraw_withheld_authority authority_info
    authority_info_data_len (take num_signers account_infos);;
  destination_account ← open_fee_destination mint_account_info destination_account_info w;
  c ← get_account_ext ConfidentialTransferAccount (tlv_data destination_account);
  valid_as_destination c;;
  config ← get_mint_ext ConfidentialTransferFeeConfig (tlv_data mint);
  check_fee_pubkeys proof_context config c;;
  '(aggregate_withheld_amount, destination_account, w) ←
    aggregate_withheld (key mint_account_info) destination_account_info
      (drop num_signers account_infos) zeroed_ciphertext destination_account w;
  throw_if (negb (bool_decide (cc_first_ciphertext proof_context = aggregate_withheld_amount)))
    (tok ConfidentialTransferBalanceMismatch);;
  c ← get_account_ext ConfidentialTransferAccount (tlv_data destination_account);
  available ← ok_or (ciphertext_arithmetic.add (cta_available_balance c)
                       (cc_second_ciphertext proof_context)) InvalidInstructionData;
  let c := set_available_balance available new_decryptable_available_balance c in
  Ok (write_account w destination_account_info (put_account_ext c destination_account)).

(** The loop of [process_harvest_withheld_tokens_to_mint] *)
Fixpoint harvest_loop (mint_key : Pubkey) (token_account_infos : list AccountInfo)
    (withheld_amount : PodElGamalCiphertext) w : res (PodElGamalCiphertext * world) :=
  match token_account_infos with
  | [] => Ok (withheld_amount, w)
  | token_account_info :: infos =>
      match harvest_from_account [mint_key] mint_key token_account_info w with
      | Ok (amount, w) =>
          new_mint_withheld_amount ← computed (ciphertext_arithmetic.add withheld_amount amount);
          harvest_loop mint_key infos new_mint_withheld_amount w
      | Err _ => harvest_loop mint_key infos withheld_amount w
      | Panic => Panic
      end
  end.

(** [process_harvest_withheld_tokens_to_mint] *)
Definition process_harvest_withheld_tokens_to_mint accounts w : res world :=
  '(mint_account_info, token_account_infos) ← next_account_info accounts;
  mint ← open_mint [] w mint_account_info;
  _ ← get_mint_ext TransferFeeConfig (tlv_data mint);
  config ← get_mint_ext ConfidentialTransferFeeConfig (tlv_data mint);
  throw_if (negb (pod_bool (ctfc_harvest_to_mint_enabled config))) (tok HarvestToMintDisabled);;
  '(withheld_amount, w) ←
    harvest_loop (key mint_account_info) token_account_infos (ctfc_withheld_amount config) w;
  Ok (write_mint w mint_account_info
        (put_mint_ext (set_withheld_amount withheld_amount config) mint)).

(** [process_enable_harvest_to_mint] and [process_disable_harvest_to_mint], which
    differ in the flag they store. *)
Definition process_set_harvest_to_mint (program_id : Pubkey) accounts (enabled : bool) w :
    res world :=
  '(mint_info, accounts) ← next_account_info accounts;
  '(authority_info, accounts) ← next_account_info accounts;
  let authority_info_data_len := data_len w authority_info in
  mint ← open_mint [] w mint_info;
  config ← get_mint_ext ConfidentialTransferFeeConfig (tlv_data mint);
  authority ← ok_or (optional_get (ctfc_authority config)) (tok NoAuthorityExists);
  validate_owner [key mint_info] w program_id authority authority_info authority_info_data_len
    accounts;;
  Ok (write_mint w mint_info
        (put_mint_ext (set_harvest_enabled (from_bool enabled) config) mint)).

Inductive ConfidentialTransferFeeInstruction :=
| InitializeConfidentialTransferFeeConfig | WithdrawWithheldTokensFromMint
| WithdrawWithheldTokensFromAccounts | HarvestWithheldTokensToMint | EnableHarvestToMint
| DisableHarvestToMint.
Definition instruction_try_from (b : Z) : option ConfidentialTransferFeeInstruction :=
  [InitializeConfidentialTransferFeeConfig; WithdrawWithheldTokensFromMint;
   WithdrawWithheldTokensFromAccounts; HarvestWithheldTokensToMint; EnableHarvestToMint;
   DisableHarvestToMint] !! Z.to_nat b.

Definition InitializeConfidentialTransferFeeConfigData : codec (Pubkey * list byte) :=
  (pubkey ⊗ elgamal_pubkey_codec)%codec.
Definition WithdrawWithheldTokensFromMintData : codec (Z * list byte) :=
  (i8 ⊗ ae_ciphertext_codec)%codec.
Definition WithdrawWithheldTokensFromAccountsData : codec (Z * (Z * list byte)) :=
  (u8 ⊗ i8 ⊗ ae_ciphertext_codec)%codec.

(** [confidential_transfer_fee::processor::process_instruction] *)
Definition process_instruction (program_id : Pubkey) accounts (input : list byte) w : res world :=
  check_program_account program_id;;
  instruction ← decode_instruction_type instruction_try_from input;
  match instruction with
  | InitializeConfidentialTransferFeeConfig =>
      '(authority, elgamal_pubkey) ←
        decode_instruction_data InitializeConfidentialTransferFeeConfigData input;
      process_initialize_confidential_transfer_fee_config accounts authority elgamal_pubkey w
  | WithdrawWithheldTokensFromMint =>
      '(proof_offset, new_balance) ←
        decode_instruction_data WithdrawWithheldTokensFromMintData input;
      process_withdraw_withheld_tokens_from_mint program_id accounts new_balance proof_offset w
  | WithdrawWithheldTokensFromAccounts =>
      '(num_token_accounts, (proof_offset, new_balance)) ←
        decode_instruction_data WithdrawWithheldTokensFromAccountsData input;
      process_withdraw_withheld_tokens_from_accounts program_id accounts num_token_accounts
        new_balance proof_offset w
  | HarvestWithheldTokensToMint => process_harvest_withheld_tokens_to_mint accounts w
  | EnableHarvestToMint => process_set_harvest_to_mint program_id accounts true w
  | DisableHarvestToMint => process_set_harvest_to_mint program_id accounts false w
  end.
End handlers.
End confidential_transfer_fee.
