(* ===== verification/ConfidentialMintBurnOps.v ===== *)
(** * Confidential minting and burning

    [program/src/extension/confidential_mint_burn/{processor,verify_proof}.rs]. *)
From S2P Require Import Prelude Codec Errors Runtime Pod State ExtensionType ExtensionData Tlv.
From S2P Require Import TlvAlloc StateExt PackedExt Fee Authority Transfer AccountFacts AccountOps.
From S2P Require Import InitOps Instruction TransferFeeOps SystemOps CiphertextOps ProofExtraction.
From S2P Require Import ConfidentialOps ConfidentialTransferOps.

Module confidential_mint_burn.
(** Assignments to the fields of a [ConfidentialMintBurn] *)
Definition set_confidential_supply (supply : PodElGamalCiphertext) (decryptable : list byte)
    (e : ConfidentialMintBurn) : ConfidentialMintBurn :=
  mkConfidentialMintBurn supply decryptable (cmb_supply_elgamal_pubkey e) (cmb_pending_burn e).
Definition set_pending_burn (pending_burn : PodElGamalCiphertext) (e : ConfidentialMintBurn) :
    ConfidentialMintBurn :=
  mkConfidentialMintBurn (cmb_confidential_supply e) (cmb_decryptable_supply e)
    (cmb_supply_elgamal_pubkey e) pending_burn.
Definition set_supply_elgamal_pubkey (k : PodElGamalPubkey) (e : ConfidentialMintBurn) :
    ConfidentialMintBurn :=
  mkConfidentialMintBurn (cmb_confidential_supply e) (cmb_decryptable_supply e) k
    (cmb_pending_burn e).

Record MintInstructionData := mkMintData {
  md_new_decryptable_supply : list byte;
  md_mint_amount_auditor_ciphertext_lo : PodElGamalCiphertext;
  md_mint_amount_auditor_ciphertext_hi : PodElGamalCiphertext;
  md_equality_proof_instruction_offset : Z;
  md_ciphertext_validity_proof_instruction_offset : Z;
  md_range_proof_instruction_offset : Z;
}.
Program Definition MintInstructionData_codec `{Runtime} : codec MintInstructionData :=
  iso_codec (pair_codec ae_ciphertext_codec (pair_codec ciphertext_codec (pair_codec
    ciphertext_codec (pair_codec i8 (pair_codec i8 i8)))))
    (λ '(x0, (x1, (x2, (x3, (x4, x5))))), mkMintData x0 x1 x2 x3 x4 x5)
    (λ s, (md_new_decryptable_supply s, (md_mint_amount_auditor_ciphertext_lo s,
    (md_mint_amount_auditor_ciphertext_hi s, (md_equality_proof_instruction_offset s,
    (md_ciphertext_validity_proof_instruction_offset s,
    md_range_proof_instruction_offset s)))))) _ _.
Solve All Obligations with solve_iso.

Record BurnInstructionData := mkBurnData {
  bd_new_decryptable_available_balance : list byte;
  bd_burn_amount_auditor_ciphertext_lo : PodElGamalCiphertext;
  bd_burn_amount_auditor_ciphertext_hi : PodElGamalCiphertext;
  bd_equality_proof_instruction_offset : Z;
  bd_ciphertext_validity_proof_instruction_offset : Z;
  bd_range_proof_instruction_offset : Z;
}.
Program Definition BurnInstructionData_codec `{Runtime} : codec BurnInstructionData :=
  iso_codec (pair_codec ae_ciphertext_codec (pair_codec ciphertext_codec (pair_codec
    ciphertext_codec (pair_codec i8 (pair_codec i8 i8)))))
    (λ '(x0, (x1, (x2, (x3, (x4, x5))))), mkBurnData x0 x1 x2 x3 x4 x5)
    (λ s, (bd_new_decryptable_available_balance s, (bd_burn_amount_auditor_ciphertext_lo s,
    (bd_burn_amount_auditor_ciphertext_hi s, (bd_equality_proof_instruction_offset s,
    (bd_ciphertext_validity_proof_instruction_offset s,
    bd_range_proof_instruction_offset s)))))) _ _.
Solve All Obligations with solve_iso.

Section handlers.
Context `{rt : Runtime} `{curve : Curve} `{zk : !ZkSdk}.
Implicit Types (w : world) (accounts : list AccountInfo) (held : list Pubkey).

(** ** [verify_proof.rs] *)

(** The three contexts of a mint or a burn; the sysvar is passed first when the
    equality proof is in an instruction. *)
Definition amount_proof_contexts held w accounts (equality_proof_instruction_offset
    ciphertext_validity_proof_instruction_offset range_proof_instruction_offset : Z) :
    res (CiphertextCommitmentEqualityProofContext *
         BatchedGroupedCiphertext3HandlesValidityProofContext * BatchedRangeProofContext *
         list AccountInfo) :=
  '(sysvar, accounts) ← proof_sysvar [equality_proof_instruction_offset] accounts;
  '(equality_proof_context, accounts) ←
    verify_and_extract_context ProofType.CiphertextCommitmentEquality held w accounts
      equality_proof_instruction_offset sysvar;
  '(ciphertext_validity_proof_context, accounts) ←
    verify_and_extract_context ProofType.BatchedGroupedCiphertext3HandlesValidity held w accounts
      ciphertext_validity_proof_instruction_offset sysvar;
  '(range_proof_context, accounts) ←
    verify_and_extract_context ProofType.BatchedRangeProofU128 held w accounts
      range_proof_instruction_offset sysvar;
  Ok (equality_proof_context, ciphertext_validity_proof_context, range_proof_context, accounts).

(** [verify_mint_proof] *)
Definition verify_mint_proof held w accounts (equality_proof_instruction_offset
    ciphertext_validity_proof_instruction_offset range_proof_instruction_offset : Z) :
    res (MintProofContext * list AccountInfo) :=
  '(equality, validity, range, accounts) ←
    amount_proof_contexts held w accounts equality_proof_instruction_offset
      ciphertext_validity_proof_instruction_offset range_proof_instruction_offset;
  context ← from_proof (verify_and_extract_mint equality validity range);
  Ok (context, accounts).

(** [verify_burn_proof] *)
Definition verify_burn_proof held w accounts (equality_proof_instruction_offset
    ciphertext_validity_proof_instruction_offset range_proof_instruction_offset : Z) :
    res (BurnProofContext * list AccountInfo) :=
  '(equality, validity, range, accounts) ←
    amount_proof_contexts held w accounts equality_proof_instruction_offset
      ciphertext_validity_proof_instruction_offset range_proof_instruction_offset;
  context ← from_proof (verify_and_extract_burn equality validity range);
  Ok (context, accounts).

(** ** [processor.rs] *)

(** [process_initialize_mint] *)
Definition process_initialize_mint accounts (supply_elgamal_pubkey : PodElGamalPubkey)
    (decryptable_supply : list byte) w : res world :=
  '(mint_info, accounts) ← next_account_info accounts;
  check_program_account (info_owner w mint_info);;
  mint_data ← borrow [] w mint_info;
  mint ← unpack_uninitialized PodMint mint_data;
  tlv ← init_extension PodMint ConfidentialMintBurn true (tlv_data mint);
  let e := ext_default (V:=ConfidentialMintBurn) in
  let e := set_confidential_supply (cmb_confidential_supply e) decryptable_supply
             (set_supply_elgamal_pubkey supply_elgamal_pubkey e) in
  Ok (write_mint w mint_info (put_mint_ext e (with_tlv tlv mint))).

(** The mint's authority, next among the accounts, and its check while the data of
    the accounts [held] is borrowed. *)
Definition validate_mint_authority (program_id : Pubkey) held (mint : PodStateMut PodMint)
    accounts w : res unit :=
  '(authority_info, accounts) ← next_account_info accounts;
  authority_data ← borrow held w authority_info;
  authority ← co_ok_or (mint_authority (base mint)) (tok NoAuthorityExists);
  validate_owner held w program_id authority authority_info (length authority_data) accounts.

(** [process_rotate_supply_elgamal_pubkey] *)
Definition process_rotate_supply_elgamal_pubkey (program_id : Pubkey) accounts
    (proof_instruction_offset : Z) w : res world :=
  '(mint_info, accounts) ← next_account_info accounts;
  mint ← open_mint [] w mint_info;
  e ← get_mint_ext ConfidentialMintBurn (tlv_data mint);
  '(proof_context, accounts) ←
    verify_and_extract_context ProofType.CiphertextCiphertextEquality [key mint_info] w accounts
      proof_instruction_offset None;
  throw_if (negb (bool_decide (cmb_supply_elgamal_pubkey e = cc_first_pubkey proof_context)))
    (tok ConfidentialTransferElGamalPubkeyMismatch);;
  throw_if (negb (bool_decide (cmb_confidential_supply e = cc_first_ciphertext proof_context)))
    InvalidInstructionData;;
  throw_if (negb (bool_decide (cmb_pending_burn e = zeroed_ciphertext)))
    (tok PendingBalanceNonZero);;
  validate_mint_authority program_id [key mint_info] mint accounts w;;
  let e := set_confidential_supply (cc_second_ciphertext proof_context)
             (cmb_decryptable_supply e)
             (set_supply_elgamal_pubkey (cc_second_pubkey proof_context) e) in
  Ok (write_mint w mint_info (put_mint_ext e mint)).

(** [process_update_decryptable_supply] *)
Definition process_update_decryptable_supply (program_id : Pubkey) accounts
    (new_decryptable_supply : list byte) w : res world :=
  '(mint_info, accounts) ← next_account_info accounts;
  mint ← open_mint [] w mint_info;
  e ← get_mint_ext ConfidentialMintBurn (tlv_data mint);
  validate_mint_authority program_id [key mint_info] mint accounts w;;
  let e := set_confidential_supply (cmb_confidential_supply e) new_decryptable_supply e in
  Ok (write_mint w mint_info (put_mint_ext e mint)).

(** A mint's auditor, when it has one, must be the one of the proof. *)
Definition check_auditor (auditor_elgamal_pubkey auditor : PodElGamalPubkey) : res unit :=
  throw_if (negb (bool_decide (auditor_elgamal_pubkey = zeros elgamal_pubkey_len)) &&
            negb (bool_decide (auditor_elgamal_pubkey = auditor))) InvalidInstructionData.

(** [.try_extract_ciphertext(1).map_err(|_| ProgramError::InvalidAccountData)] *)
Definition extract_for_supply (c : PodGroupedElGamalCiphertext) : res PodElGamalCiphertext :=
  map_err (λ _, InvalidAccountData) (try_extract_ciphertext 3 c 1).

(** The auditor's ciphertexts of the proof are those of the instruction. *)
Definition check_amount_auditor (data_lo data_hi : PodElGamalCiphertext)
    (amount_lo amount_hi : PodGroupedElGamalCiphertext) : res unit :=
  auditor_ciphertext_lo ← from_proof (try_extract_ciphertext 3 amount_lo 2);
  auditor_ciphertext_hi ← from_proof (try_extract_ciphertext 3 amount_hi 2);
  check_auditor_ciphertext data_lo data_hi auditor_ciphertext_lo auditor_ciphertext_hi.

(** The pending balance after a mint. *)
Definition mint_pending (amount_lo amount_hi : PodGroupedElGamalCiphertext)
    (c : ConfidentialTransferAccount) : res ConfidentialTransferAccount :=
  ciphertext_lo ← from_proof (try_extract_ciphertext 3 amount_lo 0);
  lo ← computed (ciphertext_arithmetic.add (cta_pending_balance_lo c) ciphertext_lo);
  ciphertext_hi ← from_proof (try_extract_ciphertext 3 amount_hi 0);
  hi ← computed (ciphertext_arithmetic.add (cta_pending_balance_hi c) ciphertext_hi);
  increment_pending_balance_credit_counter (set_pending_balance lo hi c).

(** [process_confidential_mint] *)
Definition process_confidential_mint (program_id : Pubkey) accounts (data : MintInstructionData) w :
    res world :=
  '(token_account_info, accounts) ← next_account_info accounts;
  '(mint_info, accounts) ← next_account_info accounts;
  mint ← open_mint [] w mint_info;
  confidential_transfer_mint ← get_mint_ext ConfidentialTransferMint (tlv_data mint);
  check_running (tlv_data mint);;
  e ← get_mint_ext ConfidentialMintBurn (tlv_data mint);
  '(proof_context, accounts) ←
    verify_mint_proof [key mint_info] w accounts (md_equality_proof_instruction_offset data)
      (md_ciphertext_validity_proof_instruction_offset data)
      (md_range_proof_instruction_offset data);
  let amount_lo := mp_mint_amount_ciphertext_lo proof_context in
  let amount_hi := mp_mint_amount_ciphertext_hi proof_context in
  let mint_pubkeys := mp_mint_pubkeys proof_context in
  token_account ← open_account [key mint_info] w token_account_info;
  validate_mint_authority program_id [key token_account_info; key mint_info] mint accounts w;;
  throw_if (is_frozen (base token_account)) (tok AccountFrozen);;
  throw_if (negb (acc_mint (base token_account) =? key mint_info)) (tok MintMismatch);;
  throw_if (is_native (base token_account)) (tok NativeNotSupported);;
  c ← get_account_ext ConfidentialTransferAccount (tlv_data token_account);
  valid_as_destination c;;
  throw_if (negb (bool_decide (mp_destination mint_pubkeys = cta_elgamal_pubkey c)))
    InvalidInstructionData;;
  check_auditor (ctm_auditor_elgamal_pubkey confidential_transfer_mint) (mp_auditor mint_pubkeys);;
  check_amount_auditor (md_mint_amount_auditor_ciphertext_lo data)
    (md_mint_amount_auditor_ciphertext_hi data) amount_lo amount_hi;;
  c ← mint_pending amount_lo amount_hi c;
  throw_if (negb (bool_decide (cmb_supply_elgamal_pubkey e = mp_supply mint_pubkeys)))
    InvalidInstructionData;;
  supply_lo ← extract_for_supply amount_lo;
  supply_hi ← extract_for_supply amount_hi;
  new_supply ← computed (ciphertext_arithmetic.add_with_lo_hi (cmb_confidential_supply e)
                           supply_lo supply_hi);
  throw_if (negb (bool_decide (new_supply = mp_new_supply_ciphertext proof_context)))
    (tok ConfidentialTransferBalanceMismatch);;
  let e := set_confidential_supply new_supply (md_new_decryptable_supply data) e in
  Ok (write_mint (write_account w token_account_info (put_account_ext c token_account)) mint_info
        (put_mint_ext e mint)).

(** [process_confidential_burn] *)
Definition process_confidential_burn (program_id : Pubkey) accounts (data : BurnInstructionData) w :
    res world :=
  '(token_account_info, accounts) ← next_account_info accounts;
  '(mint_info, accounts) ← next_account_info accounts;
  mint ← open_mint [] w mint_info;
  confidential_transfer_mint ← get_mint_ext ConfidentialTransferMint (tlv_data mint);
  check_running (tlv_data mint);;
  e ← get_mint_ext ConfidentialMintBurn (tlv_data mint);
  '(proof_context, accounts) ←
    verify_burn_proof [key mint_info] w accounts (bd_equality_proof_instruction_offset data)
      (bd_ciphertext_validity_proof_instruction_offset data)
      (bd_range_proof_instruction_offset data);
  let amount_lo := bp_burn_amount_ciphertext_lo proof_context in
  let amount_hi := bp_burn_amount_ciphertext_hi proof_context in
  let burn_pubkeys := bp_burn_pubkeys proof_context in
  token_account ← open_account [key mint_info] w token_account_info;
  '(authority_info, accounts) ← next_account_info accounts;
  let held := [key token_account_info; key mint_info] in
  authority_data ← borrow held w authority_info;
  validate_owner held w program_id (acc_owner (base token_account)) authority_info
    (length authority_data) accounts;;
  throw_if (cpi_guard_blocks token_account authority_info) (tok CpiGuardBurnBlocked);;
  throw_if (is_frozen (base token_account)) (tok AccountFrozen);;
  throw_if (negb (acc_mint (base token_account) =? key mint_info)) (tok MintMismatch);;
  c ← get_account_ext ConfidentialTransferAccount (tlv_data token_account);
  valid_as_source c;;
  throw_if (negb (bool_decide (bp_source burn_pubkeys = cta_elgamal_pubkey c)))
    (tok ConfidentialTransferElGamalPubkeyMismatch);;
  check_amount_auditor (bd_burn_amount_auditor_ciphertext_lo data)
    (bd_burn_amount_auditor_ciphertext_hi data) amount_lo amount_hi;;
  burn_amount_lo ← from_proof (try_extract_ciphertext 3 amount_lo 0);
  burn_amount_hi ← from_proof (try_extract_ciphertext 3 amount_hi 0);
  available ← computed (ciphertext_arithmetic.subtract_with_lo_hi (cta_available_balance c)
                          burn_amount_lo burn_amount_hi);
  throw_if (negb (bool_decide (available = bp_remaining_balance_ciphertext proof_context)))
    (tok ConfidentialTransferBalanceMismatch);;
  let c := set_available_balance available (bd_new_decryptable_available_balance data) c in
  check_auditor (ctm_auditor_elgamal_pubkey confidential_transfer_mint) (bp_auditor burn_pubkeys);;
  throw_if (negb (bool_decide (cmb_supply_elgamal_pubkey e = bp_supply burn_pubkeys)))
    InvalidInstructionData;;
  supply_lo ← extract_for_supply amount_lo;
  supply_hi ← extract_for_supply amount_hi;
  pending_burn ← computed (ciphertext_arithmetic.add_with_lo_hi (cmb_pending_burn e)
                             supply_lo supply_hi);
  Ok (write_mint (write_account w token_account_info (put_account_ext c token_account)) mint_info
        (put_mint_ext (set_pending_burn pending_burn e) mint)).

(** [process_apply_pending_burn] *)
Definition process_apply_pending_burn (program_id : Pubkey) accounts w : res world :=
  '(mint_info, accounts) ← next_account_info accounts;
  mint ← open_mint [] w mint_info;
  e ← get_mint_ext ConfidentialMintBurn (tlv_data mint);
  validate_mint_authority program_id [key mint_info] mint accounts w;;
  supply ← computed (ciphertext_arithmetic.subtract (cmb_confidential_supply e)
                       (cmb_pending_burn e));
  let e := set_confidential_supply supply (cmb_decryptable_supply e) e in
  Ok (write_mint w mint_info (put_mint_ext (set_pending_burn zeroed_ciphertext e) mint)).

Inductive ConfidentialMintBurnInstruction :=
| InitializeMint | RotateSupplyElGamalPubkey | UpdateDecryptableSupply | Mint | Burn
| ApplyPendingBurn.
Definition instruction_try_from (b : Z) : option ConfidentialMintBurnInstruction :=
  [InitializeMint; RotateSupplyElGamalPubkey; UpdateDecryptableSupply; Mint; Burn;
   ApplyPendingBurn] !! Z.to_nat b.

Definition InitializeMintData : codec (list byte * list byte) :=
  (elgamal_pubkey_codec ⊗ ae_ciphertext_codec)%codec.
Definition RotateSupplyElGamalPubkeyData : codec (list byte * Z) :=
  (elgamal_pubkey_codec ⊗ i8)%codec.
Definition UpdateDecryptableSupplyData : codec (list byte) := ae_ciphertext_codec.

(** [confidential_mint_burn::processor::process_instruction] *)
Definition process_instruction (program_id : Pubkey) accounts (input : list byte) w : res world :=
  check_program_account program_id;;
  instruction ← decode_instruction_type instruction_try_from input;
  match instruction with
  | InitializeMint =>
      '(supply_elgamal_pubkey, decryptable_supply) ←
        decode_instruction_data InitializeMintData input;
      process_initialize_mint accounts supply_elgamal_pubkey decryptable_supply w
  | RotateSupplyElGamalPubkey =>
      '(_, proof_offset) ← decode_instruction_data RotateSupplyElGamalPubkeyData input;
      process_rotate_supply_elgamal_pubkey program_id accounts proof_offset w
  | UpdateDecryptableSupply =>
      new_decryptable_supply ← decode_instruction_data UpdateDecryptableSupplyData input;
      process_update_decryptable_supply program_id accounts new_decryptable_supply w
  | Mint =>
      data ← decode_instruction_data MintInstructionData_codec input;
      process_confidential_mint program_id accounts data w
  | Burn =>
      data ← decode_instruction_data BurnInstructionData_codec input;
      process_confidential_burn program_id accounts data w
  | ApplyPendingBurn => process_apply_pending_burn program_id accounts w
  end.
End handlers.
End confidential_mint_burn.
