(* ===== verification/ConfidentialFacts.v ===== *)
(** * What the confidential handlers do

    Each handler of [ConfidentialTransferOps.v], [ConfidentialFeeOps.v] and
    [ConfidentialMintBurnOps.v] opened up: the accounts it reads, the checks that
    held, and the world it returns. *)
From S2P Require Import Prelude Codec Errors Runtime Pod State ExtensionType ExtensionData Tlv.
From S2P Require Import TlvFacts TlvAlloc StateExt PackedExt Fee Authority Transfer AccountFacts.
From S2P Require Import AccountOps InitOps Instruction TransferFeeOps SystemOps CiphertextOps.
From S2P Require Import ProofExtraction ConfidentialOps ConfidentialTransferOps ConfidentialFeeOps.
From S2P Require Import ConfidentialMintBurnOps.

(** ** Opening accounts *)
Section opening.
Context `{rt : Runtime}.
Implicit Types (w : world) (i : AccountInfo) (st : PodStateMut PodAccount).

Lemma check_program_account_Ok k u : check_program_account k = Ok u ↔ k = id.
Proof.
  unfold check_program_account. rewrite throw_if_Ok, negb_false_iff. apply Z.eqb_eq.
Qed.

Lemma open_account_Ok held w i st : open_account held w i = Ok st →
  info_owner w i = id ∧ (key i ∉ held) ∧ account_at w (key i) = Some st.
Proof.
  intros (u & Ho%check_program_account_Ok & (d & [Hh ->]%borrow_Ok & H)%bind_Ok)%bind_Ok.
  split; [done|]. split; [done|]. by apply account_at_Some.
Qed.

Lemma open_mint_Ok held w i m : open_mint held w i = Ok m →
  info_owner w i = id ∧ (key i ∉ held) ∧ mint_at w (key i) = Some m.
Proof.
  intros (u & Ho%check_program_account_Ok & (d & [Hh ->]%borrow_Ok & H)%bind_Ok)%bind_Ok.
  split; [done|]. split; [done|]. by apply mint_at_Some.
Qed.

Lemma open_mint_ref_Ok held w i r : open_mint_ref held w i = Ok r →
  ∃ m, info_owner w i = id ∧ (key i ∉ held) ∧ mint_at w (key i) = Some m ∧
    r = mkRef (base m) (tlv_data m).
Proof.
  intros (u & Ho%check_program_account_Ok & (d & [Hh ->]%borrow_Ok &
    (m & Hm & ->)%unpack_ref_Ok)%bind_Ok)%bind_Ok.
  exists m. split; [done|]. split; [done|]. split; [by apply mint_at_Some|done].
Qed.

Lemma computed_Ok {A} (o : option A) x : computed o = Ok x ↔ o = Some x.
Proof. apply ok_or_Ok. Qed.

Lemma from_proof_Ok {A} (r : result TokenProofExtractionError A) x :
  from_proof r = Ok x ↔ r = Ok x.
Proof. apply map_err_Ok. Qed.

Lemma throw_unless_eq {E A} `{EqDecision A} (x y : A) (e : E) u :
  throw_if (negb (bool_decide (x = y))) e = Ok u ↔ x = y.
Proof. by rewrite throw_if_Ok, negb_false_iff, bool_decide_eq_true. Qed.

Lemma throw_unless_key {E} (x y : Z) (e : E) u :
  throw_if (negb (x =? y)) e = Ok u ↔ x = y.
Proof. by rewrite throw_if_Ok, negb_false_iff, Z.eqb_eq. Qed.

Lemma throw_unless {E} (b : bool) (e : E) u : throw_if (negb b) e = Ok u ↔ b = true.
Proof. by rewrite throw_if_Ok, negb_false_iff. Qed.
End opening.

(** ** [confidential_transfer] *)
Section confidential_transfer.
Import confidential_transfer.
Context `{rt : Runtime} `{sp : !SystemProgram} `{curve : Curve} `{zk : !ZkSdk}.
Implicit Types (w : world) (st : PodStateMut PodAccount) (c : ConfidentialTransferAccount).

(** The owner of the account signed. *)
Definition owner_signed (pid : Pubkey) (held : list Pubkey) w (ti ai : AccountInfo)
    (signers : list AccountInfo) st : Prop :=
  key ai = acc_owner (base st) ∧
  validate_owner (key ti :: held) w pid (key ai) ai (data_len w ai) signers = Ok tt.

Lemma open_owned_Ok pid held w ti ai signers st :
  open_owned pid held w ti ai signers = Ok st →
  info_owner w ti = id ∧ account_at w (key ti) = Some st ∧
  owner_signed pid held w ti ai signers st.
Proof.
  intros (st' & (Ho & _ & Hst)%open_account_Ok & ([] & Hv & [= ->])%bind_Ok)%bind_Ok.
  pose proof (validate_owner_key _ _ _ _ _ _ _ Hv) as Hk. rewrite <-Hk in Hv. done.
Qed.

Lemma approved_Ok c u : approved c = Ok u ↔ pod_bool (cta_approved c) = true.
Proof. unfold approved. apply throw_unless. Qed.

Lemma valid_as_destination_Ok c u : valid_as_destination c = Ok u →
  pod_bool (cta_approved c) = true ∧ pod_bool (cta_allow_confidential_credits c) = true ∧
  cta_pending_balance_credit_counter c + 1 ≤ cta_maximum_pending_balance_credit_counter c.
Proof.
  intros (u1 & H1%approved_Ok & (u2 & H2%throw_unless & (n & [-> _]%ok_or_Ok%checked_add_Some &
    H3%throw_if_Ok%Z.ltb_ge)%bind_Ok)%bind_Ok)%bind_Ok. done.
Qed.

Lemma increment_Ok c c' : increment_pending_balance_credit_counter c = Ok c' →
  in_uint 64 (cta_pending_balance_credit_counter c + 1) ∧
  c' = set_credit_counters (cta_pending_balance_credit_counter c + 1)
         (cta_expected_pending_balance_credit_counter c)
         (cta_actual_pending_balance_credit_counter c) c.
Proof. by intros (n & [-> Hn]%ok_or_Ok%checked_add_Some & [= <-])%bind_Ok. Qed.

(** The amounts a deposit is split into. *)
Lemma split_deposit_Ok n lo hi : 0 ≤ n → verify_and_split_deposit_amount n = Ok (lo, hi) →
  n < 2 ^ 48 ∧ in_uint 16 lo ∧ in_uint 32 hi ∧ n = lo + 2 ^ 16 * hi.
Proof.
  intros Hn (u & Hmax%throw_if_Ok%Z.ltb_ge & [= <- <-])%bind_Ok.
  change MAXIMUM_DEPOSIT_TRANSFER_AMOUNT with (2 ^ 48 - 1) in Hmax.
  change (2 ^ 16 - 1) with (Z.ones 16). rewrite Z.land_ones, Z.shiftr_div_pow2 by done.
  unfold in_uint. pose proof (Z.mod_pos_bound n (2 ^ 16)).
  pose proof (Z_div_mod_eq_full n (2 ^ 16)). pose proof (Z.div_pos n (2 ^ 16)).
  assert (n / 2 ^ 16 < 2 ^ 32) by (apply Z.div_lt_upper_bound; lia). lia.
Qed.

(** The account after its tokens became pending. *)
Definition deposited lo hi c : ConfidentialTransferAccount :=
  set_credit_counters (cta_pending_balance_credit_counter c + 1)
    (cta_expected_pending_balance_credit_counter c)
    (cta_actual_pending_balance_credit_counter c) (set_pending_balance lo hi c).

Lemma deposit_pending_Ok n_lo n_hi c c' : deposit_pending n_lo n_hi c = Ok c' →
  ∃ lo hi, c' = deposited lo hi c ∧
    in_uint 64 (cta_pending_balance_credit_counter c + 1) ∧
    (if 0 <? n_lo then ciphertext_arithmetic.add_to (cta_pending_balance_lo c) n_lo = Some lo
     else lo = cta_pending_balance_lo c) ∧
    (if 0 <? n_hi then ciphertext_arithmetic.add_to (cta_pending_balance_hi c) n_hi = Some hi
     else hi = cta_pending_balance_hi c).
Proof.
  intros (lo & Hlo & (hi & Hhi & [Hn ->]%increment_Ok)%bind_Ok)%bind_Ok.
  exists lo, hi. split; [done|]. split; [done|].
  split; [destruct (0 <? n_lo)|destruct (0 <? n_hi)].
  1,3: by apply computed_Ok.
  all: congruence.
Qed.

Lemma open_convertible_Ok pid w ti mi ai len signers st :
  open_convertible pid w ti mi ai len signers = Ok st →
  info_owner w ti = id ∧ key ti ≠ key mi ∧ account_at w (key ti) = Some st ∧
  key ai = acc_owner (base st) ∧
  validate_owner [key ti; key mi] w pid (key ai) ai len signers = Ok tt ∧
  is_frozen (base st) = false ∧ acc_mint (base st) = key mi ∧ is_native (base st) = false.
Proof.
  intros (st' & (Ho & Hh & Hst)%open_account_Ok & (u & _ & ([] & Hv & H)%bind_Ok)%bind_Ok)%bind_Ok.
  apply bind_Ok in H as (u1 & Hf%throw_if_Ok & (u2 & Hm%throw_unless_key &
    (u3 & Hn%throw_if_Ok & [= ->])%bind_Ok)%bind_Ok).
  pose proof (validate_owner_key _ _ _ _ _ _ _ Hv) as Hk. rewrite <-Hk in Hv.
  split_and!; try done. intros E. apply Hh. rewrite E. by left.
Qed.

Lemma process_deposit_Ok pid ti mi ai signers n dec w w' :
  process_deposit pid (ti :: mi :: ai :: signers) n dec w = Ok w' →
  ∃ m st c n_lo n_hi c',
    info_owner w mi = id ∧ mint_at w (key mi) = Some m ∧ dec = decimals (base m) ∧
    check_running (tlv_data m) = Ok tt ∧
    is_ok (get_mint_ext ConfidentialMintBurn (tlv_data m)) = false ∧
    info_owner w ti = id ∧ account_at w (key ti) = Some st ∧
    key ai = acc_owner (base st) ∧
    validate_owner [key ti; key mi] w pid (key ai) ai (data_len w ai) signers = Ok tt ∧
    is_frozen (base st) = false ∧ acc_mint (base st) = key mi ∧ is_native (base st) = false ∧
    in_uint 64 (Pod.amount (base st) - n) ∧
    get_account_ext ConfidentialTransferAccount (tlv_data st) = Ok c ∧
    valid_as_destination c = Ok tt ∧
    verify_and_split_deposit_amount n = Ok (n_lo, n_hi) ∧ deposit_pending n_lo n_hi c = Ok c' ∧
    w' = write_account w ti
           (put_account_ext c' (with_base (set_amount (Pod.amount (base st) - n) (base st)) st)).
Proof.
  intros H. unfold process_deposit in H.
  do 3 (cbn [next_account_info] in H; rewrite Ok_bind in H).
  apply bind_Ok in H as (r & (m & Hmo & _ & Hm & ->)%open_mint_ref_Ok & H). cbn [ref_base ref_tlv] in H.
  apply bind_Ok in H as ([] & Hrun & (u1 & Hdec%throw_unless_key & (u2 & Hmb%throw_if_Ok &
    (st & (Hto & _ & Hst & Hai & Hv & Hf & Hmi & Hn)%open_convertible_Ok & H)%bind_Ok)%bind_Ok)
    %bind_Ok).
  apply bind_Ok in H as (v & [-> Hv']%ok_or_Ok%checked_sub_Some & (c & Hc & ([] & Hd &
    ([lo hi] & Hs & (c' & Hc' & [= <-])%bind_Ok)%bind_Ok)%bind_Ok)%bind_Ok).
  exists m, st, c, lo, hi, c'. split_and!; done.
Qed.

Lemma process_withdraw_Ok pid ti mi accounts n dec new eq_off range_off w w' :
  process_withdraw pid (ti :: mi :: accounts) n dec new eq_off range_off w = Ok w' →
  ∃ ctx ai signers m st c available,
    verify_withdraw_proof [] w accounts eq_off range_off = Ok (ctx, ai :: signers) ∧
    info_owner w mi = id ∧ mint_at w (key mi) = Some m ∧ dec = decimals (base m) ∧
    check_running (tlv_data m) = Ok tt ∧
    is_ok (get_mint_ext ConfidentialMintBurn (tlv_data m)) = false ∧
    info_owner w ti = id ∧ account_at w (key ti) = Some st ∧
    key ai = acc_owner (base st) ∧
    validate_owner [key ti; key mi] w pid (key ai) ai (data_len w ai) signers = Ok tt ∧
    is_frozen (base st) = false ∧ acc_mint (base st) = key mi ∧ is_native (base st) = false ∧
    get_account_ext ConfidentialTransferAccount (tlv_data st) = Ok c ∧
    pod_bool (cta_approved c) = true ∧ cta_elgamal_pubkey c = wp_source_pubkey ctx ∧
    (if 0 <? n then ciphertext_arithmetic.subtract_from (cta_available_balance c) n = Some available
     else available = cta_available_balance c) ∧
    available = wp_remaining_balance_ciphertext ctx ∧
    in_uint 64 (Pod.amount (base st) + n) ∧
    w' = write_account w ti
           (with_base (set_amount (Pod.amount (base st) + n) (base st))
              (put_account_ext (set_available_balance available new c) st)).
Proof.
  intros H. unfold process_withdraw in H.
  do 2 (cbn [next_account_info] in H; rewrite Ok_bind in H).
  apply bind_Ok in H as ([ctx accs] & Hctx & H).
  apply bind_Ok in H as ([ai signers] & Hai & H). destruct accs as [|ai' accs]; [done|].
  injection Hai as -> ->.
  apply bind_Ok in H as (r & (m & Hmo & _ & Hm & ->)%open_mint_ref_Ok & H). cbn [ref_base ref_tlv] in H.
  apply bind_Ok in H as (u1 & Hdec%throw_unless_key & (u2 & Hmb%throw_if_Ok & ([] & Hrun &
    (st & (Hto & _ & Hst & Hai & Hv & Hf & Hmi & Hn)%open_convertible_Ok & H)%bind_Ok)%bind_Ok)
    %bind_Ok).
  apply bind_Ok in H as (c & Hc & (u3 & Ha%approved_Ok & (u4 & Hk%throw_unless_eq & (av & Hav &
    (u5 & Hrem%throw_unless_eq & (v & [-> Hv']%ok_or_Ok%checked_add_Some & [= <-])
    %bind_Ok)%bind_Ok)%bind_Ok)%bind_Ok)%bind_Ok).
  exists ctx, ai, signers, m, st, c, av. split_and!; try done.
  destruct (0 <? n); [by apply computed_Ok|congruence].
Qed.

(** ** Transfers *)
Lemma try_extract_Ok n g i x : try_extract_ciphertext n g i = Ok x ↔ extract_ciphertext n g i = Some x.
Proof. apply ok_or_Ok. Qed.

Lemma source_for_transfer_Ok pid si mi ai signers source g_lo g_hi new_source new w w' :
  source_for_transfer pid si mi ai signers source g_lo g_hi new_source new w = Ok w' →
  ∃ st c lo hi,
    info_owner w si = id ∧ account_at w (key si) = Some st ∧ key ai = acc_owner (base st) ∧
    validate_owner [key si; key mi] w pid (key ai) ai (data_len w ai) signers = Ok tt ∧
    is_frozen (base st) = false ∧ acc_mint (base st) = key mi ∧
    get_account_ext ConfidentialTransferAccount (tlv_data st) = Ok c ∧
    pod_bool (cta_approved c) = true ∧ cta_elgamal_pubkey c = source ∧
    extract_ciphertext 3 g_lo 0 = Some lo ∧ extract_ciphertext 3 g_hi 0 = Some hi ∧
    ciphertext_arithmetic.subtract_with_lo_hi (cta_available_balance c) lo hi = Some new_source ∧
    w' = write_account w si (put_account_ext (set_available_balance new_source new c) st).
Proof.
  intros (u & Ho%check_program_account_Ok & (d & [_ ->]%borrow_Ok & H)%bind_Ok)%bind_Ok.
  apply bind_Ok in H as (d & [_ ->]%borrow_Ok & (st & Hst & (u1 & _ & ([] & Hv &
    (u2 & _ & (u3 & Hf%throw_if_Ok & (u4 & Hm%throw_unless_key & H)%bind_Ok)
    %bind_Ok)%bind_Ok)%bind_Ok)%bind_Ok)%bind_Ok).
  apply bind_Ok in H as (c & Hc & (u5 & Ha%approved_Ok & (u6 & Hk%throw_unless_eq & (lo &
    Hlo%from_proof_Ok%try_extract_Ok & (hi & Hhi%from_proof_Ok%try_extract_Ok & (av &
    Hav%computed_Ok & (u7 & <-%throw_unless_eq & [= <-])%bind_Ok)%bind_Ok)%bind_Ok)%bind_Ok)%bind_Ok)
    %bind_Ok).
  pose proof (validate_owner_key _ _ _ _ _ _ _ Hv) as Hkey. rewrite <-Hkey in Hv.
  exists st, c, lo, hi. split_and!; try done. by apply account_at_Some.
Qed.

(** The ciphertexts added to the pending balance, and the account after that. *)
Lemma credit_pending_Ok destination g_lo g_hi i c c' :
  credit_pending destination g_lo g_hi i c = Ok c' →
  ∃ d_lo d_hi lo hi, destination = cta_elgamal_pubkey c ∧
    extract_ciphertext 3 g_lo i = Some d_lo ∧ extract_ciphertext 3 g_hi i = Some d_hi ∧
    ciphertext_arithmetic.add (cta_pending_balance_lo c) d_lo = Some lo ∧
    ciphertext_arithmetic.add (cta_pending_balance_hi c) d_hi = Some hi ∧
    in_uint 64 (cta_pending_balance_credit_counter c + 1) ∧ c' = deposited lo hi c.
Proof.
  intros (u & Hk%throw_unless_eq & (dlo & Hdlo%from_proof_Ok%try_extract_Ok & (dhi &
    Hdhi%from_proof_Ok%try_extract_Ok & (lo & Hlo%computed_Ok & (hi & Hhi%computed_Ok &
    [Hn ->]%increment_Ok)%bind_Ok)%bind_Ok)%bind_Ok)%bind_Ok)%bind_Ok.
  by exists dlo, dhi, lo, hi.
Qed.

Lemma destination_for_transfer_Ok di mi destination g_lo g_hi w c' st :
  destination_for_transfer di mi destination g_lo g_hi w = Ok (c', st) →
  ∃ c, info_owner w di = id ∧ account_at w (key di) = Some st ∧ is_frozen (base st) = false ∧
    acc_mint (base st) = key mi ∧
    get_account_ext ConfidentialTransferAccount (tlv_data st) = Ok c ∧
    valid_as_destination c = Ok tt ∧ credit_pending destination g_lo g_hi 1 c = Ok c'.
Proof.
  intros (st' & (Ho & _ & Hst)%open_account_Ok & (u & Hf%throw_if_Ok & (u1 & Hm%throw_unless_key &
    (u2 & _ & (c & Hc & ([] & Hd & (c1 & Hp & [= -> ->])%bind_Ok)%bind_Ok)%bind_Ok)%bind_Ok)
    %bind_Ok)%bind_Ok)%bind_Ok.
  by exists c.
Qed.

(** The fee that leaves a pending balance for the withheld amount. *)
Record fee_taken (f_lo f_hi : PodGroupedElGamalCiphertext) c
    (e : ConfidentialTransferFeeAmount) (lo hi withheld : PodElGamalCiphertext) : Prop := {
  taken_lo : ∃ d, extract_ciphertext 2 f_lo 0 = Some d ∧
    ciphertext_arithmetic.subtract (cta_pending_balance_lo c) d = Some lo;
  taken_hi : ∃ d, extract_ciphertext 2 f_hi 0 = Some d ∧
    ciphertext_arithmetic.subtract (cta_pending_balance_hi c) d = Some hi;
  taken_withheld : ∃ a_lo a_hi, extract_ciphertext 2 f_lo 1 = Some a_lo ∧
    extract_ciphertext 2 f_hi 1 = Some a_hi ∧
    ciphertext_arithmetic.add_with_lo_hi (ctfa_withheld_amount e) a_lo a_hi = Some withheld;
}.

Lemma destination_with_fee_Ok di mi ctx self w w' :
  process_destination_for_transfer_with_fee di mi ctx self w = Ok w' →
  ∃ c' st, destination_for_transfer di mi (tfp_destination (tfp_transfer_with_fee_pubkeys ctx))
      (tfp_ciphertext_lo ctx) (tfp_ciphertext_hi ctx) w = Ok (c', st) ∧
    if self then w' = write_account w di (put_account_ext c' st)
    else ∃ e lo hi withheld,
      let st1 := put_account_ext (set_pending_balance lo hi c') st in
      get_account_ext ConfidentialTransferFeeAmount (tlv_data st1) = Ok e ∧
      fee_taken (tfp_fee_ciphertext_lo ctx) (tfp_fee_ciphertext_hi ctx) c' e lo hi withheld ∧
      w' = write_account w di (put_account_ext (mkConfidentialTransferFeeAmount withheld) st1).
Proof.
  intros ([c' st] & Hd & H)%bind_Ok. exists c', st. split; [done|].
  destruct self; [by injection H as <-|]. cbv zeta in H.
  apply bind_Ok in H as (dlo & Hdlo%from_proof_Ok%try_extract_Ok & (dhi &
    Hdhi%from_proof_Ok%try_extract_Ok & (lo & Hlo%computed_Ok & (hi & Hhi%computed_Ok & H)
    %bind_Ok)%bind_Ok)%bind_Ok).
  apply bind_Ok in H as (alo & Halo%from_proof_Ok%try_extract_Ok & (ahi &
    Hahi%from_proof_Ok%try_extract_Ok & (e & He & (wh & Hwh%computed_Ok & [= <-])
    %bind_Ok)%bind_Ok)%bind_Ok).
  exists e, lo, hi, wh. split; [done|]. split; [|done].
  by constructor; eauto.
Qed.

(** A transfer moves the amount by one of its two ways, then calls the hook. *)
Lemma confidential_transfer_Ok pid si mi di accounts new a_lo a_hi eq_off va_off fs fv range_off w w' :
  process_transfer pid (si :: mi :: di :: accounts) new a_lo a_hi eq_off va_off fs fv range_off w
    = Ok w' →
  ∃ m cm ai signers w1,
    info_owner w mi = id ∧ mint_at w (key mi) = Some m ∧ check_running (tlv_data m) = Ok tt ∧
    get_mint_ext ConfidentialTransferMint (tlv_data m) = Ok cm ∧
    (if is_ok (get_mint_ext TransferFeeConfig (tlv_data m)) then
       transfer_with_fee pid si mi di accounts (mkRef (base m) (tlv_data m)) cm new a_lo a_hi
         eq_off va_off fs fv range_off w = Ok (ai, signers, w1)
     else
       transfer_without_fee pid si mi di accounts cm new a_lo a_hi eq_off va_off range_off w
         = Ok (ai, signers, w1)) ∧
    match get_program_id PodMint (tlv_data m) with
    | Some hook => confidential_hook_call hook si mi di ai signers w1 = Ok w'
    | None => w' = w1
    end.
Proof.
  intros H. unfold process_transfer in H.
  do 3 (cbn [next_account_info] in H; rewrite Ok_bind in H).
  apply bind_Ok in H as (r & (m & Hmo & _ & Hm & ->)%open_mint_ref_Ok & H). cbn [ref_tlv] in H.
  apply bind_Ok in H as ([] & Hrun & (cm & Hcm & ([[ai signers] w1] & Hw & H)%bind_Ok)%bind_Ok).
  exists m, cm, ai, signers, w1. split_and!; try done.
  - by destruct (is_ok (get_mint_ext TransferFeeConfig _)).
  - destruct (get_program_id _ _); [done|]. by injection H.
Qed.

Lemma transfer_without_fee_Ok pid si mi di accounts cm new a_lo a_hi eq_off va_off range_off w ai
    signers w' :
  transfer_without_fee pid si mi di accounts cm new a_lo a_hi eq_off va_off range_off w
    = Ok (ai, signers, w') →
  ∃ ctx w1,
    verify_transfer_proof [key mi] w accounts eq_off va_off range_off = Ok (ctx, ai :: signers) ∧
    ctm_auditor_elgamal_pubkey cm = tp_auditor (tp_transfer_pubkeys ctx) ∧
    extract_ciphertext 3 (tp_ciphertext_lo ctx) 2 = Some a_lo ∧
    extract_ciphertext 3 (tp_ciphertext_hi ctx) 2 = Some a_hi ∧
    process_source_for_transfer pid si mi ai signers ctx new w = Ok w1 ∧
    process_destination_for_transfer di mi ctx w1 = Ok w'.
Proof.
  intros ([ctx accs] & Hctx & ([ai' signers'] & Hai & H)%bind_Ok)%bind_Ok.
  destruct accs as [|ai0 accs]; [done|]. injection Hai as -> ->.
  apply bind_Ok in H as (u & Hk%throw_unless_eq & (x & Hlo%from_proof_Ok%try_extract_Ok &
    (y & Hhi%from_proof_Ok%try_extract_Ok & (u1 & Hau & (w1 & Hs & (w2 & Hd & [= -> -> ->])
    %bind_Ok)%bind_Ok)%bind_Ok)%bind_Ok)%bind_Ok).
  apply bind_Ok in Hau as (u2 & <-%throw_unless_eq & <-%throw_unless_eq).
  by exists ctx, w1.
Qed.

Lemma transfer_with_fee_Ok pid si mi di accounts m cm new a_lo a_hi eq_off va_off fs fv range_off w
    ai signers w' :
  transfer_with_fee pid si mi di accounts (mkRef (base m) (tlv_data m)) cm new a_lo a_hi eq_off
    va_off fs fv range_off w = Ok (ai, signers, w') →
  ∃ cfg clk fs' fv' ctx fcfg w1,
    get_mint_ext TransferFeeConfig (tlv_data m) = Ok cfg ∧ clock_get = Ok clk ∧
    fs = Some fs' ∧ fv = Some fv' ∧
    verify_transfer_with_fee_proof [key mi] w accounts eq_off va_off fs' fv' range_off
      (get_epoch_fee cfg (epoch clk)) = Ok (ctx, ai :: signers) ∧
    ctm_auditor_elgamal_pubkey cm = tfp_auditor (tfp_transfer_with_fee_pubkeys ctx) ∧
    get_mint_ext ConfidentialTransferFeeConfig (tlv_data m) = Ok fcfg ∧
    tfp_withdraw_withheld_authority (tfp_transfer_with_fee_pubkeys ctx) =
      ctfc_withdraw_withheld_authority_elgamal_pubkey fcfg ∧
    extract_ciphertext 3 (tfp_ciphertext_lo ctx) 2 = Some a_lo ∧
    extract_ciphertext 3 (tfp_ciphertext_hi ctx) 2 = Some a_hi ∧
    process_source_for_transfer_with_fee pid si mi ai signers ctx new w = Ok w1 ∧
    process_destination_for_transfer_with_fee di mi ctx (key si =? key di) w1 = Ok w'.
Proof.
  intros (cfg & Hcfg & (clk & Hclk & (fs' & Hfs%ok_or_Ok & (fv' & Hfv%ok_or_Ok & H)%bind_Ok)%bind_Ok)
    %bind_Ok)%bind_Ok.
  apply bind_Ok in H as ([ctx accs] & Hctx & ([ai' signers'] & Hai & H)%bind_Ok).
  destruct accs as [|ai0 accs]; [done|]. injection Hai as -> ->. cbv zeta in H.
  apply bind_Ok in H as (u & Hk%throw_unless_eq & (fcfg & Hfc & (u0 & Hwk%throw_unless_eq & (x &
    Hlo%from_proof_Ok%try_extract_Ok & (y & Hhi%from_proof_Ok%try_extract_Ok & (u1 & Hau & (w1 & Hs &
    (w2 & Hd & [= -> -> ->])%bind_Ok)%bind_Ok)%bind_Ok)%bind_Ok)%bind_Ok)%bind_Ok)%bind_Ok).
  apply bind_Ok in Hau as (u2 & <-%throw_unless_eq & <-%throw_unless_eq).
  by exists cfg, clk, fs', fv', ctx, fcfg, w1.
Qed.

(** The hook runs between setting the flags and clearing them. *)
Lemma mark_transferring_Ok mi i w w' : mark_transferring mi i w = Ok w' →
  ∃ st x, account_at w (key i) = Some st ∧ get_account_ext TransferHookAccount (tlv_data st) = Ok x ∧
    w' = write_account w i (put_account_ext (mkTransferHookAccount (from_bool true)) st).
Proof.
  intros (d & [_ ->]%borrow_Ok & (st & Hst & (tlv & (x & Hx & [= <-])%bind_Ok & [= <-])%bind_Ok)%bind_Ok)
    %bind_Ok.
  exists st, x. split; [by apply account_at_Some|done].
Qed.
End confidential_transfer.

(** ** [confidential_mint_burn] *)
Section confidential_mint_burn.
Import confidential_mint_burn.
Context `{rt : Runtime} `{curve : Curve} `{zk : !ZkSdk}.
Implicit Types (w : world) (c : ConfidentialTransferAccount) (e : ConfidentialMintBurn).

(** The ciphertexts of an amount are those for the auditor, if there is one. *)
Lemma check_amount_auditor_Ok lo hi g_lo g_hi u : check_amount_auditor lo hi g_lo g_hi = Ok u →
  extract_ciphertext 3 g_lo 2 = Some lo ∧ extract_ciphertext 3 g_hi 2 = Some hi.
Proof.
  intros (x & Hx%from_proof_Ok%try_extract_Ok & (y & Hy%from_proof_Ok%try_extract_Ok &
    (u1 & ->%throw_unless_eq & ->%throw_unless_eq)%bind_Ok)%bind_Ok)%bind_Ok.
  done.
Qed.

Lemma extract_for_supply_Ok g x : extract_for_supply g = Ok x ↔ extract_ciphertext 3 g 1 = Some x.
Proof. unfold extract_for_supply. by rewrite map_err_Ok, try_extract_Ok. Qed.

Lemma mint_pending_Ok g_lo g_hi c c' : mint_pending g_lo g_hi c = Ok c' →
  ∃ d_lo d_hi lo hi,
    extract_ciphertext 3 g_lo 0 = Some d_lo ∧ extract_ciphertext 3 g_hi 0 = Some d_hi ∧
    ciphertext_arithmetic.add (cta_pending_balance_lo c) d_lo = Some lo ∧
    ciphertext_arithmetic.add (cta_pending_balance_hi c) d_hi = Some hi ∧
    in_uint 64 (cta_pending_balance_credit_counter c + 1) ∧ c' = deposited lo hi c.
Proof.
  intros (dlo & Hdlo%from_proof_Ok%try_extract_Ok & (lo & Hlo%computed_Ok & (dhi &
    Hdhi%from_proof_Ok%try_extract_Ok & (hi & Hhi%computed_Ok & [Hn ->]%increment_Ok)%bind_Ok)%bind_Ok)
    %bind_Ok)%bind_Ok.
  by exists dlo, dhi, lo, hi.
Qed.

Lemma process_confidential_mint_Ok pid ti mi accounts d w w' :
  process_confidential_mint pid (ti :: mi :: accounts) d w = Ok w' →
  ∃ m cm e ctx rest st c c' supply x y,
    let keys := mp_mint_pubkeys ctx in
    let g_lo := mp_mint_amount_ciphertext_lo ctx in let g_hi := mp_mint_amount_ciphertext_hi ctx in
    mint_at w (key mi) = Some m ∧
    get_mint_ext ConfidentialTransferMint (tlv_data m) = Ok cm ∧ check_running (tlv_data m) = Ok tt ∧
    get_mint_ext ConfidentialMintBurn (tlv_data m) = Ok e ∧
    verify_mint_proof [key mi] w accounts (md_equality_proof_instruction_offset d)
      (md_ciphertext_validity_proof_instruction_offset d) (md_range_proof_instruction_offset d)
      = Ok (ctx, rest) ∧
    key ti ≠ key mi ∧ account_at w (key ti) = Some st ∧
    validate_mint_authority pid [key ti; key mi] m rest w = Ok tt ∧
    is_frozen (base st) = false ∧ acc_mint (base st) = key mi ∧ is_native (base st) = false ∧
    get_account_ext ConfidentialTransferAccount (tlv_data st) = Ok c ∧
    valid_as_destination c = Ok tt ∧ mp_destination keys = cta_elgamal_pubkey c ∧
    check_auditor (ctm_auditor_elgamal_pubkey cm) (mp_auditor keys) = Ok tt ∧
    extract_ciphertext 3 g_lo 2 = Some (md_mint_amount_auditor_ciphertext_lo d) ∧
    extract_ciphertext 3 g_hi 2 = Some (md_mint_amount_auditor_ciphertext_hi d) ∧
    mint_pending g_lo g_hi c = Ok c' ∧ cmb_supply_elgamal_pubkey e = mp_supply keys ∧
    extract_ciphertext 3 g_lo 1 = Some x ∧ extract_ciphertext 3 g_hi 1 = Some y ∧
    ciphertext_arithmetic.add_with_lo_hi (cmb_confidential_supply e) x y = Some supply ∧
    supply = mp_new_supply_ciphertext ctx ∧
    w' = write_mint (write_account w ti (put_account_ext c' st)) mi
           (put_mint_ext (set_confidential_supply supply (md_new_decryptable_supply d) e) m).
Proof.
  intros H. unfold process_confidential_mint in H.
  do 2 (cbn [next_account_info] in H; rewrite Ok_bind in H).
  apply bind_Ok in H as (m & (_ & _ & Hm)%open_mint_Ok & (cm & Hcm & ([] & Hrun & (e & He &
    ([ctx rest] & Hctx & H)%bind_Ok)%bind_Ok)%bind_Ok)%bind_Ok). cbv zeta in H.
  apply bind_Ok in H as (st & (_ & Hh & Hst)%open_account_Ok & ([] & Hau & (u2 & Hf%throw_if_Ok &
    (u3 & Hmi%throw_unless_key & (u4 & Hn%throw_if_Ok & (c & Hc & ([] & Hd & (u6 & Hk%throw_unless_eq &
    ([] & Hca & (u8 & [Ax Ay]%check_amount_auditor_Ok & H)%bind_Ok)%bind_Ok)%bind_Ok)%bind_Ok)%bind_Ok)
    %bind_Ok)%bind_Ok)%bind_Ok)%bind_Ok).
  apply bind_Ok in H as (c' & Hc' & (u9 & Hks%throw_unless_eq & (x & Hx%extract_for_supply_Ok & (y &
    Hy%extract_for_supply_Ok & (ns & Hns%computed_Ok & (u10 & Hnew%throw_unless_eq & [= <-])%bind_Ok)
    %bind_Ok)%bind_Ok)%bind_Ok)%bind_Ok).
  exists m, cm, e, ctx, rest, st, c, c', ns, x, y. split_and!; try done.
  intros E. apply Hh. rewrite E. by left.
Qed.

Lemma process_confidential_burn_Ok pid ti mi accounts d w w' :
  process_confidential_burn pid (ti :: mi :: accounts) d w = Ok w' →
  ∃ m cm e ctx ai signers st c available pending x y sx sy,
    let keys := bp_burn_pubkeys ctx in
    let g_lo := bp_burn_amount_ciphertext_lo ctx in let g_hi := bp_burn_amount_ciphertext_hi ctx in
    mint_at w (key mi) = Some m ∧
    get_mint_ext ConfidentialTransferMint (tlv_data m) = Ok cm ∧ check_running (tlv_data m) = Ok tt ∧
    get_mint_ext ConfidentialMintBurn (tlv_data m) = Ok e ∧
    verify_burn_proof [key mi] w accounts (bd_equality_proof_instruction_offset d)
      (bd_ciphertext_validity_proof_instruction_offset d) (bd_range_proof_instruction_offset d)
      = Ok (ctx, ai :: signers) ∧
    key ti ≠ key mi ∧ account_at w (key ti) = Some st ∧ key ai = acc_owner (base st) ∧
    validate_owner [key ti; key mi] w pid (key ai) ai (data_len w ai) signers = Ok tt ∧
    is_frozen (base st) = false ∧ acc_mint (base st) = key mi ∧
    get_account_ext ConfidentialTransferAccount (tlv_data st) = Ok c ∧
    pod_bool (cta_approved c) = true ∧ bp_source keys = cta_elgamal_pubkey c ∧
    extract_ciphertext 3 g_lo 2 = Some (bd_burn_amount_auditor_ciphertext_lo d) ∧
    extract_ciphertext 3 g_hi 2 = Some (bd_burn_amount_auditor_ciphertext_hi d) ∧
    extract_ciphertext 3 g_lo 0 = Some x ∧ extract_ciphertext 3 g_hi 0 = Some y ∧
    ciphertext_arithmetic.subtract_with_lo_hi (cta_available_balance c) x y = Some available ∧
    available = bp_remaining_balance_ciphertext ctx ∧
    check_auditor (ctm_auditor_elgamal_pubkey cm) (bp_auditor keys) = Ok tt ∧
    cmb_supply_elgamal_pubkey e = bp_supply keys ∧
    extract_ciphertext 3 g_lo 1 = Some sx ∧ extract_ciphertext 3 g_hi 1 = Some sy ∧
    ciphertext_arithmetic.add_with_lo_hi (cmb_pending_burn e) sx sy = Some pending ∧
    w' = write_mint (write_account w ti (put_account_ext
             (set_available_balance available (bd_new_decryptable_available_balance d) c) st)) mi
           (put_mint_ext (set_pending_burn pending e) m).
Proof.
  intros H. unfold process_confidential_burn in H.
  do 2 (cbn [next_account_info] in H; rewrite Ok_bind in H).
  apply bind_Ok in H as (m & (_ & _ & Hm)%open_mint_Ok & (cm & Hcm & ([] & Hrun & (e & He &
    ([ctx accs] & Hctx & H)%bind_Ok)%bind_Ok)%bind_Ok)%bind_Ok). cbv zeta in H.
  apply bind_Ok in H as (st & (_ & Hh & Hst)%open_account_Ok & ([ai signers] & Hai & (ad & [_ ->]%borrow_Ok &
    ([] & Hv & (u2 & _ & (u3 & Hf%throw_if_Ok & (u4 & Hmi%throw_unless_key & (c & Hc & (u5 & Ha%approved_Ok &
    (u6 & Hk%throw_unless_eq & H)%bind_Ok)%bind_Ok)%bind_Ok)%bind_Ok)%bind_Ok)%bind_Ok)%bind_Ok)%bind_Ok)
    %bind_Ok).
  destruct accs as [|ai0 accs]; [done|]. injection Hai as -> ->.
  apply bind_Ok in H as (u7 & [Ax Ay]%check_amount_auditor_Ok & (x & Hx%from_proof_Ok%try_extract_Ok &
    (y & Hy%from_proof_Ok%try_extract_Ok & (av & Hav%computed_Ok & (u8 & Hrem%throw_unless_eq & H)%bind_Ok)
    %bind_Ok)%bind_Ok)%bind_Ok).
  apply bind_Ok in H as ([] & Hca & (u10 & Hks%throw_unless_eq & (sx & Hsx%extract_for_supply_Ok & (sy &
    Hsy%extract_for_supply_Ok & (pb & Hpb%computed_Ok & [= <-])%bind_Ok)%bind_Ok)%bind_Ok)%bind_Ok).
  pose proof (validate_owner_key _ _ _ _ _ _ _ Hv) as Hkey. rewrite <-Hkey in Hv.
  exists m, cm, e, ctx, ai, signers, st, c, av, pb, x, y, sx, sy. split_and!; try done.
  intros E. apply Hh. rewrite E. by left.
Qed.
End confidential_mint_burn.
