(* ===== verification/ProofMeaning.v ===== *)
(** * What the verified proofs say

    The ZK ElGamal proof program verifies statements about ciphertexts and
    commitments.  [valid] writes these statements out, for the amounts behind them;
    the lemmas say what follows when the contexts of an instruction are valid and
    fit together as [ProofExtraction.v] checks. *)
From S2P Require Import Prelude Codec Errors Runtime TlvAlloc CiphertextOps CiphertextFacts.
From S2P Require Import Pod State ExtensionType ExtensionData Tlv StateExt PackedExt Fee Authority.
From S2P Require Import Transfer AccountFacts AccountOps InitOps TransferFeeOps ProofExtraction.
From S2P Require Import ConfidentialOps ConfidentialTransferOps ConfidentialMintBurnOps.
From S2P Require Import ConfidentialFeeOps ConfidentialFacts.
Import ciphertext_arithmetic.

(** Who knows what: the secret of a key, and the amounts that provers can open a
    commitment to.  That these are unique up to the order (a commitment binds)
    rests on discrete logarithms being hard; openings of results of the arithmetic
    are those of its arguments. *)
Class Openings `{CurveGroup} := {
  secret : PodElGamalPubkey → Z;
  opens : PodPedersenCommitment → Z → Prop;
  opens_order c m n : opens c m → opens c n ↔ (order | m - n);
  opens_generator n : opens (encode (pmul n generator)) n;
  opens_add c d e m n : add_ristretto c d = Some e → opens c m → opens d n → opens e (m + n);
  opens_subtract c d e m n :
    subtract_ristretto c d = Some e → opens c m → opens d n → opens e (m - n);
  opens_multiply k c e m : in_uint 64 k →
    multiply_ristretto (u64_to_scalar k) c = Some e → opens c m → opens e (k * m);
}.

(** ** The statements *)
Section valid.
Context `{rt : Runtime} `{curve : Curve} `{group : !CurveGroup} `{zk : !ZkSdk} `{op : !Openings}.
Implicit Types (w : world) (accounts : list AccountInfo) (held : list Pubkey).

(** A key that has a secret: not [ElGamalPubkey::default()], the identity, which stands for
    no auditor and for which nothing can be decrypted. *)
Definition real_key (k : PodElGamalPubkey) : Prop := k ≠ zeros elgamal_pubkey_len.

(** A grouped ciphertext holds the amount [n] for each of the keys that has a secret. *)
Definition grouped (handles : nat) (g : PodGroupedElGamalCiphertext)
    (keys : list PodElGamalPubkey) (n : Z) : Prop :=
  opens (extract_commitment g) n ∧
  ∀ i k c, keys !! i = Some k → real_key k → extract_ciphertext handles g i = Some c →
    decrypts (secret k) c n.

(** What a range proof says of eight commitments. *)
Definition in_range (c : BatchedRangeProofContext) : Prop :=
  length (rp_commitments c) = 8%nat ∧ length (rp_bit_lengths c) = 8%nat ∧
  ∀ i x b, rp_commitments c !! i = Some x → rp_bit_lengths c !! i = Some b → 0 < b →
    ∃ n, opens x n ∧ 0 ≤ n < 2 ^ b.

(** What the proof of a context shows; what is stored of it has its size.  Who proves the
    equality with a commitment knows the secret of the key. *)
Definition valid (t : ProofType) : proof_context t → Prop :=
  match t with
  | ProofType.ZeroCiphertext => λ c, decrypts (secret (zc_pubkey c)) (zc_ciphertext c) 0
  | ProofType.PubkeyValidity => λ c, length (pv_pubkey c) = elgamal_pubkey_len
  | ProofType.CiphertextCiphertextEquality => λ c,
      length (cc_second_pubkey c) = elgamal_pubkey_len ∧
      length (cc_second_ciphertext c) = elgamal_ciphertext_len ∧ ∃ n,
      decrypts (secret (cc_first_pubkey c)) (cc_first_ciphertext c) n ∧
      (real_key (cc_second_pubkey c) →
       decrypts (secret (cc_second_pubkey c)) (cc_second_ciphertext c) n)
  | ProofType.CiphertextCommitmentEquality => λ c, real_key (eq_pubkey c) ∧ ∃ n,
      decrypts (secret (eq_pubkey c)) (eq_ciphertext c) n ∧ opens (eq_commitment c) n
  | ProofType.BatchedRangeProofU64 | ProofType.BatchedRangeProofU128
  | ProofType.BatchedRangeProofU256 => in_range
  | ProofType.PercentageWithCap => λ c,
      opens (pc_percentage_commitment c) (pc_max_value c) ∨
      ∃ n, opens (pc_delta_commitment c) n ∧ opens (pc_claimed_commitment c) n
  | ProofType.BatchedGroupedCiphertext2HandlesValidity => λ c, ∃ lo hi,
      let keys := [g2_first_pubkey c; g2_second_pubkey c] in
      grouped 2 (g2_grouped_ciphertext_lo c) keys lo ∧
      grouped 2 (g2_grouped_ciphertext_hi c) keys hi
  | ProofType.BatchedGroupedCiphertext3HandlesValidity => λ c, ∃ lo hi,
      let keys := [g3_first_pubkey c; g3_second_pubkey c; g3_third_pubkey c] in
      grouped 3 (g3_grouped_ciphertext_lo c) keys lo ∧
      grouped 3 (g3_grouped_ciphertext_hi c) keys hi
  | _ => λ _, True
  end.

(** Every context the world offers was verified: the instructions of the transaction
    succeeded, and the proof program writes only contexts it verified. *)
Definition proofs_hold w : Prop :=
  ∀ t held accounts offset sysvar context rest,
    verify_and_extract_context t held w accounts offset sysvar = Ok (context, rest) →
    valid t context.

Lemma proofs_valid {w} (Hw : proofs_hold w) t {held accounts offset sysvar context rest} :
  verify_and_extract_context t held w accounts offset sysvar = Ok (context, rest) →
  valid t context.
Proof. apply Hw. Qed.

(** ** What fits together *)
Lemma zip_all_eq_lookup {A} `{EqDecision A} (l e : list A) i x :
  zip_all_eq l e = true → (length e ≤ length l)%nat → e !! i = Some x → l !! i = Some x.
Proof.
  unfold zip_all_eq. revert e i. induction l as [|a l IH]; intros [|b e] i; cbn; try lia; [done..|].
  intros [Ha%bool_decide_eq_true Hl]%andb_true_iff Hlen. subst b.
  destruct i as [|i]; cbn; [done|]. apply IH; [done|lia].
Qed.

(** A commitment the code expects among those of a range proof opens in range. *)
Lemma range_opened c l bits i x b :
  in_range c →
  zip_all_eq (rp_commitments c) l = true → zip_all_eq (rp_bit_lengths c) bits = true →
  (length l ≤ 8)%nat → (length bits ≤ 8)%nat →
  l !! i = Some x → bits !! i = Some b → 0 < b → ∃ n, opens x n ∧ 0 ≤ n < 2 ^ b.
Proof.
  intros (Hl1 & Hl2 & H) Hz1 Hz2 Hn1 Hn2 Hi1 Hi2 Hb.
  apply (H i x b); [|..|done]; (eapply zip_all_eq_lookup; try done; lia).
Qed.

(** Two openings that are amounts are the same. *)
Lemma opens_inj c m n : - 2 ^ 252 < m - n < 2 ^ 252 → opens c m → opens c n → m = n.
Proof. intros Hmn Hm Hn. by apply order_close; [apply (opens_order c m n Hm)|]. Qed.

(** The amount of a grouped ciphertext is the one its commitment opens to. *)
Lemma grouped_opened handles g keys m n :
  grouped handles g keys m → opens (extract_commitment g) n → grouped handles g keys n.
Proof.
  intros [Hm Hd] Hn. split; [done|]. intros i k c Hk Hr Hc.
  apply (decrypts_order _ _ m n (Hd i k c Hk Hr Hc)). by apply (opens_order _ m n Hm).
Qed.

(** ** The amounts of the instructions *)

(** A pair of grouped ciphertexts holds an amount, of at most 48 bits, in two parts. *)
Record parts (handles : nat) (g_lo g_hi : PodGroupedElGamalCiphertext)
    (keys : list PodElGamalPubkey) (lo hi : Z) : Prop := {
  parts_lo : grouped handles g_lo keys lo;
  parts_hi : grouped handles g_hi keys hi;
  parts_in : in_uint 16 lo ∧ in_uint 32 hi;
}.

(** What is left of the balance of [key], and the parts that change it. *)
Lemma amount_contexts_meaning eq_ctx key g r handles_keys u :
  verify_amount_contexts eq_ctx key g r = Ok u →
  valid ProofType.CiphertextCommitmentEquality eq_ctx →
  valid ProofType.BatchedGroupedCiphertext3HandlesValidity g → in_range r →
  handles_keys = [g3_first_pubkey g; g3_second_pubkey g; g3_third_pubkey g] →
  eq_pubkey eq_ctx = key ∧ real_key key ∧
  ∃ rest lo hi, in_uint 64 rest ∧ decrypts (secret key) (eq_ciphertext eq_ctx) rest ∧
    parts 3 (g3_grouped_ciphertext_lo g) (g3_grouped_ciphertext_hi g) handles_keys lo hi.
Proof.
  intros (u1 & <-%throw_unless_eq & (u2 & Hc%throw_unless & Hb%throw_unless)%bind_Ok)%bind_Ok
    (Hreal & n & Hdec & Hn) (lo & hi & Hlo & Hhi) Hr ->.
  split; [done|]. split; [done|].
  destruct (range_opened _ _ _ 0 _ 64 Hr Hc Hb ltac:(cbn; lia) ltac:(cbn; lia) eq_refl eq_refl)
    as (m & Hm & Hm64); [done|].
  destruct (range_opened _ _ _ 1 _ 16 Hr Hc Hb ltac:(cbn; lia) ltac:(cbn; lia) eq_refl eq_refl)
    as (a & Ha & Ha16); [done|].
  destruct (range_opened _ _ _ 2 _ 32 Hr Hc Hb ltac:(cbn; lia) ltac:(cbn; lia) eq_refl eq_refl)
    as (b & Hb' & Hb32); [done|].
  exists m, a, b. split; [done|]. split.
  - apply (decrypts_order _ _ n m Hdec). by apply (opens_order _ n m Hn).
  - constructor; [by eapply grouped_opened..|done].
Qed.

Lemma withdraw_proof_meaning held w accounts eq_off range_off ctx rest :
  proofs_hold w →
  verify_withdraw_proof held w accounts eq_off range_off = Ok (ctx, rest) →
  ∃ n, in_uint 64 n ∧
    decrypts (secret (wp_source_pubkey ctx)) (wp_remaining_balance_ciphertext ctx) n.
Proof.
  intros Hw ([sv accs] & _ &
    ([e accs1] & He%(proofs_valid Hw ProofType.CiphertextCommitmentEquality) &
    ([r accs2] & Hr%(proofs_valid Hw ProofType.BatchedRangeProofU64) & H)%bind_Ok)%bind_Ok)%bind_Ok.
  apply bind_Ok in H as (x & Hx%from_proof_Ok & [= -> ->]).
  apply bind_Ok in Hx as (c & Hc & (u & ->%throw_unless_eq & (b & Hb & (u1 & ->%throw_unless_key &
    [= <-])%bind_Ok)%bind_Ok)%bind_Ok).
  destruct He as (_ & n & Hdec & Hn), Hr as (_ & _ & Hr).
  destruct (Hr 0%nat (eq_commitment e) 64) as (m & Hm & Hm64); [| |done|].
  - destruct (rp_commitments r); [done|]. by injection Hc as ->.
  - destruct (rp_bit_lengths r); [done|]. by injection Hb as ->.
  - exists m. split; [done|]. apply (decrypts_order _ _ n m Hdec). by apply (opens_order _ n m Hn).
Qed.

Lemma transfer_proof_meaning held w accounts eq_off va_off range_off ctx rest :
  proofs_hold w →
  verify_transfer_proof held w accounts eq_off va_off range_off = Ok (ctx, rest) →
  let keys := tp_transfer_pubkeys ctx in real_key (tp_source keys) ∧
  ∃ left lo hi, in_uint 64 left ∧
    decrypts (secret (tp_source keys)) (tp_new_source_ciphertext ctx) left ∧
    parts 3 (tp_ciphertext_lo ctx) (tp_ciphertext_hi ctx)
      [tp_source keys; tp_destination keys; tp_auditor keys] lo hi.
Proof.
  intros Hw ([sv accs] & _ &
    ([e accs1] & He%(proofs_valid Hw ProofType.CiphertextCommitmentEquality) &
    ([g accs2] & Hg%(proofs_valid Hw ProofType.BatchedGroupedCiphertext3HandlesValidity) &
    ([r accs3] & Hr%(proofs_valid Hw ProofType.BatchedRangeProofU128) & H)
    %bind_Ok)%bind_Ok)%bind_Ok)%bind_Ok.
  apply bind_Ok in H as (x & Hx%from_proof_Ok & [= -> ->]).
  apply bind_Ok in Hx as (u & Hu & [= <-]). cbn.
  destruct (amount_contexts_meaning _ _ _ _ _ _ Hu He Hg Hr eq_refl)
    as (Hkey & Hreal & left & lo & hi & Hl & Hd & Hp).
  rewrite Hkey. split; [done|]. by exists left, lo, hi.
Qed.

(** ** Fees *)
Lemma u16_scalar k : in_uint 16 k → u16_to_scalar k = u64_to_scalar k.
Proof.
  intros [H0 Hk]. unfold u16_to_scalar, u64_to_scalar.
  assert (zeros 30 = zeros 6 ++ zeros 24) as -> by done.
  rewrite (assoc_L (++)). f_equal. symmetry. change 8%nat with (2 + 6)%nat.
  transitivity (le_split (2 + 6) (le_combine (le_split 2 k ++ zeros 6))).
  - rewrite le_combine_app, length_le_split, le_combine_split.
    change (le_combine (zeros 6)) with 0. rewrite Z.shiftl_0_l, Z.lor_0_r.
    by rewrite Z.mod_small.
  - apply split_le_combine'. by rewrite length_app, length_le_split.
Qed.

Lemma combine_points_opens lo hi p a b :
  combine_lo_hi_pedersen_points lo hi = Some p → opens lo a → opens hi b → opens p (combined a b).
Proof.
  intros (x & Hx & Hp)%bind_Some Ha Hb.
  apply (opens_add _ _ _ _ _ Hp Ha). by apply (opens_multiply (2 ^ 16) hi x b).
Qed.

(** The commitment to the rounding error of the fee. *)
Lemma delta_meaning lo hi fee delta rate a b p u :
  verify_delta_commitment lo hi fee delta rate = Ok u → in_uint 16 rate →
  opens lo a → opens hi b → opens fee p →
  opens delta (MAX_FEE_BASIS_POINTS * p - rate * combined a b).
Proof.
  intros (x & Hx%ok_or_Ok & (y & Hy%ok_or_Ok & (z & Hz%ok_or_Ok & (t & Ht%ok_or_Ok &
    ->%throw_unless_eq)%bind_Ok)%bind_Ok)%bind_Ok)%bind_Ok Hrate Ha Hb Hp.
  rewrite u16_scalar in Hy by done. apply (opens_subtract _ _ _ _ _ Ht).
  - by apply (opens_multiply MAX_FEE_BASIS_POINTS fee z p).
  - eapply opens_multiply; [|exact Hy|by eapply combine_points_opens].
    unfold in_uint in *. lia.
Qed.

(** The fee the contexts allow for an amount: the maximum, or the percentage rounded
    up; never more than the amount. *)
Definition fee_allowed (rate maximum amount fee : Z) : Prop :=
  0 ≤ fee ≤ amount ∧
  (fee = maximum ∨ fee = ceil (amount * rate) MAX_FEE_BASIS_POINTS).

Lemma rounding_fee rate amount fee :
  0 ≤ MAX_FEE_BASIS_POINTS * fee - rate * amount < MAX_FEE_BASIS_POINTS →
  fee = ceil (amount * rate) MAX_FEE_BASIS_POINTS.
Proof.
  intros H. apply Z.le_antisymm.
  - assert (fee - 1 < ceil (amount * rate) MAX_FEE_BASIS_POINTS); [|lia].
    apply ceil_lt; unfold MAX_FEE_BASIS_POINTS in *; lia.
  - apply ceil_spec; unfold MAX_FEE_BASIS_POINTS in *; lia.
Qed.

(** The opening of an expected commitment of the range proof, as an amount. *)
Ltac range_at i b Hr Hc Hb :=
  refine (range_opened _ _ _ i _ b Hr Hc Hb _ _ eq_refl eq_refl eq_refl); cbn; lia.

(** The sigma proof gives one of the two fees. *)
Lemma sigma_meaning pc rate maximum amount claimed fee :
  valid ProofType.PercentageWithCap pc → maximum = pc_max_value pc →
  in_uint 16 rate → in_uint 64 maximum → in_uint 64 amount → 0 ≤ fee ≤ amount →
  opens (pc_percentage_commitment pc) fee → opens (pc_claimed_commitment pc) claimed →
  0 ≤ claimed < MAX_FEE_BASIS_POINTS →
  opens (pc_delta_commitment pc) (MAX_FEE_BASIS_POINTS * fee - rate * amount) →
  fee_allowed rate maximum amount fee.
Proof.
  intros Hv -> [Hr0 Hr] [Hm0 Hm] [Ha0 Ha] Hfee Hf Hc Hcr Hd. split; [done|].
  assert (rate * amount < 2 ^ 80).
  { apply Z.le_lt_trans with (2 ^ 16 * amount); [|lia]. apply Z.mul_le_mono_nonneg_r; lia. }
  pose proof (Z.mul_nonneg_nonneg rate amount Hr0 Ha0).
  destruct Hv as [Hv|(n & Hn & Hn')].
  - left. apply (opens_inj (pc_percentage_commitment pc)); [lia|done..].
  - right. apply rounding_fee. unfold MAX_FEE_BASIS_POINTS in *.
    assert (10000 * fee - rate * amount = claimed) as ->; [|done].
    apply (opens_inj (pc_delta_commitment pc)); [lia|done|].
    apply (opens_order _ n claimed Hn). by apply (opens_order _ n claimed Hn').
Qed.

(** What the code requires of the five contexts. *)
Lemma with_fee_checks eq_ctx g pc f r rate maximum ctx :
  verify_and_extract_transfer_with_fee eq_ctx g pc f r rate maximum = Ok ctx →
  ∃ complement net,
    let lo := extract_commitment (g3_grouped_ciphertext_lo g) in
    let hi := extract_commitment (g3_grouped_ciphertext_hi g) in
    let f_lo := extract_commitment (g2_grouped_ciphertext_lo f) in
    let f_hi := extract_commitment (g2_grouped_ciphertext_hi f) in
    let fee := pc_percentage_commitment pc in
    maximum = pc_max_value pc ∧ g3_second_pubkey g = g2_first_pubkey f ∧
    eq_pubkey eq_ctx = g3_first_pubkey g ∧
    zip_all_eq (rp_commitments r)
      [eq_commitment eq_ctx; lo; hi; pc_claimed_commitment pc; complement; f_lo; f_hi; net] = true ∧
    zip_all_eq (rp_bit_lengths r) [64; 16; 32; 16; 16; 16; 32; 64] = true ∧
    (∃ x, multiply_ristretto (u64_to_scalar 9999) G = Some x ∧
       subtract_ristretto x (pc_claimed_commitment pc) = Some complement) ∧
    (∃ x, combine_lo_hi_pedersen_points lo hi = Some x ∧ subtract_ristretto x fee = Some net) ∧
    combine_lo_hi_pedersen_points f_lo f_hi = Some fee ∧
    verify_delta_commitment lo hi fee (pc_delta_commitment pc) rate = Ok tt ∧
    ctx = mkTransferWithFeeProof (g3_grouped_ciphertext_lo g) (g3_grouped_ciphertext_hi g)
      (mkTransferWithFeePubkeys (eq_pubkey eq_ctx) (g3_second_pubkey g) (g3_third_pubkey g)
         (g2_second_pubkey f))
      (eq_ciphertext eq_ctx) (g2_grouped_ciphertext_lo f) (g2_grouped_ciphertext_hi f).
Proof.
  intros (u & Hmax%throw_unless_key & (u1 & Hkey%throw_unless_eq & (x & Hx%ok_or_Ok &
    (complement & Hcomp%ok_or_Ok & (y & Hy%ok_or_Ok & (net & Hnet%ok_or_Ok & H)%bind_Ok)%bind_Ok)
    %bind_Ok)%bind_Ok)%bind_Ok)%bind_Ok.
  apply bind_Ok in H as (u2 & Hc%throw_unless & (u3 & Hb%throw_unless & (z & Hz%ok_or_Ok &
    (u4 & Hsrc%throw_unless_eq & (u5 & ->%throw_unless_eq & ([] & Hd & [= <-])%bind_Ok)%bind_Ok)
    %bind_Ok)%bind_Ok)%bind_Ok).
  exists complement, net. split_and!; eauto.
Qed.

(** The commitments its range proof covers open to amounts. *)
Lemma with_fee_openings r left lo hi claimed complement f_lo f_hi net :
  in_range r →
  zip_all_eq (rp_commitments r) [left; lo; hi; claimed; complement; f_lo; f_hi; net] = true →
  zip_all_eq (rp_bit_lengths r) [64; 16; 32; 16; 16; 16; 32; 64] = true →
  (∃ n, opens left n ∧ in_uint 64 n) ∧ (∃ n, opens lo n ∧ in_uint 16 n) ∧
  (∃ n, opens hi n ∧ in_uint 32 n) ∧ (∃ n, opens claimed n ∧ in_uint 16 n) ∧
  (∃ n, opens complement n ∧ in_uint 16 n) ∧ (∃ n, opens f_lo n ∧ in_uint 16 n) ∧
  (∃ n, opens f_hi n ∧ in_uint 32 n) ∧ (∃ n, opens net n ∧ in_uint 64 n).
Proof.
  intros Hr Hc Hb. split_and!.
  - range_at 0%nat 64 Hr Hc Hb.
  - range_at 1%nat 16 Hr Hc Hb.
  - range_at 2%nat 32 Hr Hc Hb.
  - range_at 3%nat 16 Hr Hc Hb.
  - range_at 4%nat 16 Hr Hc Hb.
  - range_at 5%nat 16 Hr Hc Hb.
  - range_at 6%nat 32 Hr Hc Hb.
  - range_at 7%nat 64 Hr Hc Hb.
Qed.

Lemma claimed_bound c complement x m n :
  multiply_ristretto (u64_to_scalar 9999) G = Some x → subtract_ristretto x c = Some complement →
  opens c m → in_uint 16 m → opens complement n → in_uint 16 n → 0 ≤ m < MAX_FEE_BASIS_POINTS.
Proof.
  rewrite <-encode_generator, multiply_ristretto_encode by done. intros [= <-] Hs Hm [Hm0 Hm'] Hn [Hn0 Hn'].
  pose proof (opens_subtract _ _ _ _ _ Hs (opens_generator 9999) Hm) as Ho.
  assert (9999 - m = n) by (apply (opens_inj complement); [lia|done..]).
  unfold MAX_FEE_BASIS_POINTS. lia.
Qed.

Lemma net_bound y fee net m p d :
  subtract_ristretto y fee = Some net → opens y m → opens fee p → opens net d →
  0 ≤ m < 2 ^ 64 → 0 ≤ p < 2 ^ 64 → 0 ≤ d < 2 ^ 64 → p ≤ m.
Proof.
  intros Hs Hm Hp Hd ???. pose proof (opens_subtract _ _ _ _ _ Hs Hm Hp) as Ho.
  assert (m - p = d) by (apply (opens_inj net); [lia|done..]). lia.
Qed.

Lemma combined_bound lo hi : in_uint 16 lo → in_uint 32 hi → 0 ≤ combined lo hi < 2 ^ 48.
Proof. unfold in_uint, combined. lia. Qed.

(** What the contexts of a transfer with a fee say together. *)
Lemma with_fee_meaning eq_ctx g pc f r rate maximum ctx :
  verify_and_extract_transfer_with_fee eq_ctx g pc f r rate maximum = Ok ctx →
  valid ProofType.CiphertextCommitmentEquality eq_ctx →
  valid ProofType.BatchedGroupedCiphertext3HandlesValidity g →
  valid ProofType.PercentageWithCap pc →
  valid ProofType.BatchedGroupedCiphertext2HandlesValidity f → in_range r →
  in_uint 16 rate → in_uint 64 maximum →
  let keys := tfp_transfer_with_fee_pubkeys ctx in real_key (tfp_source keys) ∧
  ∃ left lo hi f_lo f_hi, in_uint 64 left ∧
    decrypts (secret (tfp_source keys)) (tfp_new_source_ciphertext ctx) left ∧
    parts 3 (tfp_ciphertext_lo ctx) (tfp_ciphertext_hi ctx)
      [tfp_source keys; tfp_destination keys; tfp_auditor keys] lo hi ∧
    parts 2 (tfp_fee_ciphertext_lo ctx) (tfp_fee_ciphertext_hi ctx)
      [tfp_destination keys; tfp_withdraw_withheld_authority keys] f_lo f_hi ∧
    fee_allowed rate maximum (combined lo hi) (combined f_lo f_hi).
Proof.
  intros (complement & net & Hmax & Hk & Hsrc & Hc & Hb & (x & Hx & Hcomp) & (y & Hy & Hnet) & Hfee &
    Hdelta & ->)%with_fee_checks (Hreal & n & Hdec & Hn) (lo0 & hi0 & Hlo0 & Hhi0) Hv
    (f0 & f1 & Hf0 & Hf1) Hr Hrate Hm. cbn.
  destruct (with_fee_openings _ _ _ _ _ _ _ _ _ Hr Hc Hb) as ((left & Hl & Hl') & (lo & Hlo & Hlo') &
    (hi & Hhi & Hhi') & (claimed & Hcl & Hcl') & (rest & Hrest & Hrest') & (f_lo & Hflo & Hflo') &
    (f_hi & Hfhi & Hfhi') & (d & Hd & Hd')).
  split; [done|]. exists left, lo, hi, f_lo, f_hi. split; [done|]. split.
  { apply (decrypts_order _ _ n left Hdec). by apply (opens_order _ n left Hn). }
  split; [rewrite Hsrc; constructor; [by eapply grouped_opened..|done]|].
  split; [rewrite Hk; constructor; [by eapply grouped_opened..|done]|].
  pose proof (combine_points_opens _ _ _ _ _ Hy Hlo Hhi) as Ha.
  pose proof (combine_points_opens _ _ _ _ _ Hfee Hflo Hfhi) as Hp.
  pose proof (combined_bound lo hi Hlo' Hhi'). pose proof (combined_bound f_lo f_hi Hflo' Hfhi').
  apply (sigma_meaning pc rate maximum _ claimed); try done.
  - unfold in_uint. lia.
  - split; [lia|]. apply (net_bound y (pc_percentage_commitment pc) net _ _ d); try done; lia.
  - by apply (claimed_bound (pc_claimed_commitment pc) complement x claimed rest).
  - by apply (delta_meaning _ _ _ _ _ _ _ _ _ Hdelta).
Qed.

Lemma transfer_with_fee_proof_meaning held w accounts eq_off va_off fs fv range_off fee ctx rest :
  proofs_hold w → in_uint 16 (tf_transfer_fee_basis_points fee) → in_uint 64 (tf_maximum_fee fee) →
  verify_transfer_with_fee_proof held w accounts eq_off va_off fs fv range_off fee = Ok (ctx, rest) →
  let keys := tfp_transfer_with_fee_pubkeys ctx in real_key (tfp_source keys) ∧
  ∃ left lo hi f_lo f_hi, in_uint 64 left ∧
    decrypts (secret (tfp_source keys)) (tfp_new_source_ciphertext ctx) left ∧
    parts 3 (tfp_ciphertext_lo ctx) (tfp_ciphertext_hi ctx)
      [tfp_source keys; tfp_destination keys; tfp_auditor keys] lo hi ∧
    parts 2 (tfp_fee_ciphertext_lo ctx) (tfp_fee_ciphertext_hi ctx)
      [tfp_destination keys; tfp_withdraw_withheld_authority keys] f_lo f_hi ∧
    fee_allowed (tf_transfer_fee_basis_points fee) (tf_maximum_fee fee) (combined lo hi)
      (combined f_lo f_hi).
Proof.
  intros Hw Hrate Hmax ([sv accs] & _ &
    ([e accs1] & He%(proofs_valid Hw ProofType.CiphertextCommitmentEquality) &
    ([g accs2] & Hg%(proofs_valid Hw ProofType.BatchedGroupedCiphertext3HandlesValidity) &
    ([pc accs3] & Hp%(proofs_valid Hw ProofType.PercentageWithCap) & H)
    %bind_Ok)%bind_Ok)%bind_Ok)%bind_Ok.
  apply bind_Ok in H as ([f accs4] &
    Hf%(proofs_valid Hw ProofType.BatchedGroupedCiphertext2HandlesValidity) &
    ([r accs5] & Hr%(proofs_valid Hw ProofType.BatchedRangeProofU256) & (x & Hx%from_proof_Ok &
    [= -> ->])%bind_Ok)%bind_Ok).
  by apply (with_fee_meaning e g pc f r).
Qed.

(** ** Minting and burning *)
Import confidential_mint_burn.

Lemma amount_proof_contexts_valid held w accounts eq_off va_off range_off e g r rest :
  proofs_hold w →
  amount_proof_contexts held w accounts eq_off va_off range_off = Ok (e, g, r, rest) →
  valid ProofType.CiphertextCommitmentEquality e ∧
  valid ProofType.BatchedGroupedCiphertext3HandlesValidity g ∧ in_range r.
Proof.
  intros Hw ([sv accs] & _ &
    ([e' accs1] & He%(proofs_valid Hw ProofType.CiphertextCommitmentEquality) &
    ([g' accs2] & Hg%(proofs_valid Hw ProofType.BatchedGroupedCiphertext3HandlesValidity) &
    ([r' accs3] & Hr%(proofs_valid Hw ProofType.BatchedRangeProofU128) & [= -> -> -> ->])
    %bind_Ok)%bind_Ok)%bind_Ok)%bind_Ok.
  done.
Qed.

Lemma mint_proof_meaning held w accounts eq_off va_off range_off ctx rest :
  proofs_hold w →
  verify_mint_proof held w accounts eq_off va_off range_off = Ok (ctx, rest) →
  let keys := mp_mint_pubkeys ctx in real_key (mp_supply keys) ∧
  ∃ supply lo hi, in_uint 64 supply ∧
    decrypts (secret (mp_supply keys)) (mp_new_supply_ciphertext ctx) supply ∧
    parts 3 (mp_mint_amount_ciphertext_lo ctx) (mp_mint_amount_ciphertext_hi ctx)
      [mp_destination keys; mp_supply keys; mp_auditor keys] lo hi.
Proof.
  intros Hw ([[[e g] r] accs] & (He & Hg & Hr)%(amount_proof_contexts_valid _ _ _ _ _ _ _ _ _ _ Hw) &
    (x & Hx%from_proof_Ok & [= -> ->])%bind_Ok)%bind_Ok.
  apply bind_Ok in Hx as (u & Hu & [= <-]). cbn.
  destruct (amount_contexts_meaning _ _ _ _ _ _ Hu He Hg Hr eq_refl)
    as (Hkey & Hreal & supply & lo & hi & Hl & Hd & Hp).
  rewrite Hkey. split; [done|]. by exists supply, lo, hi.
Qed.

Lemma burn_proof_meaning held w accounts eq_off va_off range_off ctx rest :
  proofs_hold w →
  verify_burn_proof held w accounts eq_off va_off range_off = Ok (ctx, rest) →
  let keys := bp_burn_pubkeys ctx in real_key (bp_source keys) ∧
  ∃ left lo hi, in_uint 64 left ∧
    decrypts (secret (bp_source keys)) (bp_remaining_balance_ciphertext ctx) left ∧
    parts 3 (bp_burn_amount_ciphertext_lo ctx) (bp_burn_amount_ciphertext_hi ctx)
      [bp_source keys; bp_supply keys; bp_auditor keys] lo hi.
Proof.
  intros Hw ([[[e g] r] accs] & (He & Hg & Hr)%(amount_proof_contexts_valid _ _ _ _ _ _ _ _ _ _ Hw) &
    (x & Hx%from_proof_Ok & [= -> ->])%bind_Ok)%bind_Ok.
  apply bind_Ok in Hx as (u & Hu & [= <-]). cbn.
  destruct (amount_contexts_meaning _ _ _ _ _ _ Hu He Hg Hr eq_refl)
    as (Hkey & Hreal & left & lo & hi & Hl & Hd & Hp).
  rewrite Hkey. split; [done|]. by exists left, lo, hi.
Qed.
End valid.
