(* ===== verification/ExtensionOps.v ===== *)
(** * The processors of the smaller extensions

    [program/src/extension/*/processor.rs] for the extensions that hold a flag, a
    pointer, a rate or a multiplier: each processor decodes its instruction,
    prepares the extension of a mint to come or updates the one of a mint or
    account that exists. *)
From S2P Require Import Prelude Codec Errors Runtime Pod State ExtensionType ExtensionData.
From S2P Require Import Tlv TlvAlloc StateExt Fee Authority Transfer AccountFacts Instruction.
From S2P Require Import TransferFeeOps.

Section processors.
Context `{rt : Runtime}.
Implicit Types (w : world) (accounts : list AccountInfo) (input : list byte).
Implicit Types (authority delegate : Pubkey) (program_id : Pubkey).

(** [let extension = if let Ok(e) = account.get_extension_mut::<V>() { e } else
    { account.init_extension::<V>(true)? }] on a token account: the area that
    holds the extension. *)
Definition get_or_init_account_ext V `{Extension V} (tlv : list byte) : res (list byte) :=
  match get_account_ext V tlv with
  | Ok _ => Ok tlv
  | Err _ => init_extension PodAccount V true tlv
  | Panic => Panic
  end.

(** ** [memo_transfer/processor.rs] *)
Inductive RequiredMemoTransfersInstruction := EnableMemo | DisableMemo.
Definition memo_instruction_try_from (b : Z) : option RequiredMemoTransfersInstruction :=
  [EnableMemo; DisableMemo] !! Z.to_nat b.

Definition process_toggle_required_memo_transfers program_id accounts (enable : bool) w :
    res world :=
  '(token_account_info, accounts) ← next_account_info accounts;
  '(owner_info, accounts) ← next_account_info accounts;
  let owner_info_data_len := data_len w owner_info in
  account_data ← borrow [] w token_account_info;
  account ← unpack_account account_data;
  validate_owner [key token_account_info] w program_id (acc_owner (base account)) owner_info
    owner_info_data_len accounts;;
  tlv ← get_or_init_account_ext MemoTransfer (tlv_data account);
  Ok (write_account w token_account_info
        (put_account_ext (mkMemoTransfer (from_bool enable)) (with_tlv tlv account))).

Definition process_memo_transfer_instruction program_id accounts input w : res world :=
  check_program_account program_id;;
  instruction ← decode_instruction_type memo_instruction_try_from input;
  match instruction with
  | EnableMemo => process_toggle_required_memo_transfers program_id accounts true w
  | DisableMemo => process_toggle_required_memo_transfers program_id accounts false w
  end.

(** ** [cpi_guard/processor.rs] *)
Inductive CpiGuardInstruction := EnableGuard | DisableGuard.
Definition cpi_guard_instruction_try_from (b : Z) : option CpiGuardInstruction :=
  [EnableGuard; DisableGuard] !! Z.to_nat b.

Definition process_toggle_cpi_guard program_id accounts (enable : bool) w : res world :=
  '(token_account_info, accounts) ← next_account_info accounts;
  '(owner_info, accounts) ← next_account_info accounts;
  let owner_info_data_len := data_len w owner_info in
  account_data ← borrow [] w token_account_info;
  account ← unpack_account account_data;
  validate_owner [key token_account_info] w program_id (acc_owner (base account)) owner_info
    owner_info_data_len accounts;;
  throw_if in_cpi (tok CpiGuardSettingsLocked);;
  tlv ← get_or_init_account_ext CpiGuard (tlv_data account);
  Ok (write_account w token_account_info
        (put_account_ext (mkCpiGuard (from_bool enable)) (with_tlv tlv account))).

Definition process_cpi_guard_instruction program_id accounts input w : res world :=
  check_program_account program_id;;
  instruction ← decode_instruction_type cpi_guard_instruction_try_from input;
  match instruction with
  | EnableGuard => process_toggle_cpi_guard program_id accounts true w
  | DisableGuard => process_toggle_cpi_guard program_id accounts false w
  end.

(** ** [default_account_state/processor.rs] *)
Inductive DefaultAccountStateInstruction := InitializeDefaultState | UpdateDefaultState.
Definition default_account_state_instruction_try_from (b : Z) :
    option DefaultAccountStateInstruction :=
  [InitializeDefaultState; UpdateDefaultState] !! Z.to_nat b.

(** [decode_instruction] of [interface/src/extension/default_account_state] *)
Definition decode_default_account_state_instruction input :
    res (DefaultAccountStateInstruction * AccountState) :=
  match input with
  | [tag; state] =>
      instruction ← ok_or (default_account_state_instruction_try_from (byte.unsigned tag))
                      (tok InvalidInstruction);
      state ← ok_or (account_state_try_from (byte.unsigned state)) (tok InvalidInstruction);
      Ok (instruction, state)
  | _ => Err (tok InvalidInstruction)
  end.

Definition check_valid_default_state (state : AccountState) : res unit :=
  match state with
  | Uninitialized => Err (tok InvalidState)
  | _ => Ok tt
  end.

Definition process_initialize_default_account_state accounts (state : AccountState) w :
    res world :=
  check_valid_default_state state;;
  '(mint_account_info, accounts) ← next_account_info accounts;
  mint_data ← borrow [] w mint_account_info;
  mint ← unpack_uninitialized PodMint mint_data;
  tlv ← init_extension PodMint DefaultAccountState true (tlv_data mint);
  Ok (write_mint w mint_account_info
        (put_mint_ext (mkDefaultAccountState (account_state_u8 state)) (with_tlv tlv mint))).

Definition process_update_default_account_state program_id accounts (state : AccountState) w :
    res world :=
  check_valid_default_state state;;
  '(mint_account_info, accounts) ← next_account_info accounts;
  '(freeze_authority_info, accounts) ← next_account_info accounts;
  let freeze_authority_info_data_len := data_len w freeze_authority_info in
  mint_data ← borrow [] w mint_account_info;
  mint ← unpack_mint mint_data;
  match co_get (freeze_authority (base mint)) with
  | Some freeze_authority =>
      validate_owner [key mint_account_info] w program_id freeze_authority freeze_authority_info
        freeze_authority_info_data_len accounts
  | None => Err (tok NoAuthorityExists)
  end;;
  extension ← get_mint_ext DefaultAccountState (tlv_data mint);
  Ok (write_mint w mint_account_info
        (put_mint_ext (mkDefaultAccountState (account_state_u8 state)) mint)).

Definition process_default_account_state_instruction program_id accounts input w : res world :=
  check_program_account program_id;;
  '(instruction, state) ← decode_default_account_state_instruction input;
  match instruction with
  | InitializeDefaultState => process_initialize_default_account_state accounts state w
  | UpdateDefaultState => process_update_default_account_state program_id accounts state w
  end.
(** Neither of two optional keys is given. *)
Definition neither_key (a b : Pubkey) : bool :=
  match optional_get a, optional_get b with
  | None, None => true
  | _, _ => false
  end.

(** ** [metadata_pointer/processor.rs] *)
Inductive MetadataPointerInstruction := InitializeMetadataPointer | UpdateMetadataPointer.
Definition metadata_pointer_instruction_try_from (b : Z) : option MetadataPointerInstruction :=
  [InitializeMetadataPointer; UpdateMetadataPointer] !! Z.to_nat b.

Definition process_initialize_metadata_pointer accounts (authority metadata_address : Pubkey) w : res world :=
  '(mint_account_info, accounts) ← next_account_info accounts;
  mint_data ← borrow [] w mint_account_info;
  mint ← unpack_uninitialized PodMint mint_data;
  tlv ← init_extension PodMint MetadataPointer true (tlv_data mint);
  throw_if (neither_key authority metadata_address) (tok InvalidInstruction);;
  Ok (write_mint w mint_account_info
        (put_mint_ext (mkMetadataPointer authority metadata_address) (with_tlv tlv mint))).

Definition process_update_metadata_pointer program_id accounts (new_metadata_address : Pubkey) w : res world :=
  '(mint_account_info, accounts) ← next_account_info accounts;
  '(owner_info, accounts) ← next_account_info accounts;
  let owner_info_data_len := data_len w owner_info in
  mint_data ← borrow [] w mint_account_info;
  mint ← unpack_mint mint_data;
  extension ← get_mint_ext MetadataPointer (tlv_data mint);
  authority ← ok_or (optional_get (mp_authority extension)) (tok NoAuthorityExists);
  validate_owner [key mint_account_info] w program_id authority owner_info owner_info_data_len
    accounts;;
  Ok (write_mint w mint_account_info
        (put_mint_ext (mkMetadataPointer (mp_authority extension) new_metadata_address) mint)).

Definition process_metadata_pointer_instruction program_id accounts input w : res world :=
  check_program_account program_id;;
  instruction ← decode_instruction_type metadata_pointer_instruction_try_from input;
  match instruction with
  | InitializeMetadataPointer =>
      '(authority, metadata_address) ← decode_instruction_data (pair_codec pubkey pubkey) input;
      process_initialize_metadata_pointer accounts authority metadata_address w
  | UpdateMetadataPointer =>
      metadata_address ← decode_instruction_data pubkey input;
      process_update_metadata_pointer program_id accounts metadata_address w
  end.

(** ** [group_pointer/processor.rs] *)
Inductive GroupPointerInstruction := InitializeGroupPointer | UpdateGroupPointer.
Definition group_pointer_instruction_try_from (b : Z) : option GroupPointerInstruction :=
  [InitializeGroupPointer; UpdateGroupPointer] !! Z.to_nat b.

Definition process_initialize_group_pointer accounts (authority group_address : Pubkey) w : res world :=
  '(mint_account_info, accounts) ← next_account_info accounts;
  mint_data ← borrow [] w mint_account_info;
  mint ← unpack_uninitialized PodMint mint_data;
  throw_if (neither_key authority group_address) (tok InvalidInstruction);;
  tlv ← init_extension PodMint GroupPointer true (tlv_data mint);
  Ok (write_mint w mint_account_info
        (put_mint_ext (mkGroupPointer authority group_address) (with_tlv tlv mint))).

Definition process_update_group_pointer program_id accounts (new_group_address : Pubkey) w : res world :=
  '(mint_account_info, accounts) ← next_account_info accounts;
  '(owner_info, accounts) ← next_account_info accounts;
  let owner_info_data_len := data_len w owner_info in
  mint_data ← borrow [] w mint_account_info;
  mint ← unpack_mint mint_data;
  extension ← get_mint_ext GroupPointer (tlv_data mint);
  authority ← ok_or (optional_get (gp_authority extension)) (tok NoAuthorityExists);
  validate_owner [key mint_account_info] w program_id authority owner_info owner_info_data_len
    accounts;;
  Ok (write_mint w mint_account_info
        (put_mint_ext (mkGroupPointer (gp_authority extension) new_group_address) mint)).

Definition process_group_pointer_instruction program_id accounts input w : res world :=
  check_program_account program_id;;
  instruction ← decode_instruction_type group_pointer_instruction_try_from input;
  match instruction with
  | InitializeGroupPointer =>
      '(authority, group_address) ← decode_instruction_data (pair_codec pubkey pubkey) input;
      process_initialize_group_pointer accounts authority group_address w
  | UpdateGroupPointer =>
      group_address ← decode_instruction_data pubkey input;
      process_update_group_pointer program_id accounts group_address w
  end.

(** ** [group_member_pointer/processor.rs] *)
Inductive GroupMemberPointerInstruction := InitializeGroupMemberPointer | UpdateGroupMemberPointer.
Definition group_member_pointer_instruction_try_from (b : Z) : option GroupMemberPointerInstruction :=
  [InitializeGroupMemberPointer; UpdateGroupMemberPointer] !! Z.to_nat b.

Definition process_initialize_group_member_pointer accounts (authority member_address : Pubkey) w : res world :=
  '(mint_account_info, accounts) ← next_account_info accounts;
  mint_data ← borrow [] w mint_account_info;
  mint ← unpack_uninitialized PodMint mint_data;
  throw_if (neither_key authority member_address) (tok InvalidInstruction);;
  tlv ← init_extension PodMint GroupMemberPointer true (tlv_data mint);
  Ok (write_mint w mint_account_info
        (put_mint_ext (mkGroupMemberPointer authority member_address) (with_tlv tlv mint))).

Definition process_update_group_member_pointer program_id accounts (new_member_address : Pubkey) w : res world :=
  '(mint_account_info, accounts) ← next_account_info accounts;
  '(owner_info, accounts) ← next_account_info accounts;
  let owner_info_data_len := data_len w owner_info in
  mint_data ← borrow [] w mint_account_info;
  mint ← unpack_mint mint_data;
  extension ← get_mint_ext GroupMemberPointer (tlv_data mint);
  authority ← ok_or (optional_get (gmp_authority extension)) (tok NoAuthorityExists);
  validate_owner [key mint_account_info] w program_id authority owner_info owner_info_data_len
    accounts;;
  Ok (write_mint w mint_account_info
        (put_mint_ext (mkGroupMemberPointer (gmp_authority extension) new_member_address) mint)).

Definition process_group_member_pointer_instruction program_id accounts input w : res world :=
  check_program_account program_id;;
  instruction ← decode_instruction_type group_member_pointer_instruction_try_from input;
  match instruction with
  | InitializeGroupMemberPointer =>
      '(authority, member_address) ← decode_instruction_data (pair_codec pubkey pubkey) input;
      process_initialize_group_member_pointer accounts authority member_address w
  | UpdateGroupMemberPointer =>
      member_address ← decode_instruction_data pubkey input;
      process_update_group_member_pointer program_id accounts member_address w
  end.

(** ** [transfer_hook/processor.rs] *)
Inductive TransferHookInstruction := InitializeTransferHook | UpdateTransferHook.
Definition transfer_hook_instruction_try_from (b : Z) : option TransferHookInstruction :=
  [InitializeTransferHook; UpdateTransferHook] !! Z.to_nat b.

Definition process_initialize_transfer_hook program_id accounts
    (authority transfer_hook_program_id : Pubkey) w : res world :=
  '(mint_account_info, accounts) ← next_account_info accounts;
  mint_data ← borrow [] w mint_account_info;
  mint ← unpack_uninitialized PodMint mint_data;
  tlv ← init_extension PodMint TransferHook true (tlv_data mint);
  match optional_get transfer_hook_program_id with
  | Some transfer_hook_program_id =>
      throw_if (transfer_hook_program_id =? program_id) IncorrectProgramId
  | None =>
      match optional_get authority with
      | None => Err (tok InvalidInstruction)
      | Some _ => Ok tt
      end
  end;;
  Ok (write_mint w mint_account_info
        (put_mint_ext (mkTransferHook authority transfer_hook_program_id) (with_tlv tlv mint))).

Definition process_update_transfer_hook program_id accounts (new_program_id : Pubkey) w :
    res world :=
  '(mint_account_info, accounts) ← next_account_info accounts;
  '(owner_info, accounts) ← next_account_info accounts;
  let owner_info_data_len := data_len w owner_info in
  mint_data ← borrow [] w mint_account_info;
  mint ← unpack_mint mint_data;
  extension ← get_mint_ext TransferHook (tlv_data mint);
  authority ← ok_or (optional_get (th_authority extension)) (tok NoAuthorityExists);
  validate_owner [key mint_account_info] w program_id authority owner_info owner_info_data_len
    accounts;;
  match optional_get new_program_id with
  | Some new_program_id => throw_if (new_program_id =? program_id) IncorrectProgramId
  | None => Ok tt
  end;;
  Ok (write_mint w mint_account_info
        (put_mint_ext (mkTransferHook (th_authority extension) new_program_id) mint)).

Definition process_transfer_hook_instruction program_id accounts input w : res world :=
  check_program_account program_id;;
  instruction ← decode_instruction_type transfer_hook_instruction_try_from input;
  match instruction with
  | InitializeTransferHook =>
      '(authority, transfer_hook_program_id) ←
        decode_instruction_data (pair_codec pubkey pubkey) input;
      process_initialize_transfer_hook program_id accounts authority transfer_hook_program_id w
  | UpdateTransferHook =>
      transfer_hook_program_id ← decode_instruction_data pubkey input;
      process_update_transfer_hook program_id accounts transfer_hook_program_id w
  end.

(** ** [pausable/processor.rs] *)
Inductive PausableInstruction := InitializePausable | Pause | Resume.
Definition pausable_instruction_try_from (b : Z) : option PausableInstruction :=
  [InitializePausable; Pause; Resume] !! Z.to_nat b.

Definition process_initialize_pausable accounts authority w : res world :=
  '(mint_account_info, accounts) ← next_account_info accounts;
  mint_data ← borrow [] w mint_account_info;
  mint ← unpack_uninitialized PodMint mint_data;
  tlv ← init_extension PodMint PausableConfig true (tlv_data mint);
  authority ← optional_from_coption (Some authority);
  extension ← get_mint_ext PausableConfig tlv;
  Ok (write_mint w mint_account_info
        (put_mint_ext (mkPausableConfig authority (pc_paused extension)) (with_tlv tlv mint))).

Definition process_toggle_pause program_id accounts (pause : bool) w : res world :=
  '(mint_account_info, accounts) ← next_account_info accounts;
  '(authority_info, accounts) ← next_account_info accounts;
  let authority_info_data_len := data_len w authority_info in
  mint_data ← borrow [] w mint_account_info;
  mint ← unpack_mint mint_data;
  extension ← get_mint_ext PausableConfig (tlv_data mint);
  authority ← ok_or (optional_get (pc_authority extension)) (tok AuthorityTypeNotSupported);
  validate_owner [key mint_account_info] w program_id authority authority_info
    authority_info_data_len accounts;;
  Ok (write_mint w mint_account_info
        (put_mint_ext (mkPausableConfig (pc_authority extension) (from_bool pause)) mint)).

Definition process_pausable_instruction program_id accounts input w : res world :=
  check_program_account program_id;;
  instruction ← decode_instruction_type pausable_instruction_try_from input;
  match instruction with
  | InitializePausable =>
      authority ← decode_instruction_data pubkey input;
      process_initialize_pausable accounts authority w
  | Pause => process_toggle_pause program_id accounts true w
  | Resume => process_toggle_pause program_id accounts false w
  end.

(** ** [interest_bearing_mint/processor.rs] *)
Inductive InterestBearingMintInstruction := InitializeInterestBearing | UpdateRate.
Definition interest_bearing_instruction_try_from (b : Z) :
    option InterestBearingMintInstruction :=
  [InitializeInterestBearing; UpdateRate] !! Z.to_nat b.

(** [InterestBearingConfig::time_weighted_average_rate], in 128-bit arithmetic *)
Definition time_weighted_average_rate (self : InterestBearingConfig) (current_timestamp : Z) :
    option Z :=
  let initialization_timestamp := ibc_initialization_timestamp self in
  let last_update_timestamp := ibc_last_update_timestamp self in
  let r_1 := ibc_pre_update_average_rate self in
  t_1 ← checked_sub_signed 128 last_update_timestamp initialization_timestamp;
  let r_2 := ibc_current_rate self in
  t_2 ← checked_sub_signed 128 current_timestamp last_update_timestamp;
  total_timespan ← checked_add_signed 128 t_1 t_2;
  average_rate ←
    (if total_timespan =? 0 then Some r_2
     else
       x ← checked_mul_signed 128 r_1 t_1;
       y ← checked_mul_signed 128 r_2 t_2;
       sum ← checked_add_signed 128 x y;
       checked_div_signed 128 sum total_timespan);
  to_sint 16 average_rate.

Definition process_initialize_interest_bearing_mint accounts (rate_authority : Pubkey) (rate : Z)
    w : res world :=
  '(mint_account_info, accounts) ← next_account_info accounts;
  mint_data ← borrow [] w mint_account_info;
  mint ← unpack_uninitialized PodMint mint_data;
  clock ← clock_get;
  tlv ← init_extension PodMint InterestBearingConfig true (tlv_data mint);
  Ok (write_mint w mint_account_info
        (put_mint_ext
           (mkInterestBearingConfig rate_authority (unix_timestamp clock) rate
              (unix_timestamp clock) rate) (with_tlv tlv mint))).

Definition process_update_rate program_id accounts (new_rate : Z) w : res world :=
  '(mint_account_info, accounts) ← next_account_info accounts;
  '(owner_info, accounts) ← next_account_info accounts;
  let owner_info_data_len := data_len w owner_info in
  mint_data ← borrow [] w mint_account_info;
  mint ← unpack_mint mint_data;
  extension ← get_mint_ext InterestBearingConfig (tlv_data mint);
  rate_authority ← ok_or (optional_get (ibc_rate_authority extension)) (tok NoAuthorityExists);
  validate_owner [key mint_account_info] w program_id rate_authority owner_info
    owner_info_data_len accounts;;
  clock ← clock_get;
  new_average_rate ←
    ok_or (time_weighted_average_rate extension (unix_timestamp clock)) (tok Overflow);
  Ok (write_mint w mint_account_info
        (put_mint_ext
           (mkInterestBearingConfig (ibc_rate_authority extension)
              (ibc_initialization_timestamp extension) new_average_rate
              (unix_timestamp clock) new_rate) mint)).

Definition process_interest_bearing_instruction program_id accounts input w : res world :=
  check_program_account program_id;;
  instruction ← decode_instruction_type interest_bearing_instruction_try_from input;
  match instruction with
  | InitializeInterestBearing =>
      '(rate_authority, rate) ← decode_instruction_data (pair_codec pubkey i16) input;
      process_initialize_interest_bearing_mint accounts rate_authority rate w
  | UpdateRate =>
      new_rate ← decode_instruction_data i16 input;
      process_update_rate program_id accounts new_rate w
  end.

(** ** [scaled_ui_amount/processor.rs] *)
Inductive ScaledUiAmountMintInstruction := InitializeScaledUiAmount | UpdateMultiplier.
Definition scaled_ui_amount_instruction_try_from (b : Z) :
    option ScaledUiAmountMintInstruction :=
  [InitializeScaledUiAmount; UpdateMultiplier] !! Z.to_nat b.

(** [f64::is_sign_positive] and [f64::is_normal], on the bits of the float *)
Definition is_sign_positive (bits : Z) : bool := negb (Z.testbit bits 63).
Definition is_normal (bits : Z) : bool :=
  let exponent := Z.land (Z.shiftr bits 52) 2047 in
  negb (exponent =? 0) && negb (exponent =? 2047).

Definition try_validate_multiplier (multiplier : list byte) : res unit :=
  let float_multiplier := le_combine multiplier in
  if is_sign_positive float_multiplier && is_normal float_multiplier then Ok tt
  else Err (tok InvalidScale).

Definition process_initialize_scaled_ui_amount accounts authority (multiplier : list byte) w :
    res world :=
  '(mint_account_info, accounts) ← next_account_info accounts;
  mint_data ← borrow [] w mint_account_info;
  mint ← unpack_uninitialized PodMint mint_data;
  tlv ← init_extension PodMint ScaledUiAmountConfig true (tlv_data mint);
  try_validate_multiplier multiplier;;
  Ok (write_mint w mint_account_info
        (put_mint_ext (mkScaledUiAmountConfig authority multiplier 0 multiplier)
           (with_tlv tlv mint))).

(** The schedule of [process_update_multiplier] *)
Definition schedule_multiplier (now : Z) (new_multiplier : list byte) (effective_timestamp : Z)
    (e : ScaledUiAmountConfig) : ScaledUiAmountConfig :=
  let multiplier :=
    if sua_new_multiplier_effective_timestamp e <=? now
    then sua_new_multiplier e else sua_multiplier e in
  let new_multiplier_effective_timestamp :=
    if effective_timestamp <? 0 then 0 else effective_timestamp in
  let multiplier := if effective_timestamp <=? now then new_multiplier else multiplier in
  mkScaledUiAmountConfig (sua_authority e) multiplier new_multiplier_effective_timestamp
    new_multiplier.

Definition process_update_multiplier program_id accounts (new_multiplier : list byte)
    (effective_timestamp : Z) w : res world :=
  '(mint_account_info, accounts) ← next_account_info accounts;
  '(owner_info, accounts) ← next_account_info accounts;
  let owner_info_data_len := data_len w owner_info in
  mint_data ← borrow [] w mint_account_info;
  mint ← unpack_mint mint_data;
  extension ← get_mint_ext ScaledUiAmountConfig (tlv_data mint);
  authority ← ok_or (optional_get (sua_authority extension)) (tok NoAuthorityExists);
  validate_owner [key mint_account_info] w program_id authority owner_info owner_info_data_len
    accounts;;
  try_validate_multiplier new_multiplier;;
  clock ← clock_get;
  Ok (write_mint w mint_account_info
        (put_mint_ext
           (schedule_multiplier (unix_timestamp clock) new_multiplier effective_timestamp extension)
           mint)).

Definition process_scaled_ui_amount_instruction program_id accounts input w : res world :=
  check_program_account program_id;;
  instruction ← decode_instruction_type scaled_ui_amount_instruction_try_from input;
  match instruction with
  | InitializeScaledUiAmount =>
      '(authority, multiplier) ← decode_instruction_data (pair_codec pubkey (bytes_codec 8)) input;
      process_initialize_scaled_ui_amount accounts authority multiplier w
  | UpdateMultiplier =>
      '(multiplier, effective_timestamp) ←
        decode_instruction_data (pair_codec (bytes_codec 8) i64) input;
      process_update_multiplier program_id accounts multiplier effective_timestamp w
  end.
End processors.
