(* ===== verification/AccountAlloc.v ===== *)
(** * Extensions that grow their account

    [alloc_and_serialize] and [alloc_and_serialize_variable_len_extension] of
    [interface/src/extension/mod.rs]: an extension is written into an initialized
    account, which is resized to the length the extension needs; and the methods
    for extensions of variable length that they use. *)
From S2P Require Import Prelude Codec Errors Runtime Pod State ExtensionType ExtensionData Tlv.
From S2P Require Import TlvFacts TlvAlloc StateExt Fee Authority Transfer AccountFacts InitOps.

(** [spl_type_length_value::variable_len_pack::VariableLenPack]: the length a value
    needs, its bytes written into a slice, and the value read from one. *)
Class VariableLenPack (V : Type) := {
  get_packed_len : V → res nat;
  v_pack_into_slice : V → list byte → res (list byte);
  v_unpack_from_slice : list byte → res V;
}.

(** An [Extension] of variable length. *)
Class VariableExtension (V : Type) := {
  VTYPE : ExtensionType;
  #[global] variable_pack :: VariableLenPack V;
}.
Arguments VTYPE V {_}.

(** What the trait documents of a type that is packed: it fills the slice it is
    given, and reads back what it wrote. *)
Class VariableLenPackLaws (V : Type) `{VariableLenPack V} := {
  v_pack_length (v : V) bs bs' : v_pack_into_slice v bs = Ok bs' → length bs' = length bs;
  v_pack_unpack (v : V) bs bs' : get_packed_len v = Ok (length bs) →
    v_pack_into_slice v bs = Ok bs' → v_unpack_from_slice bs' = Ok v;
}.

Section alloc.
Context `{rt : Runtime}.
Context (S : Type) `{HB : BaseState S} `{HP : !PodState S}.
Implicit Types (tlv : list byte) (i : AccountInfo) (w : world).

(** [get_variable_len_extension::<V>] *)
Definition get_variable_len_extension V `{VariableExtension V} tlv : res V :=
  data ← get_extension_bytes S (VTYPE V) tlv;
  v_unpack_from_slice data.

(** [realloc_variable_len_extension], of the area *)
Definition realloc_variable_len_extension {V} `{VariableExtension V} (new_extension : V) tlv :
    res (list byte) :=
  packed_len ← get_packed_len new_extension;
  '(tlv, (a, b)) ← realloc (VTYPE V) packed_len tlv;
  data ← v_pack_into_slice new_extension (slice a b tlv);
  Ok (splice a data tlv).

(** [init_variable_len_extension] *)
Definition init_variable_len_extension {V} `{VariableExtension V} (extension : V)
    (overwrite : bool) tlv : res (list byte) :=
  packed_len ← get_packed_len extension;
  '(tlv, (a, b)) ← alloc S (VTYPE V) packed_len overwrite tlv;
  data ← v_pack_into_slice extension (slice a b tlv);
  Ok (splice a data tlv).

(** [try_get_new_account_len::<V>] and its variant for a value of variable length *)
Definition try_get_new_account_len V `{Extension V} tlv : res nat :=
  try_get_new_account_len_for_extension_len S (TYPE V) tlv (ext_size V).
Definition try_get_new_account_len_for_variable_len_extension {V} `{VariableExtension V}
    (new_extension : V) tlv : res nat :=
  packed_len ← get_packed_len new_extension;
  try_get_new_account_len_for_extension_len S (VTYPE V) tlv packed_len.

(** The state of an account written back. *)
Definition write_state w i (state : PodStateMut S) : world :=
  set_data w (key i) (state_bytes S state).

(** [alloc_and_serialize], while the data of the accounts [held] is borrowed *)
Definition alloc_and_serialize {V} `{Extension V} (held : list Pubkey) (account_info : AccountInfo)
    (new_extension : V) (overwrite : bool) w : res world :=
  data ← try_borrow_data held w account_info;
  let previous_account_len := length data in
  state ← unpack_ref S data;
  new_account_len ← try_get_new_account_len V (ref_tlv state);
  w ← (if (previous_account_len <? new_account_len)%nat
       then resize w (key account_info) new_account_len else Ok w);
  buffer ← try_borrow_data held w account_info;
  buffer ← (if (previous_account_len <=? BASE_ACCOUNT_LENGTH)%nat
            then set_account_type S buffer else Ok buffer);
  state ← unpack S buffer;
  tlv ← init_extension S V overwrite (tlv_data state);
  Ok (write_state w account_info (with_tlv (put_extension S new_extension tlv) state)).

(** [alloc_and_serialize_variable_len_extension] *)
Definition alloc_and_serialize_variable_len_extension {V} `{VariableExtension V}
    (held : list Pubkey) (account_info : AccountInfo) (new_extension : V) (overwrite : bool) w :
    res world :=
  data ← try_borrow_data held w account_info;
  let previous_account_len := length data in
  state ← unpack_ref S data;
  new_account_len ← try_get_new_account_len_for_variable_len_extension new_extension (ref_tlv state);
  let extension_already_exists := is_ok (get_extension_bytes S (VTYPE V) (ref_tlv state)) in
  throw_if (extension_already_exists && negb overwrite) (tok ExtensionAlreadyInitialized);;
  if (previous_account_len <? new_account_len)%nat then
    w ← resize w (key account_info) new_account_len;
    buffer ← try_borrow_data held w account_info;
    if extension_already_exists then
      state ← unpack S buffer;
      tlv ← realloc_variable_len_extension new_extension (tlv_data state);
      Ok (write_state w account_info (with_tlv tlv state))
    else
      buffer ← (if (previous_account_len <=? BASE_ACCOUNT_LENGTH)%nat
                then set_account_type S buffer else Ok buffer);
      state ← unpack S buffer;
      tlv ← init_variable_len_extension new_extension false (tlv_data state);
      Ok (write_state w account_info (with_tlv tlv state))
  else
    buffer ← try_borrow_data held w account_info;
    state ← unpack S buffer;
    tlv ← (if extension_already_exists
           then realloc_variable_len_extension new_extension (tlv_data state)
           else init_variable_len_extension new_extension false (tlv_data state));
    let w := write_state w account_info (with_tlv tlv state) in
    let removed_bytes := (previous_account_len - new_account_len)%nat in
    if (0 <? removed_bytes)%nat then resize w (key account_info) new_account_len else Ok w.
End alloc.
