(* ===== verification/InterfaceOps.v ===== *)
(** * The metadata and group interfaces

    [program/src/extension/token_metadata/processor.rs] and
    [program/src/extension/token_group/processor.rs].  The records, their codecs and
    the decoding of instructions are code of the crates [spl_token_metadata_interface]
    and [spl_token_group_interface], and fields of two classes. *)
From S2P Require Import Prelude Codec Errors Runtime Pod State ExtensionType ExtensionData Tlv.
From S2P Require Import TlvFacts TlvAlloc StateExt Fee Authority Transfer AccountFacts InitOps.
From S2P Require Import TransferFeeOps AccountAlloc.

#[export] Instance PodCOption_eq_dec : EqDecision PodCOption.
Proof. solve_decision. Defined.

(** The mint authority signs, and the mint points to the extension [V]: the checks
    before an extension of the interfaces is added to a mint. *)
Definition check_mint_authority `{rt : Runtime} V `{Extension V} (mint_info mint_authority_info :
    AccountInfo) (incorrect_mint_authority : ProgramError) (w : world) : res unit :=
  check_program_account (info_owner w mint_info);;
  mint_data ← try_borrow_data [] w mint_info;
  mint ← unpack_ref PodMint mint_data;
  throw_if (negb (is_signer mint_authority_info)) MissingRequiredSignature;;
  throw_if (negb (bool_decide (mint_authority (ref_base mint) = co_some (key mint_authority_info))))
    incorrect_mint_authority;;
  throw_if (negb (is_ok (get_mint_ext V (ref_tlv mint)))) (tok InvalidExtensionCombination).

(** [check_update_authority] of both processors, with the errors of each. *)
Definition check_update_authority (immutable incorrect_update_authority : ProgramError)
    (update_authority_info : AccountInfo) (expected_update_authority : Pubkey) : res unit :=
  throw_if (negb (is_signer update_authority_info)) MissingRequiredSignature;;
  update_authority ← ok_or (optional_get expected_update_authority) immutable;
  throw_if (negb (update_authority =? key update_authority_info)) incorrect_update_authority.

Module token_metadata.
(** The constructors of [TokenMetadataError] that the program uses. *)
Inductive TokenMetadataError :=
| ImmutableMetadata | IncorrectUpdateAuthority | IncorrectMintAuthority | KeyNotFound.

Inductive TokenMetadataInstruction (Field : Type) :=
| Initialize (name symbol uri : string)
| UpdateField (field : Field) (value : string)
| RemoveKey (idempotent : bool) (k : string)
| UpdateAuthority (new_authority : Pubkey)
| Emit (start end_ : option Z).
Arguments Initialize {Field}.
Arguments UpdateField {Field}.
Arguments RemoveKey {Field}.
Arguments UpdateAuthority {Field}.
Arguments Emit {Field}.

(** [spl_token_metadata_interface] *)
Class MetadataInterface := {
  TokenMetadata : Type;
  Field : Type;
  #[global] TokenMetadata_pack :: VariableLenPack TokenMetadata;
  (** a [TokenMetadata] with the fields name, symbol, uri, update authority and mint,
      and no additional metadata *)
  new_metadata : string → string → string → Pubkey → Pubkey → TokenMetadata;
  update_authority : TokenMetadata → Pubkey;
  set_update_authority : Pubkey → TokenMetadata → TokenMetadata;
  (** [TokenMetadata::update], [::remove_key], [::get_slice] *)
  update : Field → string → TokenMetadata → TokenMetadata;
  remove_key : string → TokenMetadata → TokenMetadata * bool;
  get_slice : list byte → option Z → option Z → option (list byte);
  metadata_error : TokenMetadataError → ProgramError;
  metadata_instruction_unpack : list byte → option (TokenMetadataInstruction Field);
}.

Section metadata.
Context `{rt : Runtime} `{mi : MetadataInterface}.
Implicit Types (w : world) (accounts : list AccountInfo).

#[global] Instance TokenMetadata_Extension : VariableExtension TokenMetadata :=
  {| VTYPE := ExtensionType.TokenMetadata |}.

(** [process_initialize] *)
Definition process_initialize accounts (name symbol uri : string) w : res world :=
  '(metadata_info, accounts) ← next_account_info accounts;
  '(update_authority_info, accounts) ← next_account_info accounts;
  '(mint_info, accounts) ← next_account_info accounts;
  '(mint_authority_info, accounts) ← next_account_info accounts;
  throw_if (negb (key metadata_info =? key mint_info)) (tok MintMismatch);;
  check_mint_authority MetadataPointer mint_info mint_authority_info
    (metadata_error IncorrectMintAuthority) w;;
  update_authority ← optional_from_coption (Some (key update_authority_info));
  let token_metadata := new_metadata name symbol uri update_authority (key mint_info) in
  alloc_and_serialize_variable_len_extension PodMint [] metadata_info token_metadata false w.

(** The metadata of a mint, and the check of its authority. *)
Definition open_metadata (metadata_info update_authority_info : AccountInfo) w : res TokenMetadata :=
  buffer ← try_borrow_data [] w metadata_info;
  mint ← unpack_ref PodMint buffer;
  token_metadata ← get_variable_len_extension PodMint TokenMetadata (ref_tlv mint);
  check_update_authority (metadata_error ImmutableMetadata)
    (metadata_error IncorrectUpdateAuthority) update_authority_info
    (update_authority token_metadata);;
  Ok token_metadata.

(** [process_update_field] *)
Definition process_update_field accounts (field : Field) (value : string) w : res world :=
  '(metadata_info, accounts) ← next_account_info accounts;
  '(update_authority_info, accounts) ← next_account_info accounts;
  token_metadata ← open_metadata metadata_info update_authority_info w;
  alloc_and_serialize_variable_len_extension PodMint [] metadata_info
    (update field value token_metadata) true w.

(** [process_remove_key] *)
Definition process_remove_key accounts (idempotent : bool) (k : string) w : res world :=
  '(metadata_info, accounts) ← next_account_info accounts;
  '(update_authority_info, accounts) ← next_account_info accounts;
  token_metadata ← open_metadata metadata_info update_authority_info w;
  let '(token_metadata, found) := remove_key k token_metadata in
  throw_if (negb found && negb idempotent) (metadata_error KeyNotFound);;
  alloc_and_serialize_variable_len_extension PodMint [] metadata_info token_metadata true w.

(** [process_update_authority] *)
Definition process_update_authority accounts (new_authority : Pubkey) w : res world :=
  '(metadata_info, accounts) ← next_account_info accounts;
  '(update_authority_info, accounts) ← next_account_info accounts;
  token_metadata ← open_metadata metadata_info update_authority_info w;
  alloc_and_serialize_variable_len_extension PodMint [] metadata_info
    (set_update_authority new_authority token_metadata) true w.

(** [process_emit] *)
Definition process_emit (program_id : Pubkey) accounts (start end_ : option Z) w : res world :=
  '(metadata_info, accounts) ← next_account_info accounts;
  throw_if (negb (info_owner w metadata_info =? program_id)) IllegalOwner;;
  buffer ← try_borrow_data [] w metadata_info;
  state ← unpack_ref PodMint buffer;
  metadata_bytes ← get_extension_bytes PodMint ExtensionType.TokenMetadata (ref_tlv state);
  match get_slice metadata_bytes start end_ with
  | Some range => Ok (set_return_data w range)
  | None => Ok w
  end.

(** [process_instruction] *)
Definition process_instruction (program_id : Pubkey) accounts
    (instruction : TokenMetadataInstruction Field) w : res world :=
  match instruction with
  | Initialize name symbol uri => process_initialize accounts name symbol uri w
  | UpdateField field value => process_update_field accounts field value w
  | RemoveKey idempotent k => process_remove_key accounts idempotent k w
  | UpdateAuthority new_authority => process_update_authority accounts new_authority w
  | Emit start end_ => process_emit program_id accounts start end_ w
  end.
End metadata.
End token_metadata.

Module token_group.
(** The constructors of [TokenGroupError] that the program uses. *)
Inductive TokenGroupError :=
| ImmutableGroup | IncorrectUpdateAuthority | IncorrectMintAuthority
| MemberAccountIsGroupAccount.

Inductive TokenGroupInstruction :=
| InitializeGroup (update_authority : Pubkey) (max_size : Z)
| UpdateGroupMaxSize (max_size : Z)
| UpdateGroupAuthority (new_authority : Pubkey)
| InitializeMember.

(** [spl_token_group_interface] *)
Class GroupInterface := {
  TokenGroup : Type;
  TokenGroup_codec : codec TokenGroup;
  TokenGroupMember : Type;
  TokenGroupMember_codec : codec TokenGroupMember;
  (** mint, update authority and maximum size *)
  new_group : Pubkey → Pubkey → Z → TokenGroup;
  update_authority : TokenGroup → Pubkey;
  set_update_authority : Pubkey → TokenGroup → TokenGroup;
  (** [TokenGroup::update_max_size], [::increment_size] *)
  update_max_size : Z → TokenGroup → res TokenGroup;
  increment_size : TokenGroup → res (TokenGroup * Z);
  (** mint, group and member number *)
  new_member : Pubkey → Pubkey → Z → TokenGroupMember;
  group_error : TokenGroupError → ProgramError;
  group_instruction_unpack : list byte → option TokenGroupInstruction;
}.

Section group.
Context `{rt : Runtime} `{gi : GroupInterface}.
Implicit Types (w : world) (accounts : list AccountInfo).

#[global] Instance TokenGroup_Extension : Extension TokenGroup :=
  {| TYPE := ExtensionType.TokenGroup; ext_codec := TokenGroup_codec |}.
#[global] Instance TokenGroupMember_Extension : Extension TokenGroupMember :=
  {| TYPE := ExtensionType.TokenGroupMember; ext_codec := TokenGroupMember_codec |}.

(** [process_initialize_group] *)
Definition process_initialize_group accounts (update_authority : Pubkey) (max_size : Z) w :
    res world :=
  '(group_info, accounts) ← next_account_info accounts;
  '(mint_info, accounts) ← next_account_info accounts;
  '(mint_authority_info, accounts) ← next_account_info accounts;
  throw_if (negb (key group_info =? key mint_info)) (tok MintMismatch);;
  check_mint_authority GroupPointer mint_info mint_authority_info
    (group_error IncorrectMintAuthority) w;;
  let group := new_group (key mint_info) update_authority max_size in
  alloc_and_serialize PodMint [] group_info group false w.

(** The group of a mint, and the check of its authority. *)
Definition open_group (group_info update_authority_info : AccountInfo) w :
    res (PodStateMut PodMint * TokenGroup) :=
  buffer ← try_borrow_data [] w group_info;
  state ← unpack PodMint buffer;
  group ← get_mint_ext TokenGroup (tlv_data state);
  check_update_authority (group_error ImmutableGroup) (group_error IncorrectUpdateAuthority)
    update_authority_info (update_authority group);;
  Ok (state, group).

(** [process_update_group_max_size] *)
Definition process_update_group_max_size accounts (max_size : Z) w : res world :=
  '(group_info, accounts) ← next_account_info accounts;
  '(update_authority_info, accounts) ← next_account_info accounts;
  '(state, group) ← open_group group_info update_authority_info w;
  group ← update_max_size max_size group;
  Ok (write_mint w group_info (put_mint_ext group state)).

(** [process_update_group_authority] *)
Definition process_update_group_authority accounts (new_authority : Pubkey) w : res world :=
  '(group_info, accounts) ← next_account_info accounts;
  '(update_authority_info, accounts) ← next_account_info accounts;
  '(state, group) ← open_group group_info update_authority_info w;
  Ok (write_mint w group_info (put_mint_ext (set_update_authority new_authority group) state)).

(** [process_initialize_member]: the group stays borrowed while the member's account
    grows. *)
Definition process_initialize_member accounts w : res world :=
  '(member_info, accounts) ← next_account_info accounts;
  '(member_mint_info, accounts) ← next_account_info accounts;
  '(member_mint_authority_info, accounts) ← next_account_info accounts;
  '(group_info, accounts) ← next_account_info accounts;
  '(group_update_authority_info, accounts) ← next_account_info accounts;
  throw_if (negb (key member_info =? key member_mint_info)) (tok MintMismatch);;
  check_mint_authority GroupMemberPointer member_mint_info member_mint_authority_info
    (group_error IncorrectMintAuthority) w;;
  throw_if (key member_info =? key group_info) (group_error MemberAccountIsGroupAccount);;
  '(state, group) ← open_group group_info group_update_authority_info w;
  '(group, member_number) ← increment_size group;
  let w := write_mint w group_info (put_mint_ext group state) in
  let member := new_member (key member_mint_info) (key group_info) member_number in
  alloc_and_serialize PodMint [key group_info] member_info member false w.

(** [process_instruction] *)
Definition process_instruction accounts (instruction : TokenGroupInstruction) w : res world :=
  match instruction with
  | InitializeGroup update_authority max_size =>
      process_initialize_group accounts update_authority max_size w
  | UpdateGroupMaxSize max_size => process_update_group_max_size accounts max_size w
  | UpdateGroupAuthority new_authority => process_update_group_authority accounts new_authority w
  | InitializeMember => process_initialize_member accounts w
  end.
End group.
End token_group.
