(* ===== verification/Unborn.v ===== *)
(** * Uninitialized accounts

    What the program keeps true of the accounts it owns before they are a mint or
    a token account: no supply, an extension area made of entries, and no tokens
    withheld in them. *)
From S2P Require Import Prelude Codec Errors Runtime Pod State ExtensionType ExtensionData Tlv.
From S2P Require Import TlvFacts TlvAlloc StateExt Fee Authority Transfer AccountFacts InitFacts.

Local Open Scope nat_scope.

(** ** Areas without withheld tokens *)
Definition entry_clean (e : entry) : Prop :=
  (e.1 = ExtensionType.TransferFeeAmount → e.2 = c_write ext_codec (mkTransferFeeAmount 0)) ∧
  (e.1 = ExtensionType.TransferFeeConfig →
   ∃ c, e.2 = c_write ext_codec c ∧ c_ok ext_codec c ∧ tfc_withheld_amount c = 0%Z).

Definition clean_tlv (tlv : list byte) : Prop :=
  ∃ es pad, tlv = tlv_of es pad ∧ entries_ok es ∧ Forall entry_clean es.

(** An extension area that is a sequence of entries and zeros. *)
Definition has_entries (tlv : list byte) : Prop := ∃ es pad, tlv = tlv_of es pad ∧ entries_ok es.

Lemma clean_has_entries tlv : clean_tlv tlv → has_entries tlv.
Proof. intros (es & pad & -> & Hes & _). by exists es, pad. Qed.

(** An extension whose value says nothing about withheld tokens. *)
Definition clean_value {V} `{Extension V} (v : V) : Prop :=
  entry_clean (TYPE V, c_write ext_codec v).

Section clean.
Context `{rt : Runtime}.
Context (S : Type) `{HB : BaseState S} `{HP : !PodState S}.
Implicit Types (es : list entry).

Lemma clean_zeros n : clean_tlv (zeros n).
Proof.
  exists [], n. split; [done|]. split; [|done]. split; [done|]. constructor.
Qed.

(** [alloc] that succeeds on an area of entries. *)
Lemma alloc_entries V len ov es pad l r : entries_ok es → V ≠ ExtensionType.Uninitialized →
  in_uint 16 (Z.of_nat len) → alloc S V len ov (tlv_of es pad) = Ok (l, r) →
  get_account_type V = ACCOUNT_TYPE S ∧
  ∃ es1 v es2 pad', l = tlv_of (es1 ++ (V, v) :: es2) pad' ∧ length v = len ∧
    entries_ok (es1 ++ (V, v) :: es2) ∧ V ∉ es1.*1 ∧
    r = (length (encode es1) + 4, length (encode es1) + 4 + len) ∧
    (es = es1 ++ (V, v) :: es2 ∨ es = es1 ∧ es2 = [] ∧ v = zeros len).
Proof.
  intros Hes HU Hlen H.
  assert (get_account_type V = ACCOUNT_TYPE S) as HV.
  { unfold alloc in H. by case_decide. }
  split; [done|]. destruct (find_entry V es) as [v|] eqn:Hf.
  - apply find_entry_split in Hf as (es1 & es2 & -> & Hnin).
    assert (len ≤ length v + length (encode es2) + pad) as Hle.
    { apply Nat.nlt_ge. intros Hgt. unfold alloc in H. rewrite decide_True in H by done.
      pose proof (entries_ok_split _ _ _ Hes) as (H1 & _ & _ & H4).
      rewrite get_extension_indices_found in H by done. rewrite Ok_bind in H.
      cbn [get_tlv_indices type_start] in H. unfold add_type_and_length_to_len in H.
      rewrite tlv_of_mid, drop_app_length, length_app, length_entry_bytes, length_tlv_of in H.
      cbn [snd] in H. by rewrite (proj2 (Nat.ltb_lt _ _)) in H by lia. }
    rewrite alloc_existing in H by done.
    destruct ov; [|done]. cbn [negb] in H.
    destruct (Nat.eqb_spec (length v) len) as [Hl|]; [|done]. injection H as <- <-.
    exists es1, v, es2, pad. by split_and!; [..|left].
  - apply find_entry_None in Hf.
    assert (len + 4 ≤ pad) as Hpad.
    { apply Nat.nlt_ge. intros Hgt. unfold alloc in H. rewrite decide_True in H by done.
      rewrite get_extension_indices_absent in H by done.
      destruct (pad <? 4); [done|]. rewrite Ok_bind in H.
      cbn [get_tlv_indices type_start] in H. unfold tlv_of, add_type_and_length_to_len in H.
      by rewrite drop_app_length, length_replicate, (proj2 (Nat.ltb_lt _ _)) in H by lia. }
    rewrite alloc_new in H by done. injection H as <- <-.
    exists es, (zeros len), [], (pad - (len + 4)).
    split; [done|]. split; [apply length_zeros|]. split; [|by split_and!; [..|right]].
    apply entries_ok_app; [done..|]. split; [done|]. cbn [snd]. by rewrite length_zeros.
Qed.

Lemma init_extension_entries V `{!Extension V} ov es pad tlv : entries_ok es →
  TYPE V ≠ ExtensionType.Uninitialized → in_uint 16 (Z.of_nat (ext_size V)) →
  init_extension S V ov (tlv_of es pad) = Ok tlv →
  get_account_type (TYPE V) = ACCOUNT_TYPE S ∧
  ∃ es1 es2 pad', let e := (TYPE V, c_write ext_codec ext_default) in
    tlv = tlv_of (es1 ++ e :: es2) pad' ∧ entries_ok (es1 ++ e :: es2) ∧
    TYPE V ∉ es1.*1 ∧
    (∃ v, es = es1 ++ (TYPE V, v) :: es2 ∨ es = es1 ∧ es2 = []).
Proof.
  intros Hes HU Hlen ([l [a b]] & Ha & (v & _ & [= <-])%bind_Ok)%bind_Ok.
  apply alloc_entries in Ha as (HV & es1 & u & es2 & pad' & -> & Hu & Hok & Hnin & [= -> ->] & Hes');
    [|done..].
  split; [done|]. exists es1, es2, pad'. cbn zeta.
  assert (length (c_write ext_codec (ext_default (V:=V))) = length u) as Hl
    by by rewrite c_write_length, Hu.
  rewrite splice_entry by done. split; [done|]. split.
  - rewrite <-(update_entry_split _ u) by done. apply update_entry_ok; [done|].
    by rewrite Hl, Hu.
  - split; [done|]. exists u. destruct Hes' as [->|(-> & -> & _)]; [by left|by right].
Qed.

Lemma clean_init V `{!Extension V} ov tlv tlv' : clean_tlv tlv →
  TYPE V ≠ ExtensionType.Uninitialized → in_uint 16 (Z.of_nat (ext_size V)) →
  clean_value (ext_default (V:=V)) → init_extension S V ov tlv = Ok tlv' → clean_tlv tlv'.
Proof.
  intros (es & pad & -> & Hes & Hc) HU Hlen Hv H.
  apply init_extension_entries in H as (_ & es1 & es2 & pad' & -> & Hok & _ & u & Hes'); [|done..].
  eexists _, _. split; [done|]. split; [done|].
  destruct Hes' as [->|[-> ->]].
  - apply Forall_app in Hc as [H1 [_ H2]%Forall_cons].
    apply Forall_app. split; [done|]. by apply Forall_cons.
  - apply Forall_app. split; [done|]. by apply Forall_singleton.
Qed.

(** [put_extension] replaces the value of the entry that [get_extension] found. *)
Lemma put_entries {V} `{!Extension V} (x v : V) es pad : entries_ok es →
  TYPE V ≠ ExtensionType.Uninitialized → get_account_type (TYPE V) = ACCOUNT_TYPE S →
  get_extension S V (tlv_of es pad) = Ok x →
  ∃ es1 u es2, es = es1 ++ (TYPE V, u) :: es2 ∧ TYPE V ∉ es1.*1 ∧
    put_extension S v (tlv_of es pad) = tlv_of (es1 ++ (TYPE V, c_write ext_codec v) :: es2) pad ∧
    entries_ok (es1 ++ (TYPE V, c_write ext_codec v) :: es2).
Proof.
  intros Hes HU HT (bs & Hbs & Hx)%bind_Ok. apply pod_from_bytes_Ok in Hx as [Hlen _].
  destruct (find_entry (TYPE V) es) as [u|] eqn:Hu.
  2: { apply find_entry_None in Hu.
       by destruct (get_extension_bytes_absent S _ es pad Hes Hu HU) as [e He];
         rewrite He in Hbs. }
  rewrite (get_extension_bytes_found S _ es u) in Hbs by done. injection Hbs as <-.
  apply find_entry_split in Hu as (es1 & es2 & -> & Hnin).
  exists es1, u, es2. split; [done|]. split; [done|].
  unfold put_extension. rewrite get_extension_range_found by done.
  rewrite splice_entry by by rewrite c_write_length. split; [done|].
  rewrite <-(update_entry_split _ u) by done. apply update_entry_ok; [done|].
  rewrite c_write_length, <-Hlen. apply entries_ok_split in Hes as (_ & [_ H] & _). exact H.
Qed.

Lemma clean_put {V} `{!Extension V} (x v : V) tlv : clean_tlv tlv →
  TYPE V ≠ ExtensionType.Uninitialized → get_account_type (TYPE V) = ACCOUNT_TYPE S →
  clean_value v → get_extension S V tlv = Ok x → clean_tlv (put_extension S v tlv).
Proof.
  intros (es & pad & -> & Hes & Hc) HU HT Hv H.
  apply (put_entries x v) in H as (es1 & u & es2 & -> & _ & -> & Hok); [|done..].
  eexists _, _. split; [done|]. split; [done|].
  apply Forall_app in Hc as [H1 [_ H2]%Forall_cons].
  apply Forall_app. split; [done|]. by apply Forall_cons.
Qed.

(** ** Areas made of entries *)
Lemma has_entries_put {V} `{!Extension V} (x v : V) tlv :
  TYPE V ≠ ExtensionType.Uninitialized →
  get_extension S V tlv = Ok x → has_entries tlv → has_entries (put_extension S v tlv).
Proof.
  intros HU H (es & pad & -> & Hes).
  assert (get_account_type (TYPE V) = ACCOUNT_TYPE S) as HT.
  { apply bind_Ok in H as (bs & ([a b] & Hr & _)%bind_Ok & _).
    unfold get_extension_range in Hr. by case_decide. }
  apply (put_entries x v) in H as (es1 & u & es2 & -> & _ & -> & Hok); [|done..].
  by eexists _, _.
Qed.

Lemma has_entries_init V `{!Extension V} ov tlv tlv' :
  TYPE V ≠ ExtensionType.Uninitialized → in_uint 16 (Z.of_nat (ext_size V)) →
  init_extension S V ov tlv = Ok tlv' → has_entries tlv → has_entries tlv'.
Proof.
  intros HU Hlen Hi (es & pad & -> & Hes).
  apply init_extension_entries in Hi as (_ & es1 & es2 & pad' & -> & Hok & _); [|done..].
  by eexists _, _.
Qed.

(** Reading an extension looks its entry up. *)
Lemma get_extension_entries W `{!Extension W} es pad x : entries_ok es →
  TYPE W ≠ ExtensionType.Uninitialized →
  get_extension S W (tlv_of es pad) = Ok x ↔
  get_account_type (TYPE W) = ACCOUNT_TYPE S ∧
  ∃ y, find_entry (TYPE W) es = Some y ∧ pod_from_bytes ext_codec y = Ok x.
Proof.
  intros Hes HW. unfold get_extension. split.
  - intros (bs & Hbs & Hx)%bind_Ok.
    assert (get_account_type (TYPE W) = ACCOUNT_TYPE S) as HT.
    { apply bind_Ok in Hbs as ([a b] & Hr & _). unfold get_extension_range in Hr. by case_decide. }
    split; [done|]. destruct (find_entry (TYPE W) es) as [y|] eqn:Hy.
    + rewrite (get_extension_bytes_found S _ es y) in Hbs by done. injection Hbs as <-. by exists y.
    + apply find_entry_None in Hy.
      by destruct (get_extension_bytes_absent S _ es pad Hes Hy HW) as [e He]; rewrite He in Hbs.
  - intros (HT & y & Hy & Hx). by rewrite (get_extension_bytes_found S _ es y).
Qed.

(** Initializing an extension leaves the others as they are. *)
Lemma get_init_other V `{!Extension V} W `{!Extension W} ov tlv tlv' x :
  TYPE V ≠ ExtensionType.Uninitialized → in_uint 16 (Z.of_nat (ext_size V)) →
  TYPE W ≠ ExtensionType.Uninitialized → TYPE W ≠ TYPE V →
  init_extension S V ov tlv = Ok tlv' → has_entries tlv →
  get_extension S W tlv' = Ok x ↔ get_extension S W tlv = Ok x.
Proof.
  intros HU Hlen HW Hne Hi (es & pad & -> & Hes).
  apply init_extension_entries in Hi as (_ & es1 & es2 & pad' & -> & Hok & _ & u & Hes'); [|done..].
  assert (find_entry (TYPE W) (es1 ++ (TYPE V, c_write ext_codec (ext_default (V:=V))) :: es2) =
          find_entry (TYPE W) es) as Hf; [|by rewrite !get_extension_entries, Hf by done].
  destruct Hes' as [->|[-> ->]]; rewrite !find_entry_app; simpl;
    rewrite ?decide_False by done; by destruct (find_entry (TYPE W) es1).
Qed.
End clean.

(** A clean area withholds nothing, whichever way it is read. *)
Lemma clean_get `{rt : Runtime} S `{HB : BaseState S} {V} `{!Extension V} tlv x :
  clean_tlv tlv → TYPE V ≠ ExtensionType.Uninitialized → get_extension S V tlv = Ok x →
  ∃ bs, entry_clean (TYPE V, bs) ∧ x = c_read ext_codec bs ∧ length bs = ext_size V.
Proof.
  intros (es & pad & -> & Hes & Hc) HU (bs & Hbs & Hx)%bind_Ok.
  apply pod_from_bytes_Ok in Hx as [Hlen ->].
  assert (get_account_type (TYPE V) = ACCOUNT_TYPE S) as HT.
  { apply bind_Ok in Hbs as ([a b] & Hr & _). unfold get_extension_range in Hr. by case_decide. }
  destruct (find_entry (TYPE V) es) as [u|] eqn:Hu.
  2: { apply find_entry_None in Hu.
       by destruct (get_extension_bytes_absent S _ es pad Hes Hu HU) as [e He];
         rewrite He in Hbs. }
  rewrite (get_extension_bytes_found S _ es u) in Hbs by done. injection Hbs as ->.
  apply find_entry_split in Hu as (es1 & es2 & -> & _).
  apply Forall_app in Hc as [_ [H _]%Forall_cons]. by exists bs.
Qed.

Lemma clean_withheld `{Runtime} st : clean_tlv (tlv_data st) → withheld st = 0%Z.
Proof.
  intros Hc. unfold withheld. destruct (get_extension _ _ _) as [x| |] eqn:Hx; [|done..].
  apply clean_get in Hx as (bs & [Hbs _] & -> & _); [|done..]. cbn [fst snd] in Hbs.
  by rewrite (Hbs eq_refl), (c_read_write ext_codec).
Qed.

(** ** Views of the same buffer *)
Section views.
Context `{rt : Runtime}.
Context (S : Type) `{HB : BaseState S} `{HP : !PodState S}.
Implicit Types (input : list byte) (st : PodStateMut S).

Lemma unpack_uninitialized_inv input st : unpack_uninitialized S input = Ok st →
  (account_type st = [] ∧ tlv_data st = [] ∨ account_type st = [Byte.x00]) ∧
  check_account_type_matches_extension_type S (tlv_data st) = Ok tt.
Proof.
  unfold unpack_uninitialized. intros (u & _ & (b & _ & H)%bind_Ok)%bind_Ok.
  destruct (base_is_initialized b); [done|].
  apply bind_Ok in H as ([t l] & Hr & ([] & Hc & [= <-])%bind_Ok). cbn [account_type tlv_data].
  split; [|done]. unfold unpack_uninitialized_type_and_tlv_data_mut,
    unpack_type_and_tlv_data_with_check_mut in Hr.
  apply bind_Ok in Hr as ([[i j]|] & Ho & Hr); [right|left; by injection Hr as <- <-].
  apply type_and_tlv_indices_Some in Ho as (-> & -> & Hle & _).
  apply bind_Ok in Hr as (at' & Hat & ([] & Hun & [= <- <-])%bind_Ok).
  case_decide as E; [subst|done]. apply ok_or_Ok, account_type_try_from_Some in Hat.
  set (rest := drop _ _) in *.
  set (a := BASE_ACCOUNT_LENGTH - SIZE_OF S) in *.
  assert (length (slice a (a + 1) rest) = 1) as Hl by (rewrite length_slice; lia).
  destruct (slice a (a + 1) rest) as [|x [|y l]] eqn:E; [discriminate Hl| |discriminate Hl].
  f_equal. apply (f_equal (le_split 1)) in Hat.
  change (le_split 1 (account_type_u8 AccountType.Uninitialized)) with [Byte.x00] in Hat.
  pose proof (split_le_combine [x]) as Hs. cbn [length] in Hs. rewrite Hs in Hat.
  by injection Hat.
Qed.

Lemma state_bytes_tlv st : length (account_type st) = 1 →
  slice BASE_ACCOUNT_LENGTH BASE_ACCOUNT_AND_TYPE_LENGTH (state_bytes S st) = account_type st ∧
  drop BASE_ACCOUNT_AND_TYPE_LENGTH (state_bytes S st) = tlv_data st.
Proof.
  intros Ht. unfold state_bytes, BASE_ACCOUNT_AND_TYPE_LENGTH.
  destruct (account_type st) as [|t [|]]; [discriminate Ht| |discriminate Ht].
  set (pre := c_write base_codec (base st) ++ zeros (BASE_ACCOUNT_LENGTH - SIZE_OF S)).
  assert (length pre = BASE_ACCOUNT_LENGTH) as Hp.
  { subst pre. rewrite length_app, c_write_length, base_size, length_zeros.
    pose proof (base_size_le (S:=S)). unfold BASE_ACCOUNT_LENGTH. lia. }
  replace (_ ++ _) with (pre ++ [t] ++ tlv_data st) by (subst pre; by rewrite <-app_assoc).
  split.
  - apply slice_mid; [done|reflexivity].
  - rewrite app_assoc. rewrite drop_app_length'; [done|]. rewrite length_app, Hp. done.
Qed.
End views.

Section other_views.
Context `{rt : Runtime}.
Context (S : Type) `{HB : BaseState S} `{HP : !PodState S}.
Context (S' : Type) `{HB' : BaseState S'} `{HP' : !PodState S'}.

(** Both views see the same area. *)
Lemma uninitialized_view_tlv (st : PodStateMut S) (st' : PodStateMut S') :
  unpack_uninitialized S' (state_bytes S st) = Ok st' → length (account_type st) = 1 →
  account_type st = [Byte.x00] ∧ tlv_data st' = tlv_data st.
Proof.
  intros H Ht. destruct (unpack_uninitialized_inv _ _ _ H) as [Hv _].
  apply unpack_uninitialized_Ok in H as (Heq & _ & _).
  pose proof (f_equal length Heq) as Hl. rewrite !length_state_bytes in Hl.
  pose proof (base_size_le (S:=S)). pose proof (base_size_le (S:=S')).
  destruct (state_bytes_tlv S st Ht) as [H1 H2].
  destruct Hv as [[Hv1 _]|Hv].
  - rewrite Hv1 in Hl. destruct (account_type st); [discriminate Ht|].
    unfold BASE_ACCOUNT_LENGTH in *. lia.
  - destruct (state_bytes_tlv S' st') as [H3 H4]; [by rewrite Hv|].
    rewrite <-Heq in H3, H4. rewrite H2 in H4. rewrite H1, Hv in H3. done.
Qed.

(** An initialized buffer is not an uninitialized one of the other kind. *)
Lemma initialized_not_uninitialized (st : PodStateMut S) (st' : PodStateMut S') :
  SIZE_OF S ≠ SIZE_OF S' → type_byte S ≠ [Byte.x00] → state_ok S st →
  unpack_uninitialized S' (state_bytes S st) ≠ Ok st'.
Proof.
  intros Hs Htb Hst H. destruct (state_type _ _ Hst) as [[Ht1 Ht2]|Ht].
  - destruct (unpack_uninitialized_inv _ _ _ H) as [Hv _].
    apply unpack_uninitialized_Ok in H as (Heq & _ & _).
    apply (f_equal length) in Heq. rewrite !length_state_bytes, Ht1 in Heq.
    pose proof (base_size_le (S:=S)).
    destruct Hv as [[Hv1 _]|Hv]; rewrite ?Hv1, ?Hv in Heq; [lia|].
    cbn [length] in Heq. unfold BASE_ACCOUNT_LENGTH in *. pose proof (base_size_le (S:=S')). lia.
  - apply uninitialized_view_tlv in H as [H _]; [|rewrite Ht; apply length_le_split].
    by rewrite Ht in H.
Qed.
End other_views.

(** ** Initializing an extension *)
Section init.
Context `{rt : Runtime}.
Context (S : Type) `{HB : BaseState S} `{HP : !PodState S}.
Context (V : Type) `{HV : !Extension V}.
Hypothesis not_end : TYPE V ≠ ExtensionType.Uninitialized.
Hypothesis size_ok : in_uint 16 (Z.of_nat (ext_size V)).

Lemma get_init_extension ov tlv tlv' : has_entries tlv →
  c_ok ext_codec (ext_default (V:=V)) → init_extension S V ov tlv = Ok tlv' →
  get_extension S V tlv' = Ok ext_default.
Proof.
  intros (es & pad & -> & Hes) Hd Hi.
  apply init_extension_entries in Hi as (HT & es1 & es2 & pad' & -> & Hok & Hnin & _); [|done..].
  unfold get_extension.
  rewrite (get_extension_bytes_found S _ _ (c_write ext_codec (ext_default (V:=V)))); [|done..|].
  - rewrite Ok_bind. apply pod_from_bytes_Ok. rewrite c_write_length. split; [done|].
    by rewrite c_read_write.
  - rewrite find_entry_app, (proj2 (find_entry_None _ _) Hnin). simpl. by rewrite decide_True.
Qed.
End init.

(** ** What the program keeps true of the accounts it owns *)
Definition unborn `{Runtime} (d : list byte) : Prop :=
  (∀ m, unpack_uninitialized PodMint d = Ok m → supply (base m) = 0%Z ∧ clean_tlv (tlv_data m)) ∧
  (∀ s, unpack_uninitialized PodAccount d = Ok s → clean_tlv (tlv_data s)).

Section unborn.
Context `{rt : Runtime}.
Implicit Types (m : PodStateMut PodMint) (s : PodStateMut PodAccount).

Lemma unborn_account s : state_ok PodAccount s → unborn (state_bytes PodAccount s).
Proof.
  intros Hs. split; intros x Hx; exfalso.
  - by apply (initialized_not_uninitialized PodAccount PodMint) in Hx.
  - by rewrite (unpack_uninitialized_unpack _ _ s) in Hx by by apply unpack_state_bytes.
Qed.

Lemma unborn_mint m : state_ok PodMint m → unborn (state_bytes PodMint m).
Proof.
  intros Hm. split; intros x Hx; exfalso.
  - by rewrite (unpack_uninitialized_unpack _ _ m) in Hx by by apply unpack_state_bytes.
  - by apply (initialized_not_uninitialized PodMint PodAccount) in Hx.
Qed.

Lemma unborn_zeros n : unborn (zeros n).
Proof.
  assert (∀ {S} `{PodState S} (st : PodStateMut S), unpack_uninitialized S (zeros n) = Ok st →
    clean_tlv (tlv_data st) ∧ c_write base_codec (base st) = zeros (SIZE_OF S)) as Hz.
  { intros S HB HP st H. destruct (unpack_uninitialized_inv _ _ _ H) as [Hv _].
    apply unpack_uninitialized_Ok in H as (Heq & _ & _).
    pose proof (f_equal length Heq) as Hl. rewrite length_state_bytes, length_zeros in Hl.
    split.
    - destruct Hv as [[_ ->]|Hv]; [apply (clean_zeros 0)|].
      destruct (state_bytes_tlv S st) as [_ <-]; [by rewrite Hv|].
      rewrite <-Heq. unfold zeros. rewrite drop_replicate. apply clean_zeros.
    - apply (f_equal (take (SIZE_OF S))) in Heq. unfold state_bytes in Heq.
      rewrite take_app_length' in Heq by by rewrite c_write_length, base_size.
      rewrite <-Heq. unfold zeros. rewrite take_replicate. f_equal. lia. }
  split; intros x Hx; pose proof Hx as (_ & Hf & _)%unpack_uninitialized_Ok;
    apply Hz in Hx as [Hc Hb]; [|done].
  split; [|done]. rewrite <-(c_read_write base_codec (base x)), Hb by apply Hf. reflexivity.
Qed.

Lemma unborn_multisig d : length d = Multisig_LEN → unborn d.
Proof.
  intros Hd. split; intros x (-> & [_ _ H] & _)%unpack_uninitialized_Ok; done.
Qed.

(** An uninitialized buffer in which an extension of its kind was written. *)
Definition first_of S `{BaseState S} (tlv : list byte) : Prop :=
  ∃ T, get_first_extension_type tlv = Ok (Some T) ∧ get_account_type T = ACCOUNT_TYPE S.

Lemma first_type_entries e es pad : entry_ok e →
  get_first_extension_type (tlv_of (e :: es) pad) = Ok (Some e.1).
Proof.
  intros [HU _]. unfold get_first_extension_type.
  rewrite length_tlv_of, encode_cons, length_app, length_entry_bytes.
  rewrite (proj2 (Nat.eqb_neq _ _)) by lia. cbn [get_tlv_indices length_start type_start].
  rewrite (proj2 (Nat.leb_gt _ _)) by lia.
  unfold tlv_of. rewrite encode_cons, <-app_assoc.
  pose proof (slice_type [] e (encode es ++ replicate pad Byte.x00)) as Hs.
  cbn [length app Nat.add] in *. rewrite Hs, ext_try_from_bytes, Ok_bind. by rewrite decide_False.
Qed.

Lemma first_of_init S `{BaseState S} V `{!Extension V} ov tlv tlv' : clean_tlv tlv →
  check_account_type_matches_extension_type S tlv = Ok tt →
  TYPE V ≠ ExtensionType.Uninitialized → in_uint 16 (Z.of_nat (ext_size V)) →
  init_extension S V ov tlv = Ok tlv' → first_of S tlv'.
Proof.
  intros (es & pad & -> & Hes & _) Hck HU Hlen Hi.
  apply init_extension_entries in Hi as (HT & es1 & es2 & pad' & -> & Hok & _ & u & Hes'); [|done..].
  destruct Hok as [Hok _].
  destruct es1 as [|e es1]; cbn [app] in *; apply Forall_cons in Hok as [He _];
    eexists; (split; [by apply first_type_entries|]); [done|].
  assert (∃ es0, es = e :: es0) as [es0 ->] by by destruct Hes' as [-> | [-> _]]; eexists.
  unfold check_account_type_matches_extension_type in Hck.
  rewrite first_type_entries, Ok_bind in Hck by done.
  by apply throw_if_Ok, negb_false_iff, bool_decide_eq_true in Hck.
Qed.

Lemma first_of_put S `{BaseState S} {V} `{!Extension V} (x v : V) tlv :
  clean_tlv tlv → TYPE V ≠ ExtensionType.Uninitialized → get_account_type (TYPE V) = ACCOUNT_TYPE S →
  get_extension S V tlv = Ok x → first_of S tlv → first_of S (put_extension S v tlv).
Proof.
  intros (es & pad & -> & Hes & _) HU HT Hg (T & HT1 & HT2).
  apply (put_entries S x v) in Hg as (es1 & u & es2 & -> & _ & -> & [Hok _]); [|done..].
  exists T. split; [|done]. rewrite <-HT1. destruct Hes as [Hes _].
  destruct es1 as [|e es1]; cbn [app] in *; apply Forall_cons in Hes as [He _];
    apply Forall_cons in Hok as [He' _]; by rewrite !first_type_entries.
Qed.

(** The buffer an initialization handler of the kind [S] leaves. *)
Lemma first_of_view S `{HB : BaseState S} `{HP : !PodState S}
    S' `{HB' : BaseState S'} `{HP' : !PodState S'} (st : PodStateMut S) (st' : PodStateMut S') :
  first_of S (tlv_data st) → length (account_type st) = 1 → ACCOUNT_TYPE S ≠ ACCOUNT_TYPE S' →
  unpack_uninitialized S' (state_bytes S st) ≠ Ok st'.
Proof.
  intros (T & HT & HTS) Ht Hne H.
  destruct (unpack_uninitialized_inv _ _ _ H) as [_ Hck].
  apply uninitialized_view_tlv in H as [_ Htlv]; [|done].
  unfold check_account_type_matches_extension_type in Hck.
  rewrite Htlv, HT, Ok_bind in Hck.
  apply throw_if_Ok, negb_false_iff, bool_decide_eq_true in Hck. congruence.
Qed.

Lemma same_view S `{HB : BaseState S} `{HP : !PodState S} (st st' : PodStateMut S) :
  c_ok base_codec (base st) → length (account_type st) = 1 →
  unpack_uninitialized S (state_bytes S st) = Ok st' →
  base st' = base st ∧ tlv_data st' = tlv_data st.
Proof.
  intros Hb Ht H. pose proof H as Hv. apply uninitialized_view_tlv in Hv as [_ Htlv]; [|done].
  split; [|done]. apply unpack_uninitialized_Ok in H as (Heq & [Hb' _ _] & _).
  unfold state_bytes in Heq. apply app_inj_1 in Heq as [Heq _]; [|by rewrite !c_write_length].
  rewrite <-(c_read_write base_codec (base st')), <-Heq by done. by apply c_read_write.
Qed.

Lemma unborn_fresh_mint m : c_ok base_codec (base m) → length (account_type m) = 1 →
  supply (base m) = 0%Z → clean_tlv (tlv_data m) → first_of PodMint (tlv_data m) →
  unborn (state_bytes PodMint m).
Proof.
  intros Hb Ht Hs Hc Hf. split; intros x Hx.
  - apply same_view in Hx as [-> ->]; done.
  - by apply first_of_view in Hx.
Qed.

Lemma unborn_fresh_account s : c_ok base_codec (base s) → length (account_type s) = 1 →
  clean_tlv (tlv_data s) → first_of PodAccount (tlv_data s) →
  unborn (state_bytes PodAccount s).
Proof.
  intros Hb Ht Hc Hf. split; intros x Hx.
  - by apply first_of_view in Hx.
  - apply same_view in Hx as [_ ->]; done.
Qed.
End unborn.
