(* ===== verification/AccountAllocFacts.v ===== *)
(** * What growing an account for an extension does

    On an account whose extension area is a list of entries, both functions of
    [AccountAlloc.v] set one entry of the list and resize the account to the length
    the list needs. *)
From S2P Require Import Prelude Codec Errors Runtime Pod State ExtensionType ExtensionData Tlv.
From S2P Require Import TlvFacts TlvAlloc StateExt Fee Authority Transfer AccountFacts InitFacts.
From S2P Require Import TlvSpec Unborn AccountAlloc.

Local Open Scope nat_scope.

(** ** Setting an entry *)
Section entries.
Implicit Types (V W : ExtensionType) (es : list entry) (v : list byte).

Definition set_entry V v es : list entry :=
  match find_entry V es with
  | Some _ => update_entry V v es
  | None => es ++ [(V, v)]
  end.

Lemma set_entry_found V es v : find_entry V es = Some v →
  ∃ es1 es2, es = es1 ++ (V, v) :: es2 ∧ V ∉ es1.*1 ∧ ∀ v', set_entry V v' es = es1 ++ (V, v') :: es2.
Proof.
  intros Hv. destruct (find_entry_split _ _ _ Hv) as (es1 & es2 & -> & Hn).
  exists es1, es2. split; [done|]. split; [done|]. intros v'.
  unfold set_entry. rewrite Hv. by apply update_entry_split.
Qed.

Lemma set_entry_new V es v : find_entry V es = None → set_entry V v es = es ++ [(V, v)].
Proof. unfold set_entry. by intros ->. Qed.

Lemma find_set_entry V v es : find_entry V (set_entry V v es) = Some v.
Proof.
  destruct (find_entry V es) as [u|] eqn:Hu.
  - destruct (set_entry_found _ _ _ Hu) as (es1 & es2 & _ & Hn & ->).
    rewrite find_entry_app, (proj2 (find_entry_None _ _) Hn). simpl. by rewrite decide_True.
  - rewrite set_entry_new, find_entry_app, Hu by done. simpl. by rewrite decide_True.
Qed.

Lemma find_set_entry_ne V W v es : W ≠ V → find_entry W (set_entry V v es) = find_entry W es.
Proof.
  intros HW. destruct (find_entry V es) as [u|] eqn:Hu.
  - destruct (set_entry_found _ _ _ Hu) as (es1 & es2 & -> & _ & ->).
    rewrite !find_entry_app. simpl. by rewrite !decide_False by done.
  - rewrite set_entry_new, find_entry_app by done. simpl. rewrite decide_False by done.
    by destruct (find_entry W es).
Qed.

Lemma set_entry_ok V v es : entries_ok es → V ≠ ExtensionType.Uninitialized →
  in_uint 16 (Z.of_nat (length v)) → entries_ok (set_entry V v es).
Proof.
  intros Hes HU Hv. unfold set_entry. destruct (find_entry V es) eqn:Hf.
  - by apply update_entry_ok.
  - apply entries_ok_app; [done|by apply find_entry_None|by split].
Qed.

(** The room the list needs. *)
Lemma length_set_entry V v es : length (encode (set_entry V v es)) =
  length (encode es) - match find_entry V es with Some u => length u + 4 | None => 0 end
  + (length v + 4).
Proof.
  destruct (find_entry V es) as [u|] eqn:Hu.
  - destruct (set_entry_found _ _ _ Hu) as (es1 & es2 & -> & _ & ->).
    rewrite !encode_app, !encode_cons, !length_app, !length_entry_bytes. cbn [snd]. lia.
  - rewrite set_entry_new, encode_snoc, length_app, length_entry_bytes by done. cbn [snd]. lia.
Qed.
Lemma length_entry_le V es u : find_entry V es = Some u → length u + 4 ≤ length (encode es).
Proof.
  intros (es1 & es2 & -> & _)%find_entry_split.
  rewrite encode_app, encode_cons, !length_app, length_entry_bytes. cbn [snd]. lia.
Qed.
End entries.

Section states.
Context `{rt : Runtime}.
Context (S : Type) `{HB : BaseState S} `{HP : !PodState S}.
Implicit Types (es : list entry) (st : PodStateMut S) (w : world).

(** The account [st] with the entries [es] and [pad] bytes of room. *)
Definition holding_entries es pad st : PodStateMut S := with_tlv (tlv_of es pad) st.

Lemma entries_account_type st : state_ok S st → tlv_data st ≠ [] → account_type st = type_byte S.
Proof. intros Hok Hn. by destruct (state_type _ _ Hok) as [[_ H]|H]. Qed.

(** The bytes of a state are its base, padded, its type and the area. *)
Lemma state_prefix st : account_type st = type_byte S →
  ∃ pre, length pre = 166 ∧ ∀ tlv, state_bytes S (with_tlv tlv st) = pre ++ tlv.
Proof.
  intros Ht.
  exists (c_write base_codec (base st) ++ zeros (BASE_ACCOUNT_LENGTH - SIZE_OF S) ++ type_byte S).
  pose proof (base_size_le (S:=S)) as Hs. split.
  - rewrite !length_app, c_write_length, base_size, length_zeros. unfold type_byte.
    rewrite length_le_split. unfold BASE_ACCOUNT_LENGTH, Account_LEN in *. lia.
  - intros tlv. unfold state_bytes. cbn [base account_type tlv_data with_tlv]. rewrite Ht.
    unfold type_byte. cbn [le_split]. by rewrite <-!app_assoc.
Qed.

Lemma length_holding es pad st : account_type st = type_byte S →
  length (state_bytes S (holding_entries es pad st)) = 166 + length (encode es) + pad.
Proof.
  intros Ht. destruct (state_prefix st Ht) as (pre & Hp & Hs). unfold holding_entries.
  rewrite Hs, length_app, Hp, length_tlv_of. lia.
Qed.

Lemma holding_ok es pad st : state_ok S st → account_type st = type_byte S →
  166 + length (encode es) + pad ≠ Multisig_LEN → state_ok S (holding_entries es pad st).
Proof.
  intros Hok Ht Hm. constructor; [apply Hok|apply Hok|by right|by rewrite length_holding].
Qed.

Lemma adjust_len n : adjust_len_for_multisig n ≠ Multisig_LEN ∧
  (adjust_len_for_multisig n = n ∨ adjust_len_for_multisig n = n + 2).
Proof. unfold adjust_len_for_multisig. destruct (Nat.eqb_spec n Multisig_LEN); lia. Qed.

(** Cutting or extending the buffer moves only the room behind the entries. *)
Lemma resized_state es pad st n : account_type st = type_byte S → 166 + length (encode es) ≤ n →
  let d := state_bytes S (holding_entries es pad st) in
  take n d ++ replicate (n - length d) Byte.x00 =
  state_bytes S (holding_entries es (n - 166 - length (encode es)) st).
Proof.
  intros Ht Hn. destruct (state_prefix st Ht) as (pre & Hp & Hs). cbv zeta.
  unfold holding_entries. rewrite !Hs. unfold tlv_of.
  rewrite !length_app, Hp, length_replicate, (app_assoc pre), (app_assoc pre).
  rewrite take_app, take_ge, take_replicate, <-app_assoc, <-replicate_add
    by (rewrite length_app, Hp; lia).
  rewrite length_app, Hp. do 2 f_equal. lia.
Qed.

Lemma resize_holding w k es pad st n w' : account_type st = type_byte S →
  166 + length (encode es) ≤ n →
  data (get_account w k) = state_bytes S (holding_entries es pad st) → resize w k n = Ok w' →
  w' = set_data w k (state_bytes S (holding_entries es (n - 166 - length (encode es)) st)).
Proof.
  intros Ht Hn Hd. unfold resize, info_data. cbn [key]. rewrite Hd, resized_state by done.
  destruct (resize_error _ _); [done|]. by intros [= <-].
Qed.

Lemma set_data_over w k d d' : set_data (set_data w k d) k d' = set_data w k d'.
Proof.
  unfold set_data. rewrite get_set_account, decide_True by done. unfold set_account.
  cbn [accts return_data lamports owner]. by rewrite insert_insert_eq.
Qed.

(** ** The new length *)
Lemma new_account_len V es pad n v : entries_ok es → V ≠ ExtensionType.Uninitialized →
  get_account_type V = ACCOUNT_TYPE S → length v = n →
  try_get_new_account_len_for_extension_len S V (tlv_of es pad) n =
  Ok (adjust_len_for_multisig (166 + length (encode (set_entry V v es)))).
Proof.
  intros Hes HU HV Hn. unfold try_get_new_account_len_for_extension_len.
  rewrite get_tlv_data_info_tlv_of, Ok_bind by apply Hes. cbn [used_len].
  rewrite length_set_entry, Hn. change BASE_ACCOUNT_AND_TYPE_LENGTH with 166.
  unfold add_type_and_length_to_len.
  destruct (find_entry V es) as [u|] eqn:Hu.
  - rewrite (get_extension_bytes_found S V es u) by done.
    pose proof (length_entry_le _ _ _ Hu). do 2 f_equal. lia.
  - apply find_entry_None in Hu. destruct (get_extension_bytes_absent S V es pad Hes Hu HU) as [e ->].
    do 2 f_equal. lia.
Qed.

(** [alloc] writes a length of 16 bits. *)
Lemma alloc_len_u16 V len ov tlv r : alloc S V len ov tlv = Ok r → in_uint 16 (Z.of_nat len).
Proof.
  unfold alloc. case_decide; [|done]. intros (i & _ & Ha)%bind_Ok.
  destruct (_ <? _); [done|]. apply bind_Ok in Ha as (t & _ & Ha). destruct (_ || _); [|done].
  apply bind_Ok in Ha as (u & _ & (u' & _ & (l & Hl & _)%bind_Ok)%bind_Ok).
  unfold Length_try_from in Hl. destruct (to_uint _ _) as [z|] eqn:E; [|done].
  by apply to_uint_Some in E as [_ E].
Qed.

Lemma alloc_type V len ov tlv r : alloc S V len ov tlv = Ok r → get_account_type V = ACCOUNT_TYPE S.
Proof. unfold alloc. by case_decide. Qed.

(** Without permission to overwrite, the entry is new. *)
Lemma alloc_fresh V len es pad r : entries_ok es → V ≠ ExtensionType.Uninitialized →
  alloc S V len false (tlv_of es pad) = Ok r → find_entry V es = None.
Proof.
  intros Hes HU Ha.
  destruct (find_entry V es) as [u|] eqn:Hu; [exfalso|done].
  apply find_entry_split in Hu as (es1 & es2 & -> & Hn).
  pose proof (entries_ok_split _ _ _ Hes) as (H1 & _ & _ & _).
  unfold alloc in Ha. case_decide; [|done].
  rewrite get_extension_indices_found, Ok_bind in Ha by done.
  destruct (_ <? _); [done|]. cbn [get_tlv_indices type_start length_start] in Ha.
  rewrite tlv_of_mid, slice_type, ext_try_from_bytes, Ok_bind in Ha.
  cbn [fst orb] in Ha. by rewrite bool_decide_eq_false_2 in Ha.
Qed.

(** The slice of an entry that was written. *)
Lemma slice_entry V es1 v es2 pad :
  slice (length (encode es1) + 4) (length (encode es1) + 4 + length v)
    (tlv_of (es1 ++ (V, v) :: es2) pad) = v.
Proof. rewrite tlv_of_mid. apply (slice_value _ (V, v)). Qed.
End states.

(** ** Values of variable length *)
Section variable.
Context `{rt : Runtime}.
Context (S : Type) `{HB : BaseState S} `{HP : !PodState S}.
Context {V : Type} `{HV : !VariableExtension V} `{!VariableLenPackLaws V}.
Hypothesis typed : VTYPE V ≠ ExtensionType.Uninitialized.
Hypothesis belongs : get_account_type (VTYPE V) = ACCOUNT_TYPE S.
Implicit Types (es : list entry) (st : PodStateMut S) (w : world) (v : V).

(** The bytes of [v], of the length it asks for. *)
Definition packs v (bs : list byte) : Prop :=
  get_packed_len v = Ok (length bs) ∧ v_unpack_from_slice bs = Ok v ∧
  in_uint 16 (Z.of_nat (length bs)).

(** The area with the value written, whichever way it got its room. *)
Definition value_set v es pad (tlv : list byte) : Prop :=
  ∃ bs pad', packs v bs ∧ tlv = tlv_of (set_entry (VTYPE V) bs es) pad' ∧
    length (encode (set_entry (VTYPE V) bs es)) + pad' = length (encode es) + pad.

Lemma packs_slice v n (bs bs' : list byte) : get_packed_len v = Ok n → length bs = n →
  in_uint 16 (Z.of_nat n) → v_pack_into_slice v bs = Ok bs' → packs v bs' ∧ length bs' = n.
Proof.
  intros Hn Hl Hu Hp. pose proof (v_pack_length _ _ _ Hp) as Hl'. subst n.
  split; [|done]. unfold packs. rewrite Hl'. split; [done|]. split; [|done].
  by eapply v_pack_unpack.
Qed.

Lemma realloc_variable_set v es pad tlv u : entries_ok es → find_entry (VTYPE V) es = Some u →
  realloc_variable_len_extension v (tlv_of es pad) = Ok tlv → value_set v es pad tlv.
Proof.
  intros Hes Hu (n & Hn & ([l [a b]] & Hr & (bs & Hp & [= <-])%bind_Ok)%bind_Ok)%bind_Ok.
  destruct (set_entry_found _ _ _ Hu) as (es1 & es2 & -> & Hni & Hset).
  rewrite realloc_entry in Hr by done. destruct (Nat.ltb_spec pad (n - length u)); [done|].
  destruct (Z.ltb_spec (Z.of_nat n) (2 ^ 16)); [|done]. injection Hr as <- <- <-.
  assert (slice (length (encode es1) + 4) (length (encode es1) + 4 + n)
    (tlv_of (es1 ++ (VTYPE V, resized u n) :: es2) (pad + length u - n)) = resized u n) as E.
  { rewrite <-(length_resized u n) at 1. apply slice_entry. }
  rewrite E in Hp. destruct (packs_slice v n (resized u n) bs) as [Hb Hl]; [done|apply length_resized| |done|].
  { unfold in_uint. lia. }
  rewrite splice_entry by (by rewrite length_resized). exists bs, (pad + length u - n).
  split; [done|]. rewrite Hset. split; [done|].
  rewrite !encode_app, !encode_cons, !length_app, !length_entry_bytes. cbn [snd]. lia.
Qed.

Lemma init_variable_set v es pad tlv : entries_ok es →
  init_variable_len_extension S v false (tlv_of es pad) = Ok tlv →
  find_entry (VTYPE V) es = None ∧ value_set v es pad tlv.
Proof using All.
  intros Hes (n & Hn & ([l [a b]] & Ha & (bs & Hp & [= <-])%bind_Ok)%bind_Ok)%bind_Ok.
  pose proof (alloc_len_u16 _ _ _ _ _ _ Ha) as Hu.
  pose proof (alloc_fresh _ _ _ _ _ _ Hes typed Ha) as Hf. split; [done|].
  assert (V' := proj1 (find_entry_None _ _) Hf).
  destruct (decide (pad < n + 4)) as [Hr|Hr]; [by rewrite (alloc_no_room rt S) in Ha|].
  rewrite (alloc_new S) in Ha by (done || lia). injection Ha as <- <- <-.
  assert (slice (length (encode es) + 4) (length (encode es) + 4 + n)
    (tlv_of (es ++ [(VTYPE V, zeros n)]) (pad - (n + 4))) = zeros n) as E.
  { rewrite <-(length_zeros n) at 1. apply slice_entry. }
  rewrite E in Hp. destruct (packs_slice v n (zeros n) bs) as [Hb Hl]; [done|apply length_zeros|done|done|].
  rewrite splice_entry by (by rewrite length_zeros). exists bs, (pad - (n + 4)). split; [done|].
  rewrite set_entry_new by done. split; [done|].
  rewrite encode_snoc, length_app, length_entry_bytes. cbn [snd]. lia.
Qed.

(** The area after either way to write the value. *)
Definition set_variable v tlv (exists_ : bool) : res (list byte) :=
  if exists_ then realloc_variable_len_extension v tlv else init_variable_len_extension S v false tlv.

Lemma set_variable_Ok v es pad tlv (e := is_ok (get_extension_bytes S (VTYPE V) (tlv_of es pad)))
    pad' : entries_ok es → set_variable v (tlv_of es pad') e = Ok tlv → value_set v es pad' tlv.
Proof using All.
  intros Hes H. destruct (find_entry (VTYPE V) es) as [u|] eqn:Hu.
  - assert (e = true) as E by (unfold e; by rewrite (get_extension_bytes_found S _ es u)).
    rewrite E in H. by eapply realloc_variable_set.
  - apply find_entry_None in Hu. destruct (get_extension_bytes_absent S _ es pad Hes Hu typed) as [x Hx].
    assert (e = false) as E by (unfold e; by rewrite Hx).
    rewrite E in H. by apply init_variable_set in H as [_ H].
Qed.

(** The length of an account that a value makes. *)
Definition needed_len es bs : nat :=
  adjust_len_for_multisig (166 + length (encode (set_entry (VTYPE V) bs es))).

Lemma value_state v es pad tlv st L : value_set v es pad tlv →
  state_ok S st → account_type st = type_byte S →
  (∀ bs, packs v bs → needed_len es bs = L) → 166 + length (encode es) + pad = L →
  ∃ bs pad', let es' := set_entry (VTYPE V) bs es in let st' := holding_entries S es' pad' st in
    packs v bs ∧ state_ok S st' ∧ length (state_bytes S st') = needed_len es bs ∧
    with_tlv tlv st = st'.
Proof.
  intros (bs & pad' & Hb & -> & Hlen) Hok Ht HL Hpad. exists bs, pad'. cbv zeta.
  specialize (HL bs Hb). pose proof (adjust_len (166 + length (encode (set_entry (VTYPE V) bs es))))
    as [Hm _]. unfold needed_len in HL |- *. rewrite HL in Hm |- *.
  split; [done|]. split; [apply holding_ok; [done..|lia]|]. split; [|done].
  rewrite length_holding by done. lia.
Qed.

(** The whole function: the entry is set, the rest of the area and the base stay,
    and the account gets the length its entries need. *)
Lemma alloc_variable_Ok held i v ov w w' st es pad :
  unpack S (info_data w i) = Ok st → account_type st = type_byte S →
  tlv_data st = tlv_of es pad → entries_ok es →
  alloc_and_serialize_variable_len_extension S held i v ov w = Ok w' →
  (ov = false → find_entry (VTYPE V) es = None) ∧
  ∃ bs pad', let es' := set_entry (VTYPE V) bs es in let st' := holding_entries S es' pad' st in
    packs v bs ∧ state_ok S st' ∧ length (state_bytes S st') = needed_len es bs ∧
    w' = set_data w (key i) (state_bytes S st').
Proof using All.
  intros Hst Ht Htlv Hes H. unfold alloc_and_serialize_variable_len_extension in H.
  pose proof (unpack_Ok _ _ _ Hst) as [Hd Hok].
  assert (state_bytes S (holding_entries S es pad st) = info_data w i) as Ed
    by (rewrite Hd; unfold holding_entries; rewrite <-Htlv; by destruct st).
  apply bind_Ok in H as (d & [Hk ->]%try_borrow_data_Ok & H). rewrite unpack_ref_unpack, Hst in H.
  cbn [fmap result_fmap] in H. rewrite Ok_bind in H. cbn [ref_tlv] in H. rewrite Htlv in H.
  apply bind_Ok in H as (L & (n & Hn & HL)%bind_Ok & H).
  assert (∀ bs, packs v bs → needed_len es bs = L) as Hneed.
  { intros bs (Hb & _). rewrite Hn in Hb. injection Hb as ->.
    rewrite (new_account_len S _ es pad _ bs) in HL by done. by apply Ok_inj in HL. }
  apply bind_Ok in H as (u & Hov%throw_if_Ok & H). split.
  { intros ->. rewrite andb_true_r in Hov. destruct (find_entry (VTYPE V) es) as [x|] eqn:Hx; [|done].
    by rewrite (get_extension_bytes_found S _ es x) in Hov. }
  pose proof (adjust_len (166 + length (encode (set_entry (VTYPE V) (zeros n) es)))) as [Hm Hadj].
  rewrite (new_account_len S _ es pad n (zeros n)) in HL by (try apply length_zeros; done).
  apply Ok_inj in HL. rewrite HL in Hm, Hadj.
  assert (166 + length (encode (set_entry (VTYPE V) (zeros n) es)) ≤ L) as HLe by lia.
  pose proof (length_holding S es pad st Ht) as Hlen. rewrite Ed in Hlen.
  set (e := is_ok _) in *. destruct (Nat.ltb_spec (length (info_data w i)) L) as [Hgt|Hle].
  - apply bind_Ok in H as (w1 & Hr & H).
    apply (resize_holding S _ _ es pad st) in Hr; [|done|lia|done].
    set (pad1 := L - 166 - length (encode es)) in *. set (st1 := holding_entries S es pad1 st) in *.
    assert (state_ok S st1) as Hok1 by (apply holding_ok; [done..|lia]).
    assert (unpack S (info_data w1 i) = Ok st1) as Hst1.
    { unfold info_data. rewrite Hr, get_set_data, decide_True by done. by apply unpack_state_bytes. }
    apply bind_Ok in H as (d & [_ ->]%try_borrow_data_Ok & H).
    assert (∃ tlv, set_variable v (tlv_data st1) e = Ok tlv ∧
      w' = write_state S w1 i (with_tlv tlv st1)) as (tlv & Hset & ->).
    { unfold set_variable. destruct e.
      - rewrite Hst1, Ok_bind in H. apply bind_Ok in H as (tlv & Htl & [= <-]). by exists tlv.
      - rewrite (proj2 (Nat.leb_gt _ _)), Ok_bind, Hst1, Ok_bind in H
          by (change BASE_ACCOUNT_LENGTH with 165; lia).
        apply bind_Ok in H as (tlv & Htl & [= <-]). by exists tlv. }
    apply set_variable_Ok in Hset; [|done].
    destruct (value_state v es pad1 tlv st L) as (bs & pad' & Hb & Hok' & Hl' & Hw);
      [done..|lia|].
    exists bs, pad'. cbv zeta. split; [done|]. split; [done|]. split; [done|].
    unfold write_state. subst w1. rewrite set_data_over. unfold st1. f_equal. by rewrite <-Hw.
  - apply bind_Ok in H as (d & [_ ->]%try_borrow_data_Ok & H). rewrite Hst, Ok_bind, Htlv in H.
    apply bind_Ok in H as (tlv & Hset & H). fold (set_variable v (tlv_of es pad) e) in Hset.
    apply set_variable_Ok in Hset as (bs & pad' & Hb & -> & Hpad'); [|done].
    specialize (Hneed bs Hb) as HLb. unfold needed_len in HLb.
    set (es' := set_entry (VTYPE V) bs es) in *.
    pose proof (adjust_len (166 + length (encode es'))) as [_ Hadj']. rewrite HLb in Hadj'.
    set (w1 := write_state S w i _) in H.
    assert (data (get_account w1 (key i)) = state_bytes S (holding_entries S es' pad' st)) as Hd1
      by (subst w1; unfold write_state; by rewrite get_set_data, decide_True).
    exists bs, (L - 166 - length (encode es')). cbv zeta. fold es'. unfold needed_len. fold es'.
    rewrite HLb, length_holding by done. split; [done|]. split; [apply holding_ok; [done..|lia]|].
    split; [lia|]. destruct (Nat.ltb_spec 0 (length (info_data w i) - L)) as [Hgt|Hge].
    + apply (resize_holding S _ _ es' pad' st) in H; [|done|lia|done]. subst w' w1.
      unfold write_state. apply set_data_over.
    + injection H as <-. subst w1. unfold write_state, holding_entries. do 5 f_equal. lia.
Qed.
End variable.

(** ** Values of fixed length *)
Section fixed.
Context `{rt : Runtime}.
Context (S : Type) `{HB : BaseState S} `{HP : !PodState S}.
Context {V : Type} `{HV : !Extension V}.
Hypothesis typed : TYPE V ≠ ExtensionType.Uninitialized.
Hypothesis belongs : get_account_type (TYPE V) = ACCOUNT_TYPE S.
Implicit Types (es : list entry) (st : PodStateMut S) (w : world) (v : V).

Lemma init_put_set v es pad tlv : entries_ok es →
  init_extension S V false (tlv_of es pad) = Ok tlv →
  in_uint 16 (Z.of_nat (ext_size V)) ∧ find_entry (TYPE V) es = None ∧
  ∃ pad', put_extension S v tlv = tlv_of (set_entry (TYPE V) (c_write ext_codec v) es) pad' ∧
    length (encode (set_entry (TYPE V) (c_write ext_codec v) es)) + pad' = length (encode es) + pad.
Proof using All.
  intros Hes ([l [a b]] & Ha & (u & _ & [= <-])%bind_Ok)%bind_Ok.
  pose proof (alloc_len_u16 _ _ _ _ _ _ Ha) as Hu. split; [done|].
  pose proof (alloc_fresh _ _ _ _ _ _ Hes typed Ha) as Hf. split; [done|].
  pose proof (proj1 (find_entry_None _ _) Hf) as Hni.
  destruct (decide (pad < ext_size V + 4)) as [Hr|Hr]; [by rewrite (alloc_no_room rt S) in Ha|].
  rewrite (alloc_new S) in Ha by (done || lia). injection Ha as <- <- <-.
  rewrite splice_entry by (rewrite length_zeros; apply c_write_length).
  exists (pad - (ext_size V + 4)). rewrite set_entry_new by done. split.
  - unfold put_extension. rewrite get_extension_range_found; [|done|].
    + apply splice_entry. by rewrite !c_write_length.
    + apply entries_ok_app; [done..|]. split; [done|]. cbn [snd]. by rewrite c_write_length.
  - rewrite encode_snoc, length_app, length_entry_bytes. cbn [snd]. rewrite c_write_length.
    change (c_size ext_codec) with (ext_size V). lia.
Qed.

Lemma alloc_fixed_Ok held i v w w' st es pad :
  unpack S (info_data w i) = Ok st → account_type st = type_byte S →
  tlv_data st = tlv_of es pad → entries_ok es →
  alloc_and_serialize S held i v false w = Ok w' →
  in_uint 16 (Z.of_nat (ext_size V)) ∧ find_entry (TYPE V) es = None ∧
  ∃ pad', let es' := set_entry (TYPE V) (c_write ext_codec v) es in
    let st' := holding_entries S es' pad' st in
    state_ok S st' ∧
    length (state_bytes S st') =
      length (info_data w i) `max` adjust_len_for_multisig (166 + length (encode es')) ∧
    w' = set_data w (key i) (state_bytes S st').
Proof using All.
  intros Hst Ht Htlv Hes H. unfold alloc_and_serialize in H.
  pose proof (unpack_Ok _ _ _ Hst) as [Hd Hok].
  assert (state_bytes S (holding_entries S es pad st) = info_data w i) as Ed
    by (rewrite Hd; unfold holding_entries; rewrite <-Htlv; by destruct st).
  pose proof (length_holding S es pad st Ht) as Hlen. rewrite Ed in Hlen.
  apply bind_Ok in H as (d & [Hk ->]%try_borrow_data_Ok & H). rewrite unpack_ref_unpack, Hst in H.
  cbn [fmap result_fmap] in H. rewrite Ok_bind in H. cbn [ref_tlv] in H. rewrite Htlv in H.
  apply bind_Ok in H as (L & HL & H). unfold try_get_new_account_len in HL.
  rewrite (new_account_len S _ es pad _ (c_write ext_codec v)) in HL by (try apply c_write_length; done).
  apply Ok_inj in HL. set (es' := set_entry (TYPE V) (c_write ext_codec v) es) in *.
  pose proof (adjust_len (166 + length (encode es'))) as [Hm Hadj]. rewrite HL in Hm, Hadj.
  apply bind_Ok in H as (w1 & Hw1 & H).
  assert (∃ pad1, let st1 := holding_entries S es pad1 st in state_ok S st1 ∧
    166 + length (encode es) + pad1 = length (info_data w i) `max` L ∧
    info_data w1 i = state_bytes S st1 ∧ ∀ d, set_data w1 (key i) d = set_data w (key i) d)
    as (pad1 & Hok1 & Hl1 & Hd1 & Hw).
  { destruct (Nat.ltb_spec (length (info_data w i)) L) as [Hgt|Hle].
    - apply (resize_holding S _ _ es pad st) in Hw1; [|done|lia|done].
      exists (L - 166 - length (encode es)). cbv zeta. split; [apply holding_ok; [done..|lia]|].
      split; [lia|]. subst w1. unfold info_data. rewrite get_set_data, decide_True by done.
      split; [done|]. intros d. apply set_data_over.
    - injection Hw1 as <-. exists pad. cbv zeta. split; [|by split; [lia|]].
      rewrite Hd in Ed. apply holding_ok; [done..|]. rewrite <-Hlen. rewrite Hd. apply Hok. }
  cbv zeta in *. apply bind_Ok in H as (d & [_ ->]%try_borrow_data_Ok & H).
  rewrite (proj2 (Nat.leb_gt _ _)), Ok_bind in H by (change BASE_ACCOUNT_LENGTH with 165; lia).
  rewrite Hd1, (unpack_state_bytes S _ Hok1), Ok_bind in H.
  apply bind_Ok in H as (tlv & Hi & [= <-]).
  apply (init_put_set v) in Hi as (Hu & Hf & pad' & Hput & Hl'); [|done]. do 2 (split; [done|]).
  exists pad'. fold es' in Hput, Hl'. cbv zeta. unfold write_state. rewrite Hw, Hput, HL.
  pose proof (state_not_multisig _ _ Hok) as Hnm. rewrite <-Hd in Hnm.
  rewrite length_holding by done. split; [apply holding_ok; [done..|lia]|]. split; [lia|done].
Qed.
End fixed.
