(* ===== verification/SystemFacts.v ===== *)
(** * What the handlers that call the system program do

    Creating the native mint, and growing a token account for further
    extensions. *)
From S2P Require Import Prelude Codec Errors Runtime Pod State ExtensionType ExtensionData Tlv.
From S2P Require Import TlvFacts TlvAlloc StateExt Fee Authority Transfer AccountFacts StateFacts.
From S2P Require Import PackedExt InitOps InitFacts SystemOps Unborn.

(** ** Lamports and owners *)
Section lamports.
Context `{rt : Runtime}.
Implicit Types (w : world) (k : Pubkey).

Lemma get_move_lamports from to n w k :
  let a := get_account w k in let a' := get_account (move_lamports from to n w) k in
  data a' = data a ∧ owner a' = owner a ∧
  lamports a' = lamports a - (if decide (from = k) then n else 0) + (if decide (to = k) then n else 0).
Proof.
  cbn zeta. unfold move_lamports. rewrite data_set_lamports, owner_set_lamports,
    data_set_lamports, owner_set_lamports. split; [done|]. split; [done|].
  rewrite !lamports_set_lamports. repeat case_decide; subst; lia.
Qed.

Lemma data_set_owner w k k' o :
  data (get_account (set_owner w k o) k') = data (get_account w k').
Proof. rewrite get_set_owner. case_decide; naive_solver. Qed.

Lemma lamports_set_owner w k k' o :
  lamports (get_account (set_owner w k o) k') = lamports (get_account w k').
Proof. rewrite get_set_owner. case_decide; naive_solver. Qed.

Lemma owner_set_owner w k k' o :
  owner (get_account (set_owner w k o) k') =
    if decide (k = k') then o else owner (get_account w k').
Proof. rewrite get_set_owner. by case_decide. Qed.

Lemma resize_Ok w k n w' : resize w k n = Ok w' →
  resize_error (length (data (get_account w k))) n = None ∧
  w' = set_data w k (take n (data (get_account w k)) ++
                     zeros (n - length (data (get_account w k)))).
Proof. unfold resize, info_data. cbn [key]. case_match; [done|]. by intros [= <-]. Qed.
End lamports.

Ltac world_simp :=
  repeat first [rewrite data_set_data | rewrite data_set_lamports | rewrite data_set_owner
    | rewrite owner_set_data | rewrite owner_set_lamports | rewrite owner_set_owner
    | rewrite lamports_set_data | rewrite lamports_set_lamports | rewrite lamports_set_owner].

(** ** The native mint *)
Section native.
Context `{rt : Runtime} `{sp : !SystemProgram}.
Implicit Types (w : world).

(** The bytes of the native mint, and the mint they are. *)
Definition native_mint_bytes : list byte :=
  Mint_pack_into_slice (mkMint None 0 native_mint.DECIMALS true None) (zeros Mint_LEN).
Definition native_mint_state : PodStateMut PodMint :=
  mkState (mkPodMint co_none 0 native_mint.DECIMALS 1 co_none) [] [].

Lemma native_mint_state_ok :
  native_mint_bytes = state_bytes PodMint native_mint_state ∧ state_ok PodMint native_mint_state.
Proof.
  split; [by vm_compute|]. constructor; [|done|by left|].
  - apply PodMint_ok. refine (conj (co_none_ok 32) (conj _ (conj _ (conj _ (co_none_ok 32)))));
      (split; [apply Z.leb_le|apply Z.ltb_lt]; vm_compute; reflexivity).
  - rewrite length_state_bytes. by vm_compute.
Qed.

Lemma process_create_native_mint_Ok pi ni si rest w w' :
  process_create_native_mint (pi :: ni :: si :: rest) w = Ok w' →
  key ni = native_mint.id ∧ info_owner w ni = system_program_id ∧ info_data w ni = [] ∧
  ∃ r, rent_get = Ok r ∧
    let n := saturating_sub (minimum_balance r Mint_LEN) (info_lamports w ni) in
    n ≤ info_lamports w pi ∧
    w' = set_data (set_owner (set_data (move_lamports (key pi) (key ni) n w) (key ni)
           (zeros Mint_LEN)) (key ni) id) (key ni) native_mint_bytes.
Proof.
  unfold process_create_native_mint. do 3 (cbn [next_account_info]; rewrite Ok_bind).
  intros ([] & Hk%throw_if_Ok%negb_false_iff%Z.eqb_eq & (r & Hr & H)%bind_Ok)%bind_Ok.
  apply bind_Ok in H as (w1 & [Hn ->]%system_transfer_Ok & H).
  apply bind_Ok in H as (w2 & (Ho & Hd & ->)%system_allocate_Ok & H).
  apply bind_Ok in H as (w3 & [_ ->]%system_assign_Ok & H).
  apply bind_Ok in H as (md & [_ ->]%borrow_Ok & (md' & Hp & [= <-])%bind_Ok).
  unfold info_owner, info_data in Ho, Hd |- *.
  destruct (get_move_lamports (key pi) (key ni)
    (saturating_sub (minimum_balance r Mint_LEN) (info_lamports w ni)) w (key ni)) as (E1 & E2 & _).
  rewrite E1 in Hd. rewrite E2 in Ho. split; [done|]. split; [done|]. split; [done|].
  exists r. split; [done|]. split; [done|].
  revert Hp. unfold Pack_pack, info_data. world_simp. rewrite decide_True by done.
  rewrite length_zeros. cbn [negb Nat.eqb]. change (PACK_LEN Mint) with Mint_LEN.
  rewrite Nat.eqb_refl. by intros [= <-].
Qed.

(** the native mint is created once: the account under its fixed address was
    empty, and becomes a mint without authorities, without supply and with nine decimals, paid for
    by the payer; no other account changes. *)
Theorem process_create_native_mint_effect pi ni si rest w w' : key pi ≠ key ni →
  process_create_native_mint (pi :: ni :: si :: rest) w = Ok w' →
  key ni = native_mint.id ∧ info_owner w ni = system_program_id ∧ info_data w ni = [] ∧
  info_owner w' ni = id ∧ mint_at w' native_mint.id = Some native_mint_state ∧
  (∃ r, rent_get = Ok r ∧ minimum_balance r Mint_LEN ≤ info_lamports w' ni) ∧
  info_lamports w' pi + info_lamports w' ni = info_lamports w pi + info_lamports w ni ∧
  data (get_account w' (key pi)) = data (get_account w (key pi)) ∧
  owner (get_account w' (key pi)) = owner (get_account w (key pi)) ∧
  ∀ k, k ≠ key ni → k ≠ key pi → get_account w' k = get_account w k.
Proof.
  intros Hne (Hk & Ho & Hd & r & Hr & Hn & ->)%process_create_native_mint_Ok.
  destruct native_mint_state_ok as [Hb Hok].
  set (n := saturating_sub _ _) in *.
  pose proof (get_move_lamports (key pi) (key ni) n w) as Hm. cbn zeta in Hm.
  unfold info_owner, info_lamports in *.
  split; [done|]. split; [done|]. split; [done|].
  split; [by world_simp; rewrite decide_True|].
  split. { apply mint_at_Some. world_simp. rewrite decide_True, Hb by done. by apply unpack_state_bytes. }
  destruct (Hm (key ni)) as (_ & _ & Hl), (Hm (key pi)) as (Hpd & Hpo & Hpl).
  rewrite decide_False, decide_True in Hl by done.
  rewrite decide_True, decide_False in Hpl by congruence.
  split. { exists r. split; [done|]. world_simp. rewrite Hl. subst n. unfold saturating_sub. lia. }
  split. { world_simp. rewrite Hl, Hpl. lia. }
  split. { world_simp. by rewrite !decide_False by congruence. }
  split. { world_simp. by rewrite decide_False by congruence. }
  intros k Hk1 Hk2. rewrite get_set_data, decide_False, get_set_owner, decide_False, get_set_data,
    decide_False by congruence. unfold move_lamports.
  by rewrite !get_set_lamports, !decide_False by congruence.
Qed.
End native.

(** * What [process_reallocate] does

    A token account is grown to hold further extensions: its base state, its
    entries and its tokens stay, its reserve follows its length. *)
Local Open Scope nat_scope.

(** ** A longer buffer *)
Section grow.
Context `{rt : Runtime}.
Implicit Types (st : PodStateMut PodAccount) (tlv : list byte).

(** The account [st] with [k] more bytes of room for extensions. *)
Definition grown (k : nat) st : PodStateMut PodAccount :=
  mkState (base st) (type_byte PodAccount) (tlv_data st ++ zeros k).

Lemma grown_bytes k st n : account_type st = type_byte PodAccount →
  length (state_bytes PodAccount st) + k = n →
  state_bytes PodAccount st ++ zeros k = state_bytes PodAccount (grown k st) ∧
  length (state_bytes PodAccount (grown k st)) = n.
Proof.
  intros Ht Hn.
  assert (state_bytes PodAccount st ++ zeros k = state_bytes PodAccount (grown k st)) as E.
  { unfold state_bytes, grown. cbn [base account_type tlv_data]. rewrite Ht.
    change (type_byte PodAccount) with [Byte.x02]. by rewrite <-!app_assoc. }
  split; [done|]. by rewrite <-E, length_app, length_zeros.
Qed.

(** [set_account_type] on the lengthened buffer of a token account. *)
Lemma set_account_type_grown st n d : state_ok PodAccount st →
  length (state_bytes PodAccount st) < n →
  set_account_type Account
    (state_bytes PodAccount st ++ zeros (n - length (state_bytes PodAccount st))) = Ok d →
  ∃ k, d = state_bytes PodAccount (grown k st) ∧ length d = n ∧ state_ok PodAccount (grown k st).
Proof.
  intros Hst Hn H.
  assert (∀ k, length (state_bytes PodAccount (grown k st)) = n → n ≠ Multisig_LEN →
    state_ok PodAccount (grown k st)) as Hok.
  { intros k Hl Hm. constructor; [apply Hst|apply Hst|by right|by rewrite Hl]. }
  set (d0 := _ ++ _) in H.
  assert (length d0 = n) as Hl0 by (subst d0; rewrite length_app, length_zeros; lia).
  unfold set_account_type in H.
  apply bind_Ok in H as ([] & [Hm _]%throw_if_Ok%orb_false_iff & H).
  rewrite Hl0 in Hm. apply Nat.eqb_neq in Hm.
  apply bind_Ok in H as ([] & _ & H).
  destruct (state_type _ _ Hst) as [[Ht Htlv]|Ht].
  - exists (n - 166).
    assert (state_bytes PodAccount st = c_write PodAccount_codec (base st)) as Eb.
    { unfold state_bytes. rewrite Ht. apply app_nil_r. }
    assert (length (c_write PodAccount_codec (base st)) = 165) as Lb by apply c_write_length.
    assert (length (state_bytes PodAccount st) = 165) as Ls by by rewrite Eb.
    rewrite Ls in *. subst d0. rewrite Eb in *.
    change (SIZE_OF Account) with 165 in H.
    rewrite take_app_length', drop_app_length' in H by done.
    rewrite Lb in H. replace (n - 165) with (S (n - 166)) in H by lia.
    change (zeros (S (n - 166))) with (Byte.x00 :: zeros (n - 166)) in H.
    assert (state_bytes PodAccount (grown (n - 166) st) =
      c_write PodAccount_codec (base st) ++ [Byte.x02] ++ zeros (n - 166)) as Eg.
    { unfold state_bytes, grown. cbn [base account_type tlv_data]. by rewrite Htlv. }
    assert (d = c_write PodAccount_codec (base st) ++ [Byte.x02] ++ zeros (n - 166)) as ->.
    { change ((Ok (c_write PodAccount_codec (base st) ++ [Byte.x02] ++ zeros (n - 166)) : res _) =
        Ok d) in H. by injection H. }
    assert (length (state_bytes PodAccount (grown (n - 166) st)) = n) as Lg.
    { rewrite Eg, length_app, Lb, length_app, length_zeros. simpl. lia. }
    split; [done|]. split; [by rewrite <-Eg|by apply Hok].
  - exists (n - length (state_bytes PodAccount st)).
    destruct (grown_bytes (n - length (state_bytes PodAccount st)) st n Ht) as [E El]; [lia|].
    fold d0 in E. rewrite E in *.
    assert (length (c_write PodAccount_codec (base st)) = 165) as Lb by apply c_write_length.
    assert (drop (SIZE_OF Account) (state_bytes PodAccount
      (grown (n - length (state_bytes PodAccount st)) st)) =
      [Byte.x02] ++ tlv_data (grown (n - length (state_bytes PodAccount st)) st)) as Er.
    { unfold state_bytes at 1. cbn [grown base account_type].
      change (type_byte PodAccount) with [Byte.x02]. by rewrite drop_app_length'. }
    rewrite Er in H.
    assert ((Ok (state_bytes PodAccount (grown (n - length (state_bytes PodAccount st)) st)) : res _)
      = Ok d) as Hd by exact H.
    injection Hd as <-. split; [done|]. split; [done|by apply Hok].
Qed.

(** Room at the end of the area does not change what is read from it. *)
Lemma has_entries_grow tlv k : has_entries tlv → has_entries (tlv ++ zeros k).
Proof.
  intros (es & pad & -> & Hes). exists es, (pad + k). split; [|done].
  unfold tlv_of. by rewrite <-app_assoc, replicate_add.
Qed.

Lemma get_extension_grow V `{!Extension V} tlv k x : TYPE V ≠ ExtensionType.Uninitialized →
  has_entries tlv →
  get_account_ext V (tlv ++ zeros k) = Ok x ↔ get_account_ext V tlv = Ok x.
Proof.
  intros HV (es & pad & -> & Hes).
  assert (tlv_of es pad ++ zeros k = tlv_of es (pad + k)) as ->.
  { unfold tlv_of. by rewrite <-app_assoc, replicate_add. }
  by rewrite !get_extension_entries.
Qed.
End grow.

(** ** The reserve of a native account *)
Section reserve.
Context `{rt : Runtime}.
Implicit Types (st : PodStateMut PodAccount) (r n l : Z).

Lemma set_is_native_ok st r : state_ok PodAccount st → in_uint 64 r →
  state_ok PodAccount (with_base (set_is_native (co_some r) (base st)) st).
Proof.
  intros Hst Hr. apply state_ok_with_base; [done| |exact (state_initialized _ _ Hst)].
  pose proof (state_base_ok _ _ Hst) as Hb. apply PodAccount_ok in Hb. apply PodAccount_ok.
  destruct Hb as (H1 & H2 & H3 & H4 & H5 & _ & H6 & H7). split_and!; done.
Qed.

Lemma unpack_packed_mut_account input m : unpack_packed_mut Account input = Ok m →
  mut_base_data m = take Account_LEN input ∧
  Account_unpack_from_slice (take Account_LEN input) = Ok (mut_base m).
Proof.
  intros (u & _ & (a & Ha & ([t l] & _ & [= <-])%bind_Ok)%bind_Ok)%bind_Ok.
  by apply Pack_unpack_account in Ha as (_ & Ha & _).
Qed.

Lemma sync_native_reserve_Ok st r n l d : state_ok PodAccount st → in_uint 64 r →
  sync_native_reserve r n l (state_bytes PodAccount st) = Ok d →
  (r + n ≤ l)%Z ∧
  d = state_bytes PodAccount (with_base (set_is_native (co_some r) (base st)) st).
Proof.
  intros Hst Hr H.
  apply bind_Ok in H as (m & [Hd Hm]%unpack_packed_mut_account & H).
  apply bind_Ok in H as (mn & [-> _]%ok_or_Ok%checked_add_Some & H).
  apply bind_Ok in H as ([] & Hl%throw_if_Ok & [= <-]). apply Z.ltb_ge in Hl. split; [done|].
  unfold packed_bytes, pack_base. cbn [mut_base_data with_mut_base mut_base pack_into_slice Account_Pack].
  assert (length (c_write PodAccount_codec (base st)) = 165) as Lb by apply c_write_length.
  assert (take Account_LEN (state_bytes PodAccount st) = c_write PodAccount_codec (base st)) as Et.
  { unfold state_bytes. by rewrite take_app_length'. }
  rewrite Hd, Et in *.
  rewrite (Account_repack _ (mut_base m) (base st)); [|done|done|].
  - unfold state_bytes at 1. by rewrite drop_app_length'.
  - symmetry. apply c_read_write. apply (state_base_ok _ _ Hst).
Qed.
End reserve.

(** ** The handler *)
Section reallocate.
Context `{rt : Runtime} `{sp : !SystemProgram}.
Implicit Types (w : world) (i : AccountInfo) (st : PodStateMut PodAccount).

(** The base state after the account was resized with the reserve [r]. *)
Definition reserve_base (r : Z) (a : PodAccount) : PodAccount :=
  if is_native a then set_is_native (co_some r) a else a.

(** The lamports the payer adds, and the world they are taken from. *)
Definition top_up (r held : Z) : Z := saturating_sub r held.

Lemma packed_fields (a : PodAccount) (acc : Account) : PodAccount_view a (a_state acc) = acc →
  Account_is_native acc = is_native a ∧ a_amount acc = Pod.amount a ∧ a_owner acc = acc_owner a.
Proof.
  intros <-. unfold Account_is_native, is_native, co_is_some.
  cbn [a_is_native a_amount a_owner PodAccount_view]. unfold co_get. by destruct (_ =? SOME)%Z.
Qed.

Lemma all_accounts (types : list ExtensionType) :
  existsb (λ t, negb (bool_decide (get_account_type t = AccountType.Account))) types = false →
  Forall (λ t, get_account_type t = AccountType.Account) types.
Proof.
  intros H. apply Forall_forall. intros t Ht. apply not_true_iff_false in H.
  destruct (decide (get_account_type t = AccountType.Account)) as [|Hne]; [done|].
  exfalso. apply H, existsb_exists. exists t.
  split; [by apply list_elem_of_In|]. by rewrite bool_decide_false.
Qed.

Lemma top_up_Ok pi ti si (n : Z) w w' : (0 ≤ n)%Z →
  (if (0 <? n)%Z then system_transfer pi ti si n w else Ok w) = Ok w' →
  (0 < n → n ≤ info_lamports w pi)%Z ∧
  ∀ k, let a := get_account w k in let a' := get_account w' k in
    data a' = data a ∧ owner a' = owner a ∧
    lamports a' = (lamports a - (if decide (key pi = k) then n else 0)
                   + (if decide (key ti = k) then n else 0))%Z.
Proof.
  intros Hn. destruct (Z.ltb_spec 0 n) as [Hlt|Hge].
  - intros [Hp ->]%system_transfer_Ok. split; [done|]. intros k. apply get_move_lamports.
  - intros [= <-]. assert (n = 0)%Z as -> by lia. split; [lia|].
    intros k. split; [done|]. split; [done|]. repeat case_decide; lia.
Qed.

Lemma process_reallocate_Ok pid ti pi si ai signers types w w' :
  (∀ r n, in_uint 64 (minimum_balance r n)) →
  process_reallocate pid (ti :: pi :: si :: ai :: signers) types w = Ok w' →
  ∃ st current needed, account_at w (key ti) = Some st ∧
    validate_owner [] w pid (acc_owner (base st)) ai (data_len w ai) signers = Ok tt ∧
    get_extension_types (tlv_data st) = Ok current ∧
    Forall (λ t, get_account_type t = AccountType.Account) types ∧
    try_calculate_account_len Account (current ++ types) = Ok needed ∧
    (needed ≤ data_len w ti ∧ w' = w ∨
     data_len w ti < needed ∧
     ∃ rent k, let r := minimum_balance rent needed in
       let n := top_up r (info_lamports w ti -
                          if is_native (base st) then Pod.amount (base st) else 0) in
       let st' := with_base (reserve_base r (base st)) (grown k st) in
       rent_get = Ok rent ∧ state_ok PodAccount st' ∧
       length (state_bytes PodAccount st') = needed ∧
       (is_native (base st) = true →
          r + Pod.amount (base st) ≤ info_lamports w' ti)%Z ∧
       (0 ≤ n)%Z ∧ (0 < n → n ≤ info_lamports w pi)%Z ∧
       ∀ k', let a := get_account w k' in let a' := get_account w' k' in
         data a' = (if decide (key ti = k') then state_bytes PodAccount st' else data a) ∧
         owner a' = owner a ∧
         lamports a' = (lamports a - (if decide (key pi = k') then n else 0)
                        + (if decide (key ti = k') then n else 0))%Z).
Proof.
  intros Hrent H. unfold process_reallocate in H.
  do 4 (cbn [next_account_info] in H; rewrite Ok_bind in H).
  apply bind_Ok in H as (d & [_ ->]%borrow_Ok & H).
  apply bind_Ok in H as (acc & (st & Hst & Htlv & Hv & Hs & _)%unpack_packed_account & H).
  apply bind_Ok in H as ([] & Hval & (current & Hcur & H)%bind_Ok).
  apply bind_Ok in H as ([] & Hty%throw_if_Ok & (needed & Hn & H)%bind_Ok).
  apply packed_fields in Hv as (En & Ea & Eo).
  exists st, current, needed.
  pose proof Hst as Hst'. apply unpack_Ok in Hst' as [Hbytes Hok].
  split; [by apply account_at_Some|]. rewrite Eo in Hval. split; [done|].
  rewrite <-Htlv in Hcur. split; [done|]. split; [by apply all_accounts|].
  split; [done|]. destruct (Nat.leb_spec needed (data_len w ti)) as [Hle|Hgt]; [left|right].
  { by injection H as <-. }
  split; [done|].
  apply bind_Ok in H as (w1 & [_ ->]%resize_Ok & (rent & Hr & H)%bind_Ok).
  set (r := minimum_balance rent needed) in *.
  apply bind_Ok in H as (cur & Hcurl%ok_or_Ok & H). apply checked_sub_Some in Hcurl as [-> _].
  unfold info_lamports in H. rewrite lamports_set_data in H.
  set (nat0 := if Account_is_native (packed_base acc) then Some (a_amount (packed_base acc)) else None)
    in *.
  assert (default 0%Z nat0 = if is_native (base st) then Pod.amount (base st) else 0%Z) as E0.
  { subst nat0. rewrite <-En, <-Ea. by destruct (Account_is_native _). }
  rewrite E0 in H. set (n := saturating_sub r _) in H.
  set (w1 := set_data w (key ti) _) in H.
  apply bind_Ok in H as (w2 & Hw2 & H).
  apply bind_Ok in H as (d1 & [_ ->]%borrow_Ok & (d2 & Hd2 & (d3 & Hd3 & [= <-])%bind_Ok)%bind_Ok).
  assert (n = top_up r (lamports (get_account w (key ti)) -
    if is_native (base st) then Pod.amount (base st) else 0)) as En' by done.
  assert (0 ≤ n)%Z as Hn0 by (subst n; unfold saturating_sub; lia).
  apply top_up_Ok in Hw2 as [Hpay Hw2']; [|done].
  unfold info_lamports, w1 in Hpay. rewrite lamports_set_data in Hpay.
  unfold info_data in Hd2. rewrite (proj1 (Hw2' (key ti))) in Hd2. unfold w1 in Hd2.
  rewrite data_set_data, decide_True in Hd2 by done.
  unfold data_len, info_data in Hgt. unfold info_data in Hbytes. rewrite Hbytes in Hd2, Hgt.
  rewrite firstn_all2 in Hd2 by lia.
  apply set_account_type_grown in Hd2 as (k & -> & Hlen & Hgok); [|done|done].
  exists rent, k. cbn zeta. fold r. fold (info_lamports w ti) in En'. rewrite <-En'.
  assert (d3 = state_bytes PodAccount (with_base (reserve_base r (base st)) (grown k st)) ∧
    state_ok PodAccount (with_base (reserve_base r (base st)) (grown k st)) ∧
    (is_native (base st) = true → r + Pod.amount (base st) ≤ lamports (get_account w2 (key ti)))%Z)
    as (-> & Hok3 & Hsol).
  { unfold reserve_base. subst nat0. rewrite En, Ea in Hd3. destruct (is_native (base st)).
    - apply sync_native_reserve_Ok in Hd3 as [Hl ->]; [|done|apply Hrent].
      split; [done|]. split; [|done]. apply (set_is_native_ok (grown k st)); [done|apply Hrent].
    - injection Hd3 as <-. by split_and!. }
  split; [done|]. split; [done|]. split.
  { rewrite <-Hlen, !length_state_bytes. done. }
  split. { intros Hnat. unfold info_lamports. rewrite lamports_set_data. by apply Hsol. }
  split; [done|]. split; [done|]. intros k'.
  destruct (Hw2' k') as (D & O & L). split; [|split].
  - rewrite data_set_data. destruct (decide (key ti = k')) as [E|E]; [reflexivity|]. rewrite D. unfold w1.
    by rewrite data_set_data, decide_False.
  - rewrite owner_set_data, O. unfold w1. by rewrite owner_set_data.
  - rewrite lamports_set_data, L. unfold w1. by rewrite lamports_set_data.
Qed.

Lemma reserve_base_fields r a :
  acc_mint (reserve_base r a) = acc_mint a ∧ acc_owner (reserve_base r a) = acc_owner a ∧
  Pod.amount (reserve_base r a) = Pod.amount a ∧ delegate (reserve_base r a) = delegate a ∧
  delegated_amount (reserve_base r a) = delegated_amount a ∧
  acc_state (reserve_base r a) = acc_state a ∧
  close_authority (reserve_base r a) = close_authority a ∧
  is_native (reserve_base r a) = is_native a.
Proof. unfold reserve_base. destruct (is_native a) eqn:E; split_and!; done. Qed.

(** C38: reallocation is for the owner of a token account and for extensions of token accounts.
    Afterwards the account has at least the length that its extensions and the new ones need;
    its tokens, its owner and every extension are what they were, it is exempt from
    rent at its new length, and the lamports for that come from the payer. *)
Theorem process_reallocate_effect pid ti pi si ai signers types w w' :
  (∀ r n, in_uint 64 (minimum_balance r n)) → key pi ≠ key ti →
  (∀ st, account_at w (key ti) = Some st → has_entries (tlv_data st)) →
  process_reallocate pid (ti :: pi :: si :: ai :: signers) types w = Ok w' →
  ∃ st st' current needed,
    account_at w (key ti) = Some st ∧ account_at w' (key ti) = Some st' ∧
    validate_owner [] w pid (acc_owner (base st)) ai (data_len w ai) signers = Ok tt ∧
    Forall (λ t, get_account_type t = AccountType.Account) types ∧
    get_extension_types (tlv_data st) = Ok current ∧
    try_calculate_account_len Account (current ++ types) = Ok needed ∧
    data_len w' ti = Nat.max (data_len w ti) needed ∧
    acc_mint (base st') = acc_mint (base st) ∧ acc_owner (base st') = acc_owner (base st) ∧
    Pod.amount (base st') = Pod.amount (base st) ∧ delegate (base st') = delegate (base st) ∧
    delegated_amount (base st') = delegated_amount (base st) ∧
    acc_state (base st') = acc_state (base st) ∧ is_native (base st') = is_native (base st) ∧
    close_authority (base st') = close_authority (base st) ∧
    (∀ V (E : Extension V) x, TYPE V ≠ ExtensionType.Uninitialized →
       get_account_ext V (tlv_data st') = Ok x ↔ get_account_ext V (tlv_data st) = Ok x) ∧
    (data_len w ti < needed → ∃ rent, rent_get = Ok rent ∧
       (minimum_balance rent needed + (if is_native (base st) then Pod.amount (base st) else 0)
         ≤ info_lamports w' ti)%Z) ∧
    (info_lamports w' ti + info_lamports w' pi = info_lamports w ti + info_lamports w pi)%Z ∧
    (∀ k, k ≠ key ti → data (get_account w' k) = data (get_account w k)) ∧
    (∀ k, owner (get_account w' k) = owner (get_account w k)) ∧
    (∀ k, k ≠ key ti → k ≠ key pi →
       lamports (get_account w' k) = lamports (get_account w k)).
Proof.
  intros Hrent Hne He H. apply process_reallocate_Ok in H as (st & current & needed & Hst & Hv & Hcur &
    Hty & Hneed & [[Hle ->]|(Hlt & rent & k & Hr & Hok & Hlen & _ & Hn0 & _ & Hw)]); [| |done].
  { exists st, st, current, needed. split_and!; try done; lia. }
  set (r := minimum_balance rent needed) in *. set (st' := with_base _ _) in *.
  destruct (Hw (key ti)) as (Hd & _ & Hl). rewrite decide_True in Hd by done.
  rewrite (decide_False (P := key pi = key ti)), (decide_True (P := key ti = key ti)) in Hl by done.
  destruct (Hw (key pi)) as (_ & _ & Hlp).
  rewrite (decide_True (P := key pi = key pi)), (decide_False (P := key ti = key pi)) in Hlp by done.
  destruct (reserve_base_fields r (base st)) as (F1 & F2 & F3 & F4 & F5 & F6 & F7 & F8).
  exists st, st', current, needed. split; [done|]. split.
  { apply account_at_Some. rewrite Hd. by apply unpack_state_bytes. }
  do 4 (split; [done|]).
  split. { unfold data_len at 1, info_data. rewrite Hd, Hlen. lia. }
  do 8 (split; [done|]). split.
  { intros V E x HV. by apply get_extension_grow; [|apply He]. }
  unfold info_lamports in *. split.
  { intros _. exists rent. split; [done|]. fold r. rewrite Hl. unfold top_up, saturating_sub. lia. }
  split; [lia|]. split; [|split].
  - intros k' Hk. destruct (Hw k') as (D & _). by rewrite decide_False in D.
  - intros k'. apply Hw.
  - intros k' H1 H2. destruct (Hw k') as (_ & _ & L). rewrite !decide_False in L by done. lia.
Qed.
End reallocate.
