(* ===== verification/LedgerSpec.v ===== *)
(** * What the program promises about a mint

    An abstract ledger: what each account holds and withholds, what the mint has
    supplied and withholds, and the actions that change it.  The instructions are
    proved to carry out these actions ([Machine.v]); that no tokens
    appear or vanish is a property of the actions.  Tokens in encrypted balances are
    not in the shares: two of the actions take them out of sight and back. *)
From stdpp Require Import functions.
From S2P Require Import Prelude Codec Errors Runtime.

(** The balance and the withheld fees of every account; the supply and the
    withheld fees of the mint. *)
Record ledger := mkLedger {
  shares : Pubkey → Z * Z;
  issue : Z * Z;
}.

(** Ledgers are the same when they show the same shares. *)
#[export] Instance ledger_equiv : Equiv ledger :=
  λ l l', issue l = issue l' ∧ ∀ k, shares l k = shares l' k.
#[export] Instance ledger_equivalence : Equivalence (≡@{ledger}).
Proof.
  split; [by intros l|by intros l l' [? H]; split; auto|].
  intros l1 l2 l3 [H1 H2] [H3 H4]. split; [congruence|]. intros k. by rewrite H2.
Qed.

Definition no_ledger : ledger := mkLedger (λ _, (0, 0)) (0, 0).
Definition set_shares (k : Pubkey) (v : Z * Z) (l : ledger) : ledger :=
  mkLedger (<[k := v]> (shares l)) (issue l).
Definition set_issue (v : Z * Z) (l : ledger) : ledger := mkLedger (shares l) v.

(** What can happen to the tokens of a mint. *)
Inductive action :=
| Move (from to : Pubkey) (amount fee : Z)
| Issue (to : Pubkey) (amount : Z)
| Destroy (from : Pubkey) (amount : Z)
| Harvest (from : Pubkey)
| WithdrawFromMint (to : Pubkey)
| WithdrawFromAccount (from to : Pubkey)
| Conceal (from : Pubkey) (amount : Z)
| Reveal (to : Pubkey) (amount : Z).

(** An action is refused when a share would leave the range of [u64]. *)
Definition apply (a : action) (l : ledger) : option ledger :=
  match a with
  | Move from to amount fee =>
      if bool_decide (from ≠ to) && (0 <=? fee) && (fee <=? amount) then
        b ← checked_sub 64 (shares l from).1 amount;
        b' ← checked_add 64 (shares l to).1 (amount - fee);
        h' ← checked_add 64 (shares l to).2 fee;
        Some (set_shares to (b', h') (set_shares from (b, (shares l from).2) l))
      else None
  | Issue to amount =>
      b ← checked_add 64 (shares l to).1 amount;
      s ← checked_add 64 (issue l).1 amount;
      Some (set_issue (s, (issue l).2) (set_shares to (b, (shares l to).2) l))
  | Destroy from amount =>
      b ← checked_sub 64 (shares l from).1 amount;
      s ← checked_sub 64 (issue l).1 amount;
      Some (set_issue (s, (issue l).2) (set_shares from (b, (shares l from).2) l))
  | Harvest from =>
      p ← checked_add 64 (issue l).2 (shares l from).2;
      Some (set_issue ((issue l).1, p) (set_shares from ((shares l from).1, 0) l))
  | WithdrawFromMint to =>
      b ← checked_add 64 (shares l to).1 (issue l).2;
      Some (set_issue ((issue l).1, 0) (set_shares to (b, (shares l to).2) l))
  | WithdrawFromAccount from to =>
      let h := (shares l from).2 in
      let l := set_shares from ((shares l from).1, 0) l in
      b ← checked_add 64 (shares l to).1 h;
      Some (set_shares to (b, (shares l to).2) l)
  | Conceal from amount =>
      b ← checked_sub 64 (shares l from).1 amount;
      Some (set_shares from (b, (shares l from).2) l)
  | Reveal to amount =>
      b ← checked_add 64 (shares l to).1 amount;
      Some (set_shares to (b, (shares l to).2) l)
  end.

Fixpoint run (acts : list action) (l : ledger) : option ledger :=
  match acts with
  | [] => Some l
  | a :: acts => l ← apply a l; run acts l
  end.

(** ** Equivalent ledgers behave alike *)
#[export] Instance set_shares_proper k v : Proper ((≡) ==> (≡)) (set_shares k v).
Proof.
  intros l l' [Hi Hs]. split; [done|]. intros j. cbn [shares set_shares].
  destruct (decide (k = j)) as [->|]; [by rewrite !fn_lookup_insert|].
  by rewrite !fn_lookup_insert_ne.
Qed.

#[export] Instance set_issue_proper v : Proper ((≡) ==> (≡)) (set_issue v).
Proof. intros l l' [Hi Hs]. by split. Qed.

(** Writes to one key, and to two. *)
Lemma set_shares_twice k v v' l : set_shares k v (set_shares k v' l) ≡ set_shares k v l.
Proof.
  split; [done|]. intros j. cbn [shares set_shares].
  destruct (decide (k = j)) as [->|]; [by rewrite !fn_lookup_insert|by rewrite !fn_lookup_insert_ne].
Qed.

Lemma set_shares_comm k k' v v' l : k ≠ k' →
  set_shares k v (set_shares k' v' l) ≡ set_shares k' v' (set_shares k v l).
Proof.
  intros Hk. split; [done|]. intros j. cbn [shares set_shares].
  destruct (decide (k = j)) as [->|], (decide (k' = j)) as [->|]; try done;
    by rewrite ?fn_lookup_insert, ?fn_lookup_insert_ne, ?fn_lookup_insert by done.
Qed.

Lemma shares_set_shares k v l j :
  shares (set_shares k v l) j = if decide (k = j) then v else shares l j.
Proof.
  cbn [shares set_shares]. case_decide as E; [subst; apply fn_lookup_insert|].
  by apply fn_lookup_insert_ne.
Qed.

Lemma set_shares_id k v l : shares l k = v → set_shares k v l ≡ l.
Proof.
  intros <-. split; [done|]. intros j. rewrite shares_set_shares. by case_decide; subst.
Qed.

#[export] Instance apply_proper a : Proper ((≡) ==> (≡)) (apply a).
Proof.
  intros l l' Hl. pose proof Hl as [Hi Hs].
  destruct a as [from to n fee|to n|from n|from|to|from to|from n|to n]; cbn [apply].
  6: { pose proof (set_shares_proper from ((shares l from).1, 0) _ _ Hl) as [_ Hs'].
       cbv zeta. rewrite <-(Hs from), <-(Hs' to).
       destruct (checked_add _ _ _); [|constructor]. cbn. constructor.
       by repeat apply set_shares_proper. }
  all: rewrite <-?Hi, <-?Hs; repeat (case_match; cbn; [|by constructor]);
    repeat match goal with
    | |- context [checked_sub 64 ?x ?y] => destruct (checked_sub 64 x y); cbn; [|by constructor]
    | |- context [checked_add 64 ?x ?y] => destruct (checked_add 64 x y); cbn; [|by constructor]
    end; constructor; repeat (apply set_issue_proper || apply set_shares_proper); exact Hl.
Qed.

#[export] Instance run_proper acts : Proper ((≡) ==> (≡)) (run acts).
Proof.
  induction acts as [|a acts IH]; intros l l' Hl; cbn [run]; [by constructor|].
  pose proof (apply_proper a _ _ Hl) as Ha. by destruct Ha; [apply IH|constructor].
Qed.

Lemma run_app acts acts' l : run (acts ++ acts') l = (l' ← run acts l; run acts' l').
Proof.
  revert l. induction acts as [|a acts IH]; intros l; cbn; [done|].
  destruct (apply a l); cbn; [apply IH|done].
Qed.

(** Running on from an equivalent ledger. *)
Lemma run_trans acts acts' l l1 l2 :
  run acts l ≡ Some l1 → run acts' l1 ≡ Some l2 → run (acts ++ acts') l ≡ Some l2.
Proof.
  intros H1 H2. rewrite run_app. inversion H1 as [x y Hxy Ex Ey|]. subst. cbn.
  by rewrite Hxy.
Qed.

(** ** Conservation *)
Definition held (l : ledger) (k : Pubkey) : Z := (shares l k).1 + (shares l k).2.
Definition outstanding (l : ledger) : Z := (issue l).1 - (issue l).2.
Definition sum_on (ks : list Pubkey) (f : Pubkey → Z) : Z := foldr (λ k n, f k + n) 0 ks.

Lemma sum_on_ext ks f g : (∀ k, k ∈ ks → f k = g k) → sum_on ks f = sum_on ks g.
Proof.
  induction ks as [|k ks IH]; intros H; [done|]. cbn. rewrite (H k) by by left.
  f_equal. apply IH. intros j Hj. apply H. by right.
Qed.

Lemma sum_on_update ks f g k : NoDup ks → k ∈ ks → (∀ j, j ≠ k → g j = f j) →
  sum_on ks g = sum_on ks f - f k + g k.
Proof.
  intros Hd Hk Hg. induction Hd as [|j ks Hj Hd IH]; [by apply elem_of_nil in Hk|]. cbn.
  destruct (decide (j = k)) as [->|Hne].
  - fold (sum_on ks g) (sum_on ks f). rewrite (sum_on_ext ks g f); [lia|].
    intros i Hi. apply Hg. by intros ->.
  - rewrite (Hg j) by done. apply elem_of_cons in Hk as [->|Hk]; [done|].
    specialize (IH Hk). unfold sum_on in IH. lia.
Qed.

Lemma held_set_shares k v l j : held (set_shares k v l) j = if decide (k = j) then v.1 + v.2 else held l j.
Proof.
  unfold held. cbn [shares set_shares]. case_decide as E; [subst; by rewrite fn_lookup_insert|].
  by rewrite fn_lookup_insert_ne.
Qed.

Lemma sum_set_shares ks k v l : NoDup ks → k ∈ ks →
  sum_on ks (held (set_shares k v l)) = sum_on ks (held l) - held l k + (v.1 + v.2).
Proof.
  intros Hd Hk. rewrite (sum_on_update ks (held l) _ k); try done.
  - by rewrite held_set_shares, decide_True.
  - intros j Hj. by rewrite held_set_shares, decide_False.
Qed.

(** The accounts an action touches. *)
Definition parties (a : action) : list Pubkey :=
  match a with
  | Move from to _ _ | WithdrawFromAccount from to => [from; to]
  | Issue k _ | Destroy k _ | Harvest k | WithdrawFromMint k | Conceal k _ | Reveal k _ => [k]
  end.

(** What an action takes out of sight. *)
Definition concealed_by (a : action) : Z :=
  match a with Conceal _ n => n | Reveal _ n => - n | _ => 0 end.

Lemma apply_balance a ks l l' : NoDup ks → (∀ k, k ∈ parties a → k ∈ ks) → apply a l = Some l' →
  sum_on ks (held l') - outstanding l' =
    sum_on ks (held l) - outstanding l - concealed_by a.
Proof.
  intros Hd Hks H. unfold outstanding.
  assert (∀ k, k ∈ parties a → ∀ v l, sum_on ks (held (set_shares k v l)) =
    sum_on ks (held l) - held l k + (v.1 + v.2)) as Hs by (intros; apply sum_set_shares; auto).
  assert (∀ v l, sum_on ks (held (set_issue v l)) = sum_on ks (held l)) as Hi by done.
  destruct a as [from to n fee|to n|from n|from|to|from to|from n|to n]; cbn [apply parties concealed_by] in *; cbv zeta in H.
  1: destruct (bool_decide _ && _ && _) eqn:E; [|done];
     apply andb_true_iff in E as [[Hne%bool_decide_eq_true _]%andb_true_iff _].
  all: repeat match type of H with
    | (_ ≫= _) = Some _ => apply bind_Some in H as (? & [-> _]%to_uint_Some & H)
    end; injection H as <-; rewrite ?Hi, !Hs by set_solver; cbn [issue set_shares set_issue fst snd].
  1,6: rewrite held_set_shares; case_decide; try done; cbn [shares set_shares].
  all: unfold held; try lia.
  - subst. rewrite fn_lookup_insert. cbn [fst snd]. lia.
  - rewrite fn_lookup_insert_ne by done. lia.
Qed.

Definition net_concealed (acts : list action) : Z := foldr (λ a n, concealed_by a + n) 0 acts.

Lemma net_concealed_app acts acts' :
  net_concealed (acts ++ acts') = net_concealed acts + net_concealed acts'.
Proof.
  unfold net_concealed. induction acts as [|a acts IH]; [done|]. cbn [app foldr]. lia.
Qed.

(** No sequence of actions makes tokens appear or vanish. *)
Lemma run_balance acts ks l l' : NoDup ks →
  (∀ a k, a ∈ acts → k ∈ parties a → k ∈ ks) → run acts l ≡ Some l' →
  sum_on ks (held l') - outstanding l' =
    sum_on ks (held l) - outstanding l - net_concealed acts.
Proof.
  intros Hd. unfold net_concealed.
  revert l. induction acts as [|a acts IH]; intros l Hks; cbn [run foldr].
  - intros H. apply (inj Some) in H as [Hi Hs]. unfold outstanding. rewrite Hi, Z.sub_0_r. f_equal.
    apply sum_on_ext. intros k _. unfold held. by rewrite Hs.
  - destruct (apply a l) as [l1|] eqn:Ha; cbn; [|by inversion 1]. intros H.
    rewrite (IH l1) by (try done; intros b k Hb; apply Hks; by right).
    rewrite (apply_balance a ks l l1); [lia|done| |done]. intros k. apply Hks. by left.
Qed.

(** What the actions supply and destroy. *)
Definition supplied (a : action) : Z :=
  match a with Issue _ n => n | Destroy _ n => - n | _ => 0 end.

Definition net_supply (acts : list action) : Z := foldr (λ a n, supplied a + n) 0 acts.

Lemma run_supply acts l l' : run acts l ≡ Some l' →
  (issue l').1 = (issue l).1 + net_supply acts.
Proof.
  unfold net_supply.
  revert l. induction acts as [|a acts IH]; intros l; cbn [run foldr].
  - intros [-> _]%(inj Some). lia.
  - destruct (apply a l) as [l1|] eqn:Ha; cbn; [|by inversion 1]. intros H%IH. rewrite H.
    destruct a as [from to n fee|to n|from n|from|to|from to|from n|to n]; cbn [apply supplied] in *; cbv zeta in Ha.
    1: destruct (bool_decide _ && _ && _); [|done].
    all: repeat match type of Ha with
      | (_ ≫= _) = Some _ => apply bind_Some in Ha as (? & [-> _]%to_uint_Some & Ha)
      end; injection Ha as <-; cbn; lia.
Qed.
