(* ===== verification/Ledger.v ===== *)
(** * The ledger of a mint

    All the tokens of a mint that exist in the world: the sum, over every token
    account of the program, of what it holds and withholds.  The lemmas here say
    how that sum and the tokens the mint has issued change when an account is
    written; [LedgerFacts] adds them up over the instructions. *)
From stdpp Require Import functions.
From S2P Require Import Prelude Codec Errors Runtime Pod State ExtensionType ExtensionData Tlv.
From S2P Require Import TlvFacts TlvAlloc StateExt Fee Authority Transfer AccountFacts Unborn.
From S2P Require Import LedgerSpec.

Section ledger.
Context `{rt : Runtime}.
Implicit Types (w : world) (a : SolAccount) (st : PodStateMut PodAccount).
Implicit Types (m : PodStateMut PodMint) (mk k : Pubkey).

(** What a token account counts for, and what an account of the world does. *)
Definition part mk st : Z := if acc_mint (base st) =? mk then holding st else 0.
Definition holding_in mk a : Z :=
  if owner a =? id then
    match unpack_account (data a) with
    | Ok st => part mk st
    | _ => 0
    end
  else 0.

(** All the tokens of the mint [mk] in token accounts of the program. *)
Definition total mk w : Z := map_fold (λ _ a n, holding_in mk a + n) 0 (accts w).

(** The tokens that were issued and are in no token account: withheld fees that
    were harvested to the mint. *)
Definition mint_withheld m : Z :=
  match get_mint_ext TransferFeeConfig (tlv_data m) with
  | Ok c => tfc_withheld_amount c
  | _ => 0
  end.
Definition issued_by m : Z := supply (base m) - mint_withheld m.
Definition issued_in a : Z :=
  if owner a =? id then
    match unpack_mint (data a) with
    | Ok m => issued_by m
    | _ => 0
    end
  else 0.
Definition issued mk w : Z := issued_in (get_account w mk).

(** The ledger of a mint, account by account: the abstract state. *)
Definition share mk st : Z * Z :=
  if acc_mint (base st) =? mk then (amount (base st), withheld st) else (0, 0).
Definition share_in mk a : Z * Z :=
  if owner a =? id then
    match unpack_account (data a) with
    | Ok st => share mk st
    | _ => (0, 0)
    end
  else (0, 0).
Definition issue_of m : Z * Z := (supply (base m), mint_withheld m).
Definition issue_in a : Z * Z :=
  if owner a =? id then
    match unpack_mint (data a) with
    | Ok m => issue_of m
    | _ => (0, 0)
    end
  else (0, 0).
Definition ledger_of mk w : ledger :=
  mkLedger (λ k, share_in mk (get_account w k)) (issue_in (get_account w mk)).

Lemma holding_in_share mk a : holding_in mk a = (share_in mk a).1 + (share_in mk a).2.
Proof.
  unfold holding_in, share_in, part, share. case_match; [|done]. case_match; [|done..].
  by case_match.
Qed.

Lemma issued_in_issue a : issued_in a = (issue_in a).1 - (issue_in a).2.
Proof. unfold issued_in, issue_in. case_match; [|done]. by case_match. Qed.

(** ** Sums over a map *)
Definition sum_map (f : SolAccount → Z) (accts : gmap Pubkey SolAccount) : Z :=
  map_fold (λ _ a n, f a + n) 0 accts.

Lemma sum_map_delete f (acs : gmap Pubkey SolAccount) k a : acs !! k = Some a →
  sum_map f acs = f a + sum_map f (delete k acs).
Proof.
  intros H. unfold sum_map. apply (map_fold_delete_L (λ _ a n, f a + n) 0 k a acs); [|done].
  intros. lia.
Qed.

Lemma sum_map_insert f (acs : gmap Pubkey SolAccount) k a : acs !! k = None →
  sum_map f (<[k := a]> acs) = f a + sum_map f acs.
Proof.
  intros H. rewrite (sum_map_delete _ _ k a) by apply lookup_insert_eq.
  by rewrite delete_insert_id.
Qed.

Definition or_zero (f : SolAccount → Z) (o : option SolAccount) : Z :=
  match o with Some a => f a | None => 0 end.

Lemma sum_map_update f (acs : gmap Pubkey SolAccount) k a :
  sum_map f (<[k := a]> acs) = sum_map f acs - or_zero f (acs !! k) + f a.
Proof.
  destruct (acs !! k) as [b|] eqn:Hk; simpl.
  - rewrite (sum_map_delete f acs k b) by done. rewrite <-insert_delete_eq.
    rewrite sum_map_insert by apply lookup_delete_eq. lia.
  - rewrite sum_map_insert by done. lia.
Qed.

(** ** The total of a mint *)
Lemma holding_in_empty mk : holding_in mk empty_account = 0.
Proof. unfold holding_in. simpl. by case_match. Qed.

Lemma holding_in_nonneg mk a : 0 ≤ holding_in mk a.
Proof.
  unfold holding_in. case_match; [|done]. case_match eqn:Hst; [|done..]. unfold part, holding.
  case_match; [|done]. apply unpack_Ok in Hst as [_ Hst].
  pose proof (withheld_ok a0). destruct (proj1 (PodAccount_ok _) (state_base_ok _ _ Hst)) as
    (_ & _ & [Ha _] & _). lia.
Qed.

Lemma or_zero_get mk w k : or_zero (holding_in mk) (accts w !! k) = holding_in mk (get_account w k).
Proof.
  unfold get_account. destruct (accts w !! k); [done|]. symmetry. apply holding_in_empty.
Qed.

Lemma total_set_account mk w k a :
  total mk (set_account w k a) = total mk w - holding_in mk (get_account w k) + holding_in mk a.
Proof.
  unfold total, set_account. cbn [accts].
  fold (sum_map (holding_in mk) (<[k:=a]> (accts w))). rewrite sum_map_update.
  by rewrite or_zero_get.
Qed.

Lemma total_nonneg mk w k : holding_in mk (get_account w k) ≤ total mk w.
Proof.
  rewrite <-or_zero_get. unfold total. fold (sum_map (holding_in mk) (accts w)).
  assert (∀ acs, 0 ≤ sum_map (holding_in mk) acs) as Hpos.
  { intros acs. induction acs as [|k' a acs Hk IH] using map_ind; [done|].
    rewrite sum_map_insert by done. pose proof (holding_in_nonneg mk a). lia. }
  destruct (accts w !! k) as [a|] eqn:Ha; [|apply Hpos].
  rewrite (sum_map_delete _ _ k a) by done. simpl. specialize (Hpos (delete k (accts w))). lia.
Qed.
End ledger.

(** ** Writing one account *)
Section writes.
Context `{rt : Runtime}.
Implicit Types (w : world) (a : SolAccount) (st : PodStateMut PodAccount).
Implicit Types (m : PodStateMut PodMint) (mk k : Pubkey) (i : AccountInfo).

Lemma holding_in_account mk w k st : account_at w k = Some st → owner (get_account w k) = id →
  holding_in mk (get_account w k) = part mk st.
Proof.
  intros Hst%account_at_Some Ho. unfold holding_in. by rewrite Ho, Z.eqb_refl, Hst.
Qed.

Lemma holding_in_not_account mk a : (∀ st, unpack_account (data a) ≠ Ok st) →
  holding_in mk a = 0.
Proof.
  intros H. unfold holding_in. case_match; [|done].
  destruct (unpack_account (data a)) as [st| |]; [by destruct (H st)|done..].
Qed.

Lemma holding_in_mint mk w k m : mint_at w k = Some m → holding_in mk (get_account w k) = 0.
Proof.
  intros Hm%mint_at_Some. apply holding_in_not_account. intros st Hst.
  by eapply unpack_account_not_mint.
Qed.

Lemma total_set_data mk w k d :
  total mk (set_data w k d) = total mk w - holding_in mk (get_account w k) +
    holding_in mk (mkAccount (lamports (get_account w k)) d (owner (get_account w k))).
Proof. apply total_set_account. Qed.

(** Writing a token account back changes the total by what changed in it. *)
Lemma total_write mk w i st st' : account_at w (key i) = Some st → state_ok PodAccount st' →
  info_owner w i = id →
  total mk (write_account w i st') = total mk w - part mk st + part mk st'.
Proof.
  intros Hst Hok Ho. unfold write_account. rewrite total_set_data.
  rewrite (holding_in_account mk w _ st) by done. unfold holding_in. cbn [owner data].
  unfold info_owner in Ho. rewrite Ho, Z.eqb_refl. by rewrite (unpack_state_bytes _ st').
Qed.

Lemma total_write_mint mk w i m m' : mint_at w (key i) = Some m → state_ok PodMint m' →
  total mk (write_mint w i m') = total mk w.
Proof.
  intros Hm Hok. unfold write_mint. rewrite total_set_data.
  rewrite (holding_in_mint mk w _ m) by done. rewrite holding_in_not_account; [lia|].
  cbn [data]. intros st Hst. eapply unpack_account_not_mint; [done|]. by apply unpack_state_bytes.
Qed.

Lemma issued_in_not_mint a : (∀ m, unpack_mint (data a) ≠ Ok m) → issued_in a = 0.
Proof.
  intros H. unfold issued_in. case_match; [|done].
  destruct (unpack_mint (data a)) as [m| |]; [by destruct (H m)|done..].
Qed.

Lemma issued_in_account w k st : account_at w k = Some st → issued_in (get_account w k) = 0.
Proof.
  intros Hst%account_at_Some. apply issued_in_not_mint. by eapply unpack_account_not_mint.
Qed.

Lemma issued_set_account mk w k a :
  issued mk (set_account w k a) = if decide (k = mk) then issued_in a else issued mk w.
Proof. unfold issued. rewrite get_set_account. by case_decide. Qed.

Lemma issued_write mk w i st st' : account_at w (key i) = Some st → state_ok PodAccount st' →
  issued mk (write_account w i st') = issued mk w.
Proof.
  intros Hst Hok. unfold write_account, set_data. rewrite issued_set_account.
  case_decide as E; [|done]. subst mk. unfold issued. rewrite (issued_in_account _ _ st) by done.
  apply issued_in_not_mint. cbn [data]. eapply unpack_account_not_mint.
  by apply unpack_state_bytes.
Qed.

(** ** The ledger after a write *)
Lemma share_in_not_account mk a : (∀ st, unpack_account (data a) ≠ Ok st) →
  share_in mk a = (0, 0).
Proof.
  intros H. unfold share_in. case_match; [|done].
  destruct (unpack_account (data a)) as [st| |]; [by destruct (H st)|done..].
Qed.

Lemma issue_in_not_mint a : (∀ m, unpack_mint (data a) ≠ Ok m) → issue_in a = (0, 0).
Proof.
  intros H. unfold issue_in. case_match; [|done].
  destruct (unpack_mint (data a)) as [m| |]; [by destruct (H m)|done..].
Qed.

Lemma share_in_account mk a st : unpack_account (data a) = Ok st → owner a = id →
  share_in mk a = share mk st.
Proof. intros Hst Ho. unfold share_in. by rewrite Ho, Z.eqb_refl, Hst. Qed.

Lemma issue_in_mint a m : unpack_mint (data a) = Ok m → owner a = id → issue_in a = issue_of m.
Proof. intros Hm Ho. unfold issue_in. by rewrite Ho, Z.eqb_refl, Hm. Qed.

Lemma issue_in_unpacked a st : unpack_account (data a) = Ok st → issue_in a = (0, 0).
Proof. intros Hst. apply issue_in_not_mint. by eapply unpack_account_not_mint. Qed.

Lemma share_in_unpacked mk a m : unpack_mint (data a) = Ok m → share_in mk a = (0, 0).
Proof.
  intros Hm. apply share_in_not_account. intros st Hst. by eapply unpack_account_not_mint.
Qed.

Lemma share_at mk w k st : account_at w k = Some st → owner (get_account w k) = id →
  shares (ledger_of mk w) k = share mk st.
Proof. intros Hst%account_at_Some Ho. exact (share_in_account mk _ st Hst Ho). Qed.

Lemma issue_at w mk m : mint_at w mk = Some m → owner (get_account w mk) = id →
  issue (ledger_of mk w) = issue_of m.
Proof. intros Hm%mint_at_Some Ho. exact (issue_in_mint _ m Hm Ho). Qed.

Lemma ledger_set_account mk w k a :
  ledger_of mk (set_account w k a) ≡
    set_issue (if decide (k = mk) then issue_in a else issue (ledger_of mk w))
      (set_shares k (share_in mk a) (ledger_of mk w)).
Proof.
  split; [cbn [ledger_of issue set_issue]; rewrite get_set_account; by case_decide|]. intros j.
  cbn [ledger_of shares set_shares set_issue]. rewrite get_set_account.
  case_decide as E; [subst; by rewrite fn_lookup_insert|by rewrite fn_lookup_insert_ne].
Qed.

Lemma ledger_set_same mk w k a : share_in mk a = share_in mk (get_account w k) →
  issue_in a = issue_in (get_account w k) → ledger_of mk (set_account w k a) ≡ ledger_of mk w.
Proof.
  intros Hs Hi. split; [|intros j]; cbn [ledger_of issue shares]; rewrite get_set_account;
    case_decide as E; [rewrite <-E|reflexivity|rewrite <-E|reflexivity]; assumption.
Qed.

Lemma ledger_write mk w i st st' : account_at w (key i) = Some st → state_ok PodAccount st' →
  info_owner w i = id →
  ledger_of mk (write_account w i st') ≡ set_shares (key i) (share mk st') (ledger_of mk w).
Proof.
  intros Hst%account_at_Some Hok Ho. unfold write_account, set_data.
  rewrite ledger_set_account.
  pose proof (unpack_state_bytes PodAccount st' Hok) as Hst'.
  set (a := mkAccount _ _ _). rewrite (share_in_account mk a st') by done.
  rewrite (issue_in_unpacked a st') by done.
  assert ((if decide (key i = mk) then (0, 0) else issue (ledger_of mk w)) =
    issue (ledger_of mk w)) as ->; [|done].
  case_decide; [|done]. subst. symmetry. by eapply issue_in_unpacked.
Qed.

Lemma ledger_write_mint mk w i m m' : mint_at w (key i) = Some m → state_ok PodMint m' →
  info_owner w i = id →
  ledger_of mk (write_mint w i m') ≡
    if decide (key i = mk) then set_issue (issue_of m') (ledger_of mk w) else ledger_of mk w.
Proof.
  intros Hm%mint_at_Some Hok Ho. unfold write_mint, set_data. rewrite ledger_set_account.
  pose proof (unpack_state_bytes PodMint m' Hok) as Hm'.
  set (a := mkAccount _ _ _). rewrite (share_in_unpacked mk a m') by done.
  rewrite (issue_in_mint a m') by done.
  rewrite set_shares_id by by eapply share_in_unpacked. by case_decide.
Qed.
End writes.

(** ** The invariant *)

(** What other programs can do to the accounts of the world: nothing to those the
    token program owns, and the accounts they give to it are zeroed. *)
Definition foreign_step `{Runtime} (w w' : world) : Prop :=
  ∀ k, let a := get_account w k in let a' := get_account w' k in
    (owner a = id → owner a' = id ∧ data a' = data a) ∧
    (owner a ≠ id → owner a' = id → ∃ n, data a' = zeros n).

(** Token accounts of [mk] are not wrapped lamports, the extension areas of token
    accounts and mints are made of entries, and accounts that are not initialized
    hold nothing. *)
Definition tidy `{Runtime} (mk : Pubkey) (a : SolAccount) : Prop :=
  owner a = id →
  (∀ st, unpack_account (data a) = Ok st → acc_mint (base st) = mk →
     is_native (base st) = false) ∧
  (∀ st, unpack_account (data a) = Ok st → has_entries (tlv_data st)) ∧
  (∀ m, unpack_mint (data a) = Ok m → has_entries (tlv_data m)) ∧
  unborn (data a).

(** No more than the issued tokens exist in plain sight. *)
Definition solvent `{Runtime} (mk : Pubkey) (w : world) : Prop :=
  total mk w ≤ issued mk w ∧ ∀ k, tidy mk (get_account w k).

(** What an instruction does to the ledger: these actions, in this order. *)
Definition refines `{Runtime} (mk : Pubkey) (acts : list action) (w w' : world) : Prop :=
  run acts (ledger_of mk w) ≡ Some (ledger_of mk w') ∧
  ((∀ k, tidy mk (get_account w k)) → ∀ k, tidy mk (get_account w' k)).

(** Or nothing. *)
Definition conserves `{Runtime} (mk : Pubkey) (w w' : world) : Prop :=
  ledger_of mk w' ≡ ledger_of mk w ∧
  ((∀ k, tidy mk (get_account w k)) → ∀ k, tidy mk (get_account w' k)).

Section invariant.
Context `{rt : Runtime}.
Implicit Types (w : world) (st : PodStateMut PodAccount) (m : PodStateMut PodMint).
Implicit Types (mk k : Pubkey) (i : AccountInfo).

Lemma conserves_refines mk w w' : conserves mk w w' ↔ refines mk [] w w'.
Proof. unfold conserves, refines. cbn [run]. split; intros [H1 H2]; (split; [|done]).
  - by constructor.
  - symmetry. by apply (inj Some).
Qed.

Lemma conserves_refl mk w : conserves mk w w.
Proof. by split. Qed.

Lemma conserves_trans mk w1 w2 w3 :
  conserves mk w1 w2 → conserves mk w2 w3 → conserves mk w1 w3.
Proof. intros [H1 H2] [H3 H4]. split; [by rewrite H3|auto]. Qed.

Lemma refines_conserves mk acts w1 w2 w3 :
  refines mk acts w1 w2 → conserves mk w2 w3 → refines mk acts w1 w3.
Proof. intros [H1 H2] [H3 H4]. split; [by rewrite H3|auto]. Qed.

Lemma conserves_refines_trans mk acts w1 w2 w3 :
  conserves mk w1 w2 → refines mk acts w2 w3 → refines mk acts w1 w3.
Proof. intros [H1 H2] [H3 H4]. split; [by rewrite <-H1|auto]. Qed.

(** The tokens in the accounts, as a sum over enough keys. *)
Lemma sum_map_on f (acs : gmap Pubkey SolAccount) ks : NoDup ks →
  (∀ k, is_Some (acs !! k) → k ∈ ks) → sum_map f acs = sum_on ks (λ k, or_zero f (acs !! k)).
Proof.
  intros Hd. induction acs as [|k a acs Hk IH] using map_ind; intros Hks.
  - unfold sum_map. rewrite map_fold_empty. clear. induction ks as [|k ks IH]; [done|].
    cbn. by rewrite lookup_empty.
  - rewrite sum_map_insert, IH by
      (try done; intros j Hj; apply Hks; rewrite lookup_insert_is_Some'; by right).
    rewrite (sum_on_update ks (λ j, or_zero f (acs !! j))
      (λ j, or_zero f (<[k := a]> acs !! j)) k).
    + rewrite lookup_insert_eq, Hk. cbn [or_zero]. lia.
    + done.
    + apply Hks. by rewrite lookup_insert_eq.
    + intros j Hj. by rewrite lookup_insert_ne.
Qed.

Lemma total_on mk w ks : NoDup ks → (∀ k, is_Some (accts w !! k) → k ∈ ks) →
  total mk w = sum_on ks (held (ledger_of mk w)).
Proof.
  intros Hd Hks. unfold total. fold (sum_map (holding_in mk) (accts w)).
  rewrite (sum_map_on _ _ ks) by done. apply sum_on_ext. intros k _.
  rewrite or_zero_get. apply holding_in_share.
Qed.

Lemma issued_outstanding mk w : issued mk w = outstanding (ledger_of mk w).
Proof. apply issued_in_issue. Qed.

Lemma refines_balance mk acts w w' : refines mk acts w w' →
  total mk w' - issued mk w' = total mk w - issued mk w - net_concealed acts.
Proof.
  intros [H _].
  set (ks := elements (dom (accts w) ∪ dom (accts w') ∪
    list_to_set (mjoin (parties <$> acts)) : gset Pubkey)).
  rewrite !issued_outstanding, !(total_on mk _ ks); try apply NoDup_elements.
  - apply (run_balance acts); [apply NoDup_elements| |done]. intros a k Ha Hk.
    apply elem_of_elements, elem_of_union_r, elem_of_list_to_set, list_elem_of_join.
    exists (parties a). split; [done|]. by apply list_elem_of_fmap_2.
  - intros k Hk%elem_of_dom. apply elem_of_elements. set_solver.
  - intros k Hk%elem_of_dom. apply elem_of_elements. set_solver.
Qed.

Lemma refines_solvent mk acts w w' : refines mk acts w w' → 0 ≤ net_concealed acts →
  solvent mk w → solvent mk w'.
Proof. intros H Hc [H1 H2]. apply refines_balance in H as Hb. split; [lia|]. by apply H. Qed.

Lemma unpack_zeros {S} `{PodState S} n (st : PodStateMut S) :
  base_is_initialized (c_read base_codec (zeros (SIZE_OF S))) = false →
  unpack S (zeros n) ≠ Ok st.
Proof.
  intros Hi [Hz Hst]%unpack_Ok. pose proof (state_initialized S st Hst) as Hin.
  pose proof (length_state_bytes S st) as Hl. rewrite <-Hz, length_zeros in Hl.
  assert (c_write base_codec (base st) = zeros (SIZE_OF S)) as Hb.
  { apply (f_equal (take (SIZE_OF S))) in Hz. unfold state_bytes in Hz.
    rewrite take_app_length' in Hz by by rewrite c_write_length, base_size.
    rewrite <-Hz. unfold zeros. rewrite take_replicate. f_equal. lia. }
  rewrite <-(c_read_write base_codec (base st)), Hb, Hi in Hin by apply Hst. done.
Qed.

(** A token account, and a mint, that are tidy. *)
Lemma tidy_account mk a st : unpack_account (data a) = Ok st →
  (acc_mint (base st) = mk → is_native (base st) = false) → has_entries (tlv_data st) → tidy mk a.
Proof.
  intros Hst Hn He _. split_and!.
  - intros x Hx. rewrite Hst in Hx. by injection Hx as <-.
  - intros x Hx. rewrite Hst in Hx. by injection Hx as <-.
  - intros m Hm. by destruct (unpack_account_not_mint _ _ Hst m).
  - apply unpack_Ok in Hst as [-> Hok]. by apply unborn_account.
Qed.
Lemma tidy_mint mk a m : unpack_mint (data a) = Ok m → has_entries (tlv_data m) → tidy mk a.
Proof.
  intros Hm He _. split_and!.
  1-2: intros st Hst; by destruct (unpack_account_not_mint _ _ Hst m).
  - intros x Hx. rewrite Hm in Hx. by injection Hx as <-.
  - apply unpack_Ok in Hm as [-> Hok]. by apply unborn_mint.
Qed.

Lemma foreign_not_ours a n : data a = zeros n →
  (∀ mk, share_in mk a = (0, 0)) ∧ issue_in a = (0, 0) ∧ ∀ mk, tidy mk a.
Proof.
  intros Hd.
  assert (∀ st, unpack_account (data a) ≠ Ok st) as Hst.
  { rewrite Hd. intros st. apply unpack_zeros. vm_compute. reflexivity. }
  assert (∀ m, unpack_mint (data a) ≠ Ok m) as Hm.
  { rewrite Hd. intros m. apply unpack_zeros. vm_compute. reflexivity. }
  split; [intros mk; by apply share_in_not_account|].
  split; [by apply issue_in_not_mint|].
  intros mk _. split; [intros st H; by destruct (Hst st)|].
  split; [intros st H; by destruct (Hst st)|].
  split; [intros m H; by destruct (Hm m)|rewrite Hd; apply unborn_zeros].
Qed.

Lemma not_ours a : owner a ≠ id →
  (∀ mk, share_in mk a = (0, 0)) ∧ issue_in a = (0, 0) ∧ ∀ mk, tidy mk a.
Proof.
  intros Ho. unfold share_in, issue_in. rewrite (proj2 (Z.eqb_neq _ _) Ho).
  split; [done|]. split; [done|]. by intros mk ?.
Qed.

(** Account by account. *)
Definition same_entry mk a a' : Prop :=
  share_in mk a' = share_in mk a ∧ issue_in a' = issue_in a ∧ (tidy mk a → tidy mk a').

Lemma conserves_pointwise mk w w' :
  (∀ k, same_entry mk (get_account w k) (get_account w' k)) → conserves mk w w'.
Proof.
  intros H. split; [split; [|intros k]; apply H|]. intros Hn k. by apply H.
Qed.

Lemma tidy_pointwise mk w w' :
  (∀ k, tidy mk (get_account w k) → same_entry mk (get_account w k) (get_account w' k)) →
  solvent mk w → conserves mk w w'.
Proof. intros H [_ Hs]. apply conserves_pointwise. intros k. by apply H. Qed.

(** Other programs cannot change the ledger. *)
Lemma conserves_foreign mk w w' : foreign_step w w' → conserves mk w w'.
Proof.
  intros H. apply conserves_pointwise. intros k. destruct (H k) as [H1 H2].
  destruct (decide (owner (get_account w k) = id)) as [E|E].
  - destruct (H1 E) as [Ho Hd]. unfold same_entry, share_in, issue_in, tidy.
    by rewrite E, Ho, Hd.
  - unfold same_entry. destruct (not_ours _ E) as (-> & -> & _).
    destruct (decide (owner (get_account w' k) = id)) as [E'|E'].
    + destruct (H2 E E') as [n Hn]. by destruct (foreign_not_ours _ _ Hn) as (-> & -> & F).
    + by destruct (not_ours _ E') as (-> & -> & F).
Qed.

(** An account whose owner and data stay. *)
Lemma same_entry_data mk a a' : owner a' = owner a → data a' = data a → same_entry mk a a'.
Proof. intros Ho Hd. unfold same_entry, share_in, issue_in, tidy. by rewrite Ho, Hd. Qed.

Lemma tidy_set_account mk w k a : tidy mk a →
  (∀ k, tidy mk (get_account w k)) →
  ∀ k', tidy mk (get_account (set_account w k a) k').
Proof. intros Ha Hw k'. rewrite get_set_account. by case_decide. Qed.

Lemma conserves_set_account mk w k a : share_in mk a = share_in mk (get_account w k) →
  issue_in a = issue_in (get_account w k) →
  ((∀ k, tidy mk (get_account w k)) → tidy mk a) → conserves mk w (set_account w k a).
Proof.
  intros Hs Hi Ht. split; [by apply ledger_set_same|]. intros H. apply tidy_set_account; auto.
Qed.

Lemma conserves_set_lamports mk w k l : conserves mk w (set_lamports w k l).
Proof. apply conserves_set_account; [done|done|]. intros H. exact (H k). Qed.

Lemma tidy_write mk w i st st' : account_at w (key i) = Some st →
  state_ok PodAccount st' → acc_mint (base st') = acc_mint (base st) →
  is_native_opt (base st') = is_native_opt (base st) →
  (has_entries (tlv_data st) → has_entries (tlv_data st')) →
  (∀ k, tidy mk (get_account w k)) →
  ∀ k, tidy mk (get_account (write_account w i st') k).
Proof.
  intros Hst%account_at_Some Hok Hm Hn He H. apply tidy_set_account; [|done].
  set (a := mkAccount _ _ _). intros Ho. destruct (H (key i) Ho) as (H1 & H2 & _).
  refine (tidy_account mk a st' _ _ _ Ho); [by apply unpack_state_bytes| |by apply He, H2].
  intros Hx. unfold is_native. rewrite Hn. apply H1; [done|by rewrite <-Hm].
Qed.

Lemma tidy_write_mint mk w i m m' : mint_at w (key i) = Some m → state_ok PodMint m' →
  (has_entries (tlv_data m) → has_entries (tlv_data m')) →
  (∀ k, tidy mk (get_account w k)) →
  ∀ k, tidy mk (get_account (write_mint w i m') k).
Proof.
  intros Hm%mint_at_Some Hok He H. apply tidy_set_account; [|done].
  set (a := mkAccount _ _ _). intros Ho.
  destruct (H (key i) Ho) as (_ & _ & H3 & _).
  refine (tidy_mint mk a m' _ _ Ho); [by apply unpack_state_bytes|by apply He, H3].
Qed.

(** Writing an account back with the same mint, native flag and share. *)
Lemma conserves_write mk w i st st' : account_at w (key i) = Some st →
  state_ok PodAccount st' → acc_mint (base st') = acc_mint (base st) →
  is_native_opt (base st') = is_native_opt (base st) →
  (has_entries (tlv_data st) → has_entries (tlv_data st')) → share mk st' = share mk st →
  conserves mk w (write_account w i st').
Proof.
  intros Hst Hok Hm Hn He Hh. split; [|by eapply tidy_write].
  apply account_at_Some in Hst. pose proof (unpack_state_bytes PodAccount st' Hok) as Hst'.
  apply ledger_set_same.
  - unfold share_in. cbn [owner data]. by rewrite Hst, Hst', Hh.
  - by rewrite (issue_in_unpacked _ st'), (issue_in_unpacked _ st).
Qed.

Lemma conserves_write_mint mk w i m m' : mint_at w (key i) = Some m → state_ok PodMint m' →
  (has_entries (tlv_data m) → has_entries (tlv_data m')) →
  issue_of m' = issue_of m → conserves mk w (write_mint w i m').
Proof.
  intros Hm Hok He Hi. split; [|by apply (tidy_write_mint mk w i m)].
  apply mint_at_Some in Hm. pose proof (unpack_state_bytes PodMint m' Hok) as Hm'.
  apply ledger_set_same.
  - by rewrite (share_in_unpacked _ _ m'), (share_in_unpacked _ _ m).
  - unfold issue_in. cbn [owner data]. by rewrite Hm, Hm', Hi.
Qed.

(** The same share, for the same mint, balance and withheld fees. *)
Lemma share_same mk st st' : acc_mint (base st') = acc_mint (base st) →
  amount (base st') = amount (base st) → withheld st' = withheld st → share mk st' = share mk st.
Proof. unfold share. by intros -> -> ->. Qed.

Lemma share_other mk st : acc_mint (base st) ≠ mk → share mk st = (0, 0).
Proof. intros H. unfold share. by rewrite (proj2 (Z.eqb_neq _ _) H). Qed.

Lemma share_of mk st : acc_mint (base st) = mk → share mk st = (amount (base st), withheld st).
Proof. intros H. unfold share. by rewrite (proj2 (Z.eqb_eq _ _) H). Qed.
End invariant.
