(* ===== verification/UiAmount.v ===== *)
(** * Amounts as text

    [program/src/lib.rs]: a raw amount printed with a decimal point, with and
    without its trailing zeros, and read back. *)
From S2P Require Import Prelude Codec Errors Runtime Pod State ExtensionType ExtensionData.
From S2P Require Import Tlv StateExt Fee Authority.

(** ** Strings: lists of bytes, all of them ASCII here *)
Definition char_zero : byte := Byte.x30.
Definition char_dot : byte := Byte.x2e.
Definition char_plus : byte := Byte.x2b.

Definition digit_char (d : Z) : byte := byte.of_Z (48 + d).
(** [char::to_digit(10)] *)
Definition to_digit (c : byte) : option Z :=
  let d := byte.unsigned c - 48 in
  if (0 <=? d) && (d <=? 9) then Some d else None.

(** The decimal digits of a [u64], most significant first: at most 20. *)
Fixpoint digits (fuel : nat) (n : Z) (acc : list byte) : list byte :=
  match fuel with
  | O => acc
  | S fuel =>
      let acc := digit_char (n mod 10) :: acc in
      if n / 10 =? 0 then acc else digits fuel (n / 10) acc
  end.
(** [u64::to_string] *)
Definition to_string (n : Z) : list byte := digits 20 n [].
(** [format!("{:01$}", n, width)] *)
Definition format_padded (n : Z) (width : nat) : list byte :=
  let s := to_string n in replicate (width - length s) char_zero ++ s.

(** [str::trim_end_matches(char)] *)
Fixpoint trim_start_matches (c : byte) (s : list byte) : list byte :=
  match s with
  | x :: l => if bool_decide (x = c) then trim_start_matches c l else s
  | [] => []
  end.
Definition trim_end_matches (c : byte) (s : list byte) : list byte :=
  reverse (trim_start_matches c (reverse s)).

(** [str::split(char)]: the parts, never none. *)
Fixpoint split_char (c : byte) (s : list byte) : list (list byte) :=
  match s with
  | [] => [[]]
  | x :: s =>
      if bool_decide (x = c) then [] :: split_char c s
      else match split_char c s with
           | p :: ps => (x :: p) :: ps
           | [] => [[x]]
           end
  end.

(** [str::parse::<u64>()]: an optional plus and digits, without overflow *)
Fixpoint parse_digits (s : list byte) (acc : Z) : option Z :=
  match s with
  | [] => Some acc
  | c :: s =>
      d ← to_digit c;
      acc ← checked_mul 64 acc 10;
      acc ← checked_add 64 acc d;
      parse_digits s acc
  end.
Definition parse_u64 (s : list byte) : option Z :=
  match s with
  | [] => None
  | c :: rest =>
      if bool_decide (c = char_plus) then
        match rest with [] => None | _ => parse_digits rest 0 end
      else parse_digits s 0
  end.

(** ** The conversions *)

(** [amount_to_ui_amount_string] *)
Definition amount_to_ui_amount_string (amount : Z) (decimals : nat) : list byte :=
  if (0 <? decimals)%nat then
    let s := format_padded amount (decimals + 1) in
    let point := (length s - decimals)%nat in
    take point s ++ [char_dot] ++ drop point s
  else to_string amount.

(** [trim_ui_amount_string] *)
Definition trim_ui_amount_string (ui_amount : list byte) (decimals : nat) : list byte :=
  if (0 <? decimals)%nat then
    trim_end_matches char_dot (trim_end_matches char_zero ui_amount)
  else ui_amount.

(** [amount_to_ui_amount_string_trimmed] *)
Definition amount_to_ui_amount_string_trimmed (amount : Z) (decimals : nat) : list byte :=
  trim_ui_amount_string (amount_to_ui_amount_string amount decimals) decimals.

(** [try_ui_amount_into_amount] *)
Definition try_ui_amount_into_amount (ui_amount : list byte) (decimals : nat) : res Z :=
  let parts := split_char char_dot ui_amount in
  let amount_str := default [] (parts !! 0%nat) in
  let after_decimal := default [] (parts !! 1%nat) in
  let after_decimal := trim_end_matches char_zero after_decimal in
  throw_if ((bool_decide (amount_str = []) && bool_decide (after_decimal = [])) ||
            bool_decide (is_Some (parts !! 2%nat)) ||
            (decimals <? length after_decimal)%nat) InvalidArgument;;
  let amount_str := amount_str ++ after_decimal ++
    replicate (decimals - length after_decimal) char_zero in
  ok_or (parse_u64 amount_str) InvalidArgument.

(** ** Trimming and splitting *)
Section strings.
Implicit Types (s t p q : list byte) (c x : byte).

Lemma trim_end_snoc c s x :
  trim_end_matches c (s ++ [x]) = if bool_decide (x = c) then trim_end_matches c s else s ++ [x].
Proof.
  unfold trim_end_matches. rewrite reverse_snoc. cbn [trim_start_matches].
  case_bool_decide; [done|]. by rewrite reverse_cons, reverse_involutive.
Qed.

Lemma trim_end_split c s : ∃ k, s = trim_end_matches c s ++ replicate k c.
Proof.
  induction s as [|x s [k IH]] using rev_ind; [by exists 0%nat|]. rewrite trim_end_snoc.
  case_bool_decide as E; [|exists 0%nat; by rewrite app_nil_r].
  subst x. exists (S k). rewrite IH at 1. rewrite <-app_assoc. f_equal.
  by rewrite <-replicate_S_end.
Qed.

Lemma trim_end_idem c s : trim_end_matches c (trim_end_matches c s) = trim_end_matches c s.
Proof.
  induction s as [|x s IH] using rev_ind; [done|]. rewrite trim_end_snoc.
  case_bool_decide as E; [done|]. rewrite trim_end_snoc. by rewrite bool_decide_false.
Qed.

Lemma trim_end_app c s x t : x ≠ c →
  trim_end_matches c (s ++ x :: t) = s ++ x :: trim_end_matches c t.
Proof.
  intros Hx. induction t as [|y t IH] using rev_ind.
  - rewrite trim_end_snoc. by rewrite bool_decide_false.
  - rewrite app_comm_cons, app_assoc, !trim_end_snoc.
    case_bool_decide; [done|]. by rewrite <-app_assoc.
Qed.

Lemma trim_end_absent c s : c ∉ s → trim_end_matches c s = s.
Proof.
  induction s as [|x s _] using rev_ind; [done|]. intros H. rewrite trim_end_snoc.
  rewrite bool_decide_false; [done|]. set_solver.
Qed.

Lemma split_char_absent c s : c ∉ s → split_char c s = [s].
Proof.
  induction s as [|x s IH]; [done|]. intros [Hx Hs]%not_elem_of_cons. cbn.
  rewrite bool_decide_false by done. by rewrite IH.
Qed.

Lemma split_char_once c p q : c ∉ p → c ∉ q → split_char c (p ++ c :: q) = [p; q].
Proof.
  intros Hp Hq. induction p as [|x p IH]; cbn.
  - rewrite bool_decide_true by done. by rewrite split_char_absent.
  - apply not_elem_of_cons in Hp as [Hx Hp]. rewrite bool_decide_false by done. by rewrite IH.
Qed.
End strings.

(** ** Digits *)
Section digits.
Implicit Types (s : list byte) (n a acc : Z).

Definition is_digit (c : byte) : Prop := is_Some (to_digit c).

Lemma to_digit_char d : 0 ≤ d ≤ 9 → to_digit (digit_char d) = Some d.
Proof.
  intros Hd. unfold to_digit, digit_char. rewrite byte.unsigned_of_Z. unfold byte.wrap.
  rewrite Z.mod_small by lia. replace (48 + d - 48) with d by lia.
  rewrite (proj2 (Z.leb_le 0 d)), (proj2 (Z.leb_le d 9)) by lia. done.
Qed.

Lemma digit_ne c x : to_digit x = None → is_digit c → c ≠ x.
Proof. intros Hx [d Hd] ->. congruence. Qed.

Lemma digits_ne s x : to_digit x = None → Forall is_digit s → x ∉ s.
Proof.
  intros Hx Hs Hin. rewrite Forall_forall in Hs. by apply (digit_ne x x Hx (Hs x Hin)).
Qed.

(** The value of a string of digits. *)
Definition value (s : list byte) (acc : Z) : Z :=
  foldl (λ acc c, acc * 10 + default 0 (to_digit c)) acc s.

Lemma value_app s t acc : value (s ++ t) acc = value t (value s acc).
Proof. apply foldl_app. Qed.

Lemma to_digit_range c d : to_digit c = Some d → 0 ≤ d ≤ 9.
Proof.
  unfold to_digit. destruct (Z.leb_spec 0 (byte.unsigned c - 48)),
    (Z.leb_spec (byte.unsigned c - 48) 9); simpl; try done. intros [= <-]. lia.
Qed.

Lemma value_ge s acc : 0 ≤ acc → acc ≤ value s acc.
Proof.
  revert acc. induction s as [|c s IH]; intros acc Hacc; cbn; [lia|].
  assert (0 ≤ default 0 (to_digit c)) as Hd.
  { destruct (to_digit c) as [d|] eqn:E; [|done]. by apply to_digit_range in E as []. }
  etransitivity; [|apply IH; lia]. lia.
Qed.

Lemma parse_digits_value s acc : Forall is_digit s → 0 ≤ acc → value s acc < 2 ^ 64 →
  parse_digits s acc = Some (value s acc).
Proof.
  intros Hs. revert acc. induction Hs as [|c s [d Hd] _ IH]; intros acc Hacc Hv; [done|].
  assert (value (c :: s) acc = value s (acc * 10 + d)) as Hval.
  { unfold value. cbn [foldl]. by rewrite Hd. }
  rewrite Hval in *. cbn [parse_digits]. rewrite Hd.
  pose proof (to_digit_range _ _ Hd). pose proof (value_ge s (acc * 10 + d) ltac:(lia)). cbn.
  assert (checked_mul 64 acc 10 = Some (acc * 10)) as ->.
  { apply checked_mul_Some. unfold in_uint. lia. }
  cbn. assert (checked_add 64 (acc * 10) d = Some (acc * 10 + d)) as ->.
  { apply checked_add_Some. unfold in_uint. lia. }
  cbn. apply IH; lia.
Qed.

Lemma value_zeros k : value (replicate k char_zero) 0 = 0.
Proof. induction k as [|k IH]; [done|]. cbn [replicate value foldl]. exact IH. Qed.

(** The digits of a number. *)
Lemma digits_value fuel n tail : 0 ≤ n < 10 ^ Z.of_nat fuel →
  Forall is_digit tail → (0 < fuel)%nat →
  Forall is_digit (digits fuel n tail) ∧ digits fuel n tail ≠ [] ∧
  value (digits fuel n tail) 0 = value tail n.
Proof.
  revert n tail. induction fuel as [|fuel IH]; intros n tail Hn Ht Hf; [lia|]. cbn [digits].
  pose proof (Z.mod_pos_bound n 10 ltac:(lia)) as Hm.
  assert (Forall is_digit (digit_char (n mod 10) :: tail)) as Ht'.
  { constructor; [|done]. eexists. apply to_digit_char. lia. }
  pose proof (Z.div_mod n 10 ltac:(lia)) as Hdm.
  destruct (Z.eqb_spec (n / 10) 0) as [E|E].
  - split; [done|]. split; [done|]. cbn [value foldl]. rewrite to_digit_char by lia. cbn.
    unfold value. f_equal. lia.
  - assert (0 ≤ n / 10 < 10 ^ Z.of_nat fuel) as Hn'.
    { split; [apply Z.div_pos; lia|]. apply Z.div_lt_upper_bound; [lia|].
      rewrite <-Z.pow_succ_r by lia. rewrite <-Nat2Z.inj_succ. lia. }
    assert (0 < fuel)%nat as Hf'.
    { destruct fuel; [|lia]. cbn in Hn'. lia. }
    destruct (IH (n / 10) _ Hn' Ht' Hf') as (H1 & H2 & H3). split; [done|]. split; [done|].
    rewrite H3. cbn [value foldl]. rewrite to_digit_char by lia. cbn. unfold value. f_equal. lia.
Qed.

Lemma to_string_ok a : in_uint 64 a →
  Forall is_digit (to_string a) ∧ to_string a ≠ [] ∧ value (to_string a) 0 = a.
Proof.
  intros Ha. apply (digits_value 20 a []); [|constructor|lia].
  destruct Ha. split; [done|]. change (Z.of_nat 20) with 20. lia.
Qed.

Lemma parse_u64_value s : Forall is_digit s → s ≠ [] → value s 0 < 2 ^ 64 →
  parse_u64 s = Some (value s 0).
Proof.
  intros Hs Hne Hv. destruct s as [|c s]; [done|]. unfold parse_u64.
  rewrite bool_decide_false; [by apply parse_digits_value|].
  apply (digit_ne c char_plus); [done|]. by apply Forall_cons in Hs as [? _].
Qed.
End digits.

(** ** The round trip *)
Section round_trip.
Implicit Types (p q s : list byte) (a : Z).

Lemma zeros_digits k : Forall is_digit (replicate k char_zero).
Proof. apply Forall_replicate. by exists 0. Qed.

(** The printed text: the integer part, and as many decimals as asked for. *)
Lemma ui_amount_parts a d : in_uint 64 a → (0 < d)%nat →
  ∃ p q, amount_to_ui_amount_string a d = p ++ char_dot :: q ∧
    p ≠ [] ∧ length q = d ∧ Forall is_digit p ∧ Forall is_digit q ∧ value (p ++ q) 0 = a.
Proof.
  intros Ha Hd. unfold amount_to_ui_amount_string. rewrite (proj2 (Nat.ltb_lt 0 d)) by done.
  destruct (to_string_ok a Ha) as (Hs & _ & Hv). unfold format_padded. cbv zeta.
  set (s := replicate (d + 1 - length (to_string a)) char_zero ++ to_string a).
  assert (d + 1 ≤ length s)%nat as Hl.
  { unfold s. rewrite length_app, length_replicate. lia. }
  assert (Forall is_digit s) as Hsd by (apply Forall_app; split; [apply zeros_digits|done]).
  exists (take (length s - d) s), (drop (length s - d) s). split_and!; try done.
  - intros E. apply (f_equal length) in E. rewrite length_take in E. cbn in E. lia.
  - rewrite length_drop. lia.
  - by apply Forall_take.
  - by apply Forall_drop.
  - rewrite take_drop. unfold s. by rewrite value_app, value_zeros.
Qed.

(** Reading an integer part and some decimals without zeros at the end. *)
Lemma try_parts u p q d a : Forall is_digit p → Forall is_digit q → p ≠ [] →
  trim_end_matches char_zero q = q → (length q ≤ d)%nat → in_uint 64 a →
  value (p ++ q ++ replicate (d - length q) char_zero) 0 = a →
  (u = p ++ char_dot :: q ∨ u = p ∧ q = []) →
  ∀ q', trim_end_matches char_zero q' = q → Forall is_digit q' →
  (u = p ++ char_dot :: q → try_ui_amount_into_amount (p ++ char_dot :: q') d = Ok a) ∧
  try_ui_amount_into_amount u d = Ok a.
Proof.
  intros Hp Hq Hne Hqq Hl [_ Ha] Hv Hu q' Hq' Hd'.
  assert (Forall is_digit (p ++ q ++ replicate (d - length q) char_zero)) as Hall.
  { apply Forall_app. split; [done|]. apply Forall_app. split; [done|apply zeros_digits]. }
  assert (parse_u64 (p ++ q ++ replicate (d - length q) char_zero) = Some a) as Hparse.
  { rewrite parse_u64_value; [by rewrite Hv|done| |by rewrite Hv].
    intros [E _]%app_nil. done. }
  assert (∀ x, is_digit x → x ≠ char_dot) as Hdot by (intros x; by apply digit_ne).
  assert (Htry : ∀ parts, parts = [p; q'] ∨ parts = [p; q] ∨ parts = [p] ∧ q = [] →
    ∀ u', split_char char_dot u' = parts → try_ui_amount_into_amount u' d = Ok a).
  { intros parts Hparts u' Hsplit. unfold try_ui_amount_into_amount. rewrite Hsplit. cbv zeta.
    assert (default [] (parts !! 0%nat) = p ∧ parts !! 2%nat = None ∧
      trim_end_matches char_zero (default [] (parts !! 1%nat)) = q) as (-> & -> & ->).
    { destruct Hparts as [-> | [-> | [-> Eq]]]; by split_and!. }
    rewrite (bool_decide_false (p = [])) by done. rewrite (bool_decide_false (is_Some _)) by by intros [? ?].
    rewrite (proj2 (Nat.ltb_ge _ _)) by done. cbn [andb orb throw_if]. by rewrite Hparse. }
  assert (char_dot ∉ p ∧ char_dot ∉ q ∧ char_dot ∉ q') as (H1 & H2 & H3)
    by (split_and!; by apply digits_ne).
  split.
  - intros _. apply (Htry [p; q']); [by left|]. by apply split_char_once.
  - destruct Hu as [-> | [-> ->]].
    + apply (Htry [p; q]); [by right; left|]. by apply split_char_once.
    + apply (Htry [p]); [by right; right|]. by apply split_char_absent.
Qed.

(** An amount printed with its decimals, with or without the trailing zeros, is
    read back as the same amount, for every amount and every number of decimals. *)
Lemma try_ui_amount_string a (d : nat) : in_uint 64 a →
  try_ui_amount_into_amount (amount_to_ui_amount_string a d) d = Ok a ∧
  try_ui_amount_into_amount (amount_to_ui_amount_string_trimmed a d) d = Ok a.
Proof.
  intros Ha. destruct (decide (0 < d)%nat) as [Hd|Hd].
  - destruct (ui_amount_parts a d Ha Hd) as (p & q' & Hs & Hne & Hl & Hp & Hq' & Hv).
    unfold amount_to_ui_amount_string_trimmed, trim_ui_amount_string. rewrite Hs.
    rewrite (proj2 (Nat.ltb_lt 0 d)) by done. rewrite trim_end_app by done.
    destruct (trim_end_split char_zero q') as [k Hk].
    set (q := trim_end_matches char_zero q') in *.
    assert (Forall is_digit q) as Hq by (rewrite Hk in Hq'; by apply Forall_app in Hq' as [? _]).
    assert (length q + k = d)%nat as Hlk by (rewrite <-Hl, Hk, length_app, length_replicate; done).
    set (u := trim_end_matches char_dot (p ++ char_dot :: q)).
    assert (u = p ++ char_dot :: q ∨ u = p ∧ q = []) as Hu.
    { unfold u. destruct q as [|x t] eqn:Eq using rev_ind.
      - right. split; [|done]. rewrite trim_end_snoc, bool_decide_true by done.
        apply trim_end_absent. by apply digits_ne.
      - left. clear IHt. rewrite app_comm_cons, app_assoc, trim_end_snoc.
        apply Forall_app in Hq as [_ [Hx _]%Forall_cons].
        rewrite bool_decide_false; [done|]. by apply digit_ne. }
    assert (value (p ++ q ++ replicate (d - length q) char_zero) 0 = a) as Hval.
    { rewrite <-Hv, Hk. do 3 f_equal. f_equal. lia. }
    pose proof (trim_end_idem char_zero q') as Hidem. fold q in Hidem.
    split.
    + apply (try_parts (p ++ char_dot :: q) p q d a); try done; [lia|by left].
    + by apply (try_parts u p q d a Hp Hq Hne Hidem ltac:(lia) Ha Hval Hu q').
  - assert (d = 0%nat) as -> by lia. destruct (to_string_ok a Ha) as (Hs & Hne & Hv).
    assert (try_ui_amount_into_amount (to_string a) 0 = Ok a) as H; [|by split].
    apply (try_parts (to_string a) (to_string a) [] 0 a) with (q' := []); try done.
    + by rewrite app_nil_r.
    + by right.
Qed.

(** A sign is read in the decimals when there is no integer part: the text [.+5] is
    five hundredths. *)
Lemma sign_in_decimals :
  try_ui_amount_into_amount [char_dot; char_plus; Byte.x35] 2 = Ok 5.
Proof. reflexivity. Qed.
End round_trip.
