(* ===== verification/UiAmountOps.v ===== *)
(** * UI amounts: the instructions, and the mints that scale them

    [process_amount_to_ui_amount] and [process_ui_amount_to_amount] of
    [program/src/processor.rs], and the conversions of the interest-bearing and
    scaled-UI-amount extensions, which compute with [f64]. *)
From S2P Require Import Prelude Codec Errors Runtime Pod State ExtensionType ExtensionData Tlv.
From S2P Require Import StateExt Fee Authority AccountFacts Ledger UiAmount.

(** Rust's [f64].  The precision of [exp] and [powi] is unspecified and depends on the
    platform, so the arithmetic is an argument of the model. *)
Class F64 := {
  f64 : Type;
  (** the literal [m * 10^e] *)
  f64_lit : Z → Z → f64;
  f64_from_le_bytes : list byte → f64;
  (** [as f64], and [as u64], which saturates *)
  f64_of_int : Z → f64;
  f64_to_u64 : f64 → Z;
  f64_mul : f64 → f64 → f64;
  f64_div : f64 → f64 → f64;
  f64_exp : f64 → f64;
  f64_powi : f64 → Z → f64;
  f64_trunc : f64 → f64;
  f64_round : f64 → f64;
  f64_lt : f64 → f64 → bool;
  f64_is_nan : f64 → bool;
  (** [format!("{x:.*}", n)] and [str::parse::<f64>] *)
  f64_format : f64 → nat → list byte;
  f64_parse : list byte → option f64;
}.

Definition MAX_U64 : Z := 2 ^ 64 - 1.

Section scaled.
Context `{fl : F64}.

(** The range check of both conversions from text. *)
Definition f64_to_amount (round : f64 → f64) (amount : f64) : res Z :=
  throw_if (f64_lt (f64_of_int MAX_U64) amount || f64_lt amount (f64_of_int 0) ||
            f64_is_nan amount) InvalidArgument;;
  Ok (f64_to_u64 (round amount)).

(** ** [ui_amount_to_amount] and [amount_to_ui_amount] of [lib.rs]: the power wraps *)
Definition usize_pow10 (decimals : Z) : Z := (10 ^ decimals) mod 2 ^ 64.
Definition ui_amount_to_amount (ui_amount : f64) (decimals : Z) : Z :=
  f64_to_u64 (f64_mul ui_amount (f64_of_int (usize_pow10 decimals))).
Definition amount_to_ui_amount (amount decimals : Z) : f64 :=
  f64_div (f64_of_int amount) (f64_of_int (usize_pow10 decimals)).

(** ** [impl ScaledUiAmountConfig] *)
Definition current_multiplier (self : ScaledUiAmountConfig) (unix_timestamp : Z) : f64 :=
  if sua_new_multiplier_effective_timestamp self <=? unix_timestamp
  then f64_from_le_bytes (sua_new_multiplier self) else f64_from_le_bytes (sua_multiplier self).

Definition total_multiplier (self : ScaledUiAmountConfig) (decimals unix_timestamp : Z) : f64 :=
  f64_div (current_multiplier self unix_timestamp) (f64_powi (f64_lit 10 0) decimals).

Definition scaled_amount_to_ui_amount (self : ScaledUiAmountConfig)
    (amount decimals unix_timestamp : Z) : option (list byte) :=
  let scaled_amount := f64_mul (f64_of_int amount) (current_multiplier self unix_timestamp) in
  let truncated_amount := f64_div (f64_trunc scaled_amount) (f64_powi (f64_lit 10 0) decimals) in
  let ui_amount := f64_format truncated_amount (Z.to_nat decimals) in
  Some (trim_ui_amount_string ui_amount (Z.to_nat decimals)).

Definition scaled_try_ui_amount_into_amount (self : ScaledUiAmountConfig)
    (ui_amount : list byte) (decimals unix_timestamp : Z) : res Z :=
  scaled_amount ← ok_or (f64_parse ui_amount) InvalidArgument;
  f64_to_amount f64_trunc (f64_div scaled_amount (total_multiplier self decimals unix_timestamp)).

(** ** [impl InterestBearingConfig] *)
Definition ONE_IN_BASIS_POINTS_F64 : f64 := f64_lit 10000 0.
Definition SECONDS_PER_YEAR : f64 :=
  f64_mul (f64_mul (f64_mul (f64_lit 60 0) (f64_lit 60 0)) (f64_lit 24 0)) (f64_lit 36524 (-2)).

Definition pre_update_timespan (self : InterestBearingConfig) : option Z :=
  checked_sub_signed 64 (ibc_last_update_timestamp self) (ibc_initialization_timestamp self).
Definition post_update_timespan (self : InterestBearingConfig) (unix_timestamp : Z) : option Z :=
  checked_sub_signed 64 unix_timestamp (ibc_last_update_timestamp self).

(** [exp(rate * timespan / SECONDS_PER_YEAR / ONE_IN_BASIS_POINTS)] *)
Definition rate_exp (rate timespan : Z) : option f64 :=
  numerator ← checked_mul_signed 128 rate timespan;
  let exponent :=
    f64_div (f64_div (f64_of_int numerator) SECONDS_PER_YEAR) ONE_IN_BASIS_POINTS_F64 in
  Some (f64_exp exponent).
Definition pre_update_exp (self : InterestBearingConfig) : option f64 :=
  timespan ← pre_update_timespan self;
  rate_exp (ibc_pre_update_average_rate self) timespan.
Definition post_update_exp (self : InterestBearingConfig) (unix_timestamp : Z) : option f64 :=
  timespan ← post_update_timespan self unix_timestamp;
  rate_exp (ibc_current_rate self) timespan.

Definition total_scale (self : InterestBearingConfig) (decimals unix_timestamp : Z) : option f64 :=
  pre ← pre_update_exp self;
  post ← post_update_exp self unix_timestamp;
  Some (f64_div (f64_mul pre post) (f64_powi (f64_lit 10 0) decimals)).

Definition interest_amount_to_ui_amount (self : InterestBearingConfig)
    (amount decimals unix_timestamp : Z) : option (list byte) :=
  scale ← total_scale self decimals unix_timestamp;
  let scaled_amount_with_interest := f64_mul (f64_of_int amount) scale in
  let ui_amount := f64_format scaled_amount_with_interest (Z.to_nat decimals) in
  Some (trim_ui_amount_string ui_amount (Z.to_nat decimals)).

Definition interest_try_ui_amount_into_amount (self : InterestBearingConfig)
    (ui_amount : list byte) (decimals unix_timestamp : Z) : res Z :=
  scaled_amount ← ok_or (f64_parse ui_amount) InvalidArgument;
  scale ← ok_or (total_scale self decimals unix_timestamp) InvalidArgument;
  f64_to_amount f64_round (f64_div scaled_amount scale).
End scaled.

(** ** The handlers *)
Section handlers.
Context `{rt : Runtime} `{fl : F64}.
Implicit Types (w : world) (accounts : list AccountInfo).


(** [Processor::process_amount_to_ui_amount] *)
Definition process_amount_to_ui_amount accounts (amount : Z) w : res world :=
  '(mint_info, accounts) ← next_account_info accounts;
  check_program_account (info_owner w mint_info);;
  mint_data ← borrow [] w mint_info;
  mint ← map_err (λ _, tok InvalidMint) (unpack_ref PodMint mint_data);
  ui_amount ←
    match get_mint_ext InterestBearingConfig (ref_tlv mint) with
    | Ok extension =>
        clock ← clock_get;
        ok_or (interest_amount_to_ui_amount extension amount (decimals (ref_base mint))
                 (unix_timestamp clock)) InvalidArgument
    | _ =>
        match get_mint_ext ScaledUiAmountConfig (ref_tlv mint) with
        | Ok extension =>
            clock ← clock_get;
            ok_or (scaled_amount_to_ui_amount extension amount (decimals (ref_base mint))
                     (unix_timestamp clock)) InvalidArgument
        | _ =>
            Ok (amount_to_ui_amount_string_trimmed amount (Z.to_nat (decimals (ref_base mint))))
        end
    end;
  Ok (set_return_data w ui_amount).

(** [Processor::process_ui_amount_to_amount] *)
Definition process_ui_amount_to_amount accounts (ui_amount : list byte) w : res world :=
  '(mint_info, accounts) ← next_account_info accounts;
  check_program_account (info_owner w mint_info);;
  mint_data ← borrow [] w mint_info;
  mint ← map_err (λ _, tok InvalidMint) (unpack_ref PodMint mint_data);
  amount ←
    match get_mint_ext InterestBearingConfig (ref_tlv mint) with
    | Ok extension =>
        clock ← clock_get;
        interest_try_ui_amount_into_amount extension ui_amount (decimals (ref_base mint))
          (unix_timestamp clock)
    | _ =>
        match get_mint_ext ScaledUiAmountConfig (ref_tlv mint) with
        | Ok extension =>
            clock ← clock_get;
            scaled_try_ui_amount_into_amount extension ui_amount (decimals (ref_base mint))
              (unix_timestamp clock)
        | _ => try_ui_amount_into_amount ui_amount (Z.to_nat (decimals (ref_base mint)))
        end
    end;
  Ok (set_return_data w (le_split 8 amount)).

(** Neither changes an account. *)
Lemma process_amount_to_ui_amount_accounts accounts amount w w' :
  process_amount_to_ui_amount accounts amount w = Ok w' → accts w' = accts w.
Proof.
  intros ([mi r] & _ & (u & _ & (d & _ & (m & _ & (s & _ & [= <-])%bind_Ok)%bind_Ok)%bind_Ok)%bind_Ok)
    %bind_Ok. done.
Qed.

Lemma process_ui_amount_to_amount_accounts accounts ui_amount w w' :
  process_ui_amount_to_amount accounts ui_amount w = Ok w' → accts w' = accts w.
Proof.
  intros ([mi r] & _ & (u & _ & (d & _ & (m & _ & (s & _ & [= <-])%bind_Ok)%bind_Ok)%bind_Ok)%bind_Ok)
    %bind_Ok. done.
Qed.

Lemma conserves_accts mk w w' : accts w' = accts w → conserves mk w w'.
Proof.
  intros H. apply conserves_pointwise. intros k. unfold get_account. rewrite H.
  by apply same_entry_data.
Qed.

(** A mint that does not scale its amounts. *)
Definition plain_mint (m : PodStateMut PodMint) : Prop :=
  is_ok (get_mint_ext InterestBearingConfig (tlv_data m)) = false ∧
  is_ok (get_mint_ext ScaledUiAmountConfig (tlv_data m)) = false.

Lemma plain_handlers mi m rest w : mint_at w (key mi) = Some m → plain_mint m →
  info_owner w mi = id →
  (∀ amount, process_amount_to_ui_amount (mi :: rest) amount w =
     Ok (set_return_data w
           (amount_to_ui_amount_string_trimmed amount (Z.to_nat (decimals (base m)))))) ∧
  (∀ s, process_ui_amount_to_amount (mi :: rest) s w =
     (amount ← try_ui_amount_into_amount s (Z.to_nat (decimals (base m)));
      Ok (set_return_data w (le_split 8 amount)))).
Proof.
  intros Hm [Hi Hs] Ho.
  assert (unpack_ref PodMint (info_data w mi) = Ok (mkRef (base m) (tlv_data m))) as Hu.
  { apply unpack_ref_Ok. exists m. split; [|done]. by apply mint_at_Some. }
  assert (check_program_account (info_owner w mi) = Ok tt) as Hp.
  { unfold check_program_account. by rewrite Ho, Z.eqb_refl. }
  assert (borrow [] w mi = Ok (info_data w mi)) as Hb.
  { unfold borrow. by rewrite bool_decide_false by apply not_elem_of_nil. }
  split; intros x; unfold process_amount_to_ui_amount, process_ui_amount_to_amount;
    cbn [next_account_info]; rewrite Ok_bind, Hp, Ok_bind, Hb, Ok_bind, Hu;
    cbn [map_err]; rewrite Ok_bind; cbn [ref_tlv ref_base];
    destruct (get_mint_ext InterestBearingConfig (tlv_data m)); try discriminate Hi;
    by destruct (get_mint_ext ScaledUiAmountConfig (tlv_data m)).
Qed.

(** C37: on a mint without scaling, [AmountToUiAmount] returns the decimal text of any
    amount, [UiAmountToAmount] reads that text, and the text with all its zeros, back as the
    amount, and neither changes an account. *)
Theorem ui_amount_instructions_round_trip mi m rest amount w : in_uint 64 amount →
  mint_at w (key mi) = Some m → plain_mint m → info_owner w mi = id →
  let d := Z.to_nat (decimals (base m)) in
  ∃ w1, process_amount_to_ui_amount (mi :: rest) amount w = Ok w1 ∧ accts w1 = accts w ∧
    return_data w1 = amount_to_ui_amount_string_trimmed amount d ∧
    ∃ w2, process_ui_amount_to_amount (mi :: rest) (return_data w1) w1 = Ok w2 ∧
      process_ui_amount_to_amount (mi :: rest) (amount_to_ui_amount_string amount d) w1 = Ok w2 ∧
      accts w2 = accts w ∧ return_data w2 = le_split 8 amount.
Proof.
  intros Ha Hm Hp Ho d. destruct (plain_handlers mi m rest w Hm Hp Ho) as [H1 _].
  exists (set_return_data w (amount_to_ui_amount_string_trimmed amount d)).
  split; [apply H1|]. split; [done|]. split; [done|].
  set (w1 := set_return_data _ _). destruct (plain_handlers mi m rest w1 Hm Hp Ho) as [_ H2].
  destruct (try_ui_amount_string amount d Ha) as [T1 T2].
  exists (set_return_data w1 (le_split 8 amount)). rewrite !H2. fold d.
  cbn [return_data w1 set_return_data]. by rewrite T1, T2.
Qed.
End handlers.
