(* ===== verification/TransferFeeFacts.v ===== *)
(** * What the transfer fee instructions do

    The fee schedule, and the withheld fees on their way from the accounts to
    the mint or to the account they are withdrawn to. *)
From stdpp Require Import functions.
From S2P Require Import Prelude Codec Errors Runtime Pod State ExtensionType ExtensionData Tlv.
From S2P Require Import TlvAlloc StateExt Fee Authority Transfer AccountFacts TransferFacts.
From S2P Require Import Supply AccountOps AccountOpsFacts TransferFeeOps Unborn LedgerSpec Ledger.

Section facts.
Context `{rt : Runtime}.
Implicit Types (w : world) (st d : PodStateMut PodAccount) (m : PodStateMut PodMint).
Implicit Types (c : TransferFeeConfig) (i : AccountInfo).

Lemma put_mint_ext_ok {V} `{!Extension V} m (c c' : V) : state_ok PodMint m →
  get_mint_ext V (tlv_data m) = Ok c → c_ok ext_codec c' →
  state_ok PodMint (put_mint_ext c' m) ∧
  get_mint_ext V (tlv_data (put_mint_ext c' m)) = Ok c'.
Proof.
  intros Hm Hc Hc'. split.
  - apply state_ok_with_tlv; [done|]. by eapply length_put_extension.
  - unfold put_mint_ext. cbn [tlv_data with_tlv]. by rewrite (get_put_extension _ c).
Qed.

Lemma issue_of_put m c c' : get_mint_ext TransferFeeConfig (tlv_data m) = Ok c →
  c_ok ext_codec c' → issue_of (put_mint_ext c' m) = (supply (base m), tfc_withheld_amount c').
Proof.
  intros Hc Hc'. unfold issue_of, mint_withheld, put_mint_ext. cbn [tlv_data with_tlv base].
  by rewrite (get_put_extension _ c).
Qed.

Lemma issue_of_eq m c : get_mint_ext TransferFeeConfig (tlv_data m) = Ok c →
  issue_of m = (supply (base m), tfc_withheld_amount c).
Proof. intros Hc. unfold issue_of, mint_withheld. by rewrite Hc. Qed.

Lemma set_withheld_ok c n : c_ok (ext_codec (V:=TransferFeeConfig)) c → in_uint 64 n →
  c_ok (ext_codec (V:=TransferFeeConfig)) (set_withheld n c).
Proof. intros (H1 & H2 & _ & H3) Hn. exact (conj H1 (conj H2 (conj Hn H3))). Qed.

Lemma drained_entries st e : get_account_ext TransferFeeAmount (tlv_data st) = Ok e →
  has_entries (tlv_data st) →
  has_entries (tlv_data (put_account_ext (mkTransferFeeAmount 0) st)).
Proof. intros He. by apply (has_entries_put PodAccount e). Qed.

(** A token account whose withheld fees were taken. *)
Lemma drained_ok st e : state_ok PodAccount st →
  get_account_ext TransferFeeAmount (tlv_data st) = Ok e →
  let st' := put_account_ext (mkTransferFeeAmount 0) st in
  state_ok PodAccount st' ∧ withheld st' = 0 ∧ base st' = base st ∧
  withheld st = tfa_withheld_amount e ∧ in_uint 64 (withheld st) ∧
  get_account_ext TransferFeeAmount (tlv_data st') = Ok (mkTransferFeeAmount 0).
Proof.
  intros Hst He st'. assert (withheld st = tfa_withheld_amount e) as Hw.
  { unfold withheld. by rewrite He. }
  split; [exact (state_ok_put st e _ Hst He)|].
  split; [by apply (withheld_put st 0 e)|]. split; [done|]. split; [done|].
  split; [rewrite Hw; by apply get_extension_ok in He|].
  subst st'. unfold put_account_ext. cbn [tlv_data with_tlv].
  by rewrite (get_put_extension _ e).
Qed.

(** One account harvested. *)
Lemma harvest_from_account_Ok held mk i w n w' :
  harvest_from_account held mk i w = Ok (n, w') →
  ∃ st, key i ∉ held ∧ account_at w (key i) = Some st ∧ acc_mint (base st) = mk ∧
    info_owner w i = id ∧ n = withheld st ∧ in_uint 64 n ∧
    let st' := put_account_ext (mkTransferFeeAmount 0) st in
    state_ok PodAccount st' ∧ withheld st' = 0 ∧ base st' = base st ∧
    (has_entries (tlv_data st) → has_entries (tlv_data st')) ∧ w' = write_account w i st'.
Proof.
  unfold harvest_from_account. destruct (borrow held w i) as [dt| |] eqn:Hb; [|done..].
  apply borrow_Ok in Hb as [Hh ->].
  intros (st & Hst%map_err_Ok & ([] & Hm & ([] & Ho%map_err_Ok & (e & He%map_err_Ok & [= <- <-])
    %bind_Ok)%bind_Ok)%bind_Ok)%bind_Ok.
  apply throw_if_Ok, negb_false_iff, Z.eqb_eq in Hm, Ho. apply account_at_Some in Hst.
  destruct (drained_ok st e (account_at_ok _ _ _ Hst) He) as (H1 & H2 & H3 & H4 & H5 & _).
  pose proof (drained_entries st e He). exists st. rewrite <-H4. by split_and!.
Qed.

(** Draining an account takes what it withholds out of the total of its mint. *)
Lemma total_drain mk w i st : account_at w (key i) = Some st → info_owner w i = id →
  let st' := put_account_ext (mkTransferFeeAmount 0) st in
  state_ok PodAccount st' → withheld st' = 0 →
  total mk (write_account w i st') =
    total mk w - if decide (mk = acc_mint (base st)) then withheld st else 0.
Proof.
  intros Hst Ho st' Hok Hw. rewrite (total_write mk w i st) by done. unfold part, holding.
  change (base st') with (base st). rewrite Hw. case_decide as E.
  - subst mk. rewrite Z.eqb_refl. lia.
  - rewrite (proj2 (Z.eqb_neq _ _)) by congruence. lia.
Qed.

Lemma credit_amount_Ok n d d' : state_ok PodAccount d → credit_amount n d = Ok d' →
  state_ok PodAccount d' ∧ d' = with_base (set_amount (amount (base d) + n) (base d)) d.
Proof.
  intros Hd (a & Ha & [= <-])%bind_Ok. apply ok_or_Ok, checked_add_Some in Ha as [-> Ha].
  split; [|done]. apply state_ok_base; [done| |done]. apply set_amount_ok; [apply Hd|done].
Qed.

(** ** The schedule *)
Definition config_ok (c : TransferFeeConfig) : Prop :=
  fee_ok (tfc_older_transfer_fee c) ∧ fee_ok (tfc_newer_transfer_fee c).

Lemma schedule_fee_ok ep bps mx c : c_ok (ext_codec (V:=TransferFeeConfig)) c →
  in_uint 64 ep → in_uint 16 bps → in_uint 64 mx →
  c_ok (ext_codec (V:=TransferFeeConfig)) (schedule_fee ep bps mx c).
Proof.
  intros (H1 & H2 & H3 & H4 & H5) [He1 He2] Hb Hm. unfold schedule_fee.
  refine (conj H1 (conj H2 (conj H3 (conj _ (conj _ (conj Hm Hb)))))).
  - cbn. by case_match.
  - change (in_uint 64 (saturating_add 64 ep 2)). unfold saturating_add, in_uint in *. lia.
Qed.

(** The fee of the current epoch stays in force until the new one starts. *)
Lemma schedule_fee_before ep bps mx c e : 0 ≤ ep ≤ e → e < saturating_add 64 ep 2 →
  get_epoch_fee (schedule_fee ep bps mx c) e = get_epoch_fee c ep.
Proof.
  intros He Hlt. unfold get_epoch_fee, schedule_fee.
  cbn [tfc_newer_transfer_fee tfc_older_transfer_fee tf_epoch].
  by rewrite (proj2 (Z.leb_gt _ e)) by lia.
Qed.

Lemma schedule_fee_after ep bps mx c e : saturating_add 64 ep 2 ≤ e →
  get_epoch_fee (schedule_fee ep bps mx c) e = mkTransferFee (saturating_add 64 ep 2) mx bps.
Proof.
  intros He. unfold get_epoch_fee, schedule_fee.
  cbn [tfc_newer_transfer_fee tfc_older_transfer_fee tf_epoch].
  by rewrite (proj2 (Z.leb_le _ e)) by lia.
Qed.

(** ** What a run did *)
Lemma process_set_transfer_fee_Ok pid mi ai signers bps mx w w' :
  process_set_transfer_fee pid (mi :: ai :: signers) bps mx w = Ok w' →
  ∃ m c clk, mint_at w (key mi) = Some m ∧
    get_mint_ext TransferFeeConfig (tlv_data m) = Ok c ∧ clock_get = Ok clk ∧
    optional_get (tfc_transfer_fee_config_authority c) = Some (key ai) ∧
    validate_owner [key mi] w pid (key ai) ai (data_len w ai) signers = Ok tt ∧
    bps ≤ MAX_FEE_BASIS_POINTS ∧
    w' = write_mint w mi (put_mint_ext (schedule_fee (epoch clk) bps mx c) m).
Proof.
  intros H. unfold process_set_transfer_fee in H.
  do 2 (cbn [next_account_info] in H; rewrite Ok_bind in H).
  apply bind_Ok in H as (md & [_ ->]%borrow_Ok & (m & Hm & (c & Hc & (auth & Ha & ([] & Hv & H)
    %bind_Ok)%bind_Ok)%bind_Ok)%bind_Ok).
  apply bind_Ok in H as ([] & Hb%throw_if_Ok%Z.ltb_ge & (clk & Hclk & [= <-])%bind_Ok).
  apply ok_or_Ok in Ha. pose proof (validate_owner_key _ _ _ _ _ _ _ Hv) as <-.
  exists m, c, clk. by rewrite mint_at_Some.
Qed.

Lemma process_withdraw_from_mint_Ok pid mi di ai signers w w' :
  process_withdraw_withheld_tokens_from_mint pid (mi :: di :: ai :: signers) w = Ok w' →
  ∃ m c d, mint_at w (key mi) = Some m ∧ get_mint_ext TransferFeeConfig (tlv_data m) = Ok c ∧
    account_at w (key di) = Some d ∧ key di ≠ key mi ∧ info_owner w mi = id ∧
    acc_mint (base d) = key mi ∧ is_frozen (base d) = false ∧
    optional_get (tfc_withdraw_withheld_authority c) = Some (key ai) ∧
    validate_owner [key mi] w pid (key ai) ai (data_len w ai) signers = Ok tt ∧
    let d' := with_base (set_amount (amount (base d) + tfc_withheld_amount c) (base d)) d in
    let m' := put_mint_ext (set_withheld 0 c) m in
    state_ok PodAccount d' ∧ state_ok PodMint m' ∧
    w' = write_mint (write_account w di d') mi m'.
Proof.
  intros H. unfold process_withdraw_withheld_tokens_from_mint in H.
  do 3 (cbn [next_account_info] in H; rewrite Ok_bind in H).
  apply bind_Ok in H as ([] & Ho%throw_if_Ok%negb_false_iff%Z.eqb_eq & (md & [_ ->]%borrow_Ok &
    (m & Hm & (c & Hc & (auth & Ha%ok_or_Ok & ([] & Hv & H)%bind_Ok)%bind_Ok)%bind_Ok)%bind_Ok)%bind_Ok).
  apply bind_Ok in H as (dd & [Hh ->]%borrow_Ok & (d & Hd & ([] & Hdc & (d' & Hd' & [= <-])
    %bind_Ok)%bind_Ok)%bind_Ok).
  apply bind_Ok in Hdc as ([] & Hk%throw_if_Ok%negb_false_iff%Z.eqb_eq & Hf%throw_if_Ok).
  apply account_at_Some in Hd. apply mint_at_Some in Hm.
  pose proof (validate_owner_key _ _ _ _ _ _ _ Hv) as <-.
  apply credit_amount_Ok in Hd' as [Hok ->]; [|by eapply account_at_ok].
  destruct (put_mint_ext_ok m c (set_withheld 0 c)) as [Hmok _];
    [by eapply mint_at_ok|done|by apply set_withheld_ok; [eapply get_extension_ok|]|].
  exists m, c, d. split_and!; try done. set_solver.
Qed.

(** ** Harvesting to the mint *)

Lemma harvest_loop_Ok mk infos c w c' w' :
  harvest_to_mint_loop mk infos c w = Ok (c', w') → c_ok (ext_codec (V:=TransferFeeConfig)) c →
  c_ok (ext_codec (V:=TransferFeeConfig)) c' ∧
  (∀ k, owner (get_account w' k) = owner (get_account w k)) ∧
  data (get_account w' mk) = data (get_account w mk) ∧
  set_withheld 0 c' = set_withheld 0 c ∧
  total mk w' + tfc_withheld_amount c' = total mk w + tfc_withheld_amount c ∧
  (∀ mk', mk' ≠ mk → total mk' w' = total mk' w) ∧
  (∀ mk', issued mk' w' = issued mk' w) ∧
  (∀ mk', (∀ k, tidy mk' (get_account w k)) → ∀ k, tidy mk' (get_account w' k)) ∧
  (∀ k, k ∉ (key <$> infos) → get_account w' k = get_account w k).
Proof.
  revert c w. induction infos as [|i infos IH]; intros c w; cbn [harvest_to_mint_loop].
  { intros [= <- <-] Hc. by split_and!. }
  destruct (harvest_from_account [mk] mk i w) as [[n w1]|e|] eqn:Hh; [|..|done].
  2: { intros H Hc. apply IH in H as (H1 & H2 & H3 & H4 & H5 & H6 & H7 & H8 & H9); [|done].
       split_and!; try done. intros k Hk. apply H9. cbn in Hk. set_solver. }
  apply harvest_from_account_Ok in Hh
    as (st & Hni & Hst & Hm & Ho & -> & Hn & Hok & Hw & Hb & Hent & ->).
  intros (n & Hadd & H)%bind_Ok Hc. apply ok_or_Ok, checked_add_Some in Hadd as [-> Hadd].
  apply IH in H as (H1 & H2 & H3 & H4 & H5 & H6 & H7 & H8 & H9); [|by apply set_withheld_ok].
  cbn [tfc_withheld_amount set_withheld] in H5.
  pose proof (fun mk' => total_drain mk' w i st Hst Ho Hok Hw) as Ht. rewrite Hm in Ht.
  split; [done|]. split; [intros k; rewrite H2; apply owner_set_data|].
  split. { rewrite H3. unfold write_account. rewrite data_set_data, decide_False; set_solver. }
  split; [done|]. split; [rewrite Ht, decide_True in H5 by done; lia|].
  split; [intros mk' Hne; rewrite H6, Ht, decide_False by done; lia|].
  split; [intros mk'; rewrite H7; by apply (issued_write mk' w i st)|].
  split; [intros mk' Hf; apply H8; by apply (tidy_write mk' w i st)|].
  intros k Hk. cbn in Hk. rewrite H9 by set_solver. unfold write_account.
  rewrite get_set_data, decide_False; set_solver.
Qed.

Lemma process_harvest_Ok mi infos w w' :
  process_harvest_withheld_tokens_to_mint (mi :: infos) w = Ok w' →
  ∃ m c c' w1, mint_at w (key mi) = Some m ∧ get_mint_ext TransferFeeConfig (tlv_data m) = Ok c ∧
    harvest_to_mint_loop (key mi) infos c w = Ok (c', w1) ∧
    mint_at w1 (key mi) = Some m ∧ c_ok (ext_codec (V:=TransferFeeConfig)) c' ∧
    state_ok PodMint (put_mint_ext c' m) ∧ w' = write_mint w1 mi (put_mint_ext c' m).
Proof.
  intros H. unfold process_harvest_withheld_tokens_to_mint in H.
  cbn [next_account_info] in H. rewrite Ok_bind in H.
  apply bind_Ok in H as (md & [_ ->]%borrow_Ok & (m & Hm & (c & Hc & ([c' w1] & Hl & [= <-])
    %bind_Ok)%bind_Ok)%bind_Ok).
  apply mint_at_Some in Hm. pose proof Hc as Hcok. apply get_extension_ok in Hcok.
  destruct (harvest_loop_Ok _ _ _ _ _ _ Hl Hcok) as (Hc' & _ & Hd & _).
  exists m, c, c', w1. split_and!; try done.
  - rewrite <-Hm. by apply mint_at_data.
  - apply (put_mint_ext_ok m c); [by eapply mint_at_ok|done..].
Qed.

(** ** Withdrawing from accounts *)
Lemma withdraw_loop_Ok mk di infos d w d' w' :
  withdraw_from_accounts_loop mk di infos d w = Ok (d', w') →
  state_ok PodAccount d → acc_mint (base d) = mk →
  state_ok PodAccount d' ∧
  base d' = set_amount (amount (base d')) (base d) ∧
  (has_entries (tlv_data d) → has_entries (tlv_data d')) ∧ holding d ≤ holding d' ∧
  (∀ k, owner (get_account w' k) = owner (get_account w k)) ∧
  data (get_account w' mk) = data (get_account w mk) ∧
  data (get_account w' (key di)) = data (get_account w (key di)) ∧
  total mk w' + holding d' = total mk w + holding d ∧
  (∀ mk', mk' ≠ mk → total mk' w' = total mk' w) ∧
  (∀ mk', issued mk' w' = issued mk' w) ∧
  (∀ mk', (∀ k, tidy mk' (get_account w k)) → ∀ k, tidy mk' (get_account w' k)) ∧
  (∀ k, k ∉ (key <$> infos) → get_account w' k = get_account w k).
Proof.
  revert d w. induction infos as [|i infos IH]; intros d w; cbn [withdraw_from_accounts_loop].
  { intros [= <- <-] Hd Hm. split_and!; try done. by destruct d as [[]]. }
  destruct (Z.eqb_spec (key i) (key di)) as [Hi|Hi].
  - intros (e & He%map_err_Ok & (d1 & Hd1 & H)%bind_Ok)%bind_Ok Hd Hm.
    destruct (drained_ok d e Hd He) as (Hd0 & Hw0 & Hb0 & Hwe & _ & _).
    apply credit_amount_Ok in Hd1 as [Hd1 ->]; [|done].
    set (d1 := with_base _ _) in *.
    assert (holding d1 = holding d) as Hh.
    { unfold holding. change (withheld d1) with (withheld (put_account_ext (mkTransferFeeAmount 0) d)).
      rewrite Hw0, Hwe. cbn [d1 base with_base amount set_amount]. rewrite Hb0. lia. }
    apply IH in H as (H1 & H2 & Hkeep & H2' & H3 & H4 & H5 & H6 & H7 & H8 & H9 & H10); [|done..].
    pose proof (drained_entries d e He) as Hd0e.
    rewrite Hh in *. split_and!; try done; [by intros E%Hd0e%Hkeep|].
    intros k Hk. apply H10. cbn in Hk. set_solver.
  - destruct (harvest_from_account [mk; key di] mk i w) as [[n w1]|e|] eqn:Hh; [|..|done].
    2: { intros H Hd Hm. apply IH in H as (H1 & H2 & Hkeep & H2' & H3 & H4 & H5 & H6 & H7 & H8 & H9 & H10);
         [|done..]. split_and!; try done. intros k Hk. apply H10. cbn in Hk. set_solver. }
    apply harvest_from_account_Ok in Hh
      as (st & Hni & Hst & Hm' & Ho & -> & Hn & Hok & Hw & Hb & Hent & ->).
    intros (d1 & Hd1 & H)%bind_Ok Hd Hm.
    apply credit_amount_Ok in Hd1 as [Hd1 ->]; [|done].
    set (d1 := with_base _ _) in *.
    assert (holding d1 = holding d + withheld st) as Hh.
    { unfold holding. change (withheld d1) with (withheld d).
      cbn [d1 base with_base amount set_amount]. lia. }
    apply IH in H as (H1 & H2 & Hkeep & H2' & H3 & H4 & H5 & H6 & H7 & H8 & H9 & H10); [|done..].
    pose proof (fun mk' => total_drain mk' w i st Hst Ho Hok Hw) as Ht. rewrite Hm' in Ht.
    pose proof (withheld_ok st).
    split; [done|]. split; [done|]. split; [done|]. split; [lia|].
    split; [intros k; rewrite H3; apply owner_set_data|].
    split. { rewrite H4. unfold write_account. rewrite data_set_data, decide_False; set_solver. }
    split. { rewrite H5. unfold write_account. by rewrite data_set_data, decide_False. }
    split; [rewrite Ht, decide_True in H6 by done; lia|].
    split; [intros mk' Hne; rewrite H7, Ht, decide_False by done; lia|].
    split; [intros mk'; rewrite H8; by apply (issued_write mk' w i st)|].
    split; [intros mk' Hf; apply H9; by apply (tidy_write mk' w i st)|].
    intros k Hk. cbn in Hk. rewrite H10 by set_solver. unfold write_account.
    rewrite get_set_data, decide_False; set_solver.
Qed.

Lemma process_withdraw_from_accounts_Ok pid mi di ai infos n w w' :
  process_withdraw_withheld_tokens_from_accounts pid (mi :: di :: ai :: infos) n w = Ok w' →
  let signers := take (length infos - Z.to_nat n) infos in
  let sources := drop (length infos - Z.to_nat n) infos in
  ∃ m c d d' w1, mint_at w (key mi) = Some m ∧
    get_mint_ext TransferFeeConfig (tlv_data m) = Ok c ∧
    account_at w (key di) = Some d ∧ key di ≠ key mi ∧ info_owner w mi = id ∧
    acc_mint (base d) = key mi ∧ is_frozen (base d) = false ∧
    optional_get (tfc_withdraw_withheld_authority c) = Some (key ai) ∧
    validate_owner [] w pid (key ai) ai (data_len w ai) signers = Ok tt ∧
    withdraw_from_accounts_loop (key mi) di sources d w = Ok (d', w1) ∧
    w' = write_account w1 di d'.
Proof.
  intros H. unfold process_withdraw_withheld_tokens_from_accounts in H.
  do 3 (cbn [next_account_info] in H; rewrite Ok_bind in H).
  apply bind_Ok in H as ([] & Ho%throw_if_Ok%negb_false_iff%Z.eqb_eq & (md & [_ ->]%borrow_Ok &
    (r & Hr & (c & Hc & (auth & Ha%ok_or_Ok & ([] & Hv & H)%bind_Ok)%bind_Ok)%bind_Ok)%bind_Ok)%bind_Ok).
  apply unpack_ref_mint in Hr as (m & Hm & ->). cbn [ref_tlv] in Hc.
  apply bind_Ok in H as (dd & [Hh ->]%borrow_Ok & (d & Hd & ([] & Hdc & ([d' w1] & Hl & [= <-])
    %bind_Ok)%bind_Ok)%bind_Ok).
  apply bind_Ok in Hdc as ([] & Hk%throw_if_Ok%negb_false_iff%Z.eqb_eq & Hf%throw_if_Ok).
  apply account_at_Some in Hd.
  pose proof (validate_owner_key _ _ _ _ _ _ _ Hv) as <-.
  exists m, c, d, d', w1. split_and!; try done. set_solver.
Qed.

(** Every account that can be harvested is. *)
Lemma harvest_from_account_total held mk i w st e : key i ∉ held →
  account_at w (key i) = Some st → acc_mint (base st) = mk → info_owner w i = id →
  get_account_ext TransferFeeAmount (tlv_data st) = Ok e →
  harvest_from_account held mk i w =
    Ok (withheld st, write_account w i (put_account_ext (mkTransferFeeAmount 0) st)).
Proof.
  intros Hh Hst%account_at_Some Hm Ho He. unfold harvest_from_account, withheld.
  rewrite (proj2 (borrow_Ok held w i _) (conj Hh eq_refl)). unfold info_data. rewrite Hst.
  cbn [map_err]. rewrite Ok_bind, Hm, Z.eqb_refl. cbn [negb throw_if]. rewrite Ok_bind, Ho.
  unfold check_program_account. rewrite Z.eqb_refl. cbn [negb throw_if map_err].
  by rewrite Ok_bind, He.
Qed.

Lemma harvest_loop_drains mk infos c w c' w' k st e :
  harvest_to_mint_loop mk infos c w = Ok (c', w') → k ≠ mk →
  account_at w k = Some st → acc_mint (base st) = mk → owner (get_account w k) = id →
  get_account_ext TransferFeeAmount (tlv_data st) = Ok e →
  ∃ st', account_at w' k = Some st' ∧ base st' = base st ∧
    withheld st' = if decide (k ∈ key <$> infos) then 0 else withheld st.
Proof.
  intros H Hk. revert c w st e H. induction infos as [|i infos IH]; intros c w st e;
    cbn [harvest_to_mint_loop].
  { intros [= <- <-] Hst _ _ _. exists st. rewrite decide_False by apply not_elem_of_nil. done. }
  intros H Hst Hm Ho He. destruct (decide (key i = k)) as [Hik|Hik].
  - subst k. rewrite (harvest_from_account_total [mk] mk i w st e) in H by (done || set_solver).
    destruct (drained_ok st e (account_at_ok _ _ _ Hst) He) as (Hok & Hw & _ & _ & _ & He').
    apply bind_Ok in H as (n & _ & H).
    eapply IH in H as (st' & H1 & H2 & H3);
      [|by apply account_at_write|done|etransitivity; [apply owner_set_data|exact Ho]|exact He'].
    exists st'. split; [done|]. split; [done|]. rewrite H3, Hw, (decide_True (P:=_ ∈ key <$> _ :: _))
      by (apply elem_of_cons; by left). by case_decide.
  - assert (∃ c1 w1, harvest_to_mint_loop mk infos c1 w1 = Ok (c', w') ∧
      get_account w1 k = get_account w k) as (c1 & w1 & Hl & Hg).
    { destruct (harvest_from_account [mk] mk i w) as [[n w1]|x|] eqn:Hh; [|by exists c, w|done].
      apply bind_Ok in H as (n' & _ & H). apply harvest_from_account_Ok in Hh
        as (s & _ & _ & _ & _ & _ & _ & _ & _ & _ & _ & ->).
      eexists _, _. split; [exact H|]. unfold write_account. by rewrite get_set_data, decide_False. }
    eapply (IH c1 w1 st e) in Hl as (st' & H1 & H2 & H3);
      [|by rewrite <-Hst; apply account_at_data; rewrite Hg|done|by rewrite Hg|done].
    exists st'. split; [done|]. split; [done|]. rewrite H3.
    by destruct (decide (k ∈ key <$> infos)), (decide (k ∈ key <$> i :: infos)); set_solver.
Qed.
(** ** Which fees a withdrawal collects *)

(** An account of the mint, of this program, that can withhold fees. *)
Definition collectable (mk : Pubkey) w (k : Pubkey) : option (PodStateMut PodAccount) :=
  st ← account_at w k;
  if (owner (get_account w k) =? id) && (acc_mint (base st) =? mk) &&
     is_ok (get_account_ext TransferFeeAmount (tlv_data st))
  then Some st else None.
(** What it withholds *)
Definition owed (mk : Pubkey) w (k : Pubkey) : Z :=
  match collectable mk w k with Some st => withheld st | None => 0 end.

(** All but the withheld amount and the base is the same. *)
Definition same_extensions st st' : Prop :=
  account_type st' = account_type st ∧ length (tlv_data st') = length (tlv_data st) ∧
  ∀ t, t ≠ ExtensionType.TransferFeeAmount →
    get_extension_bytes PodAccount t (tlv_data st') = get_extension_bytes PodAccount t (tlv_data st).

Lemma same_extensions_trans st1 st2 st3 :
  same_extensions st1 st2 → same_extensions st2 st3 → same_extensions st1 st3.
Proof.
  intros (A1 & L1 & E1) (A2 & L2 & E2). split_and!; [congruence..|].
  intros t Ht. by rewrite E2, E1.
Qed.

Lemma same_extensions_drained st e a : get_account_ext TransferFeeAmount (tlv_data st) = Ok e →
  same_extensions st (with_base a (put_account_ext (mkTransferFeeAmount 0) st)).
Proof.
  intros He. split; [done|]. split; [by apply (length_put_extension PodAccount e)|].
  intros t Ht. by apply (get_bytes_put_extension_ne PodAccount e).
Qed.

Lemma collectable_Some mk w k st : collectable mk w k = Some st ↔
  account_at w k = Some st ∧ owner (get_account w k) = id ∧ acc_mint (base st) = mk ∧
  ∃ e, get_account_ext TransferFeeAmount (tlv_data st) = Ok e.
Proof.
  unfold collectable. split.
  - intros (s & Hs & H)%bind_Some. case_match eqn:Hb; [|done]. injection H as <-.
    rewrite !andb_true_iff, !Z.eqb_eq, is_ok_spec in Hb. naive_solver.
  - intros (Hst & Ho & Hm & e & He). rewrite Hst. cbn [mbind option_bind].
    by rewrite Ho, Hm, He, !Z.eqb_refl.
Qed.

Lemma collectable_same mk w w' k :
  get_account w' k = get_account w k → collectable mk w' k = collectable mk w k.
Proof. intros E. unfold collectable. by rewrite (account_at_data w w' k), E by by rewrite E. Qed.

(** Harvesting takes what is owed, and fails only where nothing can be. *)
Lemma harvest_collectable held mk i w : match harvest_from_account held mk i w with
  | Ok (n, w1) => ∃ st, collectable mk w (key i) = Some st ∧ n = withheld st ∧
      w1 = write_account w i (put_account_ext (mkTransferFeeAmount 0) st)
  | Err _ => collectable mk w (key i) = None
  | Panic => True
  end.
Proof.
  destruct (harvest_from_account held mk i w) as [[n w1]|x|] eqn:H; [| |done].
  - pose proof H as H'. apply harvest_from_account_Ok in H as (st & _ & Hst & Hm & Ho & -> & _ & _ & _ & _ &
      _ & ->).
    exists st. split; [|done]. apply collectable_Some. do 3 (split; [done|]).
    unfold harvest_from_account in H'. destruct (borrow held w i) as [dt| |] eqn:Hb; [|done..].
    apply borrow_Ok in Hb as [_ ->].
    apply bind_Ok in H' as (s & Hs%map_err_Ok & (u & _ & (u' & _ & (e & He%map_err_Ok & _)%bind_Ok)%bind_Ok)
      %bind_Ok).
    apply account_at_Some in Hs. rewrite Hst in Hs. injection Hs as <-. by exists e.
  - destruct (collectable mk w (key i)) as [st|] eqn:Hc; [|done].
    apply collectable_Some in Hc as (Hst & Ho & Hm & e & He).
    assert (key i ∉ held) as Hh.
    { intros Hin. unfold harvest_from_account, borrow in H. by rewrite bool_decide_true in H. }
    by rewrite (harvest_from_account_total _ _ _ _ _ _ Hh Hst Hm Ho He) in H.
Qed.

(** What is withheld where, with the destination open *)
Definition purse (mk : Pubkey) (di : AccountInfo) d w (k : Pubkey) : Z :=
  if decide (k = key di) then withheld d else owed mk w k.
Lemma purse_owed mk di d w k : account_at w (key di) = Some d → info_owner w di = id →
  acc_mint (base d) = mk → purse mk di d w k = owed mk w k.
Proof.
  intros Hd Ho Hm. unfold purse. destruct (decide (k = key di)) as [->|]; [|done]. unfold owed.
  destruct (collectable mk w (key di)) as [st|] eqn:Hc.
  - apply collectable_Some in Hc as (Hst & _). rewrite Hd in Hst. by injection Hst as <-.
  - unfold collectable in Hc. rewrite Hd in Hc. cbn [mbind option_bind] in Hc.
    unfold info_owner in Ho. rewrite Ho, Hm, !Z.eqb_refl in Hc. cbn [andb] in Hc. unfold withheld.
    by destruct (get_account_ext TransferFeeAmount (tlv_data d)).
Qed.
(** What happens to the other accounts when those listed are visited: only those that can
    withhold fees change, and only in that. *)
Definition visited (mk : Pubkey) (ks : list Pubkey) w w' (k : Pubkey) : Prop :=
  (k ∉ ks ∨ collectable mk w k = None → get_account w' k = get_account w k) ∧
  ∀ st, account_at w k = Some st →
    ∃ st', account_at w' k = Some st' ∧ base st' = base st ∧ same_extensions st st'.

Lemma visited_same mk ks w w' k : get_account w' k = get_account w k → visited mk ks w w' k.
Proof.
  intros E. split; [done|]. intros st Hst. exists st. split; [|by split_and!].
  rewrite <-Hst. apply account_at_data. by rewrite E.
Qed.

Lemma visited_cons mk k1 ks w w1 w2 k :
  visited mk [k1] w w1 k → visited mk ks w1 w2 k → visited mk (k1 :: ks) w w2 k.
Proof.
  intros [A1 B1] [A2 B2]. split.
  - intros H. assert (get_account w1 k = get_account w k) as E by (apply A1; set_solver).
    rewrite A2; [done|]. rewrite (collectable_same _ _ _ _ E). set_solver.
  - intros st (st1 & H1 & Hb1 & He1)%B1. destruct (B2 st1 H1) as (st2 & H2 & Hb2 & He2).
    exists st2. split; [done|]. split; [congruence|by eapply same_extensions_trans].
Qed.

Lemma withdraw_loop_step mk di i infos d w r :
  withdraw_from_accounts_loop mk di (i :: infos) d w = Ok r → state_ok PodAccount d →
  ∃ d1 w1, withdraw_from_accounts_loop mk di infos d1 w1 = Ok r ∧ state_ok PodAccount d1 ∧
    base d1 = set_amount (amount (base d) + purse mk di d w (key i)) (base d) ∧
    same_extensions d d1 ∧
    (∀ k, purse mk di d1 w1 k = <[key i := 0]> (purse mk di d w) k) ∧
    ∀ k, k ≠ key di → visited mk [key i] w w1 k.
Proof.
  intros H Hd. cbn [withdraw_from_accounts_loop] in H. unfold purse at 1.
  destruct (Z.eqb_spec (key i) (key di)) as [E|E]; [rewrite decide_True by done|rewrite decide_False by done].
  - apply bind_Ok in H as (e & He%map_err_Ok & (d1 & Hd1 & H)%bind_Ok).
    destruct (drained_ok d e Hd He) as (Hd0 & Hw0 & Hb0 & Hwe & _ & _).
    apply credit_amount_Ok in Hd1 as [Hok ->]; [|done].
    eexists _, w. split; [exact H|]. split; [done|]. split; [by rewrite Hwe|].
    split; [by apply (same_extensions_drained d e)|]. split; [|intros k _; by apply visited_same].
    intros k. unfold purse. rewrite E. destruct (decide (k = key di)) as [->|Hk].
    + by rewrite fn_lookup_insert.
    + by rewrite fn_lookup_insert_ne, decide_False.
  - pose proof (harvest_collectable [mk; key di] mk i w) as Hh.
    destruct (harvest_from_account [mk; key di] mk i w) as [[n w1]|x|]; [| |done].
    + destruct Hh as (st & Hc & -> & ->). apply bind_Ok in H as (d1 & Hd1 & H).
      apply credit_amount_Ok in Hd1 as [Hok ->]; [|done].
      pose proof Hc as (Hst & Ho & Hm & e & He)%collectable_Some.
      destruct (drained_ok st e (account_at_ok _ _ _ Hst) He) as (Hsok & Hw0 & _ & _ & _ & He').
      set (w1 := write_account w i _) in *.
      assert (collectable mk w1 (key i) = Some (put_account_ext (mkTransferFeeAmount 0) st)) as Hc1.
      { apply collectable_Some. split; [by apply account_at_write|].
        split; [etransitivity; [apply owner_set_data|exact Ho]|]. by split; [|eexists]. }
      assert (∀ k, k ≠ key i → get_account w1 k = get_account w k) as Hother.
      { intros k Hk. unfold w1, write_account. by rewrite get_set_data, decide_False by congruence. }
      eexists _, w1. split; [exact H|]. split; [done|]. split; [by unfold owed; rewrite Hc|].
      split; [by split_and!|]. split.
      * intros k. unfold purse. destruct (decide (k = key i)) as [->|Hk].
        { rewrite fn_lookup_insert, decide_False by done. unfold owed. by rewrite Hc1. }
        rewrite fn_lookup_insert_ne by done. unfold owed. by rewrite (collectable_same _ _ _ _ (Hother k Hk)).
      * intros k Hkd. destruct (decide (k = key i)) as [->|Hk]; [|by apply visited_same, Hother].
        split; [intros [Hn|Hn]; [set_solver|congruence]|]. intros s Hs. rewrite Hst in Hs. injection Hs as <-.
        eexists. split; [by apply account_at_write|]. split; [done|].
        by apply (same_extensions_drained st e (base st)).
    + assert (owed mk w (key i) = 0) as Hz by (unfold owed; by rewrite Hh).
      exists d, w. split; [done|]. split; [done|]. split; [rewrite Hz, Z.add_0_r; by destruct d as [[]]|].
      split; [by split_and!|]. split; [|intros k _; by apply visited_same].
      intros k. destruct (decide (k = key i)) as [->|Hk]; [|by rewrite fn_lookup_insert_ne].
      rewrite fn_lookup_insert. unfold purse. by rewrite decide_False.
Qed.

(** Every account listed gives its fees once, however often it is listed. *)
Lemma sum_remove_dups (k : Pubkey) ks f :
  sum_on (remove_dups (k :: ks)) f = f k + sum_on (remove_dups ks) (<[k := 0]> f).
Proof.
  assert (∀ l, k ∉ l → sum_on l (<[k := 0]> f) = sum_on l f) as Hne.
  { intros l Hl. apply sum_on_ext. intros j Hj. rewrite fn_lookup_insert_ne; [done|]. by intros ->. }
  cbn [remove_dups]. destruct (decide_rel _ k ks) as [Hk|Hk].
  - apply elem_of_remove_dups in Hk.
    rewrite (sum_on_update (remove_dups ks) f (<[k := 0]> f) k); [|apply NoDup_remove_dups|done|].
    + rewrite fn_lookup_insert. lia.
    + intros j Hj. by rewrite fn_lookup_insert_ne.
  - rewrite Hne by (by rewrite elem_of_remove_dups). done.
Qed.

Lemma withdraw_loop_collects mk di infos d w d' w' :
  withdraw_from_accounts_loop mk di infos d w = Ok (d', w') → state_ok PodAccount d →
  let ks := key <$> infos in
  base d' = set_amount (amount (base d) + sum_on (remove_dups ks) (purse mk di d w)) (base d) ∧
  same_extensions d d' ∧
  (∀ k, purse mk di d' w' k = if decide (k ∈ ks) then 0 else purse mk di d w k) ∧
  ∀ k, k ≠ key di → visited mk ks w w' k.
Proof.
  revert d w. induction infos as [|i infos IH]; intros d w H Hd ks.
  { injection H as <- <-. split; [rewrite Z.add_0_r; by destruct d as [[]]|]. split; [by split_and!|].
    split; [done|]. intros k _. by apply visited_same. }
  apply withdraw_loop_step in H as (d1 & w1 & H & Hd1 & Hb & He & Hp & Hv); [|done].
  destruct (IH d1 w1 H Hd1) as (Hb' & He' & Hp' & Hv'). split; [|split; [by eapply same_extensions_trans|]].
  - rewrite Hb', Hb. unfold ks. rewrite fmap_cons, sum_remove_dups. cbn [amount set_amount].
    rewrite (sum_on_ext _ _ (<[key i := 0]> (purse mk di d w))) by (intros; apply Hp).
    rewrite Z.add_assoc. by destruct (base d).
  - split; [|intros k Hk; by eapply visited_cons; [apply Hv|apply Hv']].
    intros k. rewrite Hp', Hp. unfold ks. rewrite fmap_cons.
    destruct (decide (k = key i)) as [->|Hk].
    + rewrite fn_lookup_insert, (decide_True (P:=_ ∈ key i :: _)) by set_solver. by case_decide.
    + rewrite fn_lookup_insert_ne by done. by repeat case_decide; set_solver.
Qed.
End facts.

(** ** Properties *)
Section properties.
Context (rt : Runtime).
Implicit Types (w : world) (d : PodStateMut PodAccount) (m : PodStateMut PodMint).

(** C34: nobody is surprised by a fee.  Setting the fee, which only its authority can
    do and never above 100%, leaves the fee of the current epoch in force until
    two epochs ahead, when the new one starts; both authorities over fees, the fees that are
    withheld, every other extension and the rest of the mint, and all other accounts stay
    as they are. *)
Theorem process_set_transfer_fee_effect pid mi ai signers bps mx w w' :
  in_uint 16 bps → in_uint 64 mx → (∀ clk, clock_get = Ok clk → in_uint 64 (epoch clk)) →
  process_set_transfer_fee pid (mi :: ai :: signers) bps mx w = Ok w' →
  ∃ m c m' c' clk, mint_at w (key mi) = Some m ∧ mint_at w' (key mi) = Some m' ∧
    get_mint_ext TransferFeeConfig (tlv_data m) = Ok c ∧
    get_mint_ext TransferFeeConfig (tlv_data m') = Ok c' ∧ clock_get = Ok clk ∧
    optional_get (tfc_transfer_fee_config_authority c) = Some (key ai) ∧
    validate_owner [key mi] w pid (key ai) ai (data_len w ai) signers = Ok tt ∧
    bps ≤ MAX_FEE_BASIS_POINTS ∧
    let start := saturating_add 64 (epoch clk) 2 in
    (∀ e, epoch clk ≤ e < start → get_epoch_fee c' e = get_epoch_fee c (epoch clk)) ∧
    (∀ e, start ≤ e → get_epoch_fee c' e = mkTransferFee start mx bps) ∧
    (config_ok c → config_ok c') ∧
    base m' = base m ∧ account_type m' = account_type m ∧
    length (tlv_data m') = length (tlv_data m) ∧
    tfc_withheld_amount c' = tfc_withheld_amount c ∧
    tfc_transfer_fee_config_authority c' = tfc_transfer_fee_config_authority c ∧
    tfc_withdraw_withheld_authority c' = tfc_withdraw_withheld_authority c ∧
    (∀ t, t ≠ ExtensionType.TransferFeeConfig →
       get_extension_bytes PodMint t (tlv_data m') = get_extension_bytes PodMint t (tlv_data m)) ∧
    ∀ k, k ≠ key mi → get_account w' k = get_account w k.
Proof.
  intros Hb Hmx Hclk (m & c & clk & Hm & Hc & Hck & Ha & Hv & Hle & ->)%process_set_transfer_fee_Ok.
  pose proof (Hclk _ Hck) as He. pose proof Hc as Hcok. apply get_extension_ok in Hcok.
  destruct (put_mint_ext_ok m c (schedule_fee (epoch clk) bps mx c)) as [Hok Hget];
    [by eapply mint_at_ok|done|by apply schedule_fee_ok|].
  exists m, c. eexists _, _, clk. split; [done|]. split; [by apply mint_at_write|].
  split; [done|]. split; [exact Hget|]. do 4 (split; [done|]). split_and!.
  - intros e Hlt. apply schedule_fee_before; destruct He; lia.
  - intros e Hge. by apply schedule_fee_after.
  - intros [H1 H2]. split; [cbn; by case_match|].
    destruct Hb, He. unfold fee_ok, saturating_add, in_uint in *. cbn.
    split; [|done]. unfold saturating_add. lia.
  - done.
  - done.
  - by apply (length_put_extension PodMint c).
  - done.
  - done.
  - done.
  - intros t Ht. by apply (get_bytes_put_extension_ne PodMint c).
  - intros k Hk. unfold write_mint. by rewrite get_set_data, decide_False.
Qed.

(** Harvesting needs no authority and loses nothing.  Every listed account of the
    mint gives up all it withholds and keeps its balance; accounts that cannot be
    harvested are skipped; and the mint withholds more by exactly what the
    accounts withheld. *)
Theorem process_harvest_effect mi infos w w' :
  process_harvest_withheld_tokens_to_mint (mi :: infos) w = Ok w' →
  ∃ m c m' c', mint_at w (key mi) = Some m ∧ mint_at w' (key mi) = Some m' ∧
    get_mint_ext TransferFeeConfig (tlv_data m) = Ok c ∧
    get_mint_ext TransferFeeConfig (tlv_data m') = Ok c' ∧
    base m' = base m ∧ set_withheld 0 c' = set_withheld 0 c ∧
    total (key mi) w' + tfc_withheld_amount c' = total (key mi) w + tfc_withheld_amount c ∧
    (∀ k st e, account_at w k = Some st → acc_mint (base st) = key mi →
       owner (get_account w k) = id → get_account_ext TransferFeeAmount (tlv_data st) = Ok e →
       ∃ st', account_at w' k = Some st' ∧ base st' = base st ∧
         withheld st' = if decide (k ∈ key <$> infos) then 0 else withheld st) ∧
    (∀ k, k ∉ (key <$> infos) → k ≠ key mi → get_account w' k = get_account w k).
Proof.
  intros (m & c & c' & w1 & Hm & Hc & Hl & Hm1 & Hc' & Hok & ->)%process_harvest_Ok.
  pose proof Hc as Hcok. apply get_extension_ok in Hcok.
  destruct (harvest_loop_Ok _ _ _ _ _ _ Hl Hcok) as (_ & _ & _ & H4 & H5 & _ & _ & _ & H9).
  destruct (put_mint_ext_ok m c c') as [_ Hget]; [by eapply mint_at_ok|done..|].
  exists m, c, (put_mint_ext c' m), c'. split; [done|]. split; [by apply mint_at_write|].
  split; [done|]. split; [done|]. split; [done|]. split; [done|].
  split; [by rewrite (total_write_mint _ _ _ m)|]. split.
  - intros k st e Hst Hmk Ho He. assert (k ≠ key mi) as Hne.
    { intros ->. apply account_at_Some in Hst. apply mint_at_Some in Hm.
      by eapply unpack_account_not_mint. }
    destruct (harvest_loop_drains _ _ _ _ _ _ _ _ _ Hl Hne Hst Hmk Ho He) as (st' & H1 & H2 & H3).
    exists st'. split; [|done]. rewrite <-H1. apply account_at_data. unfold write_mint.
    by rewrite data_set_data, decide_False.
  - intros k Hk Hne. unfold write_mint. rewrite get_set_data, decide_False by done. by apply H9.
Qed.

(** the fees withheld on the mint are withdrawn only by the withdraw authority, all
    at once, to an account of the mint that is not frozen, whose balance grows by
    exactly that amount. *)
Theorem process_withdraw_from_mint_effect pid mi di ai signers w w' :
  process_withdraw_withheld_tokens_from_mint pid (mi :: di :: ai :: signers) w = Ok w' →
  ∃ m c d m', mint_at w (key mi) = Some m ∧ get_mint_ext TransferFeeConfig (tlv_data m) = Ok c ∧
    account_at w (key di) = Some d ∧ mint_at w' (key mi) = Some m' ∧
    acc_mint (base d) = key mi ∧ is_frozen (base d) = false ∧
    optional_get (tfc_withdraw_withheld_authority c) = Some (key ai) ∧
    validate_owner [key mi] w pid (key ai) ai (data_len w ai) signers = Ok tt ∧
    account_at w' (key di) =
      Some (with_base (set_amount (amount (base d) + tfc_withheld_amount c) (base d)) d) ∧
    base m' = base m ∧ get_mint_ext TransferFeeConfig (tlv_data m') = Ok (set_withheld 0 c) ∧
    ∀ k, k ≠ key di → k ≠ key mi → get_account w' k = get_account w k.
Proof.
  intros (m & c & d & Hm & Hc & Hd & Hne & Ho & Hk & Hf & Ha & Hv & Hd' & Hm' & ->)
    %process_withdraw_from_mint_Ok.
  destruct (write_both w di mi _ _ Hne Hd' Hm') as (H1 & H2 & H3).
  destruct (put_mint_ext_ok m c (set_withheld 0 c)) as [_ Hget];
    [by eapply mint_at_ok|done|by apply set_withheld_ok; [eapply get_extension_ok|]|].
  exists m, c, d, (put_mint_ext (set_withheld 0 c) m). by split_and!.
Qed.

(** C35: withdrawing from accounts collects, for the withdraw authority only, the fees that
    the listed accounts of the mint withhold, each counted once, into the balance of one
    account of the mint: it grows by exactly their sum.  An account that is listed then
    withholds nothing and is otherwise as before, a listed one that is not of the mint,
    not of this program or has no room for fees is skipped, and no other account changes; the
    tokens of every mint are the same in total. *)
Theorem process_withdraw_from_accounts_effect pid mi di ai infos n w w' :
  process_withdraw_withheld_tokens_from_accounts pid (mi :: di :: ai :: infos) n w = Ok w' →
  info_owner w di = id →
  let listed := key <$> drop (length infos - Z.to_nat n) infos in
  ∃ m c d d', mint_at w (key mi) = Some m ∧ mint_at w' (key mi) = Some m ∧
    get_mint_ext TransferFeeConfig (tlv_data m) = Ok c ∧
    account_at w (key di) = Some d ∧ account_at w' (key di) = Some d' ∧
    acc_mint (base d) = key mi ∧ is_frozen (base d) = false ∧
    optional_get (tfc_withdraw_withheld_authority c) = Some (key ai) ∧
    validate_owner [] w pid (key ai) ai (data_len w ai)
      (take (length infos - Z.to_nat n) infos) = Ok tt ∧
    base d' = set_amount (amount (base d) + sum_on (remove_dups listed) (owed (key mi) w)) (base d) ∧
    same_extensions d d' ∧
    (∀ k, owed (key mi) w' k = if decide (k ∈ listed) then 0 else owed (key mi) w k) ∧
    (∀ k, k ≠ key di → visited (key mi) listed w w' k) ∧
    (∀ mk, total mk w' = total mk w).
Proof.
  intros (m & c & d & d' & w1 & Hm & Hc & Hd & Hne & Ho & Hk & Hf & Ha & Hv & Hl & ->)
    %process_withdraw_from_accounts_Ok Hdi listed.
  pose proof (account_at_ok _ _ _ Hd) as Hdok.
  destruct (withdraw_loop_Ok _ _ _ _ _ _ _ Hl Hdok Hk)
    as (H1 & H2 & _ & _ & H4 & H5 & H6 & H7 & H8 & _).
  destruct (withdraw_loop_collects _ _ _ _ _ _ _ Hl Hdok) as (Hb & He & Hp & Hvis).
  fold listed in Hb, Hp, Hvis.
  assert (account_at w1 (key di) = Some d) as Hd1 by (rewrite <-Hd; by apply account_at_data).
  assert (info_owner w1 di = id) as Hdi1 by (etransitivity; [apply H4|exact Hdi]).
  assert (acc_mint (base d') = key mi) as Hk' by by rewrite H2.
  assert (∀ k, purse (key mi) di d w k = owed (key mi) w k) as Hpw
    by (intros; by apply purse_owed).
  assert (∀ k, k ≠ key di → get_account (write_account w1 di d') k = get_account w1 k) as Hother.
  { intros k Hkd. unfold write_account. by rewrite get_set_data, decide_False by congruence. }
  exists m, c, d, d'. split; [done|]. split.
  { rewrite <-Hm. apply mint_at_data. by rewrite (Hother (key mi)), H5 by congruence. }
  do 2 (split; [done|]). split; [by apply account_at_write|]. do 4 (split; [done|]).
  split; [by rewrite (sum_on_ext _ _ (purse (key mi) di d w)) by (intros; by rewrite Hpw)|].
  split; [done|]. split; [|split].
  - intros k. rewrite <-Hpw, <-Hp. unfold purse. destruct (decide (k = key di)) as [->|Hkd].
    + rewrite <-(purse_owed (key mi) di d' (write_account w1 di d')); [by unfold purse; rewrite decide_True| | |done].
      * by apply account_at_write.
      * etransitivity; [apply owner_set_data|exact Hdi1].
    + unfold owed. by rewrite (collectable_same _ _ _ _ (Hother k Hkd)).
  - intros k Hkd. destruct (Hvis k Hkd) as [V1 V2]. split; [by rewrite Hother|].
    intros st (st' & Hst' & Hr)%V2. exists st'. split; [|done]. rewrite <-Hst'.
    apply account_at_data. by rewrite Hother.
  - intros mk. rewrite (total_write mk w1 di d) by done. unfold part. rewrite Hk, Hk'.
    destruct (Z.eqb_spec (key mi) mk) as [E|E]; [subst mk; lia|]. rewrite H8 by congruence. lia.
Qed.
End properties.
