(* ===== verification/LedgerFacts.v ===== *)
(** * The instructions conserve the ledger

    Each handler keeps [solvent]: the tokens in the accounts of a mint, with the
    fees withheld on the mint, are at most what the mint has issued; and it moves
    the ledger as its action says. *)
From stdpp Require Import functions.
From S2P Require Import Prelude Codec Errors Runtime Pod State ExtensionType ExtensionData Tlv.
From S2P Require Import TlvFacts TlvAlloc StateExt Fee Authority Transfer AccountFacts.
From S2P Require Import TransferFacts Supply AccountOps AccountOpsFacts SetAuthority.
From S2P Require Import SetAuthorityFacts TransferFeeOps Unborn LedgerSpec Ledger.

(** The runtime's rule on cross-program calls: the hook program, and those it
    calls, act on the accounts as other programs. *)
Definition hook_foreign (rt : Runtime) : Prop :=
  ∀ p s m d a l n w w', invoke_execute p s m d a l n w = Ok w' → foreign_step w w'.

Section transfer.
Context `{rt : Runtime}.
Implicit Types (w : world) (s d st : PodStateMut PodAccount) (mk : Pubkey).

(** Two views that count for the same. *)
Definition same_part st st' : Prop :=
  acc_mint (base st') = acc_mint (base st) ∧ is_native_opt (base st') = is_native_opt (base st) ∧
  (has_entries (tlv_data st) → has_entries (tlv_data st')).

Lemma transfer_credit_entries d amt fee d' : transfer_credit d amt fee = Ok d' →
  has_entries (tlv_data d) → has_entries (tlv_data d').
Proof.
  intros (c & _ & (n & _ & H)%bind_Ok)%bind_Ok. cbv zeta in H. case_match; [|by injection H as <-].
  destruct (get_extension PodAccount TransferFeeAmount _) as [e| |] eqn:He; [|done..].
  apply bind_Ok in H as (m & _ & [= <-]). by apply (has_entries_put PodAccount e).
Qed.

Lemma set_transferring_entries st l : set_transferring PodAccount (tlv_data st) = Ok l →
  has_entries (tlv_data st) → has_entries l.
Proof. intros (x & Hx & [= <-])%bind_Ok. by apply (has_entries_put PodAccount x). Qed.

(** Both accounts of a transfer written back: tokens of their mint move. *)
Definition transferred (mk mint from to : Pubkey) (amt fee : Z) : list action :=
  if decide (mint = mk) then [Move from to amt fee] else [].

Lemma refines_write_pair mk w i j s0 d0 s d amt fee : key i ≠ key j →
  account_at w (key i) = Some s0 → account_at w (key j) = Some d0 →
  state_ok PodAccount s → state_ok PodAccount d →
  info_owner w i = id → info_owner w j = id →
  same_part s0 s → same_part d0 d → acc_mint (base s0) = acc_mint (base d0) →
  0 ≤ fee ≤ amt →
  amount (base s) = amount (base s0) - amt → withheld s = withheld s0 →
  amount (base d) = amount (base d0) + (amt - fee) → withheld d = withheld d0 + fee →
  refines mk (transferred mk (acc_mint (base s0)) (key i) (key j) amt fee) w
    (write_account (write_account w i s) j d).
Proof.
  intros Hij Hs0 Hd0 Hs Hd Hi Hj (Hsm & Hsn & Hse) (Hdm & Hdn & Hde) Hm Hfee Has Hws Had Hwd.
  assert (account_at (write_account w i s) (key j) = Some d0) as Hd1
    by (rewrite account_at_write_ne; assumption).
  assert (info_owner (write_account w i s) j = id) as Hj'
    by (etransitivity; [apply owner_set_data|exact Hj]).
  split.
  2: { intros H. apply (tidy_write mk _ j d0 d Hd1 Hd Hdm Hdn Hde).
       exact (tidy_write mk w i s0 s Hs0 Hs Hsm Hsn Hse H). }
  rewrite (ledger_write mk _ j d0 d Hd1 Hd Hj'), (ledger_write mk w i s0 s Hs0 Hs Hi).
  pose proof (share_at mk w _ s0 Hs0 Hi) as Es.
  pose proof (share_at mk w _ d0 Hd0 Hj) as Ed.
  unfold transferred. case_decide as E.
  - rewrite share_of in Es, Ed by congruence. rewrite !share_of by congruence.
    destruct (proj1 (PodAccount_ok _) (state_base_ok _ _ Hs)) as (_ & _ & Hsb & _).
    destruct (proj1 (PodAccount_ok _) (state_base_ok _ _ Hd)) as (_ & _ & Hdb & _).
    pose proof (withheld_in_uint d) as Hwb. cbn [run apply]. rewrite Es, Ed.
    cbn [fst snd]. rewrite bool_decide_true by done.
    rewrite !(proj2 (Z.leb_le _ _)) by lia. unfold checked_sub, checked_add.
    rewrite <-Has, <-Had, <-Hwd, <-Hws, !to_uint_in by done. done.
  - rewrite share_other in Es, Ed by congruence. rewrite !share_other by congruence.
    cbn [run]. constructor. symmetry.
    rewrite (set_shares_id _ _ _ Es). by apply set_shares_id.
Qed.

Lemma unset_transferring_conserves mk held w i w' :
  unset_transferring held w i = Ok w' → conserves mk w w'.
Proof.
  intros (dt & Hdt & (st & Hst & (x & Hx & [= <-])%bind_Ok)%bind_Ok)%bind_Ok.
  apply borrow_Ok in Hdt as [_ ->].
  assert (Hat : account_at w (key i) = Some st) by by apply account_at_Some.
  pose proof (account_at_ok _ _ _ Hat) as Hok.
  apply (conserves_write mk w i st); try done; [by eapply state_ok_put|..].
  - by apply (has_entries_put PodAccount x).
  - apply share_same; [done..|]. by apply (withheld_put_ne _ x).
Qed.

Lemma transfer_hook_call_refines mk w i j auth accounts s0 d0 s d expected hook amt fee w' :
  hook_foreign rt → key i ≠ key j →
  account_at w (key i) = Some s0 → account_at w (key j) = Some d0 →
  state_ok PodAccount s → state_ok PodAccount d →
  info_owner w i = id → info_owner w j = id →
  same_part s0 s → same_part d0 d → acc_mint (base s0) = acc_mint (base d0) →
  0 ≤ fee ≤ amt →
  amount (base s) = amount (base s0) - amt → withheld s = withheld s0 →
  amount (base d) = amount (base d0) + (amt - fee) → withheld d = withheld d0 + fee →
  transfer_hook_call w i j auth accounts s d expected hook amt = Ok w' →
  refines mk (transferred mk (acc_mint (base s0)) (key i) (key j) amt fee) w w'.
Proof.
  intros Hhook Hij Hs0 Hd0 Hs Hd Hi Hj Hsp Hdp Hm Hfee Has Hws Had Hwd H.
  unfold transfer_hook_call in H.
  destruct hook as [p|]; [|injection H as <-; by apply (refines_write_pair _ _ _ _ s0 d0)].
  destruct expected as [[mi de]|]; [|done].
  apply bind_Ok in H as (ls & Hls & (ld & Hld & H)%bind_Ok).
  pose proof (set_transferring_entries _ _ Hls) as Hse.
  pose proof (set_transferring_entries _ _ Hld) as Hde.
  apply set_transferring_Ok in Hls as [Hs1 Hs3]; [|done]. injection Hs3 as Hs4.
  apply set_transferring_Ok in Hld as [Hd1 Hd3]; [|done]. injection Hd3 as Hd4.
  destruct Hsp as (Hsm & Hsn & Hse0), Hdp as (Hdm & Hdn & Hde0).
  apply bind_Ok in H as (w2 & H2 & (w3 & H3 & H4)%bind_Ok).
  apply Hhook, (conserves_foreign mk) in H2.
  apply (unset_transferring_conserves mk) in H3, H4.
  eapply refines_conserves; [|eapply conserves_trans; [exact H2|by eapply conserves_trans]].
  apply (refines_write_pair _ _ _ _ s0 d0); try done; try (split; auto); congruence.
Qed.

Lemma transfer_lamports_conserves mk w i j amt w' : transfer_lamports w i j amt = Ok w' →
  conserves mk w w'.
Proof.
  intros (a & _ & (b & _ & [= <-])%bind_Ok)%bind_Ok.
  eapply conserves_trans; apply conserves_set_lamports.
Qed.

Lemma process_transfer_refines mk pid ti si mi di ai signers amt w w' :
  hook_foreign rt → 0 ≤ amt →
  process_transfer pid (transfer_accounts ti si mi di ai signers) amt ti w = Ok w' →
  ∃ mint fee, refines mk
    (if decide (key si = key di) then [] else transferred mk mint (key si) (key di) amt fee) w w'.
Proof.
  intros Hhook Hamt H. apply process_transfer_Ok in H
    as (s & fee & pd & hook & a & Hs & _ & Hm & _ & _ & Hau & Hoi & Hoj & Hself & H).
  exists (acc_mint (base s)), fee. destruct (decide (key si = key di)) as [Hk|Hk];
    [rewrite (Hself Hk); apply conserves_refines, conserves_refl|].
  destruct (H Hk) as (d & d1 & w1 & Hd & Hdc & Hle & Hcr & Hw1 & Hcall). clear H Hself.
  pose proof (account_at_ok _ _ _ Hs) as Hsok. pose proof (account_at_ok _ _ _ Hd) as Hdok.
  pose proof (transfer_mint_nonneg _ _ _ _ _ _ _ _ Hamt Hm) as [Hfee _].
  apply transfer_authority_Ok in Hau as (_ & _ & Haok & (g & o & ->)); [|apply Hsok].
  pose proof (transfer_credit_entries _ _ _ _ Hcr) as Hent.
  apply transfer_credit_Ok in Hcr as (Hd1 & Hfa & Hbd & Hwd & _); [|done..].
  apply bind_Ok in Hdc as ([] & _ & ([] & Hmint%throw_if_Ok%negb_false_iff%Z.eqb_eq & _)%bind_Ok).
  destruct (proj1 (PodAccount_ok _) (state_base_ok _ _ Hsok)) as (_ & _ & [_ Hmax] & _).
  assert (conserves mk w w1 ∧ (∀ k, data (get_account w1 k) = data (get_account w k) ∧
    owner (get_account w1 k) = owner (get_account w k))) as [Hc1 Hw1d].
  { destruct (is_native _).
    - split; [by eapply transfer_lamports_conserves|]. intros k. by eapply transfer_lamports_data.
    - injection Hw1 as ->. split; [apply conserves_refl|done]. }
  eapply conserves_refines_trans; [exact Hc1|].
  assert (account_at w1 (key si) = Some s ∧ account_at w1 (key di) = Some d) as [Hs1 Hd1'].
  { split; [rewrite <-Hs|rewrite <-Hd]; apply account_at_data, Hw1d. }
  assert (info_owner w1 si = id ∧ info_owner w1 di = id) as [Hoi1 Hoj1].
  { split; (etransitivity; [apply Hw1d|assumption]). }
  refine (transfer_hook_call_refines mk w1 si di _ _ s d _ d1 _ _ _ fee w' Hhook Hk Hs1 Hd1' _ Hd1
    Hoi1 Hoj1 _ _ _ (conj Hfee Hfa) _ _ _ _ Hcall); try done.
  - apply state_ok_base; [done| |done]. apply set_amount_ok; [done|]. split; lia.
  - unfold same_part. rewrite Hbd. by split_and!.
  - by rewrite Hbd.
Qed.
End transfer.

(** ** Supply *)
Section supply.
Context `{rt : Runtime}.
Implicit Types (w : world) (mk : Pubkey).

(** Both sides of the ledger move together. *)
Lemma refines_write_both mk a w i j s m s' m' : key i ≠ key j →
  account_at w (key i) = Some s → mint_at w (key j) = Some m →
  state_ok PodAccount s' → state_ok PodMint m' →
  info_owner w i = id → info_owner w j = id →
  same_part s s' → (has_entries (tlv_data m) → has_entries (tlv_data m')) →
  acc_mint (base s) = key j →
  (∀ l, shares l (key i) = (amount (base s), withheld s) → issue l = issue_of m →
     apply a l =
       Some (set_issue (issue_of m') (set_shares (key i) (amount (base s'), withheld s') l))) →
  refines mk (if decide (key j = mk) then [a] else []) w
    (write_mint (write_account w i s') j m').
Proof.
  intros Hij Hs Hm Hs' Hm' Hi Hj (Hsm & Hsn & Hse) Hme Hk Ha.
  assert (mint_at (write_account w i s') (key j) = Some m) as Hm1.
  { rewrite <-Hm. apply mint_at_data. unfold write_account. by rewrite data_set_data, decide_False. }
  assert (info_owner (write_account w i s') j = id) as Hj1
    by (etransitivity; [apply owner_set_data|exact Hj]).
  split.
  2: { intros H. apply (tidy_write_mint mk _ j m m' Hm1 Hm' Hme).
       exact (tidy_write mk w i s s' Hs Hs' Hsm Hsn Hse H). }
  rewrite (ledger_write_mint mk _ j m m' Hm1 Hm' Hj1).
  pose proof (share_at mk w _ s Hs Hi) as Es.
  case_decide as E; rewrite (ledger_write mk w i s s' Hs Hs' Hi).
  - subst mk. cbn [run]. rewrite Ha; [by rewrite share_of by congruence|..].
    + by rewrite Es, share_of by congruence.
    + exact (issue_at w _ m Hm Hj).
  - cbn [run]. constructor. symmetry. rewrite share_other in Es |- * by congruence.
    by apply set_shares_id.
Qed.

Lemma process_mint_to_refines mk pid mi di oi signers amt v w w' :
  process_mint_to pid (mi :: di :: oi :: signers) amt v w = Ok w' →
  refines mk (if decide (key mi = mk) then [Issue (key di) amt] else []) w w'.
Proof.
  intros (d & m & Hd & Hm & Hk & _ & _ & Ho1 & Ho2 & _ & _ & _ & Hne & Hd' & Hm' & ->)
    %process_mint_to_Ok.
  apply (refines_write_both mk _ w di mi d m); try done.
  intros l Hl Hi. cbn [apply]. rewrite Hl, Hi. cbn [fst snd issue_of].
  destruct (proj1 (PodAccount_ok _) (state_base_ok _ _ Hd')) as (_ & _ & Hdb & _).
  destruct (proj1 (PodMint_ok _) (state_base_ok _ _ Hm')) as (_ & Hmb & _).
  unfold checked_add. cbn [base with_base amount set_amount supply set_supply] in Hdb, Hmb.
  rewrite !to_uint_in by done. reflexivity.
Qed.

Lemma process_burn_refines mk pid si mi ai signers amt v w w' :
  process_burn pid (si :: mi :: ai :: signers) amt v w = Ok w' →
  refines mk (if decide (key mi = mk) then [Destroy (key si) amt] else []) w w'.
Proof.
  intros (s & m & a & Hs & Hm & Hk & _ & _ & Ho1 & Ho2 & _ & _ & _ & Hne & (g & o & ->) &
    Hs' & Hm' & ->)%process_burn_Ok.
  apply (refines_write_both mk _ w si mi s m); try done.
  intros l Hl Hi. cbn [apply]. rewrite Hl, Hi. cbn [fst snd issue_of].
  destruct (proj1 (PodAccount_ok _) (state_base_ok _ _ Hs')) as (_ & _ & Hdb & _).
  destruct (proj1 (PodMint_ok _) (state_base_ok _ _ Hm')) as (_ & Hmb & _).
  unfold checked_sub. cbn [base with_base amount set_amount supply set_supply] in Hdb, Hmb.
  rewrite !to_uint_in by done. reflexivity.
Qed.
End supply.

(** ** Account operations *)
Section account_ops.
Context `{rt : Runtime}.
Implicit Types (w : world) (mk : Pubkey) (m : PodStateMut PodMint).

Lemma process_approve_conserves mk pid si mi di oi signers amt v w w' :
  in_uint 256 (key di) → in_uint 64 amt →
  process_approve pid (approve_accounts v si mi di oi signers) amt v w = Ok w' →
  conserves mk w w'.
Proof.
  intros Hdi Hamt H.
  destruct (process_approve_Ok _ _ _ _ _ _ _ _ _ _ Hdi Hamt H)
    as (s & Hs & _ & _ & _ & _ & _ & Hok & ->).
  by apply (conserves_write mk w si s).
Qed.

Lemma process_revoke_conserves mk pid si ai signers w w' :
  process_revoke pid (si :: ai :: signers) w = Ok w' → conserves mk w w'.
Proof.
  intros (s & Hs & _ & _ & _ & Hok & ->)%process_revoke_Ok. by apply (conserves_write mk w si s).
Qed.

Lemma process_toggle_freeze_conserves mk pid si mi ai signers freeze w w' :
  process_toggle_freeze_account pid (si :: mi :: ai :: signers) freeze w = Ok w' →
  conserves mk w w'.
Proof.
  intros (s & m & Hs & _ & _ & _ & _ & _ & _ & Hok & ->)%process_toggle_freeze_Ok.
  by apply (conserves_write mk w si s).
Qed.

Lemma process_withdraw_excess_conserves mk pid si di ai signers w w' :
  process_withdraw_excess_lamports pid (si :: di :: ai :: signers) w = Ok w' → conserves mk w w'.
Proof.
  intros (r & _ & _ & H & _)%process_withdraw_excess_lamports_Ok.
  by eapply transfer_lamports_conserves.
Qed.

(** Only native accounts synchronise. *)
Lemma process_sync_native_conserves mk ni rest w w' :
  process_sync_native (ni :: rest) w = Ok w' → solvent mk w → conserves mk w w'.
Proof.
  intros (s & r & Hs & Hn & Ho & _ & Hok & ->)%process_sync_native_Ok [Ht Hf].
  assert (acc_mint (base s) ≠ mk) as Hne.
  { intros E. assert (is_native (base s) = false) as Hfalse.
    { apply (Hf (key ni) Ho); [by apply account_at_Some|done]. }
    unfold is_native, co_is_some in Hfalse. unfold co_get in Hn. by rewrite Hfalse in Hn. }
  apply (conserves_write mk w ni s); try done. by rewrite !share_other.
Qed.

(** Closing destroys no tokens: the account is empty, or the mint has issued none. *)
Lemma closed_empty mk w k : solvent mk w →
  (∃ s, account_at w k = Some s ∧ (is_native (base s) = true ∨ amount (base s) = 0) ∧
     withheld s = 0) ∨
  (∃ m, mint_at w k = Some m ∧ supply (base m) = 0) →
  share_in mk (get_account w k) = (0, 0) ∧ (k = mk → issue_in (get_account w k) = (0, 0)).
Proof.
  intros [Ht Hf] [(s & Hs%account_at_Some & Hn & Hw)|(m & Hm & Hsup)].
  - split; [|intros _; by eapply issue_in_unpacked]. unfold share_in.
    destruct (Z.eqb_spec (owner (get_account w k)) id) as [Ho|]; [|done]. rewrite Hs. unfold share.
    destruct (Z.eqb_spec (acc_mint (base s)) mk) as [E|]; [|done]. rewrite Hw.
    destruct Hn as [Hn | ->]; [|done]. destruct (Hf k Ho) as [Hnf _].
    by rewrite (Hnf s Hs E) in Hn.
  - pose proof (holding_in_mint mk w k m Hm) as Hz. apply mint_at_Some in Hm.
    split; [by eapply share_in_unpacked|]. intros ->.
    pose proof (holding_in_nonneg mk (get_account w mk)) as Hpos.
    pose proof (total_nonneg mk w mk) as Hle. assert (0 ≤ issued mk w) as Hi by lia.
    clear Ht Hle Hpos. rename Hi into Hle. unfold issued in Hle.
    rewrite issued_in_issue in Hle. unfold issue_in in *.
    destruct (owner _ =? id); [|done]. rewrite Hm in *. unfold issue_of in *. rewrite Hsup in *.
    cbn [fst snd] in Hle. unfold mint_withheld in *.
    destruct (get_extension _ _ _) as [c| |] eqn:Hc; [|done..].
    apply get_extension_ok in Hc as (_ & _ & (Hc & _) & _). cbn in Hc. f_equal. lia.
Qed.

Lemma process_close_account_conserves mk pid si di ai signers w w' :
  process_close_account pid (si :: di :: ai :: signers) w = Ok w' →
  solvent mk w → conserves mk w w'.
Proof.
  intros (Hk & Hg & Hget)%process_close_account_Ok Hsol.
  assert (closed : data closed_account = zeros 0) by done.
  destruct (foreign_not_ours _ _ closed) as (Hc1 & Hc2 & Hc3).
  destruct (closed_empty mk w (key si) Hsol) as [Hs Hi].
  { destruct Hg as [(s & ? & ? & ? & _)|(m & ? & ? & _)]; [left|right]; eauto. }
  assert (∀ k, k ≠ key si → same_entry mk (get_account w k) (get_account w' k)) as Hother.
  { intros k Hne. rewrite Hget, get_set_account, decide_False by done. rewrite get_set_lamports.
    case_decide; [subst|]; by apply same_entry_data. }
  assert (get_account w' (key si) = closed_account) as Hsi
    by (by rewrite Hget, get_set_account, decide_True).
  split; [split|].
  - cbn [ledger_of issue]. destruct (decide (key si = mk)) as [E|E]; [|by apply Hother].
    rewrite <-E, Hsi, Hc2. symmetry. by apply Hi.
  - intros k. cbn [ledger_of shares]. destruct (decide (k = key si)) as [->|E]; [|by apply Hother].
    by rewrite Hsi, Hc1, Hs.
  - intros H k. destruct (decide (k = key si)) as [->|E]; [rewrite Hsi; apply Hc3|].
    by apply Hother.
Qed.

Lemma set_extension_authority_issued validate o t f m m' : mint_field t = Some f →
  c_ok (coption_codec 32) o → set_extension_authority validate o (ef_field f) m = Ok m' →
  issue_of m' = issue_of m ∧ (has_entries (tlv_data m) → has_entries (tlv_data m')).
Proof.
  intros Hf Ho (e & He & (auth & Ha & ([] & Hv & (k & Hk & [= <-])%bind_Ok)%bind_Ok)
    %bind_Ok)%bind_Ok.
  assert (Hok : c_ok ext_codec (field_set (ef_field f) k e)).
  { apply ef_set_ok; [by eapply optional_try_from_range|by eapply get_extension_ok]. }
  split.
  2: { assert (TYPE (ef_type f) ≠ ExtensionType.Uninitialized) as HU
         by (by destruct t; try discriminate Hf; injection Hf as <-).
       by apply (has_entries_put PodMint e). }
  unfold issue_of, mint_withheld. cbn [tlv_data base with_tlv]. f_equal.
  destruct (decide (TYPE (ef_type f) = ExtensionType.TransferFeeConfig)) as [HT|HT].
  - destruct t; try discriminate Hf; injection Hf as <-; try discriminate HT;
      cbn [ef_type ef_field ef_ext TransferFeeConfig_ef WithheldWithdraw_ef] in *;
      rewrite (get_put_extension _ e), He by done; done.
  - by rewrite (get_put_extension_ne _ e).
Qed.

Lemma set_authority_mint_issued validate o t m m' : c_ok (coption_codec 32) o →
  set_authority_mint validate o t m = Ok m' →
  issue_of m' = issue_of m ∧ (has_entries (tlv_data m) → has_entries (tlv_data m')).
Proof.
  intros Ho. destruct (mint_field t) as [f|] eqn:Hf.
  - rewrite (set_authority_mint_field _ _ _ _ _ Hf). by eapply set_extension_authority_issued.
  - destruct t; try discriminate Hf; try done;
      by intros (k & _ & ([] & _ & [= <-])%bind_Ok)%bind_Ok.
Qed.

Lemma process_set_authority_conserves mk pid si ai signers t o w w' :
  c_ok (coption_codec 32) o →
  process_set_authority pid (si :: ai :: signers) t o w = Ok w' → conserves mk w w'.
Proof.
  intros Ho H. unfold process_set_authority in H.
  do 2 (cbn [next_account_info] in H; rewrite Ok_bind in H).
  apply bind_Ok in H as (d & [_ ->]%borrow_Ok & H). unfold info_data in H.
  destruct (unpack_account _) as [st| |] eqn:Hst.
  1: { apply bind_Ok in H as (st' & Hset & [= <-]). apply account_at_Some in Hst.
    apply set_authority_account_Ok in Hset as (Hok & _ & Htlv & _ & Ham & Hmi & Hna);
      [|done|by eapply account_at_ok].
    apply (conserves_write mk w si st); try done; [by rewrite Htlv|].
    apply share_same; [done|done|]. unfold withheld. by rewrite Htlv. }
  all: destruct (unpack_mint _) as [m| |] eqn:Hm; [|done..];
    apply bind_Ok in H as (m' & Hset & [= <-]); apply mint_at_Some in Hm;
    destruct (set_authority_mint_issued _ _ _ _ _ Ho Hset) as [Hi He];
    apply set_authority_mint_Ok in Hset as (_ & Hok & _); [|done|by eapply mint_at_ok];
    by apply (conserves_write_mint mk w si m).
Qed.
End account_ops.
