(* ===== verification/FeeLedger.v ===== *)
(** * The transfer fee instructions conserve the ledger

    Withheld fees move from the accounts to the mint and from both to the account
    they are withdrawn to; the schedule has no part in the ledger. *)
From stdpp Require Import functions.
From S2P Require Import Prelude Codec Errors Runtime Pod State ExtensionType ExtensionData Tlv.
From S2P Require Import TlvAlloc StateExt Fee Authority Transfer AccountFacts TransferFacts.
From S2P Require Import TransferFeeOps TransferFeeFacts Unborn LedgerSpec Ledger.

(** The runtime's rule on the instruction of one program: the data of an account
    changes only if the program owns it. *)
Definition accepted `{Runtime} (w w' : world) : Prop :=
  ∀ k, data (get_account w' k) ≠ data (get_account w k) → owner (get_account w k) = id.

Section fees.
Context `{rt : Runtime}.
Implicit Types (w : world) (mk : Pubkey) (st d : PodStateMut PodAccount).

(** What an accepted write of an account does, even to one that is not ours: then
    nothing was written. *)
Lemma accepted_write w i st st' : account_at w (key i) = Some st → state_ok PodAccount st' →
  (data (get_account (write_account w i st') (key i)) ≠ data (get_account w (key i)) →
   info_owner w i = id) →
  info_owner w i = id ∨ st' = st.
Proof.
  intros Hst Hok Ha. destruct (decide (info_owner w i = id)) as [|Hne]; [by left|right].
  assert (data (get_account (write_account w i st') (key i)) = data (get_account w (key i))) as E.
  { destruct (decide (data (get_account (write_account w i st') (key i)) =
      data (get_account w (key i)))) as [|Hd]; [done|]. by destruct Hne; apply Ha. }
  unfold write_account in E. rewrite data_set_data, decide_True in E by done.
  apply account_at_Some in Hst. rewrite <-E, (unpack_state_bytes _ st' Hok) in Hst. congruence.
Qed.

Lemma process_set_transfer_fee_conserves mk pid accounts bps mx w w' :
  in_uint 16 bps → in_uint 64 mx → (∀ clk, clock_get = Ok clk → in_uint 64 (epoch clk)) →
  process_set_transfer_fee pid accounts bps mx w = Ok w' → conserves mk w w'.
Proof.
  destruct accounts as [|mi [|ai signers]]; [done|done|]. intros Hb Hm Hclk H.
  apply process_set_transfer_fee_Ok in H as (m & c & clk & Hmi & Hc & Hck & _ & _ & _ & ->).
  pose proof Hc as Hcok. apply get_extension_ok in Hcok.
  assert (c_ok (ext_codec (V:=TransferFeeConfig)) (schedule_fee (epoch clk) bps mx c)) as Hs
    by (apply schedule_fee_ok; auto).
  apply (conserves_write_mint mk w mi m); [done| |by apply (has_entries_put PodMint c)|].
  - apply (put_mint_ext_ok m c); [by eapply mint_at_ok|done..].
  - by rewrite (issue_of_put m c), (issue_of_eq m c).
Qed.

(** Draining an account, as an action of its mint. *)
Lemma ledger_drain mk w i st : account_at w (key i) = Some st → info_owner w i = id →
  let st' := put_account_ext (mkTransferFeeAmount 0) st in
  state_ok PodAccount st' → withheld st' = 0 →
  ledger_of mk (write_account w i st') ≡
    if decide (acc_mint (base st) = mk) then set_shares (key i) (amount (base st), 0) (ledger_of mk w)
    else ledger_of mk w.
Proof.
  intros Hst Ho st' Hok Hw. rewrite (ledger_write mk w i st st' Hst Hok Ho).
  pose proof (share_at mk w _ st Hst Ho) as Es.
  case_decide as E.
  - by rewrite share_of, Hw.
  - rewrite share_other in Es |- * by done. by apply set_shares_id.
Qed.

Lemma drain_other mk w i st : account_at w (key i) = Some st → info_owner w i = id →
  let st' := put_account_ext (mkTransferFeeAmount 0) st in
  state_ok PodAccount st' → withheld st' = 0 → acc_mint (base st) ≠ mk ∨ withheld st = 0 →
  ledger_of mk (write_account w i st') ≡ ledger_of mk w.
Proof.
  intros Hst Ho st' Hok Hw Hor. etransitivity; [exact (ledger_drain mk w i st Hst Ho Hok Hw)|].
  case_decide as E; [|done]. destruct Hor as [|Hz]; [done|]. apply set_shares_id.
  by rewrite (share_at mk w _ st Hst Ho), share_of, Hz.
Qed.

Definition is_harvest (a : action) : bool := match a with Harvest _ => true | _ => false end.

(** The loop keeps the fees it collects aside, as the source does. *)
Lemma harvest_loop_refines mk infos c w c' w' :
  harvest_to_mint_loop mk infos c w = Ok (c', w') → 
  ∃ acts, forallb is_harvest acts = true ∧ ∀ s,
    run acts (set_issue (s, tfc_withheld_amount c) (ledger_of mk w)) ≡
      Some (set_issue (s, tfc_withheld_amount c') (ledger_of mk w')).
Proof.
  revert c w. induction infos as [|i infos IH]; intros c w; cbn [harvest_to_mint_loop].
  { intros [= <- <-]. exists []. by split. }
  destruct (harvest_from_account [mk] mk i w) as [[n w1]|e|] eqn:Hh; [|apply IH|done].
  apply harvest_from_account_Ok in Hh
    as (st & _ & Hst & Hm & Ho & -> & Hn & Hok & Hw & _ & _ & ->).
  intros (n & [-> Hadd]%ok_or_Ok%checked_add_Some & (acts & Ha & H)%IH)%bind_Ok.
  exists (Harvest (key i) :: acts). split; [done|]. intros s. cbn [run apply].
  pose proof (share_at mk w _ st Hst Ho) as Es. rewrite share_of in Es by done.
  cbn [set_issue issue shares]. rewrite Es.
  cbn [fst snd]. unfold checked_add. rewrite to_uint_in by done. cbn [mbind option_bind].
  rewrite <-(H s). apply run_proper. split; [done|]. intros k.
  pose proof (ledger_drain mk w i st Hst Ho Hok Hw) as [_ Hd]. rewrite decide_True in Hd by done.
  exact (eq_sym (Hd k)).
Qed.

Lemma harvest_loop_other mk mk' infos c w c' w' :
  harvest_to_mint_loop mk infos c w = Ok (c', w') →
  mk' ≠ mk ∨ (∀ k, share_in mk' (get_account w k) = (0, 0)) →
  ledger_of mk' w' ≡ ledger_of mk' w.
Proof.
  revert c w. induction infos as [|i infos IH]; intros c w; cbn [harvest_to_mint_loop].
  { by intros [= <- <-]. }
  destruct (harvest_from_account [mk] mk i w) as [[n w1]|e|] eqn:Hh; [|apply IH|done].
  apply harvest_from_account_Ok in Hh
    as (st & _ & Hst & Hm & Ho & -> & _ & Hok & Hw & _ & _ & ->).
  intros (n & _ & H)%bind_Ok Hor.
  assert (ledger_of mk' (write_account w i (put_account_ext (mkTransferFeeAmount 0) st)) ≡
    ledger_of mk' w) as Hd.
  { apply drain_other; try done. destruct Hor as [|Hz]; [left; congruence|].
    destruct (decide (acc_mint (base st) = mk')) as [E|]; [right|by left].
    pose proof (share_at mk' w _ st Hst Ho) as Es. cbn [ledger_of shares] in Es.
    rewrite Hz, share_of in Es by done. by injection Es. }
  rewrite (IH _ _ H); [done|]. destruct Hor as [|Hz]; [by left|right].
  intros k. destruct Hd as [_ Hd]. rewrite <-(Hz k). apply (Hd k).
Qed.

(** A solvent mint that the program does not own has no tokens. *)
Lemma solvent_not_ours mk w : solvent mk w → owner (get_account w mk) ≠ id →
  ∀ k, share_in mk (get_account w k) = (0, 0).
Proof.
  intros [Ht _] Ho k. destruct (not_ours _ Ho) as (_ & Hi & _).
  pose proof (total_nonneg mk w k) as Hle. unfold issued in Ht.
  rewrite issued_in_issue, Hi in Ht. rewrite holding_in_share in Hle. cbn [fst snd] in Ht.
  unfold share_in, share in *. destruct (_ =? id); [|done].
  destruct (unpack_account _) as [st| |] eqn:Hst; [|done..].
  destruct (_ =? mk); [|done]. cbn [fst snd] in Hle. apply unpack_Ok in Hst as [_ Hst].
  pose proof (withheld_ok st). destruct (proj1 (PodAccount_ok _) (state_base_ok _ _ Hst)) as
    (_ & _ & [Ha _] & _). f_equal; lia.
Qed.

Lemma process_harvest_refines mk accounts w w' :
  process_harvest_withheld_tokens_to_mint accounts w = Ok w' → solvent mk w →
  ∃ acts, forallb is_harvest acts = true ∧ refines mk acts w w'.
Proof.
  destruct accounts as [|mi infos]; [done|].
  intros (m & c & c' & w1 & Hm & Hc & Hl & Hm1 & Hc' & Hok & ->)%process_harvest_Ok Hsol.
  pose proof Hc as Hcok. apply get_extension_ok in Hcok.
  destruct (harvest_loop_Ok _ _ _ _ _ _ Hl Hcok) as (_ & Ho & _ & _ & _ & _ & _ & Htidy & _).
  assert (Ht : (∀ k, tidy mk (get_account w k)) →
    ∀ k, tidy mk (get_account (write_mint w1 mi (put_mint_ext c' m)) k))
    by (intros; apply (tidy_write_mint mk w1 mi m); [..|by apply (has_entries_put PodMint c)|]; auto).
  destruct (decide (info_owner w mi = id)) as [E|E].
  - assert (info_owner w1 mi = id) as E1 by (etransitivity; [apply Ho|exact E]).
    destruct (decide (key mi = mk)) as [Ek|Ek].
    + destruct (harvest_loop_refines _ _ _ _ _ _ Hl) as (acts & Ha & Hrun).
      exists acts. split; [done|]. split; [|done].
      rewrite (ledger_write_mint mk w1 mi m _ Hm1 Hok E1), decide_True by done.
      rewrite (issue_of_put m c) by done. subst mk.
      rewrite <-(Hrun (supply (base m))). apply run_proper.
      pose proof (issue_at w _ m Hm E) as Hi. rewrite (issue_of_eq m c Hc) in Hi. by split.
    + exists []. split; [done|]. apply conserves_refines. split; [|done].
      rewrite (ledger_write_mint mk w1 mi m _ Hm1 Hok E1), decide_False by done.
      apply (harvest_loop_other _ _ _ _ _ _ _ Hl). left. congruence.
  - exists []. split; [done|]. apply conserves_refines. split; [|done].
    assert (info_owner w1 mi ≠ id) as E1 by (unfold info_owner; rewrite Ho; exact E).
    destruct (not_ours (get_account w1 (key mi)) E1) as (H1 & H2 & _).
    transitivity (ledger_of mk w1).
    + unfold write_mint, set_data. set (a := mkAccount _ _ _).
      destruct (not_ours a E1) as (H3 & H4 & _). apply ledger_set_same; by rewrite ?H1, ?H2, ?H3, ?H4.
    + apply (harvest_loop_other _ _ _ _ _ _ _ Hl).
      destruct (decide (mk = key mi)) as [->|]; [right|by left]. by apply solvent_not_ours.
Qed.

(** ** Withdrawing *)
Definition is_withdrawal (a : action) : bool :=
  match a with WithdrawFromMint _ | WithdrawFromAccount _ _ => true | _ => false end.

Lemma process_withdraw_from_mint_refines mk pid accounts w w' :
  process_withdraw_withheld_tokens_from_mint pid accounts w = Ok w' → accepted w w' →
  ∃ acts, forallb is_withdrawal acts = true ∧ refines mk acts w w'.
Proof.
  destruct accounts as [|mi [|di [|ai signers]]]; [done..|].
  intros (m & c & d & Hm & Hc & Hd & Hne & Ho & Hk & _ & _ & _ & Hd' & Hm' & ->)
    %process_withdraw_from_mint_Ok Ha.
  set (d' := with_base _ _) in *. set (m' := put_mint_ext _ _) in *.
  assert (mint_at (write_account w di d') (key mi) = Some m) as Hm1.
  { rewrite <-Hm. apply mint_at_data. unfold write_account. by rewrite data_set_data, decide_False. }
  assert (info_owner (write_account w di d') mi = id) as Ho1
    by (etransitivity; [apply owner_set_data|exact Ho]).
  assert (Htidy : (∀ k, tidy mk (get_account w k)) →
    ∀ k, tidy mk (get_account (write_mint (write_account w di d') mi m') k)).
  { intros H. apply (tidy_write_mint mk _ mi m); [done|done| |by apply (tidy_write mk w di d d')].
    by apply (has_entries_put PodMint c). }
  pose proof Hc as Hcok. apply get_extension_ok in Hcok.
  assert (issue_of m' = (supply (base m), 0)) as Hi'
    by (apply (issue_of_put m c); [done|by apply set_withheld_ok]).
  pose proof (issue_of_eq m c Hc) as Hi.
  destruct (accepted_write w di d d' Hd Hd') as [Hdi|Heq].
  - intros Hw. apply Ha. unfold write_mint. by rewrite data_set_data, decide_False.
  - pose proof (share_at mk w _ d Hd Hdi) as Es.
    exists (if decide (key mi = mk) then [WithdrawFromMint (key di)] else []).
    split; [by case_decide|]. split; [|done].
    rewrite (ledger_write_mint mk _ mi m m' Hm1 Hm' Ho1).
    case_decide as E; rewrite (ledger_write mk w di d d' Hd Hd' Hdi).
    + cbn [run apply]. subst mk. rewrite (issue_at w _ m Hm Ho), Es, Hi, Hi', !share_of by done.
      cbn [fst snd]. unfold checked_add.
      destruct (proj1 (PodAccount_ok _) (state_base_ok _ _ Hd')) as (_ & _ & Hdb & _).
      cbn [d' base with_base amount set_amount] in Hdb. by rewrite to_uint_in.
    + cbn [run]. constructor. symmetry. apply set_shares_id.
      rewrite Es, !share_other; [done|cbn [d' base with_base acc_mint set_amount]; congruence|congruence].
  - exists []. split; [done|]. apply conserves_refines.
    assert (tfc_withheld_amount c = 0) as Hz.
    { apply (f_equal (λ x, amount (base x))) in Heq. cbn [d' base with_base amount set_amount] in Heq.
      lia. }
    eapply conserves_trans; [|apply (conserves_write_mint mk _ mi m m' Hm1 Hm')].
    2: by apply (has_entries_put PodMint c).
    + apply (conserves_write mk w di d d' Hd Hd'); [done..|]. by rewrite Heq.
    + by rewrite Hi', Hi, Hz.
Qed.

(** The loop keeps the destination aside. *)
Lemma withdraw_loop_refines mk di infos d w d' w' :
  withdraw_from_accounts_loop mk di infos d w = Ok (d', w') →
  state_ok PodAccount d → acc_mint (base d) = mk →
  ∃ acts, forallb is_withdrawal acts = true ∧
    run acts (set_shares (key di) (share mk d) (ledger_of mk w)) ≡
      Some (set_shares (key di) (share mk d') (ledger_of mk w')).
Proof.
  revert d w. induction infos as [|i infos IH]; intros d w; cbn [withdraw_from_accounts_loop].
  { intros [= <- <-] _ _. exists []. by split. }
  destruct (Z.eqb_spec (key i) (key di)) as [Hi|Hi].
  - intros (e & He%map_err_Ok & (d1 & Hd1 & H)%bind_Ok)%bind_Ok Hd Hm.
    destruct (drained_ok d e Hd He) as (Hd0 & Hw0 & Hb0 & Hwe & _ & _).
    apply credit_amount_Ok in Hd1 as [Hd1 ->]; [|done]. set (d1 := with_base _ _) in *.
    assert (share mk d1 = (amount (base d) + withheld d, 0)) as Es.
    { rewrite share_of by done. cbn [d1 base with_base amount set_amount]. rewrite Hb0, Hwe.
      f_equal. exact Hw0. }
    destruct (proj1 (PodAccount_ok _) (state_base_ok _ _ Hd1)) as (_ & _ & Hdb & _).
    cbn [d1 base with_base amount set_amount] in Hdb. rewrite Hb0, <-Hwe in Hdb.
    apply IH in H as (acts & Ha & H); [|done..].
    exists (WithdrawFromAccount (key di) (key di) :: acts). split; [done|]. cbn [run apply].
    rewrite !shares_set_shares, !decide_True, share_of by done. cbn [fst snd].
    unfold checked_add. rewrite to_uint_in by done. cbn [mbind option_bind].
    by rewrite <-H, !set_shares_twice, Es.
  - destruct (harvest_from_account [mk; key di] mk i w) as [[n w1]|e|] eqn:Hh; [|apply IH|done].
    apply harvest_from_account_Ok in Hh
      as (st & _ & Hst & Hm' & Ho & -> & Hn & Hok & Hw & _ & _ & ->).
    intros (d1 & Hd1 & H)%bind_Ok Hd Hm.
    apply credit_amount_Ok in Hd1 as [Hd1 ->]; [|done]. set (d1 := with_base _ _) in *.
    assert (share mk d1 = (amount (base d) + withheld st, withheld d)) as Es by by rewrite share_of.
    destruct (proj1 (PodAccount_ok _) (state_base_ok _ _ Hd1)) as (_ & _ & Hdb & _).
    cbn [d1 base with_base amount set_amount] in Hdb.
    apply IH in H as (acts & Ha & H); [|done..].
    exists (WithdrawFromAccount (key i) (key di) :: acts). split; [done|]. cbn [run apply].
    set (l := ledger_of mk w).
    assert (shares (set_shares (key di) (share mk d) l) (key i) = (amount (base st), withheld st))
      as -> by (rewrite shares_set_shares, decide_False by congruence;
                unfold l; by rewrite (share_at mk w _ st Hst Ho), share_of).
    cbn [fst snd]. rewrite !shares_set_shares, decide_False, decide_True, (share_of mk d) by done.
    cbn [fst snd]. subst l. unfold checked_add. rewrite to_uint_in by done. cbn [mbind option_bind].
    by rewrite <-H, (set_shares_comm (key i)), set_shares_twice, Es,
      (ledger_drain mk w i st Hst Ho Hok Hw), decide_True.
Qed.

Lemma withdraw_loop_other mk mk' di infos d w d' w' :
  withdraw_from_accounts_loop mk di infos d w = Ok (d', w') →
  state_ok PodAccount d → acc_mint (base d) = mk →
  amount (base d) ≤ amount (base d') ∧
  (mk' ≠ mk ∨ amount (base d') = amount (base d) → ledger_of mk' w' ≡ ledger_of mk' w).
Proof.
  revert d w. induction infos as [|i infos IH]; intros d w; cbn [withdraw_from_accounts_loop].
  { by intros [= <- <-]. }
  destruct (Z.eqb_spec (key i) (key di)) as [Hi|Hi].
  - intros (e & He%map_err_Ok & (d1 & Hd1 & H)%bind_Ok)%bind_Ok Hd Hm.
    destruct (drained_ok d e Hd He) as (Hd0 & _ & Hb0 & Hwe & [Hw _] & _).
    apply credit_amount_Ok in Hd1 as [Hd1 ->]; [|done].
    apply IH in H as [Hle H]; [|done..]. cbn [base with_base amount set_amount] in Hle, H.
    rewrite Hb0 in *. split; [lia|]. intros Hor. apply H. destruct Hor; [by left|right; lia].
  - destruct (harvest_from_account [mk; key di] mk i w) as [[n w1]|e|] eqn:Hh; [|apply IH|done].
    apply harvest_from_account_Ok in Hh
      as (st & _ & Hst & Hm' & Ho & -> & [Hn _] & Hok & Hw & _ & _ & ->).
    intros (d1 & Hd1 & H)%bind_Ok Hd Hm.
    apply credit_amount_Ok in Hd1 as [Hd1 ->]; [|done].
    apply IH in H as [Hle H]; [|done..]. cbn [base with_base amount set_amount] in Hle, H.
    split; [lia|]. intros Hor. rewrite H by (destruct Hor; [by left|right; lia]).
    apply drain_other; try done. destruct Hor; [left; congruence|right; lia].
Qed.

Lemma process_withdraw_from_accounts_refines mk pid accounts n w w' :
  process_withdraw_withheld_tokens_from_accounts pid accounts n w = Ok w' → accepted w w' →
  ∃ acts, forallb is_withdrawal acts = true ∧ refines mk acts w w'.
Proof.
  destruct accounts as [|mi [|di [|ai infos]]]; [done..|].
  intros (m & c & d & d' & w1 & Hm & Hc & Hd & Hne & Ho & Hk & Hf & _ & _ & Hl & ->)
    %process_withdraw_from_accounts_Ok Ha.
  pose proof (account_at_ok _ _ _ Hd) as Hdok.
  destruct (withdraw_loop_Ok _ _ _ _ _ _ _ Hl Hdok Hk)
    as (Hok & Hb & Hkeep & _ & Hown & _ & Hdd & _ & _ & _ & Htidy & _).
  destruct (withdraw_loop_other _ mk _ _ _ _ _ _ Hl Hdok Hk) as [_ Hother].
  assert (account_at w1 (key di) = Some d) as Hd1 by (rewrite <-Hd; by apply account_at_data).
  assert (acc_mint (base d') = key mi) as Hk' by (by rewrite Hb).
  assert (Ht : (∀ k, tidy mk (get_account w k)) → ∀ k, tidy mk (get_account (write_account w1 di d') k)).
  { intros H. apply (tidy_write mk w1 di d d'); [done|done|by rewrite Hb|by rewrite Hb|done|auto]. }
  destruct (accepted_write w1 di d d' Hd1 Hok) as [Hdi| ->].
  - intros Hw. rewrite Hdd in Hw. unfold info_owner. rewrite Hown. by apply Ha.
  - assert (info_owner w di = id) as Hdi0 by (unfold info_owner in *; by rewrite Hown in Hdi).
    pose proof (share_at mk w _ d Hd Hdi0) as Es.
    destruct (decide (key mi = mk)) as [E|E].
    + destruct (withdraw_loop_refines _ _ _ _ _ _ _ Hl Hdok Hk) as (acts & Hacts & Hrun).
      exists acts. split; [done|]. split; [|done].
      rewrite (ledger_write mk w1 di d d' Hd1 Hok Hdi). subst mk. rewrite <-Hrun.
      apply run_proper. symmetry. by apply set_shares_id.
    + exists []. split; [done|]. apply conserves_refines. split; [|done].
      rewrite (ledger_write mk w1 di d d' Hd1 Hok Hdi), Hother by (left; congruence).
      apply set_shares_id. by rewrite Es, !share_other by congruence.
  - exists []. split; [done|]. apply conserves_refines. split; [|done].
    rewrite <-(Hother (or_intror eq_refl)).
    by apply (conserves_write mk w1 di d d).
Qed.
End fees.
