(* ===== verification/InitLedger.v ===== *)
(** * Initialization conserves the ledger

    An account that becomes a mint or a token account starts with nothing, and
    the extensions that are prepared before that withhold nothing. *)
From S2P Require Import Prelude Codec Errors Runtime Pod State ExtensionType ExtensionData Tlv.
From S2P Require Import TlvFacts TlvAlloc StateExt Fee Authority Transfer AccountFacts.
From S2P Require Import TransferFacts StateFacts PackedExt InitOps InitFacts SystemOps.
From S2P Require Import TransferFeeOps Unborn SystemFacts Ledger TransferFeeFacts LedgerFacts.

Section uninitialized.
Context `{rt : Runtime}.
Implicit Types (w : world) (mk k : Pubkey) (i : AccountInfo) (d : list byte).

(** Neither a mint nor a token account. *)
Definition not_live d : Prop :=
  (∀ st, unpack_account d ≠ Ok st) ∧ (∀ m, unpack_mint d ≠ Ok m).

Lemma not_live_ledger a : not_live (data a) →
  (∀ mk, share_in mk a = (0, 0)) ∧ issue_in a = (0, 0).
Proof.
  intros [Hs Hm]. split; [intros mk; by apply share_in_not_account|by apply issue_in_not_mint].
Qed.

Lemma conserves_not_live mk w k d : not_live (data (get_account w k)) → not_live d →
  (owner (get_account w k) = id → unborn (data (get_account w k)) → unborn d) →
  conserves mk w (set_data w k d).
Proof.
  intros [H1 H2]%not_live_ledger Hd Hu. set (a := mkAccount (lamports (get_account w k)) d
    (owner (get_account w k))).
  destruct (not_live_ledger a Hd) as [H3 H4]. unfold set_data. fold a.
  apply conserves_set_account; [by rewrite H1, H3|by rewrite H2, H4|]. intros H Ho.
  destruct (H k Ho) as (_ & _ & _ & Hub).
  split; [|split; [|split; [|by apply Hu]]]; intros x Hx;
    [by destruct (proj1 Hd x)..|by destruct (proj2 Hd x)].
Qed.

Lemma not_live_multisig d : length d = Multisig_LEN → not_live d.
Proof.
  intros Hd. split; intros x [-> Hx]%unpack_Ok; by apply (state_not_multisig _ _ Hx).
Qed.

(** Uninitialized buffers are not live. *)
Lemma uninitialized_not_live_mint d m : unpack_uninitialized PodMint d = Ok m → not_live d.
Proof.
  intros H. split; intros x Hx.
  - apply unpack_Ok in Hx as [-> Hx]. by apply (initialized_not_uninitialized PodAccount PodMint) in H.
  - apply unpack_uninitialized_unpack in Hx. by rewrite Hx in H.
Qed.

Lemma uninitialized_not_live_account d s : unpack_uninitialized PodAccount d = Ok s → not_live d.
Proof.
  intros H. split; intros x Hx.
  - apply unpack_uninitialized_unpack in Hx. by rewrite Hx in H.
  - apply unpack_Ok in Hx as [-> Hx]. by apply (initialized_not_uninitialized PodMint PodAccount) in H.
Qed.

(** A buffer whose account type is still zero is not live. *)
Lemma untyped_not_live S `{HB : BaseState S} `{HP : !PodState S} (st : PodStateMut S) :
  account_type st = [Byte.x00] → not_live (state_bytes S st).
Proof.
  intros Ht.
  assert (∀ {S'} `{PodState S'} (x : PodStateMut S'), type_byte S' ≠ [Byte.x00] →
    unpack S' (state_bytes S st) ≠ Ok x) as Hn.
  { intros S' HB' HP' x Htb [Heq Hx]%unpack_Ok.
    destruct (state_bytes_tlv S st) as [H1 _]; [by rewrite Ht|].
    destruct (state_type _ _ Hx) as [[Hx1 _]|Hx1].
    - apply (f_equal length) in Heq. rewrite !length_state_bytes, Ht, Hx1 in Heq.
      pose proof (base_size_le (S:=S)). pose proof (base_size_le (S:=S')).
      cbn [length] in Heq. unfold BASE_ACCOUNT_LENGTH in *. lia.
    - destruct (state_bytes_tlv S' x) as [H2 _]; [rewrite Hx1; apply length_le_split|].
      rewrite <-Heq, H1, Hx1, Ht in H2. congruence. }
  split; intros x; by apply Hn.
Qed.
End uninitialized.

(** ** Extensions of accounts to come *)
Section extensions.
Context `{rt : Runtime}.
Implicit Types (w : world) (mk : Pubkey) (i : AccountInfo).

(** An area with room for an extension has an account type in front of it. *)
Lemma init_extension_typed {S} `{HB : BaseState S} `{HP : !PodState S} V `{!Extension V} d
    (st : PodStateMut S) ov tlv : unpack_uninitialized S d = Ok st →
  init_extension S V ov (tlv_data st) = Ok tlv → account_type st = [Byte.x00].
Proof.
  intros [[[_ Hn]|H] _]%unpack_uninitialized_inv Hi; [|done].
  rewrite Hn in Hi. unfold init_extension, alloc in Hi. by case_decide.
Qed.

Lemma conserves_fresh_mint mk w i m tlv : unpack_uninitialized PodMint (info_data w i) = Ok m →
  account_type m = [Byte.x00] →
  (clean_tlv (tlv_data m) → clean_tlv tlv ∧ first_of PodMint tlv) →
  conserves mk w (set_data w (key i) (state_bytes PodMint (with_tlv tlv m))).
Proof.
  intros Hm Ht Hc. apply conserves_not_live.
  - by eapply uninitialized_not_live_mint.
  - by apply untyped_not_live.
  - intros _ [Hu _]. destruct (Hu m Hm) as [Hs [Hclean Hf]%Hc].
    apply unpack_uninitialized_Ok in Hm as (_ & Hfr & _).
    apply unborn_fresh_mint; cbn [base account_type tlv_data with_tlv]; [apply Hfr| |done..].
    by rewrite Ht.
Qed.

Lemma conserves_fresh_account mk w i s tlv :
  unpack_uninitialized PodAccount (info_data w i) = Ok s →
  account_type s = [Byte.x00] →
  (clean_tlv (tlv_data s) → clean_tlv tlv ∧ first_of PodAccount tlv) →
  conserves mk w (set_data w (key i) (state_bytes PodAccount (with_tlv tlv s))).
Proof.
  intros Hs Ht Hc. apply conserves_not_live.
  - by eapply uninitialized_not_live_account.
  - by apply untyped_not_live.
  - intros _ [_ Hu]. destruct (Hc (Hu s Hs)) as [Hclean Hf].
    apply unpack_uninitialized_Ok in Hs as (_ & Hfr & _).
    apply unborn_fresh_account; cbn [base account_type tlv_data with_tlv]; [apply Hfr| |done..].
    by rewrite Ht.
Qed.

(** The handlers that prepare an extension of a mint. *)
Lemma init_mint_extension_conserves mk w i m V `{!Extension V} ov (v : V) tlv :
  TYPE V ≠ ExtensionType.Uninitialized → in_uint 16 (Z.of_nat (ext_size V)) →
  c_ok ext_codec (ext_default (V:=V)) → clean_value (ext_default (V:=V)) → clean_value v →
  unpack_uninitialized PodMint (info_data w i) = Ok m →
  init_extension PodMint V ov (tlv_data m) = Ok tlv →
  conserves mk w (set_data w (key i) (state_bytes PodMint (with_tlv tlv m))) ∧
  conserves mk w (set_data w (key i)
    (state_bytes PodMint (with_tlv (put_extension PodMint v tlv) m))).
Proof.
  intros HU Hsz Hd Hcd Hcv Hm Hi.
  pose proof (init_extension_typed V _ _ _ _ Hm Hi) as Ht.
  destruct (unpack_uninitialized_inv PodMint _ _ Hm) as [_ Hck].
  assert (Hc : clean_tlv (tlv_data m) → clean_tlv tlv ∧ first_of PodMint tlv).
  { intros Hc. split; [by eapply (clean_init PodMint V)|by eapply (first_of_init PodMint V)]. }
  split; apply conserves_fresh_mint; try done.
  intros Hcm. destruct (Hc Hcm) as [Hc1 Hf1].
  assert (get_account_type (TYPE V) = ACCOUNT_TYPE PodMint) as HT.
  { apply bind_Ok in Hi as ([l [a b]] & Ha & _). unfold alloc in Ha. by case_decide. }
  pose proof (get_init_extension PodMint V HU Hsz _ _ _ (clean_has_entries _ Hcm) Hd Hi) as Hg.
  split; [by apply (clean_put PodMint ext_default)|by apply (first_of_put PodMint ext_default)].
Qed.
End extensions.

(** ** The handlers *)
Section handlers.
Context `{rt : Runtime}.
Implicit Types (w : world) (mk : Pubkey) (accounts : list AccountInfo).

Lemma clean_other V `{!Extension V} (v : V) : TYPE V ≠ ExtensionType.TransferFeeAmount →
  TYPE V ≠ ExtensionType.TransferFeeConfig → clean_value v.
Proof. intros H1 H2. split; cbn [fst]; done. Qed.

(** The conditions of [init_mint_extension_conserves] for an extension that is
    not about fees. *)
Ltac other_extension :=
  first [discriminate | apply clean_other; discriminate
        | split; [apply Z.leb_le|apply Z.ltb_lt]; vm_compute; reflexivity
        | repeat split; vm_compute; discriminate || reflexivity].

Lemma process_initialize_mint_close_authority_conserves mk accounts o w w' :
  process_initialize_mint_close_authority accounts o w = Ok w' → conserves mk w w'.
Proof.
  destruct accounts as [|mi rest]; [done|]. unfold process_initialize_mint_close_authority.
  cbn [next_account_info]. rewrite Ok_bind.
  intros (md & [_ ->]%borrow_Ok & (m & Hm & (tlv & Hi & (k & Hk & [= <-])%bind_Ok)%bind_Ok)%bind_Ok)
    %bind_Ok.
  refine (proj2 (init_mint_extension_conserves mk w mi m MintCloseAuthority true _ tlv _ _ _ _ _ Hm Hi));
    other_extension.
Qed.

Lemma process_initialize_non_transferable_mint_conserves mk accounts w w' :
  process_initialize_non_transferable_mint accounts w = Ok w' → conserves mk w w'.
Proof.
  destruct accounts as [|mi rest]; [done|]. unfold process_initialize_non_transferable_mint.
  cbn [next_account_info]. rewrite Ok_bind.
  intros (md & [_ ->]%borrow_Ok & (m & Hm & (tlv & Hi & [= <-])%bind_Ok)%bind_Ok)%bind_Ok.
  refine (proj1 (init_mint_extension_conserves mk w mi m NonTransferable true ext_default tlv _ _ _ _ _ Hm Hi));
    other_extension.
Qed.

Lemma process_initialize_permanent_delegate_conserves mk accounts k w w' :
  process_initialize_permanent_delegate accounts k w = Ok w' → conserves mk w w'.
Proof.
  destruct accounts as [|mi rest]; [done|]. unfold process_initialize_permanent_delegate.
  cbn [next_account_info]. rewrite Ok_bind.
  intros (md & [_ ->]%borrow_Ok & (m & Hm & (tlv & Hi & ([] & _ & [= <-])%bind_Ok)%bind_Ok)%bind_Ok)
    %bind_Ok.
  refine (proj2 (init_mint_extension_conserves mk w mi m PermanentDelegate true _ tlv _ _ _ _ _ Hm Hi));
    other_extension.
Qed.

Lemma process_initialize_immutable_owner_conserves mk accounts w w' :
  process_initialize_immutable_owner accounts w = Ok w' → conserves mk w w'.
Proof.
  destruct accounts as [|ai rest]; [done|]. unfold process_initialize_immutable_owner.
  cbn [next_account_info]. rewrite Ok_bind.
  intros (d & [_ ->]%borrow_Ok & (s & Hs & (tlv & Hi & [= <-])%bind_Ok)%bind_Ok)%bind_Ok.
  pose proof (init_extension_typed ImmutableOwner _ _ _ _ Hs Hi) as Ht.
  destruct (unpack_uninitialized_inv PodAccount _ _ Hs) as [_ Hck].
  apply conserves_fresh_account; [exact Hs|exact Ht|]. intros Hc. split.
  - refine (clean_init PodAccount ImmutableOwner true _ _ Hc _ _ _ Hi); other_extension.
  - refine (first_of_init PodAccount ImmutableOwner true _ _ Hc Hck _ _ Hi); other_extension.
Qed.

Lemma optional_from_coption_range o k : (∀ x, o = Some x → in_uint 256 x) →
  optional_from_coption o = Ok k → in_uint 256 k.
Proof.
  unfold optional_from_coption. destruct o as [x|]; intros Hr.
  - case_match; [done|]. intros [= <-]. by apply Hr.
  - by intros [= <-].
Qed.

Lemma process_initialize_transfer_fee_config_conserves mk accounts a1 a2 bps mx w w' :
  (∀ x, a1 = Some x → in_uint 256 x) → (∀ x, a2 = Some x → in_uint 256 x) →
  in_uint 16 bps → in_uint 64 mx → (∀ clk, clock_get = Ok clk → in_uint 64 (epoch clk)) →
  process_initialize_transfer_fee_config accounts a1 a2 bps mx w = Ok w' → conserves mk w w'.
Proof.
  intros H1 H2 Hb Hm Hclk. destruct accounts as [|mi rest]; [done|].
  unfold process_initialize_transfer_fee_config. cbn [next_account_info]. rewrite Ok_bind.
  intros (d & [_ ->]%borrow_Ok & (m & Hmi & (tlv & Hi & (k1 & Hk1 & (k2 & Hk2 & ([] & _ &
    (clk & Hc & [= <-])%bind_Ok)%bind_Ok)%bind_Ok)%bind_Ok)%bind_Ok)%bind_Ok)%bind_Ok.
  apply optional_from_coption_range in Hk1, Hk2; [|done..]. pose proof (Hclk _ Hc) as He.
  set (x := mkTransferFeeConfig _ _ _ _ _).
  refine (proj2 (init_mint_extension_conserves mk w mi m TransferFeeConfig true x tlv
    _ _ _ _ _ Hmi Hi)); [other_extension|other_extension|other_extension|..].
  - split; [done|]. intros _. exists ext_default. split; [done|]. split; [|done].
    repeat split; vm_compute; discriminate || reflexivity.
  - split; [done|]. intros _. exists x. split; [done|]. split; [|done].
    refine (conj Hk1 (conj Hk2 (conj _ (conj _ _)))); [done|..];
      exact (conj He (conj Hm Hb)).
Qed.

Lemma process_get_account_data_size_conserves mk accounts ts w w' :
  process_get_account_data_size accounts ts w = Ok w' → conserves mk w w'.
Proof.
  intros ([] & _ & H)%bind_Ok. destruct accounts as [|mi rest]; [done|].
  cbn [next_account_info] in H. rewrite Ok_bind in H.
  by apply bind_Ok in H as (l & _ & (n & _ & [= <-])%bind_Ok).
Qed.

(** A multisig is neither a mint nor a token account, before or after. *)
Lemma length_multisig_write ms : length (ms_signers ms) = MAX_SIGNERS →
  length (PodMultisig_write ms) = Multisig_LEN.
Proof.
  intros Hl. unfold PodMultisig_write. rewrite !length_app, !length_le_split.
  assert (length (mjoin (le_split 32 <$> ms_signers ms)) = MAX_SIGNERS * 32)%nat as ->; [|done].
  rewrite <-Hl. clear. induction (ms_signers ms) as [|k l IH]; [done|].
  change (length (le_split 32 k ++ mjoin (le_split 32 <$> l)) = (32 + length l * 32)%nat).
  by rewrite length_app, length_le_split, IH.
Qed.

Lemma process_initialize_multisig_conserves mk accounts m b w w' :
  _process_initialize_multisig accounts m b w = Ok w' → conserves mk w w'.
Proof.
  destruct accounts as [|mi rest]; [done|]. unfold _process_initialize_multisig.
  cbn [next_account_info]. rewrite Ok_bind.
  intros ([r rest'] & _ & (d & [_ ->]%borrow_Ok & (old & Hold & ([] & _ & ([] & _ & ([] & _ &
    ([] & _ & (l & Hl & [= <-])%bind_Ok)%bind_Ok)%bind_Ok)%bind_Ok)%bind_Ok)%bind_Ok)%bind_Ok)%bind_Ok.
  assert (length (info_data w mi) = Multisig_LEN) as Hlen.
  { unfold pod_multisig_from_bytes in Hold. case_match eqn:E; [|done]. by apply Nat.eqb_eq in E. }
  apply pod_multisig_from_bytes_Ok in Hold.
  assert (length (PodMultisig_write (mkPodMultisig m (Z.of_nat (length rest') mod 2 ^ 8)
    (from_bool true) l)) = Multisig_LEN) as Hlen'.
  { apply length_multisig_write. cbn [ms_signers].
    apply store_signers_Ok in Hl as [Hle ->]. rewrite take_0. cbn [Nat.add app].
    rewrite length_app, length_fmap, length_drop. rewrite Hold in *.
    unfold MAX_SIGNERS in *. destruct Hle as [? | ->]; cbn [length] in *; lia. }
  apply conserves_not_live; [by apply not_live_multisig..|]. intros _ _. by apply unborn_multisig.
Qed.
End handlers.

(** ** The accounts that come alive *)
Section birth.
Context `{rt : Runtime}.
Implicit Types (w : world) (mk : Pubkey) (accounts : list AccountInfo).

(** The account type of a view can be read from its buffer. *)
Definition view_type {S} `{BaseState S} (st : PodStateMut S) : Prop :=
  (account_type st = [] ∧ tlv_data st = []) ∨ length (account_type st) = 1%nat.

Lemma same_bytes_type {S} `{HB : BaseState S} `{HP : !PodState S}
    {S'} `{HB' : BaseState S'} `{HP' : !PodState S'} (st : PodStateMut S) (x : PodStateMut S') :
  state_bytes S st = state_bytes S' x → view_type st → view_type x →
  account_type st = account_type x ∧ (account_type st = [] → SIZE_OF S = SIZE_OF S').
Proof.
  intros Heq Hst Hx. pose proof (f_equal length Heq) as Hl.
  rewrite !length_state_bytes in Hl.
  pose proof (base_size_le (S:=S)). pose proof (base_size_le (S:=S')).
  unfold BASE_ACCOUNT_LENGTH in *.
  destruct Hst as [[Hst _]|Hst], Hx as [[Hx _]|Hx].
  - rewrite Hst, Hx in *. split; [done|]. lia.
  - rewrite Hst in Hl. destruct (account_type x) as [|b l]; [done|]. cbn [length] in *. lia.
  - rewrite Hx in Hl. destruct (account_type st) as [|b l]; [done|]. cbn [length] in *. lia.
  - destruct (state_bytes_tlv S st Hst) as [H1 _], (state_bytes_tlv S' x Hx) as [H2 _].
    split; [by rewrite <-H1, Heq|]. intros E. by rewrite E in Hst.
Qed.

(** A token account that stays uninitialized although it has its type. *)
Lemma unfinished_account (s : PodStateMut PodAccount) : c_ok base_codec (base s) →
  base_is_initialized (base s) = false →
  (account_type s = [] ∧ tlv_data s = []) ∨ account_type s = type_byte PodAccount →
  not_live (state_bytes PodAccount s) ∧ unborn (state_bytes PodAccount s).
Proof.
  intros Hb Hi Ht.
  assert (view_type s) as Hv by (destruct Ht as [Ht|Ht]; [by left|right; by rewrite Ht]).
  assert (∀ x : PodStateMut PodMint, state_bytes PodAccount s = state_bytes PodMint x →
    view_type x → account_type x = type_byte PodAccount) as Hm.
  { intros x Heq Hx. destruct (same_bytes_type s x Heq Hv Hx) as [H1 H2].
    destruct Ht as [[Ht _]|Ht]; [discriminate (H2 Ht)|congruence]. }
  split; split.
  - intros x Hx. by apply (fresh_not_initialized _ _ s x) in Hx.
  - intros x [Heq Hx]%unpack_Ok. destruct (state_type _ _ Hx) as [Hx1|Hx1].
    + destruct Hx1 as [Hx1 Hx2]. pose proof (Hm x Heq (or_introl (conj Hx1 Hx2))) as E.
      rewrite Hx1 in E. discriminate E.
    + assert (view_type x) as Hvx by (right; by rewrite Hx1).
      pose proof (Hm x Heq Hvx) as E. rewrite Hx1 in E. discriminate E.
  - intros x Hx. pose proof Hx as (Heq & _)%unpack_uninitialized_Ok.
    destruct (unpack_uninitialized_inv _ _ _ Hx) as [Hx1 _].
    assert (view_type x) as Hvx by (destruct Hx1 as [?|Hx1]; [by left|right; by rewrite Hx1]).
    pose proof (Hm x Heq Hvx) as E.
    destruct Hx1 as [[Hx1 _]|Hx1]; rewrite Hx1 in E; discriminate E.
  - intros x Hx. pose proof Hx as (Heq & _)%unpack_uninitialized_Ok.
    destruct (unpack_uninitialized_inv _ _ _ Hx) as [[[_ ->]|Hx1] _]; [apply (clean_zeros 0)|].
    destruct (same_bytes_type s x Heq Hv (or_intror (f_equal length Hx1))) as [H1 _].
    rewrite Hx1 in H1. destruct Ht as [[Ht _]|Ht]; rewrite Ht in H1; discriminate H1.
Qed.
(** A clean mint has issued nothing. *)
Lemma clean_mint_withheld (m : PodStateMut PodMint) : clean_tlv (tlv_data m) → mint_withheld m = 0.
Proof.
  intros Hc. unfold mint_withheld.
  destruct (get_mint_ext TransferFeeConfig (tlv_data m)) as [c| |] eqn:E; [|done..].
  apply (clean_get PodMint) in E as (bs & [_ Hbs] & -> & _); [|done..].
  destruct (Hbs eq_refl) as (c & Hw & Hc' & H0). cbn [snd] in Hw.
  by rewrite Hw, c_read_write.
Qed.

Lemma process_initialize_mint_conserves mk accounts d auth o b w w' :
  in_uint 8 d → in_uint 256 auth → c_ok (coption_codec 32) o →
  _process_initialize_mint accounts d auth o b w = Ok w' → solvent mk w → conserves mk w w'.
Proof.
  destruct accounts as [|mi rest]; [done|]. intros Hd Hauth Ho H [Ht Hf].
  destruct (initialize_mint_Ok _ _ _ _ _ _ _ _ Hd Hauth Ho H)
    as (m & m' & r & rest' & l & _ & Hm & _ & _ & _ & _ & _ & Hok & Htlv & Hbase & _ & ->).
  set (a := mkAccount (lamports (get_account w (key mi))) (state_bytes PodMint m')
    (owner (get_account w (key mi)))).
  assert (∀ st, unpack_account (data a) ≠ Ok st) as Ha.
  { intros st Hst. eapply unpack_account_not_mint; [exact Hst|]. by apply unpack_state_bytes. }
  apply uninitialized_not_live_mint in Hm as Hnl.
  destruct (not_live_ledger (get_account w (key mi)) Hnl) as [H1 H2].
  assert (∀ mk, share_in mk a = (0, 0)) as H3 by (intros; by apply share_in_not_account).
  assert (issue_in a = (0, 0)) as H4.
  { unfold issue_in. destruct (Z.eqb_spec (owner a) id) as [E|]; [|done].
    cbn [data a]. rewrite (unpack_state_bytes _ m' Hok).
    destruct (Hf (key mi) E) as (_ & _ & _ & [Hub _]). destruct (Hub m Hm) as [Hs Hc].
    unfold issue_of. rewrite clean_mint_withheld by by rewrite Htlv.
    rewrite Hbase. cbn [supply]. by rewrite Hs. }
  unfold set_data. fold a.
  apply conserves_set_account; [by rewrite H1, H3|by rewrite H2, H4|]. intros _ E.
  refine (tidy_mint mk a m' _ _ E); [by apply unpack_state_bytes|]. rewrite Htlv.
  destruct (Hf (key mi) E) as (_ & _ & _ & [Hub _]). by apply clean_has_entries, (Hub m Hm).
Qed.

Ltac account_extension :=
  first [discriminate | split; [done|discriminate]
        | split; [apply Z.leb_le|apply Z.ltb_lt]; vm_compute; reflexivity].

Lemma init_account_extension_clean t tlv tlv' : clean_tlv tlv →
  init_account_extension_from_type PodAccount t tlv = Ok tlv' → clean_tlv tlv'.
Proof.
  intros Hc. unfold init_account_extension_from_type. case_match; [by intros [= <-]|].
  destruct t; try discriminate; try (by intros [= <-]); apply clean_init; try exact Hc;
    account_extension.
Qed.

Lemma init_required_extensions_clean l tlv tlv' : clean_tlv tlv →
  init_required_extensions l tlv = Ok tlv' → clean_tlv tlv'.
Proof.
  revert tlv. induction l as [|t l IH]; intros tlv Hc; cbn; [by intros [= <-]|].
  intros (tlv1 & H1%init_account_extension_clean & H2%IH)%bind_Ok; done.
Qed.

Lemma process_initialize_account_conserves mk accounts o b w w' :
  mk ≠ native_mint.id → (∀ r n, in_uint 64 (minimum_balance r n)) →
  (∀ i, i ∈ accounts → in_uint 256 (key i)) → (∀ k, o = Some k → in_uint 256 k) →
  _process_initialize_account accounts o b w = Ok w' → solvent mk w → conserves mk w w'.
Proof.
  intros Hmk Hrent Hkeys Hown H [Ht Hf].
  destruct accounts as [|ai [|mi rest]]; [done|done|].
  apply initialize_account_Ok in H as (ow & rest' & r & rest'' & s & m & l & tlv & st & nat & amt &
    s' & Hrest & _ & Hs & _ & _ & _ & Htlv & _ & (Hn1 & Hn2 & Hn3) & Hi & ->); [|done].
  apply uninitialized_not_live_account in Hs as Hnl.
  destruct (not_live_ledger (get_account w (key ai)) Hnl) as [H1 H2].
  destruct (unpack_uninitialized_inv PodAccount _ _ Hs) as [Hv _].
  pose proof Hs as (_ & Hfresh & _)%unpack_uninitialized_Ok.
  apply init_required_extensions_length in Htlv as Hlen.
  set (b0 := new_account_base _ _ _ _ _) in Hi.
  assert (Hb : c_ok base_codec b0).
  { refine (proj2 (PodAccount_ok _) _). split_and!; try done; try apply co_none_ok.
    - apply Hkeys. set_solver.
    - destruct o as [k|]; [destruct Hrest as [-> _]; by apply Hown|].
      destruct Hrest as (oi & -> & ->). apply Hkeys. set_solver.
    - by destruct st. }
  set (s0 := with_tlv tlv (with_base b0 s)) in Hi.
  assert (fresh_ok PodAccount s0) as Hf' by by apply fresh_ok_with.
  set (a := mkAccount (lamports (get_account w (key ai))) (state_bytes PodAccount s')
    (owner (get_account w (key ai)))).
  assert (base s' = b0 ∧ tlv_data s' = tlv ∧
    ((account_type s' = [] ∧ tlv_data s' = []) ∨ account_type s' = type_byte PodAccount))
    as (Hbase & Htlv' & Hty).
  { apply bind_Ok in Hi as (fo & _ & Hi).
    destruct Hv as [[Hv1 Hv2]|Hv]; cbn [s0 account_type with_tlv with_base] in Hi.
    - rewrite Hv1 in Hi. injection Hi as <-. split; [done|]. split; [done|]. left.
      split; [done|]. apply nil_length_inv. cbn [s0 tlv_data with_tlv]. by rewrite Hlen, Hv2.
    - rewrite Hv in Hi. apply bind_Ok in Hi as (? & _ & [= <-]). by split_and!; [..|right]. }
  assert (∀ x, unpack_account (data a) = Ok x → x = s') as Hx.
  { intros x Hx. destruct (decide (st = Uninitialized)) as [->|Hst].
    - destruct (unfinished_account s') as [[Hnot _] _]; [by rewrite Hbase|by rewrite Hbase|done|].
      by destruct (Hnot x).
    - apply (init_account_type_Ok PodAccount) in Hi as (Hok & _); [|done|by destruct st].
      cbn [data a] in Hx. rewrite (unpack_state_bytes _ s' Hok) in Hx. congruence. }
  assert (unborn (data (get_account w (key ai))) → unborn (data a) ∧ withheld s' = 0 ∧ has_entries (tlv_data s')) as Hub.
  { intros [_ Hu]. apply Hu in Hs. apply (init_required_extensions_clean _ _ _ Hs) in Htlv.
    rewrite Htlv'. split; [|split; [apply clean_withheld; by rewrite Htlv'|by apply clean_has_entries]].
    destruct (decide (st = Uninitialized)) as [->|Hst].
    - apply (unfinished_account s'); [by rewrite Hbase|by rewrite Hbase|done].
    - apply (init_account_type_Ok PodAccount) in Hi as (Hok & _); [|done|by destruct st].
      by apply unborn_account. }
  assert (∀ x, unpack_mint (data a) ≠ Ok x) as Hnm.
  { intros x Ex. destruct (decide (st = Uninitialized)) as [->|Hst].
    - destruct (unfinished_account s') as [[_ Hnot] _]; [by rewrite Hbase|by rewrite Hbase|done|].
      by destruct (Hnot x).
    - apply (init_account_type_Ok PodAccount) in Hi as (Hok & _); [|done|by destruct st].
      eapply unpack_account_not_mint; [|exact Ex]. by apply unpack_state_bytes. }
  assert (share_in mk a = (0, 0) ∧ issue_in a = (0, 0) ∧ tidy mk a) as (H3 & H4 & H5).
  { destruct (decide (owner a = id)) as [E|E].
    2: { destruct (not_ours _ E) as (F1 & F2 & F3). by split_and!. }
    destruct (Hf (key ai) E) as (_ & _ & _ & Hub0). destruct (Hub Hub0) as (Hu & Hw0 & He).
    assert (acc_mint (base s') = mk → amount (base s') = 0 ∧ is_native (base s') = false) as Hmint.
    { rewrite Hbase. cbn [b0 new_account_base acc_mint amount is_native_opt]. intros E1.
      rewrite E1, (proj2 (Z.eqb_neq _ _) Hmk) in Hn3. destruct Hn3 as [-> ->]. done. }
    split_and!.
    - unfold share_in. rewrite E, Z.eqb_refl. destruct (unpack_account (data a)) as [x| |]; [|done..].
      rewrite (Hx x eq_refl). unfold share. rewrite Hw0.
      destruct (Z.eqb_spec (acc_mint (base s')) mk) as [Em|]; [|done].
      by destruct (Hmint Em) as [-> _].
    - by apply issue_in_not_mint.
    - intros _. split; [|split; [|split; [|done]]]; intros x Hx'; [apply Hx in Hx' as ->..|].
      + intros Em. by apply Hmint.
      + done.
      + by destruct (Hnm x). }
  unfold set_data. fold a. by apply conserves_set_account; rewrite ?H1, ?H2, ?H3, ?H4.
Qed.
End birth.

(** * The handlers that call the system program keep the ledger *)
Section ledger.
Context `{rt : Runtime} `{sp : !SystemProgram}.
Implicit Types (w : world) (mk : Pubkey).

(** The new native mint has issued nothing. *)
Lemma process_create_native_mint_conserves mk accounts w w' :
  process_create_native_mint accounts w = Ok w' → conserves mk w w'.
Proof.
  intros H. destruct accounts as [|pi [|ni [|si rest]]]; try done.
  apply process_create_native_mint_Ok in H as (_ & Ho & Hd & r & _ & _ & ->).
  set (n := saturating_sub _ _). pose proof (get_move_lamports (key pi) (key ni) n w) as Hm.
  apply conserves_pointwise. intros k. destruct (Hm k) as (D & O & _).
  destruct (decide (k = key ni)) as [->|Hk].
  - destruct native_mint_state_ok as [Hb Hok].
    set (a' := get_account (set_data _ _ _) (key ni)). assert (data a' = state_bytes PodMint native_mint_state) as Ed.
    { subst a'. world_simp. by rewrite decide_True. }
    assert (owner a' = id) as Eo by (subst a'; world_simp; by rewrite decide_True).
    unfold info_data in Hd. unfold info_owner in Ho.
    destruct (foreign_not_ours (get_account w (key ni)) 0 Hd) as (H1 & H2 & _).
    unfold same_entry. rewrite H1, H2. split; [|split].
    + apply share_in_not_account. rewrite Ed. intros st Hst.
      eapply unpack_account_not_mint; [exact Hst|]. by apply unpack_state_bytes.
    + unfold issue_in. rewrite Eo, Z.eqb_refl, Ed, (unpack_state_bytes _ _ Hok). done.
    + intros _. apply (tidy_mint mk a' native_mint_state).
      * rewrite Ed. by apply unpack_state_bytes.
      * exists [], 0%nat. split; [done|]. split; constructor.
  - apply same_entry_data; world_simp; by rewrite !decide_False by congruence.
Qed.

Lemma withheld_grown (st : PodStateMut PodAccount) k : has_entries (tlv_data st) →
  withheld (grown k st) = withheld st.
Proof.
  intros He. unfold withheld. cbn [tlv_data grown].
  assert (TYPE TransferFeeAmount ≠ ExtensionType.Uninitialized) as HU by done.
  destruct (get_account_ext TransferFeeAmount (tlv_data st)) as [x| |] eqn:Ex.
  1: by rewrite (proj2 (get_extension_grow TransferFeeAmount _ k x HU He) Ex).
  all: destruct (get_account_ext TransferFeeAmount (_ ++ _)) as [y| |] eqn:Ey; [|done..];
    by rewrite (proj1 (get_extension_grow TransferFeeAmount _ k y HU He) Ey) in Ex.
Qed.

(** A token account that grew, with the same mint, amount and native flag. *)
Lemma grown_entry mk a a' (st : PodStateMut PodAccount) b k :
  unpack_account (data a) = Ok st →
  acc_mint b = acc_mint (base st) → Pod.amount b = Pod.amount (base st) →
  is_native b = is_native (base st) →
  let st' := with_base b (grown k st) in
  state_ok PodAccount st' → data a' = state_bytes PodAccount st' → owner a' = owner a →
  tidy mk a → same_entry mk a a'.
Proof.
  intros Hst F1 F3 F8 st' Hok Hd Ho Ht.
  assert (unpack_account (data a') = Ok st') as Hst' by (rewrite Hd; by apply unpack_state_bytes).
  unfold same_entry. destruct (decide (owner a = id)) as [E|E].
  2: { destruct (not_ours _ E) as (-> & -> & _). rewrite <-Ho in E.
       by destruct (not_ours _ E) as (-> & -> & F). }
  destruct (Ht E) as (H1 & H2 & _). specialize (H2 st Hst).
  split; [|split].
  - unfold share_in. rewrite Ho, E, Z.eqb_refl, Hst, Hst'. unfold share.
    subst st'. cbn [base with_base]. rewrite F1, F3.
    change (withheld (with_base b (grown k st))) with
      (withheld (grown k st)). by rewrite withheld_grown.
  - rewrite !issue_in_not_mint; [done|..]; intros m Hm; eapply unpack_account_not_mint;
      [exact Hst|exact Hm|exact Hst'|exact Hm].
  - intros _. apply (tidy_account mk a' st'); [done| |by apply has_entries_grow].
    subst st'. cbn [base with_base]. rewrite F1, F8. by apply H1.
Qed.

Lemma process_reallocate_conserves mk pid accounts types w w' :
  (∀ r n, in_uint 64 (minimum_balance r n)) →
  process_reallocate pid accounts types w = Ok w' → solvent mk w → conserves mk w w'.
Proof.
  intros Hrent H. destruct accounts as [|ti [|pi [|si [|ai signers]]]]; try done.
  apply process_reallocate_Ok in H as (st & current & needed & Hst & _ & _ & _ & _ &
    [[_ ->]|(_ & rent & k & _ & Hok & _ & _ & _ & _ & Hw)]); [done| |done].
  apply tidy_pointwise. intros k' Ht. destruct (Hw k') as (D & O & _).
  destruct (decide (key ti = k')) as [<-|Hne].
  - apply account_at_Some in Hst.
    pose proof (reserve_base_fields (minimum_balance rent needed) (base st)) as (F1 & _ & F3 & _ & _ & _ & _ & F8).
    exact (grown_entry mk _ _ st _ k Hst F1 F3 F8 Hok D O Ht).
  - by apply same_entry_data.
Qed.
End ledger.
