(* ===== verification/ExtensionFacts.v ===== *)
(** * What the processors of the smaller extensions do

    The handlers that update an extension of a mint have the same shape, and so
    have those that prepare one: [update_op] and [init_op] list them, and the
    lemmas say once what they all do. *)
From S2P Require Import Prelude Codec Errors Runtime Pod State ExtensionType ExtensionData Tlv.
From S2P Require Import TlvFacts TlvAlloc StateExt Fee Authority Transfer AccountFacts.
From S2P Require Import TransferFacts Supply AccountOps AccountOpsFacts TransferFeeOps.
From S2P Require Import TransferFeeFacts Unborn Ledger LedgerFacts InitFacts InitLedger.
From S2P Require Import ExtensionOps.

(** ** The time-weighted rate *)
Lemma quot_between a b t lo hi : 0 < t → lo * t ≤ a → a ≤ hi * t → b = Z.quot a t → lo ≤ b ≤ hi.
Proof.
  intros Ht Hlo Hhi ->. split.
  - rewrite <-(Z.quot_mul lo t) by lia. by apply Z.quot_le_mono.
  - rewrite <-(Z.quot_mul hi t) by lia. by apply Z.quot_le_mono.
Qed.

(** With the timestamps in order the new average is defined, and between the
    average so far and the current rate. *)
Lemma time_weighted_average_rate_between e now :
  in_sint 16 (ibc_pre_update_average_rate e) → in_sint 16 (ibc_current_rate e) →
  in_sint 64 (ibc_initialization_timestamp e) → in_sint 64 now →
  ibc_initialization_timestamp e ≤ ibc_last_update_timestamp e ≤ now →
  ∃ r, time_weighted_average_rate e now = Some r ∧
    Z.min (ibc_pre_update_average_rate e) (ibc_current_rate e) ≤ r ≤
    Z.max (ibc_pre_update_average_rate e) (ibc_current_rate e).
Proof.
  unfold in_sint. cbn [Z.sub Z.pow Z.opp].
  intros H1 H2 H3 H4 [H5 H6]. unfold time_weighted_average_rate.
  unfold checked_sub_signed, checked_add_signed, checked_mul_signed, checked_div_signed.
  set (r1 := ibc_pre_update_average_rate e) in *. set (r2 := ibc_current_rate e) in *.
  set (t1 := ibc_last_update_timestamp e - ibc_initialization_timestamp e).
  set (t2 := now - ibc_last_update_timestamp e).
  change (2 ^ (16 - 1)) with 32768 in *. change (2 ^ (64 - 1)) with 9223372036854775808 in *.
  assert (∀ z, - 2 ^ 100 ≤ z ≤ 2 ^ 100 → to_sint 128 z = Some z) as H128.
  { intros z Hz. apply to_sint_in. unfold in_sint. change (2 ^ (128 - 1)) with (2 ^ 127). lia. }
  assert (∀ r, Z.min r1 r2 ≤ r ≤ Z.max r1 r2 → to_sint 16 r = Some r) as H16.
  { intros r Hr. apply to_sint_in. unfold in_sint. change (2 ^ (16 - 1)) with 32768. lia. }
  assert (0 ≤ t1 ≤ 2 ^ 64 ∧ 0 ≤ t2 ≤ 2 ^ 64) as [Ht1 Ht2] by lia.
  assert (∀ r t, - 32768 ≤ r < 32768 → 0 ≤ t ≤ 2 ^ 64 → - 2 ^ 80 ≤ r * t ≤ 2 ^ 80) as Hmul by nia.
  rewrite (H128 t1) by lia. simpl. rewrite (H128 t2) by lia. simpl.
  rewrite (H128 (t1 + t2)) by lia. simpl.
  destruct (Z.eqb_spec (t1 + t2) 0) as [H0|H0]; simpl; [exists r2; rewrite H16 by lia; split; [done|lia]|].
  pose proof (Hmul r1 t1 H1 Ht1). pose proof (Hmul r2 t2 H2 Ht2).
  rewrite (H128 (r1 * t1)), (H128 (r2 * t2)) by lia. simpl.
  rewrite (H128 (r1 * t1 + r2 * t2)) by lia. simpl.
  destruct (quot_between (r1 * t1 + r2 * t2) (Z.quot (r1 * t1 + r2 * t2) (t1 + t2)) (t1 + t2)
    (Z.min r1 r2) (Z.max r1 r2)) as [Hlo Hhi]; [lia|nia|nia|done|].
  rewrite H128 by lia. simpl. rewrite H16 by lia. by eexists.
Qed.

(** ** Updates of an extension of a mint *)
Inductive update_op :=
| UpdateMetadataPointerOp (metadata_address : Pubkey)
| UpdateGroupPointerOp (group_address : Pubkey)
| UpdateGroupMemberPointerOp (member_address : Pubkey)
| UpdateTransferHookOp (program_id : Pubkey)
| PauseOp (pause : bool)
| UpdateRateOp (rate : Z)
| UpdateMultiplierOp (multiplier : list byte) (effective_timestamp : Z)
| UpdateDefaultStateOp (state : AccountState).

Section updates.
Context `{rt : Runtime}.
Implicit Types (w : world) (m : PodStateMut PodMint) (u : update_op) (mk : Pubkey).

(** What an update is: its handler, the extension it writes, who may run it, and
    the value it leaves; [pid] is the program. *)
Record update_spec := {
  up_run : Pubkey → list AccountInfo → world → res world;
  up_type : Type;
  up_ext : Extension up_type;
  up_authority : PodMint → up_type → option Pubkey;
  up_next : Pubkey → up_type → up_type → Prop;
}.
#[local] Existing Instance up_ext.

Definition describe_update u : update_spec :=
  match u with
  | UpdateMetadataPointerOp k =>
      {| up_run pid l := process_update_metadata_pointer pid l k;
         up_ext := MetadataPointer_Extension;
         up_authority _ e := optional_get (mp_authority e);
         up_next _ e e' := e' = mkMetadataPointer (mp_authority e) k |}
  | UpdateGroupPointerOp k =>
      {| up_run pid l := process_update_group_pointer pid l k;
         up_ext := GroupPointer_Extension;
         up_authority _ e := optional_get (gp_authority e);
         up_next _ e e' := e' = mkGroupPointer (gp_authority e) k |}
  | UpdateGroupMemberPointerOp k =>
      {| up_run pid l := process_update_group_member_pointer pid l k;
         up_ext := GroupMemberPointer_Extension;
         up_authority _ e := optional_get (gmp_authority e);
         up_next _ e e' := e' = mkGroupMemberPointer (gmp_authority e) k |}
  | UpdateTransferHookOp k =>
      {| up_run pid l := process_update_transfer_hook pid l k;
         up_ext := TransferHook_Extension;
         up_authority _ e := optional_get (th_authority e);
         up_next pid e e' := optional_get k ≠ Some pid ∧ e' = mkTransferHook (th_authority e) k |}
  | PauseOp b =>
      {| up_run pid l := process_toggle_pause pid l b;
         up_ext := PausableConfig_Extension;
         up_authority _ e := optional_get (pc_authority e);
         up_next _ e e' := e' = mkPausableConfig (pc_authority e) (from_bool b) |}
  | UpdateRateOp r =>
      {| up_run pid l := process_update_rate pid l r;
         up_ext := InterestBearingConfig_Extension;
         up_authority _ e := optional_get (ibc_rate_authority e);
         up_next _ e e' := ∃ clk avg, clock_get = Ok clk ∧
           time_weighted_average_rate e (unix_timestamp clk) = Some avg ∧
           e' = mkInterestBearingConfig (ibc_rate_authority e) (ibc_initialization_timestamp e)
                  avg (unix_timestamp clk) r |}
  | UpdateMultiplierOp mult t =>
      {| up_run pid l := process_update_multiplier pid l mult t;
         up_ext := ScaledUiAmountConfig_Extension;
         up_authority _ e := optional_get (sua_authority e);
         up_next _ e e' := ∃ clk, clock_get = Ok clk ∧ try_validate_multiplier mult = Ok tt ∧
           e' = schedule_multiplier (unix_timestamp clk) mult t e |}
  | UpdateDefaultStateOp s =>
      {| up_run pid l := process_update_default_account_state pid l s;
         up_ext := DefaultAccountState_Extension;
         up_authority b _ := co_get (freeze_authority b);
         up_next _ _ e' := s ≠ Uninitialized ∧ e' = mkDefaultAccountState (account_state_u8 s) |}
  end.

(** The run of an update: the authority signed, and the extension is written. *)
Definition update_run (s : update_spec) (pid : Pubkey) (mi ai : AccountInfo)
    (signers : list AccountInfo) w w' : Prop :=
  ∃ m (e e' : up_type s), mint_at w (key mi) = Some m ∧
    get_mint_ext (up_type s) (tlv_data m) = Ok e ∧
    up_authority s (base m) e = Some (key ai) ∧
    validate_owner [key mi] w pid (key ai) ai (data_len w ai) signers = Ok tt ∧
    up_next s pid e e' ∧ w' = write_mint w mi (put_mint_ext e' m).

(** Opens a handler up to the world it returns. *)
Ltac peel H :=
  repeat (let x := fresh "x" in let E := fresh "E" in apply bind_Ok in H as (x & E & H);
          try (apply borrow_Ok in E as [_ ->]); try (destruct x));
  injection H as <-.

Ltac open_update H :=
  do 2 (cbn [next_account_info] in H; rewrite Ok_bind in H);
  apply bind_Ok in H as (? & [_ ->]%borrow_Ok & (m & Hm & (e & He & (auth & Ha & ([] & Hv & H)
    %bind_Ok)%bind_Ok)%bind_Ok)%bind_Ok);
  apply ok_or_Ok in Ha; pose proof (validate_owner_key _ _ _ _ _ _ _ Hv) as <-;
  apply mint_at_Some in Hm.

Lemma update_Ok u pid mi ai signers w w' :
  up_run (describe_update u) pid (mi :: ai :: signers) w = Ok w' →
  update_run (describe_update u) pid mi ai signers w w'.
Proof.
  destruct u as [k|k|k|k|b|r|mult t|s]; cbn [describe_update up_run]; intros H.
  - unfold process_update_metadata_pointer in H. open_update H. injection H as <-.
    by exists m, e; eexists.
  - unfold process_update_group_pointer in H. open_update H. injection H as <-.
    by exists m, e; eexists.
  - unfold process_update_group_member_pointer in H. open_update H. injection H as <-.
    by exists m, e; eexists.
  - unfold process_update_transfer_hook in H. open_update H.
    apply bind_Ok in H as ([] & Hk & [= <-]). exists m, e; eexists. split_and!; try done.
    split; [|done]. intros E. rewrite E in Hk. by apply throw_if_Ok, Z.eqb_neq in Hk.
  - unfold process_toggle_pause in H. open_update H. injection H as <-. by exists m, e; eexists.
  - unfold process_update_rate in H. open_update H.
    apply bind_Ok in H as (clk & Hc & (avg & Havg%ok_or_Ok & [= <-])%bind_Ok).
    exists m, e; eexists. split_and!; try done. by exists clk, avg.
  - unfold process_update_multiplier in H. open_update H.
    apply bind_Ok in H as ([] & Hval & (clk & Hc & [= <-])%bind_Ok).
    exists m, e; eexists. split_and!; try done. by exists clk.
  - unfold process_update_default_account_state in H.
    apply bind_Ok in H as ([] & Hs & H).
    do 2 (cbn [next_account_info] in H; rewrite Ok_bind in H).
    apply bind_Ok in H as (? & [_ ->]%borrow_Ok & (m & Hm & ([] & Hv & (e & He & [= <-])
      %bind_Ok)%bind_Ok)%bind_Ok).
    destruct (co_get (freeze_authority (base m))) as [auth|] eqn:Ha; [|done].
    pose proof (validate_owner_key _ _ _ _ _ _ _ Hv) as <-. apply mint_at_Some in Hm.
    exists m, e; eexists. split_and!; try done. by destruct s.
Qed.

(** An update of an extension that is not about fees keeps what was issued. *)
Lemma put_mint_ext_conserves mk w i m V `{!Extension V} (e e' : V) :
  TYPE V ≠ ExtensionType.TransferFeeConfig → TYPE V ≠ ExtensionType.Uninitialized →
  mint_at w (key i) = Some m → get_mint_ext V (tlv_data m) = Ok e → conserves mk w (write_mint w i (put_mint_ext e' m)).
Proof.
  intros HT HU Hm He. apply (conserves_write_mint mk w i m); [done| | |].
  - apply state_ok_with_tlv; [by eapply mint_at_ok|]. by eapply length_put_extension.
  - by apply (has_entries_put PodMint e).
  - unfold issue_of, mint_withheld, put_mint_ext. cbn [tlv_data with_tlv base].
    by rewrite (get_put_extension_ne _ e).
Qed.

Lemma update_conserves mk u pid accounts w w' :
  up_run (describe_update u) pid accounts w = Ok w' → conserves mk w w'.
Proof.
  intros H. destruct accounts as [|mi [|ai signers]].
  1-2: by destruct u; try done; apply bind_Ok in H as (? & _ & ?).
  apply update_Ok in H as (m & e & e' & Hm & He & _ & _ & _ & ->).
  apply (put_mint_ext_conserves mk w mi m _ e); [by destruct u|by destruct u|done..].
Qed.
End updates.

(** ** Extensions of a mint to come *)
Inductive init_op :=
| InitializeMetadataPointerOp (authority metadata_address : Pubkey)
| InitializeGroupPointerOp (authority group_address : Pubkey)
| InitializeGroupMemberPointerOp (authority member_address : Pubkey)
| InitializeTransferHookOp (authority program_id : Pubkey)
| InitializePausableOp (authority : Pubkey)
| InitializeInterestBearingOp (authority : Pubkey) (rate : Z)
| InitializeScaledUiAmountOp (authority : Pubkey) (multiplier : list byte)
| InitializeDefaultStateOp (state : AccountState).

Section inits.
Context `{rt : Runtime}.
Implicit Types (w : world) (m : PodStateMut PodMint) (u : init_op) (mk : Pubkey).

(** What preparing an extension is: its handler, and the extension it writes. *)
Record init_spec := {
  in_run : Pubkey → list AccountInfo → world → res world;
  in_type : Type;
  in_ext : Extension in_type;
}.
#[local] Existing Instance in_ext.

Definition describe_init u : init_spec :=
  match u with
  | InitializeMetadataPointerOp a k =>
      {| in_run _ l := process_initialize_metadata_pointer l a k;
         in_ext := MetadataPointer_Extension |}
  | InitializeGroupPointerOp a k =>
      {| in_run _ l := process_initialize_group_pointer l a k;
         in_ext := GroupPointer_Extension |}
  | InitializeGroupMemberPointerOp a k =>
      {| in_run _ l := process_initialize_group_member_pointer l a k;
         in_ext := GroupMemberPointer_Extension |}
  | InitializeTransferHookOp a k =>
      {| in_run pid l := process_initialize_transfer_hook pid l a k;
         in_ext := TransferHook_Extension |}
  | InitializePausableOp a =>
      {| in_run _ l := process_initialize_pausable l a; in_ext := PausableConfig_Extension |}
  | InitializeInterestBearingOp a r =>
      {| in_run _ l := process_initialize_interest_bearing_mint l a r;
         in_ext := InterestBearingConfig_Extension |}
  | InitializeScaledUiAmountOp a mult =>
      {| in_run _ l := process_initialize_scaled_ui_amount l a mult;
         in_ext := ScaledUiAmountConfig_Extension |}
  | InitializeDefaultStateOp s =>
      {| in_run _ l := process_initialize_default_account_state l s;
         in_ext := DefaultAccountState_Extension |}
  end.

Lemma init_Ok u pid accounts w w' : in_run (describe_init u) pid accounts w = Ok w' →
  ∃ mi rest m tlv (v : in_type (describe_init u)), accounts = mi :: rest ∧
    unpack_uninitialized PodMint (info_data w mi) = Ok m ∧
    init_extension PodMint (in_type (describe_init u)) true (tlv_data m) = Ok tlv ∧
    w' = write_mint w mi (put_mint_ext v (with_tlv tlv m)).
Proof.
  intros H. destruct u as [a k|a k|a k|a k|a|a r|a mult|s]; cbn [describe_init in_run] in H;
    [..|apply bind_Ok in H as ([] & _ & H)].
  all: destruct accounts as [|mi rest]; [done|]; exists mi, rest.
  all: apply bind_Ok in H as ([x y] & [= <- <-] & H);
    apply bind_Ok in H as (? & [_ ->]%borrow_Ok & (m & Hm & H)%bind_Ok); exists m.
  - apply bind_Ok in H as (tlv & Hi & ([] & _ & [= <-])%bind_Ok). by exists tlv; eexists.
  - apply bind_Ok in H as ([] & _ & (tlv & Hi & [= <-])%bind_Ok). by exists tlv; eexists.
  - apply bind_Ok in H as ([] & _ & (tlv & Hi & [= <-])%bind_Ok). by exists tlv; eexists.
  - apply bind_Ok in H as (tlv & Hi & ([] & _ & [= <-])%bind_Ok). by exists tlv; eexists.
  - apply bind_Ok in H as (tlv & Hi & (a' & _ & (e & _ & [= <-])%bind_Ok)%bind_Ok).
    by exists tlv; eexists.
  - apply bind_Ok in H as (clk & _ & (tlv & Hi & [= <-])%bind_Ok). by exists tlv; eexists.
  - apply bind_Ok in H as (tlv & Hi & ([] & _ & [= <-])%bind_Ok). by exists tlv; eexists.
  - apply bind_Ok in H as (tlv & Hi & [= <-]). by exists tlv; eexists.
Qed.

Lemma ext_default_ok V `{!Extension V} : c_ok ext_codec (ext_default (V:=V)).
Proof. apply c_read_ok. apply length_zeros. Qed.

(** None of these extensions withholds tokens. *)
Lemma init_spec_ok u (V := in_type (describe_init u)) :
  TYPE V ≠ ExtensionType.Uninitialized ∧ in_uint 16 (Z.of_nat (ext_size V)) ∧
  ∀ v : V, clean_value v.
Proof.
  subst V. split; [by destruct u|]. split.
  - destruct u; (split; [apply Z.leb_le|apply Z.ltb_lt]); vm_compute; reflexivity.
  - intros v. destruct u; by apply clean_other.
Qed.

Lemma init_conserves mk u pid accounts w w' :
  in_run (describe_init u) pid accounts w = Ok w' → conserves mk w w'.
Proof.
  intros (mi & rest & m & tlv & v & -> & Hm & Hi & ->)%init_Ok.
  destruct (init_spec_ok u) as (HU & Hsz & Hc).
  apply (init_mint_extension_conserves mk w mi m _ true v tlv HU Hsz); auto using ext_default_ok.
Qed.
End inits.

(** ** Flags of a token account *)
Section toggles.
Context `{rt : Runtime}.
Implicit Types (w : world) (st : PodStateMut PodAccount) (mk : Pubkey).

(** Data written to an account that is not the program's is not in the ledger. *)
Lemma conserves_not_ours mk w k d : owner (get_account w k) ≠ id → conserves mk w (set_data w k d).
Proof.
  intros Ho. set (a := mkAccount (lamports (get_account w k)) d (owner (get_account w k))).
  destruct (not_ours _ Ho) as (H1 & H2 & _), (not_ours a Ho) as (H3 & H4 & H5).
  unfold set_data. fold a. by apply conserves_set_account; rewrite ?H1, ?H2, ?H3, ?H4.
Qed.

(** A write that keeps the base and what is withheld, given well-formed entries. *)
Lemma conserves_write_tidy mk w i st st' : account_at w (key i) = Some st →
  (has_entries (tlv_data st) → state_ok PodAccount st' ∧ base st' = base st ∧
     has_entries (tlv_data st') ∧ withheld st' = withheld st) →
  solvent mk w → conserves mk w (write_account w i st').
Proof.
  intros Hst Hw [_ Hf]. destruct (decide (info_owner w i = id)) as [E|E].
  - destruct (Hf (key i) E) as (_ & He & _).
    destruct (Hw (He st (proj1 (account_at_Some _ _ _) Hst))) as (Hok & Hb & He' & Hwh).
    apply (conserves_write mk w i st); try done; [by rewrite Hb..|].
    by apply share_same; rewrite ?Hb.
  - by apply conserves_not_ours.
Qed.

(** [get_or_init_account_ext] on an area of entries. *)
Lemma get_or_init_Ok V `{!Extension V} tlv tlv' : TYPE V ≠ ExtensionType.Uninitialized →
  TYPE V ≠ ExtensionType.TransferFeeAmount → in_uint 16 (Z.of_nat (ext_size V)) →
  get_or_init_account_ext V tlv = Ok tlv' → has_entries tlv →
  length tlv' = length tlv ∧ (∃ x, get_account_ext V tlv' = Ok x) ∧ has_entries tlv' ∧
  ∀ x, get_account_ext TransferFeeAmount tlv' = Ok x ↔ get_account_ext TransferFeeAmount tlv = Ok x.
Proof.
  intros HU HT Hsz H He. unfold get_or_init_account_ext in H.
  destruct (get_account_ext V tlv) as [x|e|] eqn:Hx; [injection H as <-; by eauto| |done].
  pose proof H as Hl. apply init_extension_length in Hl. split; [done|].
  split; [exists ext_default; eapply get_init_extension; [done|done|exact He|apply ext_default_ok|exact H]|].
  split; [exact (has_entries_init PodAccount V true _ _ HU Hsz H He)|]. intros y.
  refine (get_init_other PodAccount V TransferFeeAmount true tlv tlv' y HU Hsz _ _ H He); [done|].
  intros E. by apply HT; rewrite <-E.
Qed.

(** The two flags an owner can set. *)
Inductive toggle := MemoToggle | GuardToggle.
Definition toggle_type (t : toggle) : Type :=
  match t with MemoToggle => MemoTransfer | GuardToggle => CpiGuard end.
#[local] Instance toggle_ext t : Extension (toggle_type t) :=
  match t with MemoToggle => MemoTransfer_Extension | GuardToggle => CpiGuard_Extension end.
Definition toggle_value t (enable : bool) : toggle_type t :=
  match t with
  | MemoToggle => mkMemoTransfer (from_bool enable)
  | GuardToggle => mkCpiGuard (from_bool enable)
  end.
Definition run_toggle t pid accounts enable w : res world :=
  match t with
  | MemoToggle => process_toggle_required_memo_transfers pid accounts enable w
  | GuardToggle => process_toggle_cpi_guard pid accounts enable w
  end.

Lemma toggle_Ok t pid ti oi signers enable w w' :
  run_toggle t pid (ti :: oi :: signers) enable w = Ok w' →
  ∃ s tlv, account_at w (key ti) = Some s ∧ key oi = acc_owner (base s) ∧
    validate_owner [key ti] w pid (key oi) oi (data_len w oi) signers = Ok tt ∧
    (t = GuardToggle → in_cpi = false) ∧
    get_or_init_account_ext (toggle_type t) (tlv_data s) = Ok tlv ∧
    w' = write_account w ti (put_account_ext (toggle_value t enable) (with_tlv tlv s)).
Proof.
  destruct t; cbn [run_toggle];
    unfold process_toggle_required_memo_transfers, process_toggle_cpi_guard; intros H;
    do 2 (cbn [next_account_info] in H; rewrite Ok_bind in H);
    apply bind_Ok in H as (? & [_ ->]%borrow_Ok & (s & Hs & ([] & Hv & H)%bind_Ok)%bind_Ok);
    apply account_at_Some in Hs; pose proof (validate_owner_key _ _ _ _ _ _ _ Hv) as Ho;
    rewrite <-Ho in Hv.
  - apply bind_Ok in H as (tlv & Ht & [= <-]). by exists s, tlv.
  - apply bind_Ok in H as ([] & Hc%throw_if_Ok & (tlv & Ht & [= <-])%bind_Ok). by exists s, tlv.
Qed.

Lemma toggle_ext_ok t (V := toggle_type t) : TYPE V ≠ ExtensionType.Uninitialized ∧
  TYPE V ≠ ExtensionType.TransferFeeAmount ∧ in_uint 16 (Z.of_nat (ext_size V)).
Proof.
  subst V. destruct t; (split; [done|]; split; [done|]; split; [apply Z.leb_le|apply Z.ltb_lt]);
    vm_compute; reflexivity.
Qed.

(** The account after a toggle. *)
Lemma toggled_account t enable s tlv : state_ok PodAccount s → has_entries (tlv_data s) →
  get_or_init_account_ext (toggle_type t) (tlv_data s) = Ok tlv →
  let s' := put_account_ext (toggle_value t enable) (with_tlv tlv s) in
  state_ok PodAccount s' ∧ base s' = base s ∧ has_entries (tlv_data s') ∧
  withheld s' = withheld s ∧
  get_account_ext (toggle_type t) (tlv_data s') = Ok (toggle_value t enable).
Proof.
  intros Hs He Ht s'. destruct (toggle_ext_ok t) as (HU & HT & Hsz).
  destruct (get_or_init_Ok _ _ _ HU HT Hsz Ht He) as (Hl & [x Hx] & He' & Hw).
  assert (state_ok PodAccount (with_tlv tlv s)) as Hs1 by by apply state_ok_with_tlv.
  split; [exact (state_ok_put (with_tlv tlv s) x _ Hs1 Hx)|]. split; [done|].
  split; [by apply (has_entries_put PodAccount x)|]. split.
  - etransitivity; [exact (withheld_put_ne (with_tlv tlv s) x _ Hx HT)|].
    unfold withheld. cbn [tlv_data with_tlv].
    destruct (get_account_ext TransferFeeAmount tlv) as [y| |].
    1: by rewrite (proj1 (Hw y) eq_refl).
    all: destruct (get_account_ext TransferFeeAmount (tlv_data s)) as [y| |]; try done;
      by discriminate (proj2 (Hw y) eq_refl).
  - unfold s', put_account_ext. cbn [tlv_data with_tlv].
    rewrite (get_put_extension _ x); [done|done|]. by destruct t, enable.
Qed.

Lemma toggle_conserves mk t pid accounts enable w w' :
  run_toggle t pid accounts enable w = Ok w' → solvent mk w → conserves mk w w'.
Proof.
  intros H. destruct accounts as [|ti [|oi signers]]; [by destruct t..|].
  apply toggle_Ok in H as (s & tlv & Hs & _ & _ & _ & Ht & ->).
  apply (conserves_write_tidy mk w ti s _ Hs). intros He.
  by destruct (toggled_account t enable s tlv (account_at_ok _ _ _ Hs) He Ht) as (? & ? & ? & ? & _).
Qed.
End toggles.

(** ** Properties *)
Section properties.
Context (rt : Runtime).
Implicit Types (w : world) (u : update_op).
#[local] Existing Instance up_ext.
#[local] Existing Instance toggle_ext.

(** The arguments of an update fit their types. *)
Definition update_op_ok u : Prop :=
  match u with
  | UpdateMetadataPointerOp k | UpdateGroupPointerOp k | UpdateGroupMemberPointerOp k
  | UpdateTransferHookOp k => in_uint 256 k
  | PauseOp _ | UpdateDefaultStateOp _ => True
  | UpdateRateOp r =>
      in_sint 16 r ∧ ∀ clk, clock_get = Ok clk → in_sint 64 (unix_timestamp clk)
  | UpdateMultiplierOp mult t => length mult = 8%nat ∧ in_sint 64 t
  end.

Lemma in_sint_ok n z : (1 ≤ n)%nat → in_sint (8 * Z.of_nat n) z → c_ok (sint n) z.
Proof.
  unfold in_sint. intros Hn [H1 H2].
  change (- 2 ^ (8 * Z.of_nat n) ≤ 2 * z < 2 ^ (8 * Z.of_nat n)).
  assert (2 ^ (8 * Z.of_nat n) = 2 * 2 ^ (8 * Z.of_nat n - 1)) as ->; [|lia].
  rewrite <-Z.pow_succ_r by lia. f_equal. lia.
Qed.

Lemma update_value_ok u pid (e e' : up_type (describe_update u)) : update_op_ok u →
  c_ok ext_codec e → up_next (describe_update u) pid e e' → c_ok ext_codec e'.
Proof.
  destruct u as [k|k|k|k|b|r|mult t|s]; cbn [update_op_ok describe_update up_next up_type up_ext];
    intros Hu He Hn.
  - subst e'. split; [apply He|exact Hu].
  - subst e'. split; [apply He|exact Hu].
  - subst e'. split; [apply He|exact Hu].
  - destruct Hn as [_ ->]. split; [apply He|exact Hu].
  - subst e'. split; [apply He|]. by destruct b.
  - destruct Hn as (clk & avg & Hc & Havg & ->). destruct Hu as [Hr Ht]. specialize (Ht _ Hc).
    destruct He as (H1 & H2 & _).
    assert (in_sint 16 avg) as Ha.
    { unfold time_weighted_average_rate in Havg.
      repeat (apply bind_Some in Havg as (? & _ & Havg)). by apply to_sint_Some in Havg as [-> ?]. }
    refine (conj H1 (conj H2 (conj _ (conj _ _)))); (apply in_sint_ok; [lia|done]).
  - destruct Hn as (clk & _ & _ & ->). destruct Hu as [Hl Ht], He as (H1 & H2 & H3 & H4).
    refine (conj H1 (conj _ (conj _ Hl))).
    + unfold schedule_multiplier. cbn. by repeat case_match.
    + apply in_sint_ok; [lia|]. change (in_sint 64 (if t <? 0 then 0 else t)).
      case_match; [|exact Ht]. split; [apply Z.leb_le|apply Z.ltb_lt]; vm_compute; reflexivity.
  - destruct Hn as [_ ->]. by destruct s.
Qed.

(** C36: the pointers, the hook program, the pause flag, the interest rate, the UI
    multiplier and the default state of a mint are changed by the authority of the
    extension (for the default state, the freeze authority) alone, to the value
    asked for; the hook is never the token program; and nothing else of the mint
    changes, nor any other account. *)
Theorem extension_update_effect u pid mi ai signers w w' : update_op_ok u →
  up_run (describe_update u) pid (mi :: ai :: signers) w = Ok w' →
  ∃ m m' (e e' : up_type (describe_update u)),
    mint_at w (key mi) = Some m ∧ mint_at w' (key mi) = Some m' ∧
    get_mint_ext _ (tlv_data m) = Ok e ∧ get_mint_ext _ (tlv_data m') = Ok e' ∧
    up_authority (describe_update u) (base m) e = Some (key ai) ∧
    validate_owner [key mi] w pid (key ai) ai (data_len w ai) signers = Ok tt ∧
    up_next (describe_update u) pid e e' ∧ base m' = base m ∧
    (∀ X `{!Extension X}, TYPE X ≠ TYPE (up_type (describe_update u)) →
       get_mint_ext X (tlv_data m') = get_mint_ext X (tlv_data m)) ∧
    ∀ k, k ≠ key mi → get_account w' k = get_account w k.
Proof.
  intros Hu (m & e & e' & Hm & He & Ha & Hv & Hn & ->)%update_Ok.
  pose proof He as Hok. apply get_extension_ok in Hok.
  destruct (put_mint_ext_ok m e e') as [Hm' He'];
    [by eapply mint_at_ok|done|exact (update_value_ok u pid e e' Hu Hok Hn)|].
  exists m, (put_mint_ext e' m), e, e'. split_and!; try done.
  - by apply mint_at_write.
  - intros X HX HT. unfold put_mint_ext. cbn [tlv_data with_tlv].
    by rewrite (get_put_extension_ne _ e).
  - intros k Hk. unfold write_mint. by rewrite get_set_data, decide_False.
Qed.

(** The CPI guard and the memo requirement of an account are switched by its owner
    alone, the guard only by a top-level instruction, and nothing but the flag
    changes. *)
Theorem toggle_effect t pid ti oi signers enable w w' :
  run_toggle t pid (ti :: oi :: signers) enable w = Ok w' →
  ∃ s, account_at w (key ti) = Some s ∧ key oi = acc_owner (base s) ∧
    validate_owner [key ti] w pid (key oi) oi (data_len w oi) signers = Ok tt ∧
    (t = GuardToggle → in_cpi = false) ∧
    (∀ k, k ≠ key ti → get_account w' k = get_account w k) ∧
    (has_entries (tlv_data s) → ∃ s', account_at w' (key ti) = Some s' ∧ base s' = base s ∧
       has_entries (tlv_data s') ∧ withheld s' = withheld s ∧
       get_account_ext (toggle_type t) (tlv_data s') = Ok (toggle_value t enable)).
Proof.
  intros (s & tlv & Hs & Ho & Hv & Hc & Ht & ->)%toggle_Ok. exists s. split_and!; try done.
  - intros k Hk. unfold write_account. by rewrite get_set_data, decide_False.
  - intros He. destruct (toggled_account t enable s tlv (account_at_ok _ _ _ Hs) He Ht)
      as (H1 & H2 & H3 & H4 & H5). eexists. split; [by apply (account_at_write w ti)|]. done.
Qed.

(** The interest a mint has shown so far is averaged without overflow: as long as
    the clock does not run backwards, the average rate that an update records
    exists and lies between the old average and the old rate. *)
Theorem time_weighted_average_rate_bounds e now :
  c_ok ext_codec e → in_sint 64 now →
  ibc_initialization_timestamp e ≤ ibc_last_update_timestamp e ≤ now →
  ∃ r, time_weighted_average_rate e now = Some r ∧
    Z.min (ibc_pre_update_average_rate e) (ibc_current_rate e) ≤ r ≤
    Z.max (ibc_pre_update_average_rate e) (ibc_current_rate e).
Proof.
  intros (_ & H1 & H2 & _ & H3) Hnow Ht.
  change (- 2 ^ 64 ≤ 2 * ibc_initialization_timestamp e < 2 ^ 64) in H1.
  change (- 2 ^ 16 ≤ 2 * ibc_pre_update_average_rate e < 2 ^ 16) in H2.
  change (- 2 ^ 16 ≤ 2 * ibc_current_rate e < 2 ^ 16) in H3.
  apply time_weighted_average_rate_between; try done; unfold in_sint;
    change (16 - 1) with 15; change (64 - 1) with 63; lia.
Qed.
End properties.
