(* ===== verification/ConfidentialLedger.v ===== *)
(** * The confidential handlers and the ledger

    Only deposits and withdrawals change the balances that are in sight: they are
    the ledger's [Conceal] and [Reveal].  Every other handler writes encrypted
    balances, keys and flags, and the ledger keeps every share. *)
From S2P Require Import Prelude Codec Errors Runtime Pod State ExtensionType ExtensionData Tlv.
From S2P Require Import TlvFacts TlvAlloc StateExt PackedExt Fee Authority Transfer AccountFacts.
From S2P Require Import Supply AccountOps InitOps InitFacts Instruction TransferFeeOps SystemOps.
From S2P Require Import SystemFacts CiphertextOps ProofExtraction ConfidentialOps.
From S2P Require Import ConfidentialTransferOps ConfidentialFeeOps ConfidentialMintBurnOps.
From S2P Require Import ConfidentialFacts Unborn LedgerSpec Ledger LedgerFacts InitLedger.
From S2P Require Import InitLedger TransferFeeFacts ExtensionFacts.

(** The sizes of the encrypted data, fixed by the cryptography. *)
Definition crypto_sizes (rt : Runtime) : Prop :=
  elgamal_pubkey_len = 32%nat ∧ elgamal_ciphertext_len = 64%nat ∧ ae_ciphertext_len = 36%nat.

(** ** Writes the ledger does not see *)
Section kept.
Context `{rt : Runtime}.
Implicit Types (w : world) (i : AccountInfo) (mk : Pubkey).
Implicit Types (st : PodStateMut PodAccount) (m : PodStateMut PodMint).

(** The tokens of the account are kept. *)
Definition kept st st' : Prop :=
  state_ok PodAccount st → state_ok PodAccount st' ∧ base st' = base st ∧
    withheld st' = withheld st ∧ (has_entries (tlv_data st) → has_entries (tlv_data st')).

Lemma kept_trans st1 st2 st3 : kept st1 st2 → kept st2 st3 → kept st1 st3.
Proof.
  intros H1 H2 Hok. destruct (H1 Hok) as (Hok2 & E2 & W2 & F2), (H2 Hok2) as (Hok3 & E3 & W3 & F3).
  split; [done|]. split; [congruence|]. split; [congruence|auto].
Qed.

Lemma kept_put V `{!Extension V} (x v : V) st : get_account_ext V (tlv_data st) = Ok x →
  TYPE V ≠ ExtensionType.Uninitialized → TYPE V ≠ ExtensionType.TransferFeeAmount →
  kept st (put_account_ext v st).
Proof.
  intros Hx HU HT Hok. split; [exact (state_ok_put st x v Hok Hx)|]. split; [done|].
  split; [exact (withheld_put_ne st x v Hx HT)|]. by apply (has_entries_put PodAccount x).
Qed.

Lemma kept_conserves mk w i st st' : account_at w (key i) = Some st → kept st st' →
  conserves mk w (write_account w i st').
Proof.
  intros Hst Hk. destruct (Hk (account_at_ok _ _ _ Hst)) as (Hok & Hb & Hw & He).
  apply (conserves_write mk w i st); rewrite ?Hb; try done. by apply share_same; rewrite ?Hb.
Qed.

Lemma put_conserves mk V `{!Extension V} w i st (x v : V) : account_at w (key i) = Some st →
  get_account_ext V (tlv_data st) = Ok x →
  TYPE V ≠ ExtensionType.Uninitialized → TYPE V ≠ ExtensionType.TransferFeeAmount →
  conserves mk w (write_account w i (put_account_ext v st)).
Proof. intros Hst Hx HU HT. apply (kept_conserves mk w i st); [done|by eapply kept_put]. Qed.

(** A change of the balance that is in sight. *)
Section amount.
Context mk w i st st' (v : Z).
Hypothesis Hst : account_at w (key i) = Some st.
Hypothesis Hk : kept (with_base (set_amount v (base st)) st) st'.
Hypothesis Hv : in_uint 64 v.

Lemma amount_kept : state_ok PodAccount st' ∧ base st' = set_amount v (base st) ∧
  withheld st' = withheld st ∧ (has_entries (tlv_data st) → has_entries (tlv_data st')).
Proof using Hst Hk Hv.
  pose proof (account_at_ok _ _ _ Hst) as Hok. apply Hk.
  apply state_ok_base; [done| |done]. apply set_amount_ok; [apply Hok|done].
Qed.

Lemma amount_conserves : acc_mint (base st) ≠ mk → conserves mk w (write_account w i st').
Proof using Hst Hk Hv.
  intros Hmk. destruct amount_kept as (Hok & Hb & Hw & He).
  apply (conserves_write mk w i st); rewrite ?Hb; try done.
  by rewrite !share_other by (rewrite ?Hb; exact Hmk).
Qed.

Lemma amount_tidy : (∀ k, tidy mk (get_account w k)) →
  ∀ k, tidy mk (get_account (write_account w i st') k).
Proof using Hst Hk Hv.
  destruct amount_kept as (Hok & Hb & Hw & He). by apply (tidy_write mk w i st); rewrite ?Hb.
Qed.

Lemma amount_ledger : info_owner w i = id → acc_mint (base st) = mk →
  shares (ledger_of mk w) (key i) = (Pod.amount (base st), withheld st) ∧
  ledger_of mk (write_account w i st') ≡ set_shares (key i) (v, withheld st) (ledger_of mk w).
Proof using Hst Hk Hv.
  intros Ho Hmk. destruct amount_kept as (Hok & Hb & Hw & He).
  split; [by rewrite (share_at mk w (key i) st), share_of|].
  rewrite (ledger_write mk w i st st' Hst Hok Ho).
  rewrite (share_of mk st') by (rewrite Hb; exact Hmk). by rewrite Hb, Hw.
Qed.
End amount.

Lemma reveal_refines mk w i st st' n : account_at w (key i) = Some st → info_owner w i = id →
  kept (with_base (set_amount (Pod.amount (base st) + n) (base st)) st) st' →
  in_uint 64 (Pod.amount (base st) + n) → acc_mint (base st) = mk →
  refines mk [Reveal (key i) n] w (write_account w i st').
Proof.
  intros Hst Ho Hk Hn Hmk. split; [|by eapply amount_tidy].
  destruct (amount_ledger mk w i st st' _ Hst Hk Hn Ho Hmk) as [Es El].
  cbn [run apply]. rewrite Es. cbn [fst snd]. unfold checked_add. rewrite to_uint_in by done.
  cbn. constructor. by symmetry.
Qed.

Lemma conceal_refines mk w i st st' n : account_at w (key i) = Some st → info_owner w i = id →
  kept (with_base (set_amount (Pod.amount (base st) - n) (base st)) st) st' →
  in_uint 64 (Pod.amount (base st) - n) → acc_mint (base st) = mk →
  refines mk [Conceal (key i) n] w (write_account w i st').
Proof.
  intros Hst Ho Hk Hn Hmk. split; [|by eapply amount_tidy].
  destruct (amount_ledger mk w i st st' _ Hst Hk Hn Ho Hmk) as [Es El].
  cbn [run apply]. rewrite Es. cbn [fst snd]. unfold checked_sub. rewrite to_uint_in by done.
  cbn. constructor. by symmetry.
Qed.

(** An extension that is not about fees, added to an account. *)
Lemma kept_init V `{!Extension V} ov (v : V) st tlv : has_entries (tlv_data st) →
  TYPE V ≠ ExtensionType.Uninitialized → TYPE V ≠ ExtensionType.TransferFeeAmount →
  in_uint 16 (Z.of_nat (ext_size V)) → init_extension PodAccount V ov (tlv_data st) = Ok tlv →
  kept st (put_account_ext v (with_tlv tlv st)).
Proof.
  intros He HU HT Hsz Hi. apply (kept_trans _ (with_tlv tlv st)).
  - pose proof (init_extension_length PodAccount V _ _ _ Hi) as Hl.
    intros Hok. split; [by apply state_ok_with_tlv|].
    split; [done|]. split; [|intros _; by eapply (has_entries_init PodAccount V)].
    unfold withheld. cbn [tlv_data with_tlv].
    assert (∀ x, get_account_ext TransferFeeAmount tlv = Ok x ↔
      get_account_ext TransferFeeAmount (tlv_data st) = Ok x) as Hg.
    { intros x. apply (get_init_other PodAccount V TransferFeeAmount ov); done. }
    destruct (get_account_ext TransferFeeAmount tlv) as [y| |].
    1: by rewrite (proj1 (Hg y) eq_refl).
    all: destruct (get_account_ext TransferFeeAmount (tlv_data st)) as [y| |]; try done;
      by discriminate (proj2 (Hg y) eq_refl).
  - apply (kept_put V ext_default); [|done..].
    exact (get_init_extension PodAccount V HU Hsz _ _ _ He (ext_default_ok V) Hi).
Qed.

Lemma tidy_entries mk w i st : solvent mk w → account_at w (key i) = Some st →
  info_owner w i = id → has_entries (tlv_data st).
Proof. intros [_ H] Hst Ho. apply (H (key i) Ho). by apply account_at_Some. Qed.
End kept.

(** ** The sizes of the extensions *)
Section sizes.
Context `{rt : Runtime}.
Hypothesis sizes : crypto_sizes rt.

Lemma confidential_sizes :
  in_uint 16 (Z.of_nat (ext_size ConfidentialTransferMint)) ∧
  in_uint 16 (Z.of_nat (ext_size ConfidentialTransferAccount)) ∧
  in_uint 16 (Z.of_nat (ext_size ConfidentialTransferFeeConfig)) ∧
  in_uint 16 (Z.of_nat (ext_size ConfidentialTransferFeeAmount)) ∧
  in_uint 16 (Z.of_nat (ext_size ConfidentialMintBurn)).
Proof using sizes.
  destruct sizes as (Ek & Ec & Ea). change (2 ^ 16) with 65536.
  change (ext_size ConfidentialTransferMint) with (32 + (1 + elgamal_pubkey_len))%nat.
  change (ext_size ConfidentialTransferAccount) with
    (1 + (elgamal_pubkey_len + (elgamal_ciphertext_len + (elgamal_ciphertext_len +
     (elgamal_ciphertext_len + (ae_ciphertext_len + (1 + (1 + (8 + (8 + (8 + 8)))))))))))%nat.
  change (ext_size ConfidentialTransferFeeConfig) with
    (32 + (elgamal_pubkey_len + (1 + elgamal_ciphertext_len)))%nat.
  change (ext_size ConfidentialTransferFeeAmount) with elgamal_ciphertext_len.
  change (ext_size ConfidentialMintBurn) with (elgamal_ciphertext_len + (ae_ciphertext_len +
    (elgamal_pubkey_len + elgamal_ciphertext_len)))%nat.
  rewrite Ek, Ec, Ea. unfold in_uint. change (2 ^ 16) with 65536. lia.
Qed.
End sizes.

(** An extension of a mint that is not about public fees. *)
Lemma init_confidential_mint `{rt : Runtime} mk w i m V `{!Extension V} (v : V) tlv :
  in_uint 16 (Z.of_nat (ext_size V)) → TYPE V ≠ ExtensionType.Uninitialized →
  TYPE V ≠ ExtensionType.TransferFeeAmount → TYPE V ≠ ExtensionType.TransferFeeConfig →
  unpack_uninitialized PodMint (info_data w i) = Ok m →
  init_extension PodMint V true (tlv_data m) = Ok tlv →
  conserves mk w (write_mint w i (put_mint_ext v (with_tlv tlv m))).
Proof.
  intros Hsz HU HA HC Hm Hi.
  exact (proj2 (init_mint_extension_conserves mk w i m V true v tlv HU Hsz (ext_default_ok V)
    (clean_other V _ HA HC) (clean_other V _ HA HC) Hm Hi)).
Qed.

(** ** [confidential_transfer] *)
Section confidential_transfer.
Import confidential_transfer.
Context `{rt : Runtime} `{sp : !SystemProgram} `{curve : Curve} `{zk : !ZkSdk}.
Implicit Types (w : world) (accounts : list AccountInfo) (mk : Pubkey).
Implicit Types (st : PodStateMut PodAccount).

Lemma confidential_initialize_mint_conserves mk accounts a b k w w' : crypto_sizes rt →
  process_initialize_mint accounts a b k w = Ok w' → conserves mk w w'.
Proof.
  intros Hsz H. destruct accounts as [|mi rest]; [done|].
  apply bind_Ok in H as (? & [= <-] & (u & _ & (? & [_ ->]%borrow_Ok & (m & Hm & (tlv & Hi & [= <-])
    %bind_Ok)%bind_Ok)%bind_Ok)%bind_Ok).
  destruct (confidential_sizes Hsz) as (Hs & _).
  by eapply (init_confidential_mint mk w mi m ConfidentialTransferMint _ tlv).
Qed.

Lemma process_update_mint_conserves mk accounts b k w w' :
  process_update_mint accounts b k w = Ok w' → conserves mk w w'.
Proof.
  intros H. destruct accounts as [|mi [|ai rest]]; [done..|]. unfold process_update_mint in H.
  do 2 (cbn [next_account_info] in H; rewrite Ok_bind in H).
  apply bind_Ok in H as (m & (_ & _ & Hm)%open_mint_Ok & (e & He & (a & _ & (u & _ & (u1 & _ & [= <-])
    %bind_Ok)%bind_Ok)%bind_Ok)%bind_Ok).
  by eapply put_mint_ext_conserves.
Qed.

Lemma process_approve_account_conserves mk accounts w w' :
  process_approve_account accounts w = Ok w' → conserves mk w w'.
Proof.
  intros H. destruct accounts as [|ti [|mi [|ai rest]]]; [done..|].
  unfold process_approve_account in H. do 3 (cbn [next_account_info] in H; rewrite Ok_bind in H).
  apply bind_Ok in H as (st & (_ & _ & Hst)%open_account_Ok & (u & _ & (r & _ & (cm & _ & (a & _ & H)
    %bind_Ok)%bind_Ok)%bind_Ok)%bind_Ok).
  destruct (_ && _); [|done]. apply bind_Ok in H as (c & Hc & [= <-]).
  by eapply put_conserves.
Qed.

(** The handlers of the owner that rewrite the encrypted account. *)
Lemma owned_conserves mk pid held w ti ai signers st (c c' : ConfidentialTransferAccount) :
  open_owned pid held w ti ai signers = Ok st →
  get_account_ext ConfidentialTransferAccount (tlv_data st) = Ok c →
  conserves mk w (write_account w ti (put_account_ext c' st)).
Proof. intros (_ & Hst & _)%open_owned_Ok Hc. by eapply put_conserves. Qed.

Lemma process_empty_account_conserves mk pid accounts off w w' :
  process_empty_account pid accounts off w = Ok w' → conserves mk w w'.
Proof.
  intros H. destruct accounts as [|ti rest]; [done|]. unfold process_empty_account in H.
  cbn [next_account_info] in H. rewrite Ok_bind in H.
  apply bind_Ok in H as ([ctx accs] & _ & ([ai signers] & _ & (st & Hst & (c & Hc & (u & _ & (u1 & _ &
    (u2 & _ & [= <-])%bind_Ok)%bind_Ok)%bind_Ok)%bind_Ok)%bind_Ok)%bind_Ok).
  by eapply owned_conserves.
Qed.

Lemma process_apply_pending_balance_conserves mk pid accounts n new w w' :
  process_apply_pending_balance pid accounts n new w = Ok w' → conserves mk w w'.
Proof.
  intros H. destruct accounts as [|ti [|ai signers]]; [done..|].
  unfold process_apply_pending_balance in H. do 2 (cbn [next_account_info] in H; rewrite Ok_bind in H).
  apply bind_Ok in H as (st & Hst & (c & Hc & (av & _ & [= <-])%bind_Ok)%bind_Ok).
  by eapply owned_conserves.
Qed.

Lemma process_allow_confidential_credits_conserves mk pid accounts b w w' :
  process_allow_confidential_credits pid accounts b w = Ok w' → conserves mk w w'.
Proof.
  intros H. destruct accounts as [|ti [|ai signers]]; [done..|].
  unfold process_allow_confidential_credits in H.
  do 2 (cbn [next_account_info] in H; rewrite Ok_bind in H).
  apply bind_Ok in H as (st & Hst & (c & Hc & [= <-])%bind_Ok). by eapply owned_conserves.
Qed.

Lemma process_allow_non_confidential_credits_conserves mk pid accounts b w w' :
  process_allow_non_confidential_credits pid accounts b w = Ok w' → conserves mk w w'.
Proof.
  intros H. destruct accounts as [|ti [|ai signers]]; [done..|].
  unfold process_allow_non_confidential_credits in H.
  do 2 (cbn [next_account_info] in H; rewrite Ok_bind in H).
  apply bind_Ok in H as (st & Hst & (c & Hc & [= <-])%bind_Ok). by eapply owned_conserves.
Qed.

Lemma process_deposit_refines mk pid ti mi ai signers n dec w w' :
  process_deposit pid (ti :: mi :: ai :: signers) n dec w = Ok w' →
  refines mk (if decide (key mi = mk) then [Conceal (key ti) n] else []) w w'.
Proof.
  intros (m & st & c & lo & hi & c' & _ & _ & _ & _ & _ & Ho & Hst & _ & _ & _ & Hmi & _ & Hn & Hc &
    _ & _ & _ & ->)%process_deposit_Ok.
  assert (kept (with_base (set_amount (Pod.amount (base st) - n) (base st)) st)
    (put_account_ext c' (with_base (set_amount (Pod.amount (base st) - n) (base st)) st))) as Hk.
  { by apply (kept_put _ c). }
  case_decide; [eapply conceal_refines; try done; congruence|].
  apply conserves_refines. eapply amount_conserves; try done. congruence.
Qed.

Lemma process_withdraw_refines mk pid ti mi accounts n dec new o1 o2 w w' :
  process_withdraw pid (ti :: mi :: accounts) n dec new o1 o2 w = Ok w' →
  refines mk (if decide (key mi = mk) then [Reveal (key ti) n] else []) w w'.
Proof.
  intros (ctx & ai & signers & m & st & c & av & _ & _ & _ & _ & _ & _ & Ho & Hst & _ & _ & _ & Hmi &
    _ & Hc & _ & _ & _ & _ & Hn & ->)%process_withdraw_Ok.
  set (st1 := with_base (set_amount (Pod.amount (base st) + n) (base st)) st).
  change (with_base _ (put_account_ext ?c st)) with (put_account_ext c st1).
  assert (kept st1 (put_account_ext (set_available_balance av new c) st1)) as Hk
    by by apply (kept_put _ c).
  case_decide; [eapply reveal_refines; try done; congruence|].
  apply conserves_refines. eapply amount_conserves; try done. congruence.
Qed.

(** *** Transfers *)
Lemma source_for_transfer_conserves mk pid si mi ai signers k lo hi ns new w w' :
  source_for_transfer pid si mi ai signers k lo hi ns new w = Ok w' → conserves mk w w'.
Proof.
  intros (st & c & ? & ? & _ & Hst & _ & _ & _ & _ & Hc & _ & _ & _ & _ & _ & ->)%source_for_transfer_Ok.
  by eapply put_conserves.
Qed.

Lemma destination_conserves mk di mi ctx w w' :
  process_destination_for_transfer di mi ctx w = Ok w' → conserves mk w w'.
Proof.
  intros ([c' st] & Hd & [= <-])%bind_Ok.
  apply destination_for_transfer_Ok in Hd as (c & _ & Hst & _ & _ & Hc & _).
  by eapply put_conserves.
Qed.

Lemma destination_with_fee_conserves mk di mi ctx self w w' :
  process_destination_for_transfer_with_fee di mi ctx self w = Ok w' → conserves mk w w'.
Proof.
  intros (c' & st & Hd & H)%destination_with_fee_Ok.
  apply destination_for_transfer_Ok in Hd as (c & _ & Hst & _ & _ & Hc & _).
  destruct self; [subst; by eapply put_conserves|].
  destruct H as (e & lo & hi & wh & He & _ & ->). eapply kept_conserves; [exact Hst|].
  apply (kept_trans _ (put_account_ext (set_pending_balance lo hi c') st)).
  - by apply (kept_put _ c).
  - by apply (kept_put _ e).
Qed.

Lemma mark_transferring_conserves mk mi i w w' : mark_transferring mi i w = Ok w' →
  conserves mk w w'.
Proof. intros (st & x & Hst & Hx & ->)%mark_transferring_Ok. by eapply put_conserves. Qed.

Lemma confidential_hook_conserves mk hook si mi di ai signers w w' : hook_foreign rt →
  confidential_hook_call hook si mi di ai signers w = Ok w' → conserves mk w w'.
Proof.
  intros Hh (w1 & H1 & (w2 & H2 & (w3 & H3 & (w4 & H4 & H5)%bind_Ok)%bind_Ok)%bind_Ok)%bind_Ok.
  apply (mark_transferring_conserves mk) in H1, H2. apply Hh, (conserves_foreign mk) in H3.
  apply (unset_transferring_conserves mk) in H4, H5.
  repeat (eapply conserves_trans; [eassumption|]). apply conserves_refl.
Qed.

Lemma process_transfer_conserves mk pid accounts new a_lo a_hi o1 o2 fs fv o3 w w' :
  hook_foreign rt → process_transfer pid accounts new a_lo a_hi o1 o2 fs fv o3 w = Ok w' →
  conserves mk w w'.
Proof.
  intros Hh H. destruct accounts as [|si [|mi [|di accs]]]; [done..|].
  apply confidential_transfer_Ok in H as (m & cm & ai & signers & w1 & _ & _ & _ & _ & Hmove & Hhook).
  eapply conserves_trans with w1.
  - destruct (is_ok _).
    + apply transfer_with_fee_Ok in Hmove
        as (? & ? & ? & ? & ? & ? & w0 & _ & _ & _ & _ & _ & _ & _ & _ & _ & _ & Hs & Hd).
      eapply conserves_trans; [by eapply source_for_transfer_conserves|].
      by eapply destination_with_fee_conserves.
    + apply transfer_without_fee_Ok in Hmove as (? & w0 & _ & _ & _ & _ & Hs & Hd).
      eapply conserves_trans; [by eapply source_for_transfer_conserves|].
      by eapply destination_conserves.
  - destruct (get_program_id _ _); [by eapply confidential_hook_conserves|].
    subst. apply conserves_refl.
Qed.

(** *** Configuring accounts *)
Lemma process_configure_account_conserves mk pid accounts zero n source w w' : crypto_sizes rt →
  process_configure_account pid accounts zero n source w = Ok w' → solvent mk w →
  conserves mk w w'.
Proof.
  intros Hsz H Hsol. destruct accounts as [|ti [|mi rest]]; [done..|].
  unfold process_configure_account in H. do 2 (cbn [next_account_info] in H; rewrite Ok_bind in H).
  apply bind_Ok in H as ([pk accs] & _ & H). cbv zeta in H.
  apply bind_Ok in H as (st & (Ho & _ & Hst)%open_account_Ok & (u & _ & (u1 & _ & (r & _ & (cm & _ &
    (tlv & Hi & (st' & Hst' & [= <-])%bind_Ok)%bind_Ok)%bind_Ok)%bind_Ok)%bind_Ok)%bind_Ok).
  destruct (confidential_sizes Hsz) as (_ & Hs1 & _ & Hs2 & _).
  eapply kept_conserves; [exact Hst|]. pose proof (tidy_entries mk w ti st Hsol Hst Ho) as He.
  assert (kept st (put_account_ext (configured cm pk n zero) (with_tlv tlv st))) as Hk
    by by apply (kept_init ConfidentialTransferAccount false).
  destruct (is_ok _); [|by injection Hst' as <-].
  apply bind_Ok in Hst' as (tlv' & Hi' & [= <-]). eapply kept_trans; [exact Hk|].
  apply (kept_init ConfidentialTransferFeeAmount false); try done.
  by apply Hk; [exact (account_at_ok _ _ _ Hst)|].
Qed.

(** The account after it was given room for the extension. *)
Lemma realloc_for_registry_Ok ti pi si w w' :
  reallocate_for_configure_account_with_registry ti pi si w = Ok w' →
  w' = w ∨ ∃ st k, account_at w (key ti) = Some st ∧ state_ok PodAccount (grown k st) ∧
    ∀ k', let a := get_account w k' in let a' := get_account w' k' in
      data a' = (if decide (key ti = k') then state_bytes PodAccount (grown k st) else data a) ∧
      owner a' = owner a.
Proof.
  intros H.
  apply bind_Ok in H as (d & [_ ->]%borrow_Ok & (r & (st & Hst & ->)%unpack_ref_Ok & (ts & _ & H)
    %bind_Ok)%bind_Ok). cbv zeta in H.
  apply bind_Ok in H as (needed & _ & H).
  destruct (Nat.leb_spec needed (data_len w ti)) as [Hle|Hgt]; [left; by injection H|right].
  apply bind_Ok in H as (w1 & [_ ->]%resize_Ok & (rent & Hr & (w2 & Hw2 & H)%bind_Ok)%bind_Ok).
  apply bind_Ok in H as (d1 & [_ ->]%borrow_Ok & (d2 & Hd2 & [= <-])%bind_Ok).
  apply top_up_Ok in Hw2 as [_ Hw2']; [|unfold saturating_sub; lia].
  apply unpack_Ok in Hst as Hst'. destruct Hst' as [Hbytes Hok].
  unfold info_data in Hd2. rewrite (proj1 (Hw2' (key ti))), data_set_data, decide_True in Hd2 by done.
  unfold data_len, info_data in Hgt. unfold info_data in Hbytes, Hd2. rewrite Hbytes in Hd2, Hgt. rewrite firstn_all2 in Hd2 by lia.
  apply set_account_type_grown in Hd2 as (k & -> & Hlen & Hgok); [|done|done].
  exists st, k. split; [by apply account_at_Some|]. split; [done|]. intros k'.
  destruct (Hw2' k') as (D & O & _). split.
  - rewrite data_set_data. destruct (decide (key ti = k')) as [E|E]; [reflexivity|].
    rewrite D. by rewrite data_set_data, decide_False.
  - rewrite owner_set_data, O. by rewrite owner_set_data.
Qed.

Lemma process_configure_with_registry_conserves mk pid accounts w w' : crypto_sizes rt →
  process_configure_account_with_registry pid accounts w = Ok w' → solvent mk w →
  conserves mk w w'.
Proof.
  intros Hsz H Hsol. destruct accounts as [|ti [|mi [|ri rest]]]; [done..|].
  unfold process_configure_account_with_registry in H.
  do 3 (cbn [next_account_info] in H; rewrite Ok_bind in H).
  apply bind_Ok in H as (u & _ & (w1 & Hw1 & (d & _ & (reg & _ & H)%bind_Ok)%bind_Ok)%bind_Ok).
  assert (conserves mk w w1) as Hc.
  { destruct rest as [|pi rest]; [injection Hw1 as ->; apply conserves_refl|].
    apply bind_Ok in Hw1 as ([si ?] & _ & Hw1).
    apply realloc_for_registry_Ok in Hw1 as [->|(st & k & Hst & Hok & Hw)]; [apply conserves_refl|].
    revert Hsol. apply tidy_pointwise. intros k' Ht. destruct (Hw k') as [D O].
    destruct (decide (key ti = k')) as [<-|Hne]; [|by apply same_entry_data].
    apply account_at_Some in Hst.
    exact (grown_entry mk _ _ st (base st) k Hst eq_refl eq_refl eq_refl Hok D O Ht). }
  eapply conserves_trans; [exact Hc|]. eapply process_configure_account_conserves; [done|exact H|].
  apply conserves_refines in Hc. by eapply refines_solvent.
Qed.

(** ** The processor *)

(** What the instruction takes out of sight, of the mint [mk]. *)
Definition concealed mk accounts (input : list byte) : Z :=
  match accounts with
  | _ :: mi :: _ =>
      if key mi =? mk then
        match decode_instruction_type instruction_try_from input with
        | Ok Deposit =>
            match decode_instruction_data DepositInstructionData input with
            | Ok (n, _) => n
            | _ => 0
            end
        | Ok Withdraw =>
            match decode_instruction_data WithdrawInstructionData input with
            | Ok (n, _) => - n
            | _ => 0
            end
        | _ => 0
        end
      else 0
  | _ => 0
  end.

Definition moves_sight (a : action) : bool :=
  match a with Conceal _ _ | Reveal _ _ => true | _ => false end.

(** The instruction conceals and reveals what [concealed] reads from it. *)
Definition conceals mk (n : Z) w w' : Prop :=
  ∃ acts, forallb moves_sight acts = true ∧ net_concealed acts = n ∧ refines mk acts w w'.

Lemma conserves_conceals mk w w' : conserves mk w w' → conceals mk 0 w w'.
Proof. intros H%conserves_refines. by exists []. Qed.

Lemma process_instruction_conceals mk pid accounts input w w' :
  crypto_sizes rt → hook_foreign rt → process_instruction pid accounts input w = Ok w' →
  solvent mk w → conceals mk (concealed mk accounts input) w w'.
Proof.
  intros Hsz Hh (u & _ & (i & Hi & H)%bind_Ok)%bind_Ok Hsol. unfold concealed. rewrite Hi.
  assert (∀ (x y : Z), x = y → conceals mk x w w' → conceals mk y w w') as Heq by by intros x ? <-.
  assert (conserves mk w w' → conceals mk 0 w w') as Hc by apply conserves_conceals.
  destruct i.
  6: { apply bind_Ok in H as ([n dec] & Hd & H).
       destruct accounts as [|ti [|mi [|ai signers]]]; [done..|]. rewrite Hd.
       apply (process_deposit_refines mk) in H. eexists. split; [|split; [|exact H]].
       - by case_decide.
       - destruct (Z.eqb_spec (key mi) mk) as [E|E]; [rewrite decide_True by done|by rewrite decide_False].
         cbn. lia. }
  6: { apply bind_Ok in H as ([n [dec [new [o1 o2]]]] & Hd & H).
       destruct accounts as [|ti [|mi accs]]; [done..|]. rewrite Hd.
       apply (process_withdraw_refines mk) in H. eexists. split; [|split; [|exact H]].
       - by case_decide.
       - destruct (Z.eqb_spec (key mi) mk) as [E|E]; [rewrite decide_True by done|by rewrite decide_False].
         cbn. lia. }
  all: apply (Heq 0); [by destruct accounts as [|? [|mi ?]]; try case_match|]; apply Hc.
  - apply bind_Ok in H as ([a [b k]] & _ & H). by eapply confidential_initialize_mint_conserves.
  - apply bind_Ok in H as ([b k] & _ & H). by eapply process_update_mint_conserves.
  - apply bind_Ok in H as ([z [n o]] & _ & H). by eapply process_configure_account_conserves.
  - by eapply process_approve_account_conserves.
  - apply bind_Ok in H as (o & _ & H). by eapply process_empty_account_conserves.
  - apply bind_Ok in H as ([? [? [? [? [? ?]]]]] & _ & H). by eapply process_transfer_conserves.
  - apply bind_Ok in H as ([? ?] & _ & H). by eapply process_apply_pending_balance_conserves.
  - by eapply process_allow_confidential_credits_conserves.
  - by eapply process_allow_confidential_credits_conserves.
  - by eapply process_allow_non_confidential_credits_conserves.
  - by eapply process_allow_non_confidential_credits_conserves.
  - apply bind_Ok in H as ([? [? [? [? [? [? [? ?]]]]]]] & _ & H).
    by eapply process_transfer_conserves.
  - by eapply process_configure_with_registry_conserves.
Qed.
End confidential_transfer.

(** ** [confidential_transfer_fee] *)
Section confidential_transfer_fee.
Import confidential_transfer_fee.
Context `{rt : Runtime} `{curve : Curve} `{zk : !ZkSdk}.
Implicit Types (w : world) (accounts : list AccountInfo) (mk : Pubkey).
Implicit Types (st : PodStateMut PodAccount).

Lemma process_initialize_fee_config_conserves mk accounts a k w w' : crypto_sizes rt →
  process_initialize_confidential_transfer_fee_config accounts a k w = Ok w' → conserves mk w w'.
Proof.
  intros Hsz H. destruct accounts as [|mi rest]; [done|].
  apply bind_Ok in H as (? & [= <-] & (? & [_ ->]%borrow_Ok & (m & Hm & (tlv & Hi & [= <-])
    %bind_Ok)%bind_Ok)%bind_Ok).
  destruct (confidential_sizes Hsz) as (_ & _ & Hs & _).
  by eapply (init_confidential_mint mk w mi m ConfidentialTransferFeeConfig _ tlv).
Qed.

Lemma confidential_harvest_Ok held mk ti w x w' :
  harvest_from_account held mk ti w = Ok (x, w') →
  ∃ st e, (key ti ∉ held) ∧ account_at w (key ti) = Some st ∧ info_owner w ti = id ∧
    acc_mint (base st) = mk ∧
    get_account_ext ConfidentialTransferFeeAmount (tlv_data st) = Ok e ∧
    x = ctfa_withheld_amount e ∧
    w' = write_account w ti (put_account_ext (mkConfidentialTransferFeeAmount zeroed_ciphertext) st).
Proof.
  unfold harvest_from_account. destruct (borrow held w ti) as [d| |] eqn:Hb; [|done..].
  apply borrow_Ok in Hb as [Hh ->].
  intros (st & Hst%map_err_Ok & (u & Hm%throw_unless_key & (u1 & Ho%map_err_Ok%check_program_account_Ok &
    (e & He%map_err_Ok & [= <- <-])%bind_Ok)%bind_Ok)%bind_Ok)%bind_Ok.
  exists st, e. split_and!; try done. by apply account_at_Some.
Qed.

Lemma harvest_from_account_conserves mk held mk' ti w x w' :
  harvest_from_account held mk' ti w = Ok (x, w') → conserves mk w w'.
Proof.
  intros (st & e & _ & Hst & _ & _ & He & _ & ->)%confidential_harvest_Ok. by eapply put_conserves.
Qed.

Lemma harvest_from_account_frame held mk ti w x w' k : harvest_from_account held mk ti w = Ok (x, w') →
  k ∈ held → get_account w' k = get_account w k.
Proof.
  intros (st & e & Hh & _ & _ & _ & _ & _ & ->)%confidential_harvest_Ok Hk.
  unfold write_account. rewrite get_set_data, decide_False; [done|]. by intros <-.
Qed.

(** The loop keeps the ledger, the accounts that are borrowed, and the tokens of the
    destination that is open. *)
Lemma aggregate_withheld_conserves mk mk' di infos agg st w agg' st' w' :
  aggregate_withheld mk' di infos agg st w = Ok (agg', st', w') →
  kept st st' ∧ conserves mk w w' ∧
  get_account w' (key di) = get_account w (key di) ∧ get_account w' mk' = get_account w mk'.
Proof.
  revert agg st w. induction infos as [|i infos IH]; intros agg st w; cbn [aggregate_withheld].
  { intros [= _ <- <-]. split; [|split; [apply conserves_refl|done]].
    intros Hok. split_and!; done. }
  case_match.
  - intros (e & He%map_err_Ok & (a & _ & (H1 & H2)%IH)%bind_Ok)%bind_Ok. split; [|done].
    eapply kept_trans; [|exact H1]. by eapply kept_put.
  - destruct (harvest_from_account _ _ _ _) as [[x w1]| |] eqn:Hh; [|apply IH|done].
    intros (a & _ & (H1 & H2 & H3 & H4)%IH)%bind_Ok. split; [done|]. split; [|split].
    + eapply conserves_trans; [by eapply harvest_from_account_conserves|done].
    + rewrite H3. eapply harvest_from_account_frame; [exact Hh|]. right. by left.
    + rewrite H4. eapply harvest_from_account_frame; [exact Hh|]. by left.
Qed.

Lemma harvest_loop_conserves mk mk' infos agg w agg' w' :
  harvest_loop mk' infos agg w = Ok (agg', w') →
  conserves mk w w' ∧ get_account w' mk' = get_account w mk'.
Proof.
  revert agg w. induction infos as [|i infos IH]; intros agg w; cbn [harvest_loop].
  { intros [= _ <-]. split; [apply conserves_refl|done]. }
  destruct (harvest_from_account _ _ _ _) as [[x w1]| |] eqn:Hh; [|apply IH|done].
  intros (a & _ & (H1 & H2)%IH)%bind_Ok. split.
  - eapply conserves_trans; [by eapply harvest_from_account_conserves|done].
  - rewrite H2. eapply harvest_from_account_frame; [exact Hh|]. by left.
Qed.

Lemma open_fee_destination_Ok mi di w st : open_fee_destination mi di w = Ok st →
  info_owner w di = id ∧ key di ≠ key mi ∧ account_at w (key di) = Some st ∧
  acc_mint (base st) = key mi ∧ is_frozen (base st) = false.
Proof.
  intros (st' & (Ho & Hh & Hst)%open_account_Ok & (u & Hm%throw_unless_key & (u1 & Hf%throw_if_Ok &
    [= ->])%bind_Ok)%bind_Ok)%bind_Ok.
  split_and!; try done. intros E. apply Hh. rewrite E. by left.
Qed.

Lemma process_withdraw_withheld_from_mint_conserves mk pid accounts new o w w' :
  process_withdraw_withheld_tokens_from_mint pid accounts new o w = Ok w' → conserves mk w w'.
Proof.
  intros H. destruct accounts as [|mi [|di rest]]; [done..|].
  unfold process_withdraw_withheld_tokens_from_mint in H.
  do 2 (cbn [next_account_info] in H; rewrite Ok_bind in H).
  apply bind_Ok in H as ([ctx accs] & _ & ([ai signers] & _ & (m & (_ & _ & Hm)%open_mint_Ok & (a & _ &
    (u & _ & (cfg & Hcfg & (st & Hd & (c & Hc & H)%bind_Ok)%bind_Ok)%bind_Ok)%bind_Ok)%bind_Ok)%bind_Ok)
    %bind_Ok).
  apply bind_Ok in H as (u1 & _ & (u2 & _ & (u3 & _ & (av & _ & [= <-])%bind_Ok)%bind_Ok)%bind_Ok).
  apply open_fee_destination_Ok in Hd as (_ & Hne & Hst & _).
  eapply conserves_trans; [by eapply (put_conserves mk ConfidentialTransferAccount w di st c)|].
  eapply (put_mint_ext_conserves mk _ mi m _ cfg); [done|done| |done].
  rewrite <-Hm. apply mint_at_data. unfold write_account. by rewrite data_set_data, decide_False.
Qed.

Lemma process_withdraw_withheld_from_accounts_conserves mk pid accounts n new o w w' :
  process_withdraw_withheld_tokens_from_accounts pid accounts n new o w = Ok w' →
  conserves mk w w'.
Proof.
  intros H. destruct accounts as [|mi [|di rest]]; [done..|].
  unfold process_withdraw_withheld_tokens_from_accounts in H.
  do 2 (cbn [next_account_info] in H; rewrite Ok_bind in H).
  apply bind_Ok in H as ([ctx accs] & _ & ([ai infos] & _ & H)%bind_Ok). cbv zeta in H.
  apply bind_Ok in H as (m & _ & (a & _ & (u & _ & (st & Hd & (c & Hc & (u1 & _ & (cfg & _ & (u2 & _ &
    H)%bind_Ok)%bind_Ok)%bind_Ok)%bind_Ok)%bind_Ok)%bind_Ok)%bind_Ok).
  apply bind_Ok in H as ([[agg st'] w1] & Hagg & (u3 & _ & (c' & Hc' & (av & _ & [= <-])%bind_Ok)
    %bind_Ok)%bind_Ok).
  apply open_fee_destination_Ok in Hd as (_ & Hne & Hst & _).
  apply (aggregate_withheld_conserves mk) in Hagg as (Hk & Hc1 & Hdi & _).
  eapply conserves_trans; [exact Hc1|]. apply (kept_conserves mk w1 di st).
  - rewrite <-Hst. apply account_at_data. by rewrite Hdi.
  - eapply kept_trans; [exact Hk|]. by eapply kept_put.
Qed.

Lemma process_harvest_withheld_conserves mk accounts w w' :
  process_harvest_withheld_tokens_to_mint accounts w = Ok w' → conserves mk w w'.
Proof.
  intros H. destruct accounts as [|mi infos]; [done|].
  unfold process_harvest_withheld_tokens_to_mint in H. cbn [next_account_info] in H. rewrite Ok_bind in H.
  apply bind_Ok in H as (m & (_ & _ & Hm)%open_mint_Ok & (tc & _ & (cfg & Hcfg & (u & _ & H)%bind_Ok)
    %bind_Ok)%bind_Ok).
  apply bind_Ok in H as ([agg w1] & [Hc Hmi]%(harvest_loop_conserves mk) & [= <-]).
  eapply conserves_trans; [exact Hc|]. eapply (put_mint_ext_conserves mk _ mi m _ cfg); [done|done| |done].
  rewrite <-Hm. unfold mint_at. by rewrite Hmi.
Qed.

Lemma process_set_harvest_to_mint_conserves mk pid accounts b w w' :
  process_set_harvest_to_mint pid accounts b w = Ok w' → conserves mk w w'.
Proof.
  intros H. destruct accounts as [|mi [|ai signers]]; [done..|]. unfold process_set_harvest_to_mint in H.
  do 2 (cbn [next_account_info] in H; rewrite Ok_bind in H).
  apply bind_Ok in H as (m & (_ & _ & Hm)%open_mint_Ok & (cfg & Hcfg & (a & _ & (u & _ & [= <-])
    %bind_Ok)%bind_Ok)%bind_Ok).
  by eapply (put_mint_ext_conserves mk w mi m _ cfg).
Qed.

Lemma fee_instruction_conserves mk pid accounts input w w' : crypto_sizes rt →
  process_instruction pid accounts input w = Ok w' → conserves mk w w'.
Proof.
  intros Hsz (u & _ & (i & Hi & H)%bind_Ok)%bind_Ok. destruct i.
  - apply bind_Ok in H as ([a k] & _ & H). by eapply process_initialize_fee_config_conserves.
  - apply bind_Ok in H as ([o new] & _ & H). by eapply process_withdraw_withheld_from_mint_conserves.
  - apply bind_Ok in H as ([n [o new]] & _ & H).
    by eapply process_withdraw_withheld_from_accounts_conserves.
  - by eapply process_harvest_withheld_conserves.
  - by eapply process_set_harvest_to_mint_conserves.
  - by eapply process_set_harvest_to_mint_conserves.
Qed.
End confidential_transfer_fee.

(** ** [confidential_mint_burn] *)
Section confidential_mint_burn.
Import confidential_mint_burn.
Context `{rt : Runtime} `{curve : Curve} `{zk : !ZkSdk}.
Implicit Types (w : world) (accounts : list AccountInfo) (mk : Pubkey).

Lemma process_initialize_mint_burn_conserves mk accounts k d w w' : crypto_sizes rt →
  process_initialize_mint accounts k d w = Ok w' → conserves mk w w'.
Proof.
  intros Hsz H. destruct accounts as [|mi rest]; [done|].
  apply bind_Ok in H as (? & [= <-] & (u & _ & (? & [_ ->]%borrow_Ok & (m & Hm & (tlv & Hi & [= <-])
    %bind_Ok)%bind_Ok)%bind_Ok)%bind_Ok).
  destruct (confidential_sizes Hsz) as (_ & _ & _ & _ & Hs).
  by eapply (init_confidential_mint mk w mi m ConfidentialMintBurn _ tlv).
Qed.

(** A handler that only rewrites the extension of the mint. *)
Lemma mint_burn_conserves mk held w mi m (e e' : ConfidentialMintBurn) :
  open_mint held w mi = Ok m → get_mint_ext ConfidentialMintBurn (tlv_data m) = Ok e →
  conserves mk w (write_mint w mi (put_mint_ext e' m)).
Proof. intros (_ & _ & Hm)%open_mint_Ok He. by eapply (put_mint_ext_conserves mk w mi m _ e). Qed.

Lemma process_rotate_conserves mk pid accounts o w w' :
  process_rotate_supply_elgamal_pubkey pid accounts o w = Ok w' → conserves mk w w'.
Proof.
  intros H. destruct accounts as [|mi rest]; [done|]. unfold process_rotate_supply_elgamal_pubkey in H.
  cbn [next_account_info] in H. rewrite Ok_bind in H.
  apply bind_Ok in H as (m & Hm & (e & He & ([ctx accs] & _ & (u & _ & (u1 & _ & (u2 & _ & (u3 & _ &
    [= <-])%bind_Ok)%bind_Ok)%bind_Ok)%bind_Ok)%bind_Ok)%bind_Ok).
  by eapply mint_burn_conserves.
Qed.

Lemma process_update_decryptable_supply_conserves mk pid accounts d w w' :
  process_update_decryptable_supply pid accounts d w = Ok w' → conserves mk w w'.
Proof.
  intros H. destruct accounts as [|mi rest]; [done|]. unfold process_update_decryptable_supply in H.
  cbn [next_account_info] in H. rewrite Ok_bind in H.
  apply bind_Ok in H as (m & Hm & (e & He & (u & _ & [= <-])%bind_Ok)%bind_Ok).
  by eapply mint_burn_conserves.
Qed.

Lemma process_apply_pending_burn_conserves mk pid accounts w w' :
  process_apply_pending_burn pid accounts w = Ok w' → conserves mk w w'.
Proof.
  intros H. destruct accounts as [|mi rest]; [done|]. unfold process_apply_pending_burn in H.
  cbn [next_account_info] in H. rewrite Ok_bind in H.
  apply bind_Ok in H as (m & Hm & (e & He & (u & _ & (s & _ & [= <-])%bind_Ok)%bind_Ok)%bind_Ok).
  by eapply mint_burn_conserves.
Qed.

(** A handler that rewrites the encrypted account and the extension of the mint. *)
Lemma both_conserve mk w mi ti m st V `{!Extension V} W `{!Extension W} (c c' : V) (e e' : W) :
  mint_at w (key mi) = Some m → account_at w (key ti) = Some st → key ti ≠ key mi →
  get_account_ext V (tlv_data st) = Ok c → get_mint_ext W (tlv_data m) = Ok e →
  TYPE V ≠ ExtensionType.Uninitialized → TYPE V ≠ ExtensionType.TransferFeeAmount →
  TYPE W ≠ ExtensionType.TransferFeeConfig → TYPE W ≠ ExtensionType.Uninitialized →
  conserves mk w (write_mint (write_account w ti (put_account_ext c' st)) mi (put_mint_ext e' m)).
Proof.
  intros Hm Hst Hne Hc He HU HA HC HW.
  eapply conserves_trans; [by eapply (put_conserves mk V w ti st c)|].
  apply (put_mint_ext_conserves mk _ mi m _ e); [done|done| |done].
  rewrite <-Hm. apply mint_at_data. unfold write_account. by rewrite data_set_data, decide_False.
Qed.

Lemma process_confidential_mint_conserves mk pid accounts d w w' :
  process_confidential_mint pid accounts d w = Ok w' → conserves mk w w'.
Proof.
  intros H. destruct accounts as [|ti [|mi rest]]; [done..|].
  apply process_confidential_mint_Ok in H as (m & cm & e & ctx & rest' & st & c & c' & s & x & y & H).
  destruct H as (Hm & _ & _ & He & _ & Hne & Hst & _ & _ & _ & _ & Hc & H). destruct_and! H. subst w'.
  by eapply (both_conserve mk w mi ti m st ConfidentialTransferAccount ConfidentialMintBurn c _ e).
Qed.

Lemma process_confidential_burn_conserves mk pid accounts d w w' :
  process_confidential_burn pid accounts d w = Ok w' → conserves mk w w'.
Proof.
  intros H. destruct accounts as [|ti [|mi rest]]; [done..|].
  apply process_confidential_burn_Ok in H as (m & cm & e & ctx & ai & signers & st & c & av & pb & x & y &
    sx & sy & H).
  destruct H as (Hm & _ & _ & He & _ & Hne & Hst & _ & _ & _ & _ & Hc & H). destruct_and! H. subst w'.
  by eapply (both_conserve mk w mi ti m st ConfidentialTransferAccount ConfidentialMintBurn c _ e).
Qed.

Lemma mint_burn_instruction_conserves mk pid accounts input w w' : crypto_sizes rt →
  process_instruction pid accounts input w = Ok w' → conserves mk w w'.
Proof.
  intros Hsz (u & _ & (i & Hi & H)%bind_Ok)%bind_Ok. destruct i.
  - apply bind_Ok in H as ([k d] & _ & H). by eapply process_initialize_mint_burn_conserves.
  - apply bind_Ok in H as ([k o] & _ & H). by eapply process_rotate_conserves.
  - apply bind_Ok in H as (d & _ & H). by eapply process_update_decryptable_supply_conserves.
  - apply bind_Ok in H as (d & _ & H). by eapply process_confidential_mint_conserves.
  - apply bind_Ok in H as (d & _ & H). by eapply process_confidential_burn_conserves.
  - by eapply process_apply_pending_burn_conserves.
Qed.
End confidential_mint_burn.
