(* ===== verification/InterfaceFacts.v ===== *)
(** * What the metadata and group instructions do

    Each of them sets one extension of a mint and leaves everything else as it is:
    the abstract specification [extension_set], which the handlers of
    [InterfaceOps.v] implement on mints whose extension area is a list of entries.
    Every world of [Machine.v] has only such mints. *)
From S2P Require Import Prelude Codec Errors Runtime Pod State ExtensionType ExtensionData Tlv.
From S2P Require Import TlvFacts TlvAlloc StateExt Fee Authority Transfer AccountFacts InitOps.
From S2P Require Import TransferFeeOps TransferFeeFacts TlvSpec Unborn AccountAlloc InterfaceOps.
From S2P Require Import AccountAllocFacts LedgerSpec Ledger ConfidentialFacts UiAmountOps.

(** The mint at [k] has the extension [T] with the value [bs]; its base and its other
    extensions, and all other accounts, are those of [w]. *)
Definition extension_set `{Runtime} (T : ExtensionType) (bs : list byte) (k : Pubkey)
    (w w' : world) : Prop :=
  ∃ m m', mint_at w k = Some m ∧ mint_at w' k = Some m' ∧ base m' = base m ∧
    get_extension_bytes PodMint T (tlv_data m') = Ok bs ∧
    (∀ W v, W ≠ T → W ≠ ExtensionType.Uninitialized →
       get_extension_bytes PodMint W (tlv_data m') = Ok v ↔
       get_extension_bytes PodMint W (tlv_data m) = Ok v) ∧
    has_entries (tlv_data m') ∧ w' = set_data w k (state_bytes PodMint m').

Section extension_set.
Context `{rt : Runtime}.
Implicit Types (w : world) (mk k : Pubkey) (m : PodStateMut PodMint) (T : ExtensionType).
Implicit Types (es : list entry) (bs : list byte) (i : AccountInfo).

Lemma extension_set_others T bs k w w' k' : extension_set T bs k w w' → k ≠ k' →
  get_account w' k' = get_account w k'.
Proof. intros (m & m' & _ & _ & _ & _ & _ & _ & ->) Hk. by rewrite get_set_data, decide_False. Qed.

Lemma extension_set_typed {V} `{!Extension V} (v : V) k w w' : c_ok ext_codec v →
  extension_set (TYPE V) (c_write ext_codec v) k w w' →
  ∃ m', mint_at w' k = Some m' ∧ get_mint_ext V (tlv_data m') = Ok v.
Proof.
  intros Hv (m & m' & _ & Hm' & _ & Hb & _). exists m'. split; [done|].
  unfold get_mint_ext, get_extension. rewrite Hb, Ok_bind. apply pod_from_bytes_Ok.
  split; [apply c_write_length|]. symmetry. by apply c_read_write.
Qed.

Lemma bytes_entries es pad T bs : entries_ok es → T ≠ ExtensionType.Uninitialized →
  get_extension_bytes PodMint T (tlv_of es pad) = Ok bs ↔
  get_account_type T = AccountType.Mint ∧ find_entry T es = Some bs.
Proof.
  intros Hes HT. split.
  - intros H. assert (get_account_type T = AccountType.Mint) as HM.
    { apply bind_Ok in H as ([a b] & Hr & _). unfold get_extension_range in Hr. by case_decide. }
    split; [done|]. destruct (find_entry T es) as [y|] eqn:Hy.
    + rewrite (get_extension_bytes_found _ _ es y) in H by done. by injection H as <-.
    + apply find_entry_None in Hy.
      by destruct (get_extension_bytes_absent PodMint _ es pad Hes Hy HT) as [e He]; rewrite He in H.
  - intros [HM Hf]. by apply get_extension_bytes_found.
Qed.

(** An entry set in the list is the extension set on the mint. *)
Lemma set_entry_extension T bs k w m es pad pad' : mint_at w k = Some m →
  tlv_data m = tlv_of es pad → entries_ok es → T ≠ ExtensionType.Uninitialized →
  get_account_type T = AccountType.Mint → in_uint 16 (Z.of_nat (length bs)) →
  let m' := holding_entries PodMint (set_entry T bs es) pad' m in
  state_ok PodMint m' → extension_set T bs k w (set_data w k (state_bytes PodMint m')).
Proof.
  intros Hm Htlv Hes HT HM Hbs m' Hok. pose proof (set_entry_ok T bs es Hes HT Hbs) as Hes'.
  exists m, m'. split; [done|]. split.
  { apply mint_at_Some. rewrite get_set_data, decide_True by done. by apply unpack_state_bytes. }
  split; [done|]. cbn [m' holding_entries tlv_data with_tlv]. split.
  { apply bytes_entries; [done..|]. split; [done|]. apply find_set_entry. }
  split; [|split; [by eexists _, _|done]].
  intros W v HW HU. by rewrite Htlv, !bytes_entries, find_set_entry_ne.
Qed.

Lemma put_extension_set {V} `{!Extension V} (x v : V) i w m : mint_at w (key i) = Some m →
  get_mint_ext V (tlv_data m) = Ok x → TYPE V ≠ ExtensionType.Uninitialized →
  has_entries (tlv_data m) →
  extension_set (TYPE V) (c_write ext_codec v) (key i) w (write_mint w i (put_mint_ext v m)).
Proof.
  intros Hm Hx HU (es & pad & Htlv & Hes). pose proof (mint_at_ok _ _ _ Hm) as Hok.
  assert (Hok' : state_ok PodMint (put_mint_ext v m)).
  { apply state_ok_with_tlv; [done|]. by eapply length_put_extension. }
  rewrite Htlv in Hx. pose proof (proj1 (get_extension_entries PodMint V es pad x Hes HU) Hx)
    as (HT & y & Hy & Hlen%pod_from_bytes_Ok).
  apply (put_entries PodMint x v) in Hx as (es1 & u & es2 & -> & Hni & Hput & Hok2); [|done..].
  assert (set_entry (TYPE V) (c_write ext_codec v) (es1 ++ (TYPE V, u) :: es2) =
    es1 ++ (TYPE V, c_write ext_codec v) :: es2) as Hset.
  { unfold set_entry. by rewrite Hy, update_entry_split. }
  assert (put_mint_ext v m = holding_entries PodMint
    (set_entry (TYPE V) (c_write ext_codec v) (es1 ++ (TYPE V, u) :: es2)) pad m) as E.
  { unfold put_mint_ext, holding_entries. by rewrite Htlv, Hput, Hset. }
  unfold write_mint. rewrite E in Hok' |- *.
  eapply set_entry_extension; [done|done|done|done|done| |done].
  apply entries_ok_split in Hok2 as (_ & Hv & _). apply Hv.
Qed.

(** The ledger does not see it. *)
Lemma extension_set_conserves mk T bs k w w' : T ≠ ExtensionType.TransferFeeConfig →
  extension_set T bs k w w' → conserves mk w w'.
Proof.
  intros HT (m & m' & Hm & Hm' & Hb & _ & Hrest & He & ->).
  pose proof (mint_at_ok _ _ _ Hm') as Hok.
  apply (conserves_write_mint mk w (mkInfo k false false) m m'); [done..|].
  unfold issue_of, mint_withheld. rewrite Hb. f_equal.
  assert (∀ c, get_mint_ext TransferFeeConfig (tlv_data m') = Ok c ↔
    get_mint_ext TransferFeeConfig (tlv_data m) = Ok c) as Hg.
  { intros c. unfold get_mint_ext, get_extension. rewrite !bind_Ok.
    assert (TYPE TransferFeeConfig ≠ T) as HT' by (intros E; by apply HT).
    split; intros (v & Hv & Hc); exists v; (split; [|done]);
      revert Hv; by rewrite (Hrest _ v HT' ltac:(done)). }
  destruct (get_mint_ext TransferFeeConfig (tlv_data m)) as [c| |] eqn:Ec.
  1: by rewrite (proj2 (Hg c) eq_refl).
  all: destruct (get_mint_ext TransferFeeConfig (tlv_data m')) as [c| |]; [|done..];
    by discriminate (proj1 (Hg c) eq_refl).
Qed.
End extension_set.

(** The account is as long as the code says that its entries need. *)
Definition exact_len `{Runtime} (k : Pubkey) (w : world) : Prop :=
  ∃ m, mint_at w k = Some m ∧
    try_get_account_len PodMint (tlv_data m) = Ok (length (data (get_account w k))).

(** Only the data of the account at [k] changes; and if its area is a list of entries, one
    of the values [P] is set. *)
Definition sets `{Runtime} (T : ExtensionType) (P : list byte → Prop) (k : Pubkey)
    (w w' : world) : Prop :=
  (∃ d, w' = set_data w k d) ∧
  ∃ m, mint_at w k = Some m ∧
    (has_entries (tlv_data m) → ∃ bs, P bs ∧ extension_set T bs k w w').

Section sets.
Context `{rt : Runtime}.
Implicit Types (w : world) (mk k : Pubkey) (m : PodStateMut PodMint) (T : ExtensionType).
Implicit Types (es : list entry) (bs : list byte) (i : AccountInfo).

Lemma sets_conserves mk T P k w w' : T ≠ ExtensionType.TransferFeeConfig →
  sets T P k w w' → (∀ j, tidy mk (get_account w j)) → conserves mk w w'.
Proof.
  intros HT ([d ->] & m & Hm & He) Htidy.
  destruct (decide (owner (get_account w k) = id)) as [Ho|Ho].
  - destruct (Htidy k Ho) as (_ & _ & H & _). apply mint_at_Some in Hm.
    destruct (He (H m Hm)) as (bs & _ & Hs). by eapply extension_set_conserves.
  - unfold set_data. destruct (not_ours _ Ho) as (H1 & H2 & _).
    destruct (not_ours (mkAccount (lamports (get_account w k)) d (owner (get_account w k))) Ho)
      as (H3 & H4 & H5).
    apply conserves_set_account; [by rewrite H1, H3|by rewrite H2, H4|done].
Qed.

Lemma sets_others T P k w w' k' : sets T P k w w' → k ≠ k' →
  get_account w' k' = get_account w k'.
Proof. intros ([d ->] & _) Hk. by rewrite get_set_data, decide_False. Qed.

Lemma holding_exact_len T bs es pad m i w : entries_ok es → account_type m = type_byte PodMint →
  T ≠ ExtensionType.Uninitialized → in_uint 16 (Z.of_nat (length bs)) →
  let m' := holding_entries PodMint (set_entry T bs es) pad m in
  state_ok PodMint m' → length (state_bytes PodMint m') =
    adjust_len_for_multisig (166 + length (encode (set_entry T bs es))) →
  exact_len (key i) (set_data w (key i) (state_bytes PodMint m')).
Proof.
  intros Hes Ht HT Hbs m' Hok Hlen. exists m'. split.
  { apply mint_at_Some. rewrite get_set_data, decide_True by done. by apply unpack_state_bytes. }
  pose proof (set_entry_ok T bs es Hes HT Hbs) as [Hes' _].
  rewrite data_set_data, decide_True, Hlen by done. unfold try_get_account_len.
  cbn [m' holding_entries tlv_data with_tlv]. rewrite get_tlv_data_info_tlv_of, Ok_bind by done.
  cbn [extension_types used_len]. pose proof (find_set_entry T bs es) as Hf.
  destruct (set_entry T bs es) as [|e es']; [done|]. cbn [fmap list_fmap].
  by rewrite Nat.add_comm.
Qed.

Lemma resize_shape w k n w' : resize w k n = Ok w' → ∃ d, w' = set_data w k d.
Proof. unfold resize. destruct (resize_error _ _); [done|]. intros [= <-]. by eexists. Qed.

(** ** Values of fixed length *)
Section fixed.
Context {V : Type} `{HV : !Extension V}.
Hypothesis typed : TYPE V ≠ ExtensionType.Uninitialized.
Hypothesis belongs : get_account_type (TYPE V) = ACCOUNT_TYPE PodMint.

Lemma alloc_fixed_shape held i (v : V) ov w w' :
  alloc_and_serialize PodMint held i v ov w = Ok w' → ∃ d, w' = set_data w (key i) d.
Proof.
  intros (d & _ & (st & _ & (n & _ & (w1 & H1 & (b & _ & (b' & _ & (st' & _ & (tlv & _ & [= <-])
    %bind_Ok)%bind_Ok)%bind_Ok)%bind_Ok)%bind_Ok)%bind_Ok)%bind_Ok)%bind_Ok.
  unfold write_state. destruct (_ <? _)%nat.
  - apply resize_shape in H1 as [d' ->]. rewrite set_data_over. by eexists.
  - injection H1 as <-. by eexists.
Qed.

Lemma alloc_fixed_sets held i (v : V) w w' m : mint_at w (key i) = Some m → tlv_data m ≠ [] →
  alloc_and_serialize PodMint held i v false w = Ok w' →
  sets (TYPE V) (λ bs, bs = c_write ext_codec v) (key i) w w'.
Proof using typed belongs.
  intros Hm Hne H. split; [by eapply alloc_fixed_shape|]. exists m. split; [done|].
  intros (es & pad & Htlv & Hes). pose proof (mint_at_ok _ _ _ Hm) as Hok.
  pose proof (entries_account_type _ _ Hok Hne) as Ht.
  pose proof (proj1 (mint_at_Some _ _ _) Hm) as Hst.
  destruct (alloc_fixed_Ok PodMint typed belongs held i v w w' m es pad Hst Ht Htlv Hes H)
    as (Hu & _ & pad' & Hok' & _ & ->).
  eexists. split; [done|]. eapply set_entry_extension; [done..| |done].
  by rewrite c_write_length.
Qed.
End fixed.

(** ** Values of variable length *)
Section variable.
Context {V : Type} `{HV : !VariableExtension V} `{!VariableLenPackLaws V}.
Hypothesis typed : VTYPE V ≠ ExtensionType.Uninitialized.
Hypothesis belongs : get_account_type (VTYPE V) = ACCOUNT_TYPE PodMint.

Lemma alloc_variable_shape held i (v : V) ov w w' :
  alloc_and_serialize_variable_len_extension PodMint held i v ov w = Ok w' →
  ∃ d, w' = set_data w (key i) d.
Proof.
  intros (d & _ & (st & _ & (n & _ & (u & _ & H)%bind_Ok)%bind_Ok)%bind_Ok)%bind_Ok.
  unfold write_state in H. destruct (_ <? _)%nat.
  - apply bind_Ok in H as (w1 & [d' ->]%resize_shape & (b & _ & H)%bind_Ok).
    destruct (is_ok _).
    + apply bind_Ok in H as (st' & _ & (tlv & _ & [= <-])%bind_Ok).
      rewrite set_data_over. by eexists.
    + apply bind_Ok in H as (b' & _ & (st' & _ & (tlv & _ & [= <-])%bind_Ok)%bind_Ok).
      rewrite set_data_over. by eexists.
  - apply bind_Ok in H as (b & _ & (st' & _ & (tlv & _ & H)%bind_Ok)%bind_Ok).
    destruct (_ <? _)%nat.
    + apply resize_shape in H as [d' ->]. rewrite set_data_over. by eexists.
    + injection H as <-. by eexists.
Qed.

Lemma alloc_variable_sets held i (v : V) ov w w' m : mint_at w (key i) = Some m →
  tlv_data m ≠ [] → alloc_and_serialize_variable_len_extension PodMint held i v ov w = Ok w' →
  sets (VTYPE V) (λ bs, packs v bs ∧ exact_len (key i) w') (key i) w w'.
Proof using All.
  intros Hm Hne H. split; [by eapply alloc_variable_shape|]. exists m. split; [done|].
  intros (es & pad & Htlv & Hes). pose proof (mint_at_ok _ _ _ Hm) as Hok.
  pose proof (entries_account_type _ _ Hok Hne) as Ht.
  pose proof (proj1 (mint_at_Some _ _ _) Hm) as Hst.
  destruct (alloc_variable_Ok PodMint typed belongs held i v ov w w' m es pad Hst Ht Htlv Hes H)
    as (_ & bs & pad' & Hb & Hok' & Hlen & ->).
  pose proof Hb as (_ & _ & Hu). exists bs. split; [split; [done|]|].
  - by eapply holding_exact_len.
  - by eapply set_entry_extension.
Qed.
End variable.
End sets.

Section checks.
Context `{rt : Runtime}.
Implicit Types (w : world) (k : Pubkey) (m : PodStateMut PodMint) (T : ExtensionType).

Lemma bytes_not_empty T tlv bs : T ≠ ExtensionType.Uninitialized →
  get_extension_bytes PodMint T tlv = Ok bs → tlv ≠ [].
Proof.
  intros HT H ->. change [] with (tlv_of [] 0) in H.
  apply bytes_entries in H as [_ H]; [done| |done]. split; constructor.
Qed.

Lemma check_mint_authority_Ok V `{!Extension V} mi ai e w u :
  check_mint_authority V mi ai e w = Ok u → TYPE V ≠ ExtensionType.Uninitialized →
  info_owner w mi = id ∧ is_signer ai = true ∧
  ∃ m x, mint_at w (key mi) = Some m ∧ mint_authority (base m) = co_some (key ai) ∧
    get_mint_ext V (tlv_data m) = Ok x ∧ tlv_data m ≠ [].
Proof.
  intros (u1 & Ho%throw_unless_key & (d & [_ ->]%try_borrow_data_Ok & (r & Hr & (u2 & Hs%throw_unless &
    (u3 & Ha%throw_unless%bool_decide_eq_true & Hx%throw_unless)%bind_Ok)%bind_Ok)%bind_Ok)%bind_Ok)%bind_Ok HT.
  apply unpack_ref_Ok in Hr as (m & Hm & ->). cbn [ref_base ref_tlv] in *.
  split; [done|]. split; [done|].
  destruct (get_mint_ext V (tlv_data m)) as [x| |] eqn:E; [|done..].
  exists m, x. split; [by apply mint_at_Some|]. split; [done|]. split; [done|].
  apply bind_Ok in E as (bs & Hb & _). by eapply bytes_not_empty.
Qed.

Lemma check_update_authority_Ok e1 e2 ai k u : check_update_authority e1 e2 ai k = Ok u →
  is_signer ai = true ∧ k = key ai ∧ k ≠ Pubkey_default.
Proof.
  intros (u1 & Hs%throw_unless & (a & Ha%ok_or_Ok & Hk%throw_unless_key)%bind_Ok)%bind_Ok.
  unfold optional_get in Ha. destruct (Z.eqb_spec k Pubkey_default); [done|]. by injection Ha as ->.
Qed.
End checks.

(** ** Metadata *)
Section metadata.
Import token_metadata.
Context `{rt : Runtime} `{mi : MetadataInterface} `{!VariableLenPackLaws TokenMetadata}.
Implicit Types (w : world) (mk : Pubkey) (accounts : list AccountInfo) (md : TokenMetadata).

(** What an instruction leaves of the metadata. *)
Definition updated (i : TokenMetadataInstruction Field) md : option TokenMetadata :=
  match i with
  | UpdateField field value => Some (update field value md)
  | RemoveKey idempotent k => if (remove_key k md).2 || idempotent then Some (remove_key k md).1 else None
  | UpdateAuthority new_authority => Some (set_update_authority new_authority md)
  | Initialize _ _ _ | Emit _ _ => None
  end.

(** The metadata of the mint at [k] is set. *)
Definition metadata_sets md k w w' : Prop :=
  sets ExtensionType.TokenMetadata (λ bs, packs md bs ∧ exact_len k w') k w w'.

Lemma open_metadata_Ok mint ai w md : open_metadata mint ai w = Ok md →
  is_signer ai = true ∧ update_authority md = key ai ∧ update_authority md ≠ Pubkey_default ∧
  ∃ m, mint_at w (key mint) = Some m ∧ tlv_data m ≠ [] ∧
    get_variable_len_extension PodMint TokenMetadata (tlv_data m) = Ok md.
Proof.
  intros (d & [_ ->]%try_borrow_data_Ok & (r & Hr & (md' & Hmd & (u & (Hs & Hk & Hd)%check_update_authority_Ok &
    [= ->])%bind_Ok)%bind_Ok)%bind_Ok)%bind_Ok.
  apply unpack_ref_Ok in Hr as (m & Hm & ->). cbn [ref_tlv] in Hmd.
  do 3 (split; [done|]). exists m. split; [by apply mint_at_Some|]. split; [|done].
  apply bind_Ok in Hmd as (bs & Hb & _). exact (bytes_not_empty ExtensionType.TokenMetadata _ _ ltac:(done) Hb).
Qed.

Lemma write_metadata md i ov w w' m : mint_at w (key i) = Some m → tlv_data m ≠ [] →
  alloc_and_serialize_variable_len_extension PodMint [] i md ov w = Ok w' →
  metadata_sets md (key i) w w'.
Proof.
  intros Hm Hne H. assert (VTYPE TokenMetadata ≠ ExtensionType.Uninitialized) as Ht by discriminate.
  by apply (alloc_variable_sets Ht eq_refl [] i md ov w w' m).
Qed.

(** The instructions that change the metadata: its authority signs. *)
Lemma metadata_update_Ok pid accounts i w w' :
  match i with Initialize _ _ _ | Emit _ _ => False | _ => True end →
  process_instruction pid accounts i w = Ok w' →
  ∃ mint ai rest m old new, accounts = mint :: ai :: rest ∧ is_signer ai = true ∧
    update_authority old = key ai ∧ update_authority old ≠ Pubkey_default ∧
    mint_at w (key mint) = Some m ∧
    get_variable_len_extension PodMint TokenMetadata (tlv_data m) = Ok old ∧
    updated i old = Some new ∧ metadata_sets new (key mint) w w'.
Proof.
  intros Hi H. destruct accounts as [|mint [|ai rest]];
    [by destruct i|by destruct i|]. exists mint, ai, rest.
  destruct i as [|field value|idem k|new|]; [done| | | |done];
    unfold process_instruction, process_update_field, process_remove_key,
      process_update_authority in H;
    do 2 (cbn [next_account_info] in H; rewrite Ok_bind in H);
    apply bind_Ok in H as (old & (Hs & Ha & Hd & m & Hm & Hne & Hold)%open_metadata_Ok & H).
  - exists m, old, (update field value old). do 7 (split; [done|]). by eapply write_metadata.
  - destruct (remove_key k old) as [new found] eqn:Hr.
    apply bind_Ok in H as (u & Hf%throw_if_Ok & H). exists m, old, new.
    do 6 (split; [done|]). split; [|by eapply write_metadata].
    cbn [updated]. rewrite Hr. cbn [fst snd]. by destruct found, idem.
  - exists m, old, (set_update_authority new old). do 7 (split; [done|]). by eapply write_metadata.
Qed.

Lemma metadata_initialize_Ok pid accounts name symbol uri w w' :
  process_instruction pid accounts (Initialize name symbol uri) w = Ok w' →
  ∃ md_i ua mint ma rest m, accounts = md_i :: ua :: mint :: ma :: rest ∧ key md_i = key mint ∧
    is_signer ma = true ∧ info_owner w mint = id ∧ key ua ≠ Pubkey_default ∧
    mint_at w (key mint) = Some m ∧ mint_authority (base m) = co_some (key ma) ∧
    metadata_sets (new_metadata name symbol uri (key ua) (key mint)) (key mint) w w'.
Proof.
  intros H. destruct accounts as [|md_i [|ua [|mint [|ma rest]]]]; [done..|].
  unfold process_instruction, process_initialize in H.
  do 4 (cbn [next_account_info] in H; rewrite Ok_bind in H).
  apply bind_Ok in H as (u & Hk%throw_unless_key & (u1 & Hc & (a & Ha & H)%bind_Ok)%bind_Ok).
  apply check_mint_authority_Ok in Hc as (Ho & Hs & m & x & Hm & Hma & _ & Hne); [|done].
  unfold optional_from_coption in Ha. cbv zeta in H.
  exists md_i, ua, mint, ma, rest, m. do 4 (split; [done|]).
  destruct (Z.eqb_spec (key ua) Pubkey_default); [done|]. injection Ha as <-.
  do 3 (split; [done|]). rewrite <-Hk in Hm, H |- *. by eapply write_metadata.
Qed.

Lemma metadata_emit_Ok pid accounts start end_ w w' :
  process_instruction pid accounts (Emit start end_) w = Ok w' →
  accts w' = accts w ∧ ∃ mint rest m bs, accounts = mint :: rest ∧ info_owner w mint = pid ∧
    mint_at w (key mint) = Some m ∧
    get_extension_bytes PodMint ExtensionType.TokenMetadata (tlv_data m) = Ok bs ∧
    return_data w' = default (return_data w) (get_slice bs start end_).
Proof.
  intros H. destruct accounts as [|mint rest]; [done|]. unfold process_instruction, process_emit in H.
  cbn [next_account_info] in H. rewrite Ok_bind in H.
  apply bind_Ok in H as (u & Ho%throw_unless_key & (d & [_ ->]%try_borrow_data_Ok & (r & Hr & (bs & Hbs & H)
    %bind_Ok)%bind_Ok)%bind_Ok).
  apply unpack_ref_Ok in Hr as (m & Hm & ->). cbn [ref_tlv] in Hbs.
  assert (mint_at w (key mint) = Some m) by by apply mint_at_Some.
  destruct (get_slice bs start end_) as [range|] eqn:Hs; injection H as <-; (split; [done|]);
    exists mint, rest, m, bs; rewrite Hs; done.
Qed.

Lemma metadata_conserves mk pid accounts i w w' : process_instruction pid accounts i w = Ok w' →
  solvent mk w → conserves mk w w'.
Proof.
  intros H [_ Htidy].
  assert (∀ md k, metadata_sets md k w w' → conserves mk w w') as Hsets
    by (intros md k Hs; refine (sets_conserves mk _ _ _ _ _ _ Hs Htidy); discriminate).
  destruct i as [n s u|field value|idem k|a|st en].
  - apply metadata_initialize_Ok in H as (? & ? & ? & ? & ? & ? & _ & _ & _ & _ & _ & _ & _ & H).
    by apply Hsets in H.
  - apply metadata_update_Ok in H as (? & ? & ? & ? & ? & ? & _ & _ & _ & _ & _ & _ & _ & H);
      [by apply Hsets in H|done].
  - apply metadata_update_Ok in H as (? & ? & ? & ? & ? & ? & _ & _ & _ & _ & _ & _ & _ & H);
      [by apply Hsets in H|done].
  - apply metadata_update_Ok in H as (? & ? & ? & ? & ? & ? & _ & _ & _ & _ & _ & _ & _ & H);
      [by apply Hsets in H|done].
  - apply metadata_emit_Ok in H as [H _]. by apply conserves_accts.
Qed.
End metadata.

(** ** Groups *)
Section group.
Import token_group.
Context `{rt : Runtime} `{gi : GroupInterface}.
Implicit Types (w : world) (mk k : Pubkey) (accounts : list AccountInfo) (g : TokenGroup).

(** The group of the mint at [k], or its membership, is set. *)
Definition group_sets g k w w' : Prop :=
  sets ExtensionType.TokenGroup (λ bs, bs = c_write TokenGroup_codec g) k w w'.
Definition member_sets (mb : TokenGroupMember) k w w' : Prop :=
  sets ExtensionType.TokenGroupMember (λ bs, bs = c_write TokenGroupMember_codec mb) k w w'.

(** The mint at [k] has the group [g], whose authority [ai] signs. *)
Definition group_opened (ai : AccountInfo) k w (m : PodStateMut PodMint) g : Prop :=
  is_signer ai = true ∧ update_authority g = key ai ∧ update_authority g ≠ Pubkey_default ∧
  mint_at w k = Some m ∧ get_mint_ext TokenGroup (tlv_data m) = Ok g.

Lemma open_group_Ok mint ai w m g : open_group mint ai w = Ok (m, g) →
  group_opened ai (key mint) w m g.
Proof.
  intros (d & [_ ->]%try_borrow_data_Ok & (m' & Hm & (g' & Hg & (u & (Hs & Hk & Hd)%check_update_authority_Ok &
    [= -> ->])%bind_Ok)%bind_Ok)%bind_Ok)%bind_Ok.
  split_and!; try done. by apply mint_at_Some.
Qed.

Lemma write_group g g' mint ai w m : group_opened ai (key mint) w m g →
  group_sets g' (key mint) w (write_mint w mint (put_mint_ext g' m)).
Proof.
  intros (_ & _ & _ & Hm & Hg). split; [by eexists|]. exists m. split; [done|]. intros He.
  eexists. split; [done|]. refine (put_extension_set g g' mint w m Hm Hg _ He). discriminate.
Qed.

Lemma group_initialize_Ok accounts a n w w' :
  process_instruction accounts (InitializeGroup a n) w = Ok w' →
  ∃ grp mint ma rest m, accounts = grp :: mint :: ma :: rest ∧ key grp = key mint ∧
    is_signer ma = true ∧ info_owner w mint = id ∧
    mint_at w (key mint) = Some m ∧ mint_authority (base m) = co_some (key ma) ∧
    group_sets (new_group (key mint) a n) (key mint) w w'.
Proof.
  intros H. destruct accounts as [|grp [|mint [|ma rest]]]; [done..|].
  unfold process_instruction, process_initialize_group in H.
  do 3 (cbn [next_account_info] in H; rewrite Ok_bind in H).
  apply bind_Ok in H as (u & Hk%throw_unless_key & (u1 & Hc & H)%bind_Ok).
  apply check_mint_authority_Ok in Hc as (Ho & Hs & m & x & Hm & Hma & _ & Hne); [|done].
  exists grp, mint, ma, rest, m. do 6 (split; [done|]). rewrite <-Hk in Hm, H |- *.
  assert (TYPE TokenGroup ≠ ExtensionType.Uninitialized) as Ht by discriminate.
  by apply (alloc_fixed_sets Ht eq_refl [] grp _ w w' m).
Qed.

Lemma group_update_Ok accounts i w w' :
  match i with UpdateGroupMaxSize _ | UpdateGroupAuthority _ => True | _ => False end →
  process_instruction accounts i w = Ok w' →
  ∃ mint ai rest m old new, accounts = mint :: ai :: rest ∧
    group_opened ai (key mint) w m old ∧ group_sets new (key mint) w w' ∧
    match i with
    | UpdateGroupMaxSize n => update_max_size n old = Ok new
    | UpdateGroupAuthority a => new = set_update_authority a old
    | _ => True
    end.
Proof.
  intros Hi H. destruct accounts as [|mint [|ai rest]];
    [by destruct i|by destruct i|]. exists mint, ai, rest.
  destruct i as [|n|a|]; [done| | |done];
    unfold process_instruction, process_update_group_max_size, process_update_group_authority in H;
    do 2 (cbn [next_account_info] in H; rewrite Ok_bind in H);
    apply bind_Ok in H as ([m old] & Hg%open_group_Ok & H).
  - apply bind_Ok in H as (new & Hn & [= <-]). exists m, old, new. do 2 (split; [done|]).
    split; [by eapply write_group|done].
  - injection H as <-. eexists m, old, _. do 2 (split; [done|]). split; [by eapply write_group|done].
Qed.

(** The group is written first, and the member's account, another one, grows. *)
Lemma group_member_Ok accounts w w' : process_instruction accounts InitializeMember w = Ok w' →
  ∃ mb mint ma grp ai rest m gm old new n w1,
    accounts = mb :: mint :: ma :: grp :: ai :: rest ∧ key mb = key mint ∧ key mint ≠ key grp ∧
    is_signer ma = true ∧ info_owner w mint = id ∧
    mint_at w (key mint) = Some m ∧ mint_authority (base m) = co_some (key ma) ∧
    group_opened ai (key grp) w gm old ∧ increment_size old = Ok (new, n) ∧
    group_sets new (key grp) w w1 ∧
    member_sets (new_member (key mint) (key grp) n) (key mint) w1 w'.
Proof.
  intros H. destruct accounts as [|mb [|mint [|ma [|grp [|ai rest]]]]]; [done..|].
  unfold process_instruction, process_initialize_member in H.
  do 5 (cbn [next_account_info] in H; rewrite Ok_bind in H).
  apply bind_Ok in H as (u & Hk%throw_unless_key & (u1 & Hc & (u2 & Hne%throw_if_Ok & ([gm old] & Hg%open_group_Ok &
    ([new n] & Hn & H)%bind_Ok)%bind_Ok)%bind_Ok)%bind_Ok). cbv zeta in H.
  apply check_mint_authority_Ok in Hc as (Ho & Hs & m & x & Hm & Hma & _ & Htlv); [|done].
  apply Z.eqb_neq in Hne. rewrite Hk in Hne.
  exists mb, mint, ma, grp, ai, rest, m, gm, old, new, n. eexists.
  do 9 (split; [done|]). split; [by eapply write_group|].
  assert (mint_at (write_mint w grp (put_mint_ext new gm)) (key mint) = Some m) as Hm1.
  { rewrite <-Hm. apply mint_at_data. unfold write_mint. by rewrite data_set_data, decide_False. }
  rewrite <-Hk in Hm1, H |- *.
  assert (TYPE TokenGroupMember ≠ ExtensionType.Uninitialized) as Ht by discriminate.
  by apply (alloc_fixed_sets Ht eq_refl [key grp] mb _ _ w' m).
Qed.

Lemma group_conserves mk accounts i w w' : process_instruction accounts i w = Ok w' →
  solvent mk w → conserves mk w w'.
Proof.
  intros H [_ Htidy].
  assert (∀ g k w1, group_sets g k w w1 → conserves mk w w1) as Hsets
    by (intros g k w1 Hs; refine (sets_conserves mk _ _ _ _ _ _ Hs Htidy); discriminate).
  destruct i as [a n|n|a|].
  - apply group_initialize_Ok in H as (? & ? & ? & ? & ? & _ & _ & _ & _ & _ & _ & H).
    by apply Hsets in H.
  - apply group_update_Ok in H as (? & ? & ? & ? & ? & ? & _ & _ & H & _); [by apply Hsets in H|done].
  - apply group_update_Ok in H as (? & ? & ? & ? & ? & ? & _ & _ & H & _); [by apply Hsets in H|done].
  - apply group_member_Ok in H as (? & ? & ? & ? & ? & ? & ? & ? & ? & ? & ? & w1 & _ & _ & _ & _ & _ & _ &
      _ & _ & _ & H1 & H2).
    apply Hsets in H1. eapply conserves_trans; [exact H1|].
    refine (sets_conserves mk _ _ _ _ _ _ H2 _); [discriminate|]. by apply H1.
Qed.
End group.

(** ** The effects *)

(** All mints have extension areas made of entries, as in every world the program
    reaches. *)
Definition mints_tidy `{Runtime} (w : world) : Prop :=
  ∀ k m, mint_at w k = Some m → has_entries (tlv_data m).

(** [m'] is [m] but for its extension [T]. *)
Definition same_but `{Runtime} (T : ExtensionType) (m m' : PodStateMut PodMint) : Prop :=
  base m' = base m ∧
  ∀ W `{!Extension W} x, TYPE W ≠ T → TYPE W ≠ ExtensionType.Uninitialized →
    get_mint_ext W (tlv_data m') = Ok x ↔ get_mint_ext W (tlv_data m) = Ok x.

Section effects.
Context `{rt : Runtime}.
Implicit Types (w : world) (k : Pubkey) (m : PodStateMut PodMint) (T : ExtensionType).

Lemma extension_set_same_but T bs k w w' m m' : extension_set T bs k w w' →
  mint_at w k = Some m → mint_at w' k = Some m' → same_but T m m'.
Proof.
  intros (n & n' & Hn & Hn' & Hb & _ & Hrest & _) Hm Hm'. rewrite Hm in Hn. rewrite Hm' in Hn'.
  injection Hn as <-. injection Hn' as <-. split; [done|]. intros W HW x HT HU.
  unfold get_mint_ext, get_extension. rewrite !bind_Ok.
  split; intros (v & Hv & Hx); exists v; (split; [|done]); revert Hv; by rewrite (Hrest _ v HT HU).
Qed.

Lemma sets_effect T P k w w' : sets T P k w w' → mints_tidy w →
  mints_tidy w' ∧ (∀ j, j ≠ k → get_account w' j = get_account w j) ∧
  ∃ m m' bs, P bs ∧ mint_at w k = Some m ∧ mint_at w' k = Some m' ∧ same_but T m m' ∧
    get_extension_bytes PodMint T (tlv_data m') = Ok bs.
Proof.
  intros Hs Ht. pose proof (λ j, sets_others T P k w w' j Hs) as Ho.
  destruct Hs as (_ & n & Hn & He). destruct (He (Ht _ _ Hn)) as (bs & Hbs & Hset).
  pose proof Hset as (m & m' & Hm & Hm' & _ & Hb & _ & He' & _). split; [|split].
  - intros j x Hx. destruct (decide (j = k)) as [->|Hj].
    + rewrite Hm' in Hx. by injection Hx as <-.
    + apply (Ht j). rewrite <-Hx. symmetry. apply mint_at_data. by rewrite Ho.
  - intros j Hj. by apply Ho.
  - exists m, m', bs. split_and!; try done. by eapply extension_set_same_but.
Qed.
End effects.

Section metadata_effects.
Context `{rt : Runtime} `{metadata_if : token_metadata.MetadataInterface}.
Context `{!VariableLenPackLaws token_metadata.TokenMetadata}.
Implicit Types (w : world) (k : Pubkey) (accounts : list AccountInfo).

(** The mint at [k] has the metadata [md], in an account of exactly the length needed. *)
Definition has_metadata md k w : Prop :=
  exact_len k w ∧ ∃ m bs, mint_at w k = Some m ∧ packs md bs ∧
    get_extension_bytes PodMint ExtensionType.TokenMetadata (tlv_data m) = Ok bs ∧
    get_variable_len_extension PodMint token_metadata.TokenMetadata (tlv_data m) = Ok md.

Lemma metadata_sets_effect md k w w' : metadata_sets md k w w' → mints_tidy w →
  mints_tidy w' ∧ (∀ j, j ≠ k → get_account w' j = get_account w j) ∧
  ∃ m m', mint_at w k = Some m ∧ mint_at w' k = Some m' ∧
    same_but ExtensionType.TokenMetadata m m' ∧ has_metadata md k w'.
Proof.
  intros Hs Ht. apply (sets_effect _ _ _ _ _ Hs) in Ht
    as (Ht & Ho & m & m' & bs & [Hp Hl] & Hm & Hm' & Hb & Hbs).
  do 2 (split; [done|]). exists m, m'. do 3 (split; [done|]). split; [done|].
  exists m', bs. do 3 (split; [done|]). unfold get_variable_len_extension.
  change (VTYPE token_metadata.TokenMetadata) with ExtensionType.TokenMetadata.
  rewrite Hbs, Ok_bind. apply Hp.
Qed.

(** C8: a change of the metadata.  The update authority that the metadata names signs; then
    the mint has the metadata that the instruction asks for, whether the account had to
    grow or to shrink: it has exactly the length its extensions need, and its base,
    its other extensions and all other accounts are as before. *)
Theorem metadata_update_effect pid accounts i w w' :
  match i with
  | token_metadata.Initialize _ _ _ | token_metadata.Emit _ _ => False
  | _ => True
  end →
  mints_tidy w → token_metadata.process_instruction pid accounts i w = Ok w' →
  ∃ mint ai rest m m' old new, accounts = mint :: ai :: rest ∧
    is_signer ai = true ∧ token_metadata.update_authority old = key ai ∧ key ai ≠ Pubkey_default ∧
    mint_at w (key mint) = Some m ∧
    get_variable_len_extension PodMint token_metadata.TokenMetadata (tlv_data m) = Ok old ∧
    updated i old = Some new ∧ has_metadata new (key mint) w' ∧
    mint_at w' (key mint) = Some m' ∧ same_but ExtensionType.TokenMetadata m m' ∧
    ∀ k, k ≠ key mint → get_account w' k = get_account w k.
Proof.
  intros Hi Ht H. destruct (metadata_update_Ok pid accounts i w w' Hi H)
    as (mint & ai & rest & m & old & new & Ha & Hs & Hu & Hd & Hm & Hold & Hnew & Hsets).
  destruct (metadata_sets_effect _ _ _ _ Hsets Ht) as (_ & Ho & n & m' & Hn & Hm' & Hb & Hmd).
  rewrite Hm in Hn. injection Hn as <-. exists mint, ai, rest, m, m', old, new.
  rewrite Hu in Hd. by split_and!.
Qed.

(** C9: a mint's metadata is what its authority gave it.  The mint authority signs, the
    mint points to its metadata, which names the mint and the update authority; [Emit]
    then returns the part of the packed metadata asked for, and changes nothing. *)
Theorem metadata_initialize_emit accounts name symbol uri start end_ w w' :
  mints_tidy w →
  token_metadata.process_instruction id accounts (token_metadata.Initialize name symbol uri) w =
    Ok w' →
  ∃ grown ua mint ma rest m m' bs, accounts = grown :: ua :: mint :: ma :: rest ∧
    key grown = key mint ∧ is_signer ma = true ∧
    mint_at w (key mint) = Some m ∧ mint_authority (base m) = co_some (key ma) ∧
    mint_at w' (key mint) = Some m' ∧ same_but ExtensionType.TokenMetadata m m' ∧
    (∀ k, k ≠ key mint → get_account w' k = get_account w k) ∧ exact_len (key mint) w' ∧
    packs (token_metadata.new_metadata name symbol uri (key ua) (key mint)) bs ∧
    token_metadata.process_instruction id [mint] (token_metadata.Emit start end_) w' =
      Ok (default w' (set_return_data w' <$> token_metadata.get_slice bs start end_)).
Proof.
  intros Ht H. apply metadata_initialize_Ok in H
    as (grown & ua & mint & ma & rest & m & Ha & Hk & Hs & Hown & Hd & Hm & Hma & Hsets).
  assert (info_owner w' mint = id) as Hown'.
  { destruct Hsets as [[d ->] _]. unfold info_owner in *. rewrite get_set_data. by case_decide. }
  destruct (metadata_sets_effect _ _ _ _ Hsets Ht)
    as (_ & Ho & n & m' & Hn & Hm' & Hb & Hl & n' & bs & Hn' & Hp & Hbs & _).
  rewrite Hm in Hn. injection Hn as <-. rewrite Hm' in Hn'. injection Hn' as <-.
  exists grown, ua, mint, ma, rest, m, m', bs. do 10 (split; [done|]).
  unfold token_metadata.process_instruction, token_metadata.process_emit. cbn [next_account_info].
  rewrite Ok_bind, Hown', Z.eqb_refl. cbn [negb throw_if]. rewrite Ok_bind.
  unfold try_borrow_data. rewrite bool_decide_eq_false_2, Ok_bind by set_solver.
  apply mint_at_Some in Hm'. rewrite unpack_ref_unpack. unfold info_data. rewrite Hm'.
  cbn [fmap result_fmap]. rewrite Ok_bind. cbn [ref_tlv]. rewrite Hbs, Ok_bind.
  by destruct (token_metadata.get_slice bs start end_).
Qed.
End metadata_effects.

(** ** The size of a group *)

(** What the crate documents of a group, and the tests of the clients rely on: a group
    counts its members, [increment_size] refuses beyond the maximum
    ([SizeExceedsMaxSize]), and [update_max_size] refuses to go below the size
    ([SizeExceedsNewMaxSize]). *)
Class GroupLaws `{token_group.GroupInterface} := {
  group_size : token_group.TokenGroup → Z;
  group_max_size : token_group.TokenGroup → Z;
  group_fits : token_group.TokenGroup → Prop := c_ok token_group.TokenGroup_codec;
  new_group_law mint a n (g := token_group.new_group mint a n) :
    in_uint 256 mint → in_uint 256 a → in_uint 64 n →
    group_fits g ∧ token_group.update_authority g = a ∧ group_size g = 0 ∧ group_max_size g = n;
  set_update_authority_law a g (g' := token_group.set_update_authority a g) :
    in_uint 256 a → group_fits g →
    group_fits g' ∧ token_group.update_authority g' = a ∧ group_size g' = group_size g ∧
    group_max_size g' = group_max_size g;
  update_max_size_law n g g' : in_uint 64 n → group_fits g →
    token_group.update_max_size n g = Ok g' →
    group_fits g' ∧ token_group.update_authority g' = token_group.update_authority g ∧
    group_size g' = group_size g ∧ group_max_size g' = n ∧ group_size g ≤ n;
  increment_size_law g g' n : group_fits g → token_group.increment_size g = Ok (g', n) →
    group_fits g' ∧ token_group.update_authority g' = token_group.update_authority g ∧
    group_size g' = n ∧ group_max_size g' = group_max_size g ∧
    n = group_size g + 1 ∧ n ≤ group_max_size g;
  new_member_law mint g n : in_uint 256 mint → in_uint 256 g → in_uint 64 n →
    c_ok token_group.TokenGroupMember_codec (token_group.new_member mint g n);
  group_size_range g : group_fits g → 0 ≤ group_size g ∧ group_max_size g < 2 ^ 64;
}.

Section group_effects.
Context `{rt : Runtime} `{group_if : token_group.GroupInterface} `{laws : !GroupLaws}.
Implicit Types (w : world) (k : Pubkey) (accounts : list AccountInfo).
Implicit Types (g : token_group.TokenGroup).

Definition group_at k w g : Prop :=
  ∃ m, mint_at w k = Some m ∧ get_mint_ext token_group.TokenGroup (tlv_data m) = Ok g.
Definition member_at k w (mb : token_group.TokenGroupMember) : Prop :=
  ∃ m, mint_at w k = Some m ∧ get_mint_ext token_group.TokenGroupMember (tlv_data m) = Ok mb.

(** Two worlds in which the mint at [k] differs in [T] only. *)
Definition one_extension T k w w' : Prop :=
  (∀ j, j ≠ k → get_account w' j = get_account w j) ∧
  ∃ m m', mint_at w k = Some m ∧ mint_at w' k = Some m' ∧ same_but T m m'.

Lemma group_opened_fits ai k w m g : group_opened ai k w m g → group_fits g.
Proof. intros (_ & _ & _ & _ & Hg). exact (get_extension_ok _ _ _ Hg). Qed.

Lemma group_sets_effect g k w w' : group_sets g k w w' → group_fits g → mints_tidy w →
  mints_tidy w' ∧ one_extension ExtensionType.TokenGroup k w w' ∧ group_at k w' g.
Proof.
  intros Hs Hg Ht. apply (sets_effect _ _ _ _ _ Hs) in Ht
    as (Ht & Ho & m & m' & bs & -> & Hm & Hm' & Hb & Hbs).
  split; [done|]. split; [split; [done|]; by exists m, m'|]. exists m'. split; [done|].
  unfold get_mint_ext, get_extension.
  change (TYPE token_group.TokenGroup) with ExtensionType.TokenGroup. rewrite Hbs, Ok_bind.
  apply pod_from_bytes_Ok. split; [apply c_write_length|]. symmetry. by apply c_read_write.
Qed.

Lemma member_sets_effect mb k w w' : member_sets mb k w w' →
  c_ok token_group.TokenGroupMember_codec mb → mints_tidy w →
  one_extension ExtensionType.TokenGroupMember k w w' ∧ member_at k w' mb.
Proof.
  intros Hs Hg Ht. apply (sets_effect _ _ _ _ _ Hs) in Ht
    as (_ & Ho & m & m' & bs & -> & Hm & Hm' & Hb & Hbs).
  split; [split; [done|]; by exists m, m'|]. exists m'. split; [done|].
  unfold get_mint_ext, get_extension.
  change (TYPE token_group.TokenGroupMember) with ExtensionType.TokenGroupMember.
  rewrite Hbs, Ok_bind.
  apply pod_from_bytes_Ok. split; [apply c_write_length|]. symmetry. by apply c_read_write.
Qed.

(** Arguments that fit their types. *)
Definition group_instruction_fits (i : token_group.TokenGroupInstruction) : Prop :=
  match i with
  | token_group.InitializeGroup a n => in_uint 256 a ∧ in_uint 64 n
  | token_group.UpdateGroupMaxSize n => in_uint 64 n
  | token_group.UpdateGroupAuthority a => in_uint 256 a
  | token_group.InitializeMember => True
  end.

(** C10: joining a group.  The mint authority of the member and the update authority of the
    group sign; the group, which is another mint, had room, its size grows by one, and
    the new member has that size as its number, the group and its own mint.
    The maximum and the authority of the group, the rest of both mints and all other
    accounts stay. *)
Theorem initialize_member_effect accounts w w' : mints_tidy w →
  (∀ i, i ∈ accounts → in_uint 256 (key i)) →
  token_group.process_instruction accounts token_group.InitializeMember w = Ok w' →
  ∃ mb mint ma grp ai rest w1 old new, accounts = mb :: mint :: ma :: grp :: ai :: rest ∧
    key mb = key mint ∧ key mint ≠ key grp ∧ is_signer ma = true ∧ is_signer ai = true ∧
    group_at (key grp) w old ∧ token_group.update_authority old = key ai ∧
    group_size old < group_max_size old ∧
    group_at (key grp) w' new ∧ group_size new = group_size old + 1 ∧
    group_max_size new = group_max_size old ∧
    token_group.update_authority new = token_group.update_authority old ∧
    member_at (key mint) w'
      (token_group.new_member (key mint) (key grp) (group_size new)) ∧
    one_extension ExtensionType.TokenGroup (key grp) w w1 ∧
    one_extension ExtensionType.TokenGroupMember (key mint) w1 w'.
Proof.
  intros Ht Hk H. apply group_member_Ok in H
    as (mb & mint & ma & grp & ai & rest & m & gm & old & new & n & w1 & Ha & Hkey & Hne & Hs &
        _ & _ & _ & Hopen & Hinc & H1 & H2).
  pose proof (group_opened_fits _ _ _ _ _ Hopen) as Hfit. destruct Hopen as (Hsa & Hua & _ & Hgm & Hg).
  destruct (increment_size_law _ _ _ Hfit Hinc) as (Hfit' & Hua' & Hsz & Hmax & Hn & Hle).
  destruct (group_size_range _ Hfit) as [H0 H64].
  destruct (group_sets_effect _ _ _ _ H1 Hfit' Ht) as (Ht1 & Ho1 & Hg1).
  assert (in_uint 256 (key mint) ∧ in_uint 256 (key grp)) as [Hi1 Hi2].
  { split; apply Hk; rewrite Ha; set_solver. }
  apply member_sets_effect in H2 as [Ho2 Hm2]; [|apply new_member_law; [done..|unfold in_uint; lia]|done].
  exists mb, mint, ma, grp, ai, rest, w1, old, new. rewrite Hsz.
  do 5 (split; [done|]). split; [by exists gm|]. split; [done|]. split; [lia|]. split.
  { destruct Hg1 as (x & Hx & Hgx). exists x. split; [|done]. rewrite <-Hx.
    apply mint_at_data. by rewrite (proj1 Ho2) by congruence. }
  do 3 (split; [done|]). by split_and!.
Qed.

(** No group has more members than its maximum: every instruction of the group interface
    leaves each group at most as large as its maximum, if it was before. *)
Theorem group_size_within_max accounts i w w' : mints_tidy w →
  (∀ a, a ∈ accounts → in_uint 256 (key a)) → group_instruction_fits i →
  token_group.process_instruction accounts i w = Ok w' →
  (∀ k g, group_at k w g → group_size g ≤ group_max_size g) →
  ∀ k g, group_at k w' g → group_size g ≤ group_max_size g.
Proof.
  intros Ht Hkeys Hi H Hold.
  assert (∀ new k w1, group_sets new k w w1 → group_fits new → group_size new ≤ group_max_size new →
    ∀ j g, group_at j w1 g → group_size g ≤ group_max_size g) as Hsets.
  { intros new k w1 Hs Hfit Hle j g Hj.
    destruct (group_sets_effect _ _ _ _ Hs Hfit Ht) as (_ & [Ho _] & (m1 & Hm1 & Hg1)).
    destruct Hj as (m & Hm & Hg). destruct (decide (j = k)) as [->|Hne].
    - rewrite Hm1 in Hm. injection Hm as <-. rewrite Hg1 in Hg. by injection Hg as <-.
    - apply (Hold j). exists m. split; [|done]. rewrite <-Hm. symmetry. apply mint_at_data.
      by rewrite Ho. }
  destruct i as [a n|n|a|].
  - apply group_initialize_Ok in H as (grp & mint & ma & rest & m & -> & _ & _ & _ & _ & _ & Hs).
    destruct Hi as [Ha Hn]. assert (in_uint 256 (key mint)) as Hk by (apply Hkeys; set_solver).
    destruct (new_group_law (key mint) a n Hk Ha Hn) as (Hfit & _ & Hsz & Hmx).
    apply (Hsets _ _ _ Hs Hfit). rewrite Hsz, Hmx. apply Hn.
  - apply group_update_Ok in H as (mint & ai & rest & m & old & new & _ & Ho & Hs & Hu); [|done].
    apply update_max_size_law in Hu as (Hfit & _ & Hsz & Hmx & Hle); [|done|by eapply group_opened_fits].
    apply (Hsets _ _ _ Hs Hfit). lia.
  - apply group_update_Ok in H as (mint & ai & rest & m & old & new & _ & Ho & Hs & ->); [|done].
    pose proof (group_opened_fits _ _ _ _ _ Ho) as Hfit. destruct Ho as (_ & _ & _ & Hm & Hg).
    destruct (set_update_authority_law a old Hi Hfit) as (Hfit' & _ & Hsz & Hmx).
    apply (Hsets _ _ _ Hs Hfit'). rewrite Hsz, Hmx. apply (Hold (key mint)). by exists m.
  - intros k g Hg. pose proof H as H'. apply group_member_Ok in H'
      as (mb & mint & ma & grp & ai & rest & m & gm & old & new & n & w1 & Ha & Hkey & Hne & Hs &
          _ & _ & _ & Hopen & Hinc & H1 & H2).
    pose proof (group_opened_fits _ _ _ _ _ Hopen) as Hfit.
    destruct (increment_size_law _ _ _ Hfit Hinc) as (Hfit' & _ & Hsz & Hmx & Hn & Hle).
    destruct (group_sets_effect _ _ _ _ H1 Hfit' Ht) as (Ht1 & _).
    apply (Hsets _ _ _ H1 Hfit' ltac:(lia) k). destruct Hg as (x & Hx & Hgx).
    destruct (sets_effect _ _ _ _ _ H2 Ht1) as (_ & Ho2 & m1 & m2 & bs & _ & Hm1 & Hm2 & [_ Hb] & _).
    destruct (decide (k = key mint)) as [->|Hk].
    + rewrite Hm2 in Hx. injection Hx as <-. exists m1. split; [done|].
      apply (Hb token_group.TokenGroup); [discriminate..|done].
    + exists x. split; [|done]. rewrite <-Hx. symmetry. apply mint_at_data. by rewrite Ho2.
Qed.
End group_effects.
