(* ===== verification/Vaults.v ===== *)
(** * Encrypted balances

    What the handlers of the confidential transfer extension do to the amounts
    behind the ciphertexts.  A [vault] is a token account with its encrypted
    balances decrypted; each handler that moves tokens is a step on vaults. *)
From S2P Require Import Prelude Codec Errors Runtime Pod State ExtensionType ExtensionData Tlv.
From S2P Require Import TlvFacts TlvAlloc StateExt PackedExt Fee Authority Transfer AccountFacts.
From S2P Require Import TransferFacts AccountOps AccountOpsFacts InitOps TransferFeeOps SystemOps.
From S2P Require Import CiphertextOps CiphertextFacts ProofExtraction ConfidentialOps.
From S2P Require Import ConfidentialTransferOps ConfidentialFeeOps ConfidentialMintBurnOps.
From S2P Require Import ConfidentialFacts ProofMeaning Ledger ConfidentialLedger LedgerFacts.

(** ** The abstract state *)

(** The tokens in sight, the available balance, the two parts of the pending
    balance, and the numbers of credits it has had and may have. *)
Record vault := mkVault {
  v_public : Z;
  v_available : Z;
  v_lo : Z;
  v_hi : Z;
  v_credits : Z;
  v_maximum : Z;
}.

(** All its tokens *)
Definition v_total (v : vault) : Z := v_public v + v_available v + combined (v_lo v) (v_hi v).

(** Tokens of the account become pending, *)
Definition v_deposit (lo hi : Z) (v : vault) : vault :=
  mkVault (v_public v - combined lo hi) (v_available v) (v_lo v + lo) (v_hi v + hi)
    (v_credits v + 1) (v_maximum v).
(** pending tokens become available, *)
Definition v_apply (v : vault) : vault :=
  mkVault (v_public v) (v_available v + combined (v_lo v) (v_hi v)) 0 0 0 (v_maximum v).
(** available tokens return to sight. *)
Definition v_withdraw (n : Z) (v : vault) : vault :=
  mkVault (v_public v + n) (v_available v - n) (v_lo v) (v_hi v) (v_credits v) (v_maximum v).
(** Tokens leave the available balance, *)
Definition v_send (n : Z) (v : vault) : vault :=
  mkVault (v_public v) (v_available v - n) (v_lo v) (v_hi v) (v_credits v) (v_maximum v).
(** and tokens of another account become pending. *)
Definition v_receive (lo hi : Z) (v : vault) : vault :=
  mkVault (v_public v) (v_available v) (v_lo v + lo) (v_hi v + hi) (v_credits v + 1) (v_maximum v).

(** Each credit adds at most 16 bits to the one part and 32 to the other, and there
    are no more credits than the account allows; an available balance is an
    amount. *)
Record vault_ok (v : vault) : Prop := {
  ok_available : 0 ≤ v_available v;
  ok_lo : Z.abs (v_lo v) ≤ v_credits v * (2 ^ 16 - 1);
  ok_hi : Z.abs (v_hi v) ≤ v_credits v * (2 ^ 32 - 1);
  ok_pending : 0 ≤ combined (v_lo v) (v_hi v);
  ok_credits : 0 ≤ v_credits v ≤ v_maximum v;
}.

(** The steps keep the tokens, but for what is sent and received, and keep vaults
    sound.  A fee makes a received part smaller, even negative; the whole is not. *)
Lemma v_deposit_total lo hi v : v_total (v_deposit lo hi v) = v_total v.
Proof. unfold v_total. cbn. unfold combined. lia. Qed.

Lemma v_apply_total v : v_total (v_apply v) = v_total v.
Proof. unfold v_total. cbn. unfold combined. lia. Qed.

Lemma v_withdraw_total n v : v_total (v_withdraw n v) = v_total v.
Proof. unfold v_total. cbn. lia. Qed.

Lemma v_send_total n v : v_total (v_send n v) = v_total v - n.
Proof. unfold v_total. cbn. lia. Qed.

Lemma v_receive_total lo hi v : v_total (v_receive lo hi v) = v_total v + combined lo hi.
Proof. unfold v_total. cbn. unfold combined. lia. Qed.

Lemma v_receive_ok lo hi v : vault_ok v → Z.abs lo ≤ 2 ^ 16 - 1 → Z.abs hi ≤ 2 ^ 32 - 1 →
  0 ≤ combined lo hi → v_credits v + 1 ≤ v_maximum v → vault_ok (v_receive lo hi v).
Proof.
  intros [Ha Hl Hh Hp Hc] Hlo Hhi Hn Hm. unfold combined in *. constructor; cbn; unfold combined; lia.
Qed.

Lemma v_deposit_ok lo hi v : vault_ok v → in_uint 16 lo → in_uint 32 hi →
  v_credits v + 1 ≤ v_maximum v → vault_ok (v_deposit lo hi v).
Proof.
  intros Hv Hlo Hhi Hm. destruct (v_receive_ok lo hi v Hv); unfold in_uint, combined in *; try lia.
  constructor; done.
Qed.

Lemma v_apply_ok v : vault_ok v → vault_ok (v_apply v).
Proof. intros [Ha Hl Hh Hp Hc]. constructor; cbn; unfold combined in *; lia. Qed.

Lemma v_send_ok n v : vault_ok v → 0 ≤ v_available v - n → vault_ok (v_send n v).
Proof. intros [Ha Hl Hh Hp Hc] Hn. by constructor. Qed.

Lemma v_withdraw_ok n v : vault_ok v → 0 ≤ v_available v - n → vault_ok (v_withdraw n v).
Proof. intros [Ha Hl Hh Hp Hc] Hn. by constructor. Qed.

(** ** Reading the world *)
Section vaults.
Import confidential_transfer.
Context `{rt : Runtime} `{curve : Curve} `{group : !CurveGroup} `{zk : !ZkSdk} `{op : !Openings}.
Hypothesis sizes : crypto_sizes rt.
Implicit Types (w : world) (st : PodStateMut PodAccount) (c : ConfidentialTransferAccount).

(** The amounts in the extension [c] of an account. *)
Record decrypted c (v : vault) : Prop := {
  dec_available : decrypts (secret (cta_elgamal_pubkey c)) (cta_available_balance c) (v_available v);
  dec_lo : decrypts (secret (cta_elgamal_pubkey c)) (cta_pending_balance_lo c) (v_lo v);
  dec_hi : decrypts (secret (cta_elgamal_pubkey c)) (cta_pending_balance_hi c) (v_hi v);
  dec_credits : cta_pending_balance_credit_counter c = v_credits v;
  dec_maximum : cta_maximum_pending_balance_credit_counter c = v_maximum v;
}.

(** The account under the key is the vault [v]. *)
Definition vault_at w (k : Pubkey) (v : vault) : Prop :=
  ∃ st c, account_at w k = Some st ∧
    get_account_ext ConfidentialTransferAccount (tlv_data st) = Ok c ∧
    Pod.amount (base st) = v_public v ∧ decrypted c v.

(** ** Writing it back *)
Lemma decrypts_length s x n : decrypts s x n → length x = elgamal_ciphertext_len.
Proof using sizes.
  destruct sizes as (_ & -> & _). intros [y ->]. unfold pair_ciphertext.
  by rewrite length_app, !length_encode.
Qed.

Lemma cta_ok c : c_ok (ext_codec (V:=ConfidentialTransferAccount)) c ↔
  (in_uint 8 (cta_approved c) ∧ length (cta_elgamal_pubkey c) = elgamal_pubkey_len ∧
   length (cta_pending_balance_lo c) = elgamal_ciphertext_len ∧
   length (cta_pending_balance_hi c) = elgamal_ciphertext_len ∧
   length (cta_available_balance c) = elgamal_ciphertext_len ∧
   length (cta_decryptable_available_balance c) = ae_ciphertext_len ∧
   in_uint 8 (cta_allow_confidential_credits c) ∧ in_uint 8 (cta_allow_non_confidential_credits c) ∧
   in_uint 64 (cta_pending_balance_credit_counter c) ∧
   in_uint 64 (cta_maximum_pending_balance_credit_counter c) ∧
   in_uint 64 (cta_expected_pending_balance_credit_counter c) ∧
   in_uint 64 (cta_actual_pending_balance_credit_counter c)).
Proof. reflexivity. Qed.

(** Reading what was put *)
Lemma get_put_account V `{!Extension V} (x y : V) st : get_account_ext V (tlv_data st) = Ok x →
  c_ok ext_codec y → get_account_ext V (tlv_data (put_account_ext y st)) = Ok y.
Proof. apply (get_put_extension PodAccount x y). Qed.

Lemma get_put_account_ne V `{!Extension V} U `{!Extension U} (x y : V) st :
  get_account_ext V (tlv_data st) = Ok x → TYPE V ≠ TYPE U →
  get_account_ext U (tlv_data (put_account_ext y st)) = get_account_ext U (tlv_data st).
Proof. apply (get_put_extension_ne PodAccount x y). Qed.

(** The fields the handlers assign are in range again. *)
Lemma cta_ok_pending c lo hi : c_ok ext_codec c →
  length lo = elgamal_ciphertext_len → length hi = elgamal_ciphertext_len →
  c_ok ext_codec (set_pending_balance lo hi c).
Proof. rewrite !cta_ok. cbn. naive_solver. Qed.

Lemma cta_ok_available c av d : c_ok ext_codec c →
  length av = elgamal_ciphertext_len → length d = ae_ciphertext_len →
  c_ok ext_codec (set_available_balance av d c).
Proof. rewrite !cta_ok. cbn. naive_solver. Qed.

Lemma cta_ok_counters c n e a : c_ok ext_codec c → in_uint 64 n → in_uint 64 e → in_uint 64 a →
  c_ok ext_codec (set_credit_counters n e a c).
Proof. rewrite !cta_ok. cbn. naive_solver. Qed.

(** Handlers write a token account; the others are as before. *)
Definition only_at w w' (k : Pubkey) : Prop := ∀ k', k' ≠ k → get_account w' k' = get_account w k'.

Lemma write_account_only w i st : only_at w (write_account w i st) (key i).
Proof. intros k Hk. unfold write_account. by rewrite get_set_data, decide_False. Qed.

Lemma vault_write w i st c c' b v :
  account_at w (key i) = Some st → get_account_ext ConfidentialTransferAccount (tlv_data st) = Ok c →
  c_ok base_codec b → acc_state b = acc_state (base st) → Pod.amount b = v_public v →
  c_ok ext_codec c' → decrypted c' v →
  vault_at (write_account w i (put_account_ext c' (with_base b st))) (key i) v.
Proof.
  intros Hst Hc Hb Hs Ha Hok Hd. pose proof (account_at_ok _ _ _ Hst) as Hst'.
  exists (put_account_ext c' (with_base b st)), c'. split_and!; [| |done..].
  - apply account_at_write. apply (state_ok_put (with_base b st) c c'); [by apply state_ok_base|done].
  - by apply (get_put_extension PodAccount c c').
Qed.

(** The same, when the tokens in sight are as before. *)
Lemma vault_write_ext w i st c c' v :
  account_at w (key i) = Some st → get_account_ext ConfidentialTransferAccount (tlv_data st) = Ok c →
  Pod.amount (base st) = v_public v → c_ok ext_codec c' → decrypted c' v →
  vault_at (write_account w i (put_account_ext c' st)) (key i) v.
Proof.
  intros Hst Hc Ha Hok Hd. pose proof (account_at_ok _ _ _ Hst) as Hst'.
  replace st with (with_base (base st) st) by by destruct st.
  by apply (vault_write w i st c); [..|apply Hst'| | | |].
Qed.

Lemma vault_read w k v st c : vault_at w k v → account_at w k = Some st →
  get_account_ext ConfidentialTransferAccount (tlv_data st) = Ok c →
  Pod.amount (base st) = v_public v ∧ decrypted c v ∧ c_ok ext_codec c.
Proof.
  intros (st' & c' & Hst' & Hc' & Ha & Hd) Hst Hc.
  rewrite Hst in Hst'. injection Hst' as <-. rewrite Hc in Hc'. injection Hc' as <-.
  split; [done|]. split; [done|]. by apply (get_extension_ok PodAccount c (tlv_data st)).
Qed.

(** ** Deposits *)
Lemma add_part s x n m y :
  (if 0 <? n then ciphertext_arithmetic.add_to x n = Some y else y = x) →
  in_uint 64 n → decrypts s x m → decrypts s y (m + n).
Proof.
  intros H [H0 Hn] Hd. destruct (Z.ltb_spec 0 n).
  - destruct (add_to_decrypts s x m n) as (z & Hz & Hdz); [done|done|]. congruence.
  - subst y. by replace (m + n) with m by lia.
Qed.

(** A pending balance that was credited. *)
Lemma deposited_ok c lo hi n_lo n_hi v : c_ok ext_codec c → decrypted c v →
  in_uint 64 (cta_pending_balance_credit_counter c + 1) →
  decrypts (secret (cta_elgamal_pubkey c)) lo (v_lo v + n_lo) →
  decrypts (secret (cta_elgamal_pubkey c)) hi (v_hi v + n_hi) →
  c_ok ext_codec (deposited lo hi c) ∧
  decrypted (deposited lo hi c) (v_receive n_lo n_hi v).
Proof using sizes.
  intros Hok [Da Dl Dh Dc Dm] Hn Hlo Hhi. split.
  - pose proof (proj1 (cta_ok c) Hok) as (_ & _ & _ & _ & _ & _ & _ & _ & _ & _ & ? & ?).
    apply cta_ok_counters; [|done..].
    by apply cta_ok_pending; [|eapply decrypts_length..].
  - constructor; cbn; [done..|lia|done].
Qed.

Lemma process_deposit_step pid ti mi ai signers n dec w w' v : in_uint 64 n →
  process_deposit pid (ti :: mi :: ai :: signers) n dec w = Ok w' → vault_at w (key ti) v →
  ∃ lo hi, in_uint 16 lo ∧ in_uint 32 hi ∧ n = combined lo hi ∧ n ≤ v_public v ∧
    v_credits v + 1 ≤ v_maximum v ∧
    vault_at w' (key ti) (v_deposit lo hi v) ∧ only_at w w' (key ti).
Proof using sizes.
  intros Hn H Hv. apply process_deposit_Ok in H as (m & st & c & lo & hi & c' & H).
  destruct H as (_ & _ & _ & _ & _ & _ & Hst & _ & _ & _ & _ & _ & Hsub & Hc & Hd & Hs & Hp & ->).
  destruct (vault_read _ _ _ _ _ Hv Hst Hc) as (Ha & Hdec & Hok).
  apply valid_as_destination_Ok in Hd as (_ & _ & Hcr).
  apply split_deposit_Ok in Hs as (_ & Hlo & Hhi & ->); [|apply Hn].
  apply deposit_pending_Ok in Hp as (x & y & -> & Hc64 & Hx & Hy).
  assert (in_uint 64 lo ∧ in_uint 64 hi) as [Hlo64 Hhi64] by (unfold in_uint in *; lia).
  pose proof (add_part _ _ _ _ _ Hx Hlo64 (dec_lo _ _ Hdec)) as Dx.
  pose proof (add_part _ _ _ _ _ Hy Hhi64 (dec_hi _ _ Hdec)) as Dy.
  destruct (deposited_ok c x y lo hi v) as [Hok' Hdec']; [done..|].
  exists lo, hi. rewrite Ha in *. destruct Hdec as [_ _ _ Hcc Hcm]. rewrite Hcc, Hcm in Hcr.
  split_and!; [done..|unfold in_uint in Hsub; unfold combined; lia|done| |].
  - apply (vault_write w ti st c); [done|done| |done|done|done|by destruct Hdec'].
    apply set_amount_ok; [by apply (account_at_ok w (key ti))|done].
  - apply write_account_only.
Qed.

(** ** Pending tokens *)
Lemma decrypts_zeroed s : decrypts s zeroed_ciphertext 0.
Proof using sizes.
  destruct sizes as (_ & E & _). unfold zeroed_ciphertext. rewrite E. apply decrypts_zero.
Qed.

Lemma combined_add lo hi lo' hi' : combined (lo + lo') (hi + hi') = combined lo hi + combined lo' hi'.
Proof. unfold combined. lia. Qed.

Lemma process_apply_pending_balance_step pid ti ai signers expected new w w' v :
  in_uint 64 expected → c_ok ae_ciphertext_codec new →
  process_apply_pending_balance pid (ti :: ai :: signers) expected new w = Ok w' →
  vault_at w (key ti) v →
  vault_at w' (key ti) (v_apply v) ∧ only_at w w' (key ti) ∧
  ∃ st c st' c', account_at w (key ti) = Some st ∧ owner_signed pid [] w ti ai signers st ∧
    get_account_ext ConfidentialTransferAccount (tlv_data st) = Ok c ∧
    account_at w' (key ti) = Some st' ∧
    get_account_ext ConfidentialTransferAccount (tlv_data st') = Ok c' ∧
    cta_expected_pending_balance_credit_counter c' = expected ∧
    cta_actual_pending_balance_credit_counter c' = cta_pending_balance_credit_counter c ∧
    cta_decryptable_available_balance c' = new.
Proof using sizes.
  intros He Hnew H Hv. unfold process_apply_pending_balance in H.
  do 2 (cbn [next_account_info] in H; rewrite Ok_bind in H).
  apply bind_Ok in H as (st & (_ & Hst & Hos)%open_owned_Ok & (c & Hc & (av & Hav%computed_Ok &
    [= <-])%bind_Ok)%bind_Ok).
  destruct (vault_read _ _ _ _ _ Hv Hst Hc) as (Ha & [Da Dl Dh Dc Dm] & Hok).
  destruct (add_with_lo_hi_decrypts _ _ _ _ _ _ _ Da Dl Dh) as (av' & Hav' & Dav).
  rewrite Hav in Hav'. injection Hav' as <-.
  pose proof (proj1 (cta_ok c) Hok) as (_ & _ & _ & _ & _ & _ & _ & _ & Hn & _).
  set (c1 := set_credit_counters 0 expected (cta_pending_balance_credit_counter c)
    (set_available_balance av new c)).
  set (c' := set_pending_balance zeroed_ciphertext zeroed_ciphertext c1).
  assert (c_ok ext_codec c') as Hok'.
  { apply cta_ok_pending; [|apply (decrypts_length 0 _ 0), decrypts_zeroed..].
    apply cta_ok_counters; [|done..].
    apply cta_ok_available; [done|by eapply decrypts_length|done]. }
  split; [|split; [apply write_account_only|]].
  - apply (vault_write_ext w ti st c); [done..|].
    constructor; cbn; [done|apply decrypts_zeroed|apply decrypts_zeroed|done|done].
  - exists st, c, (put_account_ext c' st), c'. do 3 (split; [done|]). split; [|split; [|done]].
    + apply account_at_write. by apply (state_ok_put st c); [apply (account_at_ok w (key ti))|].
    + by apply (get_put_account _ c).
Qed.

(** ** Withdrawals *)
Lemma subtract_part s x n m y :
  (if 0 <? n then ciphertext_arithmetic.subtract_from x n = Some y else y = x) →
  in_uint 64 n → decrypts s x m → decrypts s y (m - n).
Proof.
  intros H [H0 Hn] Hd. destruct (Z.ltb_spec 0 n).
  - destruct (subtract_from_decrypts s x m n) as (z & Hz & Hdz); [done|done|]. congruence.
  - subst y. by replace (m - n) with m by lia.
Qed.

(** A balance that stays an amount when [n] is subtracted, as the proof says, held
    at least [n]. *)
Lemma proved_balance s x m n k : decrypts s x (m - n) → decrypts s x k → in_uint 64 k →
  0 ≤ n < 2 ^ 200 → 0 ≤ m < 2 ^ 200 → m - n = k.
Proof.
  intros Hx Hk [Hk0 Hk64] Hn Hm.
  assert (2 ^ 64 < 2 ^ 200 ∧ 2 ^ 201 < 2 ^ 252 ∧ 2 * 2 ^ 200 = 2 ^ 201) as (H1 & H2 & H3) by done.
  apply (decrypts_inj s x); [|done..]. lia.
Qed.

Lemma process_withdraw_step pid ti mi accounts n dec new eq_off range_off w w' v :
  proofs_hold w → in_uint 64 n → c_ok ae_ciphertext_codec new → 0 ≤ v_available v < 2 ^ 200 →
  process_withdraw pid (ti :: mi :: accounts) n dec new eq_off range_off w = Ok w' →
  vault_at w (key ti) v →
  0 ≤ v_available v - n < 2 ^ 64 ∧
  vault_at w' (key ti) (v_withdraw n v) ∧ only_at w w' (key ti).
Proof using sizes.
  intros Hw Hn Hnew Hvr H Hv.
  apply process_withdraw_Ok in H as (ctx & ai & signers & m & st & c & av & Hctx & H).
  destruct H as (_ & _ & _ & _ & _ & _ & Hst & _ & _ & _ & _ & _ & Hc & _ & Hk & Hav & Hrem & Hadd & ->).
  destruct (vault_read _ _ _ _ _ Hv Hst Hc) as (Ha & [Da Dl Dh Dc Dm] & Hok).
  apply withdraw_proof_meaning in Hctx as (k & Hk64 & Hkd); [|done].
  rewrite <-Hk, <-Hrem in Hkd. pose proof (subtract_part _ _ _ _ _ Hav Hn Da) as Dav.
  assert (2 ^ 64 < 2 ^ 200) as Hlt by done.
  rewrite (proved_balance _ _ _ _ _ Dav Hkd Hk64 ltac:(unfold in_uint in Hn; lia) Hvr).
  split; [done|]. split; [|apply write_account_only].
  change (with_base _ (put_account_ext ?x st)) with
    (put_account_ext x (with_base (set_amount (Pod.amount (base st) + n) (base st)) st)).
  rewrite Ha in *. apply (vault_write w ti st c); [done|done| |done|done| |].
  - apply set_amount_ok; [by apply (account_at_ok w (key ti))|done].
  - apply cta_ok_available; [done|by eapply decrypts_length|done].
  - by constructor.
Qed.

(** ** The transfer hook *)

(** From [w] to [w'], only the accounts under [ks] change, among those the program
    owns. *)
Definition only_these (ks : list Pubkey) w w' : Prop :=
  ∀ k, owner (get_account w k) = id →
    owner (get_account w' k) = id ∧ (k ∉ ks → data (get_account w' k) = data (get_account w k)).

(** What vaults and withheld fees are read from *)
Definition encrypted w (k : Pubkey) :
    option (Z * option ConfidentialTransferAccount * option ConfidentialTransferFeeAmount) :=
  st ← account_at w k;
  Some (Pod.amount (base st), ok_opt (get_account_ext ConfidentialTransferAccount (tlv_data st)),
        ok_opt (get_account_ext ConfidentialTransferFeeAmount (tlv_data st))).

(** The fees withheld at the account, encrypted for the holder of the key [pk] *)
Definition withheld_at w (k : Pubkey) (pk : PodElGamalPubkey) (n : Z) : Prop :=
  ∃ x y e, encrypted w k = Some (x, y, Some e) ∧ decrypts (secret pk) (ctfa_withheld_amount e) n.

Lemma vault_encrypted w k v : vault_at w k v ↔
  ∃ c e, encrypted w k = Some (v_public v, Some c, e) ∧ decrypted c v.
Proof.
  unfold vault_at, encrypted. split.
  - intros (st & c & -> & Hc & <- & Hd). cbn. rewrite Hc. by exists c, (ok_opt (get_account_ext _ (tlv_data st))).
  - intros (c & e & (st & Hst & [= Ha Hc _])%bind_Some & Hd). exists st, c.
    split; [done|]. split; [by apply ok_opt_Some|done].
Qed.

Lemma vault_same w w' k v : encrypted w' k = encrypted w k → vault_at w k v → vault_at w' k v.
Proof. rewrite !vault_encrypted. intros E (c & e & H). exists c, e. by rewrite E. Qed.

(** The key of the account has a secret: [ConfigureAccount] asks for its proof. *)
Definition keyed w (k : Pubkey) : Prop :=
  ∀ st c, account_at w k = Some st →
    get_account_ext ConfidentialTransferAccount (tlv_data st) = Ok c → real_key (cta_elgamal_pubkey c).

Lemma keyed_encrypted w k : keyed w k ↔
  ∀ x c e, encrypted w k = Some (x, Some c, e) → real_key (cta_elgamal_pubkey c).
Proof.
  unfold keyed, encrypted. split.
  - intros H x c e (st & Hst & [= _ Hc _])%bind_Some. apply (H st c Hst). by apply ok_opt_Some.
  - intros H st c Hst Hc. eapply H. rewrite Hst. cbn. rewrite Hc. done.
Qed.

Lemma keyed_same w w' k : encrypted w' k = encrypted w k → keyed w k → keyed w' k.
Proof. rewrite !keyed_encrypted. intros E H x c e. rewrite E. apply H. Qed.

(** Every vault stays as it is. *)
Definition keeps_vaults w w' : Prop :=
  ∀ k, owner (get_account w k) = id → encrypted w' k = encrypted w k.

Lemma only_these_trans ks w1 w2 w3 :
  only_these ks w1 w2 → only_these ks w2 w3 → only_these ks w1 w3.
Proof.
  intros H1 H2 k Hk. destruct (H1 k Hk) as [Ho E1], (H2 k Ho) as [Ho2 E2].
  split; [done|]. intros Hks. by rewrite E2, E1.
Qed.

Lemma only_these_write ks w i st : key i ∈ ks → only_these ks w (write_account w i st).
Proof.
  intros Hi k Hk. unfold write_account. rewrite owner_set_data. split; [done|].
  intros Hks. rewrite data_set_data, decide_False; [done|]. by intros <-.
Qed.

Lemma foreign_only ks w w' : foreign_step w w' → only_these ks w w'.
Proof. intros H k Hk. destruct (H k) as [Hd _]. by destruct (Hd Hk). Qed.

Lemma encrypted_data w w' k : data (get_account w' k) = data (get_account w k) →
  encrypted w' k = encrypted w k.
Proof. intros E. unfold encrypted. by rewrite (account_at_data w w' k E). Qed.

Lemma foreign_vaults w w' : foreign_step w w' → keeps_vaults w w'.
Proof. intros H k Hk. apply encrypted_data. destruct (H k) as [Hd _]. by destruct (Hd Hk). Qed.

(** Writing another extension of an account *)
Lemma write_other_vaults V `{!Extension V} w i st (x y : V) : account_at w (key i) = Some st →
  get_account_ext V (tlv_data st) = Ok x → TYPE V ≠ ExtensionType.ConfidentialTransferAccount →
  TYPE V ≠ ExtensionType.ConfidentialTransferFeeAmount →
  keeps_vaults w (write_account w i (put_account_ext y st)).
Proof.
  intros Hst Hx HV HW k _. destruct (decide (k = key i)) as [->|Hk].
  - unfold encrypted. rewrite Hst, account_at_write; cbn [mbind option_bind tlv_data base with_tlv].
    + by rewrite !(get_put_account_ne V _ x).
    + apply (state_ok_put st x y); [by apply (account_at_ok w (key i))|done].
  - apply encrypted_data. unfold write_account. rewrite data_set_data, decide_False; [done|]. congruence.
Qed.

Lemma mark_vaults mi i w w' : mark_transferring mi i w = Ok w' →
  keeps_vaults w w' ∧ only_these [key i] w w'.
Proof.
  intros (st & x & Hst & Hx & ->)%mark_transferring_Ok.
  split; [by eapply write_other_vaults|apply only_these_write; set_solver].
Qed.

Lemma unmark_vaults held i w w' : unset_transferring held w i = Ok w' →
  keeps_vaults w w' ∧ only_these [key i] w w'.
Proof.
  intros (d & [_ ->]%borrow_Ok & (st & Hst & (x & Hx & [= <-])%bind_Ok)%bind_Ok)%bind_Ok.
  apply account_at_Some in Hst.
  split; [|apply only_these_write; set_solver].
  by apply (write_other_vaults TransferHookAccount w i st x (mkTransferHookAccount (from_bool false))).
Qed.

Lemma confidential_hook_vaults hook si mi di ai signers w w' : hook_foreign rt →
  confidential_hook_call hook si mi di ai signers w = Ok w' →
  keeps_vaults w w' ∧ only_these [key si; key di] w w'.
Proof.
  intros Hh (w1 & H1%mark_vaults & (w2 & H2%mark_vaults & (w3 & H3%Hh & (w4 & H4%unmark_vaults &
    H5%unmark_vaults)%bind_Ok)%bind_Ok)%bind_Ok)%bind_Ok.
  assert (∀ a b k, keeps_vaults a b ∧ only_these [k] a b → k ∈ [key si; key di] →
    keeps_vaults a b ∧ only_these [key si; key di] a b) as Hw.
  { intros a b k [H Ho] Hk. split; [done|]. intros k' Hk'. destruct (Ho k' Hk') as [Hid Hd].
    split; [done|]. intros Hn. apply Hd. set_solver. }
  apply Hw in H1 as [K1 O1], H2 as [K2 O2], H4 as [K4 O4], H5 as [K5 O5]; try set_solver.
  pose proof (foreign_vaults _ _ H3) as K3. pose proof (foreign_only [key si; key di] _ _ H3) as O3.
  split; [|by do 4 (eapply only_these_trans; [eassumption|])].
  intros k Hk. destruct (O1 k Hk) as [Ho1 _], (O2 k Ho1) as [Ho2 _], (O3 k Ho2) as [Ho3 _].
  destruct (O4 k Ho3) as [Ho4 _]. by rewrite K5, K4, K3, K2, K1.
Qed.

(** Writing a vault keeps the fees withheld. *)
Lemma vault_write_withheld w i st c c' k pk n : account_at w (key i) = Some st →
  get_account_ext ConfidentialTransferAccount (tlv_data st) = Ok c →
  withheld_at w k pk n → withheld_at (write_account w i (put_account_ext c' st)) k pk n.
Proof.
  intros Hst Hc (x & y & e & He & Hd).
  destruct (decide (k = key i)) as [->|Hk].
  - unfold encrypted in He. rewrite Hst in He. injection He as Hx Hy He.
    exists x, (ok_opt (get_account_ext ConfidentialTransferAccount (tlv_data (put_account_ext c' st)))), e.
    split; [|done]. unfold encrypted. rewrite account_at_write.
    + cbn [mbind option_bind].
      rewrite (get_put_account_ne ConfidentialTransferAccount ConfidentialTransferFeeAmount c) by done.
      by rewrite <-Hx, He.
    + apply (state_ok_put st c c'); [by apply (account_at_ok w (key i))|done].
  - exists x, y, e. split; [|done]. rewrite <-He. apply encrypted_data.
    unfold write_account. rewrite data_set_data, decide_False; [done|]. congruence.
Qed.

(** The same key is in use after a write. *)
Lemma keyed_write w i st c c' : account_at w (key i) = Some st →
  get_account_ext ConfidentialTransferAccount (tlv_data st) = Ok c → c_ok ext_codec c' →
  real_key (cta_elgamal_pubkey c') → keyed (write_account w i (put_account_ext c' st)) (key i).
Proof.
  intros Hst Hc Hok Hr st' c1 Hst' Hc1. rewrite account_at_write in Hst'.
  - injection Hst' as <-. rewrite (get_put_account ConfidentialTransferAccount c) in Hc1 by done.
    by injection Hc1 as <-.
  - apply (state_ok_put st c c'); [by apply (account_at_ok w (key i))|done].
Qed.

(** ** Transfers *)
Lemma part_of handles g_lo g_hi keys lo hi i k x y : parts handles g_lo g_hi keys lo hi →
  keys !! i = Some k → real_key k → extract_ciphertext handles g_lo i = Some x →
  extract_ciphertext handles g_hi i = Some y → decrypts (secret k) x lo ∧ decrypts (secret k) y hi.
Proof. intros [[_ Hl] [_ Hh] _] Hk Hr Hx Hy. eauto. Qed.

(** A pending balance that ciphertexts are added to, *)
Lemma credited_ok c v d1 d2 x y lo hi : c_ok ext_codec c → decrypted c v →
  in_uint 64 (cta_pending_balance_credit_counter c + 1) →
  let s := secret (cta_elgamal_pubkey c) in decrypts s d1 lo ∧ decrypts s d2 hi →
  ciphertext_arithmetic.add (cta_pending_balance_lo c) d1 = Some x →
  ciphertext_arithmetic.add (cta_pending_balance_hi c) d2 = Some y →
  c_ok ext_codec (deposited x y c) ∧ decrypted (deposited x y c) (v_receive lo hi v).
Proof using sizes.
  intros Hok Hdec Hn s [D1 D2] Hx Hy.
  destruct (add_decrypts _ _ _ _ _ (dec_lo _ _ Hdec) D1) as (z & Hz & Dz).
  destruct (add_decrypts _ _ _ _ _ (dec_hi _ _ Hdec) D2) as (t & Ht & Dt).
  rewrite Hx in Hz. rewrite Hy in Ht. injection Hz as <-. injection Ht as <-.
  by apply deposited_ok.
Qed.

(** and an available balance they are subtracted from. *)
Lemma debited_ok c v x y z lo hi left new : c_ok ext_codec c → decrypted c v →
  let s := secret (cta_elgamal_pubkey c) in decrypts s x lo ∧ decrypts s y hi →
  ciphertext_arithmetic.subtract_with_lo_hi (cta_available_balance c) x y = Some z →
  decrypts s z left → in_uint 64 left → in_uint 16 lo ∧ in_uint 32 hi →
  0 ≤ v_available v < 2 ^ 200 → c_ok ae_ciphertext_codec new →
  v_available v - combined lo hi = left ∧ c_ok ext_codec (set_available_balance z new c) ∧
  decrypted (set_available_balance z new c) (v_send (combined lo hi) v).
Proof using sizes.
  intros Hok [Da Dl Dh Dc Dm] s [Dx Dy] Hsub Hleft Hl [Hlo Hhi] Hvr Hnew.
  destruct (subtract_with_lo_hi_decrypts _ _ _ _ _ _ _ Da Dx Dy) as (t & Ht & Dt).
  rewrite Hsub in Ht. injection Ht as <-.
  pose proof (combined_bound lo hi Hlo Hhi). assert (2 ^ 48 < 2 ^ 200) by done.
  split; [by apply (proved_balance s z); [..|lia|]|].
  split; [by apply cta_ok_available; [|eapply decrypts_length|]|by constructor].
Qed.

Lemma source_step pid si mi ai signers k g_lo g_hi ns new w w' keys lo hi left v :
  source_for_transfer pid si mi ai signers k g_lo g_hi ns new w = Ok w' →
  parts 3 g_lo g_hi keys lo hi → keys !! 0%nat = Some k → real_key k → decrypts (secret k) ns left →
  in_uint 64 left → c_ok ae_ciphertext_codec new → 0 ≤ v_available v < 2 ^ 200 →
  vault_at w (key si) v →
  info_owner w si = id ∧ v_available v - combined lo hi = left ∧
  vault_at w' (key si) (v_send (combined lo hi) v) ∧ keyed w' (key si) ∧
  (∃ st, w' = write_account w si st) ∧
  (∀ k' pk n, withheld_at w k' pk n → withheld_at w' k' pk n).
Proof using sizes.
  intros (st & c & x & y & Ho & Hst & _ & _ & _ & _ & Hc & _ & <- & Hx & Hy & Hsub & ->)
    %source_for_transfer_Ok Hp Hk Hreal Hleft Hl Hnew Hvr Hv.
  destruct (vault_read _ _ _ _ _ Hv Hst Hc) as (Ha & Hdec & Hok).
  destruct (part_of _ _ _ _ _ _ _ _ _ _ Hp Hk Hreal Hx Hy) as [Dx Dy].
  destruct (debited_ok c v x y ns lo hi left new) as (Hn & Hok' & Hdec'); [done..|apply Hp|done|done|].
  split; [done|]. split; [done|]. split; [|split; [|split; [by eexists|]]].
  - by apply (vault_write_ext w si st c).
  - by apply (keyed_write w si st c).
  - intros k' pk n. by apply (vault_write_withheld w si st c).
Qed.

(** What the destination's handlers compute before they write. *)
Lemma destination_step di mi k g_lo g_hi w c' st keys lo hi v :
  destination_for_transfer di mi k g_lo g_hi w = Ok (c', st) →
  parts 3 g_lo g_hi keys lo hi → keys !! 1%nat = Some k → vault_at w (key di) v → keyed w (key di) →
  info_owner w di = id ∧ v_credits v + 1 ≤ v_maximum v ∧ cta_elgamal_pubkey c' = k ∧
  (∃ c, get_account_ext ConfidentialTransferAccount (tlv_data st) = Ok c) ∧
  account_at w (key di) = Some st ∧ Pod.amount (base st) = v_public v ∧
  c_ok ext_codec c' ∧ real_key (cta_elgamal_pubkey c') ∧ decrypted c' (v_receive lo hi v).
Proof using sizes.
  intros (c & Ho & Hst & _ & _ & Hc & (_ & _ & Hcr)%valid_as_destination_Ok &
    (x & y & x' & y' & -> & Hx & Hy & Hx' & Hy' & Hn & ->)%credit_pending_Ok)
    %destination_for_transfer_Ok Hp Hk Hv Hreal.
  destruct (vault_read _ _ _ _ _ Hv Hst Hc) as (Ha & Hdec & Hok).
  destruct (credited_ok c v x y x' y' lo hi) as [Hok' Hdec'];
    [done..|exact (part_of _ _ _ _ _ _ _ _ _ _ Hp Hk (Hreal _ _ Hst Hc) Hx Hy)|done|done|].
  rewrite (dec_credits _ _ Hdec), (dec_maximum _ _ Hdec) in Hcr. pose proof (Hreal _ _ Hst Hc).
  split_and!; eauto.
Qed.

Lemma keeps_vault w w' k v : keeps_vaults w w' → owner (get_account w k) = id →
  vault_at w k v → vault_at w' k v.
Proof. intros H Hk. by apply vault_same, H. Qed.

Lemma keeps_withheld w w' k pk n : keeps_vaults w w' → owner (get_account w k) = id →
  withheld_at w k pk n → withheld_at w' k pk n.
Proof. intros H Hk (x & y & e & E & Hd). exists x, y, e. by rewrite (H k Hk). Qed.

(** The destination as the credit finds it: a transfer to itself is debited first. *)
Definition found_at (si di : AccountInfo) (n : Z) (v u : vault) : vault :=
  if key si =? key di then v_send n v else u.

Lemma found w si di st n v u : vault_at w (key di) u →
  vault_at (write_account w si st) (key si) (v_send n v) →
  vault_at (write_account w si st) (key di) (found_at si di n v u).
Proof.
  intros Hu Hs. unfold found_at. destruct (Z.eqb_spec (key si) (key di)) as [E|E]; [by rewrite <-E|].
  apply (vault_same w); [|done]. apply encrypted_data.
  unfold write_account. by rewrite data_set_data, decide_False.
Qed.

Lemma found_keyed w si di st : keyed w (key di) → keyed (write_account w si st) (key si) →
  keyed (write_account w si st) (key di).
Proof.
  intros Hu Hs. destruct (decide (key si = key di)) as [E|E]; [by rewrite <-E|].
  apply (keyed_same w); [|done]. apply encrypted_data.
  unfold write_account. by rewrite data_set_data, decide_False.
Qed.

(** The source's vault after the destination was written too. *)
Lemma both_sides w si di st st' v : vault_at (write_account w si st) (key si) v →
  key si ≠ key di → vault_at (write_account (write_account w si st) di st') (key si) v.
Proof.
  intros Hs E. apply (vault_same (write_account w si st)); [|done]. apply encrypted_data.
  unfold write_account at 1. by rewrite data_set_data, decide_False.
Qed.

(** The accounts of a transfer that are written, the source first. *)
Definition writes_both (si di : AccountInfo) w w' : Prop :=
  info_owner w si = id ∧ info_owner w di = id ∧
  ∃ st st', w' = write_account (write_account w si st) di st'.

Lemma writes_both_only si di w w' : writes_both si di w w' → only_these [key si; key di] w w'.
Proof.
  intros (_ & _ & st & st' & ->). eapply only_these_trans; apply only_these_write; set_solver.
Qed.

Lemma hook_vaults (hook : option Pubkey) si mi di ai signers w w' : hook_foreign rt →
  match hook with
  | Some hook => confidential_hook_call hook si mi di ai signers w = Ok w'
  | None => w' = w
  end → keeps_vaults w w' ∧ only_these [key si; key di] w w'.
Proof.
  intros Hh. destruct hook as [h|]; [by apply confidential_hook_vaults|].
  intros ->. split; [done|]. done.
Qed.

(** What the two sides of a transfer are left with, after the hook too. *)
Lemma sides_after_hook hook si mi di ai signers w w1 w' v u' : hook_foreign rt →
  writes_both si di w w1 →
  match hook with
  | Some hook => confidential_hook_call hook si mi di ai signers w1 = Ok w'
  | None => w' = w1
  end →
  vault_at w1 (key di) u' → (key si ≠ key di → vault_at w1 (key si) v) →
  owner (get_account w1 (key di)) = id ∧ keeps_vaults w1 w' ∧
  vault_at w' (key di) u' ∧ (key si ≠ key di → vault_at w' (key si) v) ∧
    only_these [key si; key di] w w'.
Proof.
  intros Hh Hw [K O]%hook_vaults Hu Hv; [|done]. pose proof (writes_both_only _ _ _ _ Hw) as Ho.
  destruct Hw as (Hs & Hd & _). destruct (Ho (key si) Hs) as [Hs1 _], (Ho (key di) Hd) as [Hd1 _].
  split; [done|]. split; [done|]. split; [by apply (keeps_vault w1)|].
  split; [intros E; apply (keeps_vault w1); auto|by eapply only_these_trans].
Qed.

(** The auditor of the mint, if there is one, reads the amount. *)
Definition audited (cm : ConfidentialTransferMint) (a_lo a_hi : PodElGamalCiphertext) (lo hi : Z) : Prop :=
  let auditor := ctm_auditor_elgamal_pubkey cm in
  real_key auditor → decrypts (secret auditor) a_lo lo ∧ decrypts (secret auditor) a_hi hi.

Lemma transfer_without_fee_step pid si mi di accounts cm new a_lo a_hi o1 o2 o3 w ai signers w' v u :
  proofs_hold w → c_ok ae_ciphertext_codec new →
  vault_at w (key si) v → 0 ≤ v_available v < 2 ^ 200 → vault_at w (key di) u → keyed w (key di) →
  transfer_without_fee pid si mi di accounts cm new a_lo a_hi o1 o2 o3 w = Ok (ai, signers, w') →
  ∃ lo hi, let n := combined lo hi in let u' := found_at si di n v u in
    in_uint 16 lo ∧ in_uint 32 hi ∧ 0 ≤ v_available v - n < 2 ^ 64 ∧
    v_credits u' + 1 ≤ v_maximum u' ∧
    audited cm a_lo a_hi lo hi ∧
    writes_both si di w w' ∧ vault_at w' (key di) (v_receive lo hi u') ∧
    (key si ≠ key di → vault_at w' (key si) (v_send n v)).
Proof using sizes.
  intros Hw Hnew Hv Hvr Hu Hud (ctx & w1 & Hctx & Hau & Hx & Hy & Hs & Hd)%transfer_without_fee_Ok.
  destruct (transfer_proof_meaning _ _ _ _ _ _ _ _ Hw Hctx) as (Hreal & left & lo & hi & Hl & Dl & Hp).
  destruct (source_step _ _ _ _ _ _ _ _ _ _ _ _ _ _ _ _ _ Hs Hp eq_refl Hreal Dl Hl Hnew Hvr Hv)
    as (Hos & Hleft & Hv1 & Hk1 & [st Hw1] & _).
  apply bind_Ok in Hd as ([c' st'] & Hd & [= <-]). subst w1.
  pose proof (found _ _ _ _ _ _ _ Hu Hv1) as Hf. pose proof (found_keyed _ _ _ _ Hud Hk1) as Hfk.
  destruct (destination_step _ _ _ _ _ _ _ _ _ _ _ _ Hd Hp eq_refl Hf Hfk)
    as (Hod & Hcr & _ & [c Hc] & Hst & Ha & Hok & _ & Hdec).
  assert (audited cm a_lo a_hi lo hi) as Hau'.
  { intros Hreal'. rewrite <-Hau in *.
    exact (part_of _ _ _ _ _ _ _ _ _ _ Hp (eq_refl (Some _) : _ !! 2%nat = _) Hreal' Hx Hy). }
  destruct Hp as [_ _ [Hlo Hhi]]. exists lo, hi. cbv zeta. rewrite Hleft.
  do 5 (split; [done|]). split; [|split].
  - split; [done|]. split; [|by do 2 eexists]. rewrite <-Hod. symmetry. apply owner_set_data.
  - by apply (vault_write_ext _ di st' c c').
  - by apply (both_sides w si di st).
Qed.

Lemma process_transfer_step pid si mi di accounts new a_lo a_hi o1 o2 fs fv o3 w w' m cm v u :
  hook_foreign rt → proofs_hold w → c_ok ae_ciphertext_codec new →
  mint_at w (key mi) = Some m →
  get_mint_ext ConfidentialTransferMint (tlv_data m) = Ok cm →
  is_ok (get_mint_ext TransferFeeConfig (tlv_data m)) = false →
  vault_at w (key si) v → 0 ≤ v_available v < 2 ^ 200 → vault_at w (key di) u → keyed w (key di) →
  process_transfer pid (si :: mi :: di :: accounts) new a_lo a_hi o1 o2 fs fv o3 w = Ok w' →
  ∃ lo hi, let n := combined lo hi in let u' := found_at si di n v u in
    in_uint 16 lo ∧ in_uint 32 hi ∧ 0 ≤ v_available v - n < 2 ^ 64 ∧
    v_credits u' + 1 ≤ v_maximum u' ∧
    audited cm a_lo a_hi lo hi ∧
    vault_at w' (key di) (v_receive lo hi u') ∧
    (key si ≠ key di → vault_at w' (key si) (v_send n v)) ∧
    only_these [key si; key di] w w'.
Proof using sizes.
  intros Hh Hw Hnew Hm Hcm Hfee Hv Hvr Hu Hud H.
  apply confidential_transfer_Ok in H as (m' & cm' & ai & signers & w1 & _ & Hm' & _ & Hcm' & Ht & Hk).
  rewrite Hm in Hm'. injection Hm' as <-. rewrite Hcm in Hcm'. injection Hcm' as <-.
  rewrite Hfee in Ht.
  destruct (transfer_without_fee_step _ _ _ _ _ _ _ _ _ _ _ _ _ _ _ _ _ _ Hw Hnew Hv Hvr Hu Hud Ht)
    as (lo & hi & Hlo & Hhi & Hr & Hcr & Hau & Hb & Hd & Hs).
  destruct (sides_after_hook (get_program_id PodMint (tlv_data m)) si mi di ai signers w w1 w'
    (v_send (combined lo hi) v) _ Hh Hb Hk Hd Hs) as (_ & _ & Hd' & Hs' & Ho).
  exists lo, hi. by do 5 (split; [done|]).
Qed.

(** ** Transfers with a fee *)
Lemma epoch_fee_ok m cfg epoch : get_mint_ext TransferFeeConfig m = Ok cfg →
  in_uint 16 (tf_transfer_fee_basis_points (get_epoch_fee cfg epoch)) ∧
  in_uint 64 (tf_maximum_fee (get_epoch_fee cfg epoch)).
Proof.
  intros H. apply (get_extension_ok PodMint cfg) in H.
  destruct H as (_ & _ & _ & (_ & Ho1 & Ho2) & (_ & Hn1 & Hn2)).
  unfold get_epoch_fee. by destruct (_ <=? _).
Qed.

(** Writing a vault and the fees withheld at once *)
Section write_fee.
Context w (i : AccountInfo) st c c' (x : PodElGamalCiphertext) (v : vault).
Hypothesis Hst : account_at w (key i) = Some st.
Hypothesis Hc : get_account_ext ConfidentialTransferAccount (tlv_data st) = Ok c.
Hypothesis Ha : Pod.amount (base st) = v_public v.
Hypothesis Hok : c_ok ext_codec c'.
Hypothesis Hd : decrypted c' v.
Hypothesis He : ∃ e,
  get_account_ext ConfidentialTransferFeeAmount (tlv_data (put_account_ext c' st)) = Ok e.

#[local] Abbreviation written :=
  (put_account_ext (mkConfidentialTransferFeeAmount x) (put_account_ext c' st)).

Lemma written_at : account_at (write_account w i written) (key i) = Some written.
Proof using Hst Hc He.
  destruct He as [e He']. apply account_at_write.
  apply (state_ok_put (put_account_ext c' st) e); [|done].
  apply (state_ok_put st c); [by apply (account_at_ok w (key i))|done].
Qed.

Lemma written_vault : get_account_ext ConfidentialTransferAccount (tlv_data written) = Ok c'.
Proof using Hc Hok He.
  destruct He as [e He']. rewrite (get_put_account_ne _ _ e) by done. by rewrite (get_put_account _ c).
Qed.

Lemma vault_write_fee : vault_at (write_account w i written) (key i) v.
Proof using Hst Hc Ha Hok Hd He.
  exists written, c'. split; [apply written_at|]. split; [apply written_vault|done].
Qed.

Lemma withheld_write_fee pk n : decrypts (secret pk) x n →
  withheld_at (write_account w i written) (key i) pk n.
Proof using Hst Hc He sizes.
  intros Hx. exists (Pod.amount (base st)), (ok_opt (get_account_ext ConfidentialTransferAccount
    (tlv_data written))), (mkConfidentialTransferFeeAmount x). split; [|done].
  unfold encrypted. rewrite written_at. cbn [mbind option_bind]. destruct He as [e He'].
  assert (c_ok ext_codec (mkConfidentialTransferFeeAmount x)) by apply (decrypts_length _ _ _ Hx).
  by rewrite (get_put_account ConfidentialTransferFeeAmount e).
Qed.
End write_fee.

Lemma fee_ciphertexts f_lo f_hi c e x y z v keys lo hi pk : fee_taken f_lo f_hi c e x y z →
  parts 2 f_lo f_hi keys lo hi → keys !! 0%nat = Some (cta_elgamal_pubkey c) →
  keys !! 1%nat = Some pk → real_key (cta_elgamal_pubkey c) → decrypted c v →
  let k := secret (cta_elgamal_pubkey c) in
  decrypts k x (v_lo v - lo) ∧ decrypts k y (v_hi v - hi) ∧
  (real_key pk →
   ∀ n, decrypts (secret pk) (ctfa_withheld_amount e) n → decrypts (secret pk) z (n + combined lo hi)).
Proof.
  intros [(d1 & Hd1 & Hx) (d2 & Hd2 & Hy) (d3 & d4 & Hd3 & Hd4 & Hz)] Hp Hk0 Hk1 Hr0 [_ Dl Dh _ _] k.
  destruct (part_of _ _ _ _ _ _ _ _ _ _ Hp Hk0 Hr0 Hd1 Hd2) as [D1 D2].
  destruct (subtract_decrypts _ _ _ _ _ Dl D1) as (? & Hx' & ?).
  destruct (subtract_decrypts _ _ _ _ _ Dh D2) as (? & Hy' & ?).
  subst k. split_and!; [congruence..|]. intros Hr1 n Hn.
  destruct (part_of _ _ _ _ _ _ _ _ _ _ Hp Hk1 Hr1 Hd3 Hd4) as [D3 D4].
  destruct (add_with_lo_hi_decrypts _ _ _ _ _ _ _ Hn D3 D4) as (? & Hz' & ?). congruence.
Qed.

Lemma withheld_read w i st c c' pk n e : account_at w (key i) = Some st →
  get_account_ext ConfidentialTransferAccount (tlv_data st) = Ok c →
  get_account_ext ConfidentialTransferFeeAmount (tlv_data (put_account_ext c' st)) = Ok e →
  withheld_at w (key i) pk n → decrypts (secret pk) (ctfa_withheld_amount e) n.
Proof.
  intros Hst Hc He (x & y & e' & E & Hd). unfold encrypted in E. rewrite Hst in E.
  rewrite (get_put_account_ne _ _ c) in He by done.
  injection E as _ _ E. rewrite He in E. by injection E as <-.
Qed.

(** The fee the destination pays: none when it is the source. *)
Definition taken (self : bool) (n : Z) : Z := if self then 0 else n.

Lemma destination_with_fee_step di mi ctx self w w' lo hi f_lo f_hi v :
  let keys := tfp_transfer_with_fee_pubkeys ctx in
  process_destination_for_transfer_with_fee di mi ctx self w = Ok w' →
  parts 3 (tfp_ciphertext_lo ctx) (tfp_ciphertext_hi ctx)
    [tfp_source keys; tfp_destination keys; tfp_auditor keys] lo hi →
  parts 2 (tfp_fee_ciphertext_lo ctx) (tfp_fee_ciphertext_hi ctx)
    [tfp_destination keys; tfp_withdraw_withheld_authority keys] f_lo f_hi →
  vault_at w (key di) v → keyed w (key di) →
  info_owner w di = id ∧ v_credits v + 1 ≤ v_maximum v ∧ (∃ st, w' = write_account w di st) ∧
  vault_at w' (key di) (v_receive (lo - taken self f_lo) (hi - taken self f_hi) v) ∧
  (real_key (tfp_withdraw_withheld_authority keys) →
   ∀ n, withheld_at w (key di) (tfp_withdraw_withheld_authority keys) n →
     withheld_at w' (key di) (tfp_withdraw_withheld_authority keys)
       (n + taken self (combined f_lo f_hi))).
Proof using sizes.
  intros keys (c' & st & Hd & H)%destination_with_fee_Ok Hp Hf Hv Hvk.
  destruct (destination_step _ _ _ _ _ _ _ _ _ _ _ _ Hd Hp eq_refl Hv Hvk)
    as (Ho & Hcr & Hk & [c Hc] & Hst & Ha & Hok & Hkc & Hdec).
  split; [done|]. split; [done|]. destruct self.
  - cbn [taken]. rewrite !Z.sub_0_r. subst w'. split; [by eexists|].
    split; [by apply (vault_write_ext w di st c)|].
    intros _ n. rewrite Z.add_0_r. by apply (vault_write_withheld w di st c).
  - destruct H as (e & x & y & z & He & Ht & ->). split; [by eexists|]. cbn [taken].
    destruct (fee_ciphertexts _ _ _ _ _ _ _ _ _ _ _ _ Ht Hf ltac:(by rewrite Hk) eq_refl Hkc Hdec)
      as (Dx & Dy & Dz).
    split.
    + apply (vault_write_fee w di st c); [done..| | |by eexists].
      * apply cta_ok_pending; [done|by eapply decrypts_length..].
      * destruct Hdec as [D1 _ _ D4 D5]. constructor; cbn; [done| | |done..]; by rewrite Z.add_sub_assoc.
    + intros Hr n Hn. apply (withheld_write_fee w di st c); [done|done|by eexists|].
      apply (Dz Hr). by apply (withheld_read w di st c (set_pending_balance x y c')).
Qed.

Lemma transfer_with_fee_step pid si mi di accounts m cm new a_lo a_hi o1 o2 fs fv o3 w ai signers w'
    v u :
  proofs_hold w → c_ok ae_ciphertext_codec new →
  vault_at w (key si) v → 0 ≤ v_available v < 2 ^ 200 → vault_at w (key di) u → keyed w (key di) →
  transfer_with_fee pid si mi di accounts (mkRef (base m) (tlv_data m)) cm new a_lo a_hi o1 o2 fs fv o3 w
    = Ok (ai, signers, w') →
  ∃ cfg fcfg clock lo hi f_lo f_hi, let n := combined lo hi in let u' := found_at si di n v u in
    let self := key si =? key di in let rates := get_epoch_fee cfg (epoch clock) in
    get_mint_ext TransferFeeConfig (tlv_data m) = Ok cfg ∧
    get_mint_ext ConfidentialTransferFeeConfig (tlv_data m) = Ok fcfg ∧ clock_get = Ok clock ∧
    fee_allowed (tf_transfer_fee_basis_points rates) (tf_maximum_fee rates) n (combined f_lo f_hi) ∧
    (in_uint 16 f_lo ∧ in_uint 32 f_hi) ∧
    in_uint 16 lo ∧ in_uint 32 hi ∧ 0 ≤ v_available v - n < 2 ^ 64 ∧
    v_credits u' + 1 ≤ v_maximum u' ∧
    audited cm a_lo a_hi lo hi ∧
    writes_both si di w w' ∧
    vault_at w' (key di) (v_receive (lo - taken self f_lo) (hi - taken self f_hi) u') ∧
    (key si ≠ key di → vault_at w' (key si) (v_send n v)) ∧
    (let authority := ctfc_withdraw_withheld_authority_elgamal_pubkey fcfg in
     real_key authority → ∀ h, withheld_at w (key di) authority h →
       withheld_at w' (key di) authority (h + taken self (combined f_lo f_hi))).
Proof using sizes.
  intros Hw Hnew Hv Hvr Hu Hud H.
  apply transfer_with_fee_Ok in H as (cfg & clk & fs' & fv' & ctx & fcfg & w1 & Hcfg & Hclk & _ & _ &
    Hctx & Hau & Hfcfg & Hwk & Hx & Hy & Hs & Hd).
  destruct (epoch_fee_ok _ _ (epoch clk) Hcfg) as [Hr1 Hr2].
  destruct (transfer_with_fee_proof_meaning _ _ _ _ _ _ _ _ _ _ _ Hw Hr1 Hr2 Hctx)
    as (Hreal & left & lo & hi & f_lo & f_hi & Hl & Dl & Hp & Hf & Hfee).
  destruct (source_step _ _ _ _ _ _ _ _ _ _ _ _ _ _ _ _ _ Hs Hp eq_refl Hreal Dl Hl Hnew Hvr Hv)
    as (Hos & Hleft & Hv1 & Hk1 & [st Hw1] & Hwk1).
  subst w1. pose proof (found _ _ _ _ _ _ _ Hu Hv1) as Hfound.
  pose proof (found_keyed _ _ _ _ Hud Hk1) as Hfk.
  destruct (destination_with_fee_step _ _ _ _ _ _ _ _ _ _ _ Hd Hp Hf Hfound Hfk)
    as (Hod & Hcr & [st' Hw2] & Hdv & Hdw). subst w'.
  assert (audited cm a_lo a_hi lo hi) as Hau'.
  { intros Hreal'. rewrite <-Hau in *.
    exact (part_of _ _ _ _ _ _ _ _ _ _ Hp (eq_refl (Some _) : _ !! 2%nat = _) Hreal' Hx Hy). }
  destruct Hp as [_ _ [Hlo Hhi]], Hf as [_ _ Hf].
  exists cfg, fcfg, clk, lo, hi, f_lo, f_hi. cbv zeta. rewrite Hleft, <-Hwk.
  do 10 (split; [done|]). split; [|split; [done|]].
  - split; [done|]. split; [|by do 2 eexists]. rewrite <-Hod. symmetry. apply owner_set_data.
  - split; [by apply (both_sides w si di st)|]. auto.
Qed.

Lemma process_transfer_with_fee_step pid si mi di accounts new a_lo a_hi o1 o2 fs fv o3 w w' m cm cfg
    fcfg v u :
  hook_foreign rt → proofs_hold w → c_ok ae_ciphertext_codec new →
  mint_at w (key mi) = Some m →
  get_mint_ext ConfidentialTransferMint (tlv_data m) = Ok cm →
  get_mint_ext TransferFeeConfig (tlv_data m) = Ok cfg →
  get_mint_ext ConfidentialTransferFeeConfig (tlv_data m) = Ok fcfg →
  vault_at w (key si) v → 0 ≤ v_available v < 2 ^ 200 → vault_at w (key di) u → keyed w (key di) →
  process_transfer pid (si :: mi :: di :: accounts) new a_lo a_hi o1 o2 fs fv o3 w = Ok w' →
  ∃ clock lo hi f_lo f_hi, let n := combined lo hi in let u' := found_at si di n v u in
    let self := key si =? key di in let rates := get_epoch_fee cfg (epoch clock) in
    clock_get = Ok clock ∧
    fee_allowed (tf_transfer_fee_basis_points rates) (tf_maximum_fee rates) n (combined f_lo f_hi) ∧
    in_uint 16 lo ∧ in_uint 32 hi ∧ 0 ≤ v_available v - n < 2 ^ 64 ∧
    v_credits u' + 1 ≤ v_maximum u' ∧
    audited cm a_lo a_hi lo hi ∧
    vault_at w' (key di) (v_receive (lo - taken self f_lo) (hi - taken self f_hi) u') ∧
    (let authority := ctfc_withdraw_withheld_authority_elgamal_pubkey fcfg in
     real_key authority → ∀ h, withheld_at w (key di) authority h →
       withheld_at w' (key di) authority (h + taken self (combined f_lo f_hi))) ∧
    (key si ≠ key di → vault_at w' (key si) (v_send n v)) ∧
    only_these [key si; key di] w w'.
Proof using sizes.
  intros Hh Hw Hnew Hm Hcm Hcfg Hfcfg Hv Hvr Hu Hud H.
  apply confidential_transfer_Ok in H as (m' & cm' & ai & signers & w1 & _ & Hm' & _ & Hcm' & Ht & Hk).
  rewrite Hm in Hm'. injection Hm' as <-. rewrite Hcm in Hcm'. injection Hcm' as <-.
  rewrite Hcfg in Ht. cbn [is_ok] in Ht.
  destruct (transfer_with_fee_step _ _ _ _ _ _ _ _ _ _ _ _ _ _ _ _ _ _ _ _ _ Hw Hnew Hv Hvr Hu Hud Ht)
    as (cfg' & fcfg' & clk & lo & hi & f_lo & f_hi & Hcfg' & Hfcfg' & Hclk & Hfee & _ & Hlo & Hhi & Hr &
        Hcr & Hau & Hb & Hd & Hs & Hwh).
  rewrite Hcfg in Hcfg'. injection Hcfg' as <-. rewrite Hfcfg in Hfcfg'. injection Hfcfg' as <-.
  destruct (sides_after_hook (get_program_id PodMint (tlv_data m)) si mi di ai signers w w1 w'
    (v_send (combined lo hi) v) _ Hh Hb Hk Hd Hs) as (Hod' & Hkeep & Hd' & Hs' & Ho).
  exists clk, lo, hi, f_lo, f_hi. cbv zeta. do 8 (split; [done|]). split; [|done].
  intros Hr' h Hwh'. by apply (keeps_withheld _ w' _ _ _ Hkeep Hod'), Hwh.
Qed.
End vaults.
