(* ===== verification/EncryptedSupply.v ===== *)
(** * Encrypted supplies and fees

    What confidential minting, burning and the collection of confidential fees do
    to the amounts behind the ciphertexts of the mint and of the accounts. *)
From S2P Require Import Prelude Codec Errors Runtime Pod State ExtensionType ExtensionData Tlv.
From S2P Require Import TlvFacts TlvAlloc StateExt PackedExt Fee Authority Transfer AccountFacts.
From S2P Require Import TransferFacts AccountOps AccountOpsFacts InitOps TransferFeeOps SystemOps.
From S2P Require Import CiphertextOps CiphertextFacts ProofExtraction ConfidentialOps.
From S2P Require Import ConfidentialTransferOps ConfidentialFeeOps ConfidentialMintBurnOps.
From S2P Require Import ConfidentialFacts ProofMeaning Ledger ConfidentialLedger LedgerFacts Vaults.

Section supply.
Import confidential_mint_burn.
Context `{rt : Runtime} `{curve : Curve} `{group : !CurveGroup} `{zk : !ZkSdk} `{op : !Openings}.
Hypothesis sizes : crypto_sizes rt.
Implicit Types (w : world) (st : PodStateMut PodAccount) (m : PodStateMut PodMint).
Implicit Types (c : ConfidentialTransferAccount) (e : ConfidentialMintBurn).

(** The confidential supply of a mint, and the burnt tokens not yet subtracted from
    it. *)
Record supply_decrypted e (supply pending : Z) : Prop := {
  dec_supply : decrypts (secret (cmb_supply_elgamal_pubkey e)) (cmb_confidential_supply e) supply;
  dec_pending_burn : decrypts (secret (cmb_supply_elgamal_pubkey e)) (cmb_pending_burn e) pending;
}.

Definition supply_at w (k : Pubkey) (supply pending : Z) : Prop :=
  ∃ m e, mint_at w k = Some m ∧ get_mint_ext ConfidentialMintBurn (tlv_data m) = Ok e ∧
    supply_decrypted e supply pending.

(** The supply is encrypted for a key that has a secret. *)
Definition supply_keyed w (k : Pubkey) : Prop :=
  ∀ m e, mint_at w k = Some m → get_mint_ext ConfidentialMintBurn (tlv_data m) = Ok e →
    real_key (cmb_supply_elgamal_pubkey e).

Lemma cmb_ok e : c_ok (ext_codec (V:=ConfidentialMintBurn)) e ↔
  (length (cmb_confidential_supply e) = elgamal_ciphertext_len ∧
   length (cmb_decryptable_supply e) = ae_ciphertext_len ∧
   length (cmb_supply_elgamal_pubkey e) = elgamal_pubkey_len ∧
   length (cmb_pending_burn e) = elgamal_ciphertext_len).
Proof. reflexivity. Qed.

Lemma cmb_ok_supply e supply d : c_ok ext_codec e → length supply = elgamal_ciphertext_len →
  length d = ae_ciphertext_len → c_ok ext_codec (set_confidential_supply supply d e).
Proof. rewrite !cmb_ok. cbn. naive_solver. Qed.

Lemma cmb_ok_pending_burn e pending : c_ok ext_codec e → length pending = elgamal_ciphertext_len →
  c_ok ext_codec (set_pending_burn pending e).
Proof. rewrite !cmb_ok. cbn. naive_solver. Qed.

(** The handlers write the extension of the mint last. *)
Lemma supply_write w i m e e' s p : mint_at w (key i) = Some m →
  get_mint_ext ConfidentialMintBurn (tlv_data m) = Ok e → c_ok ext_codec e' →
  supply_decrypted e' s p → supply_at (write_mint w i (put_mint_ext e' m)) (key i) s p.
Proof.
  intros Hm He Hok Hd. exists (put_mint_ext e' m), e'. split; [|split; [|done]].
  - apply mint_at_write. apply state_ok_with_tlv; [by apply (mint_at_ok w (key i))|].
    by apply (length_put_extension PodMint e e').
  - by apply (get_put_extension PodMint e e').
Qed.

Lemma supply_read w k s p m e : supply_at w k s p → mint_at w k = Some m →
  get_mint_ext ConfidentialMintBurn (tlv_data m) = Ok e → supply_decrypted e s p ∧ c_ok ext_codec e.
Proof.
  intros (m' & e' & Hm' & He' & Hd) Hm He.
  rewrite Hm in Hm'. injection Hm' as <-. rewrite He in He'. injection He' as <-.
  split; [done|]. by apply (get_extension_ok PodMint e (tlv_data m)).
Qed.

Lemma vault_write_mint w i m k v : k ≠ key i → vault_at w k v → vault_at (write_mint w i m) k v.
Proof.
  intros Hk. apply vault_same, encrypted_data.
  unfold write_mint. rewrite data_set_data, decide_False; [done|]. congruence.
Qed.

Lemma write_mint_only ks w i m : key i ∈ ks → only_these ks w (write_mint w i m).
Proof.
  intros Hi k Hk. unfold write_mint. rewrite owner_set_data. split; [done|].
  intros Hks. rewrite data_set_data, decide_False; [done|]. by intros <-.
Qed.

(** The writes of minting and burning *)
Lemma write_vault_supply w ti mi st m c c' e e' v s p :
  key ti ≠ key mi → mint_at w (key mi) = Some m →
  get_mint_ext ConfidentialMintBurn (tlv_data m) = Ok e → c_ok ext_codec e' →
  supply_decrypted e' s p → account_at w (key ti) = Some st →
  get_account_ext ConfidentialTransferAccount (tlv_data st) = Ok c →
  Pod.amount (base st) = v_public v → c_ok ext_codec c' → decrypted c' v →
  let w' := write_mint (write_account w ti (put_account_ext c' st)) mi (put_mint_ext e' m) in
  vault_at w' (key ti) v ∧ supply_at w' (key mi) s p ∧ only_these [key ti; key mi] w w'.
Proof.
  intros Hne Hm He Hoke Hde Hst Hc Ha Hokc Hdc w'. split_and!.
  - apply vault_write_mint; [done|]. by apply (vault_write_ext w ti st c).
  - apply (supply_write _ mi m e); [|done..].
    rewrite <-Hm. apply mint_at_data. unfold write_account. by rewrite data_set_data, decide_False.
  - eapply only_these_trans; [apply only_these_write|apply write_mint_only]; set_solver.
Qed.

Lemma process_confidential_mint_step pid ti mi accounts d w w' v s p :
  proofs_hold w → c_ok ae_ciphertext_codec (md_new_decryptable_supply d) → 0 ≤ s < 2 ^ 200 →
  process_confidential_mint pid (ti :: mi :: accounts) d w = Ok w' →
  vault_at w (key ti) v → keyed w (key ti) → supply_at w (key mi) s p →
  ∃ lo hi, in_uint 16 lo ∧ in_uint 32 hi ∧ 0 ≤ s + combined lo hi < 2 ^ 64 ∧
    v_credits v + 1 ≤ v_maximum v ∧ vault_at w' (key ti) (v_receive lo hi v) ∧
    supply_at w' (key mi) (s + combined lo hi) p ∧ only_these [key ti; key mi] w w'.
Proof using sizes.
  intros Hw Hnew Hs H Hv Hvk Hsup.
  apply process_confidential_mint_Ok in H as (m & cm & e & ctx & rest & st & c & c' & ns & x & y & H).
  destruct H as (Hm & _ & _ & He & Hctx & Hne & Hst & _ & _ & _ & _ & Hc & Hcr & Hk & _ & _ & _ &
    (d1 & d2 & lo' & hi' & Hd1 & Hd2 & Hlo' & Hhi' & Hn & ->)%mint_pending_Ok & Hks & Hx & Hy & Hns &
    Hnew' & ->).
  destruct (mint_proof_meaning _ _ _ _ _ _ _ _ Hw Hctx) as (Hreal & supply & lo & hi & Hs64 & Ds & Hp).
  destruct (vault_read _ _ _ _ _ Hv Hst Hc) as (Ha & Hdec & Hok).
  destruct (supply_read _ _ _ _ _ _ Hsup Hm He) as ([De Dp] & Hoke).
  apply valid_as_destination_Ok in Hcr as (_ & _ & Hcr).
  rewrite (dec_credits _ _ Hdec), (dec_maximum _ _ Hdec) in Hcr.
  rewrite Hk in Hp. destruct (credited_ok sizes c v d1 d2 lo' hi' lo hi) as [Hokc Hdecc];
    [done..|exact (part_of _ _ _ _ _ _ 0%nat _ _ _ Hp eq_refl (Hvk _ _ Hst Hc) Hd1 Hd2)|done|done|].
  rewrite <-Hks in Hp, Ds, Hreal. destruct (part_of _ _ _ _ _ _ 1%nat _ _ _ Hp eq_refl Hreal Hx Hy) as [D3 D4].
  destruct (add_with_lo_hi_decrypts _ _ _ _ _ _ _ De D3 D4) as (z & Hz & Dz).
  rewrite Hns in Hz. injection Hz as <-. rewrite <-Hnew' in Ds.
  destruct Hp as [_ _ [Hlo Hhi]]. pose proof (combined_bound lo hi Hlo Hhi).
  assert (s + combined lo hi = supply) as <-.
  { assert (2 ^ 64 < 2 ^ 200 ∧ 2 ^ 48 < 2 ^ 200 ∧ 2 * 2 ^ 200 < 2 ^ 252) as (? & ? & ?) by done.
    apply (decrypts_inj (secret (cmb_supply_elgamal_pubkey e)) ns); [|done..]. unfold in_uint in Hs64. lia. }
  destruct (write_vault_supply w ti mi st m c (deposited lo' hi' c) e
    (set_confidential_supply ns (md_new_decryptable_supply d) e) (v_receive lo hi v)
    (s + combined lo hi) p) as (Hv' & Hs' & Ho); try done.
  { by apply cmb_ok_supply; [|eapply (decrypts_length sizes)|]. }
  exists lo, hi. done.
Qed.

Lemma process_confidential_burn_step pid ti mi accounts d w w' v s p :
  proofs_hold w → c_ok ae_ciphertext_codec (bd_new_decryptable_available_balance d) →
  0 ≤ v_available v < 2 ^ 200 →
  process_confidential_burn pid (ti :: mi :: accounts) d w = Ok w' →
  vault_at w (key ti) v → supply_at w (key mi) s p → supply_keyed w (key mi) →
  ∃ n, 0 ≤ n < 2 ^ 48 ∧ 0 ≤ v_available v - n < 2 ^ 64 ∧ vault_at w' (key ti) (v_send n v) ∧
    supply_at w' (key mi) s (p + n) ∧ only_these [key ti; key mi] w w'.
Proof using sizes.
  intros Hw Hnew Hvr H Hv Hsup Hsk.
  apply process_confidential_burn_Ok in H as (m & cm & e & ctx & ai & signers & st & c & av & pb & x & y &
    sx & sy & H).
  destruct H as (Hm & _ & _ & He & Hctx & Hne & Hst & _ & _ & _ & _ & Hc & _ & Hk & _ & _ & Hx & Hy & Hav &
    Hrem & _ & Hks & Hsx & Hsy & Hpb & ->).
  destruct (burn_proof_meaning _ _ _ _ _ _ _ _ Hw Hctx) as (Hreal & left & lo & hi & Hl & Dl & Hp).
  destruct (vault_read _ _ _ _ _ Hv Hst Hc) as (Ha & Hdec & Hok).
  destruct (supply_read _ _ _ _ _ _ Hsup Hm He) as ([De Dp] & Hoke).
  rewrite Hk in Hp, Dl, Hreal. rewrite <-Hrem in Dl.
  destruct (debited_ok sizes c v x y av lo hi left (bd_new_decryptable_available_balance d))
    as (Hleft & Hokc & Hdecc); [done..|exact (part_of _ _ _ _ _ _ 0%nat _ _ _ Hp eq_refl Hreal Hx Hy)|
    done|done|done|apply Hp|done|done|].
  rewrite <-Hks in Hp. destruct (part_of _ _ _ _ _ _ 1%nat _ _ _ Hp eq_refl (Hsk _ _ Hm He) Hsx Hsy) as [D3 D4].
  destruct (add_with_lo_hi_decrypts _ _ _ _ _ _ _ Dp D3 D4) as (z & Hz & Dz).
  rewrite Hpb in Hz. injection Hz as <-.
  destruct (write_vault_supply w ti mi st m c
    (set_available_balance av (bd_new_decryptable_available_balance d) c) e (set_pending_burn pb e) (v_send (combined lo hi) v)
    s (p + combined lo hi) Hne Hm He) as (Hv' & Hs' & Ho); try done.
  { by apply cmb_ok_pending_burn; [|eapply (decrypts_length sizes)]. }
  destruct Hp as [_ _ [Hlo Hhi]]. exists (combined lo hi). rewrite Hleft.
  split; [by apply combined_bound|]. done.
Qed.

Lemma process_apply_pending_burn_step pid mi accounts w w' s p :
  process_apply_pending_burn pid (mi :: accounts) w = Ok w' → supply_at w (key mi) s p →
  supply_at w' (key mi) (s - p) 0 ∧ only_these [key mi] w w'.
Proof using sizes.
  intros H Hsup. unfold process_apply_pending_burn in H. cbn [next_account_info] in H.
  rewrite Ok_bind in H.
  apply bind_Ok in H as (m & (_ & _ & Hm)%open_mint_Ok & (e & He & (u & _ & (ns & Hns%computed_Ok &
    [= <-])%bind_Ok)%bind_Ok)%bind_Ok).
  destruct (supply_read _ _ _ _ _ _ Hsup Hm He) as ([De Dp] & Hoke).
  destruct (subtract_decrypts _ _ _ _ _ De Dp) as (z & Hz & Dz). rewrite Hns in Hz. injection Hz as <-.
  split.
  - apply (supply_write w mi m e); [done..| |].
    + apply cmb_ok_pending_burn; [|apply (decrypts_length sizes 0 _ 0), (decrypts_zeroed sizes)].
      apply cmb_ok_supply; [done|by eapply (decrypts_length sizes)|]. by apply cmb_ok in Hoke as (_ & ? & _).
    + constructor; [done|apply (decrypts_zeroed sizes)].
  - apply write_mint_only. set_solver.
Qed.

(** A new key for the supply, if it has a secret: the amount is the same. *)
Lemma process_rotate_step pid mi accounts o w w' s p : proofs_hold w →
  process_rotate_supply_elgamal_pubkey pid (mi :: accounts) o w = Ok w' →
  supply_at w (key mi) s p → supply_keyed w' (key mi) →
  supply_at w' (key mi) s 0 ∧ (order | p) ∧ only_these [key mi] w w'.
Proof using sizes.
  intros Hw H Hsup Hsk. unfold process_rotate_supply_elgamal_pubkey in H. cbn [next_account_info] in H.
  rewrite Ok_bind in H.
  apply bind_Ok in H as (m & (_ & _ & Hm)%open_mint_Ok & (e & He & ([ctx accs] &
    Hctx%(proofs_valid Hw ProofType.CiphertextCiphertextEquality) & (u & Hk%throw_unless_eq &
    (u1 & Hc%throw_unless_eq & (u2 & Hp%throw_unless_eq & (u3 & _ & [= <-])%bind_Ok)%bind_Ok)%bind_Ok)
    %bind_Ok)%bind_Ok)%bind_Ok).
  destruct Hctx as (Hlen & Hlen' & n & Hn1 & Hn2).
  destruct (supply_read _ _ _ _ _ _ Hsup Hm He) as ([De Dp] & Hoke).
  rewrite <-Hk, <-Hc in Hn1. pose proof (proj1 (decrypts_order _ _ _ n De) Hn1) as Ho.
  set (e' := set_confidential_supply _ _ _) in *.
  assert (c_ok ext_codec e') as Hoke'.
  { apply cmb_ok in Hoke as (_ & ? & _ & ?). by apply cmb_ok. }
  assert (real_key (cc_second_pubkey ctx)) as Hr.
  { apply (Hsk (put_mint_ext e' m) e'); [|by apply (get_put_extension PodMint e e')].
    apply mint_at_write. apply state_ok_with_tlv; [by apply (mint_at_ok w (key mi))|].
    by apply (length_put_extension PodMint e e'). }
  assert (decrypts (secret (cc_second_pubkey ctx)) (cc_second_ciphertext ctx) s) as Ds.
  { apply (decrypts_order _ _ n s (Hn2 Hr)). apply Z.divide_opp_r.
    by replace (- (n - s)) with (s - n) by lia. }
  split; [|split; [|apply write_mint_only; set_solver]].
  - apply (supply_write w mi m e); [done..|].
    + constructor; cbn; [done|]. rewrite Hp. apply (decrypts_zeroed sizes).
  - rewrite Hp in Dp. apply (decrypts_order _ _ p 0) in Dp.
    replace p with (p - 0) by lia. apply Dp, (decrypts_zeroed sizes).
Qed.
End supply.
