(* ===== verification/EncryptedFees.v ===== *)
(** * Encrypted fees

    Confidential transfer fees stay with the accounts that paid them, encrypted for
    the mint's authority, until they are harvested to the mint or withdrawn: what
    the handlers of [ConfidentialFeeOps.v] do to these amounts. *)
From stdpp Require Import functions.
From S2P Require Import Prelude Codec Errors Runtime Pod State ExtensionType ExtensionData Tlv.
From S2P Require Import TlvFacts TlvAlloc StateExt PackedExt Fee Authority Transfer AccountFacts.
From S2P Require Import TransferFacts AccountOps AccountOpsFacts InitOps TransferFeeOps SystemOps.
From S2P Require Import CiphertextOps CiphertextFacts ProofExtraction ConfidentialOps.
From S2P Require Import ConfidentialTransferOps ConfidentialFeeOps ConfidentialMintBurnOps.
From S2P Require Import ConfidentialFacts ProofMeaning LedgerSpec Ledger ConfidentialLedger.
From S2P Require Import LedgerFacts Vaults EncryptedSupply.

Section fees.
Import confidential_transfer_fee.
Context `{rt : Runtime} `{curve : Curve} `{group : !CurveGroup} `{zk : !ZkSdk} `{op : !Openings}.
Hypothesis sizes : crypto_sizes rt.
Implicit Types (w : world) (st : PodStateMut PodAccount) (m : PodStateMut PodMint).
Implicit Types (c : ConfidentialTransferAccount) (mk : Pubkey) (fees : Pubkey → Z).

(** The fees withheld at the token accounts of [mk], encrypted for [pk]. *)
Definition fees_at mk (pk : PodElGamalPubkey) w fees : Prop :=
  ∀ k st e, owner (get_account w k) = id → account_at w k = Some st → acc_mint (base st) = mk →
    get_account_ext ConfidentialTransferFeeAmount (tlv_data st) = Ok e →
    decrypts (secret pk) (ctfa_withheld_amount e) (fees k).

(** The fees withheld at the mint. *)
Definition mint_fees_at mk (pk : PodElGamalPubkey) w (n : Z) : Prop :=
  ∃ m cfg, mint_at w mk = Some m ∧
    get_mint_ext ConfidentialTransferFeeConfig (tlv_data m) = Ok cfg ∧
    ctfc_withdraw_withheld_authority_elgamal_pubkey cfg = pk ∧
    decrypts (secret pk) (ctfc_withheld_amount cfg) n.

(** The fees of one account are taken. *)
Definition clear (k : Pubkey) fees : Pubkey → Z := <[k := 0]> fees.

Lemma sum_clear ks k fees : NoDup ks → k ∈ ks → sum_on ks (clear k fees) = sum_on ks fees - fees k.
Proof.
  intros Hd Hk. rewrite (sum_on_update ks fees (clear k fees) k); [|done|done|].
  - unfold clear. rewrite fn_lookup_insert. lia.
  - intros j Hj. unfold clear. by rewrite fn_lookup_insert_ne.
Qed.

(** Worlds with the same accounts have the same fees. *)
Lemma fees_same mk pk w w' fees : (∀ k, get_account w' k = get_account w k) →
  fees_at mk pk w fees → fees_at mk pk w' fees.
Proof.
  intros E H k st e Ho Hst. apply H; [by rewrite <-E|].
  rewrite <-Hst. symmetry. apply account_at_data. by rewrite E.
Qed.

(** What an account that is written withholds is what its new state says. *)
Lemma fees_write mk pk w i st n fees : state_ok PodAccount st →
  (∀ e, acc_mint (base st) = mk → owner (get_account w (key i)) = id →
     get_account_ext ConfidentialTransferFeeAmount (tlv_data st) = Ok e →
     decrypts (secret pk) (ctfa_withheld_amount e) n) →
  fees_at mk pk w fees → fees_at mk pk (write_account w i st) (<[key i := n]> fees).
Proof.
  intros Hok He Hf k st' e Ho Hst Hmk He'. unfold write_account in Ho. rewrite owner_set_data in Ho.
  destruct (decide (k = key i)) as [->|Hk].
  - rewrite fn_lookup_insert. rewrite account_at_write in Hst by done. injection Hst as <-. by apply He.
  - rewrite fn_lookup_insert_ne by done. rewrite account_at_write_ne in Hst by done. by apply (Hf k st' e).
Qed.

Lemma fees_insert_same mk pk w fees k n : fees k = n → fees_at mk pk w (<[k := n]> fees) →
  fees_at mk pk w fees.
Proof.
  intros Hn H k' st e Ho Hst Hm He. specialize (H k' st e Ho Hst Hm He).
  destruct (decide (k' = k)) as [->|Hk]; [|by rewrite fn_lookup_insert_ne in H].
  rewrite fn_lookup_insert in H. by subst n.
Qed.

(** ** Harvesting *)
Lemma write_fee_vault w i st (e e' : ConfidentialTransferFeeAmount) k v :
  account_at w (key i) = Some st →
  get_account_ext ConfidentialTransferFeeAmount (tlv_data st) = Ok e →
  vault_at w k v → vault_at (write_account w i (put_account_ext e' st)) k v.
Proof.
  intros Hst He Hv. destruct (decide (k = key i)) as [->|Hk].
  - destruct Hv as (st' & c & Hst' & Hc & Ha & Hd). rewrite Hst in Hst'. injection Hst' as <-.
    exists (put_account_ext e' st), c. split_and!; [| |done..].
    + apply account_at_write. by apply (state_ok_put st e); [apply (account_at_ok w (key i))|].
    + by rewrite (get_put_account_ne _ _ e).
  - apply (vault_same w); [|done]. apply encrypted_data.
    unfold write_account. rewrite data_set_data, decide_False; [done|]. congruence.
Qed.

Lemma harvest_fees held mk pk i w x w' fees : harvest_from_account held mk i w = Ok (x, w') →
  fees_at mk pk w fees →
  decrypts (secret pk) x (fees (key i)) ∧ fees_at mk pk w' (clear (key i) fees) ∧
  (∀ k v, vault_at w k v → vault_at w' k v).
Proof using sizes.
  intros (st & e & _ & Hst & Ho & Hm & He & -> & ->)%confidential_harvest_Ok Hf.
  split; [by apply (Hf _ st e)|]. pose proof (account_at_ok _ _ _ Hst) as Hok.
  assert (c_ok ext_codec (mkConfidentialTransferFeeAmount zeroed_ciphertext)) as Hz
    by (apply (decrypts_length sizes 0 _ 0), (decrypts_zeroed sizes)).
  split.
  - apply fees_write; [by apply (state_ok_put st e)| |done].
    intros e' _ _ He'. rewrite (get_put_account _ e) in He' by done.
    injection He' as <-. apply (decrypts_zeroed sizes).
  - intros k v Hv. by apply (write_fee_vault w i st e).
Qed.

(** What a loop over accounts collects: [a] becomes [a'], from the accounts [ks]. *)
Record collects (ks : list Pubkey) fees fees' (a a' : Z) : Prop := {
  collects_sum : a' + sum_on ks fees' = a + sum_on ks fees;
  collects_each k : fees' k = fees k ∨ k ∈ ks ∧ fees' k = 0;
}.

Lemma collects_refl ks fees a : collects ks fees fees a a.
Proof. split; [done|auto]. Qed.

Lemma collects_step ks fees fees' k a a' : NoDup ks → k ∈ ks →
  collects ks (clear k fees) fees' (a + fees k) a' → collects ks fees fees' a a'.
Proof.
  intros Hd Hk [Hs He]. split.
  - rewrite Hs, sum_clear by done. lia.
  - intros j. destruct (He j) as [E|]; [|auto]. unfold clear in E.
    destruct (decide (j = k)) as [->|Hj].
    + rewrite fn_lookup_insert in E. auto.
    + rewrite fn_lookup_insert_ne in E by done. auto.
Qed.

Lemma harvest_loop_collects mk pk infos ks agg a w fees agg' w' :
  NoDup ks → (∀ i, i ∈ infos → key i ∈ ks) →
  harvest_loop mk infos agg w = Ok (agg', w') →
  decrypts (secret pk) agg a → fees_at mk pk w fees →
  ∃ fees' a', decrypts (secret pk) agg' a' ∧ fees_at mk pk w' fees' ∧
    collects ks fees fees' a a' ∧ (∀ k v, vault_at w k v → vault_at w' k v).
Proof using sizes.
  intros Hd. revert agg a w fees. induction infos as [|i infos IH]; intros agg a w fees Hin H Ha Hf.
  { injection H as <- <-. exists fees, a. split; [done|]. split; [done|]. split; [apply collects_refl|done]. }
  cbn [harvest_loop] in H.
  assert (∀ j, j ∈ infos → key j ∈ ks) as Hin' by (intros j Hj; apply Hin; by right).
  destruct (harvest_from_account _ _ _ _) as [[x w1]| |] eqn:Hh; [|by apply (IH agg a w fees)|done].
  apply bind_Ok in H as (agg1 & Hagg1%computed_Ok & H).
  destruct (harvest_fees _ _ pk _ _ _ _ _ Hh Hf) as (Dx & Hf1 & Hv1).
  destruct (add_decrypts _ _ _ _ _ Ha Dx) as (y & Hy & Dy). rewrite Hagg1 in Hy. injection Hy as <-.
  destruct (IH _ _ _ _ Hin' H Dy Hf1) as (fees' & a' & Da' & Hf' & Hc & Hv).
  exists fees', a'. split; [done|]. split; [done|]. split; [|by eauto].
  apply (collects_step _ _ _ (key i)); [done| |done]. apply Hin. by left.
Qed.

Lemma ctfc_ok_withheld cfg x : c_ok (ext_codec (V:=ConfidentialTransferFeeConfig)) cfg →
  length x = elgamal_ciphertext_len → c_ok ext_codec (set_withheld_amount x cfg).
Proof. intros (H1 & H2 & H3 & _) Hx. exact (conj H1 (conj H2 (conj H3 Hx))). Qed.

Lemma mint_fees_write w i m cfg x n : mint_at w (key i) = Some m →
  get_mint_ext ConfidentialTransferFeeConfig (tlv_data m) = Ok cfg →
  let pk := ctfc_withdraw_withheld_authority_elgamal_pubkey cfg in decrypts (secret pk) x n →
  mint_fees_at (key i) pk (write_mint w i (put_mint_ext (set_withheld_amount x cfg) m)) n.
Proof using sizes.
  intros Hm Hcfg pk Hx.
  exists (put_mint_ext (set_withheld_amount x cfg) m), (set_withheld_amount x cfg).
  split; [|split; [|done]].
  - apply mint_at_write. apply state_ok_with_tlv; [by apply (mint_at_ok w (key i))|].
    by apply (length_put_extension PodMint cfg).
  - apply (get_put_extension PodMint cfg); [done|].
    apply ctfc_ok_withheld; [by apply (get_extension_ok PodMint cfg (tlv_data m))|].
    by eapply (decrypts_length sizes).
Qed.

(** Writing a mint touches no token account. *)
Lemma fees_write_mint mk pk w i m m' fees : mint_at w (key i) = Some m → state_ok PodMint m' →
  fees_at mk pk w fees → fees_at mk pk (write_mint w i m') fees.
Proof.
  intros Hm Hok Hf k st e Ho Hst. unfold write_mint in Ho. rewrite owner_set_data in Ho.
  destruct (decide (k = key i)) as [->|Hk].
  - pose proof (mint_at_write w i m' Hok) as Hm'. apply account_at_Some in Hst.
    apply mint_at_Some in Hm'. by destruct (unpack_account_not_mint _ _ Hst m').
  - apply Hf; [done|]. rewrite <-Hst. symmetry. apply account_at_data.
    unfold write_mint. rewrite data_set_data, decide_False; [done|]. congruence.
Qed.

Lemma process_harvest_step mi infos w w' fees n pk ks : NoDup ks → (∀ i, i ∈ infos → key i ∈ ks) →
  process_harvest_withheld_tokens_to_mint (mi :: infos) w = Ok w' →
  mint_fees_at (key mi) pk w n → fees_at (key mi) pk w fees →
  ∃ fees' n', mint_fees_at (key mi) pk w' n' ∧ fees_at (key mi) pk w' fees' ∧
    collects ks fees fees' n n' ∧ (∀ k v, k ≠ key mi → vault_at w k v → vault_at w' k v).
Proof using sizes.
  intros Hd Hin H (m' & cfg' & Hm' & Hcfg' & <- & Dn) Hf.
  unfold process_harvest_withheld_tokens_to_mint in H. cbn [next_account_info] in H.
  rewrite Ok_bind in H.
  apply bind_Ok in H as (m & (_ & _ & Hm)%open_mint_Ok & (tc & _ & (cfg & Hcfg & (u & _ & H)%bind_Ok)
    %bind_Ok)%bind_Ok).
  rewrite Hm in Hm'. injection Hm' as <-. rewrite Hcfg in Hcfg'. injection Hcfg' as <-.
  apply bind_Ok in H as ([agg w1] & Hl & [= <-]).
  destruct (harvest_loop_conserves 0 _ _ _ _ _ _ Hl) as [_ Hmi].
  destruct (harvest_loop_collects _ _ _ _ _ _ _ _ _ _ Hd Hin Hl Dn Hf)
    as (fees' & n' & Dn' & Hf' & Hc & Hv).
  assert (mint_at w1 (key mi) = Some m) as Hm1 by (rewrite <-Hm; unfold mint_at; by rewrite Hmi).
  exists fees', n'. split; [by apply mint_fees_write|]. split.
  - apply (fees_write_mint _ _ _ _ m); [done| |done].
    apply state_ok_with_tlv; [by apply (mint_at_ok w (key mi))|].
    by apply (length_put_extension PodMint cfg).
  - split; [done|]. intros k v Hk H. apply vault_write_mint; auto.
Qed.

(** ** Withdrawing *)

(** Fees that are withdrawn are available at once. *)
Definition v_collect (n : Z) (v : vault) : vault :=
  mkVault (v_public v) (v_available v + n) (v_lo v) (v_hi v) (v_credits v) (v_maximum v).

(** The proof restates the amount [n] for the destination's key. *)
Lemma collected_ok c v x n ctx new av cfg u :
  check_fee_pubkeys ctx cfg c = Ok u → real_key (cta_elgamal_pubkey c) →
  valid ProofType.CiphertextCiphertextEquality ctx → cc_first_ciphertext ctx = x →
  decrypts (secret (ctfc_withdraw_withheld_authority_elgamal_pubkey cfg)) x n →
  ciphertext_arithmetic.add (cta_available_balance c) (cc_second_ciphertext ctx) = Some av →
  c_ok ae_ciphertext_codec new → c_ok ext_codec c → decrypted c v →
  c_ok ext_codec (set_available_balance av new c) ∧
  decrypted (set_available_balance av new c) (v_collect n v).
Proof using sizes.
  intros (u1 & Hk1%throw_unless_eq & Hk2%throw_unless_eq)%bind_Ok Hr (_ & _ & m & H1 & H2) <- Dn Hav Hnew Hok
    [Da Dl Dh Dc Dm].
  rewrite Hk1 in H1. rewrite Hk2 in H2. specialize (H2 Hr).
  assert (decrypts (secret (cta_elgamal_pubkey c)) (cc_second_ciphertext ctx) n) as D2.
  { apply (decrypts_order _ _ m n H2). by apply (decrypts_order _ _ m n H1). }
  destruct (add_decrypts _ _ _ _ _ Da D2) as (z & Hz & Dz). rewrite Hav in Hz. injection Hz as <-.
  split; [by apply cta_ok_available; [|eapply (decrypts_length sizes)|]|by constructor].
Qed.

Lemma process_withdraw_from_mint_step pid mi di accounts new o w w' v n pk :
  proofs_hold w → c_ok ae_ciphertext_codec new →
  process_withdraw_withheld_tokens_from_mint pid (mi :: di :: accounts) new o w = Ok w' →
  mint_fees_at (key mi) pk w n → vault_at w (key di) v → keyed w (key di) →
  mint_fees_at (key mi) pk w' 0 ∧ vault_at w' (key di) (v_collect n v) ∧
  only_these [key di; key mi] w w'.
Proof using sizes.
  intros Hw Hnew H (m' & cfg' & Hm' & Hcfg' & <- & Dn) Hv Hvk.
  unfold process_withdraw_withheld_tokens_from_mint in H.
  do 2 (cbn [next_account_info] in H; rewrite Ok_bind in H).
  apply bind_Ok in H as ([ctx accs] & Hctx%(proofs_valid Hw ProofType.CiphertextCiphertextEquality) &
    ([ai signers] & _ & (m & (_ & _ & Hm)%open_mint_Ok & (a & _ & (u & _ & (cfg & Hcfg & (st & Hd & (c & Hc &
    H)%bind_Ok)%bind_Ok)%bind_Ok)%bind_Ok)%bind_Ok)%bind_Ok)%bind_Ok).
  rewrite Hm in Hm'. injection Hm' as <-. rewrite Hcfg in Hcfg'. injection Hcfg' as <-.
  apply bind_Ok in H as (u1 & _ & (u2 & Hk & (u3 & Hx%throw_unless_eq & (av & Hav%computed_Ok &
    [= <-])%bind_Ok)%bind_Ok)%bind_Ok).
  apply open_fee_destination_Ok in Hd as (_ & Hne & Hst & _).
  destruct (vault_read _ _ _ _ _ Hv Hst Hc) as (Ha & Hdec & Hok).
  destruct (collected_ok c v (ctfc_withheld_amount cfg) n ctx new av cfg u2 Hk (Hvk _ _ Hst Hc))
    as [Hok' Hdec']; [done..|].
  split; [|split].
  - apply mint_fees_write; [|done|apply (decrypts_zeroed sizes)].
    rewrite <-Hm. apply mint_at_data. unfold write_account. by rewrite data_set_data, decide_False.
  - apply vault_write_mint; [done|]. by apply (vault_write_ext w di st c).
  - eapply only_these_trans; [apply only_these_write|apply write_mint_only]; set_solver.
Qed.

(** The loop over the accounts, with the destination open: what counts is the world
    in which the destination is written as it is. *)
Lemma write_twice w i j st st' k : key i ≠ key j →
  get_account (write_account (write_account w i st) j st') k =
  get_account (write_account (write_account w j st') i st) k.
Proof.
  intros Hij. unfold write_account. rewrite !get_set_data. by repeat case_decide; simplify_eq.
Qed.

Lemma write_over w i st st' k :
  get_account (write_account (write_account w i st) i st') k = get_account (write_account w i st') k.
Proof. unfold write_account. rewrite !get_set_data. by repeat case_decide; simplify_eq. Qed.

(** The destination's own fees are taken through the open state, *)
Lemma take_open mk pk w di st e fees : state_ok PodAccount st →
  owner (get_account w (key di)) = id → acc_mint (base st) = mk →
  get_account_ext ConfidentialTransferFeeAmount (tlv_data st) = Ok e →
  fees_at mk pk (write_account w di st) fees →
  let st' := put_account_ext (mkConfidentialTransferFeeAmount zeroed_ciphertext) st in
  decrypts (secret pk) (ctfa_withheld_amount e) (fees (key di)) ∧ state_ok PodAccount st' ∧
  fees_at mk pk (write_account w di st') (clear (key di) fees).
Proof using sizes.
  intros Hok Ho Hm He Hf st'. split; [|split; [by apply (state_ok_put st e)|]].
  - apply (Hf _ st); [|by apply account_at_write|done|done]. by unfold write_account; rewrite owner_set_data.
  - apply (fees_same _ _ (write_account (write_account w di st) di st')); [intros k; symmetry; apply write_over|].
    apply fees_write; [by apply (state_ok_put st e)| |done].
    intros e' _ _ He'. unfold st' in He'. rewrite (get_put_account _ e) in He'; [|done|].
    + injection He' as <-. apply (decrypts_zeroed sizes).
    + apply (decrypts_length sizes 0 _ 0), (decrypts_zeroed sizes).
Qed.

(** those of another account through the world. *)
Lemma take_other held mk pk w w1 di i x st fees : state_ok PodAccount st → key i ≠ key di →
  harvest_from_account held mk i w = Ok (x, w1) → fees_at mk pk (write_account w di st) fees →
  decrypts (secret pk) x (fees (key i)) ∧ fees_at mk pk (write_account w1 di st) (clear (key i) fees) ∧
  owner (get_account w1 (key di)) = owner (get_account w (key di)).
Proof using sizes.
  intros Hok Hne (s & e & _ & Hs & Ho & Hm & He & -> & ->)%confidential_harvest_Ok Hf.
  assert (account_at (write_account w di st) (key i) = Some s) as Hs'
    by by rewrite account_at_write_ne by congruence.
  split; [|split].
  - apply (Hf _ s); [|done..]. unfold write_account. by rewrite owner_set_data.
  - eapply fees_same; [intros k; by apply write_twice|].
    pose proof (account_at_ok _ _ _ Hs) as Hoks.
    apply fees_write; [by apply (state_ok_put s e)| |done].
    intros e' _ _ He'. rewrite (get_put_account _ e) in He'; [|done|].
    + injection He' as <-. apply (decrypts_zeroed sizes).
    + apply (decrypts_length sizes 0 _ 0), (decrypts_zeroed sizes).
  - unfold write_account. by rewrite owner_set_data.
Qed.

Lemma aggregate_collects mk pk di infos ks agg a st w fees agg' st' w' :
  NoDup ks → (∀ i, i ∈ infos → key i ∈ ks) →
  aggregate_withheld mk di infos agg st w = Ok (agg', st', w') →
  decrypts (secret pk) agg a → state_ok PodAccount st → acc_mint (base st) = mk →
  owner (get_account w (key di)) = id → fees_at mk pk (write_account w di st) fees →
  ∃ fees' a', decrypts (secret pk) agg' a' ∧ fees_at mk pk (write_account w' di st') fees' ∧
    collects ks fees fees' a a' ∧ state_ok PodAccount st' ∧ base st' = base st ∧
    get_account_ext ConfidentialTransferAccount (tlv_data st') =
      get_account_ext ConfidentialTransferAccount (tlv_data st).
Proof using sizes.
  intros Hd. revert agg a st w fees.
  induction infos as [|i infos IH]; intros agg a st w fees Hin H Ha Hok Hm Ho Hf.
  { injection H as <- <- <-. exists fees, a. split_and!; try done. apply collects_refl. }
  assert (key i ∈ ks) as Hi by (apply Hin; by left).
  assert (∀ j, j ∈ infos → key j ∈ ks) as Hin' by (intros j Hj; apply Hin; by right).
  cbn [aggregate_withheld] in H. destruct (Z.eqb_spec (key i) (key di)) as [E|E].
  - apply bind_Ok in H as (e & He%map_err_Ok & (agg1 & Hagg%computed_Ok & H)%bind_Ok).
    destruct (take_open _ _ _ _ _ _ _ Hok Ho Hm He Hf) as (De & Hok1 & Hf1).
    destruct (add_decrypts _ _ _ _ _ Ha De) as (y & Hy & Dy). rewrite Hagg in Hy. injection Hy as <-.
    destruct (IH _ _ _ _ _ Hin' H Dy Hok1 Hm Ho Hf1) as (fees' & a' & Da' & Hf' & Hc & Hok' & Hb & Hx).
    exists fees', a'. rewrite <-E in Hc. split_and!; try done; [by eapply collects_step|].
    by rewrite Hx, (get_put_account_ne _ _ e).
  - destruct (harvest_from_account _ _ _ _) as [[x w1]| |] eqn:Hh; [|by apply (IH agg a st w fees)|done].
    apply bind_Ok in H as (agg1 & Hagg%computed_Ok & H).
    destruct (take_other _ _ _ _ _ _ _ _ _ _ Hok E Hh Hf) as (Dx & Hf1 & Ho1). rewrite Ho in Ho1.
    destruct (add_decrypts _ _ _ _ _ Ha Dx) as (y & Hy & Dy). rewrite Hagg in Hy. injection Hy as <-.
    destruct (IH _ _ _ _ _ Hin' H Dy Hok Hm Ho1 Hf1) as (fees' & a' & Da' & Hf' & Hc & Hok' & Hb & Hx).
    exists fees', a'. split_and!; try done. by eapply collects_step.
Qed.

(** Where the accounts that are left come from *)
Lemma next_account_rest i rest accounts : next_account_info accounts = Ok (i, rest) →
  accounts = i :: rest.
Proof. destruct accounts; [done|]. by intros [= -> ->]. Qed.

Lemma context_rest t held w accounts off sysvar ctx rest :
  verify_and_extract_context t held w accounts off sysvar = Ok (ctx, rest) →
  ∀ i, i ∈ rest → i ∈ accounts.
Proof.
  unfold verify_and_extract_context. case_match.
  - intros ([i rest'] & ->%next_account_rest & (u & _ & (d & _ & ([ty c] & _ & (u1 & _ & [= _ <-])%bind_Ok)
      %bind_Ok)%bind_Ok)%bind_Ok)%bind_Ok j Hj. by right.
  - intros ([i rest'] & Hi & (x & _ & (e & _ & (c & _ & [= _ <-])%bind_Ok)%bind_Ok)%bind_Ok)%bind_Ok j Hj.
    destruct sysvar; [by injection Hi as _ <-|]. apply next_account_rest in Hi as ->. by right.
Qed.

(** Writing a vault keeps the fees. *)
Lemma fees_write_vault mk pk w di st c c' fees : state_ok PodAccount st →
  get_account_ext ConfidentialTransferAccount (tlv_data st) = Ok c →
  fees_at mk pk (write_account w di st) fees →
  fees_at mk pk (write_account w di (put_account_ext c' st)) fees.
Proof.
  intros Hok Hc Hf. apply (fees_insert_same _ _ _ _ (key di) (fees (key di))); [done|].
  apply (fees_same _ _ (write_account (write_account w di st) di (put_account_ext c' st)));
    [intros k; symmetry; apply write_over|].
  apply fees_write; [by apply (state_ok_put st c)| |done].
  intros e Hm Ho He. rewrite (get_put_account_ne _ _ c) in He by done.
  by apply (Hf _ st); [|apply account_at_write| |].
Qed.

(** The authority over withheld fees signed. *)
Definition fee_authority_signed (pid : Pubkey) w mi m ai (signers : list AccountInfo) : Prop :=
  ∃ a, withdraw_authority m = Ok a ∧
    validate_owner [key mi] w pid a ai (data_len w ai) signers = Ok tt.

(** C23: what the destination receives is the sum of the encrypted fees that
    accounts lose; each loses all of its fees or none, and the authority over fees
    signed. *)
Theorem process_withdraw_encrypted_fees_effect pid mi di accounts num new o w w' v m cfg fees ks :
  let pk := ctfc_withdraw_withheld_authority_elgamal_pubkey cfg in
  NoDup ks → (∀ i, i ∈ accounts → key i ∈ ks) → proofs_hold w → c_ok ae_ciphertext_codec new →
  mint_at w (key mi) = Some m →
  get_mint_ext ConfidentialTransferFeeConfig (tlv_data m) = Ok cfg →
  fees_at (key mi) pk w fees → vault_at w (key di) v → keyed w (key di) →
  process_withdraw_withheld_tokens_from_accounts pid (mi :: di :: accounts) num new o w = Ok w' →
  (∃ ai signers, fee_authority_signed pid w mi m ai signers) ∧
  ∃ fees' n, collects ks fees fees' 0 n ∧ fees_at (key mi) pk w' fees' ∧
    vault_at w' (key di) (v_collect n v).
Proof using sizes.
  intros pk Hd Hin Hw Hnew Hm Hcfg Hf Hv Hvk H. unfold process_withdraw_withheld_tokens_from_accounts in H.
  do 2 (cbn [next_account_info] in H; rewrite Ok_bind in H).
  apply bind_Ok in H as ([ctx accs] & Hctx & ([ai infos] & ->%next_account_rest & H)%bind_Ok).
  cbv zeta in H. pose proof (context_rest ProofType.CiphertextCiphertextEquality _ _ _ _ _ _ _ Hctx) as Hrest.
  apply (proofs_valid Hw ProofType.CiphertextCiphertextEquality) in Hctx.
  apply bind_Ok in H as (m' & (_ & _ & Hm')%open_mint_Ok & (a & Ha & (u & Hv' & (st & Hst & (c & Hc & (u1 & _ &
    (cfg' & Hcfg' & (u2 & Hk & H)%bind_Ok)%bind_Ok)%bind_Ok)%bind_Ok)%bind_Ok)%bind_Ok)%bind_Ok).
  rewrite Hm in Hm'. injection Hm' as <-. rewrite Hcfg in Hcfg'. injection Hcfg' as <-.
  destruct u. split; [by do 3 eexists|].
  apply open_fee_destination_Ok in Hst as (Ho & Hne & Hst & Hmi & _).
  destruct (vault_read _ _ _ _ _ Hv Hst Hc) as (Ham & Hdec & Hok).
  apply bind_Ok in H as ([[agg st'] w1] & Hagg & (u3 & Hx%throw_unless_eq & (c' & Hc' &
    (av & Hav%ok_or_Ok & [= <-])%bind_Ok)%bind_Ok)%bind_Ok).
  assert (∀ i, i ∈ drop (length infos - Z.to_nat num) infos → key i ∈ ks) as Hinf.
  { intros i [k Hi]%list_elem_of_lookup. apply Hin, Hrest. right. rewrite lookup_drop in Hi.
    by eapply list_elem_of_lookup_2. }
  destruct (aggregate_collects _ pk _ _ ks _ 0 _ _ fees _ _ _ Hd
    Hinf Hagg) as (fees' & n & Dn & Hf' & Hcol & Hok' & Hb & Hx'); try done.
  { apply (decrypts_zeroed sizes). }
  { by apply (account_at_ok w (key di)). }
  { apply (fees_insert_same _ _ _ _ (key di) (fees (key di))); [done|].
    apply fees_write; [by apply (account_at_ok w (key di))| |done].
    intros e Hm' _ He. by apply (Hf _ st e). }
  rewrite Hx', Hc in Hc'. injection Hc' as <-.
  destruct (collected_ok c v agg n ctx new av cfg u2 Hk (Hvk _ _ Hst Hc)) as [Hoka Hdeca]; [done..|].
  exists fees', n. split; [done|]. split; [by apply (fees_write_vault _ _ _ _ _ c); [|by rewrite Hx'|]|].
  exists (put_account_ext (set_available_balance av new c) st'), (set_available_balance av new c). split; [|split; [|split; [|exact Hdeca]]].
  - apply account_at_write. apply (state_ok_put st' c); [done|by rewrite Hx'].
  - by apply (get_put_account _ c); [rewrite Hx'|].
  - change (Pod.amount (base st') = v_public v). by rewrite Hb.
Qed.
End fees.
