(* ===== verification/VaultEffects.v ===== *)
(** * The confidential instructions

    For each instruction that moves encrypted tokens: who allowed it, what it
    checked, and the vaults it leaves. *)
From S2P Require Import Prelude Codec Errors Runtime Pod State ExtensionType ExtensionData Tlv.
From S2P Require Import TlvFacts TlvAlloc StateExt PackedExt Fee Authority Transfer AccountFacts.
From S2P Require Import TransferFacts AccountOps AccountOpsFacts InitOps TransferFeeOps SystemOps.
From S2P Require Import CiphertextOps CiphertextFacts ProofExtraction ConfidentialOps.
From S2P Require Import ConfidentialTransferOps ConfidentialFeeOps ConfidentialMintBurnOps.
From S2P Require Import ConfidentialFacts ProofMeaning LedgerSpec Ledger ConfidentialLedger.
From S2P Require Import LedgerFacts SetAuthority SetAuthorityFacts Vaults EncryptedSupply EncryptedFees.

Section effects.
Import confidential_transfer.
Context `{rt : Runtime} `{sp : !SystemProgram} `{curve : Curve} `{group : !CurveGroup}.
Context `{zk : !ZkSdk} `{op : !Openings}.
Implicit Types (w : world) (ti mi si di ai : AccountInfo) (signers accounts : list AccountInfo).

(** Tokens of [st] may change form: the mint is running and does not mint or burn
    confidentially, the account is a live one of the mint, and its owner signed. *)
Definition convertible (pid : Pubkey) w ti mi ai signers (dec : Z) (st : PodStateMut PodAccount) : Prop :=
  ∃ m, mint_at w (key mi) = Some m ∧ dec = decimals (base m) ∧
    check_running (tlv_data m) = Ok tt ∧
    is_ok (get_mint_ext ConfidentialMintBurn (tlv_data m)) = false ∧
    is_frozen (base st) = false ∧ acc_mint (base st) = key mi ∧ is_native (base st) = false ∧
    owner_signed pid [key mi] w ti ai signers st.

(** C20: a deposit takes its amount from the public balance and adds its low 16
    and high 32 bits to the pending balance, for the owner of a live account of a
    running mint and within the limit of pending credits; the total is kept. *)
Theorem process_deposit_effect pid ti mi ai signers n dec w w' v : crypto_sizes rt →
  in_uint 64 n → process_deposit pid (ti :: mi :: ai :: signers) n dec w = Ok w' →
  vault_at w (key ti) v →
  ∃ st lo hi, account_at w (key ti) = Some st ∧ convertible pid w ti mi ai signers dec st ∧
    n = combined lo hi ∧ in_uint 16 lo ∧ in_uint 32 hi ∧ n ≤ v_public v ∧
    v_credits v + 1 ≤ v_maximum v ∧
    vault_at w' (key ti) (v_deposit lo hi v) ∧ v_total (v_deposit lo hi v) = v_total v ∧
    (vault_ok v → vault_ok (v_deposit lo hi v)) ∧ only_at w w' (key ti).
Proof.
  intros Hsz Hn H Hv.
  destruct (process_deposit_step Hsz _ _ _ _ _ _ _ _ _ _ Hn H Hv)
    as (lo & hi & Hlo & Hhi & Hs & Hle & Hcr & Hv' & Ho).
  apply process_deposit_Ok in H as (m & st & c & n_lo & n_hi & c' & _ & Hm & Hdec & Hrun & Hmb & _ & Hst &
    Hai & Hval & Hf & Hmi & Hnat & _).
  exists st, lo, hi. split; [done|]. split; [by exists m; split_and!|]. do 5 (split; [done|]).
  split; [done|]. split; [apply v_deposit_total|]. split; [|done]. intros Hok. by apply v_deposit_ok.
Qed.

(** The pending balance becomes available, all of it, for the owner; the
    counters record how many credits the owner expected and how many there were. *)
Theorem process_apply_pending_balance_effect pid ti ai signers expected new w w' v :
  crypto_sizes rt → in_uint 64 expected → c_ok ae_ciphertext_codec new →
  process_apply_pending_balance pid (ti :: ai :: signers) expected new w = Ok w' →
  vault_at w (key ti) v →
  vault_at w' (key ti) (v_apply v) ∧ v_total (v_apply v) = v_total v ∧
  (vault_ok v → vault_ok (v_apply v)) ∧ only_at w w' (key ti) ∧
  ∃ st c st' c', account_at w (key ti) = Some st ∧ owner_signed pid [] w ti ai signers st ∧
    get_account_ext ConfidentialTransferAccount (tlv_data st) = Ok c ∧
    account_at w' (key ti) = Some st' ∧
    get_account_ext ConfidentialTransferAccount (tlv_data st') = Ok c' ∧
    cta_expected_pending_balance_credit_counter c' = expected ∧
    cta_actual_pending_balance_credit_counter c' = cta_pending_balance_credit_counter c ∧
    cta_decryptable_available_balance c' = new.
Proof.
  intros Hsz He Hnew H Hv.
  destruct (process_apply_pending_balance_step Hsz _ _ _ _ _ _ _ _ _ He Hnew H Hv) as (Hv' & Ho & Hrest).
  split; [done|]. split; [apply v_apply_total|]. split; [apply v_apply_ok|done].
Qed.

(** C19: a withdrawal takes its amount from the available balance, which covers
    it, and adds it to the public balance, for the owner; the total is kept. *)
Theorem process_withdraw_effect pid ti mi accounts n dec new eq_off range_off w w' v :
  crypto_sizes rt → proofs_hold w → in_uint 64 n → c_ok ae_ciphertext_codec new →
  0 ≤ v_available v < 2 ^ 200 →
  process_withdraw pid (ti :: mi :: accounts) n dec new eq_off range_off w = Ok w' →
  vault_at w (key ti) v →
  ∃ st ai signers, account_at w (key ti) = Some st ∧
    convertible pid w ti mi ai signers dec st ∧
    0 ≤ v_available v - n < 2 ^ 64 ∧
    vault_at w' (key ti) (v_withdraw n v) ∧ v_total (v_withdraw n v) = v_total v ∧
    (vault_ok v → vault_ok (v_withdraw n v)) ∧ only_at w w' (key ti).
Proof.
  intros Hsz Hw Hn Hnew Hvr H Hv.
  destruct (process_withdraw_step Hsz _ _ _ _ _ _ _ _ _ _ _ _ Hw Hn Hnew Hvr H Hv) as (Hr & Hv' & Ho).
  apply process_withdraw_Ok in H as (ctx & ai & signers & m & st & c & av & _ & _ & Hm & Hdec & Hrun & Hmb &
    _ & Hst & Hai & Hval & Hf & Hmi & Hnat & _).
  exists st, ai, signers. split; [done|]. split; [by exists m; split_and!|]. split; [done|]. split; [done|].
  split; [apply v_withdraw_total|]. split; [|done]. intros Hok. apply v_withdraw_ok; [done|lia].
Qed.

(** The source of a transfer: a live account of the mint, whose owner signed. *)
Definition sends (pid : Pubkey) w si mi ai signers : Prop :=
  ∃ st, account_at w (key si) = Some st ∧ is_frozen (base st) = false ∧
    acc_mint (base st) = key mi ∧ owner_signed pid [key mi] w si ai signers st.

Lemma source_sends pid si mi ai signers k g_lo g_hi ns new w w' :
  source_for_transfer pid si mi ai signers k g_lo g_hi ns new w = Ok w' →
  sends pid w si mi ai signers.
Proof.
  intros (st & c & x & y & _ & Hst & Hai & Hv & Hf & Hm & _)%source_for_transfer_Ok. by exists st.
Qed.

Lemma transfer_sends pid si mi di accounts new a_lo a_hi o1 o2 fs fv o3 w w' :
  process_transfer pid (si :: mi :: di :: accounts) new a_lo a_hi o1 o2 fs fv o3 w = Ok w' →
  ∃ ai signers m, sends pid w si mi ai signers ∧ mint_at w (key mi) = Some m ∧
    check_running (tlv_data m) = Ok tt.
Proof.
  intros (m & cm & ai & signers & w1 & _ & Hm & Hrun & _ & Ht & _)%confidential_transfer_Ok.
  exists ai, signers, m. split; [|done]. destruct (is_ok _).
  - apply transfer_with_fee_Ok in Ht as (cfg & clk & fs' & fv' & ctx & fcfg & w2 & Ht). destruct_and! Ht.
    by eapply source_sends.
  - apply transfer_without_fee_Ok in Ht as (ctx & w2 & Ht). destruct_and! Ht. by eapply source_sends.
Qed.

(** C16: a transfer without a fee takes one amount from the available balance of the
    source, whose owner signed, and adds it to the pending balance of the destination;
    the total is kept, and the auditor, if the mint has one, decrypts the amount. *)
Theorem process_transfer_effect pid si mi di accounts new a_lo a_hi o1 o2 fs fv o3 w w' m cm v u :
  crypto_sizes rt → hook_foreign rt → proofs_hold w → c_ok ae_ciphertext_codec new →
  mint_at w (key mi) = Some m →
  get_mint_ext ConfidentialTransferMint (tlv_data m) = Ok cm →
  is_ok (get_mint_ext TransferFeeConfig (tlv_data m)) = false →
  vault_at w (key si) v → 0 ≤ v_available v < 2 ^ 200 → vault_at w (key di) u → keyed w (key di) →
  process_transfer pid (si :: mi :: di :: accounts) new a_lo a_hi o1 o2 fs fv o3 w = Ok w' →
  check_running (tlv_data m) = Ok tt ∧
  (∃ ai signers, sends pid w si mi ai signers) ∧
  ∃ lo hi, let n := combined lo hi in
    in_uint 16 lo ∧ in_uint 32 hi ∧ 0 ≤ v_available v - n < 2 ^ 64 ∧
    audited cm a_lo a_hi lo hi ∧
    (key si ≠ key di →
       v_credits u + 1 ≤ v_maximum u ∧
       vault_at w' (key si) (v_send n v) ∧ vault_at w' (key di) (v_receive lo hi u) ∧
       v_total (v_send n v) + v_total (v_receive lo hi u) = v_total v + v_total u) ∧
    (key si = key di →
       vault_at w' (key si) (v_receive lo hi (v_send n v)) ∧
       v_total (v_receive lo hi (v_send n v)) = v_total v) ∧
    only_these [key si; key di] w w'.
Proof.
  intros Hsz Hh Hw Hnew Hm Hcm Hfee Hv Hvr Hu Hud H.
  destruct (process_transfer_step Hsz _ _ _ _ _ _ _ _ _ _ _ _ _ _ _ _ _ _ _ Hh Hw Hnew Hm Hcm Hfee Hv
    Hvr Hu Hud H) as (lo & hi & Hlo & Hhi & Hr & Hcr & Hau & Hd & Hs & Ho).
  apply transfer_sends in H as (ai & signers & m' & Hsend & Hm' & Hrun).
  rewrite Hm in Hm'. injection Hm' as <-. split; [done|]. split; [by do 2 eexists|].
  exists lo, hi. unfold found_at in *. do 4 (split; [done|]).
  split; [|split; [|done]]; intros E.
  - rewrite (proj2 (Z.eqb_neq _ _) E) in Hd, Hcr. split; [done|]. split; [auto|]. split; [done|].
    rewrite v_send_total, v_receive_total. lia.
  - rewrite E, Z.eqb_refl in Hd. rewrite E. split; [done|]. rewrite v_receive_total, v_send_total. lia.
Qed.

(** C17: a transfer with a fee splits what it takes from the source into what
    the destination receives and the fee it withholds, which is the maximum fee or
    the percentage rounded up; nothing is created or lost.  The authority over fees can
    decrypt the fee, and the auditor the amount, if their keys are not the zero key. *)
Theorem process_transfer_with_fee_effect pid si mi di accounts new a_lo a_hi o1 o2 fs fv o3 w w' m cm
    cfg fcfg v u h :
  let authority := ctfc_withdraw_withheld_authority_elgamal_pubkey fcfg in
  crypto_sizes rt → hook_foreign rt → proofs_hold w → c_ok ae_ciphertext_codec new →
  mint_at w (key mi) = Some m →
  get_mint_ext ConfidentialTransferMint (tlv_data m) = Ok cm →
  get_mint_ext TransferFeeConfig (tlv_data m) = Ok cfg →
  get_mint_ext ConfidentialTransferFeeConfig (tlv_data m) = Ok fcfg →
  vault_at w (key si) v → 0 ≤ v_available v < 2 ^ 200 → vault_at w (key di) u → keyed w (key di) →
  withheld_at w (key di) authority h → key si ≠ key di →
  process_transfer pid (si :: mi :: di :: accounts) new a_lo a_hi o1 o2 fs fv o3 w = Ok w' →
  ∃ clock lo hi f_lo f_hi, let n := combined lo hi in let fee := combined f_lo f_hi in
    let rates := get_epoch_fee cfg (epoch clock) in
    clock_get = Ok clock ∧
    0 ≤ fee ≤ n ∧
    (fee = tf_maximum_fee rates ∨
     fee = ceil (n * tf_transfer_fee_basis_points rates) MAX_FEE_BASIS_POINTS) ∧
    in_uint 16 lo ∧ in_uint 32 hi ∧ 0 ≤ v_available v - n < 2 ^ 64 ∧
    v_credits u + 1 ≤ v_maximum u ∧
    audited cm a_lo a_hi lo hi ∧
    vault_at w' (key si) (v_send n v) ∧
    vault_at w' (key di) (v_receive (lo - f_lo) (hi - f_hi) u) ∧
    (real_key authority → withheld_at w' (key di) authority (h + fee)) ∧
    v_total (v_send n v) + v_total (v_receive (lo - f_lo) (hi - f_hi) u) + fee =
      v_total v + v_total u ∧
    only_these [key si; key di] w w'.
Proof.
  intros authority Hsz Hh Hw Hnew Hm Hcm Hcfg Hfcfg Hv Hvr Hu Hud Hwh E H.
  destruct (process_transfer_with_fee_step Hsz _ _ _ _ _ _ _ _ _ _ _ _ _ _ _ _ _ _ _ _ _ Hh Hw Hnew Hm
    Hcm Hcfg Hfcfg Hv Hvr Hu Hud H) as (clk & lo & hi & f_lo & f_hi & Hclk & [Hle Hfee] & Hlo & Hhi & Hr &
    Hcr & Hau & Hd & Hwh' & Hs & Ho).
  unfold found_at in *. rewrite (proj2 (Z.eqb_neq _ _) E) in *. cbn [taken] in *.
  exists clk, lo, hi, f_lo, f_hi. do 8 (split; [done|]). split; [auto|]. split; [done|].
  split; [auto|]. split; [|done].
  rewrite v_send_total, v_receive_total. unfold combined. lia.
Qed.

Import confidential_mint_burn.

(** The mint's authority signed. *)
Definition mint_authority_signed (pid : Pubkey) (held : list Pubkey) w (m : PodStateMut PodMint) ai
    signers : Prop :=
  co_get (mint_authority (base m)) = Some (key ai) ∧
  validate_owner held w pid (key ai) ai (data_len w ai) signers = Ok tt.

Lemma mint_authority_Ok pid held m accounts w : validate_mint_authority pid held m accounts w = Ok tt →
  ∃ ai signers, mint_authority_signed pid held w m ai signers.
Proof.
  intros ([ai signers] & ->%next_account_rest & (d & [_ ->]%borrow_Ok & (a & Ha%co_ok_or_Ok & Hv)%bind_Ok)
    %bind_Ok)%bind_Ok.
  pose proof (validate_owner_key _ _ _ _ _ _ _ Hv) as Hkey. rewrite <-Hkey in Ha, Hv.
  by exists ai, signers.
Qed.

(** C21: a confidential mint, which the mint authority signed, adds one amount to
    the pending balance of an account and to the encrypted supply. *)
Theorem process_confidential_mint_effect pid ti mi accounts d w w' v s p : crypto_sizes rt →
  proofs_hold w → c_ok ae_ciphertext_codec (md_new_decryptable_supply d) → 0 ≤ s < 2 ^ 200 →
  process_confidential_mint pid (ti :: mi :: accounts) d w = Ok w' →
  vault_at w (key ti) v → keyed w (key ti) → supply_at w (key mi) s p →
  ∃ m ai signers lo hi, let n := combined lo hi in
    mint_at w (key mi) = Some m ∧ check_running (tlv_data m) = Ok tt ∧
    mint_authority_signed pid [key ti; key mi] w m ai signers ∧
    in_uint 16 lo ∧ in_uint 32 hi ∧ 0 ≤ s + n < 2 ^ 64 ∧ v_credits v + 1 ≤ v_maximum v ∧
    vault_at w' (key ti) (v_receive lo hi v) ∧ v_total (v_receive lo hi v) = v_total v + n ∧
    supply_at w' (key mi) (s + n) p ∧ (vault_ok v → vault_ok (v_receive lo hi v)) ∧
    only_these [key ti; key mi] w w'.
Proof.
  intros Hsz Hw Hnew Hs H Hv Hvk Hsup.
  destruct (process_confidential_mint_step Hsz _ _ _ _ _ _ _ _ _ _ Hw Hnew Hs H Hv Hvk Hsup)
    as (lo & hi & Hlo & Hhi & Hr & Hcr & Hv' & Hs' & Ho).
  apply process_confidential_mint_Ok in H as (m & cm & e & ctx & rest & st & c & c' & ns & x & y & Hm & _ &
    Hrun & _ & _ & _ & _ & (ai & signers & Ha)%mint_authority_Ok & _).
  exists m, ai, signers, lo, hi. do 8 (split; [done|]). split; [apply v_receive_total|]. split; [done|].
  split; [|done]. intros Hok. pose proof (combined_bound lo hi Hlo Hhi).
  apply v_receive_ok; [done|unfold in_uint in *; lia..|done].
Qed.

(** C22: a confidential burn takes an amount from the available balance of an
    account, whose owner signed, and adds it to the pending burn; applying then takes the
    whole pending burn, with what earlier burns left in it, from the encrypted supply. *)
Theorem process_confidential_burn_effect pid ti mi accounts d w w' v s p : crypto_sizes rt →
  proofs_hold w → c_ok ae_ciphertext_codec (bd_new_decryptable_available_balance d) →
  0 ≤ v_available v < 2 ^ 200 →
  process_confidential_burn pid (ti :: mi :: accounts) d w = Ok w' →
  vault_at w (key ti) v → supply_at w (key mi) s p → supply_keyed w (key mi) →
  ∃ ai signers n, sends pid w ti mi ai signers ∧
    0 ≤ n < 2 ^ 48 ∧ 0 ≤ v_available v - n < 2 ^ 64 ∧
    vault_at w' (key ti) (v_send n v) ∧ v_total (v_send n v) = v_total v - n ∧
    supply_at w' (key mi) s (p + n) ∧ only_these [key ti; key mi] w w' ∧
    (∀ accounts' w'', process_apply_pending_burn pid (mi :: accounts') w' = Ok w'' →
       supply_at w'' (key mi) (s - (p + n)) 0 ∧ only_these [key mi] w' w'').
Proof.
  intros Hsz Hw Hnew Hvr H Hv Hsup Hsk.
  destruct (process_confidential_burn_step Hsz _ _ _ _ _ _ _ _ _ _ Hw Hnew Hvr H Hv Hsup Hsk)
    as (n & Hn & Hr & Hv' & Hs' & Ho).
  apply process_confidential_burn_Ok in H as (m & cm & e & ctx & ai & signers & st & c & av & pb & x & y &
    sx & sy & _ & _ & _ & _ & _ & _ & Hst & Hai & Hval & Hf & Hmi & _).
  exists ai, signers, n. split; [by exists st|]. do 3 (split; [done|]). split; [apply v_send_total|].
  do 2 (split; [done|]). intros accounts' w'' H. by eapply (process_apply_pending_burn_step Hsz).
Qed.
End effects.
