(* ===== verification/Wallet.v ===== *)
(** * What a wallet knows of its encrypted balances

    [program/src/extension/confidential_transfer/account_info.rs] and parts of
    [confidential/proof-generation]: reading the balances with the keys of the owner, the
    balance that is stored for the owner alone, and the amounts proofs are made of. *)
From S2P Require Import Prelude Codec Errors Runtime Pod State ExtensionType ExtensionData Tlv.
From S2P Require Import TlvFacts TlvAlloc StateExt PackedExt Fee Authority Transfer AccountFacts.
From S2P Require Import TransferFacts AccountOps InitOps TransferFeeOps SystemOps.
From S2P Require Import CiphertextOps CiphertextFacts ProofExtraction ConfidentialOps.
From S2P Require Import ConfidentialTransferOps ConfidentialFeeOps ConfidentialMintBurnOps.
From S2P Require Import ConfidentialFacts ProofMeaning Ledger ConfidentialLedger LedgerFacts.
From S2P Require Import Vaults VaultEffects.

(** [solana_zk_sdk]: keys, ciphertexts, commitments and the data of proofs.  Randomness
    is an argument; what fails gives [None]. *)
Class WalletSdk := {
  ElGamalSecretKey : Type;
  ElGamalPubkey : Type;
  ElGamalKeypair : Type;
  AeKey : Type;
  ElGamalCiphertext : Type;
  AeCiphertext : Type;
  PedersenOpening : Type;
  PedersenCommitment : Type;
  GroupedElGamalCiphertext : Type;
  pubkey : ElGamalKeypair → ElGamalPubkey;
  default_pubkey : ElGamalPubkey;
  ciphertext_from_pod : list byte → option ElGamalCiphertext;
  decrypt_u32 : ElGamalSecretKey → ElGamalCiphertext → option Z;
  ae_from_pod : list byte → option AeCiphertext;
  ae_to_pod : AeCiphertext → list byte;
  ae_decrypt : AeKey → AeCiphertext → option Z;
  ae_nonce : Type;
  ae_encrypt : AeKey → ae_nonce → Z → AeCiphertext;
  (** [ElGamal::encode] and the operators on ciphertexts; scalars are integers *)
  elgamal_encode : Z → ElGamalCiphertext;
  ciphertext_add : ElGamalCiphertext → ElGamalCiphertext → ElGamalCiphertext;
  ciphertext_sub : ElGamalCiphertext → ElGamalCiphertext → ElGamalCiphertext;
  ciphertext_mul : ElGamalCiphertext → Z → ElGamalCiphertext;
  (** [Pedersen::with] and the operators on commitments and openings *)
  pedersen_with : Z → PedersenOpening → PedersenCommitment;
  commitment_add : PedersenCommitment → PedersenCommitment → PedersenCommitment;
  commitment_sub : PedersenCommitment → PedersenCommitment → PedersenCommitment;
  commitment_mul : PedersenCommitment → Z → PedersenCommitment;
  default_opening : PedersenOpening;
  opening_add : PedersenOpening → PedersenOpening → PedersenOpening;
  opening_sub : PedersenOpening → PedersenOpening → PedersenOpening;
  opening_mul : PedersenOpening → Z → PedersenOpening;
  (** [GroupedElGamal::encrypt_with], its commitment, and the ciphertext for the holder
      of a key *)
  encrypt_with : list ElGamalPubkey → Z → PedersenOpening → GroupedElGamalCiphertext;
  grouped_commitment : GroupedElGamalCiphertext → PedersenCommitment;
  to_elgamal_ciphertext : GroupedElGamalCiphertext → nat → option ElGamalCiphertext;
  (** the constructors of proof data; range proofs are told the sum of the lengths *)
  ZeroCiphertextProofData : Type;
  CiphertextCommitmentEqualityProofData : Type;
  BatchedGroupedCiphertext2HandlesValidityProofData : Type;
  BatchedGroupedCiphertext3HandlesValidityProofData : Type;
  PercentageWithCapProofData : Type;
  BatchedRangeProofData : Z → Type;
  zero_ciphertext_proof : ElGamalKeypair → ElGamalCiphertext → option ZeroCiphertextProofData;
  equality_proof : ElGamalKeypair → ElGamalCiphertext → PedersenCommitment → PedersenOpening → Z →
    option CiphertextCommitmentEqualityProofData;
  validity_proof_2 : ElGamalPubkey → ElGamalPubkey → GroupedElGamalCiphertext →
    GroupedElGamalCiphertext → Z → Z → PedersenOpening → PedersenOpening →
    option BatchedGroupedCiphertext2HandlesValidityProofData;
  validity_proof_3 : ElGamalPubkey → ElGamalPubkey → ElGamalPubkey → GroupedElGamalCiphertext →
    GroupedElGamalCiphertext → Z → Z → PedersenOpening → PedersenOpening →
    option BatchedGroupedCiphertext3HandlesValidityProofData;
  validity_context : BatchedGroupedCiphertext3HandlesValidityProofData →
    BatchedGroupedCiphertext3HandlesValidityProofContext;
  percentage_proof : PedersenCommitment → PedersenOpening → Z → PedersenCommitment →
    PedersenOpening → Z → PedersenCommitment → PedersenOpening → Z → option PercentageWithCapProofData;
  range_proof total : list PedersenCommitment → list Z → list Z → list PedersenOpening →
    option (BatchedRangeProofData total);
}.

(** Calls return a [TokenError], or panic. *)
Abbreviation token_result := (result TokenError).

(** [u64::checked_shl], [u64::checked_shr]: bits that are shifted out are lost *)
Definition checked_shl (a n : Z) : option Z := if n <? 64 then Some (Z.shiftl a n mod 2 ^ 64) else None.
Definition checked_shr (a n : Z) : option Z := if n <? 64 then Some (Z.shiftr a n) else None.

Module proof_generation.
Inductive TokenProofGenerationError :=
| ProofGeneration | NotEnoughFunds | IllegalAmountBitLength | FeeCalculation
| CiphertextExtraction.
(** [From<TokenProofGenerationError> for TokenError] *)
Definition into_token_error (e : TokenProofGenerationError) : TokenError :=
  match e with
  | ProofGeneration => Errors.ProofGeneration
  | NotEnoughFunds => InsufficientFunds
  | IllegalAmountBitLength => IllegalBitLength
  | FeeCalculation => Errors.FeeCalculation
  | CiphertextExtraction => MalformedCiphertext
  end.
Abbreviation gen_result := (result TokenProofGenerationError).

Definition TRANSFER_AMOUNT_LO_BITS : Z := 16.
Definition TRANSFER_AMOUNT_HI_BITS : Z := 32.
Definition REMAINING_BALANCE_BIT_LENGTH : Z := 64.

Definition try_split_u64 (amount bit_length : Z) : option (Z * Z) :=
  if bit_length =? 0 then Some (0, amount)
  else if (1 <=? bit_length) && (bit_length <=? 63) then
    let bit_length_complement := 64 - bit_length in
    shifted ← checked_shl amount bit_length_complement;
    lo ← checked_shr shifted bit_length_complement;
    hi ← checked_shr amount bit_length;
    Some (lo, hi)
  else if bit_length =? 64 then Some (amount, 0)
  else None.

(** As it is written: the sum is of the high part with itself. *)
Definition try_combine_lo_hi_u64 (amount_lo amount_hi bit_length : Z) : option Z :=
  if bit_length =? 0 then Some amount_hi
  else if (1 <=? bit_length) && (bit_length <=? 63) then
    shifted ← checked_shl amount_hi bit_length;
    checked_add 64 shifted amount_hi
  else if bit_length =? 64 then Some amount_lo
  else None.

Section generation.
Context `{sdk : WalletSdk} `{zk : ZkSdk}.
Implicit Types (bit_length amount : Z).

Definition try_combine_lo_hi_ciphertexts (ciphertext_lo ciphertext_hi : ElGamalCiphertext)
    bit_length : option ElGamalCiphertext :=
  two_power ← checked_shl 1 bit_length;
  Some (ciphertext_add ciphertext_lo (ciphertext_mul ciphertext_hi two_power)).
Definition try_combine_lo_hi_commitments (comm_lo comm_hi : PedersenCommitment)
    bit_length : option PedersenCommitment :=
  two_power ← checked_shl 1 bit_length;
  Some (commitment_add comm_lo (commitment_mul comm_hi two_power)).
Definition try_combine_lo_hi_openings (opening_lo opening_hi : PedersenOpening)
    bit_length : option PedersenOpening :=
  two_power ← checked_shl 1 bit_length;
  Some (opening_add opening_lo (opening_mul opening_hi two_power)).

(** The proof and the ciphertexts for the auditor *)
Record CiphertextValidityProofWithAuditorCiphertext := mkValidityWithAuditor {
  va_proof_data : BatchedGroupedCiphertext3HandlesValidityProofData;
  va_ciphertext_lo : PodElGamalCiphertext;
  va_ciphertext_hi : PodElGamalCiphertext;
}.

(** ** What the functions do alike *)

(** [split]: the amount in two parts, *)
Definition split_amount amount bit_length : gen_result (Z * Z) :=
  ok_or (try_split_u64 amount bit_length) IllegalAmountBitLength.
(** the ciphertext of the amount for the holder of a key, from those of the parts, *)
Definition combined_ciphertext (index : nat) (lo hi : GroupedElGamalCiphertext) bit_length :
    gen_result ElGamalCiphertext :=
  ciphertext_lo ← match to_elgamal_ciphertext lo index with Some c => Ok c | None => Panic end;
  ciphertext_hi ← match to_elgamal_ciphertext hi index with Some c => Ok c | None => Panic end;
  ok_or (try_combine_lo_hi_ciphertexts ciphertext_lo ciphertext_hi bit_length) IllegalAmountBitLength.
(** and the validity of the ciphertexts, with those for the auditor taken out. *)
Definition validity_with_auditor (first_pubkey second_pubkey auditor_pubkey : ElGamalPubkey)
    (grouped_ciphertext_lo grouped_ciphertext_hi : GroupedElGamalCiphertext)
    (amount_lo amount_hi : Z) (opening_lo opening_hi : PedersenOpening) :
    gen_result CiphertextValidityProofWithAuditorCiphertext :=
  proof_data ← ok_or (validity_proof_3 first_pubkey second_pubkey auditor_pubkey
    grouped_ciphertext_lo grouped_ciphertext_hi amount_lo amount_hi opening_lo opening_hi)
    ProofGeneration;
  auditor_ciphertext_lo ← ok_or (extract_ciphertext 3
    (g3_grouped_ciphertext_lo (validity_context proof_data)) 2) CiphertextExtraction;
  auditor_ciphertext_hi ← ok_or (extract_ciphertext 3
    (g3_grouped_ciphertext_hi (validity_context proof_data)) 2) CiphertextExtraction;
  Ok (mkValidityWithAuditor proof_data auditor_ciphertext_lo auditor_ciphertext_hi).

(** ** [withdraw.rs] *)
Record WithdrawProofData := mkWithdrawProofData {
  wd_equality_proof_data : CiphertextCommitmentEqualityProofData;
  wd_range_proof_data : BatchedRangeProofData 64;
}.
Definition withdraw_proof_data (remaining_balance_opening : PedersenOpening)
    (current_available_balance : ElGamalCiphertext) (current_balance withdraw_amount : Z)
    (elgamal_keypair : ElGamalKeypair) : gen_result WithdrawProofData :=
  remaining_balance ← ok_or (checked_sub 64 current_balance withdraw_amount) NotEnoughFunds;
  let remaining_balance_commitment := pedersen_with remaining_balance remaining_balance_opening in
  let remaining_balance_ciphertext :=
    ciphertext_sub current_available_balance (elgamal_encode withdraw_amount) in
  equality_proof_data ← ok_or (equality_proof elgamal_keypair remaining_balance_ciphertext
    remaining_balance_commitment remaining_balance_opening remaining_balance) ProofGeneration;
  range_proof_data ← ok_or (range_proof 64 [remaining_balance_commitment] [remaining_balance]
    [REMAINING_BALANCE_BIT_LENGTH] [remaining_balance_opening]) ProofGeneration;
  Ok (mkWithdrawProofData equality_proof_data range_proof_data).

(** ** [transfer.rs], [mint.rs] and [burn.rs]

    Each file has constants of its own, with the same values. *)
Definition RANGE_PROOF_PADDING_BIT_LENGTH : Z := 16.

(** [TransferProofData], [MintProofData] and [BurnProofData] have the same fields. *)
Record SplitProofData := mkSplitProofData {
  sp_equality_proof_data : CiphertextCommitmentEqualityProofData;
  sp_ciphertext_validity_proof_data_with_ciphertext : CiphertextValidityProofWithAuditorCiphertext;
  sp_range_proof_data : BatchedRangeProofData 128;
}.

(** The range proof of a balance or supply and the two parts of an amount; a
    commitment to zero makes the lengths a power of two. *)
Definition padded_range_proof (new_commitment : PedersenCommitment) (new_value : Z)
    (new_opening : PedersenOpening) (lo hi : GroupedElGamalCiphertext) (amount_lo amount_hi : Z)
    (opening_lo opening_hi padding_opening : PedersenOpening) : gen_result (BatchedRangeProofData 128) :=
  let padding_commitment := pedersen_with 0 padding_opening in
  ok_or (range_proof 128
    [new_commitment; grouped_commitment lo; grouped_commitment hi; padding_commitment]
    [new_value; amount_lo; amount_hi; 0]
    [REMAINING_BALANCE_BIT_LENGTH; TRANSFER_AMOUNT_LO_BITS; TRANSFER_AMOUNT_HI_BITS;
     RANGE_PROOF_PADDING_BIT_LENGTH]
    [new_opening; opening_lo; opening_hi; padding_opening]) ProofGeneration.

(** The openings are drawn at random. *)
Record SplitOpenings := mkSplitOpenings {
  so_lo : PedersenOpening;
  so_hi : PedersenOpening;
  so_new : PedersenOpening;
  so_padding : PedersenOpening;
}.

Definition transfer_split_proof_data (o : SplitOpenings) (current_available_balance : ElGamalCiphertext)
    (current_decryptable_available_balance : AeCiphertext) (transfer_amount : Z)
    (source_elgamal_keypair : ElGamalKeypair) (aes_key : AeKey)
    (destination_elgamal_pubkey : ElGamalPubkey) (auditor_elgamal_pubkey : option ElGamalPubkey) :
    gen_result SplitProofData :=
  let auditor_elgamal_pubkey := default default_pubkey auditor_elgamal_pubkey in
  let source_pubkey := pubkey source_elgamal_keypair in
  '(transfer_amount_lo, transfer_amount_hi) ← split_amount transfer_amount TRANSFER_AMOUNT_LO_BITS;
  let keys := [source_pubkey; destination_elgamal_pubkey; auditor_elgamal_pubkey] in
  let grouped_ciphertext_lo := encrypt_with keys transfer_amount_lo (so_lo o) in
  let grouped_ciphertext_hi := encrypt_with keys transfer_amount_hi (so_hi o) in
  current_decrypted_available_balance ←
    ok_or (ae_decrypt aes_key current_decryptable_available_balance) IllegalAmountBitLength;
  new_decrypted_available_balance ←
    ok_or (checked_sub 64 current_decrypted_available_balance transfer_amount) NotEnoughFunds;
  let new_available_balance_commitment := pedersen_with new_decrypted_available_balance (so_new o) in
  transfer_amount_source_ciphertext ←
    combined_ciphertext 0 grouped_ciphertext_lo grouped_ciphertext_hi TRANSFER_AMOUNT_LO_BITS;
  let new_available_balance_ciphertext :=
    ciphertext_sub current_available_balance transfer_amount_source_ciphertext in
  equality_proof_data ← ok_or (equality_proof source_elgamal_keypair new_available_balance_ciphertext
    new_available_balance_commitment (so_new o) new_decrypted_available_balance) ProofGeneration;
  ciphertext_validity_proof_data_with_ciphertext ←
    validity_with_auditor source_pubkey destination_elgamal_pubkey auditor_elgamal_pubkey
      grouped_ciphertext_lo grouped_ciphertext_hi transfer_amount_lo transfer_amount_hi (so_lo o) (so_hi o);
  range_proof_data ← padded_range_proof new_available_balance_commitment
    new_decrypted_available_balance (so_new o) grouped_ciphertext_lo grouped_ciphertext_hi
    transfer_amount_lo transfer_amount_hi (so_lo o) (so_hi o) (so_padding o);
  Ok (mkSplitProofData equality_proof_data ciphertext_validity_proof_data_with_ciphertext
        range_proof_data).

Definition mint_split_proof_data (o : SplitOpenings) (current_supply_ciphertext : ElGamalCiphertext)
    (mint_amount current_supply : Z) (supply_elgamal_keypair : ElGamalKeypair)
    (destination_elgamal_pubkey : ElGamalPubkey) (auditor_elgamal_pubkey : option ElGamalPubkey) :
    gen_result SplitProofData :=
  let auditor_elgamal_pubkey := default default_pubkey auditor_elgamal_pubkey in
  let supply_pubkey := pubkey supply_elgamal_keypair in
  '(mint_amount_lo, mint_amount_hi) ← split_amount mint_amount TRANSFER_AMOUNT_LO_BITS;
  let keys := [destination_elgamal_pubkey; supply_pubkey; auditor_elgamal_pubkey] in
  let grouped_ciphertext_lo := encrypt_with keys mint_amount_lo (so_lo o) in
  let grouped_ciphertext_hi := encrypt_with keys mint_amount_hi (so_hi o) in
  mint_amount_ciphertext_supply ←
    combined_ciphertext 1 grouped_ciphertext_lo grouped_ciphertext_hi TRANSFER_AMOUNT_LO_BITS;
  let new_supply_ciphertext := ciphertext_add current_supply_ciphertext mint_amount_ciphertext_supply in
  new_supply ← ok_or (checked_add 64 current_supply mint_amount) IllegalAmountBitLength;
  let new_supply_commitment := pedersen_with new_supply (so_new o) in
  equality_proof_data ← ok_or (equality_proof supply_elgamal_keypair new_supply_ciphertext
    new_supply_commitment (so_new o) new_supply) ProofGeneration;
  ciphertext_validity_proof_data_with_ciphertext ←
    validity_with_auditor destination_elgamal_pubkey supply_pubkey auditor_elgamal_pubkey
      grouped_ciphertext_lo grouped_ciphertext_hi mint_amount_lo mint_amount_hi (so_lo o) (so_hi o);
  range_proof_data ← padded_range_proof new_supply_commitment new_supply (so_new o)
    grouped_ciphertext_lo grouped_ciphertext_hi mint_amount_lo mint_amount_hi (so_lo o) (so_hi o)
    (so_padding o);
  Ok (mkSplitProofData equality_proof_data ciphertext_validity_proof_data_with_ciphertext
        range_proof_data).

Definition burn_split_proof_data (o : SplitOpenings)
    (current_available_balance_ciphertext : ElGamalCiphertext)
    (current_decryptable_available_balance : AeCiphertext) (burn_amount : Z)
    (source_elgamal_keypair : ElGamalKeypair) (source_aes_key : AeKey)
    (supply_elgamal_pubkey : ElGamalPubkey) (auditor_elgamal_pubkey : option ElGamalPubkey) :
    gen_result SplitProofData :=
  let auditor_elgamal_pubkey := default default_pubkey auditor_elgamal_pubkey in
  let source_pubkey := pubkey source_elgamal_keypair in
  '(burn_amount_lo, burn_amount_hi) ← split_amount burn_amount TRANSFER_AMOUNT_LO_BITS;
  let keys := [source_pubkey; supply_elgamal_pubkey; auditor_elgamal_pubkey] in
  let burn_amount_ciphertext_lo := encrypt_with keys burn_amount_lo (so_lo o) in
  let burn_amount_ciphertext_hi := encrypt_with keys burn_amount_hi (so_hi o) in
  current_decrypted_available_balance ←
    ok_or (ae_decrypt source_aes_key current_decryptable_available_balance) IllegalAmountBitLength;
  burn_amount_ciphertext_source ←
    combined_ciphertext 0 burn_amount_ciphertext_lo burn_amount_ciphertext_hi TRANSFER_AMOUNT_LO_BITS;
  let new_available_balance_ciphertext :=
    ciphertext_sub current_available_balance_ciphertext burn_amount_ciphertext_source in
  remaining_balance ←
    ok_or (checked_sub 64 current_decrypted_available_balance burn_amount) NotEnoughFunds;
  let new_available_balance_commitment := pedersen_with remaining_balance (so_new o) in
  equality_proof_data ← ok_or (equality_proof source_elgamal_keypair new_available_balance_ciphertext
    new_available_balance_commitment (so_new o) remaining_balance) ProofGeneration;
  ciphertext_validity_proof_data_with_ciphertext ←
    validity_with_auditor source_pubkey supply_elgamal_pubkey auditor_elgamal_pubkey
      burn_amount_ciphertext_lo burn_amount_ciphertext_hi burn_amount_lo burn_amount_hi (so_lo o) (so_hi o);
  range_proof_data ← padded_range_proof new_available_balance_commitment remaining_balance (so_new o)
    burn_amount_ciphertext_lo burn_amount_ciphertext_hi burn_amount_lo burn_amount_hi (so_lo o) (so_hi o)
    (so_padding o);
  Ok (mkSplitProofData equality_proof_data ciphertext_validity_proof_data_with_ciphertext
        range_proof_data).

(** ** [transfer_with_fee.rs] *)
Definition MAX_FEE_BASIS_POINTS_SUB_ONE : Z := 9999.
Definition MAX_FEE_BASIS_POINTS : Z := 10000.
Definition ONE_IN_BASIS_POINTS : Z := MAX_FEE_BASIS_POINTS.
Definition FEE_AMOUNT_LO_BITS : Z := 16.
Definition FEE_AMOUNT_HI_BITS : Z := 32.
Definition DELTA_BIT_LENGTH : Z := 16.
Definition NET_TRANSFER_AMOUNT_BIT_LENGTH : Z := 64.

Definition calculate_fee (transfer_amount fee_rate_basis_points : Z) : option (Z * Z) :=
  numerator ← checked_mul 128 transfer_amount fee_rate_basis_points;
  fee ← checked_add 128 numerator ONE_IN_BASIS_POINTS;
  fee ← checked_sub 128 fee 1;
  fee ← checked_div 128 fee ONE_IN_BASIS_POINTS;
  delta_fee ← checked_mul 128 fee ONE_IN_BASIS_POINTS;
  delta_fee ← checked_sub 128 delta_fee numerator;
  Some (fee mod 2 ^ 64, delta_fee mod 2 ^ 64).

(** The fee that is paid, and the claimed rounding: none for the maximum. *)
Definition capped_fee (transfer_amount transfer_fee_basis_points transfer_fee_maximum_fee : Z) :
    option (Z * Z) :=
  '(raw_fee_amount, raw_delta_fee) ← calculate_fee transfer_amount transfer_fee_basis_points;
  Some (if transfer_fee_maximum_fee <? raw_fee_amount then (transfer_fee_maximum_fee, 0)
        else (raw_fee_amount, raw_delta_fee)).

Definition compute_delta_commitment_and_opening (combined : PedersenCommitment * PedersenOpening)
    (combined_fee : PedersenCommitment * PedersenOpening) (fee_rate_basis_points : Z) :
    PedersenCommitment * PedersenOpening :=
  (commitment_sub (commitment_mul combined_fee.1 MAX_FEE_BASIS_POINTS)
     (commitment_mul combined.1 fee_rate_basis_points),
   opening_sub (opening_mul combined_fee.2 MAX_FEE_BASIS_POINTS)
     (opening_mul combined.2 fee_rate_basis_points)).

(** A commitment to the sum of two parts, with its opening *)
Definition combined_commitment (lo hi : GroupedElGamalCiphertext) (opening_lo opening_hi : PedersenOpening)
    bit_length : gen_result (PedersenCommitment * PedersenOpening) :=
  commitment ← ok_or (try_combine_lo_hi_commitments (grouped_commitment lo) (grouped_commitment hi)
    bit_length) IllegalAmountBitLength;
  opening ← ok_or (try_combine_lo_hi_openings opening_lo opening_hi bit_length) IllegalAmountBitLength;
  Ok (commitment, opening).

Record TransferWithFeeProofData := mkTransferWithFeeProofData {
  tw_equality_proof_data : CiphertextCommitmentEqualityProofData;
  tw_transfer_amount_ciphertext_validity_proof_data_with_ciphertext :
    CiphertextValidityProofWithAuditorCiphertext;
  tw_percentage_with_cap_proof_data : PercentageWithCapProofData;
  tw_fee_ciphertext_validity_proof_data : BatchedGroupedCiphertext2HandlesValidityProofData;
  tw_range_proof_data : BatchedRangeProofData 256;
}.

(** [so_padding] is not used here. *)
Record FeeOpenings := mkFeeOpenings {
  fo_lo : PedersenOpening;
  fo_hi : PedersenOpening;
  fo_claimed : PedersenOpening;
}.

(** The proofs about the fee: what is transferred is given with its parts. *)
Definition fee_proofs (o : SplitOpenings) (f : FeeOpenings)
    (new_available_balance_commitment : PedersenCommitment) (new_decrypted_available_balance : Z)
    (transfer_lo transfer_hi : GroupedElGamalCiphertext)
    (transfer_amount transfer_amount_lo transfer_amount_hi : Z)
    (destination_elgamal_pubkey withdraw_withheld_authority_elgamal_pubkey : ElGamalPubkey)
    (fee_rate_basis_points maximum_fee : Z) :
    gen_result (PercentageWithCapProofData * BatchedGroupedCiphertext2HandlesValidityProofData *
                BatchedRangeProofData 256) :=
  '(fee_amount, claimed_delta_fee) ←
    ok_or (capped_fee transfer_amount fee_rate_basis_points maximum_fee) FeeCalculation;
  net_transfer_amount ← ok_or (checked_sub 64 transfer_amount fee_amount) FeeCalculation;
  '(fee_amount_lo, fee_amount_hi) ← split_amount fee_amount FEE_AMOUNT_LO_BITS;
  let fee_keys := [destination_elgamal_pubkey; withdraw_withheld_authority_elgamal_pubkey] in
  let fee_ciphertext_lo := encrypt_with fee_keys fee_amount_lo (fo_lo f) in
  let fee_ciphertext_hi := encrypt_with fee_keys fee_amount_hi (fo_hi f) in
  combined_transfer_amount ←
    combined_commitment transfer_lo transfer_hi (so_lo o) (so_hi o) TRANSFER_AMOUNT_LO_BITS;
  combined_fee ←
    combined_commitment fee_ciphertext_lo fee_ciphertext_hi (fo_lo f) (fo_hi f) FEE_AMOUNT_LO_BITS;
  let net_transfer_amount_commitment := commitment_sub combined_transfer_amount.1 combined_fee.1 in
  let net_transfer_amount_opening := opening_sub combined_transfer_amount.2 combined_fee.2 in
  let claimed_commitment := pedersen_with claimed_delta_fee (fo_claimed f) in
  let delta := compute_delta_commitment_and_opening combined_transfer_amount combined_fee
    fee_rate_basis_points in
  percentage_with_cap_proof_data ← ok_or (percentage_proof combined_fee.1 combined_fee.2 fee_amount
    delta.1 delta.2 claimed_delta_fee claimed_commitment (fo_claimed f) maximum_fee) ProofGeneration;
  fee_ciphertext_validity_proof_data ← ok_or (validity_proof_2 destination_elgamal_pubkey
    withdraw_withheld_authority_elgamal_pubkey fee_ciphertext_lo fee_ciphertext_hi fee_amount_lo
    fee_amount_hi (fo_lo f) (fo_hi f)) ProofGeneration;
  delta_fee_complement ←
    ok_or (checked_sub 64 MAX_FEE_BASIS_POINTS_SUB_ONE claimed_delta_fee) FeeCalculation;
  let max_fee_basis_points_sub_one_commitment :=
    pedersen_with MAX_FEE_BASIS_POINTS_SUB_ONE default_opening in
  let claimed_complement_commitment :=
    commitment_sub max_fee_basis_points_sub_one_commitment claimed_commitment in
  let claimed_complement_opening := opening_sub default_opening (fo_claimed f) in
  range_proof_data ← ok_or (range_proof 256
    [new_available_balance_commitment; grouped_commitment transfer_lo; grouped_commitment transfer_hi;
     claimed_commitment; claimed_complement_commitment; grouped_commitment fee_ciphertext_lo;
     grouped_commitment fee_ciphertext_hi; net_transfer_amount_commitment]
    [new_decrypted_available_balance; transfer_amount_lo; transfer_amount_hi; claimed_delta_fee;
     delta_fee_complement; fee_amount_lo; fee_amount_hi; net_transfer_amount]
    [REMAINING_BALANCE_BIT_LENGTH; TRANSFER_AMOUNT_LO_BITS; TRANSFER_AMOUNT_HI_BITS; DELTA_BIT_LENGTH;
     DELTA_BIT_LENGTH; FEE_AMOUNT_LO_BITS; FEE_AMOUNT_HI_BITS; NET_TRANSFER_AMOUNT_BIT_LENGTH]
    [so_new o; so_lo o; so_hi o; fo_claimed f; claimed_complement_opening; fo_lo f; fo_hi f;
     net_transfer_amount_opening]) ProofGeneration;
  Ok (percentage_with_cap_proof_data, fee_ciphertext_validity_proof_data, range_proof_data).

Definition transfer_with_fee_split_proof_data (o : SplitOpenings) (f : FeeOpenings)
    (current_available_balance : ElGamalCiphertext)
    (current_decryptable_available_balance : AeCiphertext) (transfer_amount : Z)
    (source_elgamal_keypair : ElGamalKeypair) (aes_key : AeKey)
    (destination_elgamal_pubkey : ElGamalPubkey) (auditor_elgamal_pubkey : option ElGamalPubkey)
    (withdraw_withheld_authority_elgamal_pubkey : ElGamalPubkey)
    (fee_rate_basis_points maximum_fee : Z) : gen_result TransferWithFeeProofData :=
  let auditor_elgamal_pubkey := default default_pubkey auditor_elgamal_pubkey in
  let source_pubkey := pubkey source_elgamal_keypair in
  '(transfer_amount_lo, transfer_amount_hi) ← split_amount transfer_amount TRANSFER_AMOUNT_LO_BITS;
  let keys := [source_pubkey; destination_elgamal_pubkey; auditor_elgamal_pubkey] in
  let grouped_ciphertext_lo := encrypt_with keys transfer_amount_lo (so_lo o) in
  let grouped_ciphertext_hi := encrypt_with keys transfer_amount_hi (so_hi o) in
  current_decrypted_available_balance ←
    ok_or (ae_decrypt aes_key current_decryptable_available_balance) IllegalAmountBitLength;
  new_decrypted_available_balance ←
    ok_or (checked_sub 64 current_decrypted_available_balance transfer_amount) NotEnoughFunds;
  let new_available_balance_commitment := pedersen_with new_decrypted_available_balance (so_new o) in
  transfer_amount_source_ciphertext ←
    combined_ciphertext 0 grouped_ciphertext_lo grouped_ciphertext_hi TRANSFER_AMOUNT_LO_BITS;
  let new_available_balance_ciphertext :=
    ciphertext_sub current_available_balance transfer_amount_source_ciphertext in
  equality_proof_data ← ok_or (equality_proof source_elgamal_keypair new_available_balance_ciphertext
    new_available_balance_commitment (so_new o) new_decrypted_available_balance) ProofGeneration;
  transfer_amount_ciphertext_validity_proof_data_with_ciphertext ←
    validity_with_auditor source_pubkey destination_elgamal_pubkey auditor_elgamal_pubkey
      grouped_ciphertext_lo grouped_ciphertext_hi transfer_amount_lo transfer_amount_hi (so_lo o) (so_hi o);
  '(percentage_with_cap_proof_data, fee_ciphertext_validity_proof_data, range_proof_data) ←
    fee_proofs o f new_available_balance_commitment new_decrypted_available_balance
      grouped_ciphertext_lo grouped_ciphertext_hi transfer_amount transfer_amount_lo transfer_amount_hi
      destination_elgamal_pubkey withdraw_withheld_authority_elgamal_pubkey fee_rate_basis_points
      maximum_fee;
  Ok (mkTransferWithFeeProofData equality_proof_data
        transfer_amount_ciphertext_validity_proof_data_with_ciphertext percentage_with_cap_proof_data
        fee_ciphertext_validity_proof_data range_proof_data).
End generation.
End proof_generation.

Definition PENDING_BALANCE_LO_BIT_LENGTH : Z := 16.
Definition combine_balances (balance_lo balance_hi : Z) : option Z :=
  shifted ← checked_shl balance_hi PENDING_BALANCE_LO_BIT_LENGTH;
  checked_add 64 shifted balance_lo.

(** ** The account information of each instruction *)
Section account_info.
Context `{sdk : WalletSdk}.

Definition decrypted_u32 (balance : list byte) (elgamal_secret_key : ElGamalSecretKey) :
    token_result Z :=
  ciphertext ← ok_or (ciphertext_from_pod balance) MalformedCiphertext;
  ok_or (decrypt_u32 elgamal_secret_key ciphertext) AccountDecryption.

(** [decrypted_available_balance], the same in three of the structs *)
Definition decrypted_available_balance (decryptable_available_balance : list byte) (aes_key : AeKey) :
    token_result Z :=
  ciphertext ← ok_or (ae_from_pod decryptable_available_balance) MalformedCiphertext;
  ok_or (ae_decrypt aes_key ciphertext) AccountDecryption.

(** [EmptyAccountAccountInfo::generate_proof_data] *)
Definition empty_account_proof_data (c : ConfidentialTransferAccount)
    (elgamal_keypair : ElGamalKeypair) : token_result ZeroCiphertextProofData :=
  available_balance ← ok_or (ciphertext_from_pod (cta_available_balance c)) MalformedCiphertext;
  ok_or (zero_ciphertext_proof elgamal_keypair available_balance) ProofGeneration.

(** [ApplyPendingBalanceAccountInfo] *)
Record ApplyPendingBalanceAccountInfo := mkApplyPendingBalanceAccountInfo {
  ap_pending_balance_credit_counter : Z;
  ap_pending_balance_lo : list byte;
  ap_pending_balance_hi : list byte;
  ap_decryptable_available_balance : list byte;
}.
Definition ApplyPendingBalanceAccountInfo_new (c : ConfidentialTransferAccount) :
    ApplyPendingBalanceAccountInfo :=
  mkApplyPendingBalanceAccountInfo (cta_pending_balance_credit_counter c)
    (cta_pending_balance_lo c) (cta_pending_balance_hi c) (cta_decryptable_available_balance c).
Definition get_pending_balance (i : ApplyPendingBalanceAccountInfo)
    (elgamal_secret_key : ElGamalSecretKey) : token_result Z :=
  decrypted_lo ← decrypted_u32 (ap_pending_balance_lo i) elgamal_secret_key;
  decrypted_hi ← decrypted_u32 (ap_pending_balance_hi i) elgamal_secret_key;
  ok_or (combine_balances decrypted_lo decrypted_hi) AccountDecryption.
Definition has_pending_balance (i : ApplyPendingBalanceAccountInfo) : bool :=
  0 <? ap_pending_balance_credit_counter i.
Definition get_available_balance (i : ApplyPendingBalanceAccountInfo) (aes_key : AeKey) :
    token_result Z :=
  decrypted_available_balance (ap_decryptable_available_balance i) aes_key.
Definition get_total_balance (i : ApplyPendingBalanceAccountInfo)
    (elgamal_secret_key : ElGamalSecretKey) (aes_key : AeKey) : token_result Z :=
  pending ← get_pending_balance i elgamal_secret_key;
  available ← get_available_balance i aes_key;
  ok_or (checked_add 64 pending available) Overflow.

(** [ApplyPendingBalanceAccountInfo::new_decryptable_available_balance]: the sum is
    unwrapped. *)
Definition apply_new_decryptable_available_balance (nonce : ae_nonce)
    (i : ApplyPendingBalanceAccountInfo) (elgamal_secret_key : ElGamalSecretKey) (aes_key : AeKey) :
    token_result AeCiphertext :=
  pending_balance ← get_pending_balance i elgamal_secret_key;
  current_available_balance ←
    decrypted_available_balance (ap_decryptable_available_balance i) aes_key;
  match checked_add 64 current_available_balance pending_balance with
  | Some new_decrypted_available_balance =>
      Ok (ae_encrypt aes_key nonce new_decrypted_available_balance)
  | None => Panic
  end.

(** [new_decryptable_available_balance] of [WithdrawAccountInfo] and
    [TransferAccountInfo] *)
Definition spend_new_decryptable_available_balance (nonce : ae_nonce)
    (c : ConfidentialTransferAccount) (amount : Z) (aes_key : AeKey) : token_result AeCiphertext :=
  current_decrypted_available_balance ←
    decrypted_available_balance (cta_decryptable_available_balance c) aes_key;
  new_decrypted_available_balance ←
    ok_or (checked_sub 64 current_decrypted_available_balance amount) InsufficientFunds;
  Ok (ae_encrypt aes_key nonce new_decrypted_available_balance).

(** [WithdrawAccountInfo::generate_proof_data] *)
Definition withdraw_generate_proof_data (opening : PedersenOpening) (c : ConfidentialTransferAccount)
    (withdraw_amount : Z) (elgamal_keypair : ElGamalKeypair) (aes_key : AeKey) :
    token_result proof_generation.WithdrawProofData :=
  current_available_balance ←
    ok_or (ciphertext_from_pod (cta_available_balance c)) MalformedCiphertext;
  current_decrypted_available_balance ←
    decrypted_available_balance (cta_decryptable_available_balance c) aes_key;
  map_err proof_generation.into_token_error
    (proof_generation.withdraw_proof_data opening current_available_balance
       current_decrypted_available_balance withdraw_amount elgamal_keypair).
(** [TransferAccountInfo::generate_split_transfer_proof_data], and with a fee *)
Definition generate_split_transfer_proof_data `{zk : ZkSdk} (o : proof_generation.SplitOpenings)
    (c : ConfidentialTransferAccount) (transfer_amount : Z) (source_elgamal_keypair : ElGamalKeypair)
    (aes_key : AeKey) (destination_elgamal_pubkey : ElGamalPubkey)
    (auditor_elgamal_pubkey : option ElGamalPubkey) : token_result proof_generation.SplitProofData :=
  current_available_balance ←
    ok_or (ciphertext_from_pod (cta_available_balance c)) MalformedCiphertext;
  current_decryptable_available_balance ←
    ok_or (ae_from_pod (cta_decryptable_available_balance c)) MalformedCiphertext;
  map_err proof_generation.into_token_error
    (proof_generation.transfer_split_proof_data o current_available_balance
       current_decryptable_available_balance transfer_amount source_elgamal_keypair aes_key
       destination_elgamal_pubkey auditor_elgamal_pubkey).
Definition generate_split_transfer_with_fee_proof_data `{zk : ZkSdk}
    (o : proof_generation.SplitOpenings) (f : proof_generation.FeeOpenings)
    (c : ConfidentialTransferAccount) (transfer_amount : Z) (source_elgamal_keypair : ElGamalKeypair)
    (aes_key : AeKey) (destination_elgamal_pubkey : ElGamalPubkey)
    (auditor_elgamal_pubkey : option ElGamalPubkey)
    (withdraw_withheld_authority_elgamal_pubkey : ElGamalPubkey)
    (fee_rate_basis_points maximum_fee : Z) :
    token_result proof_generation.TransferWithFeeProofData :=
  current_available_balance ←
    ok_or (ciphertext_from_pod (cta_available_balance c)) MalformedCiphertext;
  current_decryptable_available_balance ←
    ok_or (ae_from_pod (cta_decryptable_available_balance c)) MalformedCiphertext;
  map_err proof_generation.into_token_error
    (proof_generation.transfer_with_fee_split_proof_data o f current_available_balance
       current_decryptable_available_balance transfer_amount source_elgamal_keypair aes_key
       destination_elgamal_pubkey auditor_elgamal_pubkey withdraw_withheld_authority_elgamal_pubkey
       fee_rate_basis_points maximum_fee).
End account_info.

(** ** Amounts in two parts *)
Lemma checked_shl_value a n : 0 ≤ n < 64 → checked_shl a n = Some (a * 2 ^ n mod 2 ^ 64).
Proof.
  intros [H0 Hn]. unfold checked_shl. rewrite (proj2 (Z.ltb_lt _ _) Hn). by rewrite Z.shiftl_mul_pow2.
Qed.

Lemma checked_shr_value a n : 0 ≤ n < 64 → checked_shr a n = Some (a / 2 ^ n).
Proof.
  intros [H0 Hn]. unfold checked_shr. rewrite (proj2 (Z.ltb_lt _ _) Hn). by rewrite Z.shiftr_div_pow2.
Qed.

(** The parts of an amount: of the lengths that were asked for, and worth the
    amount together. *)
Lemma try_split_u64_parts amount n : in_uint 64 amount → 0 ≤ n ≤ 64 →
  ∃ lo hi, proof_generation.try_split_u64 amount n = Some (lo, hi) ∧
    0 ≤ lo < 2 ^ n ∧ 0 ≤ hi < 2 ^ (64 - n) ∧ amount = lo + 2 ^ n * hi.
Proof.
  intros [H0 Ha] Hn. unfold proof_generation.try_split_u64.
  destruct (Z.eqb_spec n 0) as [->|Hn0]; [exists 0, amount; split_and!; [done|lia..]|].
  destruct (Z.eqb_spec n 64) as [->|Hn64]; [exists amount, 0; split_and!; [done|lia..]|].
  rewrite (proj2 (Z.leb_le 1 n)), (proj2 (Z.leb_le n 63)) by lia. cbn [andb].
  rewrite checked_shl_value, checked_shr_value by lia. cbn [mbind option_bind].
  rewrite checked_shr_value by lia. cbn [mbind option_bind].
  assert (2 ^ 64 = 2 ^ n * 2 ^ (64 - n)) as Hpow by (rewrite <-Z.pow_add_r by lia; f_equal; lia).
  pose proof (Z.pow_pos_nonneg 2 n) as Hp. pose proof (Z.pow_pos_nonneg 2 (64 - n)) as Hq.
  assert (amount * 2 ^ (64 - n) mod 2 ^ 64 / 2 ^ (64 - n) = amount mod 2 ^ n) as ->.
  { rewrite Hpow, Z.mul_mod_distr_r by lia. apply Z.div_mul. lia. }
  eexists _, _. split; [done|]. split; [apply Z.mod_pos_bound; lia|]. split.
  - split; [apply Z.div_pos; lia|]. apply Z.div_lt_upper_bound; [lia|]. by rewrite <-Hpow.
  - pose proof (Z.div_mod amount (2 ^ n)). lia.
Qed.

(** What the parts of a balance are worth, when that is an amount. *)
Lemma combine_balances_value lo hi : in_uint 48 hi → in_uint 64 (combined lo hi) →
  combine_balances lo hi = Some (combined lo hi).
Proof.
  intros [H0 Hhi] Hc. unfold combine_balances, PENDING_BALANCE_LO_BIT_LENGTH, combined in *.
  rewrite checked_shl_value by lia. cbn [mbind option_bind]. rewrite Z.mod_small by lia.
  apply checked_add_Some. split; [lia|]. by replace (hi * 2 ^ 16 + lo) with (lo + 2 ^ 16 * hi) by lia.
Qed.

(** ** The fee of a wallet and the fee of the program *)
Lemma wallet_calculate_fee f x : fee_ok f → in_uint 64 x →
  let n := x * tf_transfer_fee_basis_points f in
  proof_generation.calculate_fee x (tf_transfer_fee_basis_points f) =
    Some (ceil n 10000, ceil n 10000 * 10000 - n) ∧
  0 ≤ ceil n 10000 ≤ x ∧ 0 ≤ ceil n 10000 * 10000 - n ≤ 9999.
Proof.
  intros (_ & _ & Hbp) [H0 Hx] n. unfold MAX_FEE_BASIS_POINTS in Hbp.
  assert (0 ≤ n ≤ x * 10000) as Hn by (subst n; nia).
  pose proof (ceil_spec n 10000 (ceil n 10000) eq_refl) as Hup.
  pose proof (ceil_lt n 10000 (ceil n 10000 - 1) eq_refl) as Hlow.
  assert (0 ≤ ceil n 10000 ≤ x) as Hc.
  { split; [apply ceil_nonneg; lia|]. apply ceil_spec; lia. }
  split; [|lia]. unfold proof_generation.calculate_fee, proof_generation.ONE_IN_BASIS_POINTS,
    proof_generation.MAX_FEE_BASIS_POINTS, checked_mul, checked_add, checked_sub, checked_div.
  fold n. rewrite !to_uint_in by (unfold in_uint; lia). cbn [mbind option_bind].
  rewrite to_uint_in by (unfold in_uint; lia). cbn [mbind option_bind].
  rewrite to_uint_in by (unfold in_uint; lia). cbn [mbind option_bind].
  replace (10000 =? 0) with false by done.
  change ((n + 10000 - 1) / 10000) with (ceil n 10000).
  do 3 (rewrite to_uint_in by (unfold in_uint; lia); cbn [mbind option_bind]).
  by rewrite !Z.mod_small by lia.
Qed.

(** A wallet pays the fee of the program: the maximum, or the percentage and then the
    rounding that it claims is the one there was. *)
Lemma capped_fee_value f x : fee_ok f → in_uint 64 x →
  ∃ fee claimed,
    proof_generation.capped_fee x (tf_transfer_fee_basis_points f) (tf_maximum_fee f) =
      Some (fee, claimed) ∧
    calculate_fee f x = Some fee ∧ 0 ≤ fee ≤ x ∧ 0 ≤ claimed ≤ 9999 ∧
    (fee = tf_maximum_fee f ∨ claimed = fee * 10000 - x * tf_transfer_fee_basis_points f).
Proof.
  intros Hf Hx. destruct (wallet_calculate_fee f x Hf Hx) as (Hc & Hle & Hd).
  rewrite (calculate_fee_eq f Hf x Hx). unfold proof_generation.capped_fee. rewrite Hc.
  cbn [mbind option_bind]. unfold fee_of. change MAX_FEE_BASIS_POINTS with 10000.
  destruct Hf as (_ & [HM _] & _). destruct (Z.ltb_spec (tf_maximum_fee f)
    (ceil (x * tf_transfer_fee_basis_points f) 10000)); eexists _, _; (split; [done|]);
    [rewrite Z.min_r by lia|rewrite Z.min_l by lia]; (split; [done|]); lia.
Qed.

(** The function that was withdrawn does not put the parts of a split together. *)
Lemma try_combine_lo_hi_u64_wrong : ∃ amount lo hi, in_uint 64 amount ∧
  proof_generation.try_split_u64 amount 16 = Some (lo, hi) ∧
  proof_generation.try_combine_lo_hi_u64 lo hi 16 ≠ Some amount.
Proof. by exists 5, 5, 0. Qed.

(** ** The wallet and the chain *)

(** What the SDK promises: the key opens the ciphertexts of its secret that hold
    32-bit amounts, and the symmetric encryption is undone by its key. *)
Class WalletLaws `{sdk : WalletSdk} `{rt : Runtime} `{curve : Curve} `{group : !CurveGroup} := {
  secret_scalar : ElGamalSecretKey → Z;
  decrypt_u32_law k ciphertext n : in_uint 32 n → decrypts (secret_scalar k) ciphertext n →
    ∃ ct, ciphertext_from_pod ciphertext = Some ct ∧ decrypt_u32 k ct = Some n;
  ae_pod_law ct : ae_from_pod (ae_to_pod ct) = Some ct;
  ae_pod_ok ct : c_ok ae_ciphertext_codec (ae_to_pod ct);
  ae_decrypt_law k nonce n : in_uint 64 n → ae_decrypt k (ae_encrypt k nonce n) = Some n;
}.

Section wallet.
Import confidential_transfer.
Context `{rt : Runtime} `{sp : !SystemProgram} `{curve : Curve} `{group : !CurveGroup}.
Context `{zk : !ZkSdk} `{op : !Openings} `{sdk : !WalletSdk} `{laws : !WalletLaws}.
Implicit Types (w : world) (ti ai : AccountInfo) (signers : list AccountInfo).

Lemma decrypted_u32_value k ciphertext n : in_uint 32 n → decrypts (secret_scalar k) ciphertext n →
  decrypted_u32 ciphertext k = Ok n.
Proof.
  intros Hn (ct & Hct & Hd)%decrypt_u32_law; [|done]. unfold decrypted_u32. rewrite Hct.
  cbn [ok_or]. by rewrite Ok_bind, Hd.
Qed.

(** With the key of the account, the pending balance that is read is the one of
    the vault. *)
Lemma get_pending_balance_value w ti st c v k :
  vault_at w (key ti) v → account_at w (key ti) = Some st →
  get_account_ext ConfidentialTransferAccount (tlv_data st) = Ok c →
  secret_scalar k = secret (cta_elgamal_pubkey c) →
  in_uint 32 (v_lo v) → in_uint 32 (v_hi v) →
  get_pending_balance (ApplyPendingBalanceAccountInfo_new c) k = Ok (combined (v_lo v) (v_hi v)).
Proof.
  intros Hv Hst Hc Hk Hlo Hhi. destruct (vault_read _ _ _ _ _ Hv Hst Hc) as (_ & [_ Dl Dh _ _] & _).
  rewrite <-Hk in Dl, Dh. unfold get_pending_balance, ApplyPendingBalanceAccountInfo_new.
  cbn [ap_pending_balance_lo ap_pending_balance_hi].
  rewrite (decrypted_u32_value _ _ _ Hlo Dl), Ok_bind, (decrypted_u32_value _ _ _ Hhi Dh), Ok_bind.
  rewrite combine_balances_value; [done|..]; unfold in_uint, combined in *; lia.
Qed.

(** [apply_new_decryptable_available_balance] is what to submit: when the balance
    kept for the owner was the available one, it is after the instruction too. *)
Lemma wallet_follows_apply pid ti ai signers expected w w' st c v nonce k aes new :
  crypto_sizes rt → in_uint 64 expected → vault_at w (key ti) v →
  account_at w (key ti) = Some st →
  get_account_ext ConfidentialTransferAccount (tlv_data st) = Ok c →
  secret_scalar k = secret (cta_elgamal_pubkey c) →
  in_uint 32 (v_lo v) → in_uint 32 (v_hi v) →
  get_available_balance (ApplyPendingBalanceAccountInfo_new c) aes = Ok (v_available v) →
  apply_new_decryptable_available_balance nonce (ApplyPendingBalanceAccountInfo_new c) k aes = Ok new →
  process_apply_pending_balance pid (ti :: ai :: signers) expected (ae_to_pod new) w = Ok w' →
  ∃ st' c', account_at w' (key ti) = Some st' ∧
    get_account_ext ConfidentialTransferAccount (tlv_data st') = Ok c' ∧
    vault_at w' (key ti) (v_apply v) ∧
    get_available_balance (ApplyPendingBalanceAccountInfo_new c') aes = Ok (v_available (v_apply v)).
Proof.
  intros Hsz He Hv Hst Hc Hk Hlo Hhi Hav Hnew H.
  destruct (process_apply_pending_balance_step Hsz _ _ _ _ _ _ _ _ _ He (ae_pod_ok new) H Hv)
    as (Hv' & _ & _ & _ & st' & c' & _ & _ & _ & Hst' & Hc' & _ & _ & Hd).
  exists st', c'. do 3 (split; [done|]).
  unfold apply_new_decryptable_available_balance in Hnew.
  rewrite (get_pending_balance_value w ti st c v) in Hnew by done. rewrite Ok_bind in Hnew.
  unfold get_available_balance in Hav. cbn [v_apply v_available] in *. rewrite Hav, Ok_bind in Hnew.
  destruct (checked_add _ _ _) as [s|] eqn:Hs; [|done]. apply checked_add_Some in Hs as [-> Hs].
  injection Hnew as <-. unfold get_available_balance, decrypted_available_balance.
  cbn [ApplyPendingBalanceAccountInfo_new ap_decryptable_available_balance].
  rewrite Hd, ae_pod_law. cbn [ok_or]. by rewrite Ok_bind, ae_decrypt_law.
Qed.
End wallet.

(** ** The proofs that a wallet asks for *)

(** What the SDK promises of ciphertexts and commitments: the operators are
    homomorphic, and a grouped ciphertext holds its amount for each key. *)
Class CiphertextLaws `{sdk : WalletSdk} := {
  encrypts : ElGamalPubkey → ElGamalCiphertext → Z → Prop;
  elgamal_encode_law pk n : encrypts pk (elgamal_encode n) n;
  ciphertext_add_law pk c d m n : encrypts pk c m → encrypts pk d n →
    encrypts pk (ciphertext_add c d) (m + n);
  ciphertext_sub_law pk c d m n : encrypts pk c m → encrypts pk d n →
    encrypts pk (ciphertext_sub c d) (m - n);
  ciphertext_mul_law pk c m n : encrypts pk c m → encrypts pk (ciphertext_mul c n) (m * n);
  to_elgamal_law keys n o i pk : keys !! i = Some pk →
    ∃ c, to_elgamal_ciphertext (encrypt_with keys n o) i = Some c ∧ encrypts pk c n;
  grouped_commitment_law keys n o : grouped_commitment (encrypt_with keys n o) = pedersen_with n o;
  commitment_add_law m n o p :
    commitment_add (pedersen_with m o) (pedersen_with n p) = pedersen_with (m + n) (opening_add o p);
  commitment_sub_law m n o p :
    commitment_sub (pedersen_with m o) (pedersen_with n p) = pedersen_with (m - n) (opening_sub o p);
  commitment_mul_law m n o :
    commitment_mul (pedersen_with m o) n = pedersen_with (m * n) (opening_mul o n);
}.

(** The statements that proofs are of *)
Section statements.
Context `{laws : CiphertextLaws}.

Definition equality_statement (k : ElGamalKeypair) c com o n : Prop :=
  encrypts (pubkey k) c n ∧ com = pedersen_with n o.
Definition validity_statement (keys : list ElGamalPubkey) (c_lo c_hi : GroupedElGamalCiphertext) lo hi
    o_lo o_hi : Prop :=
  c_lo = encrypt_with keys lo o_lo ∧ c_hi = encrypt_with keys hi o_hi.
(** The percentage is the maximum, or off by what is claimed. *)
Definition percentage_statement com o percentage delta delta_o delta_n claimed claimed_o maximum : Prop :=
  com = pedersen_with percentage o ∧ claimed = pedersen_with delta_n claimed_o ∧
  (percentage = maximum ∨ delta = pedersen_with delta_n delta_o).
(** At most eight values of 1 to 64 bits each, 64, 128 or 256 bits in all *)
Definition range_statement total coms (values lengths : list Z) openings : Prop :=
  (total = 64 ∨ total = 128 ∨ total = 256) ∧ (length values ≤ 8)%nat ∧
  Forall (λ b, 1 ≤ b ≤ 64) lengths ∧
  foldr Z.add 0 lengths = total ∧ coms = zip_with pedersen_with values openings ∧
  length openings = length values ∧ Forall2 (λ v b, 0 ≤ v < 2 ^ b) values lengths.
End statements.

(** Proofs of true statements can be made, and the ciphertexts of the auditor are in
    the context of their validity. *)
Class ProofLaws `{laws : CiphertextLaws} `{rt : Runtime} `{zk : !ZkSdk} := {
  equality_complete k c com o n : equality_statement k c com o n → in_uint 64 n →
    is_Some (equality_proof k c com o n);
  validity_2_complete k1 k2 c_lo c_hi lo hi o_lo o_hi :
    validity_statement [k1; k2] c_lo c_hi lo hi o_lo o_hi →
    is_Some (validity_proof_2 k1 k2 c_lo c_hi lo hi o_lo o_hi);
  validity_3_complete k1 k2 k3 c_lo c_hi lo hi o_lo o_hi :
    validity_statement [k1; k2; k3] c_lo c_hi lo hi o_lo o_hi →
    is_Some (validity_proof_3 k1 k2 k3 c_lo c_hi lo hi o_lo o_hi);
  validity_context_law (d : BatchedGroupedCiphertext3HandlesValidityProofData) :
    is_Some (extract_ciphertext 3 (g3_grouped_ciphertext_lo (validity_context d)) 2) ∧
    is_Some (extract_ciphertext 3 (g3_grouped_ciphertext_hi (validity_context d)) 2);
  percentage_complete com o n delta delta_o delta_n claimed claimed_o maximum :
    percentage_statement com o n delta delta_o delta_n claimed claimed_o maximum →
    is_Some (percentage_proof com o n delta delta_o delta_n claimed claimed_o maximum);
  range_complete total coms values lengths openings :
    range_statement total coms values lengths openings →
    is_Some (range_proof total coms values lengths openings);
}.

Section proofs.
Import proof_generation.
Context `{laws : CiphertextLaws} `{rt : Runtime} `{zk : !ZkSdk} `{plaws : !ProofLaws}.

(** The next call returns what the equation says. *)
Ltac run H := rewrite H; cbn [ok_or]; cbn match; rewrite ?Ok_bind; cbn match.

(** The parts of an amount, *)
Lemma split_amount_parts n : in_uint 64 n →
  ∃ lo hi, split_amount n TRANSFER_AMOUNT_LO_BITS = Ok (lo, hi) ∧
    0 ≤ lo < 2 ^ 16 ∧ 0 ≤ hi ∧ n = lo + hi * 2 ^ 16.
Proof.
  intros Hn. destruct (try_split_u64_parts n 16) as (lo & hi & Hs & Hlo & Hhi & Heq); [done|lia|].
  exists lo, hi. unfold split_amount, TRANSFER_AMOUNT_LO_BITS. rewrite Hs. cbn [ok_or].
  split; [done|]. split; [done|]. lia.
Qed.

(** and of one of 48 bits *)
Lemma split_amount_Ok n : in_uint 48 n →
  ∃ lo hi, split_amount n TRANSFER_AMOUNT_LO_BITS = Ok (lo, hi) ∧
    0 ≤ lo < 2 ^ 16 ∧ 0 ≤ hi < 2 ^ 32 ∧ n = lo + hi * 2 ^ 16.
Proof.
  intros Hn. destruct (split_amount_parts n) as (lo & hi & Hs & Hlo & Hhi & Heq);
    [unfold in_uint in *; lia|].
  exists lo, hi. split; [done|]. split; [done|]. unfold in_uint in Hn. lia.
Qed.

Lemma combined_ciphertext_Ok keys lo hi o_lo o_hi i pk : keys !! i = Some pk →
  ∃ c, combined_ciphertext i (encrypt_with keys lo o_lo) (encrypt_with keys hi o_hi)
         TRANSFER_AMOUNT_LO_BITS = Ok c ∧ encrypts pk c (lo + hi * 2 ^ 16).
Proof.
  intros Hk. destruct (to_elgamal_law keys lo o_lo i pk Hk) as (c & Hc & Ec).
  destruct (to_elgamal_law keys hi o_hi i pk Hk) as (d & Hd & Ed).
  unfold combined_ciphertext. run Hc. run Hd. eexists. split; [done|].
  by apply ciphertext_add_law, ciphertext_mul_law.
Qed.

Lemma combined_commitment_Ok keys lo hi o_lo o_hi :
  ∃ o, combined_commitment (encrypt_with keys lo o_lo) (encrypt_with keys hi o_hi) o_lo o_hi
         TRANSFER_AMOUNT_LO_BITS = Ok (pedersen_with (lo + hi * 2 ^ 16) o, o).
Proof.
  eexists. unfold combined_commitment.
  assert (try_combine_lo_hi_commitments (pedersen_with lo o_lo) (pedersen_with hi o_hi)
    TRANSFER_AMOUNT_LO_BITS = Some (pedersen_with (lo + hi * 2 ^ 16)
      (opening_add o_lo (opening_mul o_hi (2 ^ 16))))) as H.
  { rewrite <-commitment_add_law, <-commitment_mul_law. reflexivity. }
  rewrite !grouped_commitment_law. by run H.
Qed.

Lemma validity_with_auditor_Ok k1 k2 k3 lo hi o_lo o_hi :
  ∃ v, validity_with_auditor k1 k2 k3 (encrypt_with [k1; k2; k3] lo o_lo)
         (encrypt_with [k1; k2; k3] hi o_hi) lo hi o_lo o_hi = Ok v ∧
    validity_proof_3 k1 k2 k3 (encrypt_with [k1; k2; k3] lo o_lo) (encrypt_with [k1; k2; k3] hi o_hi)
      lo hi o_lo o_hi = Some (va_proof_data v).
Proof.
  destruct (validity_3_complete k1 k2 k3 (encrypt_with [k1; k2; k3] lo o_lo)
    (encrypt_with [k1; k2; k3] hi o_hi) lo hi o_lo o_hi) as [d Hd]; [done|].
  destruct (validity_context_law d) as [[x Hx] [y Hy]]. unfold validity_with_auditor.
  run Hd. run Hx. run Hy. by eexists.
Qed.

(** What the proof of the validity shows of an amount *)
Definition amount_encrypted_3 (k1 k2 k3 : ElGamalPubkey) (n : Z)
    (p : BatchedGroupedCiphertext3HandlesValidityProofData) : Prop :=
  ∃ c_lo c_hi lo hi o_lo o_hi, validity_proof_3 k1 k2 k3 c_lo c_hi lo hi o_lo o_hi = Some p ∧
    validity_statement [k1; k2; k3] c_lo c_hi lo hi o_lo o_hi ∧ n = lo + hi * 2 ^ 16.
Definition amount_encrypted_2 (k1 k2 : ElGamalPubkey) (n : Z)
    (p : BatchedGroupedCiphertext2HandlesValidityProofData) : Prop :=
  ∃ c_lo c_hi lo hi o_lo o_hi, validity_proof_2 k1 k2 c_lo c_hi lo hi o_lo o_hi = Some p ∧
    validity_statement [k1; k2] c_lo c_hi lo hi o_lo o_hi ∧ n = lo + hi * 2 ^ 16.

Lemma equality_Ok k c n o : encrypts (pubkey k) c n → in_uint 64 n →
  ∃ d, equality_proof k c (pedersen_with n o) o n = Some d.
Proof. intros. by apply equality_complete. Qed.

Lemma padded_range_Ok keys n o lo hi o_lo o_hi o_pad : in_uint 64 n → 0 ≤ lo < 2 ^ 16 → 0 ≤ hi < 2 ^ 32 →
  ∃ d, padded_range_proof (pedersen_with n o) n o (encrypt_with keys lo o_lo) (encrypt_with keys hi o_hi)
         lo hi o_lo o_hi o_pad = Ok d.
Proof.
  intros Hn Hlo Hhi. unfold padded_range_proof. rewrite !grouped_commitment_law.
  destruct (range_complete 128 [pedersen_with n o; pedersen_with lo o_lo; pedersen_with hi o_hi;
    pedersen_with 0 o_pad] [n; lo; hi; 0] [64; 16; 32; 16] [o; o_lo; o_hi; o_pad]) as [d Hd].
  { split; [auto|]. split; [cbn; lia|]. do 3 (split; [by repeat constructor|]).
    split; [done|]. by repeat constructor; try apply Hn; try lia. }
  exists d. unfold REMAINING_BALANCE_BIT_LENGTH, TRANSFER_AMOUNT_LO_BITS, TRANSFER_AMOUNT_HI_BITS,
    RANGE_PROOF_PADDING_BIT_LENGTH. by rewrite Hd.
Qed.

(** An amount of 48 bits that the balance covers can be transferred *)
Lemma transfer_proofs_exist os current ae n k aes dest auditor balance :
  encrypts (pubkey k) current balance → ae_decrypt aes ae = Some balance →
  in_uint 48 n → in_uint 64 balance → n ≤ balance →
  ∃ d, transfer_split_proof_data os current ae n k aes dest auditor = Ok d.
Proof.
  intros Hc Hae Hn Hb Hle. destruct (split_amount_Ok n Hn) as (lo & hi & Hs & Hlo & Hhi & ->).
  unfold transfer_split_proof_data. run Hs. run Hae.
  set (n := lo + hi * 2 ^ 16) in *. set (a := default _ auditor).
  assert (in_uint 64 (balance - n)) as Hnew by (unfold in_uint in *; lia).
  unfold checked_sub. run (to_uint_in _ _ Hnew).
  destruct (combined_ciphertext_Ok [pubkey k; dest; a] lo hi (so_lo os) (so_hi os) 0 (pubkey k) eq_refl)
    as (c & Hcomb & Hcc). run Hcomb.
  destruct (equality_Ok k (ciphertext_sub current c) (balance - n) (so_new os)) as [e He];
    [by apply ciphertext_sub_law|done|]. run He.
  destruct (validity_with_auditor_Ok (pubkey k) dest a lo hi (so_lo os) (so_hi os)) as (v & Hv & _).
  run Hv. destruct (padded_range_Ok [pubkey k; dest; a] (balance - n) (so_new os) lo hi
    (so_lo os) (so_hi os) (so_padding os)) as [r Hr]; [done..|].
  run Hr. by eexists.
Qed.

(** or burned, *)
Lemma burn_proofs_exist os current ae n k aes supply auditor balance :
  encrypts (pubkey k) current balance → ae_decrypt aes ae = Some balance →
  in_uint 48 n → in_uint 64 balance → n ≤ balance →
  ∃ d, burn_split_proof_data os current ae n k aes supply auditor = Ok d.
Proof.
  intros Hc Hae Hn Hb Hle. destruct (split_amount_Ok n Hn) as (lo & hi & Hs & Hlo & Hhi & ->).
  unfold burn_split_proof_data. run Hs. run Hae. set (n := lo + hi * 2 ^ 16) in *.
  set (a := default _ auditor).
  assert (in_uint 64 (balance - n)) as Hnew by (unfold in_uint in *; lia).
  destruct (combined_ciphertext_Ok [pubkey k; supply; a] lo hi (so_lo os) (so_hi os) 0 (pubkey k) eq_refl)
    as (c & Hcomb & Hcc). run Hcomb. unfold checked_sub. run (to_uint_in _ _ Hnew).
  destruct (equality_Ok k (ciphertext_sub current c) (balance - n) (so_new os)) as [e He];
    [by apply ciphertext_sub_law|done|]. run He.
  destruct (validity_with_auditor_Ok (pubkey k) supply a lo hi (so_lo os) (so_hi os)) as (v & Hv & _).
  run Hv. destruct (padded_range_Ok [pubkey k; supply; a] (balance - n) (so_new os) lo hi
    (so_lo os) (so_hi os) (so_padding os)) as [r Hr]; [done..|].
  run Hr. by eexists.
Qed.

(** and one that the supply has room for can be minted. *)
Lemma mint_proofs_exist os current n supply k dest auditor :
  encrypts (pubkey k) current supply → in_uint 48 n → 0 ≤ supply → supply + n < 2 ^ 64 →
  ∃ d, mint_split_proof_data os current n supply k dest auditor = Ok d.
Proof.
  intros Hc Hn H0 Hle. destruct (split_amount_Ok n Hn) as (lo & hi & Hs & Hlo & Hhi & ->).
  unfold mint_split_proof_data. run Hs. set (n := lo + hi * 2 ^ 16) in *.
  set (a := default _ auditor).
  assert (in_uint 64 (supply + n)) as Hnew by (unfold in_uint in *; lia).
  destruct (combined_ciphertext_Ok [dest; pubkey k; a] lo hi (so_lo os) (so_hi os) 1 (pubkey k) eq_refl)
    as (c & Hcomb & Hcc). run Hcomb. unfold checked_add. run (to_uint_in _ _ Hnew).
  destruct (equality_Ok k (ciphertext_add current c) (supply + n) (so_new os)) as [e He];
    [by apply ciphertext_add_law|done|]. run He.
  destruct (validity_with_auditor_Ok dest (pubkey k) a lo hi (so_lo os) (so_hi os)) as (v & Hv & _).
  run Hv. destruct (padded_range_Ok [dest; pubkey k; a] (supply + n) (so_new os) lo hi
    (so_lo os) (so_hi os) (so_padding os)) as [r Hr]; [done..|].
  run Hr. by eexists.
Qed.

(** ** Transfers with a fee *)

(** What the fee proofs prove, given what is left of the balance. *)
Definition fee_proofs_true (f : TransferFee) (dest withdraw : ElGamalPubkey) (n left fee : Z)
    (p : PercentageWithCapProofData) (v : BatchedGroupedCiphertext2HandlesValidityProofData)
    (r : BatchedRangeProofData 256) : Prop :=
  amount_encrypted_2 dest withdraw fee v ∧
  (∃ com o delta delta_o claimed com_claimed o_claimed,
     percentage_proof com o fee delta delta_o claimed com_claimed o_claimed (tf_maximum_fee f) = Some p ∧
     percentage_statement com o fee delta delta_o claimed com_claimed o_claimed (tf_maximum_fee f)) ∧
  (∃ coms values lengths openings,
     range_proof 256 coms values lengths openings = Some r ∧
     range_statement 256 coms values lengths openings ∧
     values !! 0%nat = Some left ∧ values !! 7%nat = Some (n - fee)).

Lemma fee_percentage_Ok f n fee claimed o o_fee o_claimed :
  fee = tf_maximum_fee f ∨ claimed = fee * 10000 - n * tf_transfer_fee_basis_points f →
  let delta := compute_delta_commitment_and_opening (pedersen_with n o, o) (pedersen_with fee o_fee, o_fee)
    (tf_transfer_fee_basis_points f) in
  percentage_statement (pedersen_with fee o_fee) o_fee fee delta.1 delta.2 claimed
    (pedersen_with claimed o_claimed) o_claimed (tf_maximum_fee f).
Proof.
  intros Hc delta. split; [done|]. split; [done|]. destruct Hc as [Hc | ->]; [by left|right].
  unfold delta, compute_delta_commitment_and_opening. cbn [fst snd].
  by rewrite !commitment_mul_law, commitment_sub_law.
Qed.

Lemma fee_proofs_Ok os fo keys lo hi left dest withdraw f :
  let n := lo + hi * 2 ^ 16 in
  fee_ok f → in_uint 48 n → in_uint 64 left → 0 ≤ lo < 2 ^ 16 → 0 ≤ hi < 2 ^ 32 →
  ∃ fee p v r, fee_proofs os fo (pedersen_with left (so_new os)) left (encrypt_with keys lo (so_lo os))
      (encrypt_with keys hi (so_hi os)) n lo hi dest withdraw (tf_transfer_fee_basis_points f)
      (tf_maximum_fee f) = Ok (p, v, r) ∧
    Fee.calculate_fee f n = Some fee ∧ fee_proofs_true f dest withdraw n left fee p v r.
Proof.
  intros n Hf Hn Hleft Hlo Hhi. assert (in_uint 64 n) as Hn64 by (unfold in_uint in *; lia).
  destruct (capped_fee_value f n Hf Hn64) as (fee & claimed & Hcap & Hfee & Hle & Hcl & Hor).
  destruct (split_amount_Ok fee) as (f_lo & f_hi & Hs & Hflo & Hfhi & Heq); [unfold in_uint in *; lia|].
  unfold fee_proofs. run Hcap.
  assert (in_uint 64 (n - fee)) as Hnet by (unfold in_uint in *; lia).
  pose proof (to_uint_in _ _ Hnet : checked_sub 64 n fee = Some _) as Hsub. run Hsub. change FEE_AMOUNT_LO_BITS with TRANSFER_AMOUNT_LO_BITS.
  run Hs. destruct (combined_commitment_Ok keys lo hi (so_lo os) (so_hi os)) as [o Ho]. run Ho. fold n.
  destruct (combined_commitment_Ok [dest; withdraw] f_lo f_hi (fo_lo fo) (fo_hi fo)) as [o_fee Hof].
  run Hof. rewrite <-Heq. cbn [fst snd].
  pose proof (fee_percentage_Ok f n fee claimed o o_fee (fo_claimed fo) Hor) as Hp. cbn zeta in Hp.
  destruct (percentage_complete _ _ _ _ _ _ _ _ _ Hp) as [p Hpp]. run Hpp.
  destruct (validity_2_complete dest withdraw (encrypt_with [dest; withdraw] f_lo (fo_lo fo))
    (encrypt_with [dest; withdraw] f_hi (fo_hi fo)) f_lo f_hi (fo_lo fo) (fo_hi fo)) as [v Hv]; [done|].
  run Hv. assert (in_uint 64 (MAX_FEE_BASIS_POINTS_SUB_ONE - claimed)) as Hcomp
    by (unfold in_uint, MAX_FEE_BASIS_POINTS_SUB_ONE; lia).
  pose proof (to_uint_in _ _ Hcomp : checked_sub 64 _ claimed = Some _) as Hsub'. run Hsub'. rewrite !grouped_commitment_law, !commitment_sub_law.
  match goal with |- context [range_proof 256 ?c ?vs ?l ?op] =>
    assert (range_statement 256 c vs l op) as Hr end.
  { split; [auto|]. split; [cbn; lia|]. do 3 (split; [by repeat constructor|]).
    split; [done|]. unfold in_uint, MAX_FEE_BASIS_POINTS_SUB_ONE in *.
    repeat constructor; unfold REMAINING_BALANCE_BIT_LENGTH, TRANSFER_AMOUNT_LO_BITS,
      TRANSFER_AMOUNT_HI_BITS, DELTA_BIT_LENGTH, FEE_AMOUNT_HI_BITS, NET_TRANSFER_AMOUNT_BIT_LENGTH; lia. }
  destruct (range_complete _ _ _ _ _ Hr) as [r Hrr]. run Hrr.
  exists fee, p, v, r. split; [done|]. split; [done|].
  split; [by eexists _, _, _, _, _, _|]. split; [by eexists _, _, _, _, _, _, _|].
  eexists _, _, _, _. split; [exact Hrr|]. by split.
Qed.

(** The range proof covers the high part of the amount with 32 bits. *)
Lemma fee_proofs_range os fo com left t_lo t_hi n lo hi dest withdraw rate cap p v r :
  fee_proofs os fo com left t_lo t_hi n lo hi dest withdraw rate cap = Ok (p, v, r) →
  ∃ coms values lengths openings, range_proof 256 coms values lengths openings = Some r ∧
    values !! 2%nat = Some hi ∧ lengths !! 2%nat = Some 32.
Proof.
  intros ([fee claimed] & _ & (net & _ & ([f_lo f_hi] & _ & (c & _ & (cf & _ & (p' & _ & (v' & _ &
    (co & _ & (r' & Hr%ok_or_Ok & [= _ _ <-])%bind_Ok)%bind_Ok)%bind_Ok)%bind_Ok)%bind_Ok)%bind_Ok)
    %bind_Ok)%bind_Ok)%bind_Ok.
  by eexists _, _, _, _.
Qed.

Lemma long_amount_untrue coms values lengths openings total hi : values !! 2%nat = Some hi →
  lengths !! 2%nat = Some 32 → 2 ^ 32 ≤ hi → ¬ range_statement total coms values lengths openings.
Proof.
  intros Hv Hl Hhi (_ & _ & _ & _ & _ & _ & H). pose proof (Forall2_lookup_lr _ _ _ _ _ _ H Hv Hl) as Hb.
  cbn beta in Hb. lia.
Qed.

(** C18: transfers with a fee, from a wallet.  An amount that the balance does not cover is
    refused for want of funds.  One of 48 bits that it covers yields all five proofs, with the
    fee that [TransferFee::calculate_fee] charges for it, and what they state is true: the rest
    of the balance is what is left behind the ciphertext, the ciphertexts hold the amount and
    the fee for their keys, the fee is the maximum or the percentage with the
    claimed rounding, and every value lies in the range it is proved for.  For an amount of
    more than 48 bits no range proof of a true statement comes out. *)
Theorem transfer_with_fee_proofs os fo current ae n k aes dest auditor withdraw f balance :
  fee_ok f → encrypts (pubkey k) current balance → ae_decrypt aes ae = Some balance →
  in_uint 64 n → in_uint 64 balance →
  let auditor_key := default default_pubkey auditor in
  let result := transfer_with_fee_split_proof_data os fo current ae n k aes dest auditor withdraw
    (tf_transfer_fee_basis_points f) (tf_maximum_fee f) in
  (balance < n → result = Err NotEnoughFunds) ∧
  (n ≤ balance → n < 2 ^ 48 → ∃ d fee, result = Ok d ∧ Fee.calculate_fee f n = Some fee ∧
     (∃ c com o, equality_proof k c com o (balance - n) = Some (tw_equality_proof_data d) ∧
        equality_statement k c com o (balance - n)) ∧
     amount_encrypted_3 (pubkey k) dest auditor_key n
       (va_proof_data (tw_transfer_amount_ciphertext_validity_proof_data_with_ciphertext d)) ∧
     fee_proofs_true f dest withdraw n (balance - n) fee (tw_percentage_with_cap_proof_data d)
       (tw_fee_ciphertext_validity_proof_data d) (tw_range_proof_data d)) ∧
  (2 ^ 48 ≤ n → ∀ d, result = Ok d → ∃ coms values lengths openings,
     range_proof 256 coms values lengths openings = Some (tw_range_proof_data d) ∧
     ¬ range_statement 256 coms values lengths openings).
Proof.
  intros Hf Hc Hae Hn64 Hb auditor_key result.
  destruct (split_amount_parts n Hn64) as (lo & hi & Hs & Hlo & Hhi & Heq).
  split; [|split].
  - intros Hlt. unfold result, transfer_with_fee_split_proof_data. run Hs. run Hae.
    unfold checked_sub. rewrite (proj2 (to_uint_None _ _)); [done|]. unfold in_uint. lia.
  - intros Hle H48. assert (in_uint 48 n) as Hn by (unfold in_uint in *; lia).
    assert (hi < 2 ^ 32) as Hhi' by lia.
    unfold result, transfer_with_fee_split_proof_data. run Hs. run Hae.
    assert (in_uint 64 (balance - n)) as Hnew by (unfold in_uint in *; lia).
    pose proof (to_uint_in _ _ Hnew : checked_sub 64 balance n = Some _) as Hsub. run Hsub.
    set (a := default _ auditor).
    destruct (combined_ciphertext_Ok [pubkey k; dest; a] lo hi (so_lo os) (so_hi os) 0 (pubkey k) eq_refl)
      as (c & Hcomb & Hcc). run Hcomb. rewrite <-Heq in Hcc.
    pose proof (ciphertext_sub_law _ _ _ _ _ Hc Hcc) as Hleft.
    destruct (equality_Ok k _ _ (so_new os) Hleft Hnew) as [e He]. run He.
    destruct (validity_with_auditor_Ok (pubkey k) dest a lo hi (so_lo os) (so_hi os)) as (v & Hv & Hvp).
    run Hv. destruct (fee_proofs_Ok os fo [pubkey k; dest; a] lo hi (balance - n) dest withdraw f) as
      (fee & p & v' & r & Hp & Hfee & Htrue); [done|by rewrite <-Heq|done..|].
    rewrite <-Heq in *. run Hp. eexists _, fee. split; [done|]. split; [done|].
    split; [by eexists _, _, _|]. split; [by eexists _, _, _, _, _, _|done].
  - intros H48 d H. unfold result, transfer_with_fee_split_proof_data in H.
    rewrite Hs, Ok_bind in H. cbv zeta in H.
    apply bind_Ok in H as (b & _ & (left & _ & (c & _ & (e & _ & (v & _ & ([[p v'] r] &
      Hp%fee_proofs_range & [= <-])%bind_Ok)%bind_Ok)%bind_Ok)%bind_Ok)%bind_Ok).
    destruct Hp as (coms & values & lengths & openings & Hr & Hv & Hl).
    exists coms, values, lengths, openings. split; [done|].
    apply (long_amount_untrue _ _ _ _ _ hi Hv Hl). lia.
Qed.
End proofs.
