(* ===== verification/Registry.v ===== *)
(** * The ElGamal registry program

    [confidential/elgamal-registry/src/processor.rs] and the interface crate
    [confidential/elgamal-registry-interface]: a separate program that stores one
    ElGamal key per wallet, from which [ConfigureAccountWithRegistry] of the token
    program takes the key of a token account. *)
From stdpp Require Import relations.
From S2P Require Import Prelude Codec Errors Runtime Pod State ExtensionType ExtensionData Tlv.
From S2P Require Import TlvFacts TlvAlloc StateExt Authority Transfer AccountFacts PackedExt.
From S2P Require Import InitOps SystemOps TransferFeeOps CiphertextOps ProofExtraction.
From S2P Require Import ConfidentialOps ConfidentialTransferOps ConfidentialFacts Unborn.
From S2P Require Import SystemFacts ExtensionFacts ConfidentialLedger Vaults.
From S2P Require Import EncryptedFees.

(** [Pubkey::find_program_address]: an address and its bump seed. *)
Class ProgramAddresses := {
  find_program_address : list (list byte) → Pubkey → Pubkey * Z;
}.

Module elgamal_registry.
Definition REGISTRY_ADDRESS_SEED : list byte := String.list_byte_of_string "elgamal-registry".
Definition ELGAMAL_REGISTRY_ACCOUNT_LEN : nat := 64.

(** [RegistryInstruction], with the offset as an [i8] *)
Inductive RegistryInstruction :=
| CreateRegistry (proof_instruction_offset : Z)
| UpdateRegistry (proof_instruction_offset : Z).

(** [RegistryInstruction::unpack] and [::pack] *)
Definition RegistryInstruction_unpack (input : list byte) : res RegistryInstruction :=
  match input with
  | [] => Err InvalidInstructionData
  | tag :: rest =>
      if byte.unsigned tag =? 0 then
        offset ← ok_or (head rest) InvalidInstructionData;
        Ok (CreateRegistry (c_read i8 [offset]))
      else if byte.unsigned tag =? 1 then
        offset ← ok_or (head rest) InvalidInstructionData;
        Ok (UpdateRegistry (c_read i8 [offset]))
      else Err InvalidInstructionData
  end.
Definition RegistryInstruction_pack (i : RegistryInstruction) : list byte :=
  match i with
  | CreateRegistry offset => byte.of_Z 0 :: c_write i8 offset
  | UpdateRegistry offset => byte.of_Z 1 :: c_write i8 offset
  end.

Section registry.
Context `{rt : Runtime} `{sp : !SystemProgram} `{zk : !ZkSdk} `{pda : ProgramAddresses}.
Implicit Types (w : world) (accounts : list AccountInfo).

(** [get_elgamal_registry_address_and_bump_seed], [get_elgamal_registry_address] *)
Definition get_elgamal_registry_address_and_bump_seed (wallet_address program_id : Pubkey) :
    Pubkey * Z :=
  find_program_address [REGISTRY_ADDRESS_SEED; le_split 32 wallet_address] program_id.
Definition get_elgamal_registry_address (wallet_address program_id : Pubkey) : Pubkey :=
  (get_elgamal_registry_address_and_bump_seed wallet_address program_id).1.

(** [validate_registry_owner], [validate_program_owner] *)
Definition validate_registry_owner (owner_info : AccountInfo) (expected_owner : Pubkey) : res unit :=
  throw_if (negb (expected_owner =? key owner_info)) InvalidAccountOwner;;
  throw_if (negb (is_signer owner_info)) MissingRequiredSignature.
Definition validate_program_owner (registry_info : AccountInfo) (program_id : Pubkey) w : res unit :=
  throw_if (negb (info_owner w registry_info =? program_id)) InvalidAccountOwner.

(** [create_pda_account]; the seeds are those of the address, so the call signs for it *)
Definition create_pda_account (r : rent) (space : nat) (owner : Pubkey)
    (system_program new_pda_account : AccountInfo) w : res world :=
  let required_lamports :=
    saturating_sub (minimum_balance r space) (info_lamports w new_pda_account) in
  throw_if (0 <? required_lamports) AccountNotRentExempt;;
  w ← system_allocate new_pda_account system_program space w;
  system_assign new_pda_account system_program owner w.

(** [process_create_registry_account] *)
Definition process_create_registry_account (program_id : Pubkey) accounts
    (proof_instruction_offset : Z) w : res world :=
  '(elgamal_registry_account_info, accounts) ← next_account_info accounts;
  '(wallet_account_info, accounts) ← next_account_info accounts;
  '(system_program_info, accounts) ← next_account_info accounts;
  throw_if (negb (is_signer wallet_account_info)) MissingRequiredSignature;;
  '(proof_context, accounts) ←
    verify_and_extract_context ProofType.PubkeyValidity [] w accounts proof_instruction_offset None;
  let elgamal_registry_account_address :=
    get_elgamal_registry_address (key wallet_account_info) program_id in
  throw_if (negb (elgamal_registry_account_address =? key elgamal_registry_account_info))
    InvalidSeeds;;
  r ← rent_get;
  w ← create_pda_account r ELGAMAL_REGISTRY_ACCOUNT_LEN program_id system_program_info
        elgamal_registry_account_info w;
  elgamal_registry_account_data ← borrow [] w elgamal_registry_account_info;
  elgamal_registry_account ← pod_from_bytes ElGamalRegistry_codec elgamal_registry_account_data;
  let elgamal_registry_account :=
    mkElGamalRegistry (key wallet_account_info) (pv_pubkey proof_context) in
  Ok (set_data w (key elgamal_registry_account_info)
        (c_write ElGamalRegistry_codec elgamal_registry_account)).

(** [process_update_registry_account]; the registry stays borrowed *)
Definition process_update_registry_account (program_id : Pubkey) accounts
    (proof_instruction_offset : Z) w : res world :=
  '(elgamal_registry_account_info, accounts) ← next_account_info accounts;
  elgamal_registry_account_data ← borrow [] w elgamal_registry_account_info;
  elgamal_registry_account ← pod_from_bytes ElGamalRegistry_codec elgamal_registry_account_data;
  '(proof_context, accounts) ←
    verify_and_extract_context ProofType.PubkeyValidity [key elgamal_registry_account_info] w
      accounts proof_instruction_offset None;
  '(owner_info, accounts) ← next_account_info accounts;
  validate_registry_owner owner_info (er_owner elgamal_registry_account);;
  validate_program_owner elgamal_registry_account_info program_id w;;
  let elgamal_registry_account :=
    mkElGamalRegistry (er_owner elgamal_registry_account) (pv_pubkey proof_context) in
  Ok (set_data w (key elgamal_registry_account_info)
        (c_write ElGamalRegistry_codec elgamal_registry_account)).

(** [process_instruction] *)
Definition process_instruction (program_id : Pubkey) accounts (input : list byte) w : res world :=
  instruction ← RegistryInstruction_unpack input;
  match instruction with
  | CreateRegistry offset => process_create_registry_account program_id accounts offset w
  | UpdateRegistry offset => process_update_registry_account program_id accounts offset w
  end.
End registry.
End elgamal_registry.

(** * What the registry program keeps true

    Every account of the program in use is the registry of the wallet its address is
    derived from, with a key that was proved valid; only the wallet changes it; and a token
    account that is configured with a registry gets its key. *)
Import elgamal_registry.

(** The codec of the instructions. *)
Lemma registry_instruction_round_trip i :
  match i with CreateRegistry z | UpdateRegistry z => c_ok i8 z end →
  RegistryInstruction_unpack (RegistryInstruction_pack i) = Ok i.
Proof.
  intros Hi. destruct i as [z|z]; cbn [RegistryInstruction_pack];
    unfold RegistryInstruction_unpack; cbn [byte.unsigned];
    (assert (∃ b, c_write i8 z = [b]) as [b Hb] by (pose proof (c_write_length i8 z) as Hl;
       change (c_size i8) with 1%nat in Hl; destruct (c_write i8 z) as [|b [|]]; [discriminate| |discriminate];
       by exists b));
    rewrite Hb; cbn [head ok_or];
    change (byte.unsigned (byte.of_Z 0)) with 0; change (byte.unsigned (byte.of_Z 1)) with 1;
    rewrite ?Z.eqb_refl; cbn [Z.eqb]; rewrite Ok_bind, <-Hb, c_read_write; done.
Qed.

(** ** What the program keeps true *)
Section machine.
Context `{rt : Runtime} `{sp : !SystemProgram} `{zk : !ZkSdk} `{pda : ProgramAddresses}.
Implicit Types (w : world) (k : Pubkey) (accounts : list AccountInfo) (r : ElGamalRegistry).

(** The keys that a proof certifies: any property that proofs of the validity of a key
    establish; the keys have their size. *)
Variable certified : list byte → Prop.
Hypothesis certified_length : ∀ pk, certified pk → length pk = elgamal_pubkey_len.
(** The system program is another program. *)
Hypothesis other_program : system_program_id ≠ elgamal_registry_id.

(** The proofs of the transaction were verified. *)
Definition key_proofs_hold w : Prop := ∀ held accounts offset context rest,
  verify_and_extract_context ProofType.PubkeyValidity held w accounts offset None =
    Ok (context, rest) → certified (pv_pubkey context).

(** [r] is the registry at [k], which belongs to its wallet. *)
Definition registry_at w k r : Prop :=
  owner (get_account w k) = elgamal_registry_id ∧
  data (get_account w k) = c_write ElGamalRegistry_codec r ∧ c_ok ElGamalRegistry_codec r ∧
  k = get_elgamal_registry_address (er_owner r) elgamal_registry_id ∧
  certified (er_elgamal_pubkey r).

(** Accounts given to the program are registries, or zeroed and not yet in use. *)
Definition registries_sound w : Prop := ∀ k, owner (get_account w k) = elgamal_registry_id →
  (∃ n, data (get_account w k) = zeros n) ∨ ∃ r, registry_at w k r.

(** Other programs cannot write the accounts of this one, and accounts given to it are
    zeroed. *)
Definition others_step w w' : Prop :=
  ∀ k, let a := get_account w k in let a' := get_account w' k in
    (owner a = elgamal_registry_id → owner a' = elgamal_registry_id ∧ data a' = data a) ∧
    (owner a ≠ elgamal_registry_id → owner a' = elgamal_registry_id → ∃ n, data a' = zeros n).

(** Keys are 32 bytes, and nobody signs for the default key, which is the address of the
    system program. *)
Definition signers_ok accounts : Prop := ∀ i, i ∈ accounts →
  in_uint 256 (key i) ∧ (is_signer i = true → key i ≠ Pubkey_default).

(** An instruction of the program with these accounts, or other programs at work. *)
Inductive registry_step : option (list AccountInfo) → world → world → Prop :=
| registry_instruction w w' accounts input :
    signers_ok accounts → key_proofs_hold w →
    process_instruction elgamal_registry_id accounts input w = Ok w' →
    registry_step (Some accounts) w w'
| registry_others w w' : others_step w w' → registry_step None w w'.

(** A new registry: its wallet signs. *)
Lemma create_registry_Ok pid accounts offset w w' :
  process_create_registry_account pid accounts offset w = Ok w' →
  ∃ i wallet rest ctx rest', i :: wallet :: rest = accounts ∧ is_signer wallet = true ∧
    key i = get_elgamal_registry_address (key wallet) pid ∧
    info_owner w i = system_program_id ∧
    verify_and_extract_context ProofType.PubkeyValidity [] w (tail rest) offset None =
      Ok (ctx, rest') ∧
    w' = set_data (set_owner (set_data w (key i) (zeros 64)) (key i) pid) (key i)
           (c_write ElGamalRegistry_codec (mkElGamalRegistry (key wallet) (pv_pubkey ctx))).
Proof.
  intros H. destruct accounts as [|i [|wallet [|si rest]]]; [done..|].
  unfold process_create_registry_account in H.
  do 3 (cbn [next_account_info] in H; rewrite Ok_bind in H).
  apply bind_Ok in H as (u & Hs%throw_unless & ([ctx rest'] & Hctx & H)%bind_Ok). cbv zeta in H.
  apply bind_Ok in H as (u1 & Hk%throw_unless_key & (r & _ & (w1 & Hw1 & H)%bind_Ok)%bind_Ok).
  apply bind_Ok in Hw1 as (u2 & _ & (w2 & (Ho & _ & ->)%system_allocate_Ok & [_ ->]%system_assign_Ok)
    %bind_Ok).
  apply bind_Ok in H as (d & _ & (g & _ & [= <-])%bind_Ok).
  exists i, wallet, (si :: rest), ctx, rest'. by split_and!.
Qed.

(** A changed registry: its owner signs. *)
Lemma update_registry_Ok pid accounts offset w w' :
  process_update_registry_account pid accounts offset w = Ok w' →
  ∃ i rest r held ctx rest' o, accounts = i :: rest ∧ o ∈ accounts ∧
    length (info_data w i) = c_size ElGamalRegistry_codec ∧
    r = c_read ElGamalRegistry_codec (info_data w i) ∧
    verify_and_extract_context ProofType.PubkeyValidity held w rest offset None = Ok (ctx, rest') ∧
    er_owner r = key o ∧ is_signer o = true ∧ info_owner w i = pid ∧
    w' = set_data w (key i)
           (c_write ElGamalRegistry_codec (mkElGamalRegistry (er_owner r) (pv_pubkey ctx))).
Proof.
  intros H. destruct accounts as [|i rest]; [done|].
  unfold process_update_registry_account in H. cbn [next_account_info] in H. rewrite Ok_bind in H.
  apply bind_Ok in H as (d & [_ ->]%borrow_Ok & (r & [Hl Hr]%pod_from_bytes_Ok & ([ctx rest'] & Hctx & H)
    %bind_Ok)%bind_Ok).
  apply bind_Ok in H as ([o rest''] & ->%next_account_rest & H).
  apply bind_Ok in H as (u & (u1 & Ho%throw_unless_key & Hs%throw_unless)%bind_Ok &
    (u2 & Hp%throw_unless_key & [= <-])%bind_Ok).
  exists i, rest, r, [key i], ctx, (o :: rest''), o. split; [done|]. split.
  - right. refine (context_rest ProofType.PubkeyValidity _ _ _ _ _ ctx _ Hctx o _). left.
  - by split_and!.
Qed.

(** Written registries are read back, in their place. *)
Lemma registry_written w k o pk (d := c_write ElGamalRegistry_codec (mkElGamalRegistry o pk)) :
  in_uint 256 o → certified pk → owner (get_account w k) = elgamal_registry_id →
  k = get_elgamal_registry_address o elgamal_registry_id →
  registry_at (set_data w k d) k (mkElGamalRegistry o pk).
Proof.
  intros Ho Hpk Hown Hk. unfold registry_at. rewrite get_set_data, decide_True by done.
  split; [done|]. split; [done|]. split; [|done]. split; [done|by apply certified_length].
Qed.

Lemma zeros_owner n : length (zeros n) = c_size ElGamalRegistry_codec →
  er_owner (c_read ElGamalRegistry_codec (zeros n)) = Pubkey_default.
Proof.
  rewrite length_zeros. intros ->.
  change (c_size ElGamalRegistry_codec) with (32 + elgamal_pubkey_len)%nat.
  change (er_owner _) with (le_combine (take 32 (zeros (32 + elgamal_pubkey_len)))).
  unfold zeros. rewrite replicate_add, take_app_length' by (by rewrite length_replicate). reflexivity.
Qed.

(** One step: registries stay where they are, and with their wallets; a key changes only
    when the wallet signs. *)
Definition registries_kept (by_ : option (list AccountInfo)) w w' : Prop :=
  ∀ k r, registry_at w k r → ∃ r', registry_at w' k r' ∧ er_owner r' = er_owner r ∧
    (r' = r ∨ ∃ accounts i, by_ = Some accounts ∧ i ∈ accounts ∧ is_signer i = true ∧
       key i = er_owner r).

Lemma registry_at_data w w' k r : owner (get_account w' k) = owner (get_account w k) →
  data (get_account w' k) = data (get_account w k) → registry_at w k r → registry_at w' k r.
Proof. unfold registry_at. by intros -> ->. Qed.

(** One account changes, and is a registry then. *)
Lemma write_registry_sound w w' k r : registries_sound w →
  (∀ j, j ≠ k → get_account w' j = get_account w j) → registry_at w' k r → registries_sound w'.
Proof.
  intros Hw Hj Hr j Ho. destruct (decide (j = k)) as [->|Hne]; [right; by exists r|].
  rewrite (Hj j Hne) in Ho |- *. destruct (Hw j Ho) as [Hz|[x Hx]]; [by left|right].
  exists x. revert Hx. apply registry_at_data; by rewrite Hj.
Qed.

Lemma write_registry_kept b w w' k r : (∀ j, j ≠ k → get_account w' j = get_account w j) →
  registry_at w' k r →
  (∀ x, registry_at w k x → er_owner r = er_owner x ∧ ∃ accounts i, b = Some accounts ∧
     i ∈ accounts ∧ is_signer i = true ∧ key i = er_owner x) →
  registries_kept b w w'.
Proof.
  intros Hj Hr Hx j x Hjx. destruct (decide (j = k)) as [->|Hne].
  - destruct (Hx x Hjx) as (Ho & Hs). exists r. split; [done|]. split; [done|by right].
  - exists x. split; [|by auto]. revert Hjx. apply registry_at_data; by rewrite Hj.
Qed.

Lemma others_step_sound w w' : others_step w w' → registries_sound w →
  registries_sound w' ∧ registries_kept None w w'.
Proof.
  intros Hs Hw. split.
  - intros k Ho. destruct (Hs k) as [H1 H2].
    destruct (decide (owner (get_account w k) = elgamal_registry_id)) as [E|E]; [|left; by apply H2].
    destruct (H1 E) as [E' Hd]. destruct (Hw k E) as [Hz|[r Hr]]; [left; by rewrite Hd|right].
    exists r. revert Hr. apply registry_at_data; [by rewrite E, E'|done].
  - intros k r Hr. exists r. split; [|by auto]. destruct (Hs k) as [H1 _].
    pose proof Hr as [E _]. destruct (H1 E) as [E' Hd].
    revert Hr. apply registry_at_data; [by rewrite E, E'|done].
Qed.

Lemma registry_step_sound b w w' : registry_step b w w' → registries_sound w →
  registries_sound w' ∧ registries_kept b w w'.
Proof using certified_length other_program.
  intros [v ? accounts input Hsig Hproofs H|v ? Hs] Hw; [|by apply others_step_sound].
  apply bind_Ok in H as (i & _ & H). destruct i as [off|off].
  - apply create_registry_Ok in H as (i & wallet & rest & ctx & rest' & <- & Hs & Hk & Ho & Hctx & ->).
    set (w1 := set_owner _ _ _). set (w2 := set_data w1 _ _).
    destruct (Hsig wallet) as [Hrange _]; [set_solver|].
    assert (∀ j, j ≠ key i → get_account w2 j = get_account v j) as Hj.
    { intros j Hne. subst w2 w1.
      rewrite get_set_data, decide_False by congruence.
      rewrite get_set_owner, decide_False by congruence.
      by rewrite get_set_data, decide_False by congruence. }
    assert (registry_at w2 (key i) (mkElGamalRegistry (key wallet) (pv_pubkey ctx))) as Hr.
    { apply registry_written; [done|by eapply Hproofs| |done].
      subst w1. by rewrite get_set_owner, decide_True. }
    split; [by eapply write_registry_sound|]. eapply write_registry_kept; [exact Hj|exact Hr|].
    intros x [Hx _]. unfold info_owner in Ho. congruence.
  - apply update_registry_Ok in H
      as (i & rest & r & held & ctx & rest' & o & -> & Ho & Hl & -> & Hctx & Hown & Hs & Hp & ->).
    set (r := c_read _ _) in *. set (w2 := set_data _ _ _).
    destruct (Hsig o Ho) as [Hrange Hdef].
    destruct (Hw (key i) Hp) as [[n Hz]|[x Hx]].
    { destruct (Hdef Hs). rewrite <-Hown. unfold r, info_data in *. rewrite Hz in *.
      by apply zeros_owner. }
    assert (r = x) as Hrx.
    { destruct Hx as (_ & Hd & Hok & _). unfold r, info_data. rewrite Hd. by apply c_read_write. }
    assert (∀ j, j ≠ key i → get_account w2 j = get_account v j) as Hj
      by (intros j Hne; subst w2; by rewrite get_set_data, decide_False by congruence).
    assert (registry_at w2 (key i) (mkElGamalRegistry (er_owner r) (pv_pubkey ctx))) as Hr.
    { apply registry_written; [by rewrite Hown|by eapply Hproofs|done|].
      rewrite Hrx. apply Hx. }
    split; [by eapply write_registry_sound|]. eapply write_registry_kept; [exact Hj|exact Hr|].
    intros y Hy. assert (y = x) as ->.
    { destruct Hx as (_ & Hd & Hok & _), Hy as (_ & Hd' & Hok' & _). rewrite Hd in Hd'.
      rewrite <-(c_read_write _ _ Hok), <-(c_read_write _ _ Hok'). by rewrite Hd'. }
    rewrite Hrx in Hown |- *. split; [done|]. exists (i :: rest), o. by split_and!.
Qed.

(** What happened, the latest first. *)
Inductive registry_trace : world → world → Prop :=
| registry_start w : registry_trace w w
| registry_next b w0 w w' : registry_trace w0 w → registry_step b w w' → registry_trace w0 w'.

Lemma registry_trace_sound w0 w : (∀ k, owner (get_account w0 k) ≠ elgamal_registry_id) →
  registry_trace w0 w → registries_sound w.
Proof using certified_length other_program.
  intros Hg H. induction H as [w|b w0 w w' _ IH Hs]; [intros k Ho; by destruct (Hg k)|].
  eapply registry_step_sound; [exact Hs|by apply IH].
Qed.

(** C11: the registry of a wallet holds a key that was proved valid, under the address derived
    from the wallet, and no instruction and no other program takes it away: it
    stays the wallet's, and its key changes only when the wallet signs. *)
Theorem registry_belongs_to_wallet w0 w :
  (∀ k, owner (get_account w0 k) ≠ elgamal_registry_id) → registry_trace w0 w →
  (∀ k, owner (get_account w k) = elgamal_registry_id →
     (∃ n, data (get_account w k) = zeros n) ∨ ∃ r, registry_at w k r) ∧
  ∀ b w', registry_step b w w' → registries_kept b w w'.
Proof using certified_length other_program.
  intros Hg H. pose proof (registry_trace_sound _ _ Hg H) as Hs. split; [exact Hs|].
  intros b w' Hstep. by eapply registry_step_sound.
Qed.
End machine.

(** ** Token accounts configured with a registry *)
Section configure.
Import confidential_transfer.
Context `{rt : Runtime} `{sp : !SystemProgram} `{curve : Curve} `{zk : !ZkSdk}.
Context `{pda : ProgramAddresses}.
Implicit Types (w : world) (accounts : list AccountInfo) (st : PodStateMut PodAccount).

Lemma get_after_init V `{!Extension V} ov (v : V) st tlv : has_entries (tlv_data st) →
  TYPE V ≠ ExtensionType.Uninitialized → in_uint 16 (Z.of_nat (ext_size V)) →
  init_extension PodAccount V ov (tlv_data st) = Ok tlv → c_ok ext_codec v →
  get_account_ext V (tlv_data (put_account_ext v (with_tlv tlv st))) = Ok v.
Proof.
  intros He HU Hsz Hi Hv. apply (get_put_account V ext_default); [|done].
  exact (get_init_extension PodAccount V HU Hsz _ _ _ He (ext_default_ok V) Hi).
Qed.

Lemma get_after_other_init V `{!Extension V} W `{!Extension W} ov (v : V) (x : W) st tlv :
  has_entries (tlv_data st) → TYPE V ≠ ExtensionType.Uninitialized →
  in_uint 16 (Z.of_nat (ext_size V)) → TYPE W ≠ ExtensionType.Uninitialized → TYPE V ≠ TYPE W →
  init_extension PodAccount V ov (tlv_data st) = Ok tlv →
  get_account_ext W (tlv_data st) = Ok x →
  get_account_ext W (tlv_data (put_account_ext v (with_tlv tlv st))) = Ok x.
Proof.
  intros He HU Hsz HW Hne Hi Hx. rewrite (get_put_account_ne V W ext_default); [|exact
    (get_init_extension PodAccount V HU Hsz _ _ _ He (ext_default_ok V) Hi)|done].
  by apply (get_init_other PodAccount V W ov _ _ _ HU Hsz HW (not_eq_sym Hne) Hi He).
Qed.

Lemma configured_ok cm pk n zero : c_ok ext_codec cm → length pk = elgamal_pubkey_len →
  in_uint 64 n → length zero = ae_ciphertext_len → c_ok ext_codec (configured cm pk n zero).
Proof.
  intros (_ & Ha & _) Hpk Hn Hz. apply cta_ok. cbn [configured cta_approved cta_elgamal_pubkey
    cta_pending_balance_lo cta_pending_balance_hi cta_available_balance
    cta_decryptable_available_balance cta_allow_confidential_credits
    cta_allow_non_confidential_credits cta_pending_balance_credit_counter
    cta_maximum_pending_balance_credit_counter cta_expected_pending_balance_credit_counter
    cta_actual_pending_balance_credit_counter].
  assert (length zeroed_ciphertext = elgamal_ciphertext_len) by apply length_zeros.
  split_and!; done.
Qed.

Lemma configure_with_registry_Ok pid ti mi x rest zero n ri reg w w' st : crypto_sizes rt →
  account_at w (key ti) = Some st → has_entries (tlv_data st) →
  length (er_elgamal_pubkey reg) = elgamal_pubkey_len → in_uint 64 n →
  length zero = ae_ciphertext_len →
  process_configure_account pid (ti :: mi :: x :: rest) zero n (RegistrySource ri reg) w = Ok w' →
  key ti ≠ key ri ∧ er_owner reg = acc_owner (base st) ∧
  ∃ st' c, account_at w' (key ti) = Some st' ∧ base st' = base st ∧
    get_account_ext ConfidentialTransferAccount (tlv_data st') = Ok c ∧
    cta_elgamal_pubkey c = er_elgamal_pubkey reg.
Proof.
  intros Hsz Hst He Hpk Hn Hz H. unfold process_configure_account in H.
  do 3 (cbn [next_account_info] in H; rewrite Ok_bind in H). rewrite Ok_bind in H. cbv zeta in H.
  apply bind_Ok in H as (st0 & (_ & Hh & Hst0)%open_account_Ok & (u & _ & (u1 & Ho%throw_unless_key &
    (r & _ & (cm & Hcm & (tlv & Hi & (st' & Hst' & [= <-])%bind_Ok)%bind_Ok)%bind_Ok)%bind_Ok)
    %bind_Ok)%bind_Ok).
  rewrite Hst in Hst0. injection Hst0 as <-. split; [set_solver|]. split; [done|].
  destruct (confidential_sizes Hsz) as (_ & Hs1 & _ & Hs2 & _).
  pose proof (account_at_ok _ _ _ Hst) as Hok.
  set (c := configured cm (er_elgamal_pubkey reg) n zero) in Hst'.
  assert (c_ok ext_codec c) as Hc by (apply configured_ok; [by eapply get_extension_ok|done..]).
  set (st1 := put_account_ext c (with_tlv tlv st)) in Hst'.
  assert (kept st st1) as Hk by by apply (kept_init ConfidentialTransferAccount false).
  assert (get_account_ext ConfidentialTransferAccount (tlv_data st1) = Ok c) as Hget
    by by apply (get_after_init ConfidentialTransferAccount false).
  destruct (Hk Hok) as (Hok1 & Hb1 & _ & He1).
  destruct (is_ok _).
  - apply bind_Ok in Hst' as (tlv' & Hi' & [= <-]).
    assert (kept st1 (put_account_ext (mkConfidentialTransferFeeAmount zeroed_ciphertext)
      (with_tlv tlv' st1))) as Hk2
      by by apply (kept_init ConfidentialTransferFeeAmount false); auto.
    destruct (Hk2 Hok1) as (Hok2 & Hb2 & _). eexists _, c.
    split; [by apply account_at_write|]. split; [by rewrite Hb2|]. split; [|done].
    by apply (get_after_other_init ConfidentialTransferFeeAmount ConfidentialTransferAccount false); auto.
  - injection Hst' as <-. exists st1, c. split; [by apply account_at_write|]. done.
Qed.

(** Giving the account room keeps every other account, its base and the shape of its
    area. *)
Lemma room_for_registry rest ti w w1 : 
  match rest with
  | payer_info :: accounts =>
      '(system_program_info, _) ← next_account_info accounts;
      reallocate_for_configure_account_with_registry ti payer_info system_program_info w
  | [] => Ok w
  end = Ok w1 →
  (∀ k, k ≠ key ti → info_data w1 (mkInfo k false false) = info_data w (mkInfo k false false)) ∧
  ∀ st, account_at w1 (key ti) = Some st → ∃ st0, account_at w (key ti) = Some st0 ∧
    base st = base st0 ∧ (has_entries (tlv_data st0) → has_entries (tlv_data st)).
Proof.
  assert (∀ w1, w1 = w → (∀ k, k ≠ key ti → info_data w1 (mkInfo k false false) =
    info_data w (mkInfo k false false)) ∧
    ∀ st, account_at w1 (key ti) = Some st → ∃ st0, account_at w (key ti) = Some st0 ∧
      base st = base st0 ∧ (has_entries (tlv_data st0) → has_entries (tlv_data st))) as Hsame.
  { intros ? ->. split; [done|]. intros st Hst. by exists st. }
  destruct rest as [|pi rest]; [intros [= <-]; by apply Hsame|].
  intros ([si ?] & _ & [->|(st0 & k & Hst0 & Hok & Hw)]%realloc_for_registry_Ok)%bind_Ok;
    [by apply Hsame|]. split.
  - intros j Hj. unfold info_data. cbn [key]. destruct (Hw j) as [-> _]. by rewrite decide_False.
  - intros st Hst%account_at_Some. destruct (Hw (key ti)) as [Hd _].
    rewrite decide_True in Hd by done. rewrite Hd, (unpack_state_bytes _ _ Hok) in Hst.
    injection Hst as <-. exists st0. split; [done|]. split; [done|]. intros He.
    by apply has_entries_grow.
Qed.

(** C12: a registry vouches for the key of a token account.  Where the registry program keeps
    what it promises, [ConfigureAccountWithRegistry] of the token program,
    which needs no signature, can only give an account of a wallet the key of the registry at the
    address of that wallet, which was proved valid. *)
Theorem configured_from_registry certified pid accounts w w' : crypto_sizes rt →
  registries_sound certified w →
  (∀ k st, account_at w k = Some st → has_entries (tlv_data st)) →
  process_configure_account_with_registry pid accounts w = Ok w' →
  ∃ ti mi ri rest st st' c, accounts = ti :: mi :: ri :: rest ∧
    account_at w (key ti) = Some st ∧ account_at w' (key ti) = Some st' ∧ base st' = base st ∧
    get_account_ext ConfidentialTransferAccount (tlv_data st') = Ok c ∧
    (acc_owner (base st) ≠ Pubkey_default →
     certified (cta_elgamal_pubkey c) ∧
     key ri = get_elgamal_registry_address (acc_owner (base st)) elgamal_registry_id).
Proof.
  intros Hsz Hreg Hent H. destruct accounts as [|ti [|mi [|ri rest]]]; [done..|].
  unfold process_configure_account_with_registry in H.
  do 3 (cbn [next_account_info] in H; rewrite Ok_bind in H).
  apply bind_Ok in H as (u & Hid%throw_unless_key & (w1 & Hw1%room_for_registry & (d & [_ ->]%borrow_Ok &
    (reg & [Hl ->]%pod_from_bytes_Ok & H)%bind_Ok)%bind_Ok)%bind_Ok).
  destruct Hw1 as [Hother Hroom]. set (reg := c_read _ _) in H.
  assert (c_ok ElGamalRegistry_codec reg) as [_ Hpk] by by apply c_read_ok.
  pose proof H as H0. unfold process_configure_account in H0.
  do 3 (cbn [next_account_info] in H0; rewrite Ok_bind in H0). rewrite Ok_bind in H0. cbv zeta in H0.
  apply bind_Ok in H0 as (st1 & (_ & _ & Hst1)%open_account_Ok & _).
  destruct (Hroom _ Hst1) as (st & Hst & Hb & He).
  destruct (configure_with_registry_Ok pid ti mi ri rest (zeros ae_ciphertext_len)
      DEFAULT_MAXIMUM_PENDING_BALANCE_CREDIT_COUNTER ri reg w1 w' st1 Hsz Hst1)
    as (Hne & Hown & st' & c & Hst' & Hb' & Hc & Hkey); [by eapply He, Hent|done|done|apply length_zeros|exact H|].
  exists ti, mi, ri, rest, st, st', c. rewrite Hb', Hb. do 5 (split; [done|]). intros Hdef.
  rewrite Hb in Hown. rewrite Hkey, <-Hown.
  assert (info_data w1 ri = info_data w ri) as Hri by (apply (Hother (key ri)); congruence).
  destruct (Hreg (key ri) Hid) as [[n Hz]|[r (_ & Hd & Hok & Hk & Hcert)]].
  - destruct Hdef. rewrite <-Hown. unfold reg. rewrite Hri in Hl |- *. unfold info_data in *.
    rewrite Hz in Hl |- *. by apply zeros_owner.
  - assert (reg = r) as ->; [|done]. unfold reg. rewrite Hri. unfold info_data. rewrite Hd.
    by apply c_read_write.
Qed.
End configure.
