(* ===== verification/OftState.v ===== *)
(** * The state of the OFT program

    [layerzero/programs/oft/src]: the codecs of messages ([msg_codec.rs],
    [compose_msg_codec.rs]), the records of [state/], the token bucket that limits the
    rate, and the amounts a transfer between chains carries.  The release profile of the
    workspace checks overflow, so plain arithmetic panics. *)
From S2P Require Import Prelude Codec Errors Runtime Pod State ExtensionType ExtensionData Tlv.
From S2P Require Import StateFacts TlvFacts TlvAlloc StateExt PackedExt Fee AccountFacts.
From S2P Require Import Instruction InstructionFacts.

(** [OFTError], an error of a program called, and a constraint of an account that
    Anchor checks. *)
Inductive OFTError :=
| Unauthorized | InvalidSender | InvalidDecimals | SlippageExceeded | InvalidTokenDest
| RateLimitExceeded | InvalidFee | InvalidMintAuthority | Paused.
Inductive oft_error := Oft (e : OFTError) | Called (e : ProgramError) | Constraint.
Abbreviation oft_result := (result oft_error).

Definition called {A} (r : res A) : oft_result A := map_err Called r.

(** Plain arithmetic on [u64] *)
Definition or_panic {A} (o : option A) : oft_result A := match o with Some a => Ok a | None => Panic end.
Definition add_u64 (a b : Z) : oft_result Z := or_panic (checked_add 64 a b).
Definition sub_u64 (a b : Z) : oft_result Z := or_panic (checked_sub 64 a b).
Definition mul_u64 (a b : Z) : oft_result Z := or_panic (checked_mul 64 a b).
Definition div_u64 (a b : Z) : oft_result Z := or_panic (checked_div 64 a b).
Definition rem_u64 (a b : Z) : oft_result Z := if b =? 0 then Panic else Ok (a mod b).

(** [saturating_mul] on [u64] *)
Definition saturating_mul (a b : Z) : Z := Z.min (a * b) (2 ^ 64 - 1).

(** [to_be_bytes], [from_be_bytes] *)
Definition to_be_bytes (n : nat) (z : Z) : list byte := rev (le_split n z).
Definition from_be_bytes (bs : list byte) : Z := le_combine (rev bs).

(** [message[a..b]] *)
Definition range (a b : nat) (message : list byte) : oft_result (list byte) :=
  if (b <=? length message)%nat then Ok (slice a b message) else Panic.

Module msg_codec.
Definition SEND_TO_OFFSET : nat := 0.
Definition SEND_AMOUNT_SD_OFFSET : nat := 32.
Definition COMPOSE_MSG_OFFSET : nat := 40.

Definition encode (send_to : list byte) (amount_sd : Z) (sender : Pubkey)
    (compose_msg : option (list byte)) : list byte :=
  match compose_msg with
  | Some msg => send_to ++ to_be_bytes 8 amount_sd ++ le_split 32 sender ++ msg
  | None => send_to ++ to_be_bytes 8 amount_sd
  end.
Definition send_to (message : list byte) : oft_result (list byte) :=
  range SEND_TO_OFFSET SEND_AMOUNT_SD_OFFSET message.
Definition amount_sd (message : list byte) : oft_result Z :=
  amount_sd_bytes ← range SEND_AMOUNT_SD_OFFSET COMPOSE_MSG_OFFSET message;
  Ok (from_be_bytes amount_sd_bytes).
Definition compose_msg (message : list byte) : option (list byte) :=
  if (COMPOSE_MSG_OFFSET <? length message)%nat then Some (drop COMPOSE_MSG_OFFSET message) else None.
End msg_codec.

Module compose_msg_codec.
Definition NONCE_OFFSET : nat := 0.
Definition SRC_EID_OFFSET : nat := 8.
Definition AMOUNT_LD_OFFSET : nat := 12.
Definition COMPOSE_FROM_OFFSET : nat := 20.
Definition COMPOSE_MSG_OFFSET : nat := 52.

(** [compose_msg] starts with the sender. *)
Definition encode (nonce src_eid amount_ld : Z) (compose_msg : list byte) : list byte :=
  to_be_bytes 8 nonce ++ to_be_bytes 4 src_eid ++ to_be_bytes 8 amount_ld ++ compose_msg.
Definition nonce (message : list byte) : oft_result Z :=
  nonce_bytes ← range NONCE_OFFSET SRC_EID_OFFSET message; Ok (from_be_bytes nonce_bytes).
Definition src_eid (message : list byte) : oft_result Z :=
  src_eid_bytes ← range SRC_EID_OFFSET AMOUNT_LD_OFFSET message; Ok (from_be_bytes src_eid_bytes).
Definition amount_ld (message : list byte) : oft_result Z :=
  amount_ld_bytes ← range AMOUNT_LD_OFFSET COMPOSE_FROM_OFFSET message;
  Ok (from_be_bytes amount_ld_bytes).
Definition compose_from (message : list byte) : oft_result (list byte) :=
  range COMPOSE_FROM_OFFSET COMPOSE_MSG_OFFSET message.
Definition compose_msg (message : list byte) : list byte :=
  if (COMPOSE_MSG_OFFSET <? length message)%nat then drop COMPOSE_MSG_OFFSET message else [].
End compose_msg_codec.

(** ** [state/oft.rs] *)
Inductive OFTType := Native | Adapter.

Record OFTStore := mkOFTStore {
  oft_type : OFTType;
  ld2sd_rate : Z;
  store_token_mint : Pubkey;
  store_token_escrow : Pubkey;
  endpoint_program : Pubkey;
  bump : Z;
  tvl_ld : Z;
  admin : Pubkey;
  default_fee_bps : Z;
  paused : bool;
  pauser : option Pubkey;
  unpauser : option Pubkey;
}.

Definition ld2sd (s : OFTStore) (amount_ld : Z) : oft_result Z := div_u64 amount_ld (ld2sd_rate s).
Definition sd2ld (s : OFTStore) (amount_sd : Z) : oft_result Z := mul_u64 amount_sd (ld2sd_rate s).
Definition remove_dust (s : OFTStore) (amount_ld : Z) : oft_result Z :=
  dust ← rem_u64 amount_ld (ld2sd_rate s); sub_u64 amount_ld dust.

(** ** [state/peer_config.rs] *)
Record RateLimiter := mkRateLimiter {
  capacity : Z;
  tokens : Z;
  refill_per_second : Z;
  last_refill_time : Z;
}.
Definition RateLimiter_default : RateLimiter := mkRateLimiter 0 0 0 0.

Section rate.
Context `{rt : Runtime}.

(** [Clock::get()?.unix_timestamp.try_into().unwrap()] *)
Definition current_time : oft_result Z :=
  clk ← called clock_get; or_panic (to_uint 64 (unix_timestamp clk)).

(** [RateLimiter::refill], at the time [now] *)
Definition refill_at (now extra_tokens : Z) (l : RateLimiter) : RateLimiter :=
  let new_tokens :=
    if last_refill_time l <? now then
      saturating_add 64 extra_tokens (saturating_mul (now - last_refill_time l) (refill_per_second l))
    else extra_tokens in
  mkRateLimiter (capacity l) (Z.min (capacity l) (saturating_add 64 (tokens l) new_tokens))
    (refill_per_second l) now.
Definition refill (extra_tokens : Z) (l : RateLimiter) : oft_result RateLimiter :=
  now ← current_time; Ok (refill_at now extra_tokens l).

(** [RateLimiter::set_rate] *)
Definition set_rate (rate : Z) (l : RateLimiter) : oft_result RateLimiter :=
  l ← refill 0 l;
  Ok (mkRateLimiter (capacity l) (tokens l) rate (last_refill_time l)).

(** [RateLimiter::set_capacity] *)
Definition set_capacity (c : Z) (l : RateLimiter) : oft_result RateLimiter :=
  now ← current_time; Ok (mkRateLimiter c c (refill_per_second l) now).

(** [RateLimiter::try_consume], at the time [now] *)
Definition try_consume_at (now amount : Z) (l : RateLimiter) : oft_result RateLimiter :=
  let l := refill_at now 0 l in
  match checked_sub 64 (tokens l) amount with
  | Some new_tokens =>
      Ok (mkRateLimiter (capacity l) new_tokens (refill_per_second l) (last_refill_time l))
  | None => Err (Oft RateLimitExceeded)
  end.
Definition try_consume (amount : Z) (l : RateLimiter) : oft_result RateLimiter :=
  now ← current_time; try_consume_at now amount l.
End rate.

Record EnforcedOptions := mkEnforcedOptions {
  opt_send : list byte;
  opt_send_and_call : list byte;
}.
Definition get_enforced_options (o : EnforcedOptions) (composed_msg : option (list byte)) :
    list byte :=
  match composed_msg with None => opt_send o | Some _ => opt_send_and_call o end.

Record PeerConfig := mkPeerConfig {
  peer_address : list byte;
  enforced_options : EnforcedOptions;
  outbound_rate_limiter : option RateLimiter;
  inbound_rate_limiter : option RateLimiter;
  peer_fee_bps : option Z;
  peer_bump : Z;
}.

(** ** Amounts: [instructions/quote_send.rs] *)
Module quote.
Definition MAX_FEE_BASIS_POINTS : Z := 10000.
Definition ONE_IN_BASIS_POINTS : Z := MAX_FEE_BASIS_POINTS.

(** [calculate_fee]; the product and the cast cannot overflow for a fee below 100% *)
Definition calculate_fee (pre_fee_amount default_fee_bps : Z) (fee_bps : option Z) :
    oft_result Z :=
  let final_fee_bps := default default_fee_bps fee_bps in
  if (final_fee_bps =? 0) || (pre_fee_amount =? 0) then Ok 0
  else
    fee ← or_panic (checked_mul 128 pre_fee_amount final_fee_bps);
    Ok (fee / ONE_IN_BASIS_POINTS mod 2 ^ 64).

(** The copy of the token program's functions *)
Definition ceil_div (numerator denominator : Z) : option Z :=
  a ← checked_add 128 numerator denominator;
  b ← checked_sub 128 a 1;
  checked_div 128 b denominator.
Definition calculate_pre_fee_amount (fee : TransferFee) (post_fee_amount : Z) : option Z :=
  let maximum_fee := tf_maximum_fee fee in
  let transfer_fee_basis_points := tf_transfer_fee_basis_points fee in
  if transfer_fee_basis_points =? 0 then Some post_fee_amount
  else if post_fee_amount =? 0 then Some 0
  else if transfer_fee_basis_points =? ONE_IN_BASIS_POINTS then
    checked_add 64 maximum_fee post_fee_amount
  else
    numerator ← checked_mul 128 post_fee_amount ONE_IN_BASIS_POINTS;
    denominator ← checked_sub 128 ONE_IN_BASIS_POINTS transfer_fee_basis_points;
    raw_pre_fee_amount ← ceil_div numerator denominator;
    raw_fee ← checked_sub 128 raw_pre_fee_amount post_fee_amount;
    if maximum_fee <=? raw_fee then checked_add 64 post_fee_amount maximum_fee
    else to_uint 64 raw_pre_fee_amount.

Section amounts.
Context `{rt : Runtime}.
Implicit Types (w : world) (token_mint : Pubkey).

(** [StateWithExtensions::<MintState>::unpack] and [get_extension::<TransferFeeConfig>] *)
Definition mint_transfer_fee w token_mint : oft_result (option TransferFeeConfig) :=
  token_mint_ext ← called (unpack_packed Mint (data (get_account w token_mint)));
  Ok (ok_opt (get_mint_ext TransferFeeConfig (packed_tlv token_mint_ext))).

(** [get_post_fee_amount_ld], [get_pre_fee_amount_ld] *)
Definition get_post_fee_amount_ld w token_mint (amount_ld : Z) : oft_result Z :=
  config ← mint_transfer_fee w token_mint;
  match config with
  | Some transfer_fee_config =>
      clk ← called clock_get;
      ok_or (calculate_post_fee_amount (get_epoch_fee transfer_fee_config (epoch clk)) amount_ld)
        (Called InvalidArgument)
  | None => Ok amount_ld
  end.
Definition get_pre_fee_amount_ld w token_mint (amount_ld : Z) : oft_result Z :=
  config ← mint_transfer_fee w token_mint;
  match config with
  | Some transfer_fee =>
      clk ← called clock_get;
      ok_or (calculate_pre_fee_amount (get_epoch_fee transfer_fee (epoch clk)) amount_ld)
        (Called InvalidArgument)
  | None => Ok amount_ld
  end.

(** [compute_fee_and_adjust_amount]: the amounts sent, received and kept as a fee *)
Definition compute_fee_and_adjust_amount (amount_ld : Z) (s : OFTStore) w token_mint
    (fee_bps : option Z) : oft_result (Z * Z * Z) :=
  match oft_type s with
  | Adapter =>
      post_fee_amount_ld ← get_post_fee_amount_ld w token_mint amount_ld;
      amount_received_ld ← remove_dust s post_fee_amount_ld;
      amount_sent_ld ← get_pre_fee_amount_ld w token_mint amount_received_ld;
      fee ← calculate_fee amount_received_ld (default_fee_bps s) fee_bps;
      oft_fee_ld ← remove_dust s fee;
      amount_received_ld ← sub_u64 amount_received_ld oft_fee_ld;
      Ok (amount_sent_ld, amount_received_ld, oft_fee_ld)
  | Native =>
      amount_sent_ld ← remove_dust s amount_ld;
      fee ← calculate_fee amount_sent_ld (default_fee_bps s) fee_bps;
      oft_fee_ld ← remove_dust s fee;
      amount_received_ld ← sub_u64 amount_sent_ld oft_fee_ld;
      Ok (amount_sent_ld, amount_received_ld, oft_fee_ld)
  end.
End amounts.
End quote.

(** ** Arithmetic that panics *)
Section arithmetic.
Implicit Types (a b c : Z).

Lemma or_panic_Ok {A} (o : option A) x : or_panic o = Ok x → o = Some x.
Proof. destruct o; [by intros [= ->]|done]. Qed.

Lemma add_u64_Ok a b c : add_u64 a b = Ok c → c = a + b ∧ in_uint 64 c.
Proof. intros H%or_panic_Ok%checked_add_Some. naive_solver. Qed.
Lemma sub_u64_Ok a b c : sub_u64 a b = Ok c → c = a - b ∧ in_uint 64 c.
Proof. intros H%or_panic_Ok%checked_sub_Some. naive_solver. Qed.

(** The dust is what the division by the rate leaves. *)
Lemma remove_dust_Ok s a b : remove_dust s a = Ok b → 0 < ld2sd_rate s → 0 ≤ a →
  in_uint 64 b ∧ (ld2sd_rate s | b) ∧ b ≤ a.
Proof.
  intros H Hr Ha. unfold remove_dust, rem_u64 in H. apply bind_Ok in H as (d & Hd & H).
  destruct (Z.eqb_spec (ld2sd_rate s) 0); [done|]. injection Hd as <-.
  apply sub_u64_Ok in H as [-> Hin]. split; [done|].
  pose proof (Z.mod_pos_bound a (ld2sd_rate s) Hr). split; [|lia].
  exists (a / ld2sd_rate s). pose proof (Z.div_mod a (ld2sd_rate s)). lia.
Qed.

(** Shared decimals lose nothing of an amount without dust. *)
Lemma ld2sd_sd2ld s a : 0 < ld2sd_rate s → in_uint 64 a → (ld2sd_rate s | a) →
  (sd ← ld2sd s a; sd2ld s sd) = Ok a.
Proof.
  intros Hr Ha [q ->]. unfold ld2sd, div_u64, checked_div, sd2ld, mul_u64, checked_mul.
  destruct (Z.eqb_spec (ld2sd_rate s) 0); [lia|].
  rewrite Z.div_mul by lia. unfold in_uint in *. rewrite to_uint_in by (unfold in_uint; nia).
  cbn [or_panic]. rewrite Ok_bind, to_uint_in by (unfold in_uint; lia). done.
Qed.
End arithmetic.

(** ** The codecs *)
Lemma length_to_be_bytes n z : length (to_be_bytes n z) = n.
Proof. unfold to_be_bytes. by rewrite length_rev, length_le_split. Qed.

Lemma from_to_be_bytes n z : in_uint (8 * Z.of_nat n) z → from_be_bytes (to_be_bytes n z) = z.
Proof.
  intros Hz. unfold from_be_bytes, to_be_bytes. rewrite rev_involutive. by apply le_combine_split_in.
Qed.

(** A range of consecutive fields. *)
Lemma range_app (a b : nat) (l k m : list byte) : a = length l → b = (length l + length k)%nat →
  range a b (l ++ k ++ m) = Ok k.
Proof.
  intros -> ->. unfold range. rewrite !length_app.
  destruct (Nat.leb_spec (length l + length k) (length l + (length k + length m))); [|lia].
  f_equal. unfold slice. rewrite drop_app_length.
  replace (length l + length k - length l)%nat with (length k) by lia. apply take_app_length.
Qed.

Lemma range_head (b : nat) (k m : list byte) : b = length k → range 0 b (k ++ m) = Ok k.
Proof. intros ->. by apply (range_app _ _ []). Qed.

(** A message carries the receiver, the amount, and the sender with the message for the
    receiver. *)
Lemma msg_codec_round_trip send_to amount_sd sender compose_msg :
  length send_to = 32%nat → in_uint 64 amount_sd →
  let message := msg_codec.encode send_to amount_sd sender compose_msg in
  msg_codec.send_to message = Ok send_to ∧ msg_codec.amount_sd message = Ok amount_sd ∧
  msg_codec.compose_msg message = (λ msg, le_split 32 sender ++ msg) <$> compose_msg.
Proof.
  intros Hl Ha message. pose proof (length_to_be_bytes 8 amount_sd) as Hb.
  assert (∃ rest, message = send_to ++ to_be_bytes 8 amount_sd ++ rest ∧
    rest = match compose_msg with Some msg => le_split 32 sender ++ msg | None => [] end)
    as (rest & -> & Hrest).
  { eexists. split; [|reflexivity]. subst message. unfold msg_codec.encode.
    destruct compose_msg; [done|]. by rewrite app_nil_r. }
  split; [|split].
  - by apply range_head.
  - unfold msg_codec.amount_sd. rewrite range_app by (rewrite ?Hl, ?Hb; done).
    rewrite Ok_bind. f_equal. by apply from_to_be_bytes.
  - unfold msg_codec.compose_msg, msg_codec.COMPOSE_MSG_OFFSET. rewrite !length_app, Hl, Hb, Hrest.
    destruct compose_msg as [msg|]; cbn [fmap option_fmap option_map length].
    + rewrite length_app, length_le_split. case_match eqn:E; [|apply Nat.ltb_ge in E; lia].
      f_equal. rewrite app_assoc, drop_app_length'; [done|]. by rewrite length_app, Hl, Hb.
    + done.
Qed.

(** So does the message for the composer. *)
Lemma compose_msg_codec_round_trip nonce src_eid amount_ld from msg :
  in_uint 64 nonce → in_uint 32 src_eid → in_uint 64 amount_ld → length from = 32%nat →
  let message := compose_msg_codec.encode nonce src_eid amount_ld (from ++ msg) in
  compose_msg_codec.nonce message = Ok nonce ∧ compose_msg_codec.src_eid message = Ok src_eid ∧
  compose_msg_codec.amount_ld message = Ok amount_ld ∧
  compose_msg_codec.compose_from message = Ok from ∧ compose_msg_codec.compose_msg message = msg.
Proof.
  intros Hn He Ha Hf message. subst message. unfold compose_msg_codec.encode.
  pose proof (length_to_be_bytes 8 nonce) as L1. pose proof (length_to_be_bytes 4 src_eid) as L2.
  pose proof (length_to_be_bytes 8 amount_ld) as L3.
  split; [|split; [|split; [|split]]].
  - unfold compose_msg_codec.nonce. rewrite range_head by done.
    rewrite Ok_bind. f_equal. by apply from_to_be_bytes.
  - unfold compose_msg_codec.src_eid. rewrite range_app by (rewrite ?L1, ?L2; done).
    rewrite Ok_bind. f_equal. by apply from_to_be_bytes.
  - unfold compose_msg_codec.amount_ld. rewrite (app_assoc (to_be_bytes 8 nonce)).
    rewrite range_app by (rewrite ?length_app, ?L1, ?L2, ?L3; done).
    rewrite Ok_bind. f_equal. by apply from_to_be_bytes.
  - unfold compose_msg_codec.compose_from.
    rewrite (app_assoc (to_be_bytes 8 nonce)), (app_assoc (_ ++ _) (to_be_bytes 8 amount_ld)).
    apply range_app; rewrite ?length_app, ?L1, ?L2, ?L3, ?Hf; done.
  - unfold compose_msg_codec.compose_msg, compose_msg_codec.COMPOSE_MSG_OFFSET.
    rewrite !(app_assoc), drop_app_length' by (rewrite !length_app, L1, L2, L3, Hf; done).
    rewrite !length_app, L1, L2, L3, Hf. case_match eqn:E; [done|].
    apply Nat.ltb_ge in E. destruct msg; [done|cbn [length] in E; lia].
Qed.

(** ** Amounts *)
(** The copy of the token program's function is the function. *)
Lemma quote_pre_fee_amount f p :
  quote.calculate_pre_fee_amount f p = calculate_pre_fee_amount f p.
Proof. reflexivity. Qed.

(** Only a fee of at most 100% has an inverse, except at 0. *)
Lemma pre_fee_amount_bounded f p x : p ≠ 0 → calculate_pre_fee_amount f p = Some x →
  tf_transfer_fee_basis_points f ≤ MAX_FEE_BASIS_POINTS.
Proof.
  intros Hp. unfold calculate_pre_fee_amount, ONE_IN_BASIS_POINTS, MAX_FEE_BASIS_POINTS.
  destruct (Z.eqb_spec (tf_transfer_fee_basis_points f) 0) as [->|]; [done|].
  destruct (Z.eqb_spec p 0); [done|].
  destruct (Z.eqb_spec (tf_transfer_fee_basis_points f) 10000) as [->|]; [done|].
  destruct (checked_mul _ _ _); [|done]. cbn [mbind option_bind].
  destruct (checked_sub 128 10000 _) eqn:E; [|done]. intros _.
  apply checked_sub_Some in E as [_ E]. unfold in_uint in E. lia.
Qed.

Lemma fee_of_zero f : calculate_fee f 0 = Some 0.
Proof. unfold calculate_fee. by rewrite orb_true_r. Qed.

(** What is sent for [p] nets [p]. *)
Lemma pre_fee_amount_spec f p x y : c_ok TransferFee_codec f → in_uint 64 p → in_uint 64 y →
  (∃ n, calculate_post_fee_amount f y = Some n ∧ p ≤ n) → calculate_pre_fee_amount f p = Some x →
  in_uint 64 x ∧ x ≤ y ∧ ∃ fee, calculate_fee f x = Some fee ∧ p = x - fee.
Proof.
  intros Hf Hp Hy (n & Hn & Hle) Hx.
  destruct (decide (p = 0)) as [->|Hp0].
  { assert (x = 0) as ->.
    { revert Hx. unfold calculate_pre_fee_amount. rewrite Z.eqb_refl.
      case_match; by intros [= <-]. }
    destruct Hy. split; [done|]. split; [done|]. exists 0. by rewrite fee_of_zero. }
  assert (fee_ok f) as Hok.
  { destruct Hf as (He & Hm & Hb). split; [done|]. split; [done|].
    split; [apply Hb|by eapply pre_fee_amount_bounded]. }
  rewrite calculate_post_fee_amount_eq in Hn by done. injection Hn as <-.
  destruct (calculate_pre_fee_amount_net f Hok p x Hp Hx) as (Hin & Heq & Hmin).
  destruct Hy as [Hy _]. split; [done|]. split; [by apply Hmin|].
  exists (fee_of f x). split; [by apply calculate_fee_eq|done].
Qed.

Section amounts.
Context `{rt : Runtime}.
Implicit Types (w : world) (s : OFTStore).

(** The fee of the OFT is part of the amount. *)
Lemma quote_calculate_fee_Ok a bps bps' fee : in_uint 64 a → 0 ≤ default bps bps' →
  quote.calculate_fee a bps bps' = Ok fee → 0 ≤ fee.
Proof.
  intros [Ha _] Hb. unfold quote.calculate_fee. case_match; [by intros [= <-]|].
  intros (f & Hf & [= <-])%bind_Ok. by apply Z.mod_pos_bound.
Qed.

(** The amounts of a transfer: what is received and the fee are whole shared units,
    and together they are what the source is debited, less the fee that the mint takes. *)
Definition sums_up s w token_mint (sent received fee : Z) : Prop :=
  match oft_type s with
  | Native => sent = received + fee
  | Adapter => ∃ config, quote.mint_transfer_fee w token_mint = Ok config ∧
      match config with
      | Some c => ∃ clk taken, clock_get = Ok clk ∧
          Fee.calculate_epoch_fee c (epoch clk) sent = Some taken ∧ sent - taken = received + fee
      | None => sent = received + fee
      end
  end.

Lemma mint_transfer_fee_ok w mk c : quote.mint_transfer_fee w mk = Ok (Some c) →
  c_ok TransferFeeConfig_codec c.
Proof.
  intros (m & _ & H)%bind_Ok. destruct (get_mint_ext _ _) as [c'| |] eqn:E; [|discriminate..].
  injection H as <-. by apply get_extension_ok in E.
Qed.

Lemma oft_epoch_fee_ok c e : c_ok TransferFeeConfig_codec c → c_ok TransferFee_codec (get_epoch_fee c e).
Proof. intros (_ & _ & _ & H1 & H2). unfold get_epoch_fee. by case_match. Qed.

Lemma called_Ok {A} (r : res A) x : called r = Ok x → r = Ok x.
Proof. by destruct r; [intros [= ->]|..]. Qed.

(** The end of [compute_fee_and_adjust_amount] on both branches *)
Lemma oft_fee_Ok s p bps fee1 fee : 0 < ld2sd_rate s → in_uint 64 p → (ld2sd_rate s | p) →
  0 ≤ default (default_fee_bps s) bps →
  quote.calculate_fee p (default_fee_bps s) bps = Ok fee1 → remove_dust s fee1 = Ok fee →
  ∀ received, sub_u64 p fee = Ok received →
  received + fee = p ∧ in_uint 64 received ∧ in_uint 64 fee ∧
  (ld2sd_rate s | received) ∧ (ld2sd_rate s | fee).
Proof.
  intros Hr Hp Hd Hb Hf1 Hf received H.
  apply quote_calculate_fee_Ok in Hf1; [|done..].
  apply remove_dust_Ok in Hf as (Hf & Hdf & _); [|done..].
  apply sub_u64_Ok in H as [-> H]. split; [lia|]. split; [done|]. split; [done|].
  split; [by apply Z.divide_sub_r|done].
Qed.

Lemma post_fee_amount_Ok w mk a p : in_uint 64 a → quote.get_post_fee_amount_ld w mk a = Ok p →
  ∃ config, quote.mint_transfer_fee w mk = Ok config ∧ in_uint 64 p ∧
    match config with
    | Some c => ∃ clk, clock_get = Ok clk ∧
        calculate_post_fee_amount (get_epoch_fee c (epoch clk)) a = Some p
    | None => p = a
    end.
Proof.
  intros Ha (config & Hc & H)%bind_Ok. exists config. split; [done|].
  destruct config as [c|]; [|by injection H as <-].
  apply bind_Ok in H as (clk & Hclk%called_Ok & H%ok_or_Ok). split; [|by exists clk].
  apply bind_Some in H as (fee & _ & [-> H]%checked_sub_Some). done.
Qed.

Lemma pre_fee_amount_Ok w mk p x : quote.get_pre_fee_amount_ld w mk p = Ok x →
  ∃ config, quote.mint_transfer_fee w mk = Ok config ∧
    match config with
    | Some c => ∃ clk, clock_get = Ok clk ∧
        calculate_pre_fee_amount (get_epoch_fee c (epoch clk)) p = Some x
    | None => x = p
    end.
Proof.
  intros (config & Hc & H)%bind_Ok. exists config. split; [done|].
  destruct config as [c|]; [|by injection H as <-].
  apply bind_Ok in H as (clk & Hclk%called_Ok & H%ok_or_Ok). by exists clk.
Qed.

Lemma compute_amounts_Ok a s w mk bps sent received fee : 0 < ld2sd_rate s → in_uint 64 a →
  0 ≤ default (default_fee_bps s) bps →
  quote.compute_fee_and_adjust_amount a s w mk bps = Ok (sent, received, fee) →
  in_uint 64 sent ∧ in_uint 64 received ∧ in_uint 64 fee ∧ sent ≤ a ∧
  (ld2sd_rate s | received) ∧ (ld2sd_rate s | fee) ∧ sums_up s w mk sent received fee.
Proof.
  intros Hr Ha Hb H. unfold quote.compute_fee_and_adjust_amount in H. unfold sums_up.
  destruct (oft_type s).
  - apply bind_Ok in H as (p & Hp & (f1 & Hf1 & (f & Hf & (r & Hrc & [= <- <- <-])
      %bind_Ok)%bind_Ok)%bind_Ok).
    apply remove_dust_Ok in Hp as (Hp & Hd & Hle); [|done|by destruct Ha].
    destruct (oft_fee_Ok s p bps f1 f Hr Hp Hd Hb Hf1 Hf r Hrc) as (? & ? & ? & ? & ?).
    by split_and!.
  - apply bind_Ok in H as (n & Hn & (p & Hp & (x & Hx & (f1 & Hf1 & (f & Hf & (r & Hrc &
      [= <- <- <-])%bind_Ok)%bind_Ok)%bind_Ok)%bind_Ok)%bind_Ok).
    apply post_fee_amount_Ok in Hn as (config & Hc & Hn & Hpost); [|done].
    apply remove_dust_Ok in Hp as (Hp & Hd & Hle); [|done|by destruct Hn].
    apply pre_fee_amount_Ok in Hx as (config' & Hc' & Hpre).
    rewrite Hc in Hc'. injection Hc' as <-.
    destruct (oft_fee_Ok s p bps f1 f Hr Hp Hd Hb Hf1 Hf r Hrc) as (Hs & ? & ? & ? & ?).
    destruct config as [c|].
    + destruct Hpost as (clk & Hclk & Hpost), Hpre as (clk' & Hclk' & Hpre).
      rewrite Hclk in Hclk'. injection Hclk' as <-.
      destruct (pre_fee_amount_spec _ p x a (oft_epoch_fee_ok c (epoch clk) (mint_transfer_fee_ok _ _ _ Hc))
        Hp Ha ltac:(by exists n) Hpre) as (Hx & Hxa & taken & Ht & Heq).
      split_and!; try done. exists (Some c). split; [done|]. exists clk, taken. split_and!; [done..|lia].
    + subst. split_and!; try done. by exists None.
Qed.
End amounts.

(** ** The token bucket *)

(** Calls of [try_consume] and [refill] on a limiter, with the time of each. *)
Inductive limiter_call := TryConsume (amount : Z) | Refill (extra_tokens : Z).
Definition limiter_step (now : Z) (c : limiter_call) (l : RateLimiter) : oft_result RateLimiter :=
  match c with
  | TryConsume amount => try_consume_at now amount l
  | Refill extra_tokens => Ok (refill_at now extra_tokens l)
  end.
Fixpoint limiter_run (calls : list (Z * limiter_call)) (l : RateLimiter) : oft_result RateLimiter :=
  match calls with
  | [] => Ok l
  | (now, c) :: calls => l ← limiter_step now c l; limiter_run calls l
  end.

Definition consumed (calls : list (Z * limiter_call)) : Z :=
  foldr (λ c n, match c.2 with TryConsume a => a | Refill _ => 0 end + n) 0 calls.
Definition refilled (calls : list (Z * limiter_call)) : Z :=
  foldr (λ c n, match c.2 with TryConsume _ => 0 | Refill x => x end + n) 0 calls.

(** Times do not go back, and amounts are [u64]. *)
Fixpoint in_order (t : Z) (calls : list (Z * limiter_call)) : Prop :=
  match calls with
  | [] => True
  | (now, c) :: calls => t ≤ now ∧
      match c with TryConsume a => 0 ≤ a | Refill x => 0 ≤ x end ∧ in_order now calls
  end.

Record limiter_ok (l : RateLimiter) : Prop := {
  limiter_tokens : 0 ≤ tokens l ≤ capacity l;
  limiter_rate : 0 ≤ refill_per_second l;
}.

Lemma refill_at_spec now x l : limiter_ok l → last_refill_time l ≤ now → 0 ≤ x →
  let l' := refill_at now x l in
  limiter_ok l' ∧ capacity l' = capacity l ∧ refill_per_second l' = refill_per_second l ∧
  last_refill_time l' = now ∧
  tokens l' ≤ tokens l + x + refill_per_second l * (now - last_refill_time l).
Proof.
  intros [Ht Hr] Hn Hx l'. subst l'. unfold refill_at. cbn [tokens capacity refill_per_second
    last_refill_time].
  set (new := if last_refill_time l <? now then _ else _).
  assert (0 ≤ new ≤ x + refill_per_second l * (now - last_refill_time l)) as Hnew.
  { subst new. unfold saturating_add, saturating_mul. case_match eqn:E; [apply Z.ltb_lt in E|]; nia. }
  clearbody new. unfold saturating_add. split; [constructor; cbn [tokens capacity refill_per_second]; lia|].
  split_and!; lia.
Qed.

Lemma try_consume_at_spec now a l l' : limiter_ok l → last_refill_time l ≤ now → 0 ≤ a →
  try_consume_at now a l = Ok l' →
  limiter_ok l' ∧ capacity l' = capacity l ∧ refill_per_second l' = refill_per_second l ∧
  last_refill_time l' = now ∧
  tokens l' + a ≤ tokens l + refill_per_second l * (now - last_refill_time l).
Proof.
  intros Hl Hn Ha H. unfold try_consume_at in H.
  destruct (refill_at_spec now 0 l Hl Hn ltac:(lia)) as ([Ht Hr] & Hc & Hp & Hlast & Hle).
  destruct (checked_sub 64 _ a) as [n|] eqn:E; [|done]. injection H as <-.
  apply checked_sub_Some in E as [-> [E _]]. cbn [tokens capacity refill_per_second last_refill_time].
  split; [constructor; cbn [tokens capacity refill_per_second]; lia|]. split_and!; lia.
Qed.

Lemma limiter_step_spec now c l l' : limiter_ok l → last_refill_time l ≤ now →
  match c with TryConsume a => 0 ≤ a | Refill x => 0 ≤ x end → limiter_step now c l = Ok l' →
  limiter_ok l' ∧ capacity l' = capacity l ∧ refill_per_second l' = refill_per_second l ∧
  last_refill_time l' = now ∧
  tokens l' + consumed [(now, c)] ≤
    tokens l + refilled [(now, c)] + refill_per_second l * (now - last_refill_time l).
Proof.
  intros Hl Hn Hc H. unfold consumed, refilled. cbn [foldr snd]. destruct c as [a|x]; cbn [limiter_step] in H.
  - destruct (try_consume_at_spec now a l l' Hl Hn Hc H) as (? & ? & ? & ? & ?). by split_and!; [..|lia].
  - injection H as <-. destruct (refill_at_spec now x l Hl Hn Hc) as (? & ? & ? & ? & ?).
    by split_and!; [..|lia].
Qed.

Lemma limiter_run_spec calls l l' : limiter_ok l → in_order (last_refill_time l) calls →
  limiter_run calls l = Ok l' →
  limiter_ok l' ∧ capacity l' = capacity l ∧ refill_per_second l' = refill_per_second l ∧
  last_refill_time l ≤ last_refill_time l' ∧
  tokens l' + consumed calls ≤
    tokens l + refilled calls + refill_per_second l * (last_refill_time l' - last_refill_time l).
Proof.
  revert l. induction calls as [|[now c] calls IH]; intros l Hl Ho H.
  - injection H as <-. unfold consumed, refilled. cbn [foldr]. by split_and!; [..|lia].
  - destruct Ho as (Hn & Hc & Ho). apply bind_Ok in H as (l1 & H1 & H).
    destruct (limiter_step_spec now c l l1 Hl Hn Hc H1) as (Hl1 & Hcap & Hrate & Hlast & Hle).
    rewrite <-Hlast in Ho. destruct (IH l1 Hl1 Ho H) as (Hl' & Hcap' & Hrate' & Hlast' & Hle').
    unfold consumed, refilled in *. cbn [foldr snd] in *.
    split_and!; [done|congruence..|lia|]. rewrite Hrate in Hle'. lia.
Qed.

(** C15: the limiter is a token bucket.  However the calls are interleaved, as long as time
    does not go back, what [try_consume] granted since the limiter was seen is at most
    the tokens it had (never more than its capacity), what was refilled explicitly, and
    the rate times the seconds that passed. *)
Theorem rate_limiter_bounds calls l l' : limiter_ok l → in_order (last_refill_time l) calls →
  limiter_run calls l = Ok l' →
  consumed calls ≤ tokens l + refilled calls +
    refill_per_second l * (last_refill_time l' - last_refill_time l) ∧
  consumed calls ≤ capacity l + refilled calls +
    refill_per_second l * (last_refill_time l' - last_refill_time l) ∧
  0 ≤ tokens l' ≤ capacity l.
Proof.
  intros Hl Ho H. destruct (limiter_run_spec calls l l' Hl Ho H) as ([Ht' _] & Hc & _ & _ & Hle).
  destruct Hl as [Ht _]. lia.
Qed.
