(* ===== verification/OftOps.v ===== *)
(** * The instructions of the OFT program

    [layerzero/programs/oft/src/lib.rs] and [instructions/]: a token that moves between
    chains.  The accounts of the program are kept decoded, as Anchor hands them to the
    handlers; token accounts, mints and everything else are bytes in a [world].  What
    Anchor, the endpoint of LayerZero and the token programs do are fields of classes. *)
From S2P Require Import Prelude Codec Errors Runtime Pod State ExtensionType ExtensionData Tlv.
From S2P Require Import TlvAlloc StateExt Authority PackedExt Instruction Registry OftState.

(** [state/oft.rs] *)
Record LzReceiveTypesAccounts := mkLzReceiveTypesAccounts {
  lt_oft_store : Pubkey;
  lt_token_mint : Pubkey;
}.
Inductive OftAccount :=
| AStore (s : OFTStore)
| APeer (p : PeerConfig)
| ATypes (t : LzReceiveTypesAccounts).

(** [events.rs] *)
Inductive OftEvent :=
| OFTSent (guid : list byte) (dst_eid : Z) (from : Pubkey) (amount_sent_ld amount_received_ld : Z)
| OFTReceived (guid : list byte) (src_eid : Z) (to : Pubkey) (amount_received_ld : Z).

Record oft_state := mkOft {
  oft_accts : gmap Pubkey OftAccount;
  chain : world;
  events : list OftEvent;
}.
Definition set_chain (w : world) (st : oft_state) : oft_state := mkOft (oft_accts st) w (events st).
Definition set_oft_account (k : Pubkey) (a : OftAccount) (st : oft_state) : oft_state :=
  mkOft (<[k := a]> (oft_accts st)) (chain st) (events st).
Definition emit (e : OftEvent) (st : oft_state) : oft_state :=
  mkOft (oft_accts st) (chain st) (events st ++ [e]).

(** ** What the instructions call *)

(** A token program, called with accounts and instruction data. *)
Class TokenInterface := {
  token_process : Pubkey → list AccountInfo → list byte → world → res world;
}.

(** Addresses, and the accounts that Anchor creates before a handler runs. *)
Class Anchor := {
  oft_id : Pubkey;
  create_program_address : list (list byte) → Pubkey → option Pubkey;
  get_associated_token_address : Pubkey → Pubkey → Pubkey → Pubkey;
  associated_token_id : Pubkey;
  (** payer, account and its space *)
  init_account : AccountInfo → AccountInfo → nat → world → oft_result world;
  (** payer, account, mint, authority and token program *)
  init_token_account : AccountInfo → AccountInfo → Pubkey → Pubkey → Pubkey → world →
    oft_result world;
  init_associated_token_account : AccountInfo → AccountInfo → Pubkey → Pubkey → Pubkey → world →
    oft_result world;
}.

(** Parameters of the calls to the endpoint: [oapp::endpoint] *)
Record QuoteParams := mkQuoteParams {
  q_sender : Pubkey; q_dst_eid : Z; q_receiver : list byte; q_message : list byte;
  q_pay_in_lz_token : bool; q_options : list byte;
}.
Record EndpointSendParams := mkEndpointSendParams {
  e_dst_eid : Z; e_receiver : list byte; e_message : list byte; e_options : list byte;
  e_native_fee : Z; e_lz_token_fee : Z;
}.
Record ClearParams := mkClearParams {
  c_receiver : Pubkey; c_src_eid : Z; c_sender : list byte; c_nonce : Z; c_guid : list byte;
  c_message : list byte;
}.
Record SendComposeParams := mkSendComposeParams {
  s_to : Pubkey; s_guid : list byte; s_index : Z; s_message : list byte;
}.
Record LzAccount := mkLzAccount { lz_pubkey : Pubkey; lz_is_signer : bool; lz_is_writable : bool }.

(** [oapp::endpoint_cpi] and [oapp::options]: the endpoint program, the sender, further
    accounts and the seeds the call is signed with. *)
Class Endpoint := {
  ENDPOINT_ID : Pubkey;
  LZ_RECEIVE_TYPES_SEED : list byte;
  EVENT_SEED : list byte;
  Clear_MIN_ACCOUNTS_LEN : nat;
  MessagingFee : Type;
  MessagingReceipt : Type;
  guid : MessagingReceipt → list byte;
  endpoint_quote : Pubkey → list AccountInfo → QuoteParams → world → oft_result MessagingFee;
  endpoint_send : Pubkey → Pubkey → list AccountInfo → list (list byte) → EndpointSendParams →
    world → oft_result (MessagingReceipt * world);
  endpoint_clear : Pubkey → Pubkey → list AccountInfo → list (list byte) → ClearParams → world →
    oft_result world;
  endpoint_send_compose : Pubkey → Pubkey → list AccountInfo → list (list byte) →
    SendComposeParams → world → oft_result world;
  endpoint_register_oapp : Pubkey → Pubkey → list AccountInfo → list (list byte) → Pubkey →
    world → oft_result world;
  endpoint_set_delegate : Pubkey → Pubkey → list AccountInfo → list (list byte) → Pubkey →
    world → oft_result world;
  options_combine : list byte → list byte → oft_result (list byte);
  assert_type_3 : list byte → oft_result unit;
  get_accounts_for_clear : Pubkey → Pubkey → Z → list byte → Z → list LzAccount;
  get_accounts_for_send_compose : Pubkey → Pubkey → Pubkey → list byte → Z → list byte →
    list LzAccount;
}.

Definition OFT_SEED : list byte := String.list_byte_of_string "OFT".
Definition PEER_SEED : list byte := String.list_byte_of_string "Peer".

(** ** Parameters and results *)
Record InitOFTParams := mkInitOFTParams {
  p_oft_type : OFTType; p_admin : Pubkey; p_shared_decimals : Z;
  p_endpoint_program : option Pubkey;
}.
Inductive SetOFTConfigParams :=
| Admin (admin : Pubkey)
| Delegate (delegate : Pubkey)
| DefaultFee (fee_bps : Z)
| SetPaused (paused : bool)
| Pauser (pauser : option Pubkey)
| Unpauser (unpauser : option Pubkey).
Record RateLimitParams := mkRateLimitParams { r_refill_per_second : option Z; r_capacity : option Z }.
Inductive PeerConfigParam :=
| PeerAddress (peer_address : list byte)
| FeeBps (fee_bps : option Z)
| SetEnforcedOptions (send send_and_call : list byte)
| OutboundRateLimit (p : option RateLimitParams)
| InboundRateLimit (p : option RateLimitParams).
(** [QuoteOFTParams], [QuoteSendParams] *)
Record QuoteSendParams := mkQuoteSendParams {
  qs_dst_eid : Z; qs_to : list byte; qs_amount_ld : Z; qs_min_amount_ld : Z;
  qs_options : list byte; qs_compose_msg : option (list byte); qs_pay_in_lz_token : bool;
}.
Record SendParams := mkSendParams {
  sp_dst_eid : Z; sp_to : list byte; sp_amount_ld : Z; sp_min_amount_ld : Z;
  sp_options : list byte; sp_compose_msg : option (list byte); sp_native_fee : Z;
  sp_lz_token_fee : Z;
}.
Record LzReceiveParams := mkLzReceiveParams {
  lp_src_eid : Z; lp_sender : list byte; lp_nonce : Z; lp_guid : list byte; lp_message : list byte;
}.
Record OFTReceipt := mkOFTReceipt { or_amount_sent_ld : Z; or_amount_received_ld : Z }.
Inductive OFTFeeDetail := Token2022_Transfer_Fee (fee_amount_ld : Z) | Cross_Chain_Fee (fee_amount_ld : Z).
Record QuoteOFTResult := mkQuoteOFTResult {
  min_amount_ld : Z; max_amount_ld : Z; oft_fee_details : list OFTFeeDetail;
  oft_receipt : OFTReceipt;
}.

Section oft.
Context `{rt : Runtime} `{pda : ProgramAddresses} `{token : TokenInterface}.
Context `{anchor : Anchor} `{endpoint : Endpoint}.
Implicit Types (w : world) (st : oft_state) (i : AccountInfo).

(** ** Accounts and their constraints *)
Definition constraint (b : bool) : oft_result unit := throw_if (negb b) Constraint.
Definition require (b : bool) (e : OFTError) : oft_result unit := throw_if (negb b) (Oft e).

(** [spl_token::ID], and the programs of [Interface<TokenInterface>] *)
Definition spl_token_id : Pubkey := declare_id "TokenkegQfeZyiNwAJbNbGKPFXCWuBvf9Ss623VQ5DA".
Definition is_token_program (k : Pubkey) : bool := (k =? spl_token_id) || (k =? id).

Definition load_store st i : oft_result OFTStore :=
  match oft_accts st !! key i with Some (AStore s) => Ok s | _ => Err Constraint end.
Definition load_peer st i : oft_result PeerConfig :=
  match oft_accts st !! key i with Some (APeer p) => Ok p | _ => Err Constraint end.
Definition load_token_account w i : oft_result Account :=
  constraint (is_token_program (info_owner w i));;
  account ← called (unpack_packed Account (info_data w i)); Ok (packed_base account).
Definition load_mint w i : oft_result Mint :=
  constraint (is_token_program (info_owner w i));;
  mint ← called (unpack_packed Mint (info_data w i)); Ok (packed_base mint).

(** [seeds = …, bump = …] *)
Definition check_seeds (seeds : list (list byte)) (bump : Z) i : oft_result unit :=
  constraint (bool_decide (create_program_address (seeds ++ [le_split 1 bump]) oft_id = Some (key i))).
Definition store_seeds (s : OFTStore) : list (list byte) :=
  [OFT_SEED; le_split 32 (store_token_escrow s)].
Definition peer_seeds (store : AccountInfo) (eid : Z) : list (list byte) :=
  [PEER_SEED; le_split 32 (key store); to_be_bytes 4 eid].

(** [token::mint], [token::authority], [token::token_program] *)
Definition token_constraints w (token_mint : AccountInfo) (authority : option Pubkey)
    (token_program : AccountInfo) i (account : Account) : oft_result unit :=
  constraint (a_mint account =? key token_mint);;
  (match authority with
   | Some authority => constraint (a_owner account =? authority)
   | None => Ok tt
   end);;
  constraint (info_owner w i =? key token_program).

(** The account of a new program address: its owner is no longer the system program. *)
Definition init_program_account (payer i : AccountInfo) (seeds : list (list byte)) (space : nat)
    (a : OftAccount) st : oft_result (oft_state * Z) :=
  let '(address, bump) := find_program_address seeds oft_id in
  constraint (address =? key i);;
  constraint (is_writable i);;
  constraint (bool_decide (oft_accts st !! key i = None));;
  w ← init_account payer i space (chain st);
  Ok (set_oft_account (key i) a (set_chain w st), bump).

(** ** Calls to token programs *)

(** [invoke_signed]: every signer of the call signed the transaction, or is the address
    of the seeds. *)
Definition invoke_signed (program : AccountInfo) (signers : list Pubkey) (metas : list AccountInfo)
    (data : TokenInstruction) w : oft_result world :=
  constraint (forallb (λ i, negb (is_signer i) || bool_decide (key i ∈ signers)) metas);;
  called (token_process (key program) metas (pack_instruction data) w).
Definition seeds_signer (seeds : list (list byte)) : list Pubkey :=
  option_list (create_program_address seeds oft_id).

(** [token_interface::transfer_checked], [token_interface::burn] and
    [spl_token_2022::instruction::mint_to] *)
Definition transfer_checked (program : AccountInfo) (signers : list Pubkey)
    (from mint to authority : AccountInfo) (amount decimals : Z) w : oft_result world :=
  invoke_signed program signers
    [mkInfo (key from) false true; mkInfo (key mint) false false; mkInfo (key to) false true;
     mkInfo (key authority) true false]
    (TokenInstruction.TransferChecked amount decimals) w.
Definition burn (program : AccountInfo) (signers : list Pubkey) (mint from authority : AccountInfo)
    (amount : Z) w : oft_result world :=
  invoke_signed program signers
    [mkInfo (key from) false true; mkInfo (key mint) false true; mkInfo (key authority) true false]
    (TokenInstruction.Burn amount) w.
Definition mint_to (program : AccountInfo) (signers : list Pubkey)
    (mint to mint_authority signer : AccountInfo) (amount : Z) w : oft_result world :=
  invoke_signed program signers
    [mkInfo (key mint) false true; mkInfo (key to) false true;
     mkInfo (key mint_authority) false false; mkInfo (key signer) true false]
    (TokenInstruction.MintTo amount) w.

(** ** [init_oft] *)
Record InitOFT := mkInitOFT {
  io_payer : AccountInfo; io_oft_store : AccountInfo; io_lz_receive_types_accounts : AccountInfo;
  io_token_mint : AccountInfo; io_token_escrow : AccountInfo; io_token_program : AccountInfo;
  io_remaining : list AccountInfo;
}.

(** The size of the account's data, [8 + INIT_SPACE], and what zeroes decode to *)
Definition OFTStore_SPACE : nat := 8 + 215.
Definition LzReceiveTypesAccounts_SPACE : nat := 8 + 64.
Definition zero_store : OFTStore := mkOFTStore Native 0 0 0 0 0 0 0 0 false None None.

Definition init_oft (c : InitOFT) (params : InitOFTParams) st : oft_result oft_state :=
  constraint (is_signer (io_payer c));;
  constraint (is_writable (io_payer c));;
  constraint (is_token_program (key (io_token_program c)));;
  token_mint ← load_mint (chain st) (io_token_mint c);
  '(st, bump) ← init_program_account (io_payer c) (io_oft_store c)
    [OFT_SEED; le_split 32 (key (io_token_escrow c))] OFTStore_SPACE (AStore zero_store) st;
  '(st, _) ← init_program_account (io_payer c) (io_lz_receive_types_accounts c)
    [LZ_RECEIVE_TYPES_SEED; le_split 32 (key (io_oft_store c))] LzReceiveTypesAccounts_SPACE
    (ATypes (mkLzReceiveTypesAccounts 0 0)) st;
  constraint (info_owner (chain st) (io_token_mint c) =? key (io_token_program c));;
  w ← init_token_account (io_payer c) (io_token_escrow c) (key (io_token_mint c))
    (key (io_oft_store c)) (key (io_token_program c)) (chain st);
  require (p_shared_decimals params <=? m_decimals token_mint) InvalidDecimals;;
  rate ← or_panic (to_uint 64 (10 ^ (m_decimals token_mint - p_shared_decimals params)));
  let endpoint_program := default ENDPOINT_ID (p_endpoint_program params) in
  let store := mkOFTStore (p_oft_type params) rate (key (io_token_mint c)) (key (io_token_escrow c))
    endpoint_program bump 0 (p_admin params) 0 false None None in
  w ← endpoint_register_oapp endpoint_program (key (io_oft_store c)) (io_remaining c)
    (store_seeds store ++ [le_split 1 bump]) (p_admin params) w;
  Ok (set_oft_account (key (io_oft_store c)) (AStore store)
        (set_oft_account (key (io_lz_receive_types_accounts c))
          (ATypes (mkLzReceiveTypesAccounts (key (io_oft_store c)) (key (io_token_mint c))))
          (set_chain w st))).

(** ** [set_oft_config] *)
Record SetOFTConfig := mkSetOFTConfig {
  sc_admin : AccountInfo; sc_oft_store : AccountInfo; sc_remaining : list AccountInfo;
}.
Definition set_admin (k : Pubkey) (s : OFTStore) : OFTStore :=
  mkOFTStore (oft_type s) (ld2sd_rate s) (store_token_mint s) (store_token_escrow s)
    (endpoint_program s) (bump s) (tvl_ld s) k (default_fee_bps s) (paused s) (pauser s) (unpauser s).
Definition set_default_fee_bps (n : Z) (s : OFTStore) : OFTStore :=
  mkOFTStore (oft_type s) (ld2sd_rate s) (store_token_mint s) (store_token_escrow s)
    (endpoint_program s) (bump s) (tvl_ld s) (admin s) n (paused s) (pauser s) (unpauser s).
Definition set_paused (b : bool) (s : OFTStore) : OFTStore :=
  mkOFTStore (oft_type s) (ld2sd_rate s) (store_token_mint s) (store_token_escrow s)
    (endpoint_program s) (bump s) (tvl_ld s) (admin s) (default_fee_bps s) b (pauser s) (unpauser s).
Definition set_pauser (o : option Pubkey) (s : OFTStore) : OFTStore :=
  mkOFTStore (oft_type s) (ld2sd_rate s) (store_token_mint s) (store_token_escrow s)
    (endpoint_program s) (bump s) (tvl_ld s) (admin s) (default_fee_bps s) (paused s) o (unpauser s).
Definition set_unpauser (o : option Pubkey) (s : OFTStore) : OFTStore :=
  mkOFTStore (oft_type s) (ld2sd_rate s) (store_token_mint s) (store_token_escrow s)
    (endpoint_program s) (bump s) (tvl_ld s) (admin s) (default_fee_bps s) (paused s) (pauser s) o.
Definition set_tvl_ld (n : Z) (s : OFTStore) : OFTStore :=
  mkOFTStore (oft_type s) (ld2sd_rate s) (store_token_mint s) (store_token_escrow s)
    (endpoint_program s) (bump s) n (admin s) (default_fee_bps s) (paused s) (pauser s) (unpauser s).

Definition set_oft_config (c : SetOFTConfig) (params : SetOFTConfigParams) st :
    oft_result oft_state :=
  constraint (is_signer (sc_admin c));;
  oft_store ← load_store st (sc_oft_store c);
  check_seeds (store_seeds oft_store) (bump oft_store) (sc_oft_store c);;
  constraint (is_writable (sc_oft_store c));;
  require (admin oft_store =? key (sc_admin c)) Unauthorized;;
  let write s := Ok (set_oft_account (key (sc_oft_store c)) (AStore s) st) in
  match params with
  | Admin admin => write (set_admin admin oft_store)
  | Delegate delegate =>
      w ← endpoint_set_delegate (endpoint_program oft_store) (key (sc_oft_store c))
        (sc_remaining c) (store_seeds oft_store ++ [le_split 1 (bump oft_store)]) delegate (chain st);
      Ok (set_chain w st)
  | DefaultFee fee_bps =>
      require (fee_bps <? quote.MAX_FEE_BASIS_POINTS) InvalidFee;;
      write (set_default_fee_bps fee_bps oft_store)
  | SetPaused paused => write (set_paused paused oft_store)
  | Pauser pauser => write (set_pauser pauser oft_store)
  | Unpauser unpauser => write (set_unpauser unpauser oft_store)
  end.

(** ** [set_pause] *)
Record SetPause := mkSetPause { pa_signer : AccountInfo; pa_oft_store : AccountInfo }.
Definition is_valid_signer (signer : Pubkey) (oft_store : OFTStore) (paused : bool) : bool :=
  if paused then bool_decide (pauser oft_store = Some signer)
  else bool_decide (unpauser oft_store = Some signer).
Definition set_pause (c : SetPause) (paused : bool) st : oft_result oft_state :=
  constraint (is_signer (pa_signer c));;
  oft_store ← load_store st (pa_oft_store c);
  check_seeds (store_seeds oft_store) (bump oft_store) (pa_oft_store c);;
  constraint (is_writable (pa_oft_store c));;
  require (is_valid_signer (key (pa_signer c)) oft_store paused) Unauthorized;;
  Ok (set_oft_account (key (pa_oft_store c)) (AStore (set_paused paused oft_store)) st).

(** ** [set_peer_config] *)
Record SetPeerConfig := mkSetPeerConfig {
  pc_admin : AccountInfo; pc_peer : AccountInfo; pc_oft_store : AccountInfo;
}.
Definition PeerConfig_SPACE : nat := 8 + 1646.
Definition zero_peer : PeerConfig :=
  mkPeerConfig (zeros 32) (mkEnforcedOptions [] []) None None None 0.

(** What the peer takes in its account: an encoding that is too long is not written. *)
Definition peer_size (p : PeerConfig) : nat :=
  32 + (4 + length (opt_send (enforced_options p))) +
  (4 + length (opt_send_and_call (enforced_options p))) +
  (if outbound_rate_limiter p then 33 else 1) + (if inbound_rate_limiter p then 33 else 1) +
  (if peer_fee_bps p then 3 else 1) + 1.
Definition write_peer i (p : PeerConfig) st : oft_result oft_state :=
  constraint (8 + peer_size p <=? PeerConfig_SPACE)%nat;;
  Ok (set_oft_account (key i) (APeer p) st).

Definition update_rate_limiter (rate_limiter : option RateLimiter) (params : option RateLimitParams) :
    oft_result (option RateLimiter) :=
  match params with
  | Some param =>
      let limiter := default RateLimiter_default rate_limiter in
      limiter ← match r_capacity param with
                | Some capacity => set_capacity capacity limiter
                | None => Ok limiter
                end;
      limiter ← match r_refill_per_second param with
                | Some refill_rate => set_rate refill_rate limiter
                | None => Ok limiter
                end;
      Ok (Some limiter)
  | None => Ok None
  end.

Definition set_peer_address (a : list byte) (p : PeerConfig) : PeerConfig :=
  mkPeerConfig a (enforced_options p) (outbound_rate_limiter p) (inbound_rate_limiter p)
    (peer_fee_bps p) (peer_bump p).
Definition set_enforced_options (o : EnforcedOptions) (p : PeerConfig) : PeerConfig :=
  mkPeerConfig (peer_address p) o (outbound_rate_limiter p) (inbound_rate_limiter p)
    (peer_fee_bps p) (peer_bump p).
Definition set_limiters (outbound inbound : option RateLimiter) (p : PeerConfig) : PeerConfig :=
  mkPeerConfig (peer_address p) (enforced_options p) outbound inbound (peer_fee_bps p) (peer_bump p).
Definition set_fee_bps (o : option Z) (p : PeerConfig) : PeerConfig :=
  mkPeerConfig (peer_address p) (enforced_options p) (outbound_rate_limiter p)
    (inbound_rate_limiter p) o (peer_bump p).
Definition set_peer_bump (b : Z) (p : PeerConfig) : PeerConfig :=
  mkPeerConfig (peer_address p) (enforced_options p) (outbound_rate_limiter p)
    (inbound_rate_limiter p) (peer_fee_bps p) b.

Definition set_peer_config (c : SetPeerConfig) (remote_eid : Z) (config : PeerConfigParam) st :
    oft_result oft_state :=
  constraint (is_signer (pc_admin c));;
  constraint (is_writable (pc_admin c));;
  oft_store ← load_store st (pc_oft_store c);
  (** [init_if_needed] *)
  let seeds := peer_seeds (pc_oft_store c) remote_eid in
  let '(address, bump_peer) := find_program_address seeds oft_id in
  st ← match oft_accts st !! key (pc_peer c) with
       | Some _ =>
           constraint (address =? key (pc_peer c));;
           constraint (is_writable (pc_peer c));;
           Ok st
       | None =>
           '(st, _) ← init_program_account (pc_admin c) (pc_peer c) seeds PeerConfig_SPACE
             (APeer zero_peer) st;
           Ok st
       end;
  peer ← load_peer st (pc_peer c);
  check_seeds (store_seeds oft_store) (bump oft_store) (pc_oft_store c);;
  require (admin oft_store =? key (pc_admin c)) Unauthorized;;
  peer ←
    match config with
    | PeerAddress peer_address => Ok (set_peer_address peer_address peer)
    | FeeBps fee_bps =>
        match fee_bps with
        | Some fee_bps => require (fee_bps <? quote.MAX_FEE_BASIS_POINTS) InvalidFee
        | None => Ok tt
        end;;
        Ok (set_fee_bps fee_bps peer)
    | SetEnforcedOptions send send_and_call =>
        assert_type_3 send;;
        assert_type_3 send_and_call;;
        Ok (set_enforced_options (mkEnforcedOptions send send_and_call) peer)
    | OutboundRateLimit rate_limit_params =>
        limiter ← update_rate_limiter (outbound_rate_limiter peer) rate_limit_params;
        Ok (set_limiters limiter (inbound_rate_limiter peer) peer)
    | InboundRateLimit rate_limit_params =>
        limiter ← update_rate_limiter (inbound_rate_limiter peer) rate_limit_params;
        Ok (set_limiters (outbound_rate_limiter peer) limiter peer)
    end;
  write_peer (pc_peer c) (set_peer_bump bump_peer peer) st.

(** ** [withdraw_fee] *)
Record WithdrawFee := mkWithdrawFee {
  wf_admin : AccountInfo; wf_oft_store : AccountInfo; wf_token_mint : AccountInfo;
  wf_token_escrow : AccountInfo; wf_token_dest : AccountInfo; wf_token_program : AccountInfo;
}.
Definition withdraw_fee (c : WithdrawFee) (fee_ld : Z) st : oft_result oft_state :=
  let w := chain st in
  constraint (is_signer (wf_admin c));;
  oft_store ← load_store st (wf_oft_store c);
  token_mint ← load_mint w (wf_token_mint c);
  token_escrow ← load_token_account w (wf_token_escrow c);
  token_dest ← load_token_account w (wf_token_dest c);
  constraint (is_token_program (key (wf_token_program c)));;
  check_seeds (store_seeds oft_store) (bump oft_store) (wf_oft_store c);;
  require (admin oft_store =? key (wf_admin c)) Unauthorized;;
  constraint (key (wf_token_mint c) =? store_token_mint oft_store);;
  constraint (info_owner w (wf_token_mint c) =? key (wf_token_program c));;
  constraint (is_writable (wf_token_escrow c));;
  constraint (key (wf_token_escrow c) =? store_token_escrow oft_store);;
  token_constraints w (wf_token_mint c) (Some (key (wf_oft_store c))) (wf_token_program c)
    (wf_token_escrow c) token_escrow;;
  constraint (is_writable (wf_token_dest c));;
  token_constraints w (wf_token_mint c) None (wf_token_program c) (wf_token_dest c) token_dest;;
  surplus ← sub_u64 (a_amount token_escrow) (tvl_ld oft_store);
  require (fee_ld <=? surplus) InvalidFee;;
  w ← transfer_checked (wf_token_program c)
    (seeds_signer [OFT_SEED; le_split 32 (key (wf_token_escrow c)); le_split 1 (bump oft_store)])
    (wf_token_escrow c) (wf_token_mint c) (wf_token_dest c) (wf_oft_store c) fee_ld
    (m_decimals token_mint) w;
  Ok (set_chain w st).

(** ** [quote_oft] and [quote_send] *)
Record Quote := mkQuote {
  qo_oft_store : AccountInfo; qo_peer : AccountInfo; qo_token_mint : AccountInfo;
  qo_remaining : list AccountInfo;
}.
(** The accounts, and the amounts after the fee and the slippage check *)
Definition quote_amounts (c : Quote) (params : QuoteSendParams) st :
    oft_result (OFTStore * PeerConfig * (Z * Z * Z)) :=
  oft_store ← load_store st (qo_oft_store c);
  peer ← load_peer st (qo_peer c);
  load_mint (chain st) (qo_token_mint c);;
  check_seeds (store_seeds oft_store) (bump oft_store) (qo_oft_store c);;
  check_seeds (peer_seeds (qo_oft_store c) (qs_dst_eid params)) (peer_bump peer) (qo_peer c);;
  constraint (key (qo_token_mint c) =? store_token_mint oft_store);;
  require (negb (paused oft_store)) Paused;;
  '(sent, received, fee) ← quote.compute_fee_and_adjust_amount (qs_amount_ld params) oft_store
    (chain st) (key (qo_token_mint c)) (peer_fee_bps peer);
  require (qs_min_amount_ld params <=? received) SlippageExceeded;;
  Ok (oft_store, peer, (sent, received, fee)).

Definition quote_oft (c : Quote) (params : QuoteSendParams) st : oft_result QuoteOFTResult :=
  '(_, _, (amount_sent_ld, amount_received_ld, oft_fee_ld)) ← quote_amounts c params st;
  total ← add_u64 amount_received_ld oft_fee_ld;
  transfer_fee ← (if total <? amount_sent_ld then
                    rest ← sub_u64 amount_sent_ld oft_fee_ld;
                    taken ← sub_u64 rest amount_received_ld;
                    Ok [Token2022_Transfer_Fee taken]
                  else Ok []);
  Ok (mkQuoteOFTResult 0 (2 ^ 64 - 1)
        (transfer_fee ++ if 0 <? oft_fee_ld then [Cross_Chain_Fee oft_fee_ld] else [])
        (mkOFTReceipt amount_sent_ld amount_received_ld)).

(** [EnforcedOptions::combine_options] *)
Definition combine_options (o : EnforcedOptions) (compose_msg : option (list byte))
    (extra_options : list byte) : oft_result (list byte) :=
  options_combine (get_enforced_options o compose_msg) extra_options.

Definition quote_send (c : Quote) (params : QuoteSendParams) st : oft_result MessagingFee :=
  '(oft_store, peer, (_, amount_received_ld, _)) ← quote_amounts c params st;
  options ← combine_options (enforced_options peer) (qs_compose_msg params) (qs_options params);
  endpoint_quote (endpoint_program oft_store) (qo_remaining c)
    (mkQuoteParams (key (qo_oft_store c)) (qs_dst_eid params) (peer_address peer)
       (msg_codec.encode (qs_to params) amount_received_ld Pubkey_default (qs_compose_msg params))
       (qs_pay_in_lz_token params) options) (chain st).

(** ** [send] *)
Record Send := mkSend {
  sn_signer : AccountInfo; sn_peer : AccountInfo; sn_oft_store : AccountInfo;
  sn_token_source : AccountInfo; sn_token_escrow : AccountInfo; sn_token_mint : AccountInfo;
  sn_token_program : AccountInfo; sn_remaining : list AccountInfo;
}.

(** One limiter pays, the other is refilled. *)
Definition consume_limiter (amount : Z) (o : option RateLimiter) : oft_result (option RateLimiter) :=
  match o with
  | Some rate_limiter => l ← try_consume amount rate_limiter; Ok (Some l)
  | None => Ok None
  end.
Definition refill_limiter (amount : Z) (o : option RateLimiter) : oft_result (option RateLimiter) :=
  match o with
  | Some rate_limiter => l ← refill amount rate_limiter; Ok (Some l)
  | None => Ok None
  end.

(** The constraints of [Send] on its accounts *)
Definition send_accounts (c : Send) (dst_eid : Z) st : oft_result (OFTStore * PeerConfig * Mint) :=
  let w := chain st in
  constraint (is_signer (sn_signer c));;
  peer ← load_peer st (sn_peer c);
  oft_store ← load_store st (sn_oft_store c);
  token_source ← load_token_account w (sn_token_source c);
  token_escrow ← load_token_account w (sn_token_escrow c);
  token_mint ← load_mint w (sn_token_mint c);
  constraint (is_token_program (key (sn_token_program c)));;
  check_seeds (peer_seeds (sn_oft_store c) dst_eid) (peer_bump peer) (sn_peer c);;
  constraint (is_writable (sn_peer c));;
  check_seeds (store_seeds oft_store) (bump oft_store) (sn_oft_store c);;
  constraint (is_writable (sn_oft_store c));;
  constraint (is_writable (sn_token_source c));;
  token_constraints w (sn_token_mint c) (Some (key (sn_signer c))) (sn_token_program c)
    (sn_token_source c) token_source;;
  constraint (is_writable (sn_token_escrow c));;
  constraint (key (sn_token_escrow c) =? store_token_escrow oft_store);;
  token_constraints w (sn_token_mint c) (Some (key (sn_oft_store c))) (sn_token_program c)
    (sn_token_escrow c) token_escrow;;
  constraint (is_writable (sn_token_mint c));;
  constraint (key (sn_token_mint c) =? store_token_mint oft_store);;
  constraint (info_owner w (sn_token_mint c) =? key (sn_token_program c));;
  Ok (oft_store, peer, token_mint).

(** The tokens leave the source: into the escrow, or burnt. *)
Definition debit (c : Send) (oft_store : OFTStore) (token_mint : Mint)
    (amount_sent_ld amount_received_ld oft_fee_ld : Z) w : oft_result (OFTStore * world) :=
  let signers := [key (sn_signer c)] in
  match oft_type oft_store with
  | Adapter =>
      tvl_ld ← add_u64 (tvl_ld oft_store) amount_received_ld;
      w ← transfer_checked (sn_token_program c) signers (sn_token_source c) (sn_token_mint c)
        (sn_token_escrow c) (sn_signer c) amount_sent_ld (m_decimals token_mint) w;
      Ok (set_tvl_ld tvl_ld oft_store, w)
  | Native =>
      burnt ← sub_u64 amount_sent_ld oft_fee_ld;
      w ← burn (sn_token_program c) signers (sn_token_mint c) (sn_token_source c) (sn_signer c)
        burnt w;
      if 0 <? oft_fee_ld then
        w ← transfer_checked (sn_token_program c) signers (sn_token_source c) (sn_token_mint c)
          (sn_token_escrow c) (sn_signer c) oft_fee_ld (m_decimals token_mint) w;
        Ok (oft_store, w)
      else Ok (oft_store, w)
  end.

Definition send (c : Send) (params : SendParams) st :
    oft_result (oft_state * (MessagingReceipt * OFTReceipt)) :=
  '(oft_store, peer, token_mint) ← send_accounts c (sp_dst_eid params) st;
  require (negb (paused oft_store)) Paused;;
  '(amount_sent_ld, amount_received_ld, oft_fee_ld) ←
    quote.compute_fee_and_adjust_amount (sp_amount_ld params) oft_store (chain st)
      (key (sn_token_mint c)) (peer_fee_bps peer);
  require (sp_min_amount_ld params <=? amount_received_ld) SlippageExceeded;;
  outbound ← consume_limiter amount_received_ld (outbound_rate_limiter peer);
  inbound ← refill_limiter amount_received_ld (inbound_rate_limiter peer);
  '(oft_store, w) ← debit c oft_store token_mint amount_sent_ld amount_received_ld oft_fee_ld
    (chain st);
  sender ← or_panic (sn_remaining c !! 1%nat);
  require (key (sn_oft_store c) =? key sender) InvalidSender;;
  amount_sd ← ld2sd oft_store amount_received_ld;
  options ← combine_options (enforced_options peer) (sp_compose_msg params) (sp_options params);
  '(msg_receipt, w) ← endpoint_send (endpoint_program oft_store) (key (sn_oft_store c))
    (sn_remaining c)
    [OFT_SEED; le_split 32 (key (sn_token_escrow c)); le_split 1 (bump oft_store)]
    (mkEndpointSendParams (sp_dst_eid params) (peer_address peer)
       (msg_codec.encode (sp_to params) amount_sd (key (sn_signer c)) (sp_compose_msg params))
       options (sp_native_fee params) (sp_lz_token_fee params)) w;
  st ← write_peer (sn_peer c) (set_limiters outbound inbound peer) (set_chain w st);
  Ok (emit (OFTSent (guid msg_receipt) (sp_dst_eid params) (key (sn_token_source c))
              amount_sent_ld amount_received_ld)
        (set_oft_account (key (sn_oft_store c)) (AStore oft_store) st),
      (msg_receipt, mkOFTReceipt amount_sent_ld amount_received_ld)).

(** ** [lz_receive] *)
Record LzReceive := mkLzReceive {
  lr_payer : AccountInfo; lr_peer : AccountInfo; lr_oft_store : AccountInfo;
  lr_token_escrow : AccountInfo; lr_to_address : AccountInfo; lr_token_dest : AccountInfo;
  lr_token_mint : AccountInfo; lr_mint_authority : option AccountInfo;
  lr_token_program : AccountInfo; lr_remaining : list AccountInfo;
}.

(** The constraints of [LzReceive]; the account of the receiver is created if it does not
    exist. *)
Definition lz_receive_accounts (c : LzReceive) (params : LzReceiveParams) st :
    oft_result (OFTStore * PeerConfig * Mint * world) :=
  let w := chain st in
  constraint (is_signer (lr_payer c));;
  peer ← load_peer st (lr_peer c);
  oft_store ← load_store st (lr_oft_store c);
  token_escrow ← load_token_account w (lr_token_escrow c);
  token_mint ← load_mint w (lr_token_mint c);
  constraint (is_token_program (key (lr_token_program c)));;
  w ← (if info_owner w (lr_token_dest c) =? system_program_id then
         init_associated_token_account (lr_payer c) (lr_token_dest c) (key (lr_to_address c))
           (key (lr_token_mint c)) (key (lr_token_program c)) w
       else Ok w);
  token_dest ← load_token_account w (lr_token_dest c);
  constraint (is_writable (lr_payer c));;
  check_seeds (peer_seeds (lr_oft_store c) (lp_src_eid params)) (peer_bump peer) (lr_peer c);;
  constraint (is_writable (lr_peer c));;
  require (bool_decide (peer_address peer = lp_sender params)) InvalidSender;;
  check_seeds (store_seeds oft_store) (bump oft_store) (lr_oft_store c);;
  constraint (is_writable (lr_oft_store c));;
  constraint (is_writable (lr_token_escrow c));;
  constraint (key (lr_token_escrow c) =? store_token_escrow oft_store);;
  token_constraints w (lr_token_mint c) (Some (key (lr_oft_store c))) (lr_token_program c)
    (lr_token_escrow c) token_escrow;;
  to ← msg_codec.send_to (lp_message params);
  require (key (lr_to_address c) =? le_combine to) InvalidTokenDest;;
  constraint (key (lr_token_dest c) =? get_associated_token_address (key (lr_to_address c))
                (key (lr_token_mint c)) (key (lr_token_program c)));;
  token_constraints w (lr_token_mint c) (Some (key (lr_to_address c))) (lr_token_program c)
    (lr_token_dest c) token_dest;;
  constraint (is_writable (lr_token_mint c));;
  constraint (key (lr_token_mint c) =? store_token_mint oft_store);;
  constraint (info_owner w (lr_token_mint c) =? key (lr_token_program c));;
  match lr_mint_authority c with
  | Some mint_authority =>
      require (bool_decide (m_mint_authority token_mint = Some (key mint_authority)))
        InvalidMintAuthority
  | None => Ok tt
  end;;
  Ok (oft_store, peer, token_mint, w).

(** The tokens reach the receiver: out of the escrow, or minted. *)
Definition credit (c : LzReceive) (oft_store : OFTStore) (token_mint : Mint)
    (amount_received_ld : Z) w : oft_result (OFTStore * Z * world) :=
  let signers := seeds_signer
    [OFT_SEED; le_split 32 (key (lr_token_escrow c)); le_split 1 (bump oft_store)] in
  match oft_type oft_store with
  | Adapter =>
      tvl_ld ← sub_u64 (tvl_ld oft_store) amount_received_ld;
      w ← transfer_checked (lr_token_program c) signers (lr_token_escrow c) (lr_token_mint c)
        (lr_token_dest c) (lr_oft_store c) amount_received_ld (m_decimals token_mint) w;
      amount_received_ld ← quote.get_post_fee_amount_ld w (key (lr_token_mint c)) amount_received_ld;
      Ok (set_tvl_ld tvl_ld oft_store, amount_received_ld, w)
  | Native =>
      match lr_mint_authority c with
      | Some mint_authority =>
          w ← mint_to (lr_token_program c) signers (lr_token_mint c) (lr_token_dest c)
            mint_authority (lr_oft_store c) amount_received_ld w;
          Ok (oft_store, amount_received_ld, w)
      | None => Err (Oft InvalidMintAuthority)
      end
  end.

Definition lz_receive (c : LzReceive) (params : LzReceiveParams) st : oft_result oft_state :=
  '(oft_store, peer, token_mint, w) ← lz_receive_accounts c params st;
  require (negb (paused oft_store)) Paused;;
  let seeds := [OFT_SEED; le_split 32 (key (lr_token_escrow c)); le_split 1 (bump oft_store)] in
  let store := key (lr_oft_store c) in
  (if (Clear_MIN_ACCOUNTS_LEN <=? length (lr_remaining c))%nat then Ok tt else Panic);;
  w ← endpoint_clear (endpoint_program oft_store) store (take Clear_MIN_ACCOUNTS_LEN (lr_remaining c))
    seeds (mkClearParams store (lp_src_eid params) (lp_sender params) (lp_nonce params)
             (lp_guid params) (lp_message params)) w;
  amount_sd ← msg_codec.amount_sd (lp_message params);
  amount_received_ld ← sd2ld oft_store amount_sd;
  inbound ← consume_limiter amount_received_ld (inbound_rate_limiter peer);
  outbound ← refill_limiter amount_received_ld (outbound_rate_limiter peer);
  '(oft_store, amount_received_ld, w) ← credit c oft_store token_mint amount_received_ld w;
  w ← match msg_codec.compose_msg (lp_message params) with
      | Some message =>
          endpoint_send_compose (endpoint_program oft_store) store
            (drop Clear_MIN_ACCOUNTS_LEN (lr_remaining c)) seeds
            (mkSendComposeParams (key (lr_to_address c)) (lp_guid params) 0
               (compose_msg_codec.encode (lp_nonce params) (lp_src_eid params) amount_received_ld
                  message)) w
      | None => Ok w
      end;
  st ← write_peer (lr_peer c) (set_limiters outbound inbound peer) (set_chain w st);
  Ok (emit (OFTReceived (lp_guid params) (lp_src_eid params) (key (lr_to_address c))
              amount_received_ld)
        (set_oft_account store (AStore oft_store) st)).

(** ** [lz_receive_types]: the accounts [lz_receive] wants *)
Definition lz_receive_types (oft_store_info token_mint_info : AccountInfo) (params : LzReceiveParams)
    st : oft_result (list LzAccount) :=
  let w := chain st in
  oft_store ← load_store st oft_store_info;
  token_mint ← load_mint w token_mint_info;
  check_seeds (store_seeds oft_store) (bump oft_store) oft_store_info;;
  constraint (key token_mint_info =? store_token_mint oft_store);;
  let '(peer, _) := find_program_address (peer_seeds oft_store_info (lp_src_eid params)) oft_id in
  to ← msg_codec.send_to (lp_message params);
  let to_address := le_combine to in
  let token_program := info_owner w token_mint_info in
  let token_dest :=
    get_associated_token_address to_address (store_token_mint oft_store) token_program in
  let mint_authority := default oft_id (m_mint_authority token_mint) in
  let '(event_authority_account, _) := find_program_address [EVENT_SEED] oft_id in
  let accounts :=
    [mkLzAccount Pubkey_default true true; mkLzAccount peer false true;
     mkLzAccount (key oft_store_info) false true;
     mkLzAccount (store_token_escrow oft_store) false true;
     mkLzAccount to_address false false; mkLzAccount token_dest false true;
     mkLzAccount (key token_mint_info) false true; mkLzAccount mint_authority false false;
     mkLzAccount token_program false false; mkLzAccount associated_token_id false false;
     mkLzAccount system_program_id false false; mkLzAccount event_authority_account false false;
     mkLzAccount oft_id false false] ++
    get_accounts_for_clear (endpoint_program oft_store) (key oft_store_info) (lp_src_eid params)
      (lp_sender params) (lp_nonce params) in
  match msg_codec.compose_msg (lp_message params) with
  | Some message =>
      amount_sd ← msg_codec.amount_sd (lp_message params);
      amount_ld ← sd2ld oft_store amount_sd;
      amount_received_ld ←
        match oft_type oft_store with
        | Native => Ok amount_ld
        | Adapter => quote.get_post_fee_amount_ld w (key token_mint_info) amount_ld
        end;
      Ok (accounts ++
          get_accounts_for_send_compose (endpoint_program oft_store) (key oft_store_info) to_address
            (lp_guid params) 0
            (compose_msg_codec.encode (lp_nonce params) (lp_src_eid params) amount_received_ld
               message))
  | None => Ok accounts
  end.

(** ** The program: [lib.rs] *)
Inductive OftInstruction :=
| InitOft (c : InitOFT) (params : InitOFTParams)
| SetOftConfig (c : SetOFTConfig) (params : SetOFTConfigParams)
| SetPeer (c : SetPeerConfig) (remote_eid : Z) (config : PeerConfigParam)
| Pause (c : SetPause) (paused : bool)
| Withdraw (c : WithdrawFee) (fee_ld : Z)
| SendOft (c : Send) (params : SendParams)
| Receive (c : LzReceive) (params : LzReceiveParams).

(** The instructions that write accounts *)
Definition oft_process (i : OftInstruction) st : oft_result oft_state :=
  match i with
  | InitOft c params => init_oft c params st
  | SetOftConfig c params => set_oft_config c params st
  | SetPeer c remote_eid config => set_peer_config c remote_eid config st
  | Pause c paused => set_pause c paused st
  | Withdraw c fee_ld => withdraw_fee c fee_ld st
  | SendOft c params => '(st, _) ← send c params st; Ok st
  | Receive c params => lz_receive c params st
  end.
End oft.
