(* ===== verification/Processor.v ===== *)
(** * The processor: [Processor::process] of [program/src/processor.rs]

    From the bytes of an instruction to its handler. *)
From S2P Require Import Prelude Codec Errors Runtime Pod State ExtensionType ExtensionData Tlv.
From S2P Require Import TlvAlloc StateExt Fee Authority Transfer Supply AccountOps SetAuthority.
From S2P Require Import Instruction InitOps TransferFeeOps ExtensionOps SystemOps UiAmountOps.
From S2P Require Import CiphertextOps ProofExtraction ConfidentialOps ConfidentialTransferOps.
From S2P Require Import ConfidentialFeeOps ConfidentialMintBurnOps AccountAlloc InterfaceOps.

(** ** [PodTokenInstruction] of [program/src/pod_instruction.rs] *)
Module PodTokenInstruction.
Inductive t :=
| InitializeMint | InitializeAccount | InitializeMultisig | Transfer | Approve
| Revoke | SetAuthority | MintTo | Burn | CloseAccount
| FreezeAccount | ThawAccount | TransferChecked | ApproveChecked | MintToChecked
| BurnChecked | InitializeAccount2 | SyncNative | InitializeAccount3 | InitializeMultisig2
| InitializeMint2 | GetAccountDataSize | InitializeImmutableOwner | AmountToUiAmount
| UiAmountToAmount
| InitializeMintCloseAuthority | TransferFeeExtension | ConfidentialTransferExtension
| DefaultAccountStateExtension | Reallocate
| MemoTransferExtension | CreateNativeMint | InitializeNonTransferableMint
| InterestBearingMintExtension | CpiGuardExtension
| InitializePermanentDelegate | TransferHookExtension | ConfidentialTransferFeeExtension
| WithdrawExcessLamports | MetadataPointerExtension
| GroupPointerExtension | GroupMemberPointerExtension | ConfidentialMintBurnExtension
| ScaledUiAmountExtension | PausableExtension.
#[global] Instance eq_dec : EqDecision t.
Proof. solve_decision. Defined.

(** In the order of the discriminants. *)
Definition all : list t :=
  [InitializeMint; InitializeAccount; InitializeMultisig; Transfer; Approve;
   Revoke; SetAuthority; MintTo; Burn; CloseAccount;
   FreezeAccount; ThawAccount; TransferChecked; ApproveChecked; MintToChecked;
   BurnChecked; InitializeAccount2; SyncNative; InitializeAccount3; InitializeMultisig2;
   InitializeMint2; GetAccountDataSize; InitializeImmutableOwner; AmountToUiAmount;
   UiAmountToAmount;
   InitializeMintCloseAuthority; TransferFeeExtension; ConfidentialTransferExtension;
   DefaultAccountStateExtension; Reallocate;
   MemoTransferExtension; CreateNativeMint; InitializeNonTransferableMint;
   InterestBearingMintExtension; CpiGuardExtension;
   InitializePermanentDelegate; TransferHookExtension; ConfidentialTransferFeeExtension;
   WithdrawExcessLamports; MetadataPointerExtension;
   GroupPointerExtension; GroupMemberPointerExtension; ConfidentialMintBurnExtension;
   ScaledUiAmountExtension; PausableExtension].

(** [PodTokenInstruction::try_from(u8)] *)
Definition try_from (b : Z) : option t := all !! Z.to_nat b.
End PodTokenInstruction.
Abbreviation PodTokenInstruction := PodTokenInstruction.t.

Section process.
Context `{rt : Runtime} `{sp : !SystemProgram} `{fl : F64} `{curve : Curve} `{zk : !ZkSdk}.
Context `{metadata_if : token_metadata.MetadataInterface} `{group_if : token_group.GroupInterface}.
Implicit Types (w : world) (accounts : list AccountInfo) (input : list byte).

(** [Processor::process] *)
Definition process (program_id : Pubkey) accounts input w : res world :=
  match decode_instruction_type PodTokenInstruction.try_from input with
  | Ok instruction_type =>
      match instruction_type with
      | PodTokenInstruction.InitializeMint =>
          '(decimals, mint_authority, freeze_authority) ←
            decode_instruction_data_with_coption_pubkey InitializeMintData input;
          process_initialize_mint accounts decimals mint_authority freeze_authority w
      | PodTokenInstruction.InitializeMint2 =>
          '(decimals, mint_authority, freeze_authority) ←
            decode_instruction_data_with_coption_pubkey InitializeMintData input;
          process_initialize_mint2 accounts decimals mint_authority freeze_authority w
      | PodTokenInstruction.InitializeAccount => process_initialize_account accounts w
      | PodTokenInstruction.InitializeAccount2 =>
          owner ← decode_instruction_data pubkey input;
          process_initialize_account2 accounts owner w
      | PodTokenInstruction.InitializeAccount3 =>
          owner ← decode_instruction_data pubkey input;
          process_initialize_account3 accounts owner w
      | PodTokenInstruction.InitializeMultisig =>
          m ← decode_instruction_data InitializeMultisigData input;
          process_initialize_multisig accounts m w
      | PodTokenInstruction.InitializeMultisig2 =>
          m ← decode_instruction_data InitializeMultisigData input;
          process_initialize_multisig2 accounts m w
      | PodTokenInstruction.Transfer =>
          amount ← decode_instruction_data AmountData input;
          process_transfer program_id accounts amount TransferUnchecked w
      | PodTokenInstruction.Approve =>
          amount ← decode_instruction_data AmountData input;
          process_approve program_id accounts amount Unchecked w
      | PodTokenInstruction.Revoke => process_revoke program_id accounts w
      | PodTokenInstruction.SetAuthority =>
          '(authority_type, new_authority) ←
            decode_instruction_data_with_coption_pubkey SetAuthorityData input;
          authority_type ← authority_type_from authority_type;
          process_set_authority program_id accounts authority_type new_authority w
      | PodTokenInstruction.MintTo =>
          amount ← decode_instruction_data AmountData input;
          process_mint_to program_id accounts amount Unchecked w
      | PodTokenInstruction.Burn =>
          amount ← decode_instruction_data AmountData input;
          process_burn program_id accounts amount Unchecked w
      | PodTokenInstruction.CloseAccount => process_close_account program_id accounts w
      | PodTokenInstruction.FreezeAccount =>
          process_toggle_freeze_account program_id accounts true w
      | PodTokenInstruction.ThawAccount =>
          process_toggle_freeze_account program_id accounts false w
      | PodTokenInstruction.TransferChecked =>
          '(amount, decimals) ← decode_instruction_data AmountCheckedData input;
          process_transfer program_id accounts amount (TransferChecked decimals) w
      | PodTokenInstruction.ApproveChecked =>
          '(amount, decimals) ← decode_instruction_data AmountCheckedData input;
          process_approve program_id accounts amount (Checked decimals) w
      | PodTokenInstruction.MintToChecked =>
          '(amount, decimals) ← decode_instruction_data AmountCheckedData input;
          process_mint_to program_id accounts amount (Checked decimals) w
      | PodTokenInstruction.BurnChecked =>
          '(amount, decimals) ← decode_instruction_data AmountCheckedData input;
          process_burn program_id accounts amount (Checked decimals) w
      | PodTokenInstruction.SyncNative => process_sync_native accounts w
      | PodTokenInstruction.GetAccountDataSize =>
          extension_types ← extension_types_try_from (chunks2 (drop 1 input));
          process_get_account_data_size accounts extension_types w
      | PodTokenInstruction.InitializeMintCloseAuthority =>
          '(_, close_authority) ←
            decode_instruction_data_with_coption_pubkey unit_codec input;
          process_initialize_mint_close_authority accounts close_authority w
      | PodTokenInstruction.TransferFeeExtension =>
          process_transfer_fee_instruction program_id accounts (drop 1 input) w
      | PodTokenInstruction.DefaultAccountStateExtension =>
          process_default_account_state_instruction program_id accounts (drop 1 input) w
      | PodTokenInstruction.InitializeImmutableOwner =>
          process_initialize_immutable_owner accounts w
      | PodTokenInstruction.MemoTransferExtension =>
          process_memo_transfer_instruction program_id accounts (drop 1 input) w
      | PodTokenInstruction.InitializeNonTransferableMint =>
          process_initialize_non_transferable_mint accounts w
      | PodTokenInstruction.InterestBearingMintExtension =>
          process_interest_bearing_instruction program_id accounts (drop 1 input) w
      | PodTokenInstruction.CpiGuardExtension =>
          process_cpi_guard_instruction program_id accounts (drop 1 input) w
      | PodTokenInstruction.InitializePermanentDelegate =>
          delegate ← decode_instruction_data pubkey input;
          process_initialize_permanent_delegate accounts delegate w
      | PodTokenInstruction.TransferHookExtension =>
          process_transfer_hook_instruction program_id accounts (drop 1 input) w
      | PodTokenInstruction.WithdrawExcessLamports =>
          process_withdraw_excess_lamports program_id accounts w
      | PodTokenInstruction.MetadataPointerExtension =>
          process_metadata_pointer_instruction program_id accounts (drop 1 input) w
      | PodTokenInstruction.GroupPointerExtension =>
          process_group_pointer_instruction program_id accounts (drop 1 input) w
      | PodTokenInstruction.GroupMemberPointerExtension =>
          process_group_member_pointer_instruction program_id accounts (drop 1 input) w
      | PodTokenInstruction.ScaledUiAmountExtension =>
          process_scaled_ui_amount_instruction program_id accounts (drop 1 input) w
      | PodTokenInstruction.PausableExtension =>
          process_pausable_instruction program_id accounts (drop 1 input) w
      | PodTokenInstruction.AmountToUiAmount =>
          amount ← decode_instruction_data AmountData input;
          process_amount_to_ui_amount accounts amount w
      | PodTokenInstruction.UiAmountToAmount =>
          ui_amount ← ok_or (from_utf8 (drop 1 input)) (tok InvalidInstruction);
          process_ui_amount_to_amount accounts ui_amount w
      | PodTokenInstruction.Reallocate =>
          extension_types ← extension_types_try_from (chunks2 (drop 1 input));
          process_reallocate program_id accounts extension_types w
      | PodTokenInstruction.CreateNativeMint => process_create_native_mint accounts w
      | PodTokenInstruction.ConfidentialTransferExtension =>
          confidential_transfer.process_instruction program_id accounts (drop 1 input) w
      | PodTokenInstruction.ConfidentialTransferFeeExtension =>
          confidential_transfer_fee.process_instruction program_id accounts (drop 1 input) w
      | PodTokenInstruction.ConfidentialMintBurnExtension =>
          confidential_mint_burn.process_instruction program_id accounts (drop 1 input) w
      end
  | _ =>
      match token_metadata.metadata_instruction_unpack input with
      | Some instruction => token_metadata.process_instruction program_id accounts instruction w
      | None =>
          match token_group.group_instruction_unpack input with
          | Some instruction => token_group.process_instruction accounts instruction w
          | None => Err (tok InvalidInstruction)
          end
      end
  end.
End process.
