(* ===== verification/Machine.v ===== *)
(** * The program as a machine

    Worlds change by instructions of the program and by other programs; the
    invariant of all reachable worlds is that the tokens of a mint are exactly
    those it has issued. *)
From stdpp Require Import relations.
From S2P Require Import Prelude Codec Errors Runtime Pod State ExtensionType ExtensionData Tlv.
From S2P Require Import TlvFacts TlvAlloc StateExt Fee Authority Transfer AccountFacts.
From S2P Require Import TransferFacts Supply AccountOps AccountOpsFacts SetAuthority.
From S2P Require Import Instruction InitOps InitFacts TransferFeeOps Unborn LedgerSpec Ledger.
From S2P Require Import LedgerFacts FeeLedger InitLedger ExtensionOps ExtensionFacts SystemOps.
From S2P Require Import InitLedger UiAmountOps CiphertextOps ProofExtraction ConfidentialOps.
From S2P Require Import ConfidentialTransferOps ConfidentialFacts ConfidentialLedger Processor.
From S2P Require Import AccountAlloc InterfaceOps InterfaceFacts.

(** ** What the runtime guarantees *)
Record runtime_ok (rt : Runtime) : Prop := {
  (** the programs a transfer hook runs are other programs *)
  runtime_hook : hook_foreign rt;
  (** lamports and epochs are [u64] *)
  runtime_rent : ∀ r n, in_uint 64 (minimum_balance r n);
  runtime_clock : ∀ clk, clock_get = Ok clk → in_uint 64 (epoch clk);
  (** keys and ciphertexts have the sizes of their encodings *)
  runtime_crypto : crypto_sizes rt;
}.

(** Keys are 32 bytes. *)
Definition keys_ok (accounts : list AccountInfo) : Prop :=
  ∀ i, i ∈ accounts → in_uint 256 (key i).

Section decode.
Context `{rt : Runtime}.

Lemma pod_from_bytes_c_ok {A} (c : codec A) bs x : pod_from_bytes c bs = Ok x → c_ok c x.
Proof. intros [Hl ->]%pod_from_bytes_Ok. by apply c_read_ok. Qed.

Lemma decode_instruction_data_ok {A} (c : codec A) input x :
  decode_instruction_data c input = Ok x → c_ok c x.
Proof.
  unfold decode_instruction_data. case_match; [done|]. apply pod_from_bytes_c_ok.
Qed.

Lemma get_to_range n input bs : get_to n input = Some bs →
  in_uint (8 * Z.of_nat n) (le_combine bs).
Proof.
  unfold get_to. case_match eqn:E; [|done]. intros [= <-]. apply Nat.leb_le in E.
  pose proof (le_combine_bound (take n input)) as Hb. by rewrite length_take, Nat.min_l in Hb.
Qed.

Lemma pod_unpack_pubkey_option_ok input o :
  pod_unpack_pubkey_option input = Ok o → c_ok (coption_codec 32) o.
Proof.
  unfold pod_unpack_pubkey_option. destruct (split_first input) as [[[|[]|] rest]|]; try done.
  - intros [= <-]. apply co_none_ok.
  - intros (pk & Hpk%ok_or_Ok & [= <-])%bind_Ok. apply co_some_ok.
    by apply get_to_range in Hpk.
Qed.

Lemma decode_coption_ok {A} (c : codec A) input x o :
  decode_instruction_data_with_coption_pubkey c input = Ok (x, o) →
  c_ok c x ∧ c_ok (coption_codec 32) o.
Proof.
  unfold decode_instruction_data_with_coption_pubkey. cbv zeta. case_match; [done|].
  intros (y & Hy & (o' & Ho & [= <- <-])%bind_Ok)%bind_Ok.
  split; [by eapply pod_from_bytes_c_ok|by eapply pod_unpack_pubkey_option_ok].
Qed.

(** What the transfer fee instructions carry fits its types. *)
Definition transfer_fee_instruction_ok (i : TransferFeeInstruction) : Prop :=
  match i with
  | InitializeTransferFeeConfig a1 a2 bps mx =>
      okey_ok a1 ∧ okey_ok a2 ∧ in_uint 16 bps ∧ in_uint 64 mx
  | TransferFeeTransferCheckedWithFee amount decimals fee =>
      in_uint 64 amount ∧ in_uint 8 decimals ∧ in_uint 64 fee
  | SetTransferFee bps mx => in_uint 16 bps ∧ in_uint 64 mx
  | WithdrawWithheldTokensFromAccounts n => in_uint 8 n
  | _ => True
  end.

Lemma split_first_range input z rest : split_first input = Some (z, rest) → in_uint 8 z.
Proof.
  destruct input as [|b l]; [done|]. intros [= <- <-]. exact (byte.unsigned_range b).
Qed.

Lemma unpack_pubkey_option_ok input o rest : unpack_pubkey_option input = Ok (o, rest) → okey_ok o.
Proof.
  unfold unpack_pubkey_option. destruct (split_first input) as [[[|[]|] r]|]; try done.
  - by intros [= <- <-].
  - intros ([k r'] & Hk & [= <- <-])%bind_Ok k' [= <-].
    apply bind_Ok in Hk as (pk & Hpk%ok_or_Ok%get_to_range & [= <- <-]). exact Hpk.
Qed.

Lemma unpack_u16_ok input z rest : unpack_u16 input = Ok (z, rest) → in_uint 16 z.
Proof. by intros (v & Hv%ok_or_Ok%get_to_range & [= <- <-])%bind_Ok. Qed.
Lemma unpack_u64_ok input z rest : unpack_u64 input = Ok (z, rest) → in_uint 64 z.
Proof. by intros (v & Hv%ok_or_Ok%get_to_range & [= <- <-])%bind_Ok. Qed.

Lemma unpack_transfer_fee_instruction_ok input i :
  unpack_transfer_fee_instruction input = Ok i → transfer_fee_instruction_ok i.
Proof.
  intros ([tag rest] & Ht%ok_or_Ok & H)%bind_Ok.
  destruct tag as [|[[?|[?|?|]|]|[?|[?|?|]|]|]|]; try discriminate H; try (by injection H as <-).
  - apply bind_Ok in H as ([a1 r1] & H1%unpack_pubkey_option_ok & ([a2 r2] & H2%unpack_pubkey_option_ok &
      ([b r3] & H3%unpack_u16_ok & ([m r4] & H4%unpack_u64_ok & [= <-])%bind_Ok)%bind_Ok)%bind_Ok).
    done.
  - apply bind_Ok in H as ([b r3] & H3%unpack_u16_ok & ([m r4] & H4%unpack_u64_ok & [= <-])%bind_Ok).
    done.
  - apply bind_Ok in H as ([n r] & Hn%ok_or_Ok%split_first_range & [= <-]). done.
  - apply bind_Ok in H as ([[a d] r] & Ha & ([f r'] & Hf%unpack_u64_ok & [= <-])%bind_Ok).
    apply bind_Ok in Ha as ([a' r1] & H1%unpack_u64_ok & ([d' r2] & H2%ok_or_Ok%split_first_range &
      [= <- <- <-])%bind_Ok). done.
Qed.
End decode.

(** Which instruction performs which action. *)
Definition performed_by (t : PodTokenInstruction) (a : action) : bool :=
  match t, a with
  | (PodTokenInstruction.Transfer | PodTokenInstruction.TransferChecked), Move _ _ _ _ => true
  | (PodTokenInstruction.MintTo | PodTokenInstruction.MintToChecked), Issue _ _ => true
  | (PodTokenInstruction.Burn | PodTokenInstruction.BurnChecked), Destroy _ _ => true
  | PodTokenInstruction.TransferFeeExtension,
    (Move _ _ _ _ | Harvest _ | WithdrawFromMint _ | WithdrawFromAccount _ _) => true
  | PodTokenInstruction.ConfidentialTransferExtension, (Conceal _ _ | Reveal _ _) => true
  | _, _ => false
  end.

(** The other instructions leave the encrypted balances alone. *)
Lemma performed_in_sight t acts : t ≠ PodTokenInstruction.ConfidentialTransferExtension →
  forallb (performed_by t) acts = true → net_concealed acts = 0.
Proof.
  intros Ht. induction acts as [|a acts IH]; [done|]. cbn [forallb].
  intros [Ha Hacts]%andb_true_iff. unfold net_concealed in *. cbn [foldr]. rewrite IH by done.
  by destruct t, a.
Qed.

(** ** The instructions, with whatever accounts *)
Section instructions.
Context `{rt : Runtime}.
Implicit Types (w : world) (mk : Pubkey) (accounts : list AccountInfo).

(** What [t] did to the ledger is what [t] may do, and it took [n] tokens out of sight. *)
Definition performs mk (t : PodTokenInstruction) (n : Z) w w' : Prop :=
  ∃ acts, forallb (performed_by t) acts = true ∧ net_concealed acts = n ∧ refines mk acts w w'.

Lemma conserves_performs mk t w w' : conserves mk w w' → performs mk t 0 w w'.
Proof. intros H%conserves_refines. by exists []. Qed.

Lemma refines_performs mk t p acts w w' : t ≠ PodTokenInstruction.ConfidentialTransferExtension →
  (∀ a, p a = true → performed_by t a = true) →
  forallb p acts = true → refines mk acts w w' → performs mk t 0 w w'.
Proof.
  intros Ht Hp Ha H. assert (forallb (performed_by t) acts = true) as Ha'.
  { rewrite forallb_forall in Ha |- *. auto. }
  exists acts. split; [done|]. split; [by eapply performed_in_sight|done].
Qed.

Lemma transfer_any (rt_ok : runtime_ok rt) mk t pid accounts amt ti w w' : 0 ≤ amt →
  (∀ i j n fee, performed_by t (Move i j n fee) = true) →
  process_transfer pid accounts amt ti w = Ok w' → performs mk t 0 w w'.
Proof.
  intros Hamt Ht H.
  assert (∃ si mi di ai signers, accounts = transfer_accounts ti si mi di ai signers)
    as (si & mi & di & ai & signers & ->).
  { destruct ti, accounts as [|si [|a [|b [|c l]]]]; try discriminate H;
      try (by exists si, si, a, b; eexists); by exists si, a, b, c; eexists. }
  apply (process_transfer_refines mk) in H as (mint & fee & H); [|apply rt_ok|done].
  eexists. split; [|split; [|exact H]]; unfold transferred; repeat case_decide; cbn; by rewrite ?Ht.
Qed.

Lemma approve_any mk pid accounts amt v w w' : keys_ok accounts → in_uint 64 amt →
  process_approve pid accounts amt v w = Ok w' → conserves mk w w'.
Proof.
  intros Hk Hamt H.
  assert (∃ si mi di oi signers, accounts = approve_accounts v si mi di oi signers)
    as (si & mi & di & oi & signers & ->).
  { destruct v, accounts as [|si [|a [|b [|c l]]]]; try discriminate H;
      try (by exists si, si, a, b; eexists); by exists si, a, b, c; eexists. }
  refine (process_approve_conserves _ _ si mi di oi signers _ v _ _ _ Hamt H).
  apply Hk. destruct v; cbn [approve_accounts]; set_solver.
Qed.

Ltac three_accounts l H := destruct l as [|? [|? [|? ?]]]; [discriminate H..|].
Ltac two_accounts l H := destruct l as [|? [|? ?]]; [discriminate H..|].

Lemma mint_to_any mk t pid accounts amt v w w' :
  (∀ k n, performed_by t (Issue k n) = true) →
  process_mint_to pid accounts amt v w = Ok w' → performs mk t 0 w w'.
Proof.
  intros Ht H. three_accounts accounts H. apply (process_mint_to_refines mk) in H.
  eexists. split; [|split; [|exact H]]; case_decide; cbn; by rewrite ?Ht.
Qed.

Lemma burn_any mk t pid accounts amt v w w' :
  (∀ k n, performed_by t (Destroy k n) = true) →
  process_burn pid accounts amt v w = Ok w' → performs mk t 0 w w'.
Proof.
  intros Ht H. three_accounts accounts H. apply (process_burn_refines mk) in H.
  eexists. split; [|split; [|exact H]]; case_decide; cbn; by rewrite ?Ht.
Qed.

Lemma revoke_any mk pid accounts w w' :
  process_revoke pid accounts w = Ok w' → conserves mk w w'.
Proof. intros H. two_accounts accounts H. by eapply process_revoke_conserves. Qed.

Lemma toggle_freeze_any mk pid accounts freeze w w' :
  process_toggle_freeze_account pid accounts freeze w = Ok w' → conserves mk w w'.
Proof. intros H. three_accounts accounts H. by eapply process_toggle_freeze_conserves. Qed.

Lemma withdraw_excess_any mk pid accounts w w' :
  process_withdraw_excess_lamports pid accounts w = Ok w' → conserves mk w w'.
Proof. intros H. three_accounts accounts H. by eapply process_withdraw_excess_conserves. Qed.

Lemma set_authority_any mk pid accounts t o w w' : c_ok (coption_codec 32) o →
  process_set_authority pid accounts t o w = Ok w' → conserves mk w w'.
Proof. intros Ho H. two_accounts accounts H. by eapply process_set_authority_conserves. Qed.

Lemma sync_native_any mk accounts w w' :
  process_sync_native accounts w = Ok w' → solvent mk w → conserves mk w w'.
Proof.
  intros H. destruct accounts as [|ni rest]; [discriminate H|]. by eapply process_sync_native_conserves.
Qed.

Lemma close_account_any mk pid accounts w w' :
  process_close_account pid accounts w = Ok w' → solvent mk w → conserves mk w w'.
Proof. intros H. three_accounts accounts H. by eapply process_close_account_conserves. Qed.
End instructions.

(** ** The processors of the extensions *)
Section extension_instructions.
Context `{rt : Runtime}.
Hypothesis rt_ok : runtime_ok rt.
Implicit Types (w : world) (mk : Pubkey) (accounts : list AccountInfo) (input : list byte).

(** The instructions that run other programs: transfers, for their hook, and those that
    call the system program. *)
Definition calls_programs input : bool :=
  match decode_instruction_type PodTokenInstruction.try_from input with
  | Ok PodTokenInstruction.Transfer | Ok PodTokenInstruction.TransferChecked
  | Ok PodTokenInstruction.Reallocate | Ok PodTokenInstruction.CreateNativeMint => true
  | Ok PodTokenInstruction.TransferFeeExtension =>
      match unpack_transfer_fee_instruction (drop 1 input) with
      | Ok (TransferFeeTransferCheckedWithFee _ _ _) => true
      | _ => false
      end
  | Ok PodTokenInstruction.ConfidentialTransferExtension =>
      match decode_instruction_type confidential_transfer.instruction_try_from (drop 1 input) with
      | Ok (confidential_transfer.Transfer | confidential_transfer.TransferWithFee
           | confidential_transfer.ConfigureAccountWithRegistry) => true
      | _ => false
      end
  | _ => false
  end.

Lemma transfer_fee_instruction_performs mk pid accounts input w w' :
  (∀ i, unpack_transfer_fee_instruction input = Ok i →
     match i with TransferFeeTransferCheckedWithFee _ _ _ => True | _ => accepted w w' end) →
  process_transfer_fee_instruction pid accounts input w = Ok w' → solvent mk w →
  performs mk PodTokenInstruction.TransferFeeExtension 0 w w'.
Proof.
  intros Ha (i & Hi & ([] & _ & H)%bind_Ok)%bind_Ok Hsol. specialize (Ha i Hi).
  apply unpack_transfer_fee_instruction_ok in Hi. destruct i as [a1 a2 b m|amt d fee| |n| |b m].
  - destruct Hi as (H1 & H2 & H3 & H4). apply conserves_performs.
    exact (process_initialize_transfer_fee_config_conserves mk _ _ _ _ _ _ _ H1 H2 H3 H4
      (runtime_clock _ rt_ok) H).
  - destruct Hi as ([Hamt _] & _). by eapply (transfer_any rt_ok); [exact Hamt|..|exact H].
  - apply (process_withdraw_from_mint_refines mk) in H as (acts & Hacts & H); [|done].
    refine (refines_performs _ _ _ _ _ _ _ _ Hacts H); [done|by intros []].
  - apply (process_withdraw_from_accounts_refines mk) in H as (acts & Hacts & H); [|done].
    refine (refines_performs _ _ _ _ _ _ _ _ Hacts H); [done|by intros []].
  - apply (process_harvest_refines mk) in H as (acts & Hacts & H); [|done].
    refine (refines_performs _ _ _ _ _ _ _ _ Hacts H); [done|by intros []].
  - destruct Hi as [H1 H2]. apply conserves_performs.
    exact (process_set_transfer_fee_conserves mk _ _ _ _ _ _ H1 H2 (runtime_clock _ rt_ok) H).
Qed.

Lemma memo_instruction_conserves mk pid accounts input w w' :
  process_memo_transfer_instruction pid accounts input w = Ok w' → solvent mk w → conserves mk w w'.
Proof.
  intros ([] & _ & (i & _ & H)%bind_Ok)%bind_Ok.
  destruct i; [exact (toggle_conserves mk MemoToggle _ _ true _ _ H)|exact (toggle_conserves mk MemoToggle _ _ false _ _ H)].
Qed.

Lemma cpi_guard_instruction_conserves mk pid accounts input w w' :
  process_cpi_guard_instruction pid accounts input w = Ok w' → solvent mk w → conserves mk w w'.
Proof.
  intros ([] & _ & (i & _ & H)%bind_Ok)%bind_Ok.
  destruct i; [exact (toggle_conserves mk GuardToggle _ _ true _ _ H)|exact (toggle_conserves mk GuardToggle _ _ false _ _ H)].
Qed.

Lemma default_account_state_instruction_conserves mk pid accounts input w w' :
  process_default_account_state_instruction pid accounts input w = Ok w' → conserves mk w w'.
Proof.
  intros ([] & _ & ([i s] & _ & H)%bind_Ok)%bind_Ok. destruct i.
  - exact (init_conserves mk (InitializeDefaultStateOp s) pid accounts w w' H).
  - exact (update_conserves mk (UpdateDefaultStateOp s) pid accounts w w' H).
Qed.

Lemma metadata_pointer_instruction_conserves mk pid accounts input w w' :
  process_metadata_pointer_instruction pid accounts input w = Ok w' → conserves mk w w'.
Proof.
  intros ([] & _ & (i & _ & H)%bind_Ok)%bind_Ok. destruct i.
  - apply bind_Ok in H as ([a k] & _ & H).
    exact (init_conserves mk (InitializeMetadataPointerOp a k) pid accounts w w' H).
  - apply bind_Ok in H as (k & _ & H).
    exact (update_conserves mk (UpdateMetadataPointerOp k) pid accounts w w' H).
Qed.

Lemma group_pointer_instruction_conserves mk pid accounts input w w' :
  process_group_pointer_instruction pid accounts input w = Ok w' → conserves mk w w'.
Proof.
  intros ([] & _ & (i & _ & H)%bind_Ok)%bind_Ok. destruct i.
  - apply bind_Ok in H as ([a k] & _ & H).
    exact (init_conserves mk (InitializeGroupPointerOp a k) pid accounts w w' H).
  - apply bind_Ok in H as (k & _ & H).
    exact (update_conserves mk (UpdateGroupPointerOp k) pid accounts w w' H).
Qed.

Lemma group_member_pointer_instruction_conserves mk pid accounts input w w' :
  process_group_member_pointer_instruction pid accounts input w = Ok w' → conserves mk w w'.
Proof.
  intros ([] & _ & (i & _ & H)%bind_Ok)%bind_Ok. destruct i.
  - apply bind_Ok in H as ([a k] & _ & H).
    exact (init_conserves mk (InitializeGroupMemberPointerOp a k) pid accounts w w' H).
  - apply bind_Ok in H as (k & _ & H).
    exact (update_conserves mk (UpdateGroupMemberPointerOp k) pid accounts w w' H).
Qed.

Lemma transfer_hook_instruction_conserves mk pid accounts input w w' :
  process_transfer_hook_instruction pid accounts input w = Ok w' → conserves mk w w'.
Proof.
  intros ([] & _ & (i & _ & H)%bind_Ok)%bind_Ok. destruct i.
  - apply bind_Ok in H as ([a k] & _ & H).
    exact (init_conserves mk (InitializeTransferHookOp a k) pid accounts w w' H).
  - apply bind_Ok in H as (k & _ & H).
    exact (update_conserves mk (UpdateTransferHookOp k) pid accounts w w' H).
Qed.

Lemma pausable_instruction_conserves mk pid accounts input w w' :
  process_pausable_instruction pid accounts input w = Ok w' → conserves mk w w'.
Proof.
  intros ([] & _ & (i & _ & H)%bind_Ok)%bind_Ok. destruct i.
  - apply bind_Ok in H as (a & _ & H).
    exact (init_conserves mk (InitializePausableOp a) pid accounts w w' H).
  - exact (update_conserves mk (PauseOp true) pid accounts w w' H).
  - exact (update_conserves mk (PauseOp false) pid accounts w w' H).
Qed.

Lemma interest_bearing_instruction_conserves mk pid accounts input w w' :
  process_interest_bearing_instruction pid accounts input w = Ok w' → conserves mk w w'.
Proof.
  intros ([] & _ & (i & _ & H)%bind_Ok)%bind_Ok. destruct i.
  - apply bind_Ok in H as ([a r] & _ & H).
    exact (init_conserves mk (InitializeInterestBearingOp a r) pid accounts w w' H).
  - apply bind_Ok in H as (r & _ & H).
    exact (update_conserves mk (UpdateRateOp r) pid accounts w w' H).
Qed.

Lemma scaled_ui_amount_instruction_conserves mk pid accounts input w w' :
  process_scaled_ui_amount_instruction pid accounts input w = Ok w' → conserves mk w w'.
Proof.
  intros ([] & _ & (i & _ & H)%bind_Ok)%bind_Ok. destruct i.
  - apply bind_Ok in H as ([a m] & _ & H).
    exact (init_conserves mk (InitializeScaledUiAmountOp a m) pid accounts w w' H).
  - apply bind_Ok in H as ([m t] & _ & H).
    exact (update_conserves mk (UpdateMultiplierOp m t) pid accounts w w' H).
Qed.
End extension_instructions.

(** ** The machine *)
Section machine.
Context `{rt : Runtime} `{sp : !SystemProgram} `{fl : F64} `{curve : Curve} `{zk : !ZkSdk}.
Context `{metadata_if : token_metadata.MetadataInterface} `{group_if : token_group.GroupInterface}.
Context `{!VariableLenPackLaws token_metadata.TokenMetadata}.
Implicit Types (w : world) (mk : Pubkey) (accounts : list AccountInfo) (input : list byte).

(** The actions that [input] may perform; those of the interfaces perform none. *)
Definition permitted input (a : action) : bool :=
  match decode_instruction_type PodTokenInstruction.try_from input with
  | Ok t => performed_by t a
  | _ => false
  end.

(** The tokens of the mint [mk] that the instruction takes out of sight. *)
Definition hides mk accounts input : Z :=
  match decode_instruction_type PodTokenInstruction.try_from input with
  | Ok PodTokenInstruction.ConfidentialTransferExtension => concealed mk accounts (drop 1 input)
  | _ => 0
  end.

Lemma process_performs mk accounts input t w w' : runtime_ok rt →
  mk ≠ native_mint.id → keys_ok accounts →
  decode_instruction_type PodTokenInstruction.try_from input = Ok t →
  (calls_programs input = false → accepted w w') →
  process id accounts input w = Ok w' →
  solvent mk w → performs mk t (hides mk accounts input) w w'.
Proof.
  intros Hrt Hmk Hkeys Ht Hacc H Hsol. unfold process in H. unfold hides. rewrite Ht in H |- *.
  pose proof (runtime_crypto _ Hrt) as Hcrypto. destruct t.
  - apply bind_Ok in H as ([[d a] o] & [[Hd Ha] Ho]%decode_coption_ok & H).
    apply conserves_performs. exact (process_initialize_mint_conserves mk _ d a o _ w w' Hd Ha Ho H Hsol).
  - apply conserves_performs.
    by refine (process_initialize_account_conserves mk _ None _ w w' Hmk (runtime_rent _ Hrt) Hkeys _ H Hsol).
  - apply bind_Ok in H as (m & _ & H). apply conserves_performs.
    by eapply process_initialize_multisig_conserves.
  - apply bind_Ok in H as (amt & [Hamt _]%decode_instruction_data_ok & H). 
    by eapply (transfer_any Hrt); [exact Hamt|..|exact H].
  - apply bind_Ok in H as (amt & Hamt%decode_instruction_data_ok & H). apply conserves_performs.
    exact (approve_any mk _ _ _ _ _ _ Hkeys Hamt H).
  - apply conserves_performs. by eapply revoke_any.
  - apply bind_Ok in H as ([at' o] & [_ Ho]%decode_coption_ok & (t & _ & H)%bind_Ok).
    apply conserves_performs. exact (set_authority_any mk _ _ _ _ _ _ Ho H).
  - apply bind_Ok in H as (amt & _ & H). by eapply mint_to_any.
  - apply bind_Ok in H as (amt & _ & H). by eapply burn_any.
  - apply conserves_performs. by eapply close_account_any.
  - apply conserves_performs. by eapply toggle_freeze_any.
  - apply conserves_performs. by eapply toggle_freeze_any.
  - apply bind_Ok in H as ([amt d] & [[Hamt _] _]%decode_instruction_data_ok & H).
    by eapply (transfer_any Hrt); [exact Hamt|..|exact H].
  - apply bind_Ok in H as ([amt d] & [Hamt _]%decode_instruction_data_ok & H).
    apply conserves_performs. exact (approve_any mk _ _ _ _ _ _ Hkeys Hamt H).
  - apply bind_Ok in H as ([amt d] & _ & H). by eapply mint_to_any.
  - apply bind_Ok in H as ([amt d] & _ & H). by eapply burn_any.
  - apply bind_Ok in H as (o & Ho%decode_instruction_data_ok & H).
    apply conserves_performs.
    refine (process_initialize_account_conserves mk _ (Some o) _ w w' Hmk (runtime_rent _ Hrt) Hkeys _ H Hsol).
    by intros k [= <-].
  - apply conserves_performs. by eapply sync_native_any.
  - apply bind_Ok in H as (o & Ho%decode_instruction_data_ok & H).
    apply conserves_performs.
    refine (process_initialize_account_conserves mk _ (Some o) _ w w' Hmk (runtime_rent _ Hrt) Hkeys _ H Hsol).
    by intros k [= <-].
  - apply bind_Ok in H as (m & _ & H). apply conserves_performs.
    by eapply process_initialize_multisig_conserves.
  - apply bind_Ok in H as ([[d a] o] & [[Hd Ha] Ho]%decode_coption_ok & H).
    apply conserves_performs. exact (process_initialize_mint_conserves mk _ d a o _ w w' Hd Ha Ho H Hsol).
  - apply bind_Ok in H as (ts & _ & H). apply conserves_performs.
    by eapply process_get_account_data_size_conserves.
  - apply conserves_performs. by eapply process_initialize_immutable_owner_conserves.
  - apply bind_Ok in H as (amt & _ & H). apply conserves_performs, conserves_accts.
    by eapply process_amount_to_ui_amount_accounts.
  - apply bind_Ok in H as (s & _ & H). apply conserves_performs, conserves_accts.
    by eapply process_ui_amount_to_amount_accounts.
  - apply bind_Ok in H as ([[] o] & _ & H). apply conserves_performs.
    by eapply process_initialize_mint_close_authority_conserves.
  - eapply transfer_fee_instruction_performs; [exact Hrt| |exact H|exact Hsol].
    intros i Hi. unfold calls_programs in Hacc. rewrite Ht, Hi in Hacc. by destruct i; try apply Hacc.
  - apply (process_instruction_conceals mk) in H as (acts & Ha & Hn & Hr); [|done|apply Hrt|done].
    exists acts. split; [|done]. rewrite forallb_forall in Ha |- *. intros a Hin.
    specialize (Ha a Hin). by destruct a.
  - apply conserves_performs. by eapply default_account_state_instruction_conserves.
  - apply bind_Ok in H as (ts & _ & H).
    apply conserves_performs. exact (process_reallocate_conserves mk _ _ _ _ _ (runtime_rent _ Hrt) H Hsol).
  - apply conserves_performs. by eapply memo_instruction_conserves.
  - apply conserves_performs. by eapply process_create_native_mint_conserves.
  - apply conserves_performs. by eapply process_initialize_non_transferable_mint_conserves.
  - apply conserves_performs. by eapply interest_bearing_instruction_conserves.
  - apply conserves_performs. by eapply cpi_guard_instruction_conserves.
  - apply bind_Ok in H as (k & _ & H). apply conserves_performs.
    by eapply process_initialize_permanent_delegate_conserves.
  - apply conserves_performs. by eapply transfer_hook_instruction_conserves.
  - apply conserves_performs. by eapply fee_instruction_conserves.
  - apply conserves_performs. by eapply withdraw_excess_any.
  - apply conserves_performs. by eapply metadata_pointer_instruction_conserves.
  - apply conserves_performs. by eapply group_pointer_instruction_conserves.
  - apply conserves_performs. by eapply group_member_pointer_instruction_conserves.
  - apply conserves_performs. by eapply mint_burn_instruction_conserves.
  - apply conserves_performs. by eapply scaled_ui_amount_instruction_conserves.
  - apply conserves_performs. by eapply pausable_instruction_conserves.
Qed.

(** The instructions of the metadata and group interfaces. *)
Lemma process_interface_conserves mk pid accounts input w w' :
  (∀ t, decode_instruction_type PodTokenInstruction.try_from input ≠ Ok t) →
  process pid accounts input w = Ok w' → solvent mk w → conserves mk w w'.
Proof.
  intros Hd H. unfold process in H.
  assert (match token_metadata.metadata_instruction_unpack input with
    | Some i => token_metadata.process_instruction pid accounts i w
    | None =>
        match token_group.group_instruction_unpack input with
        | Some i => token_group.process_instruction accounts i w
        | None => Err (tok InvalidInstruction)
        end
    end = Ok w') as H'.
  { destruct (decode_instruction_type _ input) as [t| |]; [by destruct (Hd t)|exact H..]. }
  clear H. destruct (token_metadata.metadata_instruction_unpack input) as [i|];
    [by eapply metadata_conserves|].
  destruct (token_group.group_instruction_unpack input) as [i|]; [by eapply group_conserves|done].
Qed.

(** Every instruction performs actions it may perform, and takes out of sight what it
    says. *)
Lemma process_permitted mk accounts input w w' : runtime_ok rt →
  mk ≠ native_mint.id → keys_ok accounts →
  (calls_programs input = false → accepted w w') →
  process id accounts input w = Ok w' → solvent mk w →
  ∃ acts, forallb (permitted input) acts = true ∧ net_concealed acts = hides mk accounts input ∧
    refines mk acts w w'.
Proof.
  intros Hrt Hmk Hk Hacc H Hsol.
  destruct (decode_instruction_type PodTokenInstruction.try_from input) as [t| |] eqn:Ht.
  1: { unfold permitted. rewrite Ht. exact (process_performs mk _ _ t _ _ Hrt Hmk Hk Ht Hacc H Hsol). }
  all: exists []; unfold hides; rewrite Ht; do 2 (split; [done|]).
  all: apply conserves_refines; eapply process_interface_conserves; [|exact H|exact Hsol].
  all: intros t; by rewrite Ht.
Qed.

(** What happens: an instruction the runtime accepts, or other programs at work. *)
Inductive event := Instruction accounts input | OtherPrograms.

Inductive step : event → world → world → Prop :=
| step_instruction w w' accounts input :
    keys_ok accounts →
    (calls_programs input = false → accepted w w') →
    process id accounts input w = Ok w' →
    step (Instruction accounts input) w w'
| step_other w w' : foreign_step w w' → step OtherPrograms w w'.

(** Everything that happened between two worlds, the latest first. *)
Inductive trace : list event → world → world → Prop :=
| trace_nil w : trace [] w w
| trace_cons e events w0 w w' : trace events w0 w → step e w w' → trace (e :: events) w0 w'.

(** The tokens in encrypted balances, as the instructions put them there. *)
Definition hidden_by mk (e : event) : Z :=
  match e with Instruction accounts input => hides mk accounts input | OtherPrograms => 0 end.
Definition hidden mk (events : list event) : Z := foldr (λ e n, hidden_by mk e + n) 0 events.

(** At no time more was taken out of encrypted balances than had been put in. *)
Fixpoint covered mk (events : list event) : Prop :=
  match events with
  | [] => True
  | e :: events' => 0 ≤ hidden mk events ∧ covered mk events'
  end.

Lemma step_refines mk e w w' : runtime_ok rt → mk ≠ native_mint.id →
  step e w w' → solvent mk w → ∃ acts, net_concealed acts = hidden_by mk e ∧ refines mk acts w w'.
Proof.
  intros Hrt Hmk [? ? accounts input Hk Hacc H|? ? H] Hsol.
  - destruct (process_permitted mk _ _ _ _ Hrt Hmk Hk Hacc H Hsol) as (acts & _ & Hn & Ha).
    by exists acts.
  - exists []. split; [done|]. by apply conserves_refines, conserves_foreign.
Qed.

(** Before the program owns an account there are no tokens. *)
Lemma genesis_ledger mk w : (∀ k, owner (get_account w k) ≠ id) → ledger_of mk w ≡ no_ledger.
Proof. intros Hg. split; [|intros k]; by apply not_ours. Qed.

Lemma genesis_total mk w : (∀ k, owner (get_account w k) ≠ id) → total mk w = issued mk w.
Proof.
  intros Hg. set (w0 := mkWorld ∅ []).
  destruct (foreign_not_ours empty_account 0 eq_refl) as (E1 & E2 & _).
  assert (∀ k, get_account w0 k = empty_account) as He
    by (intros k; unfold get_account; cbn [accts w0]; by rewrite lookup_empty).
  assert (conserves mk w0 w) as Hc%conserves_refines%refines_balance.
  { split; [|intros _ k; by apply not_ours]. rewrite (genesis_ledger mk w Hg).
    split; [|intros k]; cbn [ledger_of shares issue no_ledger]; by rewrite He, ?E1, ?E2. }
  assert (issued mk w0 = 0 ∧ issued mk w = 0) as [H1 H2].
  { unfold issued. rewrite !issued_in_issue, He, E2.
    by destruct (not_ours _ (Hg mk)) as (_ & -> & _). }
  assert (total mk w0 = 0) by done. cbn [net_concealed foldr] in Hc. lia.
Qed.

Lemma genesis_solvent mk w : (∀ k, owner (get_account w k) ≠ id) → solvent mk w.
Proof.
  intros Hg. split; [rewrite (genesis_total mk w Hg); lia|intros k; by apply not_ours].
Qed.

(** All that happened before. *)
Lemma trace_history mk events w0 w : runtime_ok rt → mk ≠ native_mint.id →
  (∀ k, owner (get_account w0 k) ≠ id) → trace events w0 w → covered mk events →
  total mk w - issued mk w = - hidden mk events ∧ solvent mk w ∧
  ∃ acts, net_concealed acts = hidden mk events ∧ run acts no_ledger ≡ Some (ledger_of mk w).
Proof.
  intros Hrt Hmk Hg H. unfold hidden. induction H as [w|e events w0 w w' _ IH Hs]; intros Hcov.
  - pose proof (genesis_ledger mk w Hg) as Hl. split; [|split; [by apply genesis_solvent|]].
    + pose proof (genesis_total mk w Hg). cbn. lia.
    + exists []. split; [done|]. constructor. by symmetry.
  - destruct Hcov as [Hc Hcov]. unfold hidden in Hc. cbn [foldr] in Hc |- *.
    destruct (IH Hg Hcov) as (Hd & Hsol & acts & Ha & Hrun).
    destruct (step_refines mk e _ _ Hrt Hmk Hs Hsol) as (acts' & Ha' & Hr).
    pose proof (refines_balance _ _ _ _ Hr) as Hb. rewrite Ha' in Hb. split; [lia|]. split.
    + split; [lia|]. apply Hr, Hsol.
    + exists (acts ++ acts'). rewrite net_concealed_app. split; [lia|].
      eapply run_trans; [exact Hrun|apply Hr].
Qed.

Lemma reachable_solvent mk events w0 w : runtime_ok rt → mk ≠ native_mint.id →
  (∀ k, owner (get_account w0 k) ≠ id) → trace events w0 w → covered mk events → solvent mk w.
Proof. intros. by eapply trace_history. Qed.

(** C2: the program implements the ledger of [LedgerSpec].  Every world it reaches shows
    the ledger that some history of actions leads to from the empty one, the supply being
    what was issued less what was destroyed; and a further instruction performs actions of its own kind only: tokens are issued only by
    [MintTo], destroyed only by [Burn], moved only by transfers, withheld fees are
    collected only by the transfer fee instructions, and tokens go into encrypted
    balances and come back only by confidential deposits and withdrawals, in the amounts
    these name.  The instructions of the metadata and group interfaces perform none. *)
Theorem program_refines_ledger mk events w0 w : runtime_ok rt → mk ≠ native_mint.id →
  (∀ k, owner (get_account w0 k) ≠ id) → trace events w0 w → covered mk events →
  (∃ history, run history no_ledger ≡ Some (ledger_of mk w) ∧
     net_concealed history = hidden mk events ∧
     (issue (ledger_of mk w)).1 = net_supply history) ∧
  ∀ accounts input w', keys_ok accounts →
    (calls_programs input = false → accepted w w') →
    process id accounts input w = Ok w' →
    ∃ acts, forallb (permitted input) acts = true ∧ net_concealed acts = hides mk accounts input ∧
      run acts (ledger_of mk w) ≡ Some (ledger_of mk w').
Proof.
  intros Hrt Hmk Hg H Hcov.
  destruct (trace_history mk events w0 w Hrt Hmk Hg H Hcov) as (_ & Hsol & history & Hn & Hh).
  split; [exists history; split_and!; try done; exact (run_supply _ _ _ Hh)|].
  intros accounts input w' Hk Hacc Hp.
  destruct (process_permitted mk _ _ _ _ Hrt Hmk Hk Hacc Hp Hsol) as (acts & Ha & Hc & [Hr _]).
  by exists acts.
Qed.

(** C1: in every world that instructions of the program and other programs can
    lead to, the tokens of a mint in all token accounts, with the fees withheld in
    them and on the mint, and with the tokens that deposits put into encrypted balances
    and withdrawals did not take out again, are exactly its supply; no account
    holds more.  Without confidential deposits the tokens in sight are the supply. *)
Theorem supply_is_exact mk events w0 w m : runtime_ok rt → mk ≠ native_mint.id →
  (∀ k, owner (get_account w0 k) ≠ id) → trace events w0 w → covered mk events →
  mint_at w mk = Some m → owner (get_account w mk) = id →
  total mk w + mint_withheld m + hidden mk events = supply (base m) ∧
  ∀ k, holding_in mk (get_account w k) ≤ supply (base m).
Proof.
  intros Hrt Hmk Hg H Hcov Hm%mint_at_Some Ho.
  destruct (trace_history mk events w0 w Hrt Hmk Hg H Hcov) as (Hd & [Ht _] & _).
  assert (issued mk w = supply (base m) - mint_withheld m) as Hi.
  { unfold issued, issued_in. by rewrite Ho, Z.eqb_refl, Hm. }
  split; [lia|]. intros k. pose proof (total_nonneg mk w k).
  assert (0 ≤ mint_withheld m); [|lia]. unfold mint_withheld.
  destruct (get_mint_ext TransferFeeConfig (tlv_data m)) as [c| |] eqn:Hc; [|done..].
  by apply get_extension_ok in Hc as (_ & _ & (Hc & _) & _).
Qed.
End machine.

(** ** Deciding what the runtime allows, on worlds with finitely many accounts *)
Section decide.
Context `{rt : Runtime}.
Implicit Types (w : world).

Definition all_keys w w' : list Pubkey := (map_to_list (accts w)).*1 ++ (map_to_list (accts w')).*1.

Lemma not_all_keys w w' k : k ∉ all_keys w w' →
  get_account w k = empty_account ∧ get_account w' k = empty_account.
Proof.
  intros H.
  assert (∀ acs : gmap Pubkey SolAccount, k ∉ (map_to_list acs).*1 → acs !! k = None) as Hl.
  { intros acs Hk. destruct (acs !! k) as [a|] eqn:E; [|done]. destruct Hk.
    apply list_elem_of_fmap. exists (k, a). split; [done|]. by apply elem_of_map_to_list. }
  unfold all_keys in H. apply not_elem_of_app in H as [H1%Hl H2%Hl].
  unfold get_account. by rewrite H1, H2.
Qed.

Definition acceptedb w w' : bool :=
  forallb (λ k, bool_decide (data (get_account w' k) = data (get_account w k)) ||
                (owner (get_account w k) =? id)) (all_keys w w').

Lemma acceptedb_ok w w' : acceptedb w w' = true → accepted w w'.
Proof.
  intros H k Hne. destruct (decide (k ∈ all_keys w w')) as [Hk|Hk].
  - unfold acceptedb in H. rewrite forallb_forall in H.
    apply list_elem_of_In, H in Hk. apply orb_true_iff in Hk as [Hk|Hk].
    + by apply bool_decide_eq_true in Hk.
    + by apply Z.eqb_eq.
  - destruct Hne. by destruct (not_all_keys _ _ _ Hk) as [-> ->].
Qed.

Definition foreign_stepb w w' : bool :=
  forallb (λ k, let a := get_account w k in let a' := get_account w' k in
    if owner a =? id then (owner a' =? id) && bool_decide (data a' = data a)
    else negb (owner a' =? id) || bool_decide (data a' = zeros (length (data a'))))
    (all_keys w w').

Lemma foreign_stepb_ok w w' : foreign_stepb w w' = true → foreign_step w w'.
Proof.
  intros H k. cbn zeta. destruct (decide (k ∈ all_keys w w')) as [Hk|Hk].
  - unfold foreign_stepb in H. rewrite forallb_forall in H.
    apply list_elem_of_In, H in Hk. destruct (Z.eqb_spec (owner (get_account w k)) id) as [E|E].
    + apply andb_true_iff in Hk as [Hk1%Z.eqb_eq Hk2%bool_decide_eq_true]. by split.
    + split; [done|]. intros _ Ho. rewrite Ho, Z.eqb_refl in Hk.
      apply bool_decide_eq_true in Hk. by eexists.
  - destruct (not_all_keys _ _ _ Hk) as [-> ->]. split; [done|]. by intros ? ?.
Qed.
End decide.
