(* ===== verification/Liveness.v ===== *)
(** * Payments go through

    In a world that the program reaches, the owner of an account can always
    send tokens it has to another account: nothing overflows, because all tokens
    of the mint are within its supply, and no other check is left. *)
From stdpp Require Import relations.
From S2P Require Import Prelude Codec Errors Runtime Pod State ExtensionType ExtensionData Tlv.
From S2P Require Import TlvFacts TlvAlloc StateExt Fee Authority Transfer AccountFacts.
From S2P Require Import TransferFacts Instruction InstructionFacts InitOps Unborn Ledger LedgerFacts.
From S2P Require Import SystemOps UiAmountOps CiphertextOps ProofExtraction AccountAlloc.
From S2P Require Import InterfaceOps Processor Machine.

Section payment.
Context `{rt : Runtime}.
Implicit Types (w : world) (s d : PodStateMut PodAccount) (m : PodStateMut PodMint).

(** What [amt] tokens need to move from [s] to [d], whoever allows it: both accounts are of
    the mint and thawed, the mint is not paused, has no hook and sound fees, and a memo is
    there if asked for. *)
Record movable w (si mi di : AccountInfo) s d m (amt decimals : Z) : Prop := {
  pay_source : account_at w (key si) = Some s ∧ info_owner w si = id;
  pay_destination : account_at w (key di) = Some d ∧ info_owner w di = id;
  pay_mint : mint_at w (key mi) = Some m ∧ info_owner w mi = id;
  pay_distinct : key si ≠ key di;
  pay_same_mint : acc_mint (base s) = key mi ∧ acc_mint (base d) = key mi;
  pay_thawed : is_frozen (base s) = false ∧ is_frozen (base d) = false;
  pay_transferable : is_ok (get_account_ext NonTransferableAccount (tlv_data s)) = false;
  pay_running : ∀ e, get_mint_ext PausableConfig (tlv_data m) = Ok e → pod_bool (pc_paused e) = false;
  pay_hook : get_program_id PodMint (tlv_data m) = None;
  pay_memo : (if memo_required PodAccount (tlv_data d)
    then check_previous_sibling_instruction_is_memo else Ok tt) = Ok tt;
  pay_confidential : ∀ c, get_account_ext ConfidentialTransferAccount (tlv_data d) = Ok c →
    pod_bool (cta_allow_non_confidential_credits c) = true;
  pay_decimals : Pod.decimals (base m) = decimals;
  pay_amount : 0 ≤ amt ≤ amount (base s);
  pay_fees : ∀ c, get_mint_ext TransferFeeConfig (tlv_data m) = Ok c →
    fee_ok (tfc_older_transfer_fee c) ∧ fee_ok (tfc_newer_transfer_fee c) ∧
    is_ok (get_account_ext TransferFeeAmount (tlv_data d)) = true;
}.

(** A payment: the tokens can move, and the owner of [s] signs. *)
Record payment w (si mi di ai : AccountInfo) s d m (amt decimals : Z) : Prop := {
  pay_movable : movable w si mi di s d m amt decimals;
  pay_guard : cpi_guard_blocks s ai = false;
  pay_owner : acc_owner (base s) = key ai ∧ is_signer ai = true ∧
    data_len w ai ≠ PodMultisig_SIZE_OF ∧ co_get (delegate (base s)) ≠ Some (key ai);
}.

(** ** No overflow *)
Lemma two_holdings mk w k1 k2 : k1 ≠ k2 →
  holding_in mk (get_account w k1) + holding_in mk (get_account w k2) ≤ total mk w.
Proof.
  intros Hk. pose proof (total_set_account mk w k1 empty_account) as Ht.
  rewrite holding_in_empty in Ht.
  pose proof (total_nonneg mk (set_account w k1 empty_account) k2) as Hn.
  rewrite get_set_account, decide_False in Hn by done. lia.
Qed.

Lemma holdings_bounded mk w si di s d m : solvent mk w → mint_at w mk = Some m →
  account_at w (key si) = Some s → info_owner w si = id →
  account_at w (key di) = Some d → info_owner w di = id → key si ≠ key di →
  acc_mint (base s) = mk → acc_mint (base d) = mk → owner (get_account w mk) = id →
  holding s + holding d < 2 ^ 64.
Proof.
  intros [Ht _] Hm Hs Hso Hd Hdo Hk Hsm Hdm Ho.
  pose proof (two_holdings mk w _ _ Hk) as H2.
  rewrite (holding_in_account mk w _ s), (holding_in_account mk w _ d) in H2 by done.
  unfold part in H2. rewrite Hsm, Hdm, Z.eqb_refl, Ht in H2.
  pose proof (mint_at_ok _ _ _ Hm) as Hok. apply mint_at_Some in Hm.
  unfold issued, issued_in in H2. rewrite Ho, Z.eqb_refl, Hm in H2. unfold issued_by in H2.
  destruct (proj1 (PodMint_ok _) (state_base_ok _ _ Hok)) as (_ & [_ Hsup] & _).
  assert (0 ≤ mint_withheld m); [|lia]. unfold mint_withheld.
  destruct (get_mint_ext TransferFeeConfig (tlv_data m)) as [c| |] eqn:Hc; [|done..].
  by apply get_extension_ok in Hc as (_ & _ & (Hc & _) & _).
Qed.

Lemma transfer_credit_succeeds d amt fee : state_ok PodAccount d → 0 ≤ fee ≤ amt →
  holding d + amt < 2 ^ 64 →
  (0 < fee → is_ok (get_account_ext TransferFeeAmount (tlv_data d)) = true) →
  is_ok (transfer_credit d amt fee) = true.
Proof.
  intros Hok Hfee Hb He. unfold holding in Hb. pose proof (withheld_ok d) as Hw.
  destruct (proj1 (PodAccount_ok _) (state_base_ok _ _ Hok)) as (_ & _ & [Ha _] & _).
  unfold transfer_credit, checked_sub, checked_add.
  rewrite to_uint_in by (unfold in_uint; lia). cbn [ok_or]. rewrite Ok_bind.
  rewrite to_uint_in by (unfold in_uint; lia). cbn [ok_or]. rewrite Ok_bind.
  destruct (Z.ltb_spec 0 fee); [|done]. cbv zeta. cbn [tlv_data with_base].
  unfold withheld in Hb, Hw.
  destruct (get_account_ext TransferFeeAmount (tlv_data d)) as [e| |];
    [|discriminate (He H)..].
  by rewrite to_uint_in by (unfold in_uint; lia).
Qed.

Lemma borrow_free held w i : key i ∉ held → borrow held w i = Ok (info_data w i).
Proof. intros H. unfold borrow. by rewrite bool_decide_false. Qed.

(** ** The checks, one after the other *)
Section checks.
Context w si mi di (ai : AccountInfo) s d m amt dec (Hp : movable w si mi di s d m amt dec).

Lemma payment_mint : ∀ clk, clock_get = Ok clk → in_uint 64 amt → key si ≠ key mi →
  ∃ fee, transfer_mint [key si] w s (Some (mi, dec)) amt =
      Ok (fee, get_permanent_delegate PodMint (tlv_data m), None) ∧
    0 ≤ fee ≤ amt ∧
    (0 < fee → is_ok (get_account_ext TransferFeeAmount (tlv_data d)) = true) ∧
    fee = match get_mint_ext TransferFeeConfig (tlv_data m) with
          | Ok c => fee_of (get_epoch_fee c (epoch clk)) amt
          | _ => 0
          end.
Proof using Hp.
  intros clk Hclk Hamt Hk. destruct Hp. unfold transfer_mint.
  rewrite (proj1 pay_same_mint0), Z.eqb_refl. cbn [negb throw_if]. rewrite Ok_bind.
  unfold try_borrow_data. rewrite bool_decide_false by (intros ?%list_elem_of_singleton; congruence). rewrite Ok_bind.
  assert (unpack_ref PodMint (info_data w mi) = Ok (mkRef (base m) (tlv_data m))) as ->.
  { apply unpack_ref_Ok. exists m. split; [|done]. exact (proj1 (mint_at_Some _ _ _) (proj1 pay_mint0)). }
  rewrite Ok_bind. cbn [ref_base ref_tlv]. rewrite pay_decimals0, Z.eqb_refl.
  cbn [negb throw_if]. rewrite Ok_bind, pay_hook0.
  assert (∀ r, (match get_mint_ext PausableConfig (tlv_data m) with
    | Ok e => throw_if (pod_bool (pc_paused e)) (tok MintPaused)
    | _ => Ok tt end ;; Ok r : res (Z * option Pubkey * option Pubkey)) = Ok r) as Hpause.
  { intros r. destruct (get_mint_ext PausableConfig (tlv_data m)) as [e| |]; [|done..].
    by rewrite (pay_running0 e eq_refl). }
  destruct (get_mint_ext TransferFeeConfig (tlv_data m)) as [c| |];
    rewrite ?Hclk, ?Ok_bind, ?Hpause; 
    [|exists 0; split; [done|]; split; [lia|]; by split; [lia|]..].
  destruct (pay_fees0 c eq_refl) as (F1 & F2 & F3). unfold calculate_epoch_fee.
  assert (fee_ok (get_epoch_fee c (epoch clk))) as Hf by (unfold get_epoch_fee; by destruct (_ <=? _)).
  rewrite calculate_fee_eq by done. cbn [ok_or]. rewrite Ok_bind, Hpause.
  eexists _. split; [done|]. split; [|done].
  destruct Hamt. split; [by apply fee_of_nonneg|by apply fee_of_le].
Qed.

Lemma owner_authority pid pd signers : acc_owner (base s) = key ai → is_signer ai = true →
  data_len w ai ≠ PodMultisig_SIZE_OF → co_get (delegate (base s)) ≠ Some (key ai) →
  transfer_authority [key si] w pid (base s) pd false amt ai (data_len w ai) signers = Ok (base s).
Proof.
  intros Ho Hs Hl Hd.
  assert (validate_owner [key si] w pid (key ai) ai (data_len w ai) signers = Ok tt) as Hv
    by by apply validate_owner_single.
  unfold transfer_authority. case_bool_decide; [by rewrite Hv|].
  rewrite bool_decide_false by done. by rewrite Ho, Hv.
Qed.

(** What an authority changes of the source is not what the checks are about. *)
Lemma transfer_authority_same held pid pd signers a :
  transfer_authority held w pid (base s) pd false amt ai (data_len w ai) signers = Ok a →
  amount a = amount (base s) ∧ acc_mint a = acc_mint (base s) ∧
  is_native a = is_native (base s).
Proof.
  unfold transfer_authority. repeat case_bool_decide.
  - by intros (u & _ & [= <-])%bind_Ok.
  - intros (u & _ & (u' & _ & Ha)%bind_Ok)%bind_Ok. unfold spend_allowance in Ha.
    apply bind_Ok in Ha as (x & _ & [= <-]). by case_match.
  - by intros (u & _ & [= <-])%bind_Ok.
Qed.

Lemma payment_checks a : acc_mint a = acc_mint (base s) →
  transfer_source_checks s amt = Ok tt ∧ transfer_destination_checks (with_base a s) d = Ok tt.
Proof using Hp.
  intros Ha. destruct Hp. cbn [base with_base]. unfold transfer_source_checks, transfer_destination_checks.
  cbn [base with_base]. rewrite Ha.
  destruct pay_thawed0 as [-> ->], pay_same_mint0 as [-> ->].
  rewrite (proj2 (Z.ltb_ge _ _)), Z.eqb_refl, pay_transferable0 by lia.
  split; [done|]. cbn [throw_if negb]. rewrite !Ok_bind, pay_memo0, Ok_bind.
  destruct (get_account_ext ConfidentialTransferAccount (tlv_data d)) as [c| |]; [|done..].
  unfold non_confidential_transfer_allowed. by rewrite (pay_confidential0 c eq_refl).
Qed.

Lemma transfer_succeeds pid clk signers a : clock_get = Ok clk →
  check_program_account id = Ok tt → solvent (key mi) w → key mi ≠ native_mint.id →
  cpi_guard_blocks s ai = false →
  transfer_authority [key si] w pid (base s) (get_permanent_delegate PodMint (tlv_data m)) false amt ai
    (data_len w ai) signers = Ok a →
  ∃ d', account_type d' = account_type d ∧ state_ok PodAccount d' ∧
    let fee := match get_mint_ext TransferFeeConfig (tlv_data m) with
               | Ok c => fee_of (get_epoch_fee c (epoch clk)) amt
               | _ => 0
               end in
    base d' = set_amount (amount (base d) + (amt - fee)) (base d) ∧
    withheld d' = withheld d + fee ∧
    process_transfer pid (transfer_accounts (TransferChecked dec) si mi di ai signers) amt
      (TransferChecked dec) w =
    Ok (write_account (write_account w si
          (with_base (set_amount (amount (base s) - amt) a) s)) di d').
Proof using Hp.
  intros Hclk Hid Hsol Hnat Hguard Hau.
  destruct (transfer_authority_same _ _ _ _ _ Hau) as (Haa & Ham & Han). pose proof Hp as []. destruct pay_source0 as [Hs Hso],
    pay_destination0 as [Hd Hdo], pay_mint0 as [Hm Hmo], pay_same_mint0 as [Hsm Hdm].
  pose proof (account_at_ok _ _ _ Hs) as Hsok. pose proof (account_at_ok _ _ _ Hd) as Hdok.
  destruct (proj1 (PodAccount_ok _) (state_base_ok _ _ Hsok)) as (_ & _ & [_ Hmax] & _).
  assert (in_uint 64 amt) as Hamt by (unfold in_uint; lia).
  assert (key si ≠ key mi) as Hk.
  { intros E. apply account_at_Some in Hs. apply mint_at_Some in Hm. rewrite <-E in Hm.
    by apply (unpack_account_not_mint _ _ Hs) in Hm. }
  destruct (payment_mint clk Hclk Hamt Hk) as (fee & Hmint & Hfee & He & Hfd).
  destruct (payment_checks a Ham) as [Hsc Hdc].
  assert (is_native (base s) = false) as Hn.
  { destruct (proj2 Hsol (key si) Hso) as (Ht & _). apply (Ht s); [by apply account_at_Some|done]. }
  assert (holding s + holding d < 2 ^ 64) as Hb by by eapply holdings_bounded.
  pose proof (transfer_credit_succeeds d amt fee Hdok Hfee) as Hcr.
  destruct (transfer_credit d amt fee) as [d'| |] eqn:Ecr;
    [|discriminate Hcr; [unfold holding in *; pose proof (withheld_ok s); lia|done]..].
  pose proof (transfer_credit_Ok _ _ _ _ Hdok (proj1 Hfee) Ecr) as (Hd'ok & _ & Hbd & Hwd & Htd).
  exists d'. split; [done|]. split; [done|]. cbv zeta. rewrite <-Hfd. split; [done|]. split; [done|].
  unfold process_transfer.
  repeat (cbn [transfer_accounts transfer_expected_mint next_account_info]; rewrite Ok_bind).
  cbv zeta. rewrite (borrow_free [] w si) by apply not_elem_of_nil. rewrite Ok_bind. apply account_at_Some in Hs as Hs'. unfold info_data.
  rewrite Hs', Ok_bind, Hsc, Ok_bind, Hmint, Ok_bind. cbn [transfer_fee_check]. rewrite Ok_bind.
  rewrite Hguard. cbn [throw_if]. rewrite Ok_bind, (proj2 (Z.eqb_neq _ _)) by done.
  rewrite Hau, Ok_bind, Hso, Hdo, Hid, !Ok_bind.
  rewrite (borrow_free [key si] w di) by (intros ?%list_elem_of_singleton; congruence).
  rewrite Ok_bind. apply account_at_Some in Hd as Hd'.
  unfold info_data. rewrite Hd', Ok_bind.
  rewrite Hdc, Ok_bind.
  unfold checked_sub. rewrite to_uint_in by (unfold in_uint; lia). cbn [ok_or].
  rewrite Ok_bind, Ecr, Ok_bind. cbn [base with_base].
  assert (is_native (set_amount (amount (base s) - amt) a) = false) as ->.
  { change (is_native a = false). by rewrite Han. }
  by rewrite Ok_bind.
Qed.
End checks.
End payment.

(** ** The instruction *)
Section liveness.
Context `{rt : Runtime} `{sp : !SystemProgram} `{fl : F64} `{curve : Curve} `{zk : !ZkSdk}.
Context `{metadata_if : token_metadata.MetadataInterface} `{group_if : token_group.GroupInterface}.
Context `{!VariableLenPackLaws token_metadata.TokenMetadata}.
Implicit Types (w : world) (s d : PodStateMut PodAccount) (m : PodStateMut PodMint).

Lemma decode_transfer_checked amt dec : in_uint 64 amt → in_uint 8 dec →
  let input := pack_instruction (TokenInstruction.TransferChecked amt dec) in
  decode_instruction_type PodTokenInstruction.try_from input =
    Ok PodTokenInstruction.TransferChecked ∧
  decode_instruction_data AmountCheckedData input = Ok (amt, dec).
Proof.
  intros Ha Hd. cbn zeta. split; [done|].
  unfold decode_instruction_data, pack_instruction.
  assert (length (le_split 1 12 ++ le_split 8 amt ++ le_split 1 dec) = c_size AmountCheckedData + 1)%nat
    as Hl by (rewrite !length_app, !length_le_split; done).
  rewrite Hl, Nat.eqb_refl. cbn [negb].
  change (drop 1 (le_split 1 12 ++ le_split 8 amt ++ le_split 1 dec))
    with (c_write AmountCheckedData (amt, dec)).
  apply pod_from_bytes_Ok. split; [by rewrite c_write_length|]. symmetry. apply c_read_write.
  by split.
Qed.

(** C40: the owner's payment goes through.  In every world the program reaches, a transfer
    that the owner signs, of no more than the balance, between thawed accounts of a
    running mint, succeeds: the receiver gets the amount less the fee of the epoch, and the fee
    is withheld.  No overflow can refuse it, since all tokens are within the supply. *)
Theorem payment_goes_through events w0 w si mi di ai signers s d m amt decimals clk :
  runtime_ok rt → key mi ≠ native_mint.id → (∀ k, owner (get_account w0 k) ≠ id) →
  trace events w0 w → covered (key mi) events →
  clock_get = Ok clk → payment w si mi di ai s d m amt decimals →
  ∃ w' s' d',
    process id (si :: mi :: di :: ai :: signers)
      (pack_instruction (TokenInstruction.TransferChecked amt decimals)) w = Ok w' ∧
    account_at w' (key si) = Some s' ∧ account_at w' (key di) = Some d' ∧
    let fee := match get_mint_ext TransferFeeConfig (tlv_data m) with
               | Ok c => fee_of (get_epoch_fee c (epoch clk)) amt
               | _ => 0
               end in
    amount (base s') = amount (base s) - amt ∧
    amount (base d') = amount (base d) + (amt - fee) ∧ withheld d' = withheld d + fee.
Proof.
  intros Hrt Hnat Hg Hreach Hcov Hclk Hp.
  pose proof (reachable_solvent _ _ _ _ Hrt Hnat Hg Hreach Hcov) as Hsol.
  destruct Hp as [Hp Hguard (Ho & Hsig & Hlen & Hdel)].
  pose proof Hp as []. pose proof (account_at_ok _ _ _ (proj1 pay_source0)) as Hsok.
  pose proof (mint_at_ok _ _ _ (proj1 pay_mint0)) as Hmok.
  destruct (proj1 (PodAccount_ok _) (state_base_ok _ _ Hsok)) as (_ & _ & [_ Hmax] & _).
  destruct (proj1 (PodMint_ok _) (state_base_ok _ _ Hmok)) as (_ & _ & Hdec & _).
  assert (check_program_account id = Ok tt) as Hid
    by (unfold check_program_account; by rewrite Z.eqb_refl).
  destruct (transfer_succeeds w si mi di ai s d m amt decimals Hp id clk signers (base s) Hclk Hid Hsol
    Hnat Hguard (owner_authority _ _ _ _ _ _ _ _ Ho Hsig Hlen Hdel))
    as (d' & _ & Hd' & Hb & Hw & Hrun).
  set (s' := with_base (set_amount (amount (base s) - amt) (base s)) s) in Hrun.
  assert (state_ok PodAccount s') as Hs'.
  { apply state_ok_base; [done| |done]. apply set_amount_ok; [apply Hsok|unfold in_uint; lia]. }
  eexists _, s', d'. cbv zeta in Hb, Hw.
  split; [|split; [|split; [by apply account_at_write|by rewrite Hb, Hw]]].
  - unfold process. rewrite pay_decimals0 in Hdec.
    destruct (decode_transfer_checked amt decimals) as [-> ->]; [unfold in_uint; lia|done|].
    rewrite Ok_bind. exact Hrun.
  - rewrite account_at_write_ne by congruence. by apply account_at_write.
Qed.
End liveness.
