(* ===== verification/OftFacts.v ===== *)
(** * What the OFT program keeps true

    The escrow of an OFT that locks tokens holds at least the tokens that exist on the
    other chains.  It is proved against what token programs, Anchor and the endpoint
    promise; the token program of this repository keeps its promise. *)
From stdpp Require Import relations.
From S2P Require Import Prelude Codec Errors Runtime Pod State ExtensionType ExtensionData Tlv.
From S2P Require Import StateFacts TlvFacts TlvAlloc StateExt Fee Authority Transfer AccountFacts.
From S2P Require Import TransferFacts Supply Instruction InstructionFacts PackedExt InitOps.
From S2P Require Import SystemOps UiAmountOps CiphertextOps ProofExtraction InterfaceOps LedgerSpec.
From S2P Require Import Ledger LedgerFacts Registry OftState OftOps Processor Liveness.

(** ** Promises *)
Section promises.
Context `{rt : Runtime} `{pda : ProgramAddresses} `{token : TokenInterface}.
Context `{anchor : Anchor} `{endpoint : Endpoint}.
Implicit Types (w : world) (k : Pubkey) (x : PodAccount).

(** A token account of one of the token programs *)
Definition token_at w k : option PodAccount :=
  if is_token_program (owner (get_account w k)) then base <$> account_at w k else None.

(** Addresses the OFT program signs for *)
Definition oft_address k : Prop := ∃ seeds, create_program_address seeds oft_id = Some k.

(** The same account, with at least [n] tokens *)
Definition holds_at_least w' k x (n : Z) : Prop :=
  ∃ x', token_at w' k = Some x' ∧ acc_owner x' = acc_owner x ∧ acc_mint x' = acc_mint x ∧
    n ≤ amount x'.

(** Token accounts of the program's addresses lose nothing. *)
Definition spares w w' : Prop :=
  ∀ k x, token_at w k = Some x → oft_address (acc_owner x) → holds_at_least w' k x (amount x).

#[export] Instance spares_preorder : PreOrder spares.
Proof.
  split.
  - intros w k x Hx _. by exists x.
  - intros w1 w2 w3 H12 H23 k x Hx Ha. destruct (H12 k x Hx Ha) as (y & Hy & Ho & Hm & Hle).
    destruct (H23 k y Hy) as (z & Hz & Ho' & Hm' & Hle'); [by rewrite Ho|].
    exists z. split_and!; [done|congruence..|lia].
Qed.

(** The fee of a checked transfer *)
Definition transfer_fee_is w (mint : Pubkey) (amt fee : Z) : Prop :=
  ∃ m, mint_at w mint = Some m ∧
    match get_mint_ext TransferFeeConfig (tlv_data m) with
    | Ok c => ∃ clk, clock_get = Ok clk ∧ calculate_epoch_fee c (epoch clk) amt = Some fee
    | _ => fee = 0
    end.

(** What a token program promises *)
Record token_laws (program : Pubkey) : Prop := {
  law_transfer (from mint to authority : Pubkey) amt dec w w' : in_uint 64 amt → in_uint 8 dec →
    token_process program
      [mkInfo from false true; mkInfo mint false false; mkInfo to false true;
       mkInfo authority true false] (pack_instruction (TokenInstruction.TransferChecked amt dec)) w
      = Ok w' →
    ∃ fee, transfer_fee_is w mint amt fee ∧ 0 ≤ fee ∧ (from ≠ to → fee ≤ amt) ∧
      ∀ k x, token_at w k = Some x → k = from ∨ k = to ∨ oft_address (acc_owner x) →
        holds_at_least w' k x
          (if decide (from = to) then amount x
           else amount x - (if decide (k = from) then amt else 0) +
             (if decide (k = to) then amt - fee else 0));
  law_burn (from mint authority : Pubkey) amt w w' : in_uint 64 amt →
    token_process program
      [mkInfo from false true; mkInfo mint false true; mkInfo authority true false]
      (pack_instruction (TokenInstruction.Burn amt)) w = Ok w' →
    ∀ k x, token_at w k = Some x → k = from ∨ oft_address (acc_owner x) →
      holds_at_least w' k x (if decide (k = from) then 0 else amount x);
  law_mint (mint to mint_authority signer : Pubkey) amt w w' : in_uint 64 amt →
    token_process program
      [mkInfo mint false true; mkInfo to false true; mkInfo mint_authority false false;
       mkInfo signer true false] (pack_instruction (TokenInstruction.MintTo amt)) w = Ok w' →
    spares w w';
}.
Class TokenLaws : Prop := token_laws_of q : is_token_program q = true → token_laws q.

(** What Anchor promises: addresses found can be signed for, new token accounts are as
    asked for, and nothing else changes. *)
Class AnchorLaws : Prop := {
  find_create seeds k b : find_program_address seeds oft_id = (k, b) →
    create_program_address (seeds ++ [le_split 1 b]) oft_id = Some k;
  init_account_spares payer i n w w' : init_account payer i n w = Ok w' → spares w w';
  init_associated_spares payer i wallet mint program w w' :
    init_associated_token_account payer i wallet mint program w = Ok w' → spares w w';
  init_token_account_new payer i mint authority program w w' :
    init_token_account payer i mint authority program w = Ok w' →
    spares w w' ∧ ∃ x, token_at w' (key i) = Some x ∧ acc_owner x = authority ∧ acc_mint x = mint;
}.

(** The endpoint does not spend what the program signs for. *)
Class EndpointLaws : Prop := {
  endpoint_send_spares p s l seeds params w r w' :
    endpoint_send p s l seeds params w = Ok (r, w') → spares w w';
  endpoint_clear_spares p s l seeds params w w' :
    endpoint_clear p s l seeds params w = Ok w' → spares w w';
  endpoint_send_compose_spares p s l seeds params w w' :
    endpoint_send_compose p s l seeds params w = Ok w' → spares w w';
  endpoint_register_spares p s l seeds k w w' :
    endpoint_register_oapp p s l seeds k w = Ok w' → spares w w';
  endpoint_set_delegate_spares p s l seeds k w w' :
    endpoint_set_delegate p s l seeds k w = Ok w' → spares w w';
}.
End promises.
#[export] Hint Resolve init_account_spares init_associated_spares endpoint_send_spares
  endpoint_clear_spares endpoint_send_compose_spares endpoint_register_spares
  endpoint_set_delegate_spares : oft.

(** ** The invariant *)
Section invariant.
Context `{rt : Runtime} `{pda : ProgramAddresses} `{token : TokenInterface}.
Context `{anchor : Anchor} `{endpoint : Endpoint}.
Implicit Types (w : world) (k : Pubkey) (x : PodAccount) (st : oft_state) (s : OFTStore).

(** The escrow of a store belongs to the store and covers what is locked. *)
Definition escrow_covers w k s : Prop :=
  ∃ x, token_at w (store_token_escrow s) = Some x ∧ acc_owner x = k ∧
    acc_mint x = store_token_mint s ∧ tvl_ld s ≤ amount x.
Record store_ok w k s : Prop := {
  store_address : oft_address k;
  store_rate : 0 < ld2sd_rate s;
  store_fee : 0 ≤ default_fee_bps s;
  store_tvl : 0 ≤ tvl_ld s;
  store_native : oft_type s = Native → tvl_ld s = 0;
  store_escrow : escrow_covers w k s;
}.
Definition peer_ok (p : PeerConfig) : Prop := ∀ n, peer_fee_bps p = Some n → 0 ≤ n.
Definition oft_account_ok w k (a : OftAccount) : Prop :=
  match a with AStore s => store_ok w k s | APeer p => peer_ok p | ATypes _ => True end.
Definition oft_ok st : Prop := ∀ k a, oft_accts st !! k = Some a → oft_account_ok (chain st) k a.

(** What a world that spares the program's accounts keeps. *)
Lemma escrow_covers_kept w' k s x n : tvl_ld s ≤ n →
  acc_owner x = k → acc_mint x = store_token_mint s →
  holds_at_least w' (store_token_escrow s) x n → escrow_covers w' k s.
Proof. intros Hn Ho Hm (x' & Hx' & Ho' & Hm' & Hle). exists x'. split_and!; [done|congruence..|lia]. Qed.

Lemma store_ok_escrow w w' k s : store_ok w k s → escrow_covers w' k s → store_ok w' k s.
Proof. by intros [] H; constructor. Qed.

Lemma store_ok_spares w w' k s : spares w w' → store_ok w k s → store_ok w' k s.
Proof.
  intros Hw Hs. apply (store_ok_escrow w); [done|]. destruct (store_escrow _ _ _ Hs) as (x & Hx & Ho & Hm & Hle).
  eapply escrow_covers_kept; [exact Hle|exact Ho|exact Hm|]. apply (Hw _ _ Hx). rewrite Ho. apply Hs.
Qed.

Lemma oft_account_ok_spares w w' k a : spares w w' → oft_account_ok w k a → oft_account_ok w' k a.
Proof. destruct a; cbn; [apply store_ok_spares|done..]. Qed.

Lemma oft_ok_spares st w' : spares (chain st) w' → oft_ok st → oft_ok (set_chain w' st).
Proof. intros Hw Hst k a Ha. eapply oft_account_ok_spares; [done|]. by apply Hst. Qed.

Lemma oft_ok_set st k a : oft_ok st → oft_account_ok (chain st) k a → oft_ok (set_oft_account k a st).
Proof.
  intros Hst Ha j b. cbn [set_oft_account oft_accts chain]. rewrite lookup_insert.
  case_decide as E; [subst; by intros [= <-]|apply Hst].
Qed.

Lemma oft_ok_emit st e : oft_ok st → oft_ok (emit e st).
Proof. done. Qed.

(** Accounts a handler loads *)
Lemma load_store_Ok st i s : load_store st i = Ok s → oft_accts st !! key i = Some (AStore s).
Proof. unfold load_store. destruct (oft_accts st !! key i) as [[]|]; by intros [= <-]. Qed.
Lemma load_peer_Ok st i p : load_peer st i = Ok p → oft_accts st !! key i = Some (APeer p).
Proof. unfold load_peer. destruct (oft_accts st !! key i) as [[]|]; by intros [= <-]. Qed.

Lemma load_token_account_Ok w i a : load_token_account w i = Ok a →
  ∃ x, token_at w (key i) = Some x ∧ a_mint a = acc_mint x ∧ a_owner a = acc_owner x ∧
    a_amount a = amount x.
Proof.
  intros ([] & Ho & (acc & Hacc%called_Ok & [= <-])%bind_Ok)%bind_Ok.
  apply throw_if_Ok, negb_false_iff in Ho.
  destruct (unpack_packed_account _ _ Hacc) as (st & Hst & _ & Hv & _ & _).
  exists (base st). unfold token_at. unfold info_owner in Ho. rewrite Ho.
  apply account_at_Some in Hst. rewrite Hst. rewrite <-Hv. done.
Qed.

Lemma load_mint_Ok w i m : load_mint w i = Ok m → ∃ m', mint_at w (key i) = Some m' ∧
  m_decimals m = decimals (base m').
Proof.
  intros ([] & _ & (r & Hr%called_Ok & [= <-])%bind_Ok)%bind_Ok.
  destruct (unpack_packed_mint _ _ Hr) as (st & Hst & _ & Hv).
  exists st. rewrite <-Hv. by rewrite mint_at_Some.
Qed.

Lemma constraint_Ok b u : constraint b = Ok u ↔ b = true.
Proof. unfold constraint. rewrite throw_if_Ok. apply negb_false_iff. Qed.
Lemma require_Ok b e u : require b e = Ok u ↔ b = true.
Proof. unfold require. rewrite throw_if_Ok. apply negb_false_iff. Qed.
Lemma constraint_eqb (a b : Z) u : constraint (a =? b) = Ok u ↔ a = b.
Proof. rewrite constraint_Ok. apply Z.eqb_eq. Qed.

Lemma token_constraints_Ok w mint authority program i a u :
  token_constraints w mint authority program i a = Ok u →
  a_mint a = key mint ∧ (∀ k, authority = Some k → a_owner a = k) ∧ info_owner w i = key program.
Proof.
  intros ([] & H1%constraint_eqb & ([] & H2 & H3%constraint_eqb)%bind_Ok)%bind_Ok.
  split; [done|]. split; [|done]. intros k ->. by apply constraint_eqb in H2.
Qed.

Lemma invoke_signed_Ok program signers metas data w w' :
  invoke_signed program signers metas data w = Ok w' →
  token_process (key program) metas (pack_instruction data) w = Ok w'.
Proof. by intros ([] & _ & H%called_Ok)%bind_Ok. Qed.

(** ** Calls *)
Lemma transfer_fee_sums w mint s sent received fee taken : oft_type s = Adapter →
  sums_up s w mint sent received fee → transfer_fee_is w mint sent taken →
  sent - taken = received + fee.
Proof.
  intros Ht Hs (m & Hm & Hfee). unfold sums_up in Hs. rewrite Ht in Hs.
  destruct Hs as (config & Hc & Hs).
  apply bind_Ok in Hc as (r & Hr%called_Ok & [= <-]).
  destruct (unpack_packed_mint _ _ Hr) as (m' & Hm' & Htlv & _). apply mint_at_Some in Hm.
  rewrite Hm' in Hm. injection Hm as ->. rewrite Htlv in Hfee.
  destruct (get_mint_ext _ _) as [c| |]; cbn [ok_opt] in Hs; [|subst; lia..].
  destruct Hs as (clk & taken' & Hclk & Ht' & Hs), Hfee as (clk' & Hclk' & Hfee).
  rewrite Hclk in Hclk'. injection Hclk' as <-. rewrite Hfee in Ht'. by injection Ht' as ->.
Qed.

(** Another key than that of an account of the program *)
Lemma not_oft_key w k k' x y : token_at w k = Some x → oft_address (acc_owner x) →
  token_at w k' = Some y → ¬ oft_address (acc_owner y) → k ≠ k'.
Proof. intros Hx Ha Hy Hn ->. rewrite Hx in Hy. by injection Hy as ->. Qed.

(** What the accounts of [send] are *)
Lemma send_accounts_Ok c dst_eid st s p m : send_accounts c dst_eid st = Ok (s, p, m) →
  oft_accts st !! key (sn_oft_store c) = Some (AStore s) ∧
  oft_accts st !! key (sn_peer c) = Some (APeer p) ∧
  is_token_program (key (sn_token_program c)) = true ∧
  key (sn_token_mint c) = store_token_mint s ∧ key (sn_token_escrow c) = store_token_escrow s ∧
  (∃ m', mint_at (chain st) (key (sn_token_mint c)) = Some m' ∧ m_decimals m = decimals (base m')) ∧
  ∃ y, token_at (chain st) (key (sn_token_source c)) = Some y ∧
    acc_owner y = key (sn_signer c).
Proof.
  intros ([] & _ & (p' & Hp%load_peer_Ok & (s' & Hs%load_store_Ok & (a & Ha & (e & He &
    (m' & Hm%load_mint_Ok & ([] & Htp%constraint_Ok & H)%bind_Ok)%bind_Ok)%bind_Ok)%bind_Ok)%bind_Ok)
    %bind_Ok)%bind_Ok.
  apply bind_Ok in H as ([] & _ & ([] & _ & ([] & _ & ([] & _ & ([] & _ & ([] & Hsrc & H)
    %bind_Ok)%bind_Ok)%bind_Ok)%bind_Ok)%bind_Ok).
  apply bind_Ok in H as ([] & _ & ([] & Hek%constraint_eqb & ([] & _ & ([] & _ & ([] &
    Hmk%constraint_eqb & ([] & _ & [= <- <- <-])%bind_Ok)%bind_Ok)%bind_Ok)%bind_Ok)%bind_Ok).
  apply token_constraints_Ok in Hsrc as (_ & Ho & _).
  destruct (load_token_account_Ok _ _ _ Ha) as (y & Hy & _ & Hyo & _).
  split_and!; try done. exists y. split; [done|]. rewrite <-Hyo. by apply Ho.
Qed.

Lemma holds_at_least_le w' k x n n' : n' ≤ n → holds_at_least w' k x n → holds_at_least w' k x n'.
Proof. intros Hn (x' & ? & ? & ? & ?). exists x'. split_and!; [done..|lia]. Qed.

Context `{laws : !TokenLaws}.

(** Tokens of somebody else come in; tokens of the program go out. *)
Lemma transfer_in program signers from mint to authority amt dec w w' y :
  is_token_program (key program) = true → in_uint 64 amt → in_uint 8 dec →
  token_at w (key from) = Some y → ¬ oft_address (acc_owner y) →
  transfer_checked program signers from mint to authority amt dec w = Ok w' →
  ∃ fee, transfer_fee_is w (key mint) amt fee ∧ ∀ k x, token_at w k = Some x →
    oft_address (acc_owner x) →
    holds_at_least w' k x (amount x + if decide (k = key to) then Z.max 0 (amt - fee) else 0).
Proof.
  intros Hp Ha Hd Hy Hn H%invoke_signed_Ok.
  apply (law_transfer _ (laws _ Hp)) in H as (fee & Hfee & H0 & Hle & H); [|done..].
  exists fee. split; [done|]. intros k x Hx Ho.
  pose proof (not_oft_key _ _ _ _ _ Hx Ho Hy Hn) as Hk.
  eapply holds_at_least_le; [|apply (H k x Hx); auto].
  destruct (decide (k = key from)); [done|].
  destruct (decide (k = key to)), (decide (key from = key to)); try congruence; try lia.
Qed.

Lemma transfer_out program signers from mint to authority amt dec w w' :
  is_token_program (key program) = true → in_uint 64 amt → in_uint 8 dec →
  transfer_checked program signers from mint to authority amt dec w = Ok w' →
  ∀ k x, token_at w k = Some x → oft_address (acc_owner x) →
    holds_at_least w' k x (amount x - if decide (k = key from) then amt else 0).
Proof.
  intros Hp Ha Hd H%invoke_signed_Ok.
  apply (law_transfer _ (laws _ Hp)) in H as (fee & Hfee & H0 & Hle & H); [|done..].
  intros k x Hx Ho. eapply holds_at_least_le; [|apply (H k x Hx); auto].
  destruct Ha, (decide (key from = key to)) as [|Hne]; [case_decide; lia|].
  specialize (Hle Hne). repeat case_decide; lia.
Qed.

(** A world where every account of the program has at least what it had. *)
Lemma spares_of w w' : (∀ k x, token_at w k = Some x → oft_address (acc_owner x) →
  ∃ n, amount x ≤ n ∧ holds_at_least w' k x n) → spares w w'.
Proof. intros H k x Hx Ho. destruct (H k x Hx Ho) as (n & Hn & Hh). by eapply holds_at_least_le. Qed.

Lemma burn_Ok program signers mint from authority amt w w' y :
  is_token_program (key program) = true → in_uint 64 amt →
  token_at w (key from) = Some y → ¬ oft_address (acc_owner y) →
  burn program signers mint from authority amt w = Ok w' →
  spares w w' ∧ ∃ y', token_at w' (key from) = Some y' ∧ acc_owner y' = acc_owner y.
Proof.
  intros Hp Ha Hy Hn H%invoke_signed_Ok. pose proof (law_burn _ (laws _ Hp) _ _ _ _ _ _ Ha H) as Hl.
  split.
  - intros k x Hx Ho. pose proof (not_oft_key _ _ _ _ _ Hx Ho Hy Hn) as Hk.
    specialize (Hl k x Hx (or_intror Ho)). by rewrite decide_False in Hl.
  - destruct (Hl _ y Hy (or_introl eq_refl)) as (y' & Hy' & Ho & _). by exists y'.
Qed.

Lemma debit_Ok c s p m dst_eid st sent received fee s' w' : oft_ok st →
  send_accounts c dst_eid st = Ok (s, p, m) → ¬ oft_address (key (sn_signer c)) →
  in_uint 64 sent → in_uint 64 received → in_uint 64 fee →
  sums_up s (chain st) (key (sn_token_mint c)) sent received fee →
  debit c s m sent received fee (chain st) = Ok (s', w') →
  spares (chain st) w' ∧ store_ok w' (key (sn_oft_store c)) s'.
Proof.
  intros Hst Hc Hn Hsent Hrec Hfee Hsum H.
  apply send_accounts_Ok in Hc as (Hs & _ & Hp & Hmk & Hek & (m' & Hm & Hdec) & y & Hy & Hyo).
  assert (in_uint 8 (m_decimals m)) as Hd8.
  { rewrite Hdec. apply mint_at_ok, state_base_ok in Hm. apply Hm. }
  rewrite <-Hyo in Hn. specialize (Hst _ _ Hs). cbn [oft_account_ok] in Hst.
  unfold debit in H. destruct (oft_type s) eqn:Ht.
  - apply bind_Ok in H as (b & [-> Hb]%sub_u64_Ok & (w1 & Hw1 & H)%bind_Ok).
    destruct (burn_Ok _ _ _ _ _ _ _ _ _ Hp Hb Hy Hn Hw1) as (Hsp & y' & Hy' & Ho').
    assert (s' = s ∧ spares w1 w') as [-> Hsp'].
    { destruct (0 <? fee); [|by injection H as <- <-].
      apply bind_Ok in H as (w2 & Hw2 & [= <- <-]). split; [done|].
      destruct (transfer_in _ _ _ _ _ _ _ _ _ _ _ Hp Hfee Hd8 Hy' ltac:(by rewrite Ho') Hw2)
        as (taken & _ & Hh).
      apply spares_of. intros k x Hx Ho. eexists. split; [|by apply Hh]. case_decide; lia. }
    assert (spares (chain st) w') as Hw by by etrans.
    split; [done|]. by eapply store_ok_spares.
  - apply bind_Ok in H as (tvl & [-> Htvl]%add_u64_Ok & (w1 & Hw1 & [= <- <-])%bind_Ok).
    destruct (transfer_in _ _ _ _ _ _ _ _ _ _ _ Hp Hsent Hd8 Hy Hn Hw1) as (taken & Htaken & Hh).
    pose proof (transfer_fee_sums _ _ _ _ _ _ _ Ht Hsum Htaken) as Heq.
    split; [apply spares_of; intros k x Hx Ho; eexists; split; [|by apply Hh]; case_decide; lia|].
    destruct Hst as [Hoa Hrate Hf Htvl0 Hnat (x & Hx & Hxo & Hxm & Hle)].
    constructor; cbn [ld2sd_rate default_fee_bps tvl_ld oft_type set_tvl_ld]; try done.
    + destruct Hrec. lia.
    + by rewrite Ht.
    + eapply (escrow_covers_kept w1 _ (set_tvl_ld _ s)); [|exact Hxo|exact Hxm|].
      2: { apply (Hh _ x Hx). by rewrite Hxo. }
      rewrite decide_True by done. cbn [tvl_ld set_tvl_ld]. destruct Hfee. lia.
Qed.

(** What the accounts of [lz_receive] are *)
Lemma lz_receive_accounts_Ok `{alaws : !AnchorLaws} c params st s p m w :
  lz_receive_accounts c params st = Ok (s, p, m, w) →
  oft_accts st !! key (lr_oft_store c) = Some (AStore s) ∧
  oft_accts st !! key (lr_peer c) = Some (APeer p) ∧
  is_token_program (key (lr_token_program c)) = true ∧
  key (lr_token_mint c) = store_token_mint s ∧ key (lr_token_escrow c) = store_token_escrow s ∧
  in_uint 8 (m_decimals m) ∧ spares (chain st) w ∧
  ∃ to, msg_codec.send_to (lp_message params) = Ok to ∧ key (lr_to_address c) = le_combine to ∧
    peer_address p = lp_sender params ∧
    ∃ y, token_at w (key (lr_token_dest c)) = Some y ∧ acc_owner y = key (lr_to_address c) ∧
      acc_mint y = store_token_mint s.
Proof.
  intros ([] & _ & (p' & Hp%load_peer_Ok & (s' & Hs%load_store_Ok & (e & He & (m' & Hm%load_mint_Ok &
    ([] & Htp%constraint_Ok & H)%bind_Ok)%bind_Ok)%bind_Ok)%bind_Ok)%bind_Ok)%bind_Ok.
  apply bind_Ok in H as (w1 & Hw1 & (d & Hd%load_token_account_Ok & H)%bind_Ok).
  apply bind_Ok in H as ([] & _ & ([] & _ & ([] & _ & ([] & Hsender%require_Ok & ([] & _ & ([] & _ &
    H)%bind_Ok)%bind_Ok)%bind_Ok)%bind_Ok)%bind_Ok).
  apply bind_Ok in H as ([] & _ & ([] & Hek%constraint_eqb & ([] & _ & (to & Hto &
    ([] & Hta%require_Ok & ([] & _ & H)%bind_Ok)%bind_Ok)%bind_Ok)%bind_Ok)%bind_Ok).
  apply bind_Ok in H as ([] & Hdc%token_constraints_Ok & ([] & _ & ([] & Hmk%constraint_eqb & ([] & _ &
    ([] & _ & [= <- <- <- <-])%bind_Ok)%bind_Ok)%bind_Ok)%bind_Ok).
  apply Z.eqb_eq in Hta. apply bool_decide_eq_true in Hsender.
  destruct Hm as (m1 & Hm & Hdec), Hd as (y & Hy & Hym & Hyo & _), Hdc as (Hdm & Hdo & _).
  split_and!; try done.
  - rewrite Hdec. apply mint_at_ok, state_base_ok in Hm. apply Hm.
  - destruct (_ =? _); [by eapply init_associated_spares|by injection Hw1 as <-].
  - exists to. split_and!; try done. exists y. split_and!; try done; [|congruence].
    rewrite <-Hyo. by apply Hdo.
Qed.

(** Spending from the escrow of one store leaves the others covered. *)
Lemma spend_other w w' e n k0 x0 : token_at w e = Some x0 → acc_owner x0 = k0 →
  (∀ k x, token_at w k = Some x → oft_address (acc_owner x) →
     holds_at_least w' k x (amount x - if decide (k = e) then n else 0)) →
  ∀ k, k ≠ k0 → ∀ s, store_ok w k s → store_ok w' k s.
Proof.
  intros Hx0 Hxo0 Hh k Hk s Hs. apply (store_ok_escrow w); [done|].
  destruct Hs as [Hoa _ _ _ _ (x & Hx & Hxo & Hxm & Hle)].
  eapply (escrow_covers_kept w' k s x _ Hle Hxo Hxm).
  eapply holds_at_least_le; [|apply (Hh _ x Hx); by rewrite Hxo].
  rewrite decide_False; [lia|]. intros E. rewrite E, Hx0 in Hx. injection Hx as ->. congruence.
Qed.

Lemma credit_Ok c s m amount w s' received w' : store_ok w (key (lr_oft_store c)) s →
  is_token_program (key (lr_token_program c)) = true → in_uint 64 amount →
  in_uint 8 (m_decimals m) → key (lr_token_escrow c) = store_token_escrow s →
  credit c s m amount w = Ok (s', received, w') →
  store_ok w' (key (lr_oft_store c)) s' ∧
  ∀ k, k ≠ key (lr_oft_store c) → ∀ s, store_ok w k s → store_ok w' k s.
Proof.
  intros Hs Hp Ha Hd Hek H. unfold credit in H. destruct (oft_type s) eqn:Ht.
  - destruct (lr_mint_authority c) as [ma|]; [|done].
    apply bind_Ok in H as (w1 & Hw1%invoke_signed_Ok & [= <- <- <-]).
    pose proof (law_mint _ (laws _ Hp) _ _ _ _ _ _ _ Ha Hw1) as Hsp.
    split; [by eapply store_ok_spares|]. intros k _ s1. by apply store_ok_spares.
  - apply bind_Ok in H as (tvl & [-> Htvl]%sub_u64_Ok & (w1 & Hw1 & (r & _ & [= <- <- <-])
      %bind_Ok)%bind_Ok).
    pose proof (transfer_out _ _ _ _ _ _ _ _ _ _ Hp Ha Hd Hw1) as Hh. split.
    + destruct Hs as [Hoa Hrate Hf Htvl0 Hnat (x & Hx & Hxo & Hxm & Hle)].
      constructor; cbn [ld2sd_rate default_fee_bps tvl_ld oft_type set_tvl_ld]; try done.
      * by destruct Htvl.
      * by rewrite Ht.
      * eapply (escrow_covers_kept w1 _ (set_tvl_ld _ s)); [|exact Hxo|exact Hxm|].
        2: { apply (Hh _ x Hx). by rewrite Hxo. }
        cbn [tvl_ld set_tvl_ld]. rewrite decide_True by done. lia.
    + destruct Hs as [_ _ _ _ _ (x0 & Hx0 & Hxo0 & _ & _)]. rewrite <-Hek in Hx0.
      by eapply spend_other.
Qed.
End invariant.

(** ** The instructions *)
Section instructions.
Context `{rt : Runtime} `{pda : ProgramAddresses} `{token : TokenInterface}.
Context `{anchor : Anchor} `{endpoint : Endpoint}.
Context `{laws : !TokenLaws} `{alaws : !AnchorLaws} `{elaws : !EndpointLaws}.
Implicit Types (w : world) (k : Pubkey) (st : oft_state) (s : OFTStore).

(** Arguments are in the range of their types. *)
Definition oft_arguments_ok (i : OftInstruction) : Prop :=
  match i with
  | SetOftConfig _ (DefaultFee n) => 0 ≤ n
  | SetPeer _ _ (FeeBps (Some n)) => 0 ≤ n
  | Withdraw _ n => in_uint 64 n
  | SendOft _ params => in_uint 64 (sp_amount_ld params)
  | _ => True
  end.

(** Nobody signs a transaction for an address of the program. *)
Definition oft_signer_ok (i : OftInstruction) : Prop :=
  match i with
  | SendOft c _ => ¬ oft_address (key (sn_signer c))
  | _ => True
  end.

Lemma set_chain_id st : set_chain (chain st) st = st.
Proof. by destruct st. Qed.

Lemma init_program_account_Ok payer i seeds space a st st' b :
  init_program_account payer i seeds space a st = Ok (st', b) →
  spares (chain st) (chain st') ∧ oft_accts st' = <[key i := a]> (oft_accts st) ∧
  create_program_address (seeds ++ [le_split 1 b]) oft_id = Some (key i).
Proof.
  unfold init_program_account. destruct (find_program_address seeds oft_id) as [address bump] eqn:E.
  intros ([] & Hk%constraint_eqb & ([] & _ & ([] & _ & (w & Hw & [= <- <-])%bind_Ok)%bind_Ok)%bind_Ok)
    %bind_Ok. apply find_create in E. subst address.
  split_and!; [by eapply init_account_spares|done|done].
Qed.

Lemma init_oft_ok c params st st' : oft_ok st → init_oft c params st = Ok st' → oft_ok st'.
Proof.
  intros Hst ([] & _ & ([] & _ & ([] & _ & (m & _ & ([st1 b] & H1%init_program_account_Ok & H)
    %bind_Ok)%bind_Ok)%bind_Ok)%bind_Ok)%bind_Ok.
  apply bind_Ok in H as ([st2 b'] & H2%init_program_account_Ok & ([] & _ &
    (w3 & [Hw3 Hnew]%init_token_account_new & ([] & Hdec%require_Ok & (rate & Hrate%or_panic_Ok & H)
    %bind_Ok)%bind_Ok)%bind_Ok)%bind_Ok).
  apply bind_Ok in H as (w4 & Hw4%endpoint_register_spares & [= <-]).
  apply to_uint_Some in Hrate as [-> [Hrate _]].
  destruct H1 as (Hsp1 & Ha1 & Hc), H2 as (Hsp2 & Ha2 & _).
  assert (spares (chain st) w4) as Hsp by (etrans; [exact Hsp1|etrans; [exact Hsp2|by etrans]]).
  destruct Hnew as (x & Hx & Hxo & Hxm).
  assert (oft_address (acc_owner x)) as Hoa by (rewrite Hxo; by eexists).
  destruct (Hw4 _ x Hx Hoa) as (x' & Hx' & Hxo' & Hxm' & Hle).
  assert (0 ≤ amount x) as Hx0.
  { unfold token_at in Hx. destruct (is_token_program _); [|done].
    destruct (account_at w3 _) as [y|] eqn:Hy; [|done]. injection Hx as <-.
    apply account_at_ok, state_base_ok in Hy. apply PodAccount_ok in Hy as (_ & _ & [Hy _] & _). done. }
  intros k a. cbn [set_oft_account oft_accts chain set_chain]. rewrite !lookup_insert.
  case_decide as E; [subst k; intros [= <-]|case_decide; [by intros [= <-]|]].
  - rewrite <-Hxo. cbn [oft_account_ok].
    constructor; cbn [ld2sd_rate default_fee_bps tvl_ld oft_type]; try done.
    + apply Z.leb_le in Hdec. apply Z.pow_pos_nonneg; lia.
    + exists x'. cbn [store_token_escrow store_token_mint tvl_ld].
      split_and!; [done|done|congruence|lia].
  - rewrite Ha2, Ha1, !lookup_insert_ne by done.
    intros Hk. eapply oft_account_ok_spares; [done|]. by apply Hst.
Qed.

(** Settings are not part of what a store promises. *)
Lemma store_ok_settings w k s s' : store_ok w k s → oft_type s' = oft_type s →
  ld2sd_rate s' = ld2sd_rate s → store_token_mint s' = store_token_mint s →
  store_token_escrow s' = store_token_escrow s → tvl_ld s' = tvl_ld s → 0 ≤ default_fee_bps s' →
  store_ok w k s'.
Proof.
  intros [Ha Hr Hf Ht Hn (x & Hx & Ho & Hm & Hle)] E1 E2 E3 E4 E5 Hf'.
  constructor; rewrite ?E1, ?E2, ?E5; try done. exists x. by rewrite E3, E4, E5.
Qed.

Lemma set_oft_config_ok c params st st' : oft_ok st → oft_arguments_ok (SetOftConfig c params) →
  set_oft_config c params st = Ok st' → oft_ok st'.
Proof.
  intros Hst Hargs ([] & _ & (s & Hs%load_store_Ok & ([] & _ & ([] & _ & ([] & _ & H)
    %bind_Ok)%bind_Ok)%bind_Ok)%bind_Ok)%bind_Ok.
  pose proof (Hst _ _ Hs) as Hok. cbn [oft_account_ok] in Hok.
  destruct params as [k|k|n|b|o|o].
  2: { apply bind_Ok in H as (w & Hw%endpoint_set_delegate_spares & [= <-]). by apply oft_ok_spares. }
  2: apply bind_Ok in H as ([] & _ & H).
  all: injection H as <-; apply oft_ok_set; [done|]; eapply store_ok_settings; try done; apply Hok.
Qed.

Lemma set_pause_ok c b st st' : oft_ok st → set_pause c b st = Ok st' → oft_ok st'.
Proof.
  intros Hst ([] & _ & (s & Hs%load_store_Ok & ([] & _ & ([] & _ & ([] & _ & [= <-])
    %bind_Ok)%bind_Ok)%bind_Ok)%bind_Ok)%bind_Ok.
  pose proof (Hst _ _ Hs) as Hok. apply oft_ok_set; [done|].
  eapply store_ok_settings; try done. apply Hok.
Qed.

Lemma write_peer_Ok i p st st' : write_peer i p st = Ok st' →
  st' = set_oft_account (key i) (APeer p) st.
Proof. by intros ([] & _ & [= <-])%bind_Ok. Qed.

Lemma set_peer_config_ok c eid config st st' : oft_ok st →
  oft_arguments_ok (SetPeer c eid config) → set_peer_config c eid config st = Ok st' → oft_ok st'.
Proof.
  intros Hst Hargs H. unfold set_peer_config in H.
  apply bind_Ok in H as ([] & _ & ([] & _ & (s & _ & H)%bind_Ok)%bind_Ok).
  destruct (find_program_address _ _) as [address b].
  apply bind_Ok in H as (st1 & Hst1 & (p & Hp%load_peer_Ok & ([] & _ & ([] & _ & (p' & Hp' & H)
    %bind_Ok)%bind_Ok)%bind_Ok)%bind_Ok).
  assert (oft_ok st1) as Hok.
  { destruct (oft_accts st !! key (pc_peer c)).
    - by apply bind_Ok in Hst1 as ([] & _ & ([] & _ & [= <-])%bind_Ok).
    - apply bind_Ok in Hst1 as ([st2 b2] & (Hsp & Ha & _)%init_program_account_Ok & [= <-]).
      intros k a. rewrite Ha, lookup_insert. case_decide as E; [by intros [= <-]|].
      intros Hk. eapply oft_account_ok_spares; [exact Hsp|by apply Hst]. }
  apply write_peer_Ok in H as ->. apply oft_ok_set; [done|].
  pose proof (Hok _ _ Hp) as Hpok. cbn [oft_account_ok] in *.
  assert (peer_ok p') as Hp2; [|exact Hp2].
  destruct config as [a|o|o1 o2|o|o].
  - by injection Hp' as <-.
  - apply bind_Ok in Hp' as ([] & _ & [= <-]). intros n Hn. cbn [set_fee_bps peer_fee_bps] in Hn.
    by subst o.
  - by apply bind_Ok in Hp' as ([] & _ & ([] & _ & [= <-])%bind_Ok).
  - by apply bind_Ok in Hp' as (l & _ & [= <-]).
  - by apply bind_Ok in Hp' as (l & _ & [= <-]).
Qed.

Lemma withdraw_fee_ok c n st st' : oft_ok st → in_uint 64 n → withdraw_fee c n st = Ok st' →
  oft_ok st'.
Proof.
  intros Hst Hn ([] & _ & (s & Hs%load_store_Ok & (m & Hm%load_mint_Ok & (e & He%load_token_account_Ok
    & (d & _ & H)%bind_Ok)%bind_Ok)%bind_Ok)%bind_Ok)%bind_Ok.
  apply bind_Ok in H as ([] & Htp%constraint_Ok & ([] & _ & ([] & _ & ([] & _ & ([] & _ & ([] & _ &
    H)%bind_Ok)%bind_Ok)%bind_Ok)%bind_Ok)%bind_Ok).
  apply bind_Ok in H as ([] & Hek%constraint_eqb & ([] & Hec%token_constraints_Ok & ([] & _ & ([] & _ &
    (surplus & [-> _]%sub_u64_Ok & ([] & Hle%require_Ok & (w & Hw & [= <-])%bind_Ok)%bind_Ok)%bind_Ok)
    %bind_Ok)%bind_Ok)%bind_Ok).
  apply Z.leb_le in Hle. destruct Hm as (m' & Hm & Hdec), He as (x & Hx & Hxm & Hxo & Hxa).
  destruct Hec as (_ & Ho & _). specialize (Ho _ eq_refl). rewrite Hxo in Ho.
  assert (in_uint 8 (m_decimals m)) as Hd.
  { rewrite Hdec. apply mint_at_ok, state_base_ok in Hm. apply Hm. }
  pose proof (transfer_out _ _ _ _ _ _ _ _ _ _ Htp Hn Hd Hw) as Hh.
  intros k a Hk. cbn [set_chain oft_accts chain] in *.
  pose proof (Hst _ _ Hk) as Hok. destruct a as [s1|p|t]; [|done..]. cbn [oft_account_ok] in *.
  destruct (decide (k = key (wf_oft_store c))) as [->|Hne].
  - rewrite Hs in Hk. injection Hk as <-. apply (store_ok_escrow (chain st)); [done|].
    destruct (store_escrow _ _ _ Hok) as (x' & Hx' & Hxo' & Hxm' & _).
    rewrite <-Hek, Hx in Hx'. injection Hx' as <-.
    eapply (escrow_covers_kept w _ s x); [|exact Hxo'|exact Hxm'|].
    2: { rewrite <-Hek. apply (Hh _ x Hx). rewrite Hxo'. apply Hok. }
    rewrite decide_True by done. lia.
  - by eapply spend_other.
Qed.

Lemma send_ok c params st st' r : oft_ok st → in_uint 64 (sp_amount_ld params) →
  ¬ oft_address (key (sn_signer c)) → send c params st = Ok (st', r) → oft_ok st'.
Proof.
  intros Hst Ha Hn ([[s p] m] & Hc & ([] & _ & ([[sent received] fee] & Hf & ([] & _ & (out & Hout &
    (inb & Hin & ([s' w] & Hd & H)%bind_Ok)%bind_Ok)%bind_Ok)%bind_Ok)%bind_Ok)%bind_Ok)%bind_Ok.
  apply bind_Ok in H as (sender & _ & ([] & _ & (sd & _ & (o & _ & ([rc w'] & Hw%endpoint_send_spares &
    (st1 & H1%write_peer_Ok & [= <- <-])%bind_Ok)%bind_Ok)%bind_Ok)%bind_Ok)%bind_Ok).
  destruct (send_accounts_Ok _ _ _ _ _ _ Hc) as (Hs & Hp & _).
  pose proof (Hst _ _ Hs) as Hsok. pose proof (Hst _ _ Hp) as Hpok. cbn [oft_account_ok] in *.
  apply compute_amounts_Ok in Hf as (Hsent & Hrec & Hfee & _ & _ & _ & Hsum); [|apply Hsok|done|].
  2: { destruct (peer_fee_bps p) as [n|] eqn:E; [by apply Hpok|]. apply Hsok. }
  destruct (debit_Ok c s p m _ st sent received fee s' w Hst Hc Hn Hsent Hrec Hfee Hsum Hd)
    as [Hsp Hs'].
  subst st1. apply oft_ok_emit, oft_ok_set; [apply oft_ok_set; [apply oft_ok_spares|]|].
  - cbn [chain]. by etrans.
  - done.
  - exact Hpok.
  - by eapply store_ok_spares.
Qed.

Lemma lz_receive_ok c params st st' : oft_ok st → lz_receive c params st = Ok st' → oft_ok st'.
Proof.
  intros Hst ([[[s p] m] w] & Hc%lz_receive_accounts_Ok & ([] & _ & ([] & _ &
    (w1 & Hw1%endpoint_clear_spares & (sd & Hsd & (a & [Ha1 Ha]%or_panic_Ok%checked_mul_Some & (inb & Hin & (out & Hout &
    ([[s' received] w2] & Hcr & (w3 & Hw3 & (st1 & H1%write_peer_Ok & [= <-])%bind_Ok)%bind_Ok)
    %bind_Ok)%bind_Ok)%bind_Ok)%bind_Ok)%bind_Ok)%bind_Ok)%bind_Ok)%bind_Ok)%bind_Ok.
  destruct Hc as (Hs & Hp & Htp & _ & Hek & Hd & Hw & _).
  pose proof (Hst _ _ Hs) as Hsok. pose proof (Hst _ _ Hp) as Hpok. cbn [oft_account_ok] in *.
  assert (spares (chain st) w1) as Hsp by by etrans.
  assert (spares w2 w3) as Hsp'.
  { destruct (msg_codec.compose_msg _); [by eapply endpoint_send_compose_spares|by injection Hw3 as <-]. }
  destruct (credit_Ok c s m a w1 s' received w2 (store_ok_spares _ _ _ _ Hsp Hsok) Htp ltac:(by subst a)
    Hd Hek Hcr) as [Hs' Hother].
  subst st1. intros k b. cbn [set_oft_account oft_accts chain set_chain emit]. rewrite !lookup_insert.
  case_decide as E; [|case_decide as E2].
  - subst k. intros [= <-]. by eapply store_ok_spares.
  - subst k. intros [= <-]. exact Hpok.
  - intros Hk. pose proof (Hst _ _ Hk) as Hb. destruct b as [s1|?|?]; [|done..].
    cbn [oft_account_ok] in *. eapply store_ok_spares; [exact Hsp'|].
    apply Hother; [done|]. by eapply store_ok_spares.
Qed.

(** ** Steps *)

(** An instruction of the program, or other transactions: they do not spend what only
    the program signs for. *)
Inductive oft_step : oft_state → oft_state → Prop :=
| OftCall i st st' : oft_arguments_ok i → oft_signer_ok i → oft_process i st = Ok st' →
    oft_step st st'
| OftOthers st w : spares (chain st) w → oft_step st (set_chain w st).

Lemma oft_process_ok i st st' : oft_arguments_ok i → oft_signer_ok i → oft_ok st →
  oft_process i st = Ok st' → oft_ok st'.
Proof.
  intros Ha Hn Hst H. destruct i; cbn [oft_process] in H.
  - by eapply init_oft_ok.
  - by eapply set_oft_config_ok.
  - by eapply set_peer_config_ok.
  - by eapply set_pause_ok.
  - by eapply withdraw_fee_ok.
  - apply bind_Ok in H as ([st1 r] & H & [= <-]). by eapply send_ok.
  - by eapply lz_receive_ok.
Qed.

Lemma oft_step_ok st st' : oft_step st st' → oft_ok st → oft_ok st'.
Proof. intros [i st1 st2 Ha Hn H|st1 w Hw] Hst; [by eapply oft_process_ok|by apply oft_ok_spares]. Qed.

Lemma oft_reachable_ok st0 st : oft_accts st0 = ∅ → rtc oft_step st0 st → oft_ok st.
Proof.
  intros H0 Hr. assert (oft_ok st0) as Hst by (intros k a; by rewrite H0). clear H0.
  induction Hr as [|st0 st1 st Hs _ IH]; [done|]. apply IH. by eapply oft_step_ok.
Qed.
End instructions.

(** ** The token program of this repository keeps the promise *)
Section token_2022.
Context `{rt : Runtime} `{sp : !SystemProgram} `{fl : F64} `{curve : Curve} `{zk : !ZkSdk}.
Context `{metadata_if : token_metadata.MetadataInterface} `{group_if : token_group.GroupInterface}.
Context `{pda : ProgramAddresses} `{token : TokenInterface} `{anchor : Anchor}.
Implicit Types (w : world) (k : Pubkey) (x : PodAccount).

(** Transfer hooks are other programs, and spare the addresses of the program. *)
Record hooks_ok : Prop := {
  hooks_foreign : hook_foreign rt;
  hooks_spare p s m d a l n w w' : invoke_execute p s m d a l n w = Ok w' → spares w w';
}.

Lemma is_token_program_id : is_token_program id = true.
Proof. unfold is_token_program. by rewrite Z.eqb_refl, orb_true_r. Qed.

Lemma token_at_same w w' k : data (get_account w' k) = data (get_account w k) →
  owner (get_account w' k) = owner (get_account w k) → token_at w' k = token_at w k.
Proof. intros Hd Ho. unfold token_at. by rewrite Ho, (account_at_data w). Qed.

Lemma holds_same w w' k x : data (get_account w' k) = data (get_account w k) →
  owner (get_account w' k) = owner (get_account w k) → token_at w k = Some x →
  holds_at_least w' k x (amount x).
Proof. intros Hd Ho Hx. exists x. by rewrite (token_at_same w). Qed.

Lemma holds_at_least_trans w1 w2 k x n : token_at w1 k = Some x → oft_address (acc_owner x) →
  spares w1 w2 → n ≤ amount x → holds_at_least w2 k x n.
Proof. intros Hx Ho Hw Hn. eapply holds_at_least_le; [exact Hn|by apply Hw]. Qed.

(** The call of the hook, for the accounts that are not part of the transfer *)
Lemma transfer_hook_call_spares w si di ai l s d expected hook amt w' : hooks_ok →
  transfer_hook_call w si di ai l s d expected hook amt = Ok w' →
  (∀ k, owner (get_account w k) = id → owner (get_account w' k) = id) ∧
  ∀ k x, k ≠ key si → k ≠ key di → token_at w k = Some x → oft_address (acc_owner x) →
    holds_at_least w' k x (amount x).
Proof.
  intros [Hf Hs] H. unfold transfer_hook_call in H.
  assert (∀ s d k, owner (get_account (write_account (write_account w si s) di d) k) =
    owner (get_account w k)) as Hwo by (intros; unfold write_account; by rewrite !owner_set_data).
  assert (∀ s d k, k ≠ key si → k ≠ key di →
    data (get_account (write_account (write_account w si s) di d) k) = data (get_account w k)) as Hwd
    by (intros; unfold write_account; by rewrite !data_set_data, !decide_False).
  destruct hook as [p|].
  - destruct expected as [[mi dec]|]; [|done].
    apply bind_Ok in H as (ls & _ & (ld & _ & (w2 & H2 & (w3 & H3 & H4)%bind_Ok)%bind_Ok)%bind_Ok).
    apply unset_transferring_Ok in H3 as (s3 & s3' & _ & _ & _ & Hd3 & Ho3).
    apply unset_transferring_Ok in H4 as (s4 & s4' & _ & _ & _ & Hd4 & Ho4). split.
    + intros k Hk. rewrite Ho4, Ho3. apply (Hf _ _ _ _ _ _ _ _ _ H2). by rewrite Hwo.
    + intros k x Hki Hkj Hx Ho.
      destruct (Hs _ _ _ _ _ _ _ _ _ H2 k x) as (x' & Hx' & Hrest);
        [rewrite (token_at_same w); auto|done|].
      exists x'. split; [|done]. rewrite (token_at_same w3), (token_at_same w2); auto.
  - injection H as <-. split; [intros k Hk; by rewrite Hwo|].
    intros k x Hki Hkj Hx _. apply (holds_same w); auto.
Qed.

Lemma token_at_base w k st x : account_at w k = Some st → token_at w k = Some x → x = base st.
Proof. unfold token_at. intros ->. case_match; [by intros [= <-]|done]. Qed.

Lemma token_at_id w k st : account_at w k = Some st → owner (get_account w k) = id →
  token_at w k = Some (base st).
Proof. unfold token_at. intros -> ->. by rewrite is_token_program_id. Qed.

Lemma hooks_keep_data : hooks_ok → hook_keeps_data rt.
Proof. intros [Hf _] p s m d a l n w w' H k Hk. by apply (Hf _ _ _ _ _ _ _ _ _ H). Qed.

Lemma process_transfer_law si mi di ai dec amt w w' : hooks_ok → in_uint 64 amt →
  process_transfer id [si; mi; di; ai] amt (TransferChecked dec) w = Ok w' →
  ∃ fee, transfer_fee_is w (key mi) amt fee ∧ 0 ≤ fee ∧ (key si ≠ key di → fee ≤ amt) ∧
    ∀ k x, token_at w k = Some x → k = key si ∨ k = key di ∨ oft_address (acc_owner x) →
      holds_at_least w' k x
        (if decide (key si = key di) then amount x
         else amount x - (if decide (k = key si) then amt else 0) +
           (if decide (k = key di) then amt - fee else 0)).
Proof.
  intros Hh [Hamt _] H.
  pose proof (process_transfer_Ok id (TransferChecked dec) si mi di ai [] amt w w' H)
    as (s & fee & pd & hook & a & Hs & _ & Hm & _ & _ & _ & Hoi & Hoj & Hself & Hrun).
  pose proof (transfer_mint_nonneg _ _ _ _ _ _ _ _ Hamt Hm) as [Hfee _].
  apply transfer_mint_Ok in Hm as (m & Hm & _ & _ & Hf & _).
  assert (transfer_fee_is w (key mi) amt fee) as Hfi by (exists m; split; [done|]; by case_match).
  destruct (decide (key si = key di)) as [E|E].
  { exists fee. split; [done|]. split; [done|]. split; [done|]. rewrite (Hself E).
    intros k x Hx _. exists x. by split_and!. }
  destruct (process_transfer_run id (TransferChecked dec) si mi di ai [] amt w w'
    (hooks_keep_data Hh) Hamt E H) as (s1 & d1 & s' & d' & fee' & pd' & []).
  destruct run_mint as [hook' Hm'].
  apply transfer_mint_Ok in Hm' as (m' & Hm' & _ & _ & Hf' & _).
  rewrite Hm in Hm'. injection Hm' as <-.
  exists fee'. split; [exists m; split; [done|]; by case_match|]. split; [lia|]. split; [lia|].
  destruct (Hrun E) as (d2 & d3 & w1 & _ & _ & _ & _ & Hw1 & Hcall).
  assert (∀ k, data (get_account w1 k) = data (get_account w k) ∧
    owner (get_account w1 k) = owner (get_account w k)) as Hsame.
  { intros k. destruct (is_native _); [by eapply transfer_lamports_data|by injection Hw1 as ->]. }
  destruct (transfer_hook_call_spares _ _ _ _ _ _ _ _ _ _ _ Hh Hcall) as [Hown Hspare].
  assert (∀ k, owner (get_account w k) = id → owner (get_account w' k) = id) as Howner.
  { intros k Hk. apply Hown. by rewrite (proj2 (Hsame k)). }
  intros k x Hx Hk. destruct (decide (k = key si)) as [->|Hki].
  { rewrite decide_False by done. rewrite (token_at_base _ _ _ _ run_source Hx).
    exists (base s'). split; [apply token_at_id; [done|by apply Howner]|].
    rewrite run_base. split_and!; [done..|]. cbn [amount set_amount]. lia. }
  destruct (decide (k = key di)) as [->|Hkj].
  { rewrite (token_at_base _ _ _ _ run_destination Hx).
    exists (base d'). split; [apply token_at_id; [done|by apply Howner]|].
    rewrite run_base_d. split_and!; [done..|]. cbn [amount set_amount]. lia. }
  destruct Hk as [|[|Ho]]; [done..|]. eapply holds_at_least_le; [|apply Hspare; try done].
  - lia.
  - by rewrite (token_at_same w w1) by apply Hsame.
Qed.

(** One token account and its mint are written, nothing else. *)
Lemma written_both w i j st st' m : account_at w (key i) = Some st → key i ≠ key j →
  state_ok PodAccount st' → state_ok PodMint m → info_owner w i = id →
  is_Some (mint_at w (key j)) →
  let w' := write_mint (write_account w i st') j m in
  token_at w' (key i) = Some (base st') ∧
  ∀ k x, token_at w k = Some x → k ≠ key i → holds_at_least w' k x (amount x).
Proof.
  intros Hi Hij Hst Hm Ho [m0 Hm0] w'. destruct (write_both w i j st' m Hij Hst Hm) as (H1 & _ & Hk).
  assert (∀ k, owner (get_account w' k) = owner (get_account w k)) as Hown
    by (intros k; unfold w', write_mint, write_account; by rewrite !owner_set_data).
  split; [apply token_at_id; [done|by rewrite Hown]|].
  intros k x Hx Hne. destruct (decide (k = key j)) as [->|Hnm].
  - unfold token_at in Hx. destruct (is_token_program _); [|done].
    destruct (account_at w (key j)) as [y|] eqn:Hy; [|done]. apply account_at_Some in Hy.
    apply mint_at_Some in Hm0. by destruct (unpack_account_not_mint _ _ Hy m0).
  - apply (holds_same w); [by rewrite Hk..|done].
Qed.

Lemma decode_amount tag amt : 0 ≤ tag < 256 → in_uint 64 amt →
  decode_instruction_data AmountData (le_split 1 tag ++ le_split 8 amt) = Ok amt.
Proof.
  intros _ Ha. unfold decode_instruction_data. rewrite length_app, !length_le_split.
  change (c_size AmountData) with 8%nat. cbn [Nat.add Nat.eqb negb].
  rewrite drop_app_length' by by rewrite length_le_split.
  apply pod_from_bytes_Ok. split; [by rewrite length_le_split|]. symmetry.
  by apply (c_read_write AmountData).
Qed.

(** The token program, reached through the interface *)
Definition is_token_2022 : Prop :=
  ∀ accounts data w, token_process id accounts data w = process id accounts data w.

Lemma process_mint_to_law mi di ai signers amt w w' : 0 ≤ amt →
  process_mint_to id (mi :: di :: ai :: signers) amt Unchecked w = Ok w' → spares w w'.
Proof.
  intros Ha (d & m & Hd & Hm & _ & _ & _ & _ & Ho & _ & _ & _ & Hne & Hd' & Hm' & ->)%process_mint_to_Ok.
  destruct (written_both w di mi d _ _ Hd Hne Hd' Hm' Ho ltac:(by eexists)) as [H1 H2].
  intros k x Hx _. destruct (decide (k = key di)) as [->|Hk]; [|by apply H2].
  rewrite (token_at_base _ _ _ _ Hd Hx). eexists. split; [exact H1|].
  split; [done|]. split; [done|]. cbn [base with_base amount set_amount]. lia.
Qed.

Lemma process_burn_law si mi ai signers amt w w' : in_uint 64 amt →
  process_burn id (si :: mi :: ai :: signers) amt Unchecked w = Ok w' →
  ∀ k x, token_at w k = Some x → holds_at_least w' k x (if decide (k = key si) then 0 else amount x).
Proof.
  intros Ha (s & m & a & Hs & Hm & _ & _ & _ & Ho & _ & _ & Hle & _ & Hne & (g & o & ->) & Hs' & Hm' & ->)
    %process_burn_Ok.
  destruct (written_both w si mi s _ _ Hs Hne Hs' Hm' Ho ltac:(by eexists)) as [H1 H2].
  intros k x Hx. case_decide as E; [subst k|by apply H2].
  rewrite (token_at_base _ _ _ _ Hs Hx). eexists. split; [exact H1|].
  split; [done|]. split; [done|]. cbn [base with_base amount set_amount]. lia.
Qed.

(** The instructions, as the interface calls them *)
Lemma token_2022_transfer (from mint to authority : Pubkey) amt dec w w' :
  is_token_2022 → hooks_ok → in_uint 64 amt → in_uint 8 dec →
  token_process id
    [mkInfo from false true; mkInfo mint false false; mkInfo to false true;
     mkInfo authority true false] (pack_instruction (TokenInstruction.TransferChecked amt dec)) w
    = Ok w' →
  process_transfer id
    [mkInfo from false true; mkInfo mint false false; mkInfo to false true;
     mkInfo authority true false] amt (TransferChecked dec) w = Ok w'.
Proof.
  intros Hp Hh Ha Hd. rewrite Hp. unfold process.
  destruct (decode_transfer_checked amt dec Ha Hd) as [-> ->]. by rewrite Ok_bind.
Qed.

Lemma token_2022_burn accounts amt w w' : is_token_2022 → in_uint 64 amt →
  token_process id accounts (pack_instruction (TokenInstruction.Burn amt)) w = Ok w' →
  process_burn id accounts amt Unchecked w = Ok w'.
Proof.
  intros Hp Ha. rewrite Hp. unfold process.
  change (decode_instruction_type _ _) with (Ok (E:=ProgramError) PodTokenInstruction.Burn).
  cbv beta iota. unfold pack_instruction. by rewrite decode_amount, Ok_bind.
Qed.

Lemma token_2022_mint accounts amt w w' : is_token_2022 → in_uint 64 amt →
  token_process id accounts (pack_instruction (TokenInstruction.MintTo amt)) w = Ok w' →
  process_mint_to id accounts amt Unchecked w = Ok w'.
Proof.
  intros Hp Ha. rewrite Hp. unfold process.
  change (decode_instruction_type _ _) with (Ok (E:=ProgramError) PodTokenInstruction.MintTo).
  cbv beta iota. unfold pack_instruction. by rewrite decode_amount, Ok_bind.
Qed.

(** The three calls together *)
Lemma token_2022_keeps_laws : is_token_2022 → hooks_ok → token_laws id.
Proof.
  intros Hp Hh. constructor.
  - intros from mint to authority amt dec w w' Ha Hd H%token_2022_transfer; [|done..].
    eapply process_transfer_law in H; [exact H|done..].
  - intros from mint authority amt w w' Ha H%token_2022_burn k x Hx _; [|done..].
    by eapply process_burn_law in H.
  - intros mint to ma signer amt w w' Ha H%token_2022_mint; [|done..].
    eapply process_mint_to_law; [|exact H]. by destruct Ha.
Qed.

(** The source of a transfer or of a burn has exactly the amount less. *)
Definition pays w w' k (n : Z) : Prop := ∃ x x', token_at w k = Some x ∧ token_at w' k = Some x' ∧
  acc_owner x' = acc_owner x ∧ amount x' = amount x - n.

Lemma pays_trans w1 w2 w3 k n1 n2 n : pays w1 w2 k n1 → pays w2 w3 k n2 → n = n1 + n2 → pays w1 w3 k n.
Proof.
  intros (x & y & Hx & Hy & Ho & Ha) (y' & z & Hy' & Hz & Ho' & Ha') ->.
  rewrite Hy in Hy'. injection Hy' as <-. exists x, z. split_and!; [done..|congruence|lia].
Qed.

Lemma process_transfer_pays si mi di ai dec amt w w' : hooks_ok → in_uint 64 amt →
  process_transfer id [si; mi; di; ai] amt (TransferChecked dec) w = Ok w' →
  key si ≠ key di → is_Some (token_at w (key si)) → pays w w' (key si) amt.
Proof.
  intros Hh Ha H Hne [x Hx].
  destruct (process_transfer_law _ _ _ _ _ _ _ _ Hh Ha H) as (fee & _ & _ & _ & Hl).
  destruct (process_transfer_run id (TransferChecked dec) si mi di ai [] amt w w'
    (hooks_keep_data Hh) (proj1 Ha) Hne H) as (s & d & s' & d' & fee' & pd & []).
  destruct (Hl _ x Hx (or_introl eq_refl)) as (x' & Hx' & Ho & _).
  exists x, x'. do 3 (split; [done|]).
  rewrite (token_at_base _ _ _ _ run_source' Hx'), (token_at_base _ _ _ _ run_source Hx), run_base.
  reflexivity.
Qed.

Lemma transfer_pays program signers from mint to authority amt dec w w' :
  is_token_2022 → hooks_ok → key program = id → in_uint 64 amt → in_uint 8 dec →
  key from ≠ key to → is_Some (token_at w (key from)) →
  transfer_checked program signers from mint to authority amt dec w = Ok w' →
  pays w w' (key from) amt.
Proof.
  intros Hp Hh Hid Ha Hd Hne [x Hx] H%invoke_signed_Ok. rewrite Hid in H.
  apply token_2022_transfer in H; [|done..].
  apply (process_transfer_pays _ _ _ _ _ _ _ _ Hh Ha H); [done|by exists x].
Qed.

Lemma burn_pays program signers mint from authority amt w w' : is_token_2022 → key program = id →
  in_uint 64 amt → is_Some (token_at w (key from)) →
  burn program signers mint from authority amt w = Ok w' → pays w w' (key from) amt.
Proof.
  intros Hp Hid Ha [x Hx] H%invoke_signed_Ok. rewrite Hid in H. apply token_2022_burn in H; [|done..].
  apply process_burn_Ok in H as (s & m & a & Hs & Hm & _ & _ & _ & Ho & _ & _ & _ & _ & Hne & (g & o & ->) &
    Hs' & Hm' & ->).
  destruct (written_both w _ _ s _ _ Hs Hne Hs' Hm' Ho ltac:(by eexists)) as [H1 _].
  cbn [key] in *. exists x. eexists. split; [done|]. split; [exact H1|].
  by rewrite (token_at_base _ _ _ _ Hs Hx).
Qed.
End token_2022.

(** The calls by which [n] tokens of the sender leave the source, [fee] of them for the OFT: an
    adapter moves all of them into the escrow; a native OFT burns all but the fee and moves the
    fee. *)
Definition debited `{rt : Runtime} `{token : TokenInterface} (t : OFTType) (c : Send) (dec n fee : Z)
    (w w' : world) : Prop :=
  let move amount w := transfer_checked (sn_token_program c) [key (sn_signer c)] (sn_token_source c)
    (sn_token_mint c) (sn_token_escrow c) (sn_signer c) amount dec w in
  match t with
  | Adapter => move n w = Ok w'
  | Native => ∃ w1, burn (sn_token_program c) [key (sn_signer c)] (sn_token_mint c) (sn_token_source c)
      (sn_signer c) (n - fee) w = Ok w1 ∧ 0 ≤ n - fee ∧ if 0 <? fee then move fee w1 = Ok w' else w' = w1
  end.

Lemma debit_calls `{rt : Runtime} `{token : TokenInterface} c s m sent received fee w s' w' :
  debit c s m sent received fee w = Ok (s', w') →
  debited (oft_type s) c (m_decimals m) sent fee w w' ∧
  s' = match oft_type s with Adapter => set_tvl_ld (tvl_ld s + received) s | Native => s end.
Proof.
  unfold debit, debited. destruct (oft_type s).
  - intros (b & [-> Hb]%sub_u64_Ok & (w1 & Hw1 & H)%bind_Ok)%bind_Ok. destruct (0 <? fee).
    + apply bind_Ok in H as (w2 & H2 & [= <- <-]). split; [|done]. exists w1. by destruct Hb.
    + injection H as <- <-. split; [|done]. exists w1. by destruct Hb.
  - by intros (b & [-> _]%add_u64_Ok & (w1 & Hw1 & [= <- <-])%bind_Ok)%bind_Ok.
Qed.

Lemma debited_pays `{rt : Runtime} `{sp : !SystemProgram} `{fl : F64} `{curve : Curve} `{zk : !ZkSdk}
    `{metadata_if : token_metadata.MetadataInterface} `{group_if : token_group.GroupInterface}
    `{pda : ProgramAddresses} `{token : TokenInterface} `{anchor : Anchor} t c dec n fee w w' :
  is_token_2022 → hooks_ok → key (sn_token_program c) = id → in_uint 8 dec → in_uint 64 n → 0 ≤ fee →
  key (sn_token_source c) ≠ key (sn_token_escrow c) → is_Some (token_at w (key (sn_token_source c))) →
  debited t c dec n fee w w' → pays w w' (key (sn_token_source c)) n.
Proof.
  intros Hp Hh Hid Hd Hn Hfee Hne Hx H. destruct t; [|exact (transfer_pays _ _ _ _ _ _ _ _ _ _ Hp Hh Hid Hn Hd Hne Hx H)].
  destruct H as (w1 & Hb & H0 & H).
  assert (pays w w1 (key (sn_token_source c)) (n - fee)) as H1.
  { refine (burn_pays _ _ _ _ _ _ _ _ Hp Hid _ Hx Hb). unfold in_uint in *. lia. }
  destruct (Z.ltb_spec 0 fee).
  - assert (in_uint 64 fee) as Hf by (unfold in_uint in *; lia).
    assert (is_Some (token_at w1 (key (sn_token_source c)))) as Hx1
      by (destruct H1 as (x & x' & _ & Hx' & _); by exists x').
    pose proof (transfer_pays _ _ _ _ _ _ _ _ _ _ Hp Hh Hid Hf Hd Hne Hx1 H) as Hp2.
    eapply pays_trans; [exact H1|exact Hp2|lia].
  - subst w1. eapply pays_trans with (n2 := 0); [exact H1| |lia].
    destruct H1 as (x & x' & _ & Hx' & _). exists x', x'. split_and!; [done..|lia].
Qed.

Lemma ld2sd_in_uint s a sd : ld2sd s a = Ok sd → in_uint 64 sd.
Proof. intros [_ H]%or_panic_Ok%checked_div_Some. naive_solver. Qed.

(** C14: what a sender pays for.  When [send] succeeds in a state that the program reaches,
    the calls of the token program before the endpoint is called are exactly the debit of the
    amount of the receipt: moved to the escrow, or burnt but for the fee of the OFT, which is
    moved there.  By the token program of this repository the source then has exactly that
    amount less.  It is no more than asked for; the receiver gets at least the minimum asked for, and the
    debit is what the receiver gets and the fee of the OFT, on top of what the mint takes; an adapter
    adds what the receiver gets to the locked value; the message
    for the peer names the receiver and an amount that is, converted back, exactly what
    the receipt promises: no token is lost in the conversion to shared decimals. *)
Theorem send_effect `{rt : Runtime} `{sp : !SystemProgram} `{fl : F64} `{curve : Curve} `{zk : !ZkSdk}
    `{metadata_if : token_metadata.MetadataInterface} `{group_if : token_group.GroupInterface}
    `{pda : ProgramAddresses} `{token : TokenInterface}
    `{anchor : Anchor} `{endpoint : Endpoint} c params st st' receipt r :
  oft_ok st → in_uint 64 (sp_amount_ld params) → length (sp_to params) = 32%nat →
  send c params st = Ok (st', (receipt, r)) →
  let sent := or_amount_sent_ld r in
  let received := or_amount_received_ld r in
  ∃ s s' p m fee w seeds options message w',
    oft_accts st !! key (sn_oft_store c) = Some (AStore s) ∧ paused s = false ∧
    oft_accts st !! key (sn_peer c) = Some (APeer p) ∧
    mint_at (chain st) (store_token_mint s) = Some m ∧
    sent ≤ sp_amount_ld params ∧ sp_min_amount_ld params ≤ received ∧ 0 ≤ fee ∧
    sums_up s (chain st) (store_token_mint s) sent received fee ∧
    debited (oft_type s) c (decimals (base m)) sent fee (chain st) w ∧
    (is_token_2022 → hooks_ok → key (sn_token_program c) = id →
     key (sn_signer c) ≠ key (sn_oft_store c) → pays (chain st) w (key (sn_token_source c)) sent) ∧
    endpoint_send (endpoint_program s) (key (sn_oft_store c)) (sn_remaining c) seeds
      (mkEndpointSendParams (sp_dst_eid params) (peer_address p) message options
         (sp_native_fee params) (sp_lz_token_fee params)) w = Ok (receipt, w') ∧
    msg_codec.send_to message = Ok (sp_to params) ∧
    (amount_sd ← msg_codec.amount_sd message; sd2ld s amount_sd) = Ok received ∧
    msg_codec.compose_msg message =
      (λ msg, le_split 32 (key (sn_signer c)) ++ msg) <$> sp_compose_msg params ∧
    chain st' = w' ∧
    oft_accts st' !! key (sn_oft_store c) = Some (AStore s') ∧
    s' = match oft_type s with Adapter => set_tvl_ld (tvl_ld s + received) s | Native => s end ∧
    events st' = events st ++ [OFTSent (guid receipt) (sp_dst_eid params) (key (sn_token_source c))
                                 sent received].
Proof.
  intros Hst Ha Hto ([[s p] m] & Hc & ([] & Hp0%require_Ok & ([[sent received] fee] & Hf & ([] &
    Hmin%require_Ok & (out & Hout & (inb & Hin & ([s' w] & Hd & H)%bind_Ok)%bind_Ok)%bind_Ok)%bind_Ok)
    %bind_Ok)%bind_Ok)%bind_Ok.
  apply bind_Ok in H as (sender & _ & ([] & _ & (sd & Hsd & (o & _ & ([rc w'] & Hw &
    (st1 & ->%write_peer_Ok & [= <- <- <-])%bind_Ok)%bind_Ok)%bind_Ok)%bind_Ok)%bind_Ok).
  destruct (send_accounts_Ok _ _ _ _ _ _ Hc) as (Hs & Hp & _ & Hmk & Hek & (m' & Hm & Hdec) & y & Hy & Hyo).
  pose proof (Hst _ _ Hs) as Hsok. pose proof (Hst _ _ Hp) as Hpok. cbn [oft_account_ok] in *.
  pose proof (store_rate _ _ _ Hsok) as Hrate.
  apply compute_amounts_Ok in Hf as (Hsent & Hrec & Hfee & Hle & Hdiv & _ & Hsum); [|done|done|].
  2: { destruct (peer_fee_bps p) as [n|] eqn:E; [by apply Hpok|]. apply Hsok. }
  destruct (debit_calls _ _ _ _ _ _ _ _ _ Hd) as [Hcalls Hs'].
  assert (ld2sd_rate s' = ld2sd_rate s ∧ endpoint_program s' = endpoint_program s) as [Er Ee]
    by (subst s'; by destruct (oft_type s)).
  rewrite Hmk in Hsum, Hm. rewrite Ee in Hw. apply negb_true_iff in Hp0. apply Z.leb_le in Hmin.
  assert (ld2sd s received = Ok sd) as Hsd' by (unfold ld2sd in *; by rewrite <-Er).
  destruct (msg_codec_round_trip (sp_to params) sd (key (sn_signer c)) (sp_compose_msg params) Hto
    (ld2sd_in_uint _ _ _ Hsd')) as (H1 & H2 & H3).
  eexists s, s', p, m', fee, w, _, o, _, w'. cbn [or_amount_sent_ld or_amount_received_ld].
  do 6 (split; [done|]). split; [by destruct Hfee|]. split; [done|]. split; [by rewrite <-Hdec|].
  split; [|split; [exact Hw|]].
  { intros H2022 Hh Hid Hne. eapply debited_pays; [done..| |done|by destruct Hfee| |by eexists|exact Hcalls].
    - rewrite Hdec. apply mint_at_ok, state_base_ok in Hm. apply Hm.
    - rewrite Hek. destruct (store_escrow _ _ _ Hsok) as (x & Hx & Hxo & _). intros E.
      rewrite E, Hx in Hy. injection Hy as ->. congruence. }
  split; [done|]. split; [|split; [done|]].
  - rewrite H2, Ok_bind. pose proof (ld2sd_sd2ld s received Hrate Hrec Hdiv) as Hb.
    by rewrite Hsd', Ok_bind in Hb.
  - split; [done|]. split; [|done]. cbn [oft_accts emit set_oft_account]. by rewrite lookup_insert_eq.
Qed.

(** C13: an escrow always covers what is locked.  Whatever instructions ran since the program was
    deployed, in whatever order with other transactions, the escrow of every store belongs to the
    store, is an account of its mint, and holds at least [tvl_ld]: the tokens the peers
    can ask back, the fees that the mint takes being paid by the senders.  A store of
    the other type locks nothing.  It needs no more of token programs, Anchor and the endpoint
    than that they keep their promises. *)
Theorem escrow_covers_tvl `{rt : Runtime} `{pda : ProgramAddresses} `{token : TokenInterface}
    `{anchor : Anchor} `{endpoint : Endpoint}
    `{laws : !TokenLaws} `{alaws : !AnchorLaws} `{elaws : !EndpointLaws} st0 st k s :
  oft_accts st0 = ∅ → rtc oft_step st0 st → oft_accts st !! k = Some (AStore s) →
  0 ≤ tvl_ld s ∧ (oft_type s = Native → tvl_ld s = 0) ∧
  ∃ x, token_at (chain st) (store_token_escrow s) = Some x ∧ acc_owner x = k ∧
    acc_mint x = store_token_mint s ∧ tvl_ld s ≤ amount x.
Proof.
  intros H0 Hr Hs. destruct (oft_reachable_ok _ _ H0 Hr _ _ Hs) as [_ _ _ Ht Hn He].
  by split_and!.
Qed.
