(* ===== verification/TransferErrors.v ===== *)
(** * The errors of a transfer

    The reasons to refuse a checked transfer, in the order in which the program gives
    them, as a table; the program returns the first that applies, and carries out
    the transfer when none does. *)
From stdpp Require Import relations.
From S2P Require Import Prelude Codec Errors Runtime Pod State ExtensionType ExtensionData Tlv.
From S2P Require Import TlvFacts TlvAlloc StateExt Fee Authority Transfer AccountFacts.
From S2P Require Import TransferFacts Instruction InstructionFacts InitOps Unborn Ledger LedgerFacts.
From S2P Require Import SystemOps UiAmountOps CiphertextOps ProofExtraction AccountAlloc.
From S2P Require Import InterfaceOps Processor Machine Liveness.

(** ** Tables of refusals *)
Section table.
Implicit Types (l : list (bool * ProgramError)).

Fixpoint first_refusal l : option ProgramError :=
  match l with
  | [] => None
  | (b, e) :: l => if b then Some e else first_refusal l
  end.

Definition verdict {A} l (a : A) : res A :=
  match first_refusal l with Some e => Err e | None => Ok a end.

Lemma first_refusal_app l l' :
  first_refusal (l ++ l') =
    match first_refusal l with Some e => Some e | None => first_refusal l' end.
Proof. induction l as [|[[] e] l IH]; done. Qed.

Lemma verdict_bind {A B} l (a : A) (f : A → res B) :
  (verdict l a ≫= f) = match first_refusal l with Some e => Err e | None => f a end.
Proof. unfold verdict. by destruct (first_refusal l). Qed.

Lemma verdict_throw {A} b e l (a : A) : (throw_if b e;; verdict l a) = verdict ((b, e) :: l) a.
Proof. by destruct b. Qed.

Lemma throw_bind {A B} b e (r : res A) (f : A → res B) :
  (throw_if b e;; (r ≫= f)) = ((throw_if b e;; r) ≫= f).
Proof. by destruct b. Qed.

Lemma verdict_nil b e : throw_if b e = verdict [(b, e)] tt.
Proof. by destruct b. Qed.
End table.

Section refusals.
Context `{rt : Runtime}.
Implicit Types (w : world) (s d : PodStateMut PodAccount) (m : PodStateMut PodMint).

Definition source_refusals s (amt : Z) : list (bool * ProgramError) := [
  (is_frozen (base s), tok AccountFrozen);
  (amount (base s) <? amt, tok InsufficientFunds);
  (is_ok (get_account_ext NonTransferableAccount (tlv_data s)), tok Errors.NonTransferable)].

Definition paused m : bool :=
  match get_mint_ext PausableConfig (tlv_data m) with
  | Ok e => pod_bool (pc_paused e)
  | _ => false
  end.
Definition mint_refusals s (mint : Pubkey) m (dec : Z) : list (bool * ProgramError) := [
  (negb (acc_mint (base s) =? mint), tok MintMismatch);
  (negb (dec =? decimals (base m)), tok MintDecimalsMismatch);
  (paused m, tok MintPaused)].

(** Who the authority is: the permanent delegate of the mint, else the delegate of the
    account, else its owner. *)
Definition permanent m (ai : AccountInfo) : bool :=
  bool_decide (get_permanent_delegate PodMint (tlv_data m) = Some (key ai)).
Definition delegated s m (ai : AccountInfo) : bool :=
  negb (permanent m ai) && bool_decide (co_get (delegate (base s)) = Some (key ai)).
Definition authority_refusals s m (ai : AccountInfo) (amt : Z) : list (bool * ProgramError) := [
  (cpi_guard_blocks s ai, tok CpiGuardTransferBlocked);
  (negb (permanent m ai || delegated s m ai || (acc_owner (base s) =? key ai)), tok OwnerMismatch);
  (negb (is_signer ai), MissingRequiredSignature);
  (delegated s m ai && (delegated_amount (base s) <? amt), tok InsufficientFunds)].

Definition credits_refused d : bool :=
  match get_account_ext ConfidentialTransferAccount (tlv_data d) with
  | Ok c => negb (pod_bool (cta_allow_non_confidential_credits c))
  | _ => false
  end.
Definition destination_refusals s d : list (bool * ProgramError) := [
  (is_frozen (base d), tok AccountFrozen);
  (negb (acc_mint (base s) =? acc_mint (base d)), tok MintMismatch);
  (memo_required PodAccount (tlv_data d) &&
     negb (is_ok check_previous_sibling_instruction_is_memo), tok NoMemo);
  (credits_refused d, tok NonConfidentialTransfersDisabled)].

(** All of them, in order. *)
Definition refusals s d (mint : Pubkey) m (ai : AccountInfo) (amt dec : Z) :=
  source_refusals s amt ++ mint_refusals s mint m dec ++ authority_refusals s m ai amt ++
  destination_refusals s d.

(** ** The checks of the program are these *)
Lemma source_verdict s amt : transfer_source_checks s amt = verdict (source_refusals s amt) tt.
Proof. unfold transfer_source_checks. by rewrite verdict_nil, !verdict_throw. Qed.

Lemma destination_verdict s d :
  transfer_destination_checks s d = verdict (destination_refusals s d) tt.
Proof.
  assert (match get_account_ext ConfidentialTransferAccount (tlv_data d) with
    | Ok c => non_confidential_transfer_allowed c | _ => Ok tt end =
    verdict [(credits_refused d, tok NonConfidentialTransfersDisabled)] tt) as E.
  { unfold credits_refused, non_confidential_transfer_allowed.
    destruct (get_account_ext ConfidentialTransferAccount (tlv_data d)); [|done..].
    apply verdict_nil. }
  unfold transfer_destination_checks. rewrite E. clear E.
  assert ((if memo_required PodAccount (tlv_data d)
           then check_previous_sibling_instruction_is_memo else Ok tt) =
    throw_if (memo_required PodAccount (tlv_data d) &&
      negb (is_ok check_previous_sibling_instruction_is_memo)) (tok NoMemo)) as ->.
  { destruct (memo_required _ _); [|done]. unfold check_previous_sibling_instruction_is_memo.
    destruct previous_sibling as [i|]; [|done]. by destruct (_ || _). }
  by rewrite !verdict_throw.
Qed.
End refusals.

(** ** Running the checks *)
Section request.
Context `{rt : Runtime}.
Implicit Types (w : world) (s d : PodStateMut PodAccount) (m : PodStateMut PodMint).

(** A checked transfer between two accounts of the program, of a mint without a hook and
    with sound fees, under an authority that is not a multisig. *)
Record request w (si mi di ai : AccountInfo) s d m (amt : Z) : Prop := {
  rq_source : account_at w (key si) = Some s ∧ info_owner w si = id;
  rq_destination : account_at w (key di) = Some d ∧ info_owner w di = id;
  rq_mint : mint_at w (key mi) = Some m ∧ info_owner w mi = id;
  rq_distinct : key si ≠ key di;
  rq_amount : in_uint 64 amt;
  rq_hook : get_program_id PodMint (tlv_data m) = None;
  rq_single : data_len w ai ≠ PodMultisig_SIZE_OF;
  rq_fees : ∀ c, get_mint_ext TransferFeeConfig (tlv_data m) = Ok c →
    fee_ok (tfc_older_transfer_fee c) ∧ fee_ok (tfc_newer_transfer_fee c) ∧
    is_ok (get_account_ext TransferFeeAmount (tlv_data d)) = true;
}.

Context w si mi di ai s d m (amt dec : Z) (Hr : request w si mi di ai s d m amt).

Lemma accounts_distinct : key si ≠ key mi.
Proof using Hr.
  destruct Hr as [[Hs _] _ [Hm _]]. intros E. apply account_at_Some in Hs.
  apply mint_at_Some in Hm. rewrite <-E in Hm. by apply (unpack_account_not_mint _ _ Hs) in Hm.
Qed.

Lemma mint_verdict clk : clock_get = Ok clk → ∃ fee,
  transfer_mint [key si] w s (Some (mi, dec)) amt =
    verdict (mint_refusals s (key mi) m dec)
      (fee, get_permanent_delegate PodMint (tlv_data m), None).
Proof using Hr.
  intros Hclk. pose proof Hr as []. unfold transfer_mint.
  pose proof accounts_distinct as Hk.
  unfold try_borrow_data. rewrite bool_decide_false by (intros ?%list_elem_of_singleton; congruence).
  rewrite Ok_bind.
  assert (unpack_ref PodMint (info_data w mi) = Ok (mkRef (base m) (tlv_data m))) as ->.
  { apply unpack_ref_Ok. exists m. split; [|done]. exact (proj1 (mint_at_Some _ _ _) (proj1 rq_mint0)). }
  rewrite Ok_bind. cbn [ref_base ref_tlv]. rewrite rq_hook0.
  assert (match get_mint_ext PausableConfig (tlv_data m) with
    | Ok e => throw_if (pod_bool (pc_paused e)) (tok MintPaused) | _ => Ok tt end =
    throw_if (paused m) (tok MintPaused)) as -> by (unfold paused; by case_match).
  assert (∃ fee, match get_mint_ext TransferFeeConfig (tlv_data m) with
    | Ok c => clock ← clock_get; ok_or (calculate_epoch_fee c (epoch clock) amt) (tok Overflow)
    | _ => Ok 0 end = Ok fee) as [fee ->].
  { destruct (get_mint_ext TransferFeeConfig (tlv_data m)) as [c| |]; [|by eexists..].
    destruct (rq_fees0 c eq_refl) as (F1 & F2 & _). rewrite Hclk, Ok_bind.
    unfold calculate_epoch_fee. rewrite calculate_fee_eq; [by eexists| |done].
    unfold get_epoch_fee. by destruct (_ <=? _). }
  exists fee. rewrite Ok_bind. unfold mint_refusals, verdict. cbn [first_refusal].
  by destruct (_ =? key mi), (dec =? _), (paused m).
Qed.

(** A single authority is accepted if it is the one expected and signed. *)
Lemma single_verdict pid o signers : validate_owner [key si] w pid o ai (data_len w ai) signers =
  verdict [(negb (o =? key ai), tok OwnerMismatch); (negb (is_signer ai), MissingRequiredSignature)] tt.
Proof using Hr.
  pose proof Hr as []. unfold validate_owner.
  rewrite (proj2 (Nat.eqb_neq _ _) rq_single0), andb_false_r. unfold verdict. cbn [first_refusal].
  by destruct (o =? key ai), (is_signer ai).
Qed.

Lemma allowance_spent : ∃ a, spend_allowance amt (base s) =
  if delegated_amount (base s) <? amt then Err (tok Overflow) else Ok a.
Proof using Hr.
  destruct Hr as [[Hs _] _ _ _ [Hamt _] _ _ _]. apply account_at_ok in Hs.
  destruct (proj1 (PodAccount_ok _) (state_base_ok _ _ Hs)) as (_ & _ & _ & _ & _ & _ & [_ Hda] & _).
  unfold spend_allowance, checked_sub. destruct (Z.ltb_spec (delegated_amount (base s)) amt).
  - exists (base s). rewrite (proj2 (to_uint_None _ _)); [done|]. unfold in_uint. lia.
  - eexists. rewrite to_uint_in by (unfold in_uint in *; lia). done.
Qed.

Lemma authority_verdict pid signers : ∃ a,
  (throw_if (cpi_guard_blocks s ai) (tok CpiGuardTransferBlocked);;
   transfer_authority [key si] w pid (base s) (get_permanent_delegate PodMint (tlv_data m)) false amt
     ai (data_len w ai) signers) =
  verdict (authority_refusals s m ai amt) a.
Proof using Hr.
  destruct allowance_spent as [a Ha].
  exists (if delegated s m ai then a else base s). unfold authority_refusals, delegated, permanent.
  unfold transfer_authority. rewrite !single_verdict, Ha, Z.eqb_refl. unfold verdict.
  destruct (bool_decide (get_permanent_delegate _ _ = _)) eqn:Hpd, (bool_decide (co_get _ = _)) eqn:Hdd;
    cbn [first_refusal negb andb orb].
  all: destruct (cpi_guard_blocks s ai), (is_signer ai), (acc_owner (base s) =? key ai),
    (delegated_amount (base s) <? amt); done.
Qed.

(** The first refusal, before anything is moved. *)
Lemma refused clk pid signers e : clock_get = Ok clk → check_program_account id = Ok tt →
  first_refusal (refusals s d (key mi) m ai amt dec) = Some e →
  process_transfer pid (transfer_accounts (TransferChecked dec) si mi di ai signers) amt
    (TransferChecked dec) w = Err e.
Proof using Hr.
  intros Hclk Hid. pose proof Hr as []. destruct rq_source0 as [Hs Hso], rq_destination0 as [Hd Hdo].
  apply account_at_Some in Hs, Hd. unfold refusals. rewrite !first_refusal_app.
  unfold process_transfer.
  repeat (cbn [transfer_accounts transfer_expected_mint next_account_info]; rewrite Ok_bind).
  cbv zeta. rewrite (borrow_free [] w si) by apply not_elem_of_nil. unfold info_data.
  rewrite Ok_bind, Hs, Ok_bind, source_verdict, verdict_bind.
  destruct (first_refusal (source_refusals _ _)); [congruence|].
  destruct (mint_verdict clk Hclk) as (fee & ->). rewrite verdict_bind.
  destruct (first_refusal (mint_refusals _ _ _ _)); [congruence|].
  cbn [transfer_fee_check]. rewrite Ok_bind.
  destruct (authority_verdict pid signers) as [a Ha].
  rewrite (proj2 (Z.eqb_neq _ _) rq_distinct0), throw_bind, Ha, verdict_bind.
  destruct (first_refusal (authority_refusals _ _ _ _)) eqn:Eau; [congruence|].
  unfold verdict in Ha. rewrite Eau in Ha. apply bind_Ok in Ha as (u & _ & Ha).
  destruct (transfer_authority_same _ _ _ _ _ _ _ _ _ Ha) as (_ & Ham & _).
  rewrite Hso, Hdo, Hid, !Ok_bind.
  rewrite (borrow_free [key si] w di) by (intros ?%list_elem_of_singleton; congruence).
  unfold info_data. rewrite Ok_bind, Hd, Ok_bind.
  rewrite destination_verdict, verdict_bind. unfold destination_refusals in *.
  cbn [base with_base]. rewrite Ham. by intros ->.
Qed.

(** Without a refusal the tokens can move, and the authority is accepted. *)
Lemma authority_accepted pid signers :
  first_refusal (refusals s d (key mi) m ai amt dec) = None → cpi_guard_blocks s ai = false ∧
  ∃ a, transfer_authority [key si] w pid (base s) (get_permanent_delegate PodMint (tlv_data m)) false
    amt ai (data_len w ai) signers = Ok a.
Proof using Hr.
  unfold refusals. rewrite !first_refusal_app.
  destruct (first_refusal (source_refusals _ _)); [discriminate|].
  destruct (first_refusal (mint_refusals _ _ _ _)); [discriminate|].
  destruct (first_refusal (authority_refusals s m ai amt)) eqn:E; [discriminate|intros _].
  destruct (authority_verdict pid signers) as [a Ha]. unfold verdict in Ha. rewrite E in Ha.
  apply bind_Ok in Ha as (u & Hg%throw_if_Ok & Ha). split; [done|by exists a].
Qed.

Lemma not_refused : first_refusal (refusals s d (key mi) m ai amt dec) = None →
  movable w si mi di s d m amt dec.
Proof using Hr.
  destruct Hr as [? ? ? ? [? ?] ? ? ?]. unfold refusals. rewrite !first_refusal_app.
  unfold source_refusals, mint_refusals, destination_refusals.
  destruct (first_refusal (authority_refusals _ _ _ _)).
  { repeat (case_match; try discriminate). }
  cbn [first_refusal].
  repeat match goal with
  | |- context [if ?b then Some _ else _] => destruct b eqn:?
  end; try discriminate; intros _.
  repeat match goal with
  | H : negb _ = false |- _ => apply negb_false_iff in H
  | H : (_ =? _) = true |- _ => apply Z.eqb_eq in H
  | H : (_ <? _) = false |- _ => apply Z.ltb_ge in H
  end.
  constructor; try done; try (split; congruence).
  - intros e He. unfold paused in *. by rewrite He in *.
  - revert select (_ && _ = false). destruct (memo_required _ _); [|done].
    by destruct check_previous_sibling_instruction_is_memo as [[]| |].
  - intros c Hc. unfold credits_refused in *. rewrite Hc in *. by apply negb_false_iff.
Qed.
End request.

Section errors.
Context `{rt : Runtime} `{sp : !SystemProgram} `{fl : F64} `{curve : Curve} `{zk : !ZkSdk}.
Context `{metadata_if : token_metadata.MetadataInterface} `{group_if : token_group.GroupInterface}.
Context `{!VariableLenPackLaws token_metadata.TokenMetadata}.
Implicit Types (w : world) (s d : PodStateMut PodAccount) (m : PodStateMut PodMint).

(** C3: the errors of [TransferChecked].  In every world the program reaches, a transfer
    between two accounts of the program, of a mint without a hook and with sound fees, under
    one authority (the owner, the delegate or the permanent delegate, not a multisig), is
    refused exactly when one of the listed conditions holds, with the error of the
    first of them: a frozen source, too small a balance, tokens that do not
    move, the wrong mint or decimals, a paused mint, the CPI guard, an authority that is none
    of the three or did not sign, an allowance that is too small, a frozen destination or one
    of another mint, a missing memo, or credits that are switched off. *)
Theorem transfer_checked_errors events w0 w si mi di ai signers s d m amt dec clk :
  runtime_ok rt → key mi ≠ native_mint.id → (∀ k, owner (get_account w0 k) ≠ id) →
  trace events w0 w → covered (key mi) events →
  clock_get = Ok clk → in_uint 8 dec → request w si mi di ai s d m amt →
  let result := process id (si :: mi :: di :: ai :: signers)
    (pack_instruction (TokenInstruction.TransferChecked amt dec)) w in
  match first_refusal (refusals s d (key mi) m ai amt dec) with
  | Some e => result = Err e
  | None => is_ok result = true
  end.
Proof.
  intros Hrt Hnat Hg Hreach Hcov Hclk Hdec Hr result.
  pose proof (reachable_solvent _ _ _ _ Hrt Hnat Hg Hreach Hcov) as Hsol.
  assert (check_program_account id = Ok tt) as Hid
    by (unfold check_program_account; by rewrite Z.eqb_refl).
  assert (result = process_transfer id (transfer_accounts (TransferChecked dec) si mi di ai signers)
    amt (TransferChecked dec) w) as ->.
  { unfold result, process. assert (in_uint 64 amt) as Hamt by apply Hr.
    destruct (decode_transfer_checked amt dec Hamt Hdec) as [-> ->]. by rewrite Ok_bind. }
  destruct (first_refusal _) as [e|] eqn:He; [by apply (refused _ _ _ _ _ s d m _ _ Hr clk)|].
  pose proof (not_refused _ _ _ _ _ _ _ _ _ _ Hr He) as Hp.
  destruct (authority_accepted _ _ _ _ _ _ _ _ _ _ Hr id signers He) as (Hg' & a & Ha).
  destruct (transfer_succeeds w si mi di ai s d m amt dec Hp id clk signers a Hclk Hid Hsol Hnat Hg' Ha)
    as (d' & _ & _ & _ & _ & Hrun). cbv zeta in Hrun. by rewrite Hrun.
Qed.
End errors.
