(* ===== verification/Examples.v ===== *)
(** * Concrete worlds

    A mint, two token accounts and a multisig, on which the theorems of the
    handlers are applied: their hypotheses hold, and the handlers do run. *)
From S2P Require Import Prelude Codec Errors Runtime Pod State ExtensionType ExtensionData Tlv.
From S2P Require Import TlvFacts TlvAlloc StateExt Fee Authority Transfer AccountFacts.
From S2P Require Import TransferFacts Supply AccountOps AccountOpsFacts SetAuthority.
From S2P Require Import SetAuthorityFacts Instruction InstructionFacts StateFacts TlvSpec InitOps.
From S2P Require Import InitFacts.

#[local] Existing Instance example_runtime.

Module Example.
Definition mint_key : Pubkey := 100.
Definition source_key : Pubkey := 200.
Definition dest_key : Pubkey := 300.
Definition owner_key : Pubkey := 400.
Definition delegate_key : Pubkey := 500.
Definition multisig_key : Pubkey := 600.

Definition signer (k : Pubkey) : AccountInfo := mkInfo k true false.
Definition info (k : Pubkey) : AccountInfo := mkInfo k false true.

Definition mint_base : PodMint := mkPodMint (co_some owner_key) 1500 6 1 (co_some owner_key).
Definition account_base (owner amount : Z) : PodAccount :=
  mkPodAccount mint_key owner amount co_none 1 co_none 0 co_none.

(** A mint with a 1% fee (at most 5000 tokens) and a close authority, and accounts
    with room for the withheld fees. *)
Definition fee_config : TransferFeeConfig :=
  mkTransferFeeConfig owner_key owner_key 0 (mkTransferFee 0 0 0) (mkTransferFee 5 5000 100).
Definition mint_tlv : list byte :=
  tlv_of [(ExtensionType.TransferFeeConfig, c_write ext_codec fee_config);
          (ExtensionType.MintCloseAuthority, c_write ext_codec (mkMintCloseAuthority owner_key))] 0.
Definition account_tlv : list byte :=
  tlv_of [(ExtensionType.TransferFeeAmount, c_write ext_codec (mkTransferFeeAmount 7))] 0.

Definition mint_data : list byte :=
  state_bytes PodMint (mkState mint_base (type_byte PodMint) mint_tlv).
Definition account_data (owner amount : Z) : list byte :=
  state_bytes PodAccount (mkState (account_base owner amount) (type_byte PodAccount) account_tlv).

(** A 2-of-3 multisig. *)
Definition multisig : PodMultisig :=
  mkPodMultisig 2 3 1 ([701; 702; 703] ++ replicate 8 0).

Definition world0 : world := mkWorld
  (<[mint_key := mkAccount 1000 mint_data id]>
   (<[source_key := mkAccount 1000 (account_data owner_key 900) id]>
    (<[dest_key := mkAccount 1000 (account_data delegate_key 600) id]>
     (<[multisig_key := mkAccount 1000 (PodMultisig_write multisig) id]> ∅)))) [].

Definition transfer_ti : TransferInstruction := TransferCheckedWithFee 6 4.
Definition after_transfer : res world :=
  process_transfer id (transfer_accounts transfer_ti (info source_key) (info mint_key)
    (info dest_key) (signer owner_key) []) 350 transfer_ti world0.
End Example.

(** A run that succeeds has a result. *)
Lemma run_ok {E A} (r : result E A) : is_ok r = true → ∃ a, r = Ok a.
Proof. apply is_ok_spec. Defined.

Ltac runs := vm_compute; reflexivity.
(** Close a conjunction of hypotheses, without computing. *)
Ltac assumptions := repeat apply conj; assumption.
Ltac in_range := split; [apply Z.leb_le|apply Z.ltb_lt]; vm_compute; reflexivity.

Definition amounts (r : res world) (k : Pubkey) : option (Z * Z) :=
  w ← ok_opt r; st ← account_at w k; Some (amount (base st), withheld st).
Example transfer_runs :
  amounts Example.after_transfer Example.source_key = Some (550, 7) ∧
  amounts Example.after_transfer Example.dest_key = Some (946, 11).
Proof. vm_compute. done. Qed.

Lemma example_hook : hook_keeps_data example_runtime.
Proof. intros p s m d a l n w w' [= <-] k _. done. Defined.

(** ** Transfers *)
Import Example.

Lemma process_transfer_moves_witness : ∃ w' s d s' d', after_transfer = Ok w' ∧
  account_at world0 source_key = Some s ∧ account_at world0 dest_key = Some d ∧
  account_at w' source_key = Some s' ∧ account_at w' dest_key = Some d' ∧
  amount (base s') = amount (base s) - 350 ∧ holding s' + holding d' = holding s + holding d.
Proof.
  destruct (run_ok after_transfer) as [w' Hw]; [runs|].
  destruct (process_transfer_moves example_runtime id transfer_ti (info source_key) (info mint_key)
    (info dest_key) (signer owner_key) [] 350 world0 w' example_hook ltac:(lia)
    ltac:(discriminate) Hw) as (s & d & s' & d' & fee & H1 & H2 & H3 & H4 & _ & _ & H5 & _ & _ & _ & H6 & _).
  exists w', s, d, s', d'. assumptions.
Defined.

Lemma process_transfer_authorised_witness : ∃ w' s d s' pd, after_transfer = Ok w' ∧
  account_at world0 source_key = Some s ∧ account_at world0 dest_key = Some d ∧
  account_at w' source_key = Some s' ∧
  authorised (base s) (base s') pd false 350 owner_key.
Proof.
  destruct (run_ok after_transfer) as [w' Hw]; [runs|].
  destruct (process_transfer_authorised example_runtime id transfer_ti (info source_key)
    (info mint_key) (info dest_key) (signer owner_key) [] 350 world0 w' example_hook ltac:(lia)
    ltac:(discriminate) Hw) as (s & d & s' & pd & H1 & H2 & H3 & _ & _ & _ & H4 & _).
  exists w', s, d, s', pd. assumptions.
Defined.

Lemma process_transfer_fee_witness : ∃ w' d d', after_transfer = Ok w' ∧
  account_at world0 dest_key = Some d ∧ account_at w' dest_key = Some d' ∧
  withheld d' = withheld d + 4.
Proof.
  destruct (run_ok after_transfer) as [w' Hw]; [runs|].
  destruct (process_transfer_fee example_runtime id transfer_ti (info source_key)
    (info mint_key) (info dest_key) (signer owner_key) [] 350 world0 w' example_hook ltac:(lia)
    ltac:(discriminate) ltac:(discriminate) Hw) as (m & d & d' & _ & H1 & H2 & _ & H3 & _).
  exists w', d, d'. repeat split; [done..|]. by apply (H3 6).
Defined.

Definition self_ti : TransferInstruction := TransferChecked 6.
Lemma process_transfer_self_witness : ∃ w',
  process_transfer id (transfer_accounts self_ti (info source_key) (info mint_key)
    (info source_key) (signer owner_key) []) 350 self_ti world0 = Ok w' ∧ w' = world0.
Proof.
  destruct (run_ok (process_transfer id (transfer_accounts self_ti (info source_key)
    (info mint_key) (info source_key) (signer owner_key) []) 350 self_ti world0)) as [w' Hw]; [runs|].
  exists w'. split; [done|].
  exact (proj1 (process_transfer_self example_runtime id self_ti (info source_key) (info mint_key)
    (info source_key) (signer owner_key) [] 350 world0 w' eq_refl Hw)).
Defined.

(** ** Supply *)
Lemma process_mint_to_effect_witness : ∃ w' m,
  process_mint_to id [info mint_key; info dest_key; signer owner_key] 40 (Checked 6) world0 = Ok w' ∧
  mint_at world0 mint_key = Some m ∧
  mint_at w' mint_key = Some (with_base (set_supply (supply (base m) + 40) (base m)) m).
Proof.
  destruct (run_ok (process_mint_to id [info mint_key; info dest_key; signer owner_key] 40
    (Checked 6) world0)) as [w' Hw]; [runs|].
  destruct (process_mint_to_effect example_runtime _ _ _ _ _ _ _ _ _ Hw)
    as (d & m & _ & H1 & _ & _ & _ & _ & _ & _ & _ & _ & _ & H2 & _).
  exists w', m. assumptions.
Defined.

Lemma process_burn_effect_witness : ∃ w' m,
  process_burn id [info source_key; info mint_key; signer owner_key] 40 Unchecked world0 = Ok w' ∧
  mint_at world0 mint_key = Some m ∧
  mint_at w' mint_key = Some (with_base (set_supply (supply (base m) - 40) (base m)) m).
Proof.
  destruct (run_ok (process_burn id [info source_key; info mint_key; signer owner_key] 40
    Unchecked world0)) as [w' Hw]; [runs|].
  destruct (process_burn_effect example_runtime _ _ _ _ _ _ _ _ _ Hw)
    as (s & m & s' & _ & H1 & _ & _ & _ & _ & _ & _ & _ & _ & _ & _ & _ & H2 & _).
  exists w', m. assumptions.
Defined.
