(* ===== verification/ExamplesOps.v ===== *)
(** * Concrete runs of the other handlers

    Worlds on which the account, authority and initialization handlers run, and
    the storage and codec theorems at concrete values. *)
From S2P Require Import Prelude Codec Errors Runtime Pod State ExtensionType ExtensionData Tlv.
From S2P Require Import TlvFacts TlvAlloc StateExt Fee Authority Transfer AccountFacts.
From S2P Require Import TransferFacts Supply AccountOps AccountOpsFacts SetAuthority.
From S2P Require Import SetAuthorityFacts Instruction InstructionFacts StateFacts TlvSpec InitOps.
From S2P Require Import InitFacts TransferFeeOps ExtensionOps Unborn LedgerSpec Ledger.
From S2P Require Import TransferFeeFacts ExtensionFacts Examples.

Import Example.

#[local] Existing Instance example_runtime.

(** ** Token accounts *)
Lemma process_approve_effect_witness : ∃ w' s,
  process_approve id [info source_key; info mint_key; info delegate_key; signer owner_key] 40
    (Checked 6) world0 = Ok w' ∧
  account_at w' source_key = Some (with_base (set_delegated_amount 40
    (set_delegate (co_some delegate_key) (base s))) s).
Proof.
  destruct (run_ok (process_approve id [info source_key; info mint_key; info delegate_key;
    signer owner_key] 40 (Checked 6) world0)) as [w' Hw]; [runs|].
  destruct (process_approve_effect example_runtime id (info source_key) (info mint_key)
    (info delegate_key) (signer owner_key) [] 40 (Checked 6) world0 w' ltac:(in_range)
    ltac:(in_range) Hw) as (s & _ & _ & _ & _ & _ & _ & H & _).
  exists w', s. assumptions.
Defined.

Lemma process_revoke_effect_witness : ∃ w' s,
  process_revoke id [info source_key; signer owner_key] world0 = Ok w' ∧
  account_at w' source_key = Some (with_base (set_delegated_amount 0
    (set_delegate co_none (base s))) s).
Proof.
  destruct (run_ok (process_revoke id [info source_key; signer owner_key] world0)) as [w' Hw];
    [runs|].
  destruct (process_revoke_effect example_runtime id (info source_key) (signer owner_key) []
    world0 w' Hw) as (s & _ & _ & _ & _ & H & _).
  exists w', s. assumptions.
Defined.

Lemma process_toggle_freeze_effect_witness : ∃ w' s,
  process_toggle_freeze_account id [info source_key; info mint_key; signer owner_key] true world0
    = Ok w' ∧
  account_at w' source_key = Some (with_base (set_state (account_state_u8 Frozen) (base s)) s).
Proof.
  destruct (run_ok (process_toggle_freeze_account id [info source_key; info mint_key;
    signer owner_key] true world0)) as [w' Hw]; [runs|].
  destruct (process_toggle_freeze_effect example_runtime id (info source_key) (info mint_key)
    (signer owner_key) [] true world0 w' Hw) as (s & m & _ & _ & _ & _ & _ & _ & _ & H & _).
  exists w', s. assumptions.
Defined.

(** A native account with 700 lamports above its reserve, an empty account, and
    a mint without supply. *)
Definition native_key : Pubkey := 900.
Definition empty_key : Pubkey := 901.
Definition native_base : PodAccount :=
  mkPodAccount native_mint.id owner_key 500 co_none 1 (co_some 300) 0 co_none.
Definition world1 : world := mkWorld
  (<[native_key := mkAccount 1000 (state_bytes PodAccount (mkState native_base [] [])) id]>
   (<[empty_key := mkAccount 1000
        (state_bytes PodAccount (mkState (account_base owner_key 0) [] [])) id]> (accts world0))) [].

Lemma process_sync_native_effect_witness : ∃ w' s reserve,
  process_sync_native [info native_key] world1 = Ok w' ∧
  account_at w' native_key =
    Some (with_base (set_amount (info_lamports world1 (info native_key) - reserve) (base s)) s).
Proof.
  destruct (run_ok (process_sync_native [info native_key] world1)) as [w' Hw]; [runs|].
  destruct (process_sync_native_effect example_runtime (info native_key) [] world1 w' Hw)
    as (s & r & _ & _ & _ & _ & H & _).
  exists w', s, r. assumptions.
Defined.

Lemma process_close_account_effect_witness : ∃ w',
  process_close_account id [info empty_key; info dest_key; signer owner_key] world1 = Ok w' ∧
  get_account w' empty_key = mkAccount 0 [] system_program_id.
Proof.
  destruct (run_ok (process_close_account id [info empty_key; info dest_key; signer owner_key]
    world1)) as [w' Hw]; [runs|].
  destruct (process_close_account_effect example_runtime id (info empty_key) (info dest_key)
    (signer owner_key) [] world1 w' Hw) as (_ & _ & H & _).
  exists w'. assumptions.
Defined.

Lemma process_withdraw_excess_lamports_effect_witness : ∃ w',
  process_withdraw_excess_lamports id [info source_key; info dest_key; signer owner_key] world0
    = Ok w' ∧ ∀ k, data (get_account w' k) = data (get_account world0 k).
Proof.
  destruct (run_ok (process_withdraw_excess_lamports id [info source_key; info dest_key;
    signer owner_key] world0)) as [w' Hw]; [runs|].
  destruct (process_withdraw_excess_lamports_effect example_runtime id (info source_key)
    (info dest_key) (signer owner_key) [] world0 w' Hw) as (r & _ & _ & _ & _ & H & _).
  exists w'. assumptions.
Defined.

(** ** Authorities *)
Lemma process_set_authority_mint_effect_witness : ∃ w' m m',
  process_set_authority id [info mint_key; signer owner_key] AuthorityType.MintTokens co_none world0
    = Ok w' ∧
  mint_at world0 mint_key = Some m ∧ mint_at w' mint_key = Some m' ∧
  mint_authority_of AuthorityType.MintTokens m' = None ∧
  mint_authority_of AuthorityType.FreezeAccount m' = mint_authority_of AuthorityType.FreezeAccount m.
Proof.
  destruct (run_ok (process_set_authority id [info mint_key; signer owner_key]
    AuthorityType.MintTokens co_none world0)) as [w' Hw]; [runs|].
  destruct (mint_at world0 mint_key) as [m|] eqn:Hm; [|exfalso; vm_compute in Hm; discriminate].
  destruct (process_set_authority_mint_effect example_runtime id (info mint_key) (signer owner_key)
    [] AuthorityType.MintTokens co_none world0 w' m (co_none_ok _) Hm Hw)
    as (_ & _ & m' & H1 & _ & _ & H2 & H3 & _).
  exists w', m, m'. split; [assumption|]. split; [reflexivity|]. split; [assumption|].
  split; [assumption|]. apply H3. discriminate.
Defined.

Lemma process_set_authority_account_effect_witness : ∃ w' s s',
  process_set_authority id [info source_key; signer owner_key] AuthorityType.AccountOwner
    (co_some delegate_key) world0 = Ok w' ∧
  account_at world0 source_key = Some s ∧ account_at w' source_key = Some s' ∧
  amount (base s') = amount (base s) ∧ tlv_data s' = tlv_data s.
Proof.
  destruct (run_ok (process_set_authority id [info source_key; signer owner_key]
    AuthorityType.AccountOwner (co_some delegate_key) world0)) as [w' Hw]; [runs|].
  destruct (account_at world0 source_key) as [s|] eqn:Hs;
    [|exfalso; vm_compute in Hs; discriminate].
  assert (c_ok (coption_codec 32) (co_some delegate_key)) as Hk by (apply co_some_ok; in_range).
  destruct (process_set_authority_account_effect example_runtime id (info source_key)
    (signer owner_key) [] AuthorityType.AccountOwner (co_some delegate_key) world0 w' s Hk Hs Hw)
    as (_ & _ & s' & H1 & H2 & H3 & _).
  exists w', s, s'. split; [assumption|]. split; [reflexivity|]. assumptions.
Defined.

Definition multisig_signers : list AccountInfo := [signer 703; signer 701].
Lemma validate_owner_multisig_witness :
  validate_owner [] world0 id multisig_key (info multisig_key) PodMultisig_SIZE_OF
    multisig_signers = Ok tt ∧
  validate_owner [] world0 id multisig_key (info multisig_key) PodMultisig_SIZE_OF
    [signer 703] ≠ Ok tt.
Proof.
  assert (pod_multisig_from_bytes (info_data world0 (info multisig_key)) = Ok multisig) as Hms
    by (vm_compute; reflexivity).
  assert (Hn : key (info multisig_key) ∉ ([] : list Pubkey)) by apply not_elem_of_nil.
  split.
  - destruct (validate_owner_multisig example_runtime [] world0 id multisig_key
      (info multisig_key) PodMultisig_SIZE_OF multisig_signers) as [_ H].
    refine (proj2 (H eq_refl _ Hn eq_refl multisig Hms _) _ _).
    + vm_compute. reflexivity.
    + apply Nat.leb_le. vm_compute. reflexivity.
    + apply Z.leb_le. vm_compute. reflexivity.
    + intros s [->|[->|[]%not_elem_of_nil]%elem_of_cons]%elem_of_cons; reflexivity.
  - intros Hv. destruct (validate_owner_multisig example_runtime [] world0 id multisig_key
      (info multisig_key) PodMultisig_SIZE_OF [signer 703]) as [_ H].
    assert (info_owner world0 (info multisig_key) = id) as Ho by (vm_compute; reflexivity).
    assert (Z.to_nat (ms_n multisig) ≤ MAX_SIGNERS)%nat as Hle
      by (apply Nat.leb_le; vm_compute; reflexivity).
    pose proof (proj1 (H eq_refl Ho Hn eq_refl multisig Hms Hle) Hv) as Hlt.
    apply Z.leb_le in Hlt. vm_compute in Hlt. discriminate.
Defined.

(** ** Initialization *)
Definition new_mint_key : Pubkey := 902.
Definition new_account_key : Pubkey := 903.
Definition new_multisig_key : Pubkey := 904.
(** Zeroed accounts; the one of the mint already has its close authority. *)
Definition world2_0 : world := mkWorld
  (<[new_mint_key := mkAccount 1000 (zeros 202) id]>
   (<[new_account_key := mkAccount 1000 (zeros 178) id]>
    (<[new_multisig_key := mkAccount 1000 (zeros 355) id]> (accts world0)))) [].
Definition world2 : world :=
  match process_initialize_mint_close_authority [info new_mint_key] (co_some owner_key) world2_0 with
  | Ok w => w
  | _ => world2_0
  end.

Lemma process_initialize_mint_effect_witness : ∃ w' m,
  process_initialize_mint2 [info new_mint_key] 6 owner_key co_none world2 = Ok w' ∧
  mint_at w' new_mint_key = Some m ∧ mint_authority (base m) = co_some owner_key.
Proof.
  destruct (run_ok (process_initialize_mint2 [info new_mint_key] 6 owner_key co_none world2))
    as [w' Hw]; [runs|].
  destruct (process_initialize_mint_effect example_runtime (info new_mint_key) [] 6 owner_key co_none
    false world2 w' ltac:(in_range) ltac:(in_range) (co_none_ok _) Hw)
    as (m & r & rest & l & _ & H1 & H2 & _).
  exists w', m. assumptions.
Defined.

Lemma process_initialize_account_effect_witness : ∃ w' a,
  process_initialize_account3 [info new_account_key; info mint_key] owner_key world2
    = Ok w' ∧
  account_at w' new_account_key = Some a ∧ acc_owner (base a) = owner_key ∧ amount (base a) = 0.
Proof.
  destruct (run_ok (process_initialize_account3 [info new_account_key; info mint_key] owner_key world2)) as [w' Hw]; [runs|].
  assert (∀ r n, in_uint 64 (minimum_balance r n)) as Hrent by (intros; cbn; unfold in_uint; lia).
  assert (∀ m e, mint_at world2 mint_key = Some m →
    get_mint_ext DefaultAccountState (tlv_data m) = Ok e →
    das_state e ≠ account_state_u8 Uninitialized) as Hdas.
  { intros m e Hm He. destruct (mint_at world2 mint_key) as [m'|] eqn:E;
      [|vm_compute in E; discriminate].
    injection Hm as <-. exfalso. vm_compute in E. injection E as <-. vm_compute in He. discriminate. }
  destruct (process_initialize_account_effect example_runtime (info new_account_key) (info mint_key)
    [] owner_key world2 w' ltac:(in_range) ltac:(in_range) Hrent Hdas Hw)
    as (a & m & r & _ & _ & _ & _ & _ & H1 & _ & H2 & _ & _ & _ & H3 & _).
  exists w', a. split; [assumption|]. split; [assumption|]. split; [assumption|].
  assert (key (info mint_key) =? native_mint.id = false) as E
    by (vm_compute; reflexivity).
  rewrite E in H3. apply H3.
Defined.

Lemma process_initialize_multisig_effect_witness : ∃ w' ms,
  process_initialize_multisig2 [info new_multisig_key; info 701; info 702] 2 world2 = Ok w' ∧
  pod_multisig_from_bytes (info_data w' (info new_multisig_key)) = Ok ms ∧
  ms_m ms = 2 ∧ take (Z.to_nat (ms_n ms)) (ms_signers ms) = [701; 702].
Proof.
  destruct (run_ok (process_initialize_multisig2 [info new_multisig_key; info 701; info 702] 2
    world2)) as [w' Hw]; [runs|].
  assert (Forall (λ s, in_uint 256 (key s)) [info 701; info 702]) as Hk
    by (repeat (apply Forall_cons_2; [in_range|]); apply Forall_nil_2).
  destruct (process_initialize_multisig_effect example_runtime (info new_multisig_key)
    [info 701; info 702] 2 world2 w' Hk Hw ltac:(simpl; lia))
    as (old & ms & _ & _ & H1 & _ & H2 & _ & _ & _ & H3 & _).
  exists w', ms. assumptions.
Defined.

(** The program accepts a threshold above the number of signers; such a multisig
    can authorise nothing.  The client's builder refuses it. *)
Lemma multisig_threshold_above_signers :
  is_ok (process_initialize_multisig2 [info new_multisig_key; info 701; info 702] 3 world2) = true.
Proof. vm_compute. reflexivity. Qed.

(** The number of signers is truncated to a byte before it is checked: with 257
    signers the handler panics where an error is meant. *)
Lemma multisig_too_many_signers :
  (match process_initialize_multisig2 (info new_multisig_key :: replicate 257 (info 701)) 1 world2
   with Panic => true | _ => false end) = true.
Proof. vm_compute. reflexivity. Qed.

(** ** Storage *)
Definition example_entries : list entry :=
  [(ExtensionType.ImmutableOwner, []); (ExtensionType.TransferFeeAmount, zeros 8);
   (ExtensionType.MemoTransfer, [Byte.x01])].

Lemma example_entries_ok : entries_ok example_entries.
Proof.
  split; [|apply (bool_decide_unpack _); vm_compute; reflexivity].
  repeat (apply Forall_cons_2; [split; [discriminate|in_range]|]). apply Forall_nil_2.
Defined.

Lemma tlv_lookup_witness :
  ok_opt (get_extension_bytes PodAccount ExtensionType.MemoTransfer (tlv_of example_entries 9)) =
    Some [Byte.x01] ∧
  get_tlv_data_info (tlv_of example_entries 9) =
    Ok (mkInfoTlv [ExtensionType.ImmutableOwner; ExtensionType.TransferFeeAmount;
                   ExtensionType.MemoTransfer] 21%nat).
Proof.
  destruct (tlv_lookup example_runtime PodAccount (HB:=PodAccount_BaseState) ExtensionType.MemoTransfer example_entries 9
    ltac:(reflexivity) ltac:(discriminate) example_entries_ok) as [H1 H2].
  split; [exact H1|exact H2].
Defined.

Lemma tlv_alloc_witness :
  (fst <$> alloc PodAccount ExtensionType.CpiGuard 1 false (tlv_of example_entries 9)) =
    Ok (tlv_of (example_entries ++ [(ExtensionType.CpiGuard, zeros 1)]) 4).
Proof.
  exact (tlv_alloc example_runtime PodAccount (HB:=PodAccount_BaseState) ExtensionType.CpiGuard 1 false example_entries 9
    ltac:(reflexivity) ltac:(discriminate) example_entries_ok ltac:(in_range)).
Defined.

Lemma tlv_realloc_witness :
  (fst <$> realloc ExtensionType.TransferFeeAmount 10 (tlv_of example_entries 9)) =
    Ok (tlv_of [(ExtensionType.ImmutableOwner, []); (ExtensionType.TransferFeeAmount, zeros 10);
                (ExtensionType.MemoTransfer, [Byte.x01])] 7).
Proof.
  exact (tlv_realloc example_runtime ExtensionType.TransferFeeAmount 10 example_entries (zeros 8) 9
    example_entries_ok eq_refl).
Defined.

Lemma extension_write_frame_witness :
  get_extension_bytes PodAccount ExtensionType.MemoTransfer
    (splice 20 [Byte.x00] (tlv_of example_entries 9)) = Ok [Byte.x00] ∧
  get_extension_bytes PodAccount ExtensionType.TransferFeeAmount
    (splice 20 [Byte.x00] (tlv_of example_entries 9)) = Ok (zeros 8).
Proof.
  destruct (extension_write_frame example_runtime PodAccount (HB:=PodAccount_BaseState) ExtensionType.MemoTransfer
    ExtensionType.TransferFeeAmount (tlv_of example_entries 9) 20 21 [Byte.x00] ltac:(reflexivity)
    ltac:(reflexivity))
    as (_ & H1 & H2).
  split; [exact H1|]. rewrite H2 by discriminate. reflexivity.
Defined.

Lemma account_types_disjoint_witness : ∃ st,
  unpack_account (account_data owner_key 900) = Ok st ∧
  ∀ m, unpack_mint (account_data owner_key 900) ≠ Ok m.
Proof.
  destruct (run_ok (unpack_account (account_data owner_key 900))) as [st Hst]; [runs|].
  destruct (account_types_disjoint example_runtime (account_data owner_key 900)) as [H _].
  exists st. split; [assumption|]. exact (proj1 (H st Hst)).
Defined.

Lemma account_len_not_multisig_witness : ∃ n,
  try_calculate_account_len Account [ExtensionType.TransferFeeAmount; ExtensionType.MemoTransfer]
    = Ok n ∧ n ≠ Multisig_LEN.
Proof.
  destruct (run_ok (try_calculate_account_len Account
    [ExtensionType.TransferFeeAmount; ExtensionType.MemoTransfer])) as [n Hn]; [runs|].
  exists n. split; [assumption|].
  refine (proj1 (account_len_not_multisig example_runtime _ n _ Hn)). discriminate.
Defined.

(** ** Codecs *)
Definition example_mint : Mint := mkMint (Some 7) 1000 9 true None.

Lemma pack_round_trip_witness :
  Mint_unpack_from_slice (Mint_pack_into_slice example_mint (zeros Mint_LEN)) = Ok example_mint.
Proof.
  refine (proj2 (proj1 pack_round_trip example_mint (zeros Mint_LEN) _ eq_refl)).
  split; [intros x [= <-]; in_range|split; [in_range|split; [in_range|intros x Hx; discriminate]]].
Defined.

Lemma unpack_pack_instruction_witness :
  unpack_instruction (pack_instruction (TokenInstruction.TransferChecked 500 6)) =
    Ok (TokenInstruction.TransferChecked 500 6).
Proof. apply unpack_pack_instruction. split; in_range. Defined.

(** * The extension instructions on concrete worlds *)

Definition set_fee_run : res world :=
  process_set_transfer_fee id [info mint_key; signer owner_key] 250 9000 world0.
Lemma process_set_transfer_fee_effect_witness : ∃ w' c', set_fee_run = Ok w' ∧
  get_epoch_fee c' 11 = mkTransferFee 5 5000 100 ∧ get_epoch_fee c' 12 = mkTransferFee 12 9000 250.
Proof.
  destruct (run_ok set_fee_run) as [w' Hw]; [runs|].
  destruct (process_set_transfer_fee_effect example_runtime id (info mint_key) (signer owner_key) []
    250 9000 world0 w' ltac:(in_range) ltac:(in_range)
    ltac:(intros clk Hc; injection Hc as <-; in_range) Hw)
    as (m & c & m' & c' & clk & Hm & _ & Hc & _ & Hclk & _ & _ & _ & H1 & H2 & _).
  assert ((match mint_at world0 mint_key with
           | Some m => match get_mint_ext TransferFeeConfig (tlv_data m) with
                       | Ok c => get_epoch_fee c 10 | _ => mkTransferFee 0 0 0 end
           | None => mkTransferFee 0 0 0 end) = mkTransferFee 5 5000 100) as Hold
    by (vm_compute; reflexivity).
  change (key (info mint_key)) with mint_key in Hm. rewrite Hm, Hc in Hold.
  injection Hclk as <-.
  exists w', c'. split; [exact Hw|]. split.
  - rewrite H1; [exact Hold|]. split; [apply Z.leb_le|apply Z.ltb_lt]; vm_compute; reflexivity.
  - exact (H2 12 ltac:(apply Z.leb_le; vm_compute; reflexivity)).
Defined.

(** The multisig in the list is not a token account: it is skipped. *)
Definition harvest_run : res world :=
  process_harvest_withheld_tokens_to_mint
    [info mint_key; info source_key; info multisig_key; info dest_key] world0.
Lemma process_harvest_effect_witness : ∃ w' c', harvest_run = Ok w' ∧
  total mint_key w' + tfc_withheld_amount c' = total mint_key world0 + 0.
Proof.
  destruct (run_ok harvest_run) as [w' Hw]; [runs|].
  destruct (process_harvest_effect example_runtime (info mint_key)
    [info source_key; info multisig_key; info dest_key] world0 w' Hw)
    as (m & c & m' & c' & Hm & _ & Hc & _ & _ & _ & H & _).
  assert ((match mint_at world0 mint_key with
           | Some m => match get_mint_ext TransferFeeConfig (tlv_data m) with
                       | Ok c => tfc_withheld_amount c | _ => 1 end
           | None => 1 end) = 0) as Hold by (vm_compute; reflexivity).
  change (key (info mint_key)) with mint_key in Hm. rewrite Hm, Hc in Hold.
  exists w', c'. split; [exact Hw|]. rewrite Hold in H. exact H.
Defined.

Definition world_harvested : world := match harvest_run with Ok w => w | _ => world0 end.
Definition withdraw_mint_run : res world :=
  process_withdraw_withheld_tokens_from_mint id
    [info mint_key; info dest_key; signer owner_key] world_harvested.
Lemma process_withdraw_from_mint_effect_witness : ∃ w' c d, withdraw_mint_run = Ok w' ∧
  account_at w' dest_key =
    Some (with_base (set_amount (amount (base d) + tfc_withheld_amount c) (base d)) d).
Proof.
  destruct (run_ok withdraw_mint_run) as [w' Hw]; [runs|]. pose proof Hw as Hrun.
  unfold withdraw_mint_run in Hrun.
  destruct (process_withdraw_from_mint_effect example_runtime id (info mint_key) (info dest_key)
    (signer owner_key) [] world_harvested w' Hrun) as (m & c & d & m' & H).
  exists w', c, d. split; [exact Hw|]. apply H.
Defined.

(** The destination is one of the accounts. *)
Definition withdraw_accounts_run : res world :=
  process_withdraw_withheld_tokens_from_accounts id
    [info mint_key; info dest_key; signer owner_key; info source_key; info dest_key] 2 world0.
Lemma process_withdraw_from_accounts_effect_witness : ∃ w' d', withdraw_accounts_run = Ok w' ∧
  account_at w' dest_key = Some d' ∧ amount (base d') = 614 ∧
  owed mint_key w' source_key = 0 ∧ ∀ mk, total mk w' = total mk world0.
Proof.
  destruct (run_ok withdraw_accounts_run) as [w' Hw]; [runs|].
  assert (info_owner world0 (info dest_key) = id) as Ho by (vm_compute; reflexivity).
  destruct (process_withdraw_from_accounts_effect example_runtime id (info mint_key) (info dest_key)
    (signer owner_key) [info source_key; info dest_key] 2 world0 w' Hw Ho)
    as (m & c & d & d' & _ & _ & _ & Hd & H1 & _ & _ & _ & _ & Hb & _ & H3 & _ & H4).
  assert ((match account_at world0 dest_key with
           | Some d => amount (base d) +
               sum_on (remove_dups [source_key; dest_key]) (owed mint_key world0)
           | None => 0 end) = 614) as Hs by (vm_compute; reflexivity).
  change (account_at world0 dest_key = Some d) in Hd. rewrite Hd in Hs.
  exists w', d'. split; [exact Hw|]. split; [exact H1|]. split; [rewrite Hb; exact Hs|].
  split; [exact (H3 source_key)|exact H4].
Defined.

(** ** The smaller extensions *)
Definition pausable_mint_data : list byte :=
  state_bytes PodMint (mkState mint_base (type_byte PodMint)
    (tlv_of [(ExtensionType.InterestBearingConfig,
              c_write ext_codec (mkInterestBearingConfig owner_key 0 100 400 (- 50)));
             (ExtensionType.Pausable, c_write ext_codec (mkPausableConfig owner_key 0))] 0)).
Definition guarded_account_data : list byte :=
  state_bytes PodAccount (mkState (account_base owner_key 900) (type_byte PodAccount)
    (tlv_of [(ExtensionType.TransferFeeAmount, c_write ext_codec (mkTransferFeeAmount 7))] 5)).
Definition world3 : world := mkWorld
  (<[mint_key := mkAccount 1000 pausable_mint_data id]>
   (<[source_key := mkAccount 1000 guarded_account_data id]> ∅)) [].

Definition rate_op : update_op := UpdateRateOp (- 30).
Definition rate_run : res world :=
  up_run (describe_update rate_op) id [info mint_key; signer owner_key] world3.
Lemma extension_update_effect_witness : ∃ w' m m', rate_run = Ok w' ∧
  mint_at world3 mint_key = Some m ∧ mint_at w' mint_key = Some m' ∧ base m' = base m.
Proof.
  destruct (run_ok rate_run) as [w' Hw]; [runs|].
  assert (update_op_ok example_runtime rate_op) as Hop.
  { split; [in_range|]. intros clk Hc. injection Hc as <-. in_range. }
  destruct (extension_update_effect example_runtime rate_op id (info mint_key) (signer owner_key)
    [] world3 w' Hop Hw) as (m & m' & e & e' & H1 & H2 & _ & _ & _ & _ & _ & H3 & _).
  exists w', m, m'. assumptions.
Defined.

Definition guard_run : res world :=
  run_toggle GuardToggle id [info source_key; signer owner_key] true world3.
Lemma toggle_effect_witness : ∃ w' s, guard_run = Ok w' ∧
  account_at world3 source_key = Some s ∧ owner_key = acc_owner (base s) ∧ in_cpi = false.
Proof.
  destruct (run_ok guard_run) as [w' Hw]; [runs|].
  destruct (toggle_effect example_runtime GuardToggle id (info source_key) (signer owner_key) []
    true world3 w' Hw) as (s & H1 & H2 & _ & H3 & _).
  exists w', s. split; [exact Hw|]. split; [exact H1|]. split; [exact H2|]. exact (H3 eq_refl).
Defined.

Definition rate_config : InterestBearingConfig := mkInterestBearingConfig owner_key 0 100 400 (- 50).
Lemma time_weighted_average_rate_bounds_witness : ∃ r,
  time_weighted_average_rate rate_config 1000 = Some r ∧ - 50 ≤ r ≤ 100.
Proof.
  refine (time_weighted_average_rate_bounds rate_config 1000 _ _ _).
  - repeat apply conj; apply Z.leb_le || apply Z.ltb_lt; vm_compute; reflexivity.
  - in_range.
  - cbn. lia.
Defined.
