(* ===== verification/ExamplesSystem.v ===== *)
(** * The system program and floating point on concrete worlds *)
From Stdlib Require Import QArith Qround.
From S2P Require Import Prelude Codec Errors Runtime Pod State ExtensionType ExtensionData Tlv.
From S2P Require Import TlvFacts TlvAlloc StateExt Fee Authority Transfer AccountFacts.
From S2P Require Import InitOps PackedExt SystemOps SystemFacts Unborn UiAmount.
From S2P Require Import UiAmountOps Instruction Examples.

#[local] Existing Instance example_runtime.
Import Example.
Local Open Scope Z_scope.

(** ** A system program *)
Definition example_transfer (from to system : AccountInfo) (n : Z) (w : world) : res world :=
  if (0 <=? n) && (n <=? info_lamports w from) && (info_owner w from =? system_program_id) &&
     is_signer from
  then Ok (move_lamports (key from) (key to) n w) else Err MissingRequiredSignature.
Definition example_allocate (i system : AccountInfo) (n : nat) (w : world) : res world :=
  if (info_owner w i =? system_program_id) && (data_len w i =? 0)%nat
  then Ok (set_data w (key i) (zeros n)) else Err InvalidArgument.
Definition example_assign (i system : AccountInfo) (o : Pubkey) (w : world) : res world :=
  if (info_owner w i =? system_program_id) || (info_owner w i =? o)
  then Ok (set_owner w (key i) o) else Err InvalidArgument.

#[export] Instance example_system : SystemProgram.
Proof.
  refine {| system_transfer := example_transfer; system_allocate := example_allocate;
            system_assign := example_assign |}.
  - intros from to system n w w'. unfold example_transfer. case_match eqn:E; [|done].
    intros [= <-]. apply andb_true_iff in E as [[[_ E%Z.leb_le]%andb_true_iff _]%andb_true_iff _].
    by split.
  - intros i system n w w'. unfold example_allocate, data_len. case_match eqn:E; [|done].
    intros [= <-]. apply andb_true_iff in E as [E1%Z.eqb_eq E2%Nat.eqb_eq].
    split; [done|]. split; [|done]. by destruct (info_data w i).
  - intros i system o w w'. unfold example_assign. case_match eqn:E; [|done].
    intros [= <-]. split; [|done]. apply orb_true_iff in E as [E%Z.eqb_eq|E%Z.eqb_eq]; auto.
Defined.

(** ** Numbers to compute with: rationals, and a line for [exp] *)
Definition q_power (x : Q) (n : Z) : Q := Qpower x n.
Definition q_trunc (x : Q) : Q := inject_Z (Qfloor x).
Definition q_format (x : Q) (n : nat) : list byte :=
  amount_to_ui_amount_string (Qfloor (x * inject_Z (10 ^ Z.of_nat n))) n.
#[export] Instance example_f64 : F64 := {|
  f64 := Q;
  f64_lit m e := (inject_Z m * q_power 10 e)%Q;
  f64_from_le_bytes bs := inject_Z (le_combine bs);
  f64_of_int := inject_Z;
  f64_to_u64 x := Z.max 0 (Z.min (Qfloor x) MAX_U64);
  f64_mul := Qmult;
  f64_div := Qdiv;
  f64_exp x := (1 + x)%Q;
  f64_powi := q_power;
  f64_trunc := q_trunc;
  f64_round x := q_trunc (x + (1 # 2));
  f64_lt x y := negb (Qle_bool y x);
  f64_is_nan _ := false;
  f64_format := q_format;
  f64_parse s := inject_Z <$> parse_u64 s;
|}.

(** ** The native mint is created *)
Definition payer_key : Pubkey := 800.
Definition system_info : AccountInfo := mkInfo 0 false false.
Definition world_payer : world := set_account world0 payer_key (mkAccount 5000 [] system_program_id).

Lemma process_create_native_mint_effect_witness : ∃ w',
  process_create_native_mint [signer payer_key; info native_mint.id; system_info] world_payer = Ok w' ∧
  mint_at w' native_mint.id = Some native_mint_state ∧
  info_lamports w' (signer payer_key) + info_lamports w' (info native_mint.id) = 5000.
Proof.
  destruct (run_ok (process_create_native_mint
    [signer payer_key; info native_mint.id; system_info] world_payer)) as [w' Hw];
    [vm_compute; reflexivity|].
  exists w'. split; [exact Hw|].
  assert (key (signer payer_key) ≠ key (info native_mint.id)) as Hne
    by (vm_compute; discriminate).
  destruct (process_create_native_mint_effect _ _ _ _ _ _ Hne Hw)
    as (_ & _ & _ & _ & H1 & _ & H2 & _).
  split; [exact H1|]. rewrite H2. vm_compute. reflexivity.
Defined.

(** ** A token account grows for a memo guard *)
Lemma process_reallocate_effect_witness : ∃ w' st',
  process_reallocate id [info source_key; signer payer_key; system_info; signer owner_key]
    [ExtensionType.MemoTransfer] world_payer = Ok w' ∧
  account_at w' source_key = Some st' ∧ Pod.amount (base st') = 900 ∧
  data_len w' (info source_key) = 183%nat ∧
  get_account_ext TransferFeeAmount (tlv_data st') = Ok (mkTransferFeeAmount 7).
Proof.
  destruct (run_ok (process_reallocate id
    [info source_key; signer payer_key; system_info; signer owner_key]
    [ExtensionType.MemoTransfer] world_payer)) as [w' Hw]; [vm_compute; reflexivity|].
  exists w'.
  set (st := mkState (account_base owner_key 900) (type_byte PodAccount) account_tlv).
  assert (account_at world_payer source_key = Some st) as Hst by (vm_compute; reflexivity).
  assert (key (signer payer_key) ≠ key (info source_key)) as Hne by (vm_compute; discriminate).
  destruct (process_reallocate_effect id (info source_key) (signer payer_key) system_info
    (signer owner_key) [] [ExtensionType.MemoTransfer] world_payer w') as
    (s & st' & current & needed & H1 & H2 & _ & _ & H3 & H4 & H5 & _ & _ & H6 & _ & _ & _ & _ & _ & H7 & _).
  - intros r n. cbn. unfold in_uint. lia.
  - exact Hne.
  - intros s. change (key (info source_key)) with source_key. rewrite Hst. intros [= <-].
    exists [(ExtensionType.TransferFeeAmount, c_write ext_codec (mkTransferFeeAmount 7))], 0%nat.
    split; [reflexivity|]. split.
    + constructor; [|constructor]. split; [discriminate|].
      split; [apply Z.leb_le|apply Z.ltb_lt]; vm_compute; reflexivity.
    + constructor; [apply not_elem_of_nil|constructor].
  - exact Hw.
  - change (key (info source_key)) with source_key in *. rewrite Hst in H1. injection H1 as <-.
    exists st'. split; [exact Hw|]. split; [exact H2|].
    split; [rewrite H6; reflexivity|]. split.
    + rewrite H5.
      assert (current = [ExtensionType.TransferFeeAmount]) as ->.
      { assert (get_extension_types (tlv_data st) = Ok [ExtensionType.TransferFeeAmount]) as Hc
          by (vm_compute; reflexivity). rewrite Hc in H3. by injection H3. }
      assert (try_calculate_account_len Account
        ([ExtensionType.TransferFeeAmount] ++ [ExtensionType.MemoTransfer]) = Ok 183%nat) as Hc
        by (vm_compute; reflexivity).
      rewrite Hc in H4. injection H4 as <-. vm_compute. reflexivity.
    + apply H7; [discriminate|]. vm_compute. reflexivity.
Defined.

(** ** Amounts as text: the mint of [world0] has six decimals *)
Lemma ui_amount_instructions_round_trip_witness : ∃ w1 w2,
  process_amount_to_ui_amount [info mint_key] 18446744073709551610 world0 = Ok w1 ∧
  process_ui_amount_to_amount [info mint_key] (return_data w1) w1 = Ok w2 ∧
  return_data w2 = le_split 8 18446744073709551610.
Proof.
  set (m := mkState mint_base (type_byte PodMint) mint_tlv).
  assert (mint_at world0 mint_key = Some m) as Hm by (vm_compute; reflexivity).
  destruct (ui_amount_instructions_round_trip (info mint_key) m [] 18446744073709551610 world0)
    as (w1 & H1 & _ & _ & w2 & H2 & _ & _ & H3).
  - split; [apply Z.leb_le|apply Z.ltb_lt]; vm_compute; reflexivity.
  - exact Hm.
  - split; vm_compute; reflexivity.
  - vm_compute. reflexivity.
  - exists w1, w2. split; [exact H1|]. split; [exact H2|exact H3].
Defined.
