(* ===== verification/ExamplesZk.v ===== *)
(** * Proofs and a curve to evaluate with

    [example_zk] reads the contexts of proofs as consecutive fields; grouped
    ciphertexts are a commitment followed by handles.  With the residues of
    [CiphertextFacts.v] for points, a key is its secret. *)
From S2P Require Import Prelude Codec Errors Runtime TlvAlloc CiphertextOps CiphertextFacts.
From S2P Require Import ProofExtraction.

#[export] Existing Instance residues.residue_curve.

(** The [i]-th key, commitment or handle, and the ciphertext that starts there. *)
Definition field (i : nat) (bs : list byte) : list byte := slice (32 * i) (32 * i + 32) bs.
Definition field2 (i : nat) (bs : list byte) : list byte := slice (32 * i) (32 * i + 64) bs.
(** [n] fields from the [i]-th on *)
Definition fields (n i : nat) (bs : list byte) : list byte := slice (32 * i) (32 * (i + n)) bs.

Definition example_context (t : ProofType) (bs : list byte) : proof_context t :=
  match t with
  | ProofType.ZeroCiphertext => mkZeroCiphertext (field 0 bs) (field2 1 bs)
  | ProofType.CiphertextCiphertextEquality =>
      mkCiphertextEquality (field 0 bs) (field 1 bs) (field2 2 bs) (field2 4 bs)
  | ProofType.CiphertextCommitmentEquality =>
      mkCommitmentEquality (field 0 bs) (field2 1 bs) (field 3 bs)
  | ProofType.PubkeyValidity => mkPubkeyValidity (field 0 bs)
  | ProofType.PercentageWithCap =>
      mkPercentage (field 0 bs) (field 1 bs) (field 2 bs) (le_combine (slice 96 104 bs))
  | ProofType.BatchedRangeProofU64 | ProofType.BatchedRangeProofU128
  | ProofType.BatchedRangeProofU256 =>
      mkRangeProof ((λ i, field i bs) <$> seq 0 8)
        ((λ i, le_combine (slice i (i + 1) bs)) <$> seq 256 8)
  | ProofType.BatchedGroupedCiphertext2HandlesValidity =>
      mkGrouped2 (field 0 bs) (field 1 bs) (fields 3 2 bs) (fields 3 5 bs)
  | ProofType.BatchedGroupedCiphertext3HandlesValidity =>
      mkGrouped3 (field 0 bs) (field 1 bs) (field 2 bs) (fields 4 3 bs) (fields 4 7 bs)
  | _ => bs
  end.

Definition example_proof_type (t : ProofType) : Z :=
  match t with
  | ProofType.Uninitialized => 0
  | ProofType.ZeroCiphertext => 1
  | ProofType.CiphertextCiphertextEquality => 2
  | ProofType.CiphertextCommitmentEquality => 3
  | ProofType.PubkeyValidity => 4
  | ProofType.PercentageWithCap => 5
  | ProofType.BatchedRangeProofU64 => 6
  | ProofType.BatchedRangeProofU128 => 7
  | ProofType.BatchedRangeProofU256 => 8
  | ProofType.GroupedCiphertext2HandlesValidity => 9
  | ProofType.BatchedGroupedCiphertext2HandlesValidity => 10
  | ProofType.GroupedCiphertext3HandlesValidity => 11
  | ProofType.BatchedGroupedCiphertext3HandlesValidity => 12
  end.

Definition example_instruction_type (bs : list byte) : option ProofInstruction :=
  match bs with
  | b :: _ =>
      [ProofInstruction.CloseContextState; ProofInstruction.VerifyZeroCiphertext;
       ProofInstruction.VerifyCiphertextCiphertextEquality;
       ProofInstruction.VerifyCiphertextCommitmentEquality;
       ProofInstruction.VerifyPubkeyValidity; ProofInstruction.VerifyPercentageWithCap;
       ProofInstruction.VerifyBatchedRangeProofU64; ProofInstruction.VerifyBatchedRangeProofU128;
       ProofInstruction.VerifyBatchedRangeProofU256;
       ProofInstruction.VerifyGroupedCiphertext2HandlesValidity;
       ProofInstruction.VerifyBatchedGroupedCiphertext2HandlesValidity;
       ProofInstruction.VerifyGroupedCiphertext3HandlesValidity;
       ProofInstruction.VerifyBatchedGroupedCiphertext3HandlesValidity]
        !! Z.to_nat (byte.unsigned b)
  | [] => None
  end.

(** A context state: its authority, its type and the context. *)
#[export] Instance example_zk : @ZkSdk example_runtime := {|
  zk_elgamal_proof_program_id := 3;
  pod_proof_type := example_proof_type;
  proof_context_state t bs :=
    if (length bs <? 33)%nat then Err InvalidAccountData
    else Ok (le_combine (slice 32 33 bs), example_context t (drop 33 bs));
  instruction_type := example_instruction_type;
  proof_data_context t bs := Some (example_context t (drop 1 bs));
  get_instruction_relative held offset sysvar w :=
    d ← borrow (rt:=example_runtime) held w sysvar;
    throw_if (negb (info_owner (rt:=example_runtime) w sysvar =? 4)) InvalidArgument;;
    Ok (mkInstruction (le_combine (take 32 d)) (drop 32 d));
  extract_commitment g := take 32 g;
  extract_ciphertext n g i :=
    if (length g =? 32 * (n + 1))%nat && (i <? n)%nat
    then Some (take 32 g ++ field (i + 1) g) else None;
|}.

(** The key of the secret [s], and the commitment, the handle and the ciphertext of [n]
    tokens for it, with the opening [r]. *)
Definition example_key (s : Z) : list byte := le_split 32 s.
Definition example_commitment (n r : Z) : list byte :=
  le_split 32 (n * le_combine ciphertext_arithmetic.G + r).
Definition example_ciphertext (s n r : Z) : list byte :=
  example_commitment n (s * r) ++ le_split 32 r.

(** The account data of a context. *)
Definition context_state (t : ProofType) (context : list byte) : list byte :=
  zeros 32 ++ [byte.of_Z (example_proof_type t)] ++ context.
