(* ===== verification/ExamplesInterface.v ===== *)
(** * Metadata and groups on concrete worlds

    Records for the metadata and group interfaces, packed field by field, for which
    the laws of the classes hold; and a mint that gets metadata and a group. *)
From Stdlib Require Import Strings.String.
From S2P Require Import Prelude Codec Errors Runtime Pod State ExtensionType ExtensionData Tlv.
From S2P Require Import TlvFacts TlvAlloc StateExt Fee Authority Transfer AccountFacts.
From S2P Require Import InitOps TransferFeeOps Instruction InstructionFacts Unborn AccountAlloc.
From S2P Require Import InterfaceOps AccountAllocFacts InterfaceFacts Examples.

#[local] Existing Instance example_runtime.
Import Example.

(** ** Metadata *)
Module example_metadata.
Record Metadata := mkMetadata {
  md_authority : Pubkey;
  md_mint : Pubkey;
  md_name : string;
  md_symbol : string;
  md_uri : string;
  md_additional : list (string * string);
}.
Inductive MetadataField := Name | Symbol | Uri | Key (k : string).

(** A string is its length, in 4 bytes, and its bytes. *)
Definition enc_string (s : string) : list byte :=
  let b := list_byte_of_string s in le_split 4 (Z.of_nat (length b)) ++ b.
Definition dec_string (l : list byte) : option (string * list byte) :=
  n ← get_to 4 l;
  let n := Z.to_nat (le_combine n) in
  b ← get_to n (drop 4 l);
  Some (string_of_list_byte b, drop (4 + n) l).
Definition fits (s : string) : bool := Z.of_nat (length (list_byte_of_string s)) <? 2 ^ 32.

Definition enc_pairs (l : list (string * string)) : list byte :=
  l ≫= λ '(k, v), enc_string k ++ enc_string v.
Fixpoint dec_pairs (n : nat) (l : list byte) : option (list (string * string)) :=
  match n with
  | O => Some []
  | S n =>
      '(k, l) ← dec_string l;
      '(v, l) ← dec_string l;
      kvs ← dec_pairs n l;
      Some ((k, v) :: kvs)
  end.

Definition enc (v : Metadata) : list byte :=
  le_split 32 (md_authority v) ++ le_split 32 (md_mint v) ++ enc_string (md_name v) ++
  enc_string (md_symbol v) ++ enc_string (md_uri v) ++
  le_split 4 (Z.of_nat (length (md_additional v))) ++ enc_pairs (md_additional v).
Definition dec (l : list byte) : option Metadata :=
  a ← get_to 32 l;
  m ← get_to 32 (drop 32 l);
  '(name, l) ← dec_string (drop 64 l);
  '(symbol, l) ← dec_string l;
  '(uri, l) ← dec_string l;
  n ← get_to 4 l;
  kvs ← dec_pairs (Z.to_nat (le_combine n)) (drop 4 l);
  Some (mkMetadata (le_combine a) (le_combine m) name symbol uri kvs).

Definition in_range_b (n k : Z) : bool := (0 <=? k) && (k <? 2 ^ n).
Definition packable (v : Metadata) : bool :=
  in_range_b 256 (md_authority v) && in_range_b 256 (md_mint v) && fits (md_name v) &&
  fits (md_symbol v) && fits (md_uri v) && (Z.of_nat (length (md_additional v)) <? 2 ^ 32) &&
  forallb (λ '(k, v), fits k && fits v) (md_additional v).

#[export] Instance Metadata_pack : VariableLenPack Metadata := {|
  get_packed_len v := if packable v then Ok (length (enc v)) else Err InvalidAccountData;
  v_pack_into_slice v bs :=
    if (length (enc v) <=? length bs)%nat then Ok (enc v ++ drop (length (enc v)) bs)
    else Err InvalidAccountData;
  v_unpack_from_slice bs := ok_or (dec bs) InvalidAccountData;
|}.

Lemma get_example_to_app n (l k : list byte) : length l = n → get_to n (l ++ k) = Some l.
Proof.
  intros Hl. unfold get_to. rewrite length_app, (proj2 (Nat.leb_le _ _)) by lia.
  by rewrite take_app_length'.
Qed.

Lemma dec_enc_string s l : fits s = true → dec_string (enc_string s ++ l) = Some (s, l).
Proof.
  intros Hs%Z.ltb_lt. unfold dec_string, enc_string. cbv zeta. rewrite <-app_assoc.
  rewrite get_example_to_app by apply length_le_split. cbn [mbind option_bind].
  rewrite le_combine_split_ok, Nat2Z.id by lia.
  rewrite (drop_app_length' (le_split 4 _) _ 4) by (by rewrite length_le_split).
  rewrite get_example_to_app by done. cbn [mbind option_bind].
  rewrite string_of_list_byte_of_string, app_assoc, drop_app_length'; [done|].
  by rewrite length_app, length_le_split.
Qed.

Lemma dec_enc_pairs kvs l : forallb (λ '(k, v), fits k && fits v) kvs = true →
  dec_pairs (length kvs) (enc_pairs kvs ++ l) = Some kvs.
Proof.
  induction kvs as [|[k v] kvs IH]; [done|]. cbn [forallb length dec_pairs].
  intros [[Hk Hv]%andb_true_iff Hr]%andb_true_iff. unfold enc_pairs. cbn [mbind list_bind].
  rewrite <-!app_assoc, dec_enc_string by done. cbn [mbind option_bind].
  rewrite dec_enc_string by done. cbn [mbind option_bind]. fold (enc_pairs kvs).
  by rewrite IH.
Qed.

Lemma dec_enc v : packable v = true → dec (enc v) = Some v.
Proof.
  unfold packable. intros [[[[[[Ha Hm]%andb_true_iff Hn]%andb_true_iff Hs]%andb_true_iff
    Hu]%andb_true_iff Hl%Z.ltb_lt]%andb_true_iff Hp]%andb_true_iff.
  apply andb_true_iff in Ha as [Ha1%Z.leb_le Ha2%Z.ltb_lt].
  apply andb_true_iff in Hm as [Hm1%Z.leb_le Hm2%Z.ltb_lt].
  unfold dec, enc. rewrite get_example_to_app by apply length_le_split. cbn [mbind option_bind].
  rewrite (drop_app_length' (le_split 32 _) _ 32) by (by rewrite length_le_split).
  rewrite get_example_to_app by apply length_le_split. cbn [mbind option_bind].
  rewrite (app_assoc (le_split 32 _) (le_split 32 _)), (drop_app_length' _ _ 64)
    by (by rewrite length_app, !length_le_split).
  do 3 (rewrite dec_enc_string by done; cbn [mbind option_bind]).
  rewrite get_example_to_app by apply length_le_split. cbn [mbind option_bind].
  rewrite (drop_app_length' (le_split 4 _) _ 4) by (by rewrite length_le_split).
  rewrite !le_combine_split_ok, Nat2Z.id by (unfold in_range_b in *; lia).
  rewrite <-(app_nil_r (enc_pairs _)), dec_enc_pairs by done. cbn [mbind option_bind].
  by destruct v.
Qed.

#[export] Instance Metadata_laws : VariableLenPackLaws Metadata.
Proof.
  constructor.
  - intros v bs bs'. cbn [v_pack_into_slice Metadata_pack].
    destruct (Nat.leb_spec (length (enc v)) (length bs)); [|done]. intros H'. apply Ok_inj in H' as <-.
    rewrite length_app, length_drop. lia.
  - intros v bs bs'. cbn [v_pack_into_slice v_unpack_from_slice get_packed_len Metadata_pack].
    destruct (packable v) eqn:Hp; [|done]. intros Hl%Ok_inj.
    rewrite Hl, Nat.leb_refl. intros H'. apply Ok_inj in H' as <-.
    rewrite drop_all, app_nil_r, dec_enc by done. done.
Qed.

Definition update (field : MetadataField) (value : string) (v : Metadata) : Metadata :=
  let 'mkMetadata a m n s u kvs := v in
  match field with
  | Name => mkMetadata a m value s u kvs
  | Symbol => mkMetadata a m n value u kvs
  | Uri => mkMetadata a m n s value kvs
  | Key k => mkMetadata a m n s u (filter (λ kv, kv.1 ≠ k) kvs ++ [(k, value)])
  end.
Definition remove (k : string) (v : Metadata) : Metadata * bool :=
  let 'mkMetadata a m n s u kvs := v in
  (mkMetadata a m n s u (filter (λ kv, kv.1 ≠ k) kvs), bool_decide (k ∈ kvs.*1)).
Definition slice_of (bs : list byte) (start end_ : option Z) : option (list byte) :=
  let a := Z.to_nat (default 0 start) in
  let b := default (length bs) (Z.to_nat <$> end_) in
  if (a <=? b)%nat && (b <=? length bs)%nat then Some (slice a b bs) else None.

Definition tagged (tag : Z) (l : list byte) : option (list byte) :=
  if bool_decide (take 8 l = le_split 8 tag) then Some (drop 8 l) else None.
Definition unpack_instruction (l : list byte) :
    option (token_metadata.TokenMetadataInstruction MetadataField) :=
  match tagged 210 l, tagged 211 l, tagged 212 l, tagged 213 l, tagged 214 l with
  | Some l, _, _, _, _ =>
      '(n, l) ← dec_string l; '(s, l) ← dec_string l; '(u, l) ← dec_string l;
      Some (token_metadata.Initialize n s u)
  | _, Some l, _, _, _ =>
      '(k, l) ← dec_string l; '(v, l) ← dec_string l;
      Some (token_metadata.UpdateField (if (String.length k =? 0)%nat then Uri else Key k) v)
  | _, _, Some l, _, _ => '(k, l) ← dec_string l; Some (token_metadata.RemoveKey true k)
  | _, _, _, Some l, _ =>
      a ← get_to 32 l; Some (token_metadata.UpdateAuthority (le_combine a))
  | _, _, _, _, Some l => Some (token_metadata.Emit None None)
  | _, _, _, _, _ => None
  end.
End example_metadata.
Import example_metadata.

#[export] Instance example_metadata_interface : token_metadata.MetadataInterface := {|
  token_metadata.TokenMetadata := Metadata;
  token_metadata.Field := MetadataField;
  token_metadata.new_metadata name symbol uri a mint := mkMetadata a mint name symbol uri [];
  token_metadata.update_authority := md_authority;
  token_metadata.set_update_authority a v :=
    let 'mkMetadata _ m n s u kvs := v in mkMetadata a m n s u kvs;
  token_metadata.update := update;
  token_metadata.remove_key := remove;
  token_metadata.get_slice := slice_of;
  token_metadata.metadata_error e := Custom 1;
  token_metadata.metadata_instruction_unpack := unpack_instruction;
|}.

(** ** Groups *)
Module example_group.
(** Mint, update authority, size and maximum size. *)
Definition Group : Type := Pubkey * (Pubkey * (Z * Z)).
Definition Group_codec : codec Group := pair_codec pubkey (pair_codec pubkey (pair_codec u64 u64)).
(** Mint, group and number. *)
Definition Member : Type := Pubkey * (Pubkey * Z).
Definition Member_codec : codec Member := pair_codec pubkey (pair_codec pubkey u64).

Definition set_max (n : Z) (g : Group) : res Group :=
  let '(mint, (a, (size, _))) := g in
  if n <? size then Err (Custom 2) else Ok (mint, (a, (size, n))).
Definition grow (g : Group) : res (Group * Z) :=
  let '(mint, (a, (size, mx))) := g in
  if mx <=? size then Err (Custom 3) else Ok ((mint, (a, (size + 1, mx))), size + 1).

Lemma set_max_Ok n mint a size mx g : set_max n (mint, (a, (size, mx))) = Ok g →
  size ≤ n ∧ g = (mint, (a, (size, n))).
Proof.
  unfold set_max. destruct (Z.ltb_spec n size); [done|]. by intros H'%Ok_inj.
Qed.
Lemma grow_Ok mint a size mx g n : grow (mint, (a, (size, mx))) = Ok (g, n) →
  size < mx ∧ n = size + 1 ∧ g = (mint, (a, (size + 1, mx))).
Proof.
  unfold grow. destruct (Z.leb_spec mx size); [done|]. intros H'%Ok_inj. by injection H' as <- <-.
Qed.

Definition unpack_instruction (l : list byte) : option token_group.TokenGroupInstruction :=
  match tagged 220 l, tagged 221 l, tagged 222 l, tagged 223 l with
  | Some l, _, _, _ =>
      a ← get_to 32 l; n ← get_to 8 (drop 32 l);
      Some (token_group.InitializeGroup (le_combine a) (le_combine n))
  | _, Some l, _, _ =>
      n ← get_to 8 l; Some (token_group.UpdateGroupMaxSize (le_combine n))
  | _, _, Some l, _ =>
      a ← get_to 32 l; Some (token_group.UpdateGroupAuthority (le_combine a))
  | _, _, _, Some l => Some token_group.InitializeMember
  | _, _, _, _ => None
  end.
End example_group.
Import example_group.

#[export] Instance example_group_interface : token_group.GroupInterface := {|
  token_group.TokenGroup := Group;
  token_group.TokenGroup_codec := Group_codec;
  token_group.TokenGroupMember := Member;
  token_group.TokenGroupMember_codec := Member_codec;
  token_group.new_group mint a n := (mint, (a, (0, n)));
  token_group.update_authority g := g.2.1;
  token_group.set_update_authority a g := (g.1, (a, g.2.2));
  token_group.update_max_size := set_max;
  token_group.increment_size := grow;
  token_group.new_member mint g n := (mint, (g, n));
  token_group.group_error e := Custom 4;
  token_group.group_instruction_unpack := example_group.unpack_instruction;
|}.

#[export] Program Instance example_group_laws : GroupLaws := {|
  group_size g := g.2.2.1;
  group_max_size g := g.2.2.2;
|}.
Next Obligation. 
  intros mint a n g Hm Ha Hn. subst g. split; [|done].
  split; [exact Hm|]. split; [exact Ha|]. split; [done|exact Hn].
Qed.
Next Obligation. intros a [mint [a' [s n]]] g' Ha (H1 & H2 & H3 & H4). subst g'. done. Qed.
Next Obligation.
  intros n [mint [a [s mx]]] g' Hn (H1 & H2 & H3 & H4) [Hle ->]%set_max_Ok.
  exact (conj (conj H1 (conj H2 (conj H3 Hn))) (conj eq_refl (conj eq_refl (conj eq_refl Hle)))).
Qed.
Next Obligation.
  intros [mint [a [s mx]]] g' n (H1 & H2 & H3 & H4) (Hlt & -> & ->)%grow_Ok.
  destruct H3 as [Hs _]. pose proof H4 as [_ Hmx]. cbn [snd fst] in *.
  assert (in_uint 64 (s + 1)) as H3 by (split; [lia|eapply Z.le_lt_trans; [|exact Hmx]; lia]).
  assert (s + 1 ≤ mx) as Hle by lia.
  exact (conj (conj H1 (conj H2 (conj H3 H4)))
    (conj eq_refl (conj eq_refl (conj eq_refl (conj eq_refl Hle))))).
Qed.
Next Obligation. intros mint g n Hm Hg Hn. done. Qed.
Next Obligation.
  intros [mint [a [s mx]]] (H1 & H2 & [H3 _] & [_ H4]). exact (conj H3 H4).
Qed.

(** ** Worlds of tidy mints *)
Lemma mints_tidy_empty r : mints_tidy (mkWorld ∅ r).
Proof.
  intros k m Hm%mint_at_Some. unfold get_account in Hm. cbn [accts] in Hm.
  rewrite lookup_empty in Hm. cbn in Hm. by apply unpack_Ok in Hm as [Hm%(f_equal length) _]; rewrite length_state_bytes in Hm.
Qed.

Lemma mints_tidy_insert w k a m : unpack_mint (data a) = Ok m → has_entries (tlv_data m) →
  mints_tidy w → mints_tidy (set_account w k a).
Proof.
  intros Hm He Hw j x Hx%mint_at_Some. rewrite get_set_account in Hx. case_decide.
  - rewrite Hm in Hx. by injection Hx as <-.
  - apply (Hw j). by apply mint_at_Some.
Qed.

Definition member_key : Pubkey := 110.
Definition bare_key : Pubkey := 120.
Definition gold : Metadata :=
  mkMetadata owner_key mint_key "Gold"%string "GLD"%string "ipfs://gold"%string [("carat", "24")%string].
Definition first_group : Group := (mint_key, (delegate_key, (1, 2))).

(** The entries of three mints: one with metadata and a group, one that can become a
    member of it, and one without metadata. *)
Definition group_entries : list entry :=
  [(ExtensionType.MetadataPointer, c_write ext_codec (mkMetadataPointer owner_key mint_key));
   (ExtensionType.GroupPointer, c_write ext_codec (mkGroupPointer owner_key mint_key));
   (ExtensionType.TokenMetadata, enc gold);
   (ExtensionType.TokenGroup, c_write Group_codec first_group)].
Definition member_entries : list entry :=
  [(ExtensionType.GroupMemberPointer, c_write ext_codec (mkGroupMemberPointer owner_key member_key))].
Definition bare_entries : list entry :=
  [(ExtensionType.MetadataPointer, c_write ext_codec (mkMetadataPointer owner_key bare_key))].

Definition mint_with (es : list entry) : PodStateMut PodMint :=
  mkState mint_base (type_byte PodMint) (tlv_of es 0).
Definition mint_account (es : list entry) : SolAccount :=
  mkAccount 1000 (state_bytes PodMint (mint_with es)) id.
Definition interface_world : world :=
  set_account (set_account (set_account (mkWorld ∅ [])
    mint_key (mint_account group_entries))
    member_key (mint_account member_entries))
    bare_key (mint_account bare_entries).

(** The entries are of known types, none twice, and short. *)
Definition entries_okb (es : list entry) : bool :=
  forallb (λ e, bool_decide (e.1 ≠ ExtensionType.Uninitialized) &&
    (Z.of_nat (length e.2) <? 2 ^ 16)) es && bool_decide (NoDup es.*1).
Lemma entries_okb_ok es : entries_okb es = true → entries_ok es.
Proof.
  intros [Hf Hd%bool_decide_eq_true]%andb_true_iff. split; [|done].
  apply Forall_forall. intros e He. rewrite forallb_forall in Hf. apply list_elem_of_In, Hf in He.
  apply andb_true_iff in He as [H1%bool_decide_eq_true H2%Z.ltb_lt]. split; [done|].
  unfold in_uint. lia.
Qed.

Lemma mint_with_ok es : length (state_bytes PodMint (mint_with es)) ≠ Multisig_LEN →
  state_ok PodMint (mint_with es).
Proof.
  intros Hl. constructor; [|done|by right|done].
  apply PodMint_ok. split_and!; try in_range; done.
Qed.

Lemma mints_tidy_with w k es : negb (length (state_bytes PodMint (mint_with es)) =? Multisig_LEN)%nat = true →
  entries_okb es = true → mints_tidy w → mints_tidy (set_account w k (mint_account es)).
Proof.
  intros Hl%negb_true_iff%Nat.eqb_neq He%entries_okb_ok Hw.
  apply (mints_tidy_insert w k _ (mint_with es)); [|by exists es, 0%nat|done].
  by apply unpack_state_bytes, mint_with_ok.
Qed.

Lemma interface_world_tidy : mints_tidy interface_world.
Proof.
  do 3 (apply mints_tidy_with; [vm_compute; reflexivity|vm_compute; reflexivity|]).
  apply mints_tidy_empty.
Qed.

(** ** The theorems applied *)
Definition rename_accounts : list AccountInfo := [info mint_key; signer owner_key].
Definition rename : token_metadata.TokenMetadataInstruction token_metadata.Field :=
  token_metadata.UpdateField Name "A much longer name for gold"%string.

Lemma metadata_update_effect_witness : ∃ w' new,
  token_metadata.process_instruction id rename_accounts rename interface_world = Ok w' ∧
  md_name new = "A much longer name for gold"%string ∧ has_metadata new mint_key w'.
Proof.
  assert (is_ok (token_metadata.process_instruction id rename_accounts rename interface_world) = true)
    as [w' Hw]%run_ok by (vm_compute; reflexivity).
  destruct (metadata_update_effect id rename_accounts rename interface_world w')
    as (mint & ai & rest & m & m' & old & new & Ha & _ & _ & _ & _ & _ & Hn & Hmd & _);
    [exact I|exact interface_world_tidy|exact Hw|].
  injection Ha as <- _ _. exists w', new. split; [exact Hw|]. split; [|exact Hmd].
  destruct old. injection Hn as <-. reflexivity.
Defined.

Definition describe_accounts : list AccountInfo :=
  [info bare_key; info owner_key; info bare_key; signer owner_key].
Definition describe : token_metadata.TokenMetadataInstruction token_metadata.Field :=
  token_metadata.Initialize "Iron"%string "FE"%string "ipfs://iron"%string.

Lemma metadata_initialize_emit_witness : ∃ w' bs,
  token_metadata.process_instruction id describe_accounts describe interface_world = Ok w' ∧
  packs (token_metadata.new_metadata "Iron" "FE" "ipfs://iron" owner_key bare_key) bs ∧
  token_metadata.process_instruction id [info bare_key] (token_metadata.Emit None None) w' =
    Ok (default w' (set_return_data w' <$> token_metadata.get_slice bs None None)).
Proof.
  assert (is_ok (token_metadata.process_instruction id describe_accounts describe interface_world) = true)
    as [w' Hw]%run_ok by (vm_compute; reflexivity).
  destruct (metadata_initialize_emit describe_accounts "Iron" "FE" "ipfs://iron" None None
    interface_world w' interface_world_tidy Hw)
    as (grown & ua & mint & ma & rest & m & m' & bs & Ha & _ & _ & _ & _ & _ & _ & _ & _ & Hp & He).
  injection Ha as _ <- <- _ _. exists w', bs. split; [exact Hw|]. split; [exact Hp|exact He].
Defined.

Definition join_accounts : list AccountInfo :=
  [info member_key; info member_key; signer owner_key; info mint_key; signer delegate_key].

Lemma keys_in_range accounts : forallb (λ i, in_range_b 256 (key i)) accounts = true →
  ∀ i, i ∈ accounts → in_uint 256 (key i).
Proof.
  intros H i Hi. rewrite forallb_forall in H. apply list_elem_of_In, H, andb_true_iff in Hi.
  destruct Hi as [H1%Z.leb_le H2%Z.ltb_lt]. by split.
Qed.

Lemma initialize_member_effect_witness : ∃ w' new,
  token_group.process_instruction join_accounts token_group.InitializeMember interface_world =
    Ok w' ∧
  group_at mint_key w' new ∧ group_size new = 2 ∧
  member_at member_key w' (token_group.new_member member_key mint_key 2).
Proof.
  assert (is_ok (token_group.process_instruction join_accounts token_group.InitializeMember
    interface_world) = true) as [w' Hw]%run_ok by (vm_compute; reflexivity).
  destruct (initialize_member_effect join_accounts interface_world w')
    as (mb & mint & ma & grp & ai & rest & w1 & old & new & Ha & _ & _ & _ & _ & (m & Hm & Hold) & _ & _ &
        Hnew & Hsz & _ & _ & Hmb & _);
    [exact interface_world_tidy|apply keys_in_range; vm_compute; reflexivity|exact Hw|].
  injection Ha as _ <- _ <- _ _.
  assert (group_size old = 1) as Hone.
  { assert ((match mint_at interface_world mint_key with
             | Some m => match get_mint_ext token_group.TokenGroup (tlv_data m) with
                         | Ok g => group_size g | _ => 0 end
             | None => 0 end) = 1) as H by (vm_compute; reflexivity).
    change (key (info mint_key)) with mint_key in Hm. rewrite Hm, Hold in H. exact H. }
  rewrite Hone in Hsz. rewrite Hsz in Hmb.
  exists w', new. split; [exact Hw|]. split; [exact Hnew|]. split; [exact Hsz|exact Hmb].
Defined.

(** Deciding that all groups are within their maximum. *)
Definition groups_withinb (w : world) : bool :=
  forallb (λ '(k, a), match unpack_mint (data a) with
    | Ok m => match get_mint_ext token_group.TokenGroup (tlv_data m) with
              | Ok g => group_size g <=? group_max_size g
              | _ => true
              end
    | _ => true
    end) (map_to_list (accts w)).
Lemma groups_withinb_ok w k g : groups_withinb w = true → group_at k w g →
  group_size g ≤ group_max_size g.
Proof.
  intros Hw (m & Hm%mint_at_Some & Hg). unfold get_account in Hm.
  destruct (accts w !! k) as [a|] eqn:Ha; cbn [default from_option] in Hm.
  - unfold groups_withinb in Hw. rewrite forallb_forall in Hw.
    apply elem_of_map_to_list, list_elem_of_In, Hw in Ha. cbn beta iota in Ha.
    cbv beta delta [Datatypes.id] in Hm. rewrite Hm, Hg in Ha. by apply Z.leb_le.
  - apply unpack_Ok in Hm as [Hm%(f_equal length) _]. by rewrite length_state_bytes in Hm.
Defined.

Lemma group_size_within_max_witness : ∃ w',
  token_group.process_instruction join_accounts token_group.InitializeMember interface_world =
    Ok w' ∧ ∀ k g, group_at k w' g → group_size g ≤ group_max_size g.
Proof.
  assert (is_ok (token_group.process_instruction join_accounts token_group.InitializeMember
    interface_world) = true) as [w' Hw]%run_ok by (vm_compute; reflexivity).
  exists w'. split; [exact Hw|].
  apply (group_size_within_max join_accounts token_group.InitializeMember interface_world w');
    [exact interface_world_tidy|apply keys_in_range; vm_compute; reflexivity|exact I|exact Hw|].
  intros k g. apply groups_withinb_ok. vm_compute. reflexivity.
Defined.
