(* ===== verification/ExamplesLedger.v ===== *)
(** * A run of the machine

    From a world without tokens: a mint with transfer fees and confidential transfers is
    created, tokens are minted, transferred and burnt, their fees harvested, an account
    is grown, and some of its tokens are encrypted and decrypted again; the mint gets
    metadata, which is then changed, and a group.  The supply
    invariant is applied to the world it ends in. *)
From S2P Require Import Prelude Codec Errors Runtime Pod State ExtensionType ExtensionData Tlv.
From S2P Require Import TlvFacts TlvAlloc StateExt Fee Authority Transfer AccountFacts.
From S2P Require Import TransferFacts Supply AccountOps AccountOpsFacts SetAuthority Instruction.
From S2P Require Import InitOps SystemOps TransferFeeOps CiphertextOps CiphertextFacts.
From S2P Require Import ProofExtraction ExtensionOps AccountAlloc InterfaceOps Unborn LedgerSpec.
From S2P Require Import Ledger UiAmountOps LedgerFacts FeeLedger ConfidentialLedger Processor.
From S2P Require Import Machine Liveness TransferErrors Examples ExamplesSystem ExamplesZk.
From S2P Require Import ExamplesInterface.

#[local] Existing Instance example_runtime.
#[local] Existing Instance example_metadata.Metadata_laws.
Import residues.
Import Example.

Definition example_process : list AccountInfo → list byte → world → res world :=
  process id.
Definition run (accounts : list AccountInfo) (input : list byte) (w : world) : world :=
  match example_process accounts input w with Ok w' => w' | _ => w end.

(** A run the machine can take. *)
Definition allowed (accounts : list AccountInfo) (input : list byte) (w : world) : bool :=
  is_ok (example_process accounts input w) &&
  forallb (λ i, (0 <=? key i) && (key i <? 2 ^ 256)) accounts &&
  (calls_programs input || acceptedb w (run accounts input w)).

Lemma allowed_step accounts input w : allowed accounts input w = true →
  step (Instruction accounts input) w (run accounts input w).
Proof.
  unfold allowed. intros [[Hok Hk]%andb_true_iff Ha]%andb_true_iff.
  assert (example_process accounts input w = Ok (run accounts input w)) as Hrun.
  { unfold run. by destruct (example_process accounts input w). }
  apply (step_instruction w _ accounts input); [| |exact Hrun].
  - intros i Hi. rewrite forallb_forall in Hk. apply list_elem_of_In, Hk, andb_true_iff in Hi.
    destruct Hi as [H1%Z.leb_le H2%Z.ltb_lt]. by split.
  - intros Hc. rewrite Hc in Ha. by apply acceptedb_ok.
Defined.

(** The proofs for the encrypted balance: its key, and what 60 tokens remain of. *)
Definition proof_key (n : Z) : Pubkey := 900 + n.
Definition source_elgamal : list byte := example_key 7.
Definition remaining_balance : list byte := example_ciphertext 7 60 0.

(** The world in which the accounts were created, and the instructions. *)
Definition ledger_world0 : world := mkWorld ∅ [].
Definition ledger_world1 : world := mkWorld
  (<[mint_key := mkAccount 1000 (zeros 616) id]>
   (<[source_key := mkAccount 1000 (zeros 178) id]>
    (<[dest_key := mkAccount 1000 (zeros 178) id]>
     (<[payer_key := mkAccount 5000 [] system_program_id]>
      (<[proof_key 0 := mkAccount 1000 (context_state ProofType.PubkeyValidity source_elgamal)
           zk_elgamal_proof_program_id]>
       (<[proof_key 1 := mkAccount 1000 (context_state ProofType.CiphertextCommitmentEquality
            (source_elgamal ++ remaining_balance ++ take 32 remaining_balance))
            zk_elgamal_proof_program_id]>
        (<[proof_key 2 := mkAccount 1000 (context_state ProofType.BatchedRangeProofU64
             (take 32 remaining_balance ++ zeros 224 ++ [byte.of_Z 64] ++ zeros 7))
             zk_elgamal_proof_program_id]> ∅))))))) [].

Definition base_input (i : TokenInstruction) : list byte := pack_instruction i.
Definition fee_input (i : TransferFeeInstruction) : list byte :=
  pack_instruction TokenInstruction.TransferFeeExtension ++ pack_transfer_fee_instruction i.

(** An instruction of a confidential extension. *)
Definition confidential_input (i : TokenInstruction) (tag : Z) (data : list byte) : list byte :=
  pack_instruction i ++ [byte.of_Z tag] ++ data.

Definition script : list (list AccountInfo * list byte) := [
  ([info mint_key],
   confidential_input TokenInstruction.ConfidentialTransferExtension 0
     (le_split 32 owner_key ++ [Byte.x01] ++ zeros 32));
  ([info mint_key],
   confidential_input TokenInstruction.ConfidentialTransferFeeExtension 0
     (le_split 32 owner_key ++ example_key 11));
  ([info mint_key],
   fee_input (InitializeTransferFeeConfig (Some owner_key) (Some owner_key) 100 5000));
  ([info mint_key],
   confidential_input TokenInstruction.MetadataPointerExtension 0
     (le_split 32 owner_key ++ le_split 32 mint_key));
  ([info mint_key],
   confidential_input TokenInstruction.GroupPointerExtension 0
     (le_split 32 owner_key ++ le_split 32 mint_key));
  ([info mint_key], base_input (TokenInstruction.InitializeMint2 6 owner_key None));
  ([info mint_key; info delegate_key; info mint_key; signer owner_key],
   le_split 8 210 ++ example_metadata.enc_string "Gold" ++ example_metadata.enc_string "GLD" ++
     example_metadata.enc_string "ipfs://gold");
  ([info mint_key; signer delegate_key],
   le_split 8 211 ++ example_metadata.enc_string "carat" ++ example_metadata.enc_string "24");
  ([info mint_key; info mint_key; signer owner_key],
   le_split 8 220 ++ le_split 32 delegate_key ++ le_split 8 5);
  ([info source_key; info mint_key], base_input (TokenInstruction.InitializeAccount3 owner_key));
  ([info dest_key; info mint_key], base_input (TokenInstruction.InitializeAccount3 delegate_key));
  ([info mint_key; info source_key; signer owner_key], base_input (TokenInstruction.MintTo 1000));
  ([info source_key; info mint_key; info dest_key; signer owner_key],
   base_input (TokenInstruction.TransferChecked 350 6));
  ([info mint_key; info dest_key], fee_input HarvestWithheldTokensToMint);
  ([info source_key; info mint_key; signer owner_key], base_input (TokenInstruction.Burn 100));
  ([signer payer_key; info native_mint.id; system_info],
   base_input TokenInstruction.CreateNativeMint);
  ([info source_key; signer payer_key; system_info; signer owner_key],
   base_input (TokenInstruction.Reallocate [ExtensionType.MemoTransfer;
     ExtensionType.ConfidentialTransferAccount; ExtensionType.ConfidentialTransferFeeAmount]));
  ([info source_key; info mint_key; info (proof_key 0); signer owner_key],
   confidential_input TokenInstruction.ConfidentialTransferExtension 2
     (zeros 36 ++ le_split 8 10 ++ [Byte.x00]));
  ([info source_key; info mint_key; signer owner_key],
   confidential_input TokenInstruction.ConfidentialTransferExtension 5
     (le_split 8 100 ++ [byte.of_Z 6]));
  ([info source_key; signer owner_key],
   confidential_input TokenInstruction.ConfidentialTransferExtension 8 (le_split 8 1 ++ zeros 36));
  ([info source_key; info mint_key; info (proof_key 1); info (proof_key 2); signer owner_key],
   confidential_input TokenInstruction.ConfidentialTransferExtension 6
     (le_split 8 40 ++ [byte.of_Z 6] ++ zeros 36 ++ zeros 2));
  ([info source_key; signer owner_key],
   base_input TokenInstruction.MemoTransferExtension ++ [Byte.x00]);
  ([info source_key; info delegate_key; signer owner_key],
   base_input (TokenInstruction.Approve 200));
  ([info mint_key], base_input (TokenInstruction.AmountToUiAmount 1234567))].

Fixpoint run_script (l : list (list AccountInfo * list byte)) (w : world) : world :=
  match l with
  | [] => w
  | (accounts, input) :: l => run_script l (run accounts input w)
  end.
Fixpoint script_allowed (l : list (list AccountInfo * list byte)) (w : world) : bool :=
  match l with
  | [] => true
  | (accounts, input) :: l => allowed accounts input w && script_allowed l (run accounts input w)
  end.
(** The events of the script after [events], the latest first. *)
Definition script_events (l : list (list AccountInfo * list byte)) (events : list event) :
    list event := rev_append ((λ '(accounts, input), Instruction accounts input) <$> l) events.

Lemma script_trace l events w0 w : script_allowed l w = true → trace events w0 w →
  trace (script_events l events) w0 (run_script l w).
Proof.
  revert events w. induction l as [|[accounts input] l IH]; intros events w; [done|].
  intros [Ha Hl]%andb_true_iff Ht. apply IH; [done|]. by eapply trace_cons; [|apply allowed_step].
Defined.

Definition ledger_world : world := run_script script ledger_world1.
Definition ledger_events : list event := script_events script [OtherPrograms].

Lemma example_runtime_ok : runtime_ok example_runtime.
Proof.
  constructor.
  - intros p s m d a l n w w' [= <-] k. split; [by split|]. intros H1 H2. by destruct H1.
  - intros; cbn; unfold in_uint; lia.
  - intros clk [= <-]. in_range.
  - split; [reflexivity|]. split; reflexivity.
Defined.

Lemma ledger_world_reached : trace ledger_events ledger_world0 ledger_world.
Proof.
  apply script_trace; [vm_compute; reflexivity|]. eapply trace_cons; [apply trace_nil|].
  apply step_other, foreign_stepb_ok. vm_compute. reflexivity.
Qed.

(** Deciding that no more was decrypted than had been encrypted. *)
Fixpoint coveredb (mk : Pubkey) (events : list event) : bool :=
  match events with
  | [] => true
  | e :: events' => (0 <=? hidden mk events) && coveredb mk events'
  end.
Lemma coveredb_ok mk events : coveredb mk events = true → covered mk events.
Proof.
  induction events as [|e events IH]; [done|]. cbn [coveredb covered].
  intros [H1%Z.leb_le H2]%andb_true_iff. split; [done|auto].
Defined.

Lemma ledger_world_covered : covered mint_key ledger_events.
Proof. apply coveredb_ok. vm_compute. reflexivity. Qed.

Lemma supply_is_exact_witness : ∃ m, mint_at ledger_world mint_key = Some m ∧
  supply (base m) = 900 ∧ mint_withheld m = 4 ∧ hidden mint_key ledger_events = 60 ∧
  total mint_key ledger_world + mint_withheld m + 60 = supply (base m).
Proof.
  assert ((match mint_at ledger_world mint_key with Some _ => true | None => false end) = true)
    as Hm by (vm_compute; reflexivity).
  destruct (mint_at ledger_world mint_key) as [m|] eqn:E; [clear Hm|discriminate Hm].
  assert (hidden mint_key ledger_events = 60) as Hh by (vm_compute; reflexivity).
  destruct (supply_is_exact mint_key ledger_events ledger_world0 ledger_world m
    example_runtime_ok) as [H _];
    [|intros k|exact ledger_world_reached|exact ledger_world_covered|exact E| |].
  - vm_compute. discriminate.
  - vm_compute. discriminate.
  - vm_compute. reflexivity.
  - rewrite Hh in H. exists m. split; [reflexivity|]. split; [|split; [|split; [exact Hh|exact H]]].
    + assert ((match mint_at ledger_world mint_key with Some m => supply (base m) | None => 0 end)
        = 900) as Hs by (vm_compute; reflexivity). rewrite E in Hs. exact Hs.
    + assert ((match mint_at ledger_world mint_key with Some m => mint_withheld m | None => 0 end)
        = 4) as Hs by (vm_compute; reflexivity). rewrite E in Hs. exact Hs.
Defined.

(** A further burn of 50 tokens. *)
Definition burn_accounts : list AccountInfo := [info source_key; info mint_key; signer owner_key].
Definition burn_input : list byte := base_input (TokenInstruction.Burn 50).

Lemma program_refines_ledger_witness :
  (∃ history, LedgerSpec.run history no_ledger ≡ Some (ledger_of mint_key ledger_world) ∧
     net_concealed history = hidden mint_key ledger_events ∧
     (issue (ledger_of mint_key ledger_world)).1 = net_supply history) ∧
  ∃ acts, forallb (permitted burn_input) acts = true ∧
    net_concealed acts = hides mint_key burn_accounts burn_input ∧
    LedgerSpec.run acts (ledger_of mint_key ledger_world) ≡
      Some (ledger_of mint_key (run burn_accounts burn_input ledger_world)).
Proof.
  destruct (program_refines_ledger mint_key ledger_events ledger_world0 ledger_world
    example_runtime_ok) as [Hh Hi];
    [|intros k|exact ledger_world_reached|exact ledger_world_covered|].
  - vm_compute. discriminate.
  - vm_compute. discriminate.
  - split; [exact Hh|]. apply (Hi burn_accounts burn_input).
    + intros i Hin. assert (forallb (λ i, (0 <=? key i) && (key i <? 2 ^ 256)) burn_accounts = true)
        as Hk by (vm_compute; reflexivity).
      rewrite forallb_forall in Hk. apply list_elem_of_In, Hk, andb_true_iff in Hin.
      destruct Hin as [H1%Z.leb_le H2%Z.ltb_lt]. split; [exact H1|exact H2].
    + intros _. apply acceptedb_ok. vm_compute. reflexivity.
    + assert (is_ok (example_process burn_accounts burn_input ledger_world) = true) as Hok
        by (vm_compute; reflexivity).
      unfold run. fold example_process.
      destruct (example_process burn_accounts burn_input ledger_world); [reflexivity|discriminate..].
Defined.

(** * A payment in a world the program reaches

    [ledger_world] is the end of a run from a world without tokens; its owner pays
    the other account. *)

(** Deciding [payment], but for the accounts. *)
Definition fee_okb (f : TransferFee) : bool :=
  (0 <=? tf_epoch f) && (tf_epoch f <? 2 ^ 64) &&
  (0 <=? tf_maximum_fee f) && (tf_maximum_fee f <? 2 ^ 64) &&
  (0 <=? tf_transfer_fee_basis_points f) && (tf_transfer_fee_basis_points f <=? MAX_FEE_BASIS_POINTS).
Lemma fee_okb_ok f : fee_okb f = true → fee_ok f.
Proof.
  unfold fee_okb, fee_ok, in_uint. rewrite !andb_true_iff, !Z.leb_le, !Z.ltb_lt. tauto.
Defined.

Definition paymentb (w : world) (si mi di ai : AccountInfo) (s d : PodStateMut PodAccount)
    (m : PodStateMut PodMint) (amt dec : Z) : bool :=
  (info_owner w si =? id) && (info_owner w di =? id) && (info_owner w mi =? id) &&
  negb (key si =? key di) && (acc_mint (base s) =? key mi) && (acc_mint (base d) =? key mi) &&
  negb (is_frozen (base s)) && negb (is_frozen (base d)) &&
  negb (is_ok (get_account_ext NonTransferableAccount (tlv_data s))) &&
  match get_mint_ext PausableConfig (tlv_data m) with
  | Ok e => negb (pod_bool (pc_paused e)) | _ => true end &&
  bool_decide (get_program_id PodMint (tlv_data m) = None) &&
  negb (memo_required PodAccount (tlv_data d)) &&
  match get_account_ext ConfidentialTransferAccount (tlv_data d) with
  | Ok c => pod_bool (cta_allow_non_confidential_credits c) | _ => true end &&
  (Pod.decimals (base m) =? dec) && negb (cpi_guard_blocks s ai) &&
  (acc_owner (base s) =? key ai) && is_signer ai && negb (data_len w ai =? PodMultisig_SIZE_OF)%nat &&
  bool_decide (co_get (delegate (base s)) ≠ Some (key ai)) &&
  (0 <=? amt) && (amt <=? amount (base s)) &&
  match get_mint_ext TransferFeeConfig (tlv_data m) with
  | Ok c => fee_okb (tfc_older_transfer_fee c) && fee_okb (tfc_newer_transfer_fee c) &&
            is_ok (get_account_ext TransferFeeAmount (tlv_data d))
  | _ => true end.

Lemma paymentb_ok w si mi di ai s d m amt dec : account_at w (key si) = Some s →
  account_at w (key di) = Some d → mint_at w (key mi) = Some m →
  paymentb w si mi di ai s d m amt dec = true → payment w si mi di ai s d m amt dec.
Proof.
  intros Hs Hd Hm. unfold paymentb. rewrite !andb_true_iff, !negb_true_iff.
  intros H. destruct_and?. repeat match goal with
  | H : (_ =? _) = true |- _ => apply Z.eqb_eq in H
  | H : (_ =? _) = false |- _ => apply Z.eqb_neq in H
  | H : (_ =? _)%nat = false |- _ => apply Nat.eqb_neq in H
  | H : (_ <=? _) = true |- _ => apply Z.leb_le in H
  | H : bool_decide _ = true |- _ => apply bool_decide_eq_true in H
  end.
  split; [constructor|done|by split]; try done; try (by split).
  - intros e He. rewrite He in *. by apply negb_true_iff.
  - by revert select (memo_required _ _ = false); intros ->.
  - intros c Hc. by rewrite Hc in *.
  - intros c Hc. rewrite Hc in *. rewrite !andb_true_iff in *. destruct_and?.
    by split; [|split]; [apply fee_okb_ok|apply fee_okb_ok|].
Defined.

Lemma payment_goes_through_witness : ∃ w' d d',
  example_process [info source_key; info mint_key; info dest_key; signer owner_key]
    (pack_instruction (TokenInstruction.TransferChecked 250 6)) ledger_world = Ok w' ∧
  account_at ledger_world dest_key = Some d ∧ account_at w' dest_key = Some d' ∧
  amount (base d') = amount (base d) + 247 ∧ withheld d' = withheld d + 3.
Proof.
  pose proof ledger_world_reached as Hsteps.
  assert ((match account_at ledger_world source_key, account_at ledger_world dest_key,
      mint_at ledger_world mint_key with
    | Some s, Some d, Some m =>
        paymentb ledger_world (info source_key) (info mint_key) (info dest_key) (signer owner_key)
          s d m 250 6 &&
        match get_mint_ext TransferFeeConfig (tlv_data m) with
        | Ok c => fee_of (get_epoch_fee c 10) 250 =? 3
        | _ => false end
    | _, _, _ => false end) = true) as Hb by (vm_compute; reflexivity).
  destruct (account_at ledger_world source_key) as [s|] eqn:Hs; [|discriminate Hb].
  destruct (account_at ledger_world dest_key) as [d|] eqn:Hd; [|discriminate Hb].
  destruct (mint_at ledger_world mint_key) as [m|] eqn:Hm; [|discriminate Hb].
  apply andb_true_iff in Hb as [Hb Hf].
  destruct (payment_goes_through ledger_events ledger_world0 ledger_world
    (info source_key) (info mint_key) (info dest_key) (signer owner_key) [] s d m 250 6
    (mkClock 10 1000)) as (w' & s' & d' & H1 & _ & H2 & _ & H3 & H4).
  - exact example_runtime_ok.
  - vm_compute. discriminate.
  - intros k. vm_compute. discriminate.
  - exact Hsteps.
  - exact ledger_world_covered.
  - reflexivity.
  - by apply paymentb_ok.
  - exists w', d, d'. split; [exact H1|]. split; [reflexivity|]. split; [exact H2|].
    cbn [epoch] in H3, H4.
    destruct (get_mint_ext TransferFeeConfig (tlv_data m)) as [c| |]; [|discriminate Hf..].
    apply Z.eqb_eq in Hf. rewrite Hf in H3, H4. split; [rewrite H3; reflexivity|exact H4].
Defined.

(** Deciding [request], but for the accounts. *)
Definition requestb (w : world) (si mi di ai : AccountInfo) (s d : PodStateMut PodAccount)
    (m : PodStateMut PodMint) (amt : Z) : bool :=
  (info_owner w si =? id) && (info_owner w di =? id) && (info_owner w mi =? id) &&
  negb (key si =? key di) && (0 <=? amt) && (amt <? 2 ^ 64) &&
  bool_decide (get_program_id PodMint (tlv_data m) = None) &&
  negb (data_len w ai =? PodMultisig_SIZE_OF)%nat &&
  match get_mint_ext TransferFeeConfig (tlv_data m) with
  | Ok c => fee_okb (tfc_older_transfer_fee c) && fee_okb (tfc_newer_transfer_fee c) &&
            is_ok (get_account_ext TransferFeeAmount (tlv_data d))
  | _ => true end.

Lemma requestb_ok w si mi di ai s d m amt : account_at w (key si) = Some s →
  account_at w (key di) = Some d → mint_at w (key mi) = Some m →
  requestb w si mi di ai s d m amt = true → request w si mi di ai s d m amt.
Proof.
  intros Hs Hd Hm. unfold requestb. rewrite !andb_true_iff, !negb_true_iff.
  intros H. destruct_and?. repeat match goal with
  | H : (_ =? _) = true |- _ => apply Z.eqb_eq in H
  | H : (_ =? _) = false |- _ => apply Z.eqb_neq in H
  | H : (_ =? _)%nat = false |- _ => apply Nat.eqb_neq in H
  | H : (_ <=? _) = true |- _ => apply Z.leb_le in H
  | H : (_ <? _) = true |- _ => apply Z.ltb_lt in H
  | H : bool_decide _ = true |- _ => apply bool_decide_eq_true in H
  end.
  constructor; try done; try (by split).
  intros c Hc. rewrite Hc in *. rewrite !andb_true_iff in *. destruct_and?.
  by split; [|split]; [apply fee_okb_ok|apply fee_okb_ok|].
Defined.

(** Too much, with the wrong decimals, and under a key that is not the owner's: the balance
    is the first error; with enough funds the decimals are.  The delegate may move what it
    was allowed, but not more. *)
Lemma transfer_checked_errors_witness :
  let send signer_key amt dec := example_process
    [info source_key; info mint_key; info dest_key; signer signer_key]
    (pack_instruction (TokenInstruction.TransferChecked amt dec)) ledger_world in
  send mint_key 100000 7 = Err (tok InsufficientFunds) ∧
  send mint_key 250 7 = Err (tok MintDecimalsMismatch) ∧
  send mint_key 250 6 = Err (tok OwnerMismatch) ∧ is_ok (send owner_key 250 6) = true ∧
  send delegate_key 250 6 = Err (tok InsufficientFunds) ∧ is_ok (send delegate_key 200 6) = true.
Proof.
  pose proof ledger_world_reached as Hsteps.
  assert ((match account_at ledger_world source_key, account_at ledger_world dest_key,
      mint_at ledger_world mint_key with
    | Some s, Some d, Some m =>
        forallb (λ '(k, amt, dec, o),
          requestb ledger_world (info source_key) (info mint_key) (info dest_key) (signer k)
            s d m amt && (0 <=? dec) && (dec <? 2 ^ 8) &&
          bool_decide (first_refusal (refusals s d mint_key m (signer k) amt dec) = o))
          [(mint_key, 100000, 7, Some (tok InsufficientFunds));
           (mint_key, 250, 7, Some (tok MintDecimalsMismatch));
           (mint_key, 250, 6, Some (tok OwnerMismatch)); (owner_key, 250, 6, None);
           (delegate_key, 250, 6, Some (tok InsufficientFunds)); (delegate_key, 200, 6, None)]
    | _, _, _ => false end) = true) as Hb by (vm_compute; reflexivity).
  destruct (account_at ledger_world source_key) as [s|] eqn:Hs; [|discriminate Hb].
  destruct (account_at ledger_world dest_key) as [d|] eqn:Hd; [|discriminate Hb].
  destruct (mint_at ledger_world mint_key) as [m|] eqn:Hm; [|discriminate Hb].
  assert (∀ k amt dec o,
    requestb ledger_world (info source_key) (info mint_key) (info dest_key) (signer k) s d m amt &&
      (0 <=? dec) && (dec <? 2 ^ 8) &&
      bool_decide (first_refusal (refusals s d mint_key m (signer k) amt dec) = o) = true →
    let result := example_process
      [info source_key; info mint_key; info dest_key; signer k]
      (pack_instruction (TokenInstruction.TransferChecked amt dec)) ledger_world in
    match o with Some e => result = Err e | None => is_ok result = true end) as H.
  { intros k amt dec o Hk. apply andb_prop in Hk as [[[Hq H1]%andb_prop H2]%andb_prop H3].
    apply bool_decide_eq_true in H3. apply Z.leb_le in H1. apply Z.ltb_lt in H2. rewrite <-H3.
    apply (transfer_checked_errors ledger_events ledger_world0 ledger_world
      (info source_key) (info mint_key) (info dest_key) (signer k) [] s d m amt dec
      (mkClock 10 1000)).
    - exact example_runtime_ok.
    - vm_compute. discriminate.
    - intros j. vm_compute. discriminate.
    - exact Hsteps.
    - exact ledger_world_covered.
    - reflexivity.
    - split; assumption.
    - apply requestb_ok; assumption. }
  cbn [forallb] in Hb.
  apply andb_prop in Hb as [B1 [B2 [B3 [B4 [B5 [B6 _]%andb_prop]%andb_prop]%andb_prop]%andb_prop]
    %andb_prop].
  split; [|split; [|split; [|split; [|split]]]].
  - apply (H mint_key 100000 7 (Some (tok InsufficientFunds))). exact B1.
  - apply (H mint_key 250 7 (Some (tok MintDecimalsMismatch))). exact B2.
  - apply (H mint_key 250 6 (Some (tok OwnerMismatch))). exact B3.
  - apply (H owner_key 250 6 None). exact B4.
  - apply (H delegate_key 250 6 (Some (tok InsufficientFunds))). exact B5.
  - apply (H delegate_key 200 6 None). exact B6.
Defined.
