(* ===== verification/ExamplesVault.v ===== *)
(** * Encrypted balances in concrete worlds

    Decision procedures for what the theorems on vaults suppose, with the residues
    for points and openings without blinding; then the theorems are applied to
    accounts and proofs. *)
From S2P Require Import Prelude Codec Errors Runtime Pod State ExtensionType ExtensionData Tlv.
From S2P Require Import TlvFacts TlvAlloc StateExt PackedExt Fee Authority Transfer AccountFacts.
From S2P Require Import TransferFacts AccountOps InitOps TransferFeeOps SystemOps.
From S2P Require Import CiphertextOps CiphertextFacts ProofExtraction ConfidentialOps.
From S2P Require Import ConfidentialTransferOps ConfidentialFeeOps ConfidentialMintBurnOps.
From S2P Require Import ConfidentialFacts ProofMeaning LedgerSpec Ledger ConfidentialLedger.
From S2P Require Import LedgerFacts Vaults EncryptedSupply EncryptedFees VaultEffects Wallet.
From S2P Require Import Examples ExamplesSystem ExamplesZk.

#[local] Existing Instance example_runtime.
Import residues.
Import Example.

(** The secret of a key is its number; a commitment opens to what it is a multiple
    by. *)
#[export] Program Instance example_openings : Openings := {|
  secret := le_combine;
  opens c n := c = encode (pmul n generator);
|}.
Next Obligation.
  intros c m n ->. rewrite <-pmul_generator_eq. split; [by intros ->%(inj encode)|by intros ->].
Qed.
Next Obligation. done. Qed.
Next Obligation.
  intros c d e m n He -> ->. rewrite add_ristretto_encode, <-pmul_add in He. congruence.
Qed.
Next Obligation.
  intros c d e m n He -> ->. rewrite subtract_ristretto_encode, <-pmul_opp, <-pmul_add in He.
  rewrite <-Z.add_opp_r. congruence.
Qed.
Next Obligation.
  intros k c e m Hk He ->. rewrite multiply_ristretto_encode, pmul_pmul in He by done. congruence.
Qed.

(** ** Deciding *)
Definition bytes_eqb (a b : list byte) : bool := bool_decide (a = b).

Definition decryptsb (s : Z) (c : list byte) (n : Z) : bool :=
  let h := residue_of (le_combine (drop 32 c)) in
  bytes_eqb c (pair_ciphertext (padd (pmul n generator) (pmul s h)) h).
Lemma decryptsb_ok s c n : decryptsb s c n = true → decrypts s c n.
Proof. intros H%bool_decide_eq_true. by eexists. Qed.

Definition opensb (c : list byte) (n : Z) : bool := bytes_eqb c (encode (pmul n generator)).
Lemma opensb_ok c n : opensb c n = true → opens c n.
Proof. apply bool_decide_eq_true. Qed.

Definition real_keyb (k : list byte) : bool := negb (bytes_eqb k (zeros elgamal_pubkey_len)).
Lemma real_keyb_ok k : real_keyb k = true → real_key k.
Proof. intros H%negb_true_iff. by apply bool_decide_eq_false in H. Qed.

(** A grouped ciphertext, given the number of handles *)
Definition groupedb (handles : nat) (g : list byte) (keys : list (list byte)) (n : Z) : bool :=
  opensb (take 32 g) n &&
  forallb (λ '(i, k), match extract_ciphertext handles g i with
                      | Some c => negb (real_keyb k) || decryptsb (le_combine k) c n
                      | None => true
                      end) (zip (seq 0 (length keys)) keys).
Lemma groupedb_ok handles g keys n : groupedb handles g keys n = true → grouped handles g keys n.
Proof.
  intros [Ho%opensb_ok Hk]%andb_prop. split; [done|]. intros i k c Hi Hr Hc.
  rewrite forallb_forall in Hk. specialize (Hk (i, k)). cbn beta iota in Hk. rewrite Hc in Hk.
  assert (real_keyb k = true) as Hb by (apply negb_true_iff; by apply bool_decide_eq_false).
  rewrite Hb in Hk. apply decryptsb_ok, Hk, list_elem_of_In, list_elem_of_lookup. exists i.
  apply lookup_zip_with_Some. exists i, k. split; [done|]. split; [|done].
  apply lookup_seq. split; [done|]. by eapply lookup_lt_Some.
Qed.

(** The amounts behind a context are given. *)
Definition validb (t : ProofType) : proof_context t → list Z → bool :=
  match t with
  | ProofType.CiphertextCiphertextEquality => λ c ns,
      let n := nth 0 ns 0 in
      (length (cc_second_pubkey c) =? 32)%nat && (length (cc_second_ciphertext c) =? 64)%nat &&
      decryptsb (le_combine (cc_first_pubkey c)) (cc_first_ciphertext c) n &&
      decryptsb (le_combine (cc_second_pubkey c)) (cc_second_ciphertext c) n
  | ProofType.CiphertextCommitmentEquality => λ c ns,
      let n := nth 0 ns 0 in
      real_keyb (eq_pubkey c) && decryptsb (le_combine (eq_pubkey c)) (eq_ciphertext c) n && opensb (eq_commitment c) n
  | ProofType.BatchedRangeProofU64 | ProofType.BatchedRangeProofU128
  | ProofType.BatchedRangeProofU256 => λ c ns,
      (length (rp_commitments c) =? 8)%nat && (length (rp_bit_lengths c) =? 8)%nat &&
      forallb (λ i, match rp_commitments c !! i, rp_bit_lengths c !! i, ns !! i with
                    | Some x, Some b, Some n => opensb x n && (0 <=? n) && (n <? 2 ^ b)
                    | _, _, _ => false
                    end) (seq 0 8)
  | ProofType.PercentageWithCap => λ c ns,
      let n := nth 0 ns 0 in opensb (pc_delta_commitment c) n && opensb (pc_claimed_commitment c) n
  | ProofType.BatchedGroupedCiphertext2HandlesValidity => λ c ns,
      let keys := [g2_first_pubkey c; g2_second_pubkey c] in
      groupedb 2 (g2_grouped_ciphertext_lo c) keys (nth 0 ns 0) &&
      groupedb 2 (g2_grouped_ciphertext_hi c) keys (nth 1 ns 0)
  | ProofType.BatchedGroupedCiphertext3HandlesValidity => λ c ns,
      let keys := [g3_first_pubkey c; g3_second_pubkey c; g3_third_pubkey c] in
      groupedb 3 (g3_grouped_ciphertext_lo c) keys (nth 0 ns 0) &&
      groupedb 3 (g3_grouped_ciphertext_hi c) keys (nth 1 ns 0)
  | _ => λ _ _, false
  end.

Lemma range_validb_ok (c : BatchedRangeProofContext) ns :
  validb ProofType.BatchedRangeProofU64 c ns = true → in_range c.
Proof.
  intros [[H1%Nat.eqb_eq H2%Nat.eqb_eq]%andb_prop H]%andb_prop. do 2 (split; [done|]).
  intros i x b Hx Hb _. rewrite forallb_forall in H.
  assert (In i (seq 0 8)) as Hi.
  { apply list_elem_of_In, elem_of_seq. apply lookup_lt_Some in Hx. lia. }
  specialize (H i Hi). cbn beta in H. rewrite Hx, Hb in H. destruct (ns !! i) as [n|]; [|discriminate H].
  apply andb_prop in H as [H Hn%Z.ltb_lt]. apply andb_prop in H as [Ho%opensb_ok H0%Z.leb_le].
  by exists n.
Qed.

Lemma validb_ok t c ns : validb t c ns = true → valid t c.
Proof.
  destruct t; try discriminate; intros H; try exact (range_validb_ok c ns H).
  - apply andb_prop in H as [[[H1%Nat.eqb_eq H2%Nat.eqb_eq]%andb_prop H3%decryptsb_ok]%andb_prop
      H4%decryptsb_ok].
    do 2 (split; [done|]). by eexists.
  - apply andb_prop in H as [[H1%real_keyb_ok H2%decryptsb_ok]%andb_prop H3%opensb_ok].
    split; [done|]. by eexists.
  - apply andb_prop in H as [H1%opensb_ok H2%opensb_ok]. right. by eexists.
  - apply andb_prop in H as [H1%groupedb_ok H2%groupedb_ok]. by do 2 eexists.
  - apply andb_prop in H as [H1%groupedb_ok H2%groupedb_ok]. by do 2 eexists.
Qed.

(** The accounts of proofs, with what was proved. *)
Definition proof_okb (table : list (Pubkey * (ProofType * list Z))) (k : Pubkey) (a : SolAccount) :
    bool :=
  if owner a =? zk_elgamal_proof_program_id then
    match (list_to_map table : gmap Pubkey (ProofType * list Z)) !! k with
    | Some (t, ns) =>
        (le_combine (slice 32 33 (data a)) =? example_proof_type t) &&
        validb t (example_context t (drop 33 (data a))) ns
    | None => false
    end
  else negb (owner a =? 4).
Definition proofs_holdb (table : list (Pubkey * (ProofType * list Z))) (w : world) : bool :=
  forallb (λ '(k, a), proof_okb table k a) (map_to_list (accts w)).

Lemma example_proof_type_inj t t' : example_proof_type t = example_proof_type t' → t = t'.
Proof. by destruct t, t'. Qed.

Lemma proof_okb_get table w k : proofs_holdb table w = true →
  proof_okb table k (get_account w k) = true.
Proof.
  intros H. unfold proofs_holdb in H. rewrite forallb_forall in H. unfold get_account.
  destruct (accts w !! k) as [a|] eqn:E; [|done].
  apply (H (k, a)). by apply list_elem_of_In, elem_of_map_to_list.
Qed.

Lemma proofs_holdb_ok table w : proofs_holdb table w = true → proofs_hold w.
Proof.
  intros H t held accounts off sysvar ctx rest. unfold verify_and_extract_context.
  destruct (off =? 0).
  - intros ([i rest'] & _ & (u & Ho%throw_unless_key & (d & [_ ->]%borrow_Ok & ([ty c] & Hd &
      (u1 & Ht%throw_unless_key & [= <- _])%bind_Ok)%bind_Ok)%bind_Ok)%bind_Ok)%bind_Ok.
    pose proof (proof_okb_get table w (key i) H) as Hk. unfold proof_okb in Hk.
    unfold info_owner in Ho. rewrite Ho, Z.eqb_refl in Hk.
    destruct (list_to_map table !! key i) as [[t' ns]|]; [|discriminate Hk].
    apply andb_prop in Hk as [Ht'%Z.eqb_eq Hv]. apply validb_ok in Hv.
    change (proof_context_state t (info_data w i)) with
      (if (length (info_data w i) <? 33)%nat then Err InvalidAccountData
       else Ok (le_combine (slice 32 33 (info_data w i)), example_context t (drop 33 (info_data w i))))
      in Hd.
    destruct (_ <? 33)%nat; [discriminate Hd|]. injection Hd as Hty Hc.
    change (pod_proof_type t) with (example_proof_type t) in Ht. unfold info_data in Hty, Hc.
    assert (t' = t) as -> by (apply example_proof_type_inj; congruence).
    by rewrite <-Hc.
  - intros ([sv rest'] & _ & (z & Hz & _)%bind_Ok)%bind_Ok.
    apply bind_Ok in Hz as (d & _ & (u & Ho%throw_unless_key & _)%bind_Ok).
    pose proof (proof_okb_get table w (key sv) H) as Hk. unfold proof_okb in Hk.
    unfold info_owner in Ho. rewrite Ho in Hk. discriminate Hk.
Qed.

(** What the accounts hold. *)
Definition decryptedb (c : ConfidentialTransferAccount) (v : vault) : bool :=
  let s := le_combine (cta_elgamal_pubkey c) in
  decryptsb s (cta_available_balance c) (v_available v) &&
  decryptsb s (cta_pending_balance_lo c) (v_lo v) &&
  decryptsb s (cta_pending_balance_hi c) (v_hi v) &&
  (cta_pending_balance_credit_counter c =? v_credits v) &&
  (cta_maximum_pending_balance_credit_counter c =? v_maximum v).
Definition vaultb (w : world) (k : Pubkey) (v : vault) : bool :=
  match account_at w k with
  | Some st =>
      match get_account_ext ConfidentialTransferAccount (tlv_data st) with
      | Ok c => (Pod.amount (base st) =? v_public v) && decryptedb c v
      | _ => false
      end
  | None => false
  end.
Lemma vaultb_ok w k v : vaultb w k v = true → vault_at w k v.
Proof.
  unfold vaultb. destruct (account_at w k) as [st|] eqn:Hst; [|discriminate].
  destruct (get_account_ext ConfidentialTransferAccount (tlv_data st)) as [c| |] eqn:Hc; [|discriminate..].
  intros [Ha%Z.eqb_eq [[[[H1%decryptsb_ok H2%decryptsb_ok]%andb_prop H3%decryptsb_ok]%andb_prop
    H4%Z.eqb_eq]%andb_prop H5%Z.eqb_eq]%andb_prop]%andb_prop.
  by exists st, c.
Qed.

Definition keyedb (w : world) (k : Pubkey) : bool :=
  match account_at w k with
  | Some st =>
      match get_account_ext ConfidentialTransferAccount (tlv_data st) with
      | Ok c => real_keyb (cta_elgamal_pubkey c)
      | _ => true
      end
  | None => true
  end.
Lemma keyedb_ok w k : keyedb w k = true → keyed w k.
Proof. intros H st c Hst Hc. unfold keyedb in H. rewrite Hst, Hc in H. by apply real_keyb_ok. Qed.

Definition supply_keyedb (w : world) (k : Pubkey) : bool :=
  match mint_at w k with
  | Some m =>
      match get_mint_ext ConfidentialMintBurn (tlv_data m) with
      | Ok e => real_keyb (cmb_supply_elgamal_pubkey e)
      | _ => true
      end
  | None => true
  end.
Lemma supply_keyedb_ok w k : supply_keyedb w k = true → supply_keyed w k.
Proof.
  intros H m e Hm He. unfold supply_keyedb in H. rewrite Hm, He in H. by apply real_keyb_ok.
Qed.

Definition supplyb (w : world) (k : Pubkey) (s p : Z) : bool :=
  match mint_at w k with
  | Some m =>
      match get_mint_ext ConfidentialMintBurn (tlv_data m) with
      | Ok e =>
          let key := le_combine (cmb_supply_elgamal_pubkey e) in
          decryptsb key (cmb_confidential_supply e) s && decryptsb key (cmb_pending_burn e) p
      | _ => false
      end
  | None => false
  end.
Lemma supplyb_ok w k s p : supplyb w k s p = true → supply_at w k s p.
Proof.
  unfold supplyb. destruct (mint_at w k) as [m|] eqn:Hm; [|discriminate].
  destruct (get_mint_ext ConfidentialMintBurn (tlv_data m)) as [e| |] eqn:He; [|discriminate..].
  intros [H1%decryptsb_ok H2%decryptsb_ok]%andb_prop. by exists m, e.
Qed.

Definition withheldb (w : world) (k : Pubkey) (pk : list byte) (n : Z) : bool :=
  match encrypted w k with
  | Some (_, _, Some e) => decryptsb (le_combine pk) (ctfa_withheld_amount e) n
  | _ => false
  end.
Lemma withheldb_ok w k pk n : withheldb w k pk n = true → withheld_at w k pk n.
Proof.
  unfold withheldb. destruct (encrypted w k) as [[[x c] [e|]]|] eqn:E; [|discriminate..].
  intros H%decryptsb_ok. by exists x, c, e.
Qed.

Lemma example_sizes : crypto_sizes example_runtime.
Proof. split; [reflexivity|]. split; reflexivity. Defined.

(** ** The worlds *)
Definition encrypted_tlv (s av lo hi withheld : Z) : list byte :=
  tlv_of [(ExtensionType.ConfidentialTransferAccount, c_write ext_codec
             (mkConfidentialTransferAccount 1 (example_key s) (example_ciphertext s lo 3)
                (example_ciphertext s hi 4) (example_ciphertext s av 5) (zeros 36) 1 1 1 10 1 1));
          (ExtensionType.ConfidentialTransferFeeAmount, c_write ext_codec
             (mkConfidentialTransferFeeAmount (example_ciphertext 11 withheld 6)))] 0.
Definition encrypted_account (owner amount s av lo hi withheld : Z) : SolAccount :=
  mkAccount 1000 (state_bytes PodAccount (mkState (account_base owner amount) (type_byte PodAccount)
                    (encrypted_tlv s av lo hi withheld))) id.
Definition mint_with (es : list entry) : SolAccount :=
  mkAccount 1000 (state_bytes PodMint (mkState mint_base (type_byte PodMint) (tlv_of es 0))) id.

(** The auditor has the secret 21, or the mint has none: its key is zero; fees are for 11,
    the supply is for 31. *)
Definition auditing_mint (auditor : Z) : entry :=
  (ExtensionType.ConfidentialTransferMint,
   c_write ext_codec (mkConfidentialTransferMint owner_key 1 (example_key auditor))).
Definition fee_mint : list entry :=
  [auditing_mint 21; (ExtensionType.TransferFeeConfig, c_write ext_codec fee_config);
   (ExtensionType.ConfidentialTransferFeeConfig, c_write ext_codec
      (mkConfidentialTransferFeeConfig owner_key (example_key 11) 1 (example_ciphertext 11 8 7)))].
Definition supply_mint : list entry :=
  [auditing_mint 0; (ExtensionType.ConfidentialMintBurn, c_write ext_codec
     (mkConfidentialMintBurn (example_ciphertext 31 500 8) (zeros 36) (example_key 31)
        (example_ciphertext 31 2 9)))].

(** A context of each proof an instruction needs, by number. *)
Definition proof_key (n : Z) : Pubkey := 900 + n.
Definition proof_account (t : ProofType) (context : list byte) : SolAccount :=
  mkAccount 1000 (context_state t context) zk_elgamal_proof_program_id.

Definition commitment (n : Z) : list byte := example_commitment n 0.
(** [n] in the ciphertext of the secret [s], with the handle [r], equals a commitment. *)
Definition equality_proof (s n r : Z) : SolAccount :=
  proof_account ProofType.CiphertextCommitmentEquality
    (example_key s ++ example_ciphertext s n r ++ commitment n).
Definition validity_proof (t : ProofType) (keys : list Z) (lo hi : Z) : SolAccount :=
  let handles := zeros (32 * length keys) in
  proof_account t ((keys ≫= example_key) ++ commitment lo ++ handles ++ commitment hi ++ handles).
Definition range_proof (t : ProofType) (ns bits : list Z) : SolAccount :=
  proof_account t ((ns ≫= commitment) ++ (byte.of_Z <$> bits)).

Definition vault_world (mint : SolAccount) (proofs : list SolAccount) : world := mkWorld
  (<[mint_key := mint]>
   (<[source_key := encrypted_account owner_key 900 7 1000 5 1 4]>
    (<[dest_key := encrypted_account delegate_key 600 9 60 2 0 1]>
     (list_to_map (imap (λ i a, (proof_key (Z.of_nat i), a)) proofs))))) [].

Definition source_vault : vault := mkVault 900 1000 5 1 1 10.
Definition dest_vault : vault := mkVault 600 60 2 0 1 10.

(** *** Deposits, withdrawals and transfers, without an auditor *)
Definition plain_world : world := vault_world (mint_with [auditing_mint 0])
  [equality_proof 7 960 5; range_proof ProofType.BatchedRangeProofU64 [960; 0; 0; 0; 0; 0; 0; 0]
     [64; 0; 0; 0; 0; 0; 0; 0];
   equality_proof 7 750 5;
   validity_proof ProofType.BatchedGroupedCiphertext3HandlesValidity [7; 9; 0] 250 0;
   range_proof ProofType.BatchedRangeProofU128 [750; 250; 0; 0; 0; 0; 0; 0] [64; 16; 32; 16; 0; 0; 0; 0]].
Definition plain_proofs : list (Pubkey * (ProofType * list Z)) :=
  [(proof_key 0, (ProofType.CiphertextCommitmentEquality, [960]));
   (proof_key 1, (ProofType.BatchedRangeProofU64, [960; 0; 0; 0; 0; 0; 0; 0]));
   (proof_key 2, (ProofType.CiphertextCommitmentEquality, [750]));
   (proof_key 3, (ProofType.BatchedGroupedCiphertext3HandlesValidity, [250; 0]));
   (proof_key 4, (ProofType.BatchedRangeProofU128, [750; 250; 0; 0; 0; 0; 0; 0]))].

Example plain_proofs_hold : proofs_holdb plain_proofs plain_world = true.
Proof. vm_compute. reflexivity. Qed.
Example plain_source : vaultb plain_world source_key source_vault = true.
Proof. vm_compute. reflexivity. Qed.
Example plain_dest : vaultb plain_world dest_key dest_vault = true.
Proof. vm_compute. reflexivity. Qed.

Import confidential_transfer.
Definition proof (n : Z) : AccountInfo := info (proof_key n).

Definition run_deposit : res world :=
  process_deposit id [info source_key; info mint_key; signer owner_key] 300 6 plain_world.
Definition run_apply : res world :=
  process_apply_pending_balance id [info source_key; signer owner_key] 1 (zeros 36) plain_world.
Definition run_withdraw : res world :=
  process_withdraw id [info source_key; info mint_key; proof 0; proof 1; signer owner_key] 40 6
    (zeros 36) 0 0 plain_world.
(** 250 tokens from the source to the destination *)
Definition transfer_run (w : world) : res world :=
  process_transfer id ([info source_key; info mint_key; info dest_key; proof 2; proof 3; proof 4;
      signer owner_key]) (zeros 36) (commitment 250 ++ zeros 32) (commitment 0 ++ zeros 32)
    0 0 None None 0 w.

Example runs_ok : forallb is_ok [run_deposit; run_apply; run_withdraw; transfer_run plain_world] = true.
Proof. vm_compute. reflexivity. Qed.

(** *** Transfers with a fee, and the fees

    250 tokens with a fee of 3, the hundredth part rounded up by 5000 in 10000. *)
Definition fee_world : world := vault_world (mint_with fee_mint)
  [equality_proof 7 750 5;
   validity_proof ProofType.BatchedGroupedCiphertext3HandlesValidity [7; 9; 21] 250 0;
   proof_account ProofType.PercentageWithCap
     (commitment 3 ++ commitment 5000 ++ commitment 5000 ++ le_split 8 5000);
   validity_proof ProofType.BatchedGroupedCiphertext2HandlesValidity [9; 11] 3 0;
   range_proof ProofType.BatchedRangeProofU256 [750; 250; 0; 5000; 4999; 3; 0; 247]
     [64; 16; 32; 16; 16; 16; 32; 64];
   proof_account ProofType.CiphertextCiphertextEquality
     (example_key 11 ++ example_key 9 ++ example_ciphertext 11 5 12 ++ example_ciphertext 9 5 20)].
Definition fee_proofs : list (Pubkey * (ProofType * list Z)) :=
  [(proof_key 0, (ProofType.CiphertextCommitmentEquality, [750]));
   (proof_key 1, (ProofType.BatchedGroupedCiphertext3HandlesValidity, [250; 0]));
   (proof_key 2, (ProofType.PercentageWithCap, [5000]));
   (proof_key 3, (ProofType.BatchedGroupedCiphertext2HandlesValidity, [3; 0]));
   (proof_key 4, (ProofType.BatchedRangeProofU256, [750; 250; 0; 5000; 4999; 3; 0; 247]));
   (proof_key 5, (ProofType.CiphertextCiphertextEquality, [5]))].

Definition fee_transfer_run : res world :=
  process_transfer id ([info source_key; info mint_key; info dest_key] ++
      (proof <$> [0; 1; 2; 3; 4]) ++ [signer owner_key]) (zeros 36)
    (commitment 250 ++ zeros 32) (commitment 0 ++ zeros 32) 0 0 (Some 0) (Some 0) 0 fee_world.
(** The fees of both accounts, 4 and 1, go to the destination. *)
Definition fee_withdraw_run : res world :=
  confidential_transfer_fee.process_withdraw_withheld_tokens_from_accounts id
    ([info mint_key; info dest_key; proof 5; signer owner_key; info source_key; info dest_key])
    2 (zeros 36) 0 fee_world.

Example fee_runs_ok : proofs_holdb fee_proofs fee_world && is_ok fee_transfer_run &&
  is_ok fee_withdraw_run = true.
Proof. vm_compute. reflexivity. Qed.

(** *** Minting and burning *)
Definition supply_world : world := vault_world (mint_with supply_mint)
  [equality_proof 31 570 8;
   validity_proof ProofType.BatchedGroupedCiphertext3HandlesValidity [7; 31; 0] 70 0;
   range_proof ProofType.BatchedRangeProofU128 [570; 70; 0; 0; 0; 0; 0; 0] [64; 16; 32; 16; 0; 0; 0; 0];
   equality_proof 7 975 5;
   validity_proof ProofType.BatchedGroupedCiphertext3HandlesValidity [7; 31; 0] 25 0;
   range_proof ProofType.BatchedRangeProofU128 [975; 25; 0; 0; 0; 0; 0; 0] [64; 16; 32; 16; 0; 0; 0; 0]].
Definition supply_proofs : list (Pubkey * (ProofType * list Z)) :=
  [(proof_key 0, (ProofType.CiphertextCommitmentEquality, [570]));
   (proof_key 1, (ProofType.BatchedGroupedCiphertext3HandlesValidity, [70; 0]));
   (proof_key 2, (ProofType.BatchedRangeProofU128, [570; 70; 0; 0; 0; 0; 0; 0]));
   (proof_key 3, (ProofType.CiphertextCommitmentEquality, [975]));
   (proof_key 4, (ProofType.BatchedGroupedCiphertext3HandlesValidity, [25; 0]));
   (proof_key 5, (ProofType.BatchedRangeProofU128, [975; 25; 0; 0; 0; 0; 0; 0]))].

Import confidential_mint_burn.
Definition auditor_ciphertext (n : Z) : list byte := commitment n ++ zeros 32.
Definition mint_run : res world :=
  process_confidential_mint id [info source_key; info mint_key; proof 0; proof 1; proof 2;
    signer owner_key] (mkMintData (zeros 36) (auditor_ciphertext 70) (auditor_ciphertext 0) 0 0 0)
    supply_world.
Definition burn_run : res world :=
  process_confidential_burn id [info source_key; info mint_key; proof 3; proof 4; proof 5;
    signer owner_key] (mkBurnData (zeros 36) (auditor_ciphertext 25) (auditor_ciphertext 0) 0 0 0)
    supply_world.
Example supply_runs_ok : proofs_holdb supply_proofs supply_world && is_ok mint_run &&
  is_ok burn_run = true.
Proof. vm_compute. reflexivity. Qed.

(** A mint is closed by its public supply alone: here 500 tokens are encrypted, 2 of them
    burnt. *)
Definition closable_mint_world : world := mkWorld
  (<[mint_key := mkAccount 1000 (state_bytes PodMint (mkState (set_supply 0 mint_base) (type_byte PodMint)
       (tlv_of ((ExtensionType.MintCloseAuthority, c_write ext_codec (mkMintCloseAuthority owner_key))
                :: supply_mint) 0))) id]> (accts supply_world)) [].
Lemma mint_closed_with_encrypted_supply :
  supplyb closable_mint_world mint_key 500 2 &&
  is_ok (process_close_account id [info mint_key; info dest_key; signer owner_key]
    closable_mint_world) = true.
Proof. vm_compute. reflexivity. Qed.

(** ** The theorems applied *)
Lemma run_Ok {A} (r : res A) : is_ok r = true → ∃ a, r = Ok a.
Proof. by destruct r as [a| |]; [exists a|..]. Defined.

Lemma process_deposit_effect_witness : ∃ w', run_deposit = Ok w' ∧
  ∃ st lo hi, account_at plain_world source_key = Some st ∧
    convertible id plain_world (info source_key) (info mint_key) (signer owner_key) [] 6 st ∧
    300 = combined lo hi ∧ vault_at w' source_key (v_deposit lo hi source_vault).
Proof.
  destruct (run_Ok run_deposit) as [w' Hw]; [runs|]. exists w'. split; [exact Hw|].
  destruct (process_deposit_effect id (info source_key) (info mint_key) (signer owner_key) [] 300 6
    plain_world w' source_vault example_sizes ltac:(in_range) Hw) as (st & lo & hi & H1 & H2 & H3 & _ & _ & _ & _ & H4 & _);
    [apply vaultb_ok; runs|].
  exists st, lo, hi. assumptions.
Defined.

Lemma process_apply_pending_balance_effect_witness : ∃ w', run_apply = Ok w' ∧
  vault_at w' source_key (mkVault 900 (1000 + combined 5 1) 0 0 0 10).
Proof.
  destruct (run_Ok run_apply) as [w' Hw]; [runs|]. exists w'. split; [exact Hw|].
  exact (proj1 (process_apply_pending_balance_effect id (info source_key) (signer owner_key) [] 1
    (zeros 36) plain_world w' source_vault example_sizes ltac:(in_range) eq_refl Hw
    ltac:(apply vaultb_ok; runs))).
Defined.

Lemma process_withdraw_effect_witness : ∃ w', run_withdraw = Ok w' ∧
  vault_at w' source_key (mkVault 940 960 5 1 1 10) ∧ v_total (v_withdraw 40 source_vault) = 67441.
Proof.
  destruct (run_Ok run_withdraw) as [w' Hw]; [runs|]. exists w'. split; [exact Hw|].
  destruct (process_withdraw_effect id (info source_key) (info mint_key)
    [proof 0; proof 1; signer owner_key] 40 6 (zeros 36) 0 0 plain_world w' source_vault example_sizes
    ltac:(apply (proofs_holdb_ok plain_proofs); runs) ltac:(in_range) eq_refl ltac:(in_range) Hw
    ltac:(apply vaultb_ok; runs)) as (st & ai & signers & _ & _ & _ & H1 & H2 & _).
  split; [exact H1|]. rewrite H2. runs.
Defined.

Lemma example_foreign : hook_foreign example_runtime.
Proof.
  intros p s m d a l n w w' [= <-] k. split; [by split|]. intros H1 H2. by destruct H1.
Defined.

(** A mint, and one of its extensions *)
Lemma mint_read (w : world) V `{!Extension V} :
  (match mint_at w mint_key with
   | Some m => is_ok (get_mint_ext V (tlv_data m))
   | None => false
   end) = true → ∃ m x, mint_at w mint_key = Some m ∧ get_mint_ext V (tlv_data m) = Ok x.
Proof.
  destruct (mint_at w mint_key) as [m|]; [|discriminate]. intros [x Hx]%run_Ok. by exists m, x.
Defined.

Lemma process_transfer_effect_witness : ∃ w', transfer_run plain_world = Ok w' ∧
  ∃ lo hi, 0 ≤ v_available source_vault - combined lo hi < 2 ^ 64 ∧
    vault_at w' source_key (v_send (combined lo hi) source_vault) ∧
    vault_at w' dest_key (v_receive lo hi dest_vault).
Proof.
  destruct (run_Ok (transfer_run plain_world)) as [w' Hw]; [runs|]. exists w'. split; [exact Hw|].
  destruct (mint_read plain_world ConfidentialTransferMint) as (m & cm & Hm & Hcm); [runs|].
  assert ((match mint_at plain_world mint_key with
           | Some m => negb (is_ok (get_mint_ext TransferFeeConfig (tlv_data m)))
           | None => false
           end) = true) as Hf by runs.
  rewrite Hm in Hf. apply negb_true_iff in Hf.
  destruct (process_transfer_effect id (info source_key) (info mint_key) (info dest_key)
    [proof 2; proof 3; proof 4; signer owner_key] (zeros 36) (auditor_ciphertext 250)
    (auditor_ciphertext 0) 0 0 None None 0 plain_world w' m cm source_vault dest_vault example_sizes
    example_foreign ltac:(apply (proofs_holdb_ok plain_proofs); runs) eq_refl Hm Hcm Hf
    ltac:(apply vaultb_ok; runs) ltac:(in_range) ltac:(apply vaultb_ok; runs)
    ltac:(apply keyedb_ok; runs) Hw)
    as (_ & _ & lo & hi & _ & _ & H1 & _ & H2 & _).
  destruct (H2 ltac:(discriminate)) as (_ & H3 & H4 & _). exists lo, hi. exact (conj H1 (conj H3 H4)).
Defined.

Lemma process_transfer_with_fee_effect_witness : ∃ w', fee_transfer_run = Ok w' ∧
  ∃ lo hi f_lo f_hi, 0 ≤ combined f_lo f_hi ≤ combined lo hi ∧
    vault_at w' source_key (v_send (combined lo hi) source_vault) ∧
    vault_at w' dest_key (v_receive (lo - f_lo) (hi - f_hi) dest_vault) ∧
    withheld_at w' dest_key (example_key 11) (1 + combined f_lo f_hi).
Proof.
  destruct (run_Ok fee_transfer_run) as [w' Hw]; [runs|]. exists w'. split; [exact Hw|].
  destruct (mint_read fee_world ConfidentialTransferMint) as (m & cm & Hm & Hcm); [runs|].
  destruct (mint_read fee_world TransferFeeConfig) as (m1 & cfg & Hm1 & Hcfg); [runs|].
  destruct (mint_read fee_world ConfidentialTransferFeeConfig) as (m2 & fcfg & Hm2 & Hfcfg); [runs|].
  rewrite Hm in Hm1, Hm2. injection Hm1 as <-. injection Hm2 as <-.
  assert ((match mint_at fee_world mint_key with
           | Some m =>
               match get_mint_ext ConfidentialTransferFeeConfig (tlv_data m) with
               | Ok c => bytes_eqb (ctfc_withdraw_withheld_authority_elgamal_pubkey c) (example_key 11)
               | _ => false
               end
           | None => false
           end) = true) as Hk by runs.
  rewrite Hm, Hfcfg in Hk. apply bool_decide_eq_true in Hk.
  destruct (process_transfer_with_fee_effect id (info source_key) (info mint_key) (info dest_key)
    ((proof <$> [0; 1; 2; 3; 4]) ++ [signer owner_key]) (zeros 36) (auditor_ciphertext 250)
    (auditor_ciphertext 0) 0 0 (Some 0) (Some 0) 0 fee_world w' m cm cfg fcfg source_vault dest_vault 1
    example_sizes example_foreign ltac:(apply (proofs_holdb_ok fee_proofs); runs) eq_refl Hm Hcm Hcfg
    Hfcfg ltac:(apply vaultb_ok; runs) ltac:(in_range) ltac:(apply vaultb_ok; runs)
    ltac:(apply keyedb_ok; runs) ltac:(rewrite Hk; apply withheldb_ok; runs) ltac:(discriminate) Hw)
    as (clk & lo & hi & f_lo & f_hi & _ & H1 & _ & _ & _ & _ & _ & _ & H2 & H3 & H4 & _).
  rewrite Hk in H4. specialize (H4 ltac:(by apply real_keyb_ok)). exists lo, hi, f_lo, f_hi.
  exact (conj H1 (conj H2 (conj H3 H4))).
Defined.

Lemma process_confidential_mint_effect_witness : ∃ w', mint_run = Ok w' ∧
  ∃ lo hi, vault_at w' source_key (v_receive lo hi source_vault) ∧
    supply_at w' mint_key (500 + combined lo hi) 2.
Proof.
  destruct (run_Ok mint_run) as [w' Hw]; [runs|]. exists w'. split; [exact Hw|].
  destruct (process_confidential_mint_effect id (info source_key) (info mint_key)
    [proof 0; proof 1; proof 2; signer owner_key]
    (mkMintData (zeros 36) (auditor_ciphertext 70) (auditor_ciphertext 0) 0 0 0) supply_world w'
    source_vault 500 2 example_sizes ltac:(apply (proofs_holdb_ok supply_proofs); runs) eq_refl
    ltac:(in_range) Hw ltac:(apply vaultb_ok; runs) ltac:(apply keyedb_ok; runs)
    ltac:(apply supplyb_ok; runs))
    as (m & ai & signers & lo & hi & _ & _ & _ & _ & _ & _ & _ & H1 & _ & H2 & _).
  exists lo, hi. assumptions.
Defined.

Lemma process_confidential_burn_effect_witness : ∃ w', burn_run = Ok w' ∧
  ∃ n, vault_at w' source_key (v_send n source_vault) ∧ supply_at w' mint_key 500 (2 + n) ∧
    0 ≤ n < 2 ^ 48.
Proof.
  destruct (run_Ok burn_run) as [w' Hw]; [runs|]. exists w'. split; [exact Hw|].
  destruct (process_confidential_burn_effect id (info source_key) (info mint_key)
    [proof 3; proof 4; proof 5; signer owner_key]
    (mkBurnData (zeros 36) (auditor_ciphertext 25) (auditor_ciphertext 0) 0 0 0) supply_world w'
    source_vault 500 2 example_sizes ltac:(apply (proofs_holdb_ok supply_proofs); runs) eq_refl
    ltac:(in_range) Hw ltac:(apply vaultb_ok; runs) ltac:(apply supplyb_ok; runs)
    ltac:(apply supply_keyedb_ok; runs))
    as (ai & signers & n & _ & H1 & _ & H2 & _ & H3 & _).
  exists n. exact (conj H2 (conj H3 H1)).
Defined.

(** The fees withheld in a world: each account withholds what a table says. *)
Definition feesb (w : world) (pk : list byte) (fees : Pubkey → Z) : bool :=
  forallb (λ '(k, _), match account_at w k with
                      | Some st =>
                          match get_account_ext ConfidentialTransferFeeAmount (tlv_data st) with
                          | Ok e => decryptsb (le_combine pk) (ctfa_withheld_amount e) (fees k)
                          | _ => true
                          end
                      | None => true
                      end) (map_to_list (accts w)).
Lemma feesb_ok w mk pk fees : feesb w pk fees = true → fees_at mk pk w fees.
Proof.
  intros H k st e Ho Hst _ He. unfold feesb in H. rewrite forallb_forall in H.
  destruct (accts w !! k) as [a|] eqn:E; [|unfold get_account in Ho; rewrite E in Ho; discriminate Ho].
  specialize (H (k, a)). cbn beta iota in H. rewrite Hst, He in H.
  by apply decryptsb_ok, H, list_elem_of_In, elem_of_map_to_list.
Qed.

Lemma process_withdraw_encrypted_fees_effect_witness : ∃ w' fees' n, fee_withdraw_run = Ok w' ∧
  collects [proof_key 5; owner_key; source_key; dest_key]
    (λ k, if k =? source_key then 4 else if k =? dest_key then 1 else 0)
    fees' 0 n ∧
  fees_at mint_key (example_key 11) w' fees' ∧ vault_at w' dest_key (v_collect n dest_vault).
Proof.
  destruct (run_Ok fee_withdraw_run) as [w' Hw]; [runs|].
  destruct (mint_read fee_world ConfidentialTransferFeeConfig) as (m & cfg & Hm & Hcfg); [runs|].
  assert ((match mint_at fee_world mint_key with
           | Some m =>
               match get_mint_ext ConfidentialTransferFeeConfig (tlv_data m) with
               | Ok c => bytes_eqb (ctfc_withdraw_withheld_authority_elgamal_pubkey c) (example_key 11)
               | _ => false
               end
           | None => false
           end) = true) as Hk by runs.
  rewrite Hm, Hcfg in Hk. apply bool_decide_eq_true in Hk.
  destruct (process_withdraw_encrypted_fees_effect example_sizes id (info mint_key) (info dest_key)
    [proof 5; signer owner_key; info source_key; info dest_key] 2 (zeros 36) 0 fee_world w' dest_vault
    m cfg (λ k, if k =? source_key then 4 else if k =? dest_key then 1 else 0)
    [proof_key 5; owner_key; source_key; dest_key]) as (_ & fees' & n & H1 & H2 & H3); [| |apply (proofs_holdb_ok fee_proofs); runs|
    reflexivity|exact Hm|exact Hcfg|rewrite Hk; apply feesb_ok; runs|apply vaultb_ok; runs|
    apply keyedb_ok; runs|exact Hw|].
  - apply (bool_decide_eq_true_1 _). vm_compute. reflexivity.
  - intros i Hi. exact (list_elem_of_fmap_2 key _ i Hi).
  - exists w', fees', n. rewrite Hk in H2. assumptions.
Defined.

(** ** A wallet

    Points are residues, so a key is its secret, openings do not matter, and proofs
    are made of true statements only. *)
Module wallet_example.
Definition g : Z := le_combine ciphertext_arithmetic.G.

(** The inverse of half the generator, which is odd: each step doubles the bits that
    are right. *)
Definition half_inverse : Z :=
  Nat.iter 9 (λ x, x * (2 - g / 2 * x) mod 2 ^ 255) 1.

(** What a ciphertext holds for a key, as a multiple of the generator *)
Definition log (s : Z) (c : Z * Z) : Z :=
  (c.1 - s * c.2) mod residues.N / 2 * half_inverse mod 2 ^ 255.
Definition holds (s : Z) (c : Z * Z) (n : Z) : Prop := (c.1 - s * c.2 - n * g) mod residues.N = 0.
Definition ae_bytes : Type := { b : list byte | length b = 36%nat }.
Definition ae_of (n : Z) : ae_bytes := exist _ (le_split 36 n) (length_le_split 36 n).

#[export] Instance example_sdk : WalletSdk := {|
  ElGamalSecretKey := Z;
  ElGamalPubkey := Z;
  ElGamalKeypair := Z;
  AeKey := unit;
  ElGamalCiphertext := Z * Z;
  AeCiphertext := ae_bytes;
  PedersenOpening := unit;
  PedersenCommitment := Z;
  GroupedElGamalCiphertext := Z * list Z;
  pubkey s := s;
  default_pubkey := 0;
  ciphertext_from_pod b :=
    if (length b =? 64)%nat then Some (le_combine (take 32 b), le_combine (drop 32 b)) else None;
  decrypt_u32 s c := if log s c <? 2 ^ 32 then Some (log s c) else None;
  ae_from_pod b := match decide (length b = 36%nat) with left H => Some (exist _ b H) | right _ => None end;
  ae_to_pod c := `c;
  ae_decrypt _ c := Some (le_combine (`c));
  ae_nonce := unit;
  ae_encrypt _ _ n := ae_of n;
  elgamal_encode n := (n * g, 0);
  ciphertext_add c d := (c.1 + d.1, c.2 + d.2);
  ciphertext_sub c d := (c.1 - d.1, c.2 - d.2);
  ciphertext_mul c n := (c.1 * n, c.2 * n);
  pedersen_with n _ := n * g;
  commitment_add := Z.add;
  commitment_sub := Z.sub;
  commitment_mul := Z.mul;
  default_opening := tt;
  opening_add _ _ := tt;
  opening_sub _ _ := tt;
  opening_mul _ _ := tt;
  encrypt_with keys n _ := (n * g, keys);
  grouped_commitment c := c.1;
  to_elgamal_ciphertext c i := _ ← c.2 !! i; Some (c.1, 0);
  ZeroCiphertextProofData := unit;
  CiphertextCommitmentEqualityProofData := unit;
  BatchedGroupedCiphertext2HandlesValidityProofData := unit;
  BatchedGroupedCiphertext3HandlesValidityProofData := unit;
  PercentageWithCapProofData := unit;
  BatchedRangeProofData _ := unit;
  zero_ciphertext_proof s c := if (c.1 - s * c.2) mod residues.N =? 0 then Some tt else None;
  Wallet.equality_proof s c com _ n :=
    if ((c.1 - s * c.2 - n * g) mod residues.N =? 0) && (com =? n * g) then Some tt else None;
  validity_proof_2 k1 k2 c_lo c_hi lo hi _ _ :=
    if bool_decide (c_lo = (lo * g, [k1; k2]) ∧ c_hi = (hi * g, [k1; k2])) then Some tt else None;
  validity_proof_3 k1 k2 k3 c_lo c_hi lo hi _ _ :=
    if bool_decide (c_lo = (lo * g, [k1; k2; k3]) ∧ c_hi = (hi * g, [k1; k2; k3])) then Some tt else None;
  validity_context _ := mkGrouped3 [] [] [] (zeros 128) (zeros 128);
  percentage_proof com _ n delta _ delta_n claimed _ maximum :=
    if bool_decide (com = n * g ∧ claimed = delta_n * g ∧ (n = maximum ∨ delta = delta_n * g))
    then Some tt else None;
  Wallet.range_proof total coms values lengths openings :=
    if bool_decide (foldr Z.add 0 lengths = total ∧ coms = ((λ n, n * g) <$> values) ∧
                    length openings = length values ∧ Forall2 (λ v b, 0 ≤ v < 2 ^ b) values lengths)
    then Some tt else None;
|}.

Lemma half_inverse_eq : g / 2 * half_inverse mod 2 ^ 255 = 1.
Proof. by vm_compute. Qed.

Lemma log_eq s c n : 0 ≤ n < 2 ^ 255 → holds s c n → log s c = n.
Proof.
  unfold holds, log. intros Hn Hc. assert ((c.1 - s * c.2) mod residues.N = (2 * (n * (g / 2))) mod residues.N) as ->.
  { replace (2 * (n * (g / 2))) with (n * g) by (assert (g = 2 * (g / 2)) as Hg by done; rewrite Hg at 1; lia).
    rewrite <-(Z.sub_add (n * g) (c.1 - s * c.2)), Z.add_mod, Hc, Z.add_0_l by done.
    by apply Z.mod_mod. }
  change residues.N with (2 * 2 ^ 255). rewrite Z.mul_mod_distr_l, (Z.mul_comm 2), Z.div_mul by done.
  rewrite Z.mul_mod_idemp_l, <-Z.mul_assoc by done.
  rewrite <-Z.mul_mod_idemp_r, half_inverse_eq, Z.mul_1_r by done. by apply Z.mod_small.
Qed.

Lemma holds_combine (f : Z → Z → Z) s c d m n :
  (∀ x y u v, f x y - f u v = f (x - u) (y - v)) → (∀ k x y, f (k * x) (k * y) = k * f x y) →
  (∀ k x y, f (x * k) (y * k) = f x y * k) →
  holds s c m → holds s d n → holds s (f c.1 d.1, f c.2 d.2) (f m n).
Proof.
  intros Hsub Hl Hr [q Hq]%Z.mod_divide [r Hd]%Z.mod_divide; [|done..]. unfold holds. cbn [fst snd].
  rewrite <-Hl, Hsub, <-Hr, Hsub, Hq, Hd, Hr. apply Z.mod_mul. done.
Qed.

#[export] Program Instance example_ciphertext_laws : CiphertextLaws := {| encrypts := holds |}.
Next Obligation. intros pk n. unfold holds. cbn. by replace (n * g - pk * 0 - n * g) with 0 by lia. Qed.
Next Obligation. intros pk c d m n. apply (holds_combine Z.add); lia. Qed.
Next Obligation. intros pk c d m n. apply (holds_combine Z.sub); lia. Qed.
Next Obligation.
  intros pk c m n [q Hq]%Z.mod_divide; [|done]. unfold holds. cbn in *.
  replace (c.1 * n - pk * (c.2 * n) - m * n * g) with (q * n * residues.N) by lia. by apply Z.mod_mul.
Qed.
Next Obligation.
  intros keys n o i pk Hk. exists (n * g, 0). cbn -[lookup] in *. rewrite Hk.
  split; [done|]. unfold holds. cbn.
  by replace (n * g - pk * 0 - n * g) with 0 by lia.
Qed.
Next Obligation. done. Qed.
Next Obligation. intros. cbn. lia. Qed.
Next Obligation. intros. cbn. lia. Qed.
Next Obligation. intros. cbn. lia. Qed.

#[export] Program Instance example_proof_laws : ProofLaws (zk:=example_zk).
Next Obligation.
  intros k c com [] n [Hc ->] _. cbn in *. unfold holds in Hc. rewrite Hc, !Z.eqb_refl. by eexists.
Qed.
Next Obligation. intros * [-> ->]. cbn. rewrite bool_decide_true by done. by eexists. Qed.
Next Obligation. intros * [-> ->]. cbn. rewrite bool_decide_true by done. by eexists. Qed.
Next Obligation. intros. split; vm_compute; by eexists. Qed.
Next Obligation. intros * (-> & -> & Hor). cbn. rewrite bool_decide_true by done. by eexists. Qed.
Next Obligation.
  intros total coms values lengths openings (_ & _ & _ & Hsum & -> & Hlen & Hr). cbn. rewrite bool_decide_true; [by eexists|].
  split; [done|]. split; [|done]. clear Hr. revert openings Hlen.
  induction values as [|v vs IH]; intros [|o os] Hlen; [done..|]. cbn. f_equal. apply IH. by injection Hlen.
Qed.

Lemma decrypts_holds s b n : decrypts s b n →
  ∃ c, ciphertext_from_pod b = Some c ∧ holds s c n.
Proof.
  intros [h ->]. set (x := padd _ _).
  exists (le_combine (encode x), le_combine (encode h)). split.
  - unfold pair_ciphertext. clearbody x. unfold ciphertext_from_pod, example_sdk.
    rewrite take_app_length', drop_app_length', length_app, !length_encode; [done|..];
      by rewrite length_encode.
  - unfold holds, encode, residue_group. cbn [fst snd]. rewrite !combine_encode. unfold x.
    cbn -[le_combine ciphertext_arithmetic.G]. fold g. rewrite Zmult_mod_idemp_r, <-Zplus_mod, <-Z.sub_add_distr, Zminus_mod_idemp_l.
    by replace (n * g + s * `h - (s * `h + n * g)) with 0 by lia.
Qed.

#[export] Program Instance example_wallet_laws :
  WalletLaws (rt:=example_runtime) (curve:=residue_curve) (group:=residue_group) :=
  {| secret_scalar := λ s : Z, s |}.
Next Obligation.
  intros s b n Hn (c & Hc & Hh)%decrypts_holds. exists c. split; [done|]. cbn.
  rewrite (log_eq s c n) by (unfold in_uint in *; try done; lia).
  destruct (Z.ltb_spec n (2 ^ 32)); [done|]. unfold in_uint in Hn. lia.
Qed.
Next Obligation.
  intros [b Hb]. cbn. destruct (decide (length b = 36%nat)); [|done]. f_equal. by apply sig_eq_pi; [apply _|].
Qed.
Next Obligation. intros [b Hb]. exact Hb. Qed.
Next Obligation.
  intros k nonce n Hn. cbn. rewrite le_combine_split. f_equal. apply Z.mod_small. unfold in_uint in Hn. lia.
Qed.

(** 200000 of 1000000 tokens are transferred: 2000 of them are the fee; then more than
    there are. *)
Definition current : Z * Z := (1000000 * g, 0).
Definition openings : proof_generation.SplitOpenings := proof_generation.mkSplitOpenings tt tt tt tt.
Definition fee_openings : proof_generation.FeeOpenings := proof_generation.mkFeeOpenings tt tt tt.
Definition transfer_of (n : Z) : proof_generation.gen_result proof_generation.TransferWithFeeProofData :=
  proof_generation.transfer_with_fee_split_proof_data (sdk:=example_sdk) (zk:=example_zk) openings
    fee_openings current (ae_of 1000000) n 7 tt 8 None 9 100 5000.

Lemma transfer_with_fee_proofs_witness :
  (∃ d, transfer_of 200000 = Ok d ∧
    fee_proofs_true example_fee 8 9 200000 800000 2000
      (proof_generation.tw_percentage_with_cap_proof_data d)
      (proof_generation.tw_fee_ciphertext_validity_proof_data d)
      (proof_generation.tw_range_proof_data d)) ∧
  transfer_of (2 ^ 50) = Err proof_generation.NotEnoughFunds.
Proof.
  split.
  - destruct (transfer_with_fee_proofs (zk:=example_zk) openings fee_openings current (ae_of 1000000)
      200000 7 tt 8 None 9 example_fee 1000000 example_fee_ok) as (_ & H).
    + reflexivity.
    + reflexivity.
    + in_range.
    + in_range.
    + destruct (proj1 H ltac:(done) ltac:(done)) as (d & fee & Hd & Hfee & _ & _ & Ht). exists d. split; [exact Hd|].
      injection Hfee as <-. exact Ht.
  - refine (proj1 (transfer_with_fee_proofs (zk:=example_zk) openings fee_openings current (ae_of 1000000)
      (2 ^ 50) 7 tt 8 None 9 example_fee 1000000 example_fee_ok _ _ _ _) _);
      [reflexivity|reflexivity|in_range|in_range|reflexivity].
Defined.
End wallet_example.
