(* ===== verification/ExamplesRegistry.v ===== *)
(** * The registry program on concrete worlds

    A wallet creates its registry, changes its key, and a token account takes it. *)
From S2P Require Import Prelude Codec Errors Runtime Pod State ExtensionType ExtensionData Tlv.
From S2P Require Import TlvFacts TlvAlloc StateExt Fee Authority Transfer AccountFacts.
From S2P Require Import InitOps SystemOps Unborn CiphertextOps CiphertextFacts ProofExtraction.
From S2P Require Import ConfidentialOps ConfidentialTransferOps ConfidentialFacts.
From S2P Require Import ConfidentialLedger Registry.
From S2P Require Import Examples ExamplesSystem ExamplesZk ExamplesVault ExamplesInterface.

#[local] Existing Instance example_runtime.
Import Example elgamal_registry.

#[export] Instance example_addresses : ProgramAddresses :=
  {| find_program_address seeds program_id := (1000000 + le_combine (nth 1 seeds []), 255) |}.

(** The keys of the secrets 7 and 8 were proved valid. *)
Definition proved (pk : list byte) : Prop := pk = example_key 7 ∨ pk = example_key 8.

Lemma proved_length pk : proved pk → length pk = elgamal_pubkey_len.
Proof. intros [-> | ->]; apply length_le_split. Qed.

Definition key_proof_okb (a : SolAccount) : bool :=
  (negb (owner a =? zk_elgamal_proof_program_id) || bool_decide (proved (field 0 (drop 33 (data a))))) &&
  negb (owner a =? 4).
Definition key_proofs_okb (w : world) : bool :=
  forallb (λ '(_, a), key_proof_okb a) (map_to_list (accts w)).

Lemma forallb_accounts (P : SolAccount → bool) w k :
  forallb (λ '(_, a), P a) (map_to_list (accts w)) = true → P empty_account = true →
  P (get_account w k) = true.
Proof.
  intros H He. rewrite forallb_forall in H. unfold get_account.
  destruct (accts w !! k) as [a|] eqn:E; [|done].
  apply (H (k, a)). by apply list_elem_of_In, elem_of_map_to_list.
Qed.

Lemma key_proofs_okb_ok w : key_proofs_okb w = true → key_proofs_hold proved w.
Proof.
  intros H held accounts off ctx rest. unfold verify_and_extract_context. destruct (off =? 0).
  - intros ([i rest'] & _ & (u & Ho%throw_unless_key & (d & [_ ->]%borrow_Ok & ([ty c] & Hd &
      (u1 & Ht%throw_unless_key & [= <- _])%bind_Ok)%bind_Ok)%bind_Ok)%bind_Ok)%bind_Ok.
    pose proof (forallb_accounts key_proof_okb w (key i) H eq_refl) as Hk. unfold key_proof_okb in Hk.
    unfold info_owner in Ho. rewrite Ho, Z.eqb_refl in Hk.
    apply andb_prop in Hk as [Hk%bool_decide_eq_true _].
    change (proof_context_state ProofType.PubkeyValidity (info_data w i)) with
      (if (length (info_data w i) <? 33)%nat then Err InvalidAccountData
       else Ok (le_combine (slice 32 33 (info_data w i)),
                example_context ProofType.PubkeyValidity (drop 33 (info_data w i)))) in Hd.
    destruct (_ <? 33)%nat; [discriminate Hd|]. injection Hd as _ <-. exact Hk.
  - intros ([sv rest'] & _ & (z & Hz & _)%bind_Ok)%bind_Ok.
    apply bind_Ok in Hz as (d & _ & (u & Ho%throw_unless_key & _)%bind_Ok).
    pose proof (forallb_accounts key_proof_okb w (key sv) H eq_refl) as Hk. unfold key_proof_okb in Hk.
    unfold info_owner in Ho. rewrite Ho, andb_false_r in Hk. discriminate Hk.
Qed.

(** The wallet, its registry, and the proofs of two keys. *)
Definition wallet_key : Pubkey := owner_key.
Definition registry_key : Pubkey := get_elgamal_registry_address wallet_key elgamal_registry_id.
Definition key_proof (s : Z) : SolAccount :=
  mkAccount 1000 (context_state ProofType.PubkeyValidity (example_key s)) zk_elgamal_proof_program_id.
Definition registry_world : world := mkWorld
  (<[registry_key := mkAccount 1000 [] system_program_id]>
   (<[907 := key_proof 7]> (<[908 := key_proof 8]> ∅))) [].

Definition create_accounts : list AccountInfo :=
  [info registry_key; signer wallet_key; info 0; info 907].
Definition update_accounts : list AccountInfo :=
  [info registry_key; info 908; signer wallet_key].
Definition run_registry (accounts : list AccountInfo) (i : RegistryInstruction) (w : world) : world :=
  default w (ok_opt (process_instruction elgamal_registry_id accounts (RegistryInstruction_pack i) w)).
Definition created_world : world := run_registry create_accounts (CreateRegistry 0) registry_world.
Definition updated_world : world := run_registry update_accounts (UpdateRegistry 0) created_world.

Definition signers_okb (accounts : list AccountInfo) : bool :=
  forallb (λ i, example_metadata.in_range_b 256 (key i) && (negb (is_signer i) || negb (key i =? 0))) accounts.
Lemma signers_okb_ok accounts : signers_okb accounts = true → signers_ok accounts.
Proof.
  intros H i Hi. unfold signers_okb in H. rewrite forallb_forall in H.
  apply list_elem_of_In, H, andb_true_iff in Hi as [Hk Hs].
  apply andb_true_iff in Hk as [H1%Z.leb_le H2%Z.ltb_lt]. split; [by split|].
  intros E. rewrite E in Hs. by apply negb_true_iff, Z.eqb_neq in Hs.
Qed.

(** A step that the example can take. *)
Lemma run_registry_step accounts i w : signers_okb accounts = true → key_proofs_okb w = true →
  is_ok (process_instruction elgamal_registry_id accounts (RegistryInstruction_pack i) w) = true →
  registry_step proved (Some accounts) w (run_registry accounts i w).
Proof.
  intros Hs Hp [w' Hw]%run_ok.
  eapply registry_instruction; [by apply signers_okb_ok|by apply key_proofs_okb_ok|].
  unfold run_registry. rewrite Hw. reflexivity.
Qed.

Definition not_registries (w : world) : bool :=
  forallb (λ '(_, a), negb (owner a =? elgamal_registry_id)) (map_to_list (accts w)).
Lemma not_registries_ok w k : not_registries w = true → owner (get_account w k) ≠ elgamal_registry_id.
Proof.
  intros H. apply Z.eqb_neq, negb_true_iff.
  apply (forallb_accounts (λ a, negb (owner a =? elgamal_registry_id)) w k H). by vm_compute.
Qed.

Lemma created_step : registry_step proved (Some create_accounts) registry_world created_world.
Proof.
  apply (run_registry_step create_accounts (CreateRegistry 0) registry_world); vm_compute; reflexivity.
Qed.
Lemma updated_step : registry_step proved (Some update_accounts) created_world updated_world.
Proof.
  apply (run_registry_step update_accounts (UpdateRegistry 0) created_world); vm_compute; reflexivity.
Qed.
Lemma updated_world_reached : registry_trace proved registry_world updated_world.
Proof.
  apply (registry_next proved (Some update_accounts) _ created_world); [|exact updated_step].
  apply (registry_next proved (Some create_accounts) _ registry_world); [|exact created_step].
  apply registry_start.
Qed.

Lemma registry_belongs_to_wallet_witness :
  ∃ r, registry_at proved updated_world registry_key r ∧
    c_write elgamal_pubkey_codec (er_elgamal_pubkey r) = example_key 8 ∧
    ∀ b w', registry_step proved b updated_world w' → registries_kept proved b updated_world w'.
Proof.
  assert (system_program_id ≠ elgamal_registry_id) as Hother by (vm_compute; discriminate).
  assert (∀ k, owner (get_account registry_world k) ≠ elgamal_registry_id) as Hnew
    by (intros k; apply not_registries_ok; vm_compute; reflexivity).
  destruct (registry_belongs_to_wallet proved proved_length Hother registry_world updated_world
    Hnew updated_world_reached) as [Hs Hk].
  destruct (Hs registry_key) as [[n Hz]|[r Hr]]; [vm_compute; reflexivity| |].
  - exfalso. apply (f_equal (take 2)) in Hz.
    assert (take 2 (zeros n) = take 2 (data (get_account updated_world registry_key)) → False) as H.
    { destruct n as [|[|n]]; vm_compute; discriminate. }
    apply H. symmetry. exact Hz.
  - exists r. split; [exact Hr|]. split; [|exact Hk].
    destruct Hr as (_ & Hd & _). apply (f_equal (drop 32)) in Hd.
    change (drop 32 (c_write ElGamalRegistry_codec r)) with
      (drop 32 (c_write pubkey (er_owner r) ++ c_write elgamal_pubkey_codec (er_elgamal_pubkey r))) in Hd.
    rewrite drop_app_length' in Hd; [|rewrite c_write_length; reflexivity].
    rewrite <-Hd. vm_compute. reflexivity.
Defined.

(** A token account of the wallet, and its mint. *)
Definition fresh_state : PodStateMut PodAccount :=
  mkState (account_base wallet_key 900) (type_byte PodAccount) (tlv_of [] 400).
Definition token_world : world :=
  set_account (set_account updated_world mint_key (ExamplesVault.mint_with [auditing_mint 21]))
    source_key (mkAccount 1000 (state_bytes PodAccount fresh_state) id).
Definition configure_accounts : list AccountInfo :=
  [info source_key; info mint_key; info registry_key].

Lemma token_world_sound : registries_sound proved token_world.
Proof.
  assert (others_step updated_world token_world) as Hs.
  { intros k. cbn zeta. unfold token_world. rewrite !get_set_account.
    assert (get_account updated_world source_key = empty_account) as E1 by (vm_compute; reflexivity).
    assert (get_account updated_world mint_key = empty_account) as E2 by (vm_compute; reflexivity).
    assert (owner empty_account ≠ elgamal_registry_id) as H0 by (vm_compute; discriminate).
    assert (Authority.id ≠ elgamal_registry_id) as H1 by (vm_compute; discriminate).
    case_decide as D1; [subst k; rewrite E1; by split|].
    case_decide as D2; [subst k; rewrite E2; by split|].
    split; [by split|]. by intros ? ?. }
  apply (others_step_sound _ _ _ Hs).
  apply (registry_trace_sound proved proved_length ltac:(vm_compute; discriminate) registry_world);
    [intros k; apply not_registries_ok; vm_compute; reflexivity|exact updated_world_reached].
Qed.

Definition not_account (a : SolAccount) : bool := negb (is_ok (unpack_account (data a))).
Lemma no_accounts : forallb (λ '(_, a), not_account a) (map_to_list (accts updated_world)) = true.
Proof. vm_compute. reflexivity. Qed.

Lemma token_world_entries k st : account_at token_world k = Some st → has_entries (tlv_data st).
Proof.
  intros Hst%account_at_Some. unfold token_world in Hst. rewrite !get_set_account in Hst.
  assert (state_ok PodAccount fresh_state) as Hok.
  { constructor; [|vm_compute; reflexivity|by right|vm_compute; discriminate].
    apply PodAccount_ok. refine (conj _ (conj _ (conj _ (conj (co_none_ok 32) (conj _
      (conj (co_none_ok 8) (conj _ (co_none_ok 32)))))))); in_range. }
  case_decide as D1; [|case_decide as D2].
  - cbn [data] in Hst. rewrite (unpack_state_bytes _ _ Hok) in Hst. injection Hst as <-.
    exists [], 400%nat. split; [reflexivity|]. by repeat constructor.
  - exfalso. assert (is_ok (unpack_account (data (ExamplesVault.mint_with [auditing_mint 21]))) = false) as E
      by (vm_compute; reflexivity). by rewrite Hst in E.
  - exfalso. pose proof (forallb_accounts not_account updated_world k no_accounts eq_refl) as E.
    unfold not_account in E. by rewrite Hst in E.
Qed.

Lemma configured_from_registry_witness : ∃ w' st' c,
  confidential_transfer.process_configure_account_with_registry id configure_accounts token_world =
    Ok w' ∧ account_at w' source_key = Some st' ∧
  get_account_ext ConfidentialTransferAccount (tlv_data st') = Ok c ∧ proved (cta_elgamal_pubkey c).
Proof.
  assert (is_ok (confidential_transfer.process_configure_account_with_registry id configure_accounts
    token_world) = true) as [w' Hw]%run_ok by (vm_compute; reflexivity).
  destruct (configured_from_registry proved id configure_accounts token_world w' example_sizes
    token_world_sound token_world_entries Hw)
    as (ti & mi & ri & rest & st & st' & c & Ha & Hst & Hst' & _ & Hc & Hcert).
  injection Ha as <- _ _ _. exists w', st', c. split; [exact Hw|]. split; [exact Hst'|].
  split; [exact Hc|]. apply Hcert.
  assert ((match account_at token_world source_key with
           | Some st => negb (acc_owner (base st) =? Pubkey_default) | None => false end) = true) as H
    by (vm_compute; reflexivity).
  change (key (info source_key)) with source_key in Hst. rewrite Hst in H.
  apply negb_true_iff, Z.eqb_neq in H. exact H.
Defined.
