(* ===== verification/ExamplesOft.v ===== *)
(** * The OFT program on concrete worlds

    An escrow is opened for the mint of the examples, tokens are sent to another chain
    and come back, through the token program of this repository. *)
From stdpp Require Import relations.
From S2P Require Import Prelude Codec Errors Runtime Pod State ExtensionType ExtensionData Tlv.
From S2P Require Import TlvFacts TlvAlloc StateExt Fee Authority Transfer AccountFacts.
From S2P Require Import Instruction InitOps SystemOps UiAmountOps CiphertextOps CiphertextFacts.
From S2P Require Import ProofExtraction InterfaceOps LedgerSpec Ledger LedgerFacts Registry.
From S2P Require Import OftState OftOps Processor OftFacts.
From S2P Require Import Examples ExamplesSystem ExamplesZk ExamplesInterface.

#[local] Existing Instance example_runtime.
#[local] Existing Instance example_metadata.Metadata_laws.
Import residues.
Import Example.

(** ** A rate limiter *)
Definition limiter : RateLimiter := mkRateLimiter 1000 200 10 50.
Definition limiter_calls : list (Z * limiter_call) :=
  [(50, TryConsume 150); (60, TryConsume 120); (61, Refill 500); (200, TryConsume 999)].
Lemma rate_limiter_bounds_witness : ∃ l', limiter_run limiter_calls limiter = Ok l' ∧
  consumed limiter_calls = 1269 ∧ consumed limiter_calls ≤ 200 + 500 + 10 * (200 - 50).
Proof.
  destruct (run_ok (limiter_run limiter_calls limiter)) as [l' Hl]; [runs|].
  exists l'. split; [exact Hl|]. split; [reflexivity|].
  pose proof (rate_limiter_bounds limiter_calls limiter l' ltac:(constructor; cbn; lia)
    ltac:(cbn; lia) Hl) as [H _].
  assert (last_refill_time l' = 200) as E.
  { assert (last_refill_time <$> ok_opt (limiter_run limiter_calls limiter) = Some 200) as E
      by reflexivity. rewrite Hl in E. by injection E. }
  rewrite E in H. exact H.
Defined.

(** ** Addresses, an endpoint and a token program *)
Definition example_address (seeds : list (list byte)) : Pubkey :=
  2 ^ 200 + 1000000 * Z.of_nat (length (nth 0 seeds [])) + le_combine (nth 1 seeds []).

#[local] Instance oft_addresses : ProgramAddresses :=
  {| find_program_address seeds program_id := (example_address seeds, 255) |}.

#[export] Instance example_token : TokenInterface :=
  {| token_process p accounts data w :=
       if p =? id then process id accounts data w else Err IncorrectProgramId |}.

Definition open_account (i : AccountInfo) (mint authority program : Pubkey) (w : world) : world :=
  set_account w (key i) (mkAccount 1000
    (state_bytes PodAccount (mkState
       (mkPodAccount mint authority 0 co_none 1 co_none 0 co_none) (type_byte PodAccount)
       (tlv_of [(ExtensionType.TransferFeeAmount, c_write ext_codec (mkTransferFeeAmount 0))] 0)))
    program).
Definition opened (w : world) (k mint authority : Pubkey) : bool :=
  match token_at w k with
  | Some x => (acc_owner x =? authority) && (acc_mint x =? mint)
  | None => false
  end.
Definition example_init (i : AccountInfo) (mint authority program : Pubkey) (w : world) :
    oft_result world :=
  let w' := open_account i mint authority program w in
  if (info_owner w i =? system_program_id) && opened w' (key i) mint authority
  then Ok w' else Err Constraint.

#[export] Instance example_anchor : Anchor := {|
  oft_id := 5000;
  create_program_address seeds program_id := Some (example_address (removelast seeds));
  get_associated_token_address wallet mint program := wallet + mint;
  associated_token_id := 5001;
  init_account payer i n w :=
    if info_owner w i =? system_program_id
    then Ok (set_account w (key i) (mkAccount 1000 (zeros n) 5000)) else Err Constraint;
  init_token_account payer i mint authority program w := example_init i mint authority program w;
  init_associated_token_account payer i wallet mint program w :=
    example_init i mint wallet program w;
|}.

#[export] Instance example_endpoint : Endpoint := {|
  ENDPOINT_ID := 5002;
  LZ_RECEIVE_TYPES_SEED := String.list_byte_of_string "LzReceiveTypes";
  EVENT_SEED := String.list_byte_of_string "__event_authority";
  Clear_MIN_ACCOUNTS_LEN := 1;
  MessagingFee := Z;
  MessagingReceipt := list byte;
  guid r := take 32 r;
  endpoint_quote p l params w := Ok (Z.of_nat (length (q_message params)));
  endpoint_send p s l seeds params w := Ok (e_message params, w);
  endpoint_clear p s l seeds params w := Ok w;
  endpoint_send_compose p s l seeds params w := Ok w;
  endpoint_register_oapp p s l seeds delegate w := Ok w;
  endpoint_set_delegate p s l seeds delegate w := Ok w;
  options_combine a b := Ok (a ++ b);
  assert_type_3 o := Ok tt;
  get_accounts_for_clear p s eid sender nonce := [];
  get_accounts_for_send_compose p s to guid i message := [];
|}.

Lemma example_hooks : hooks_ok.
Proof.
  constructor; intros p s m d a l n w w' [= <-]; [|reflexivity].
  intros k. split; [by split|]. intros Ho Ho'. by rewrite Ho' in Ho.
Qed.

#[export] Instance example_token_laws : TokenLaws.
Proof.
  intros q Hq. destruct (Z.eqb_spec q id) as [->|Hne].
  - apply token_2022_keeps_laws; [|apply example_hooks]. intros accounts data w.
    cbn [token_process example_token]. by rewrite Z.eqb_refl.
  - constructor; intros *; cbn [token_process example_token]; intros;
      (destruct (Z.eqb_spec q id); [done|discriminate]).
Qed.

(** An account of the system program is no token account. *)
Lemma set_system_spares w i a : info_owner w i = system_program_id →
  spares w (set_account w (key i) a).
Proof.
  intros Ho k x Hx _. destruct (decide (key i = k)) as [<-|Hk].
  - unfold token_at in Hx. unfold info_owner in Ho. rewrite Ho in Hx.
    replace (is_token_program system_program_id) with false in Hx by (vm_compute; reflexivity).
    discriminate Hx.
  - apply (holds_same w); [by rewrite get_set_account, decide_False..|done].
Qed.

Lemma example_init_Ok i mint authority program w w' : example_init i mint authority program w = Ok w' →
  spares w w' ∧ ∃ x, token_at w' (key i) = Some x ∧ acc_owner x = authority ∧ acc_mint x = mint.
Proof.
  unfold example_init. destruct (_ =? _) eqn:Ho; [|discriminate]. apply Z.eqb_eq in Ho. cbn [andb].
  destruct (opened _ _ _ _) eqn:E; [|discriminate]. intros [= <-].
  split; [by apply set_system_spares|]. unfold opened in E.
  destruct (token_at _ _) as [x|]; [|discriminate]. apply andb_prop in E as [H1%Z.eqb_eq H2%Z.eqb_eq].
  by exists x.
Qed.

#[export] Instance example_anchor_laws : AnchorLaws.
Proof.
  constructor.
  - intros seeds k b [= <- <-]. cbn [create_program_address example_anchor].
    by rewrite removelast_last.
  - intros payer i n w w'. cbn [init_account example_anchor]. destruct (Z.eqb_spec (info_owner w i) system_program_id);
      [|discriminate]. intros [= <-]. by apply set_system_spares.
  - intros payer i wallet mint program w w' H.
    exact (proj1 (example_init_Ok i mint wallet program w w' H)).
  - intros payer i mint authority program w w' H. exact (example_init_Ok i mint authority program w w' H).
Qed.

#[export] Instance example_endpoint_laws : EndpointLaws.
Proof. constructor; intros *; cbn; intros H; injection H; intros; subst; reflexivity. Qed.

(** ** A run *)
Definition escrow_key : Pubkey := 3000.
Definition store_key : Pubkey := example_address [OFT_SEED; le_split 32 escrow_key].
Definition types_key : Pubkey := example_address [LZ_RECEIVE_TYPES_SEED; le_split 32 store_key].
Definition peer_key : Pubkey := example_address [PEER_SEED; le_split 32 store_key].
Definition owner_info : AccountInfo := mkInfo owner_key true true.
Definition remote : list byte := le_split 32 77.
Definition to_key : Pubkey := 800.

(** The OFT is opened with two decimals less than the mint; 1% of what is sent is the fee of
    the mint, a quarter of it the fee of the OFT, which its admin withdraws. *)
Definition oft_script : list OftInstruction := [
  InitOft (mkInitOFT owner_info (info store_key) (info types_key) (info mint_key) (info escrow_key)
             (info id) []) (mkInitOFTParams Adapter owner_key 4 None);
  SetPeer (mkSetPeerConfig owner_info (info peer_key) (info store_key)) 30101 (PeerAddress remote);
  SetPeer (mkSetPeerConfig owner_info (info peer_key) (info store_key)) 30101 (FeeBps (Some 2500));
  SetPeer (mkSetPeerConfig owner_info (info peer_key) (info store_key)) 30101
    (OutboundRateLimit (Some (mkRateLimitParams (Some 5) (Some 1000))));
  SendOft (mkSend owner_info (info peer_key) (info store_key) (info source_key) (info escrow_key)
             (info mint_key) (info id) [info 5002; info store_key])
    (mkSendParams 30101 (le_split 32 to_key) 900 600 [] None 0 0);
  Withdraw (mkWithdrawFee owner_info (info store_key) (info mint_key) (info escrow_key)
              (info dest_key) (info id)) 200;
  Receive (mkLzReceive owner_info (info peer_key) (info store_key) (info escrow_key) (info to_key)
             (info (to_key + mint_key)) (info mint_key) None (info id) [info 5002])
    (mkLzReceiveParams 30101 remote 1 [] (le_split 32 to_key ++ to_be_bytes 8 3))
].
Definition oft_state0 : oft_state := mkOft ∅ world0 [].
Fixpoint oft_run (script : list OftInstruction) (st : oft_state) : oft_result oft_state :=
  match script with
  | [] => Ok st
  | i :: script => st ← oft_process i st; oft_run script st
  end.
Definition oft_final : oft_result oft_state := oft_run oft_script oft_state0.

Lemma example_address_large k : oft_address k → 2 ^ 200 ≤ k.
Proof.
  intros [seeds [= <-]]. pose proof (le_combine_bound (nth 1 (removelast seeds) [])) as [H _].
  unfold example_address. lia.
Qed.

Lemma oft_run_reaches script st st' : Forall (λ i, oft_arguments_ok i ∧ oft_signer_ok i) script →
  oft_run script st = Ok st' → rtc oft_step st st'.
Proof.
  intros Hs. revert st. induction Hs as [|i script [Ha Hn] _ IH]; intros st H.
  - by injection H as ->.
  - apply bind_Ok in H as (st1 & H1 & H). eapply rtc_l; [by eapply OftCall|by apply IH].
Qed.

Lemma oft_script_ok : Forall (λ i, oft_arguments_ok i ∧ oft_signer_ok i) oft_script.
Proof.
  assert (¬ oft_address owner_key) as Hn.
  { intros H%example_address_large. revert H. apply Z.nle_gt. reflexivity. }
  repeat constructor; try exact Hn; cbn; try lia; in_range.
Qed.

(** The script runs: 900 tokens were offered, 809 taken, 800 reached the escrow, 600 of
    them locked; the fee of 200 was withdrawn, and 300 came back. *)
Lemma escrow_covers_tvl_witness : ∃ st s x, oft_final = Ok st ∧
  oft_accts st !! store_key = Some (AStore s) ∧ tvl_ld s = 300 ∧
  token_at (chain st) escrow_key = Some x ∧ acc_owner x = store_key ∧ tvl_ld s ≤ amount x.
Proof.
  destruct (run_ok oft_final) as [st Hst]; [runs|].
  assert (match ok_opt oft_final with
          | Some st => match oft_accts st !! store_key with
                       | Some (AStore s) => bool_decide (tvl_ld s = 300 ∧ store_token_escrow s = escrow_key)
                       | _ => false end
          | None => false end = true) as Hs by (vm_compute; reflexivity).
  rewrite Hst in Hs. cbn [ok_opt] in Hs.
  destruct (oft_accts st !! store_key) as [[s|p|t]|] eqn:Hk; [|discriminate Hs..].
  apply bool_decide_eq_true in Hs as [Ht He].
  pose proof (escrow_covers_tvl oft_state0 st store_key s eq_refl
    (oft_run_reaches oft_script oft_state0 st oft_script_ok Hst) Hk) as (_ & _ & x & Hx & Ho & _ & Hle).
  rewrite He in Hx. exists st, s, x. assumptions.
Defined.

(** The fifth instruction of the script, in the state the first four lead to *)
Definition example_send : Send :=
  mkSend owner_info (info peer_key) (info store_key) (info source_key) (info escrow_key)
    (info mint_key) (info id) [info 5002; info store_key].
Definition example_send_params : SendParams :=
  mkSendParams 30101 (le_split 32 to_key) 900 600 [] None 0 0.
Definition opened_state : oft_state :=
  default oft_state0 (ok_opt (oft_run (take 4 oft_script) oft_state0)).
Lemma opened_state_ok : oft_ok opened_state.
Proof.
  destruct (run_ok (oft_run (take 4 oft_script) oft_state0)) as [st Hst]; [runs|].
  unfold opened_state. rewrite Hst. cbn [ok_opt default].
  apply (oft_reachable_ok oft_state0); [reflexivity|].
  eapply oft_run_reaches; [|exact Hst]. apply Forall_take, oft_script_ok.
Qed.

Lemma send_effect_witness : ∃ st' message s,
  send example_send example_send_params opened_state = Ok (st', (message, mkOFTReceipt 809 600)) ∧
  msg_codec.send_to message = Ok (le_split 32 to_key) ∧
  (amount_sd ← msg_codec.amount_sd message; sd2ld s amount_sd) = Ok 600 ∧ 809 ≤ 900 ∧ 600 ≤ 600 ∧
  (∃ t dec fee w, debited t example_send dec 809 fee (chain opened_state) w ∧
     pays (chain opened_state) w source_key 809).
Proof.
  destruct (run_ok (send example_send example_send_params opened_state)) as [[st' [message r]] Hr]; [runs|].
  assert ((λ x, x.2.2) <$> ok_opt (send example_send example_send_params opened_state) =
    Some (mkOFTReceipt 809 600)) as E by (vm_compute; reflexivity).
  rewrite Hr in E. injection E as ->.
  destruct (send_effect example_send example_send_params opened_state st' message
    (mkOFTReceipt 809 600) opened_state_ok ltac:(in_range) ltac:(apply length_le_split) Hr)
    as (s & s' & p & m & fee & w & seeds & options & message' & w' & Hs & _ & _ & Hm & Hsent & Hmin & _ & Hsum &
        Hd & Hpay & He & H1 & H2 & _).
  cbn in He. injection He as -> _. exists st', message, s.
  split; [exact Hr|]. do 4 (split; [assumption|]). eexists _, _, fee, w. split; [exact Hd|].
  apply Hpay; [|exact example_hooks|reflexivity|discriminate].
  intros accounts data w0. cbn [token_process example_token]. rewrite Z.eqb_refl. reflexivity.
Defined.
